(* ===== verification/_CoqProject ===== *)
-Q . S2P
Prelude.v
Types.v
Storage.v
PageCache.v
Dmap.v
Xtree.v
Dtree.v
LogMgr.v
Devices.v
Recovery.v
RecoveryPages.v
Layout.v
Transaction.v
Inode.v
Geometry.v
Utf.v
Volume.v
VolumeData.v
VolumeDir.v
Xattr.v
VolumeOps.v
VolumeTx.v
CrashRecovery.v
DinodeEdit.v
InodeTable.v
Sample.v
Attributes.v
Entries.v
DirMake.v
DirLink.v
FileData.v
FileGrow.v
FileShrink.v
Unlink.v
Check.v
Mkfs.v
Interrupt.v
FuseAbi.v
FuseLocks.v
Fuse.v
FuseFiles.v
FuseServer.v
FuseState.v
FuseSession.v
FuseCalls.v
FuseLife.v
FuseWalk.v
FuseCopy.v
FuseWitness.v
Fresh.v
FuseRoot.v
Tools.v
ToolsRun.v
