(* ===== verification/Prelude.v ===== *)
(** * jfsfuse: a verification library

    jfsfuse serves JFS volumes from user space. Its parts, bottom up: on-disk
    structures; storage devices and the page cache; the block allocation map; the
    extent tree and the directory tree kept in an inode; the journal (log
    manager and crash recovery); the transaction manager, which orders data,
    journal and metadata writes; inode lookup; and above them the mounted volume
    with its file, directory and attribute operations, the formatter, the FUSE
    server and the command line tools. This library models all of them and proves
    what each part promises to the next.

    ** Files

    - [Prelude] (this file): outcomes of Rust code ([Ok], [Err], [Panic]), the
      state and error monads and their loops, machine integers with overflow as
      [Panic], bytes and little-endian words, slices and splices of buffers,
      invariants of stateful code ([keeps]), tactics and the [jfs] and [zl] hints.
      [LittleEndian] and [LittleEndianSpec] stand for the [byteorder] crate.
    - [Types] ([types.rs]): the on-disk records with their accessors. A fixed-size
      byte array is a [list byte] with a length in a [wf_] predicate.
    - [Storage] ([storage/mod.rs]): the trait as the class [Storage]; [FileStorage]
      over a file whose reads and writes may be short or fail (the record [File]
      carries the kernel's choices);
      [MemoryStorage], [NullStorage], [ReadOnlyStorage], [FaultInjector].
      [StorageSpec] is the contract clients are proved against (what calls do to
      the bytes [contents] of a device, also when they fail), [StorageReliable]
      adds that in-range calls succeed; both have instances.
    - [PageCache] ([storage/mod.rs]): [CachedPage], [PageCache] over an abstract LRU
      map ([Lru], [LruSpec], with the list instance [lru_list] that discharges
      them), [ConsistencyChecker], [BufferPool].
    - [Dmap] ([alloc/dmap.rs]): [BlockAllocMap]: load, first-fit search, allocate,
      free, commit to the dmap pages, rollback.
    - [Xtree] ([btree/xtree.rs]): the extent tree root: parse, print, lookup, block
      mapping, reading, insert, replace, truncate, punch, take, split, validate.
    - [Dtree] ([btree/dtree.rs]): the directory tree root: parse, list, look up,
      insert, remove; the cursor of a listing.
    - [LogMgr] ([journal/logmgr.rs]): the log superblock, the buffer of two log
      pages, records and commit records, flushing.
    - [Devices]: two devices as two [Storage] instances over one state, with the
      class [SeparateDevices] and its instances for pairs; sequences of block writes.
    - [Recovery] ([journal/recovery.rs]): commit and page trackers, the log reader,
      record processing, [replay]. [RecoveryPages]: the operations of the module
      that [replay] does not call. [Layout] ([types.rs]): the structures that no
      operation uses, and the integrity check of a log page.
    - [Transaction] ([transaction.rs]): begin, mark_dirty, commit, abort.
    - [Inode] ([inode.rs], [alloc/imap.rs]): inode lookup and parsing.
    - [Geometry] ([storage/geometry.rs], [storage/device_size.rs]): size and sectors
      of files and devices; the answers of stat and ioctl are the record [Handle].
    - [Utf]: the conversions between Rust strings, UTF-16 names and UTF-8 bytes.
    - [Volume], [VolumeData], [VolumeDir], [Xattr] ([volume.rs]): the record [Volume]
      and its operations in the state and error monad [VM]: mount, transactions,
      writing, truncation, fallocate, copy_file_range, setattr; the directory
      operations; the extended attributes. [VolumeOps] collects the operations
      that begin a transaction as the type [VolCall].
    - [VolumeTx], [DinodeEdit], [InodeTable]: the tools to run these operations.
      [vol_ok n v] says that the volume is quiet with room for [n] segments in
      its journal; [inode_bytes v] is then the inode table as a map from numbers
      to dinodes; [txn] describes the volume inside a transaction by the pages
      in the cache; [commit_txn] makes them the table of the volume. [edits]
      describes the writes of a closure to a dinode. [vol_base] is the part of
      [vol_ok] that does not depend on the block map; [next_ok] adds what a call
      that allocates nothing keeps.
    - [CrashRecovery]: the journal and the blocks that a run leaves on the device of a
      volume, and what the next mount makes of them.
    - [Attributes], [Entries], [DirMake], [DirLink], [Unlink]: the theorems on whole
      calls that change attributes and names. [FileData]: reads and writes of mapped
      blocks; [FileGrow]: a write behind the extents of a file; [FileShrink]:
      truncation. [Sample] is a small volume on which the witnesses run.
    - [Check] ([volume.rs]): the consistency check. [Mkfs] ([mkfs.rs]): formatting.
    - [Interrupt] ([fuse/interrupt.rs]): the manager of interrupted requests; the
      flag that a token shares with the manager lives in a store. [FuseAbi]
      ([fuse/abi.rs]): the constants and the mapping of errors and names.
    - [FuseLocks], [Fuse], [FuseFiles] ([fuse/mod.rs]): the record [FuseFs] (the
      volume, lookup counts, handles, record and flock locks) and its operations
      in the monad [FM]. [FuseServer]: a definition per request handler and
      [serve], the request to the reply.
    - [FuseState], [FuseSession], [FuseCalls], [FuseWalk], [FuseCopy]: the theorems on
      the server: its tables, whole sessions, calls on the volume, listing and
      seeking, copying. [FuseLife]: from the creation of a file to its bytes.
      [FuseWitness] has the inputs on which they are used.
    - [Fresh], [FuseRoot]: the image that formatting makes, block by block, its
      mount, and the first requests to it.
    - [Tools] ([bin/]): [jfsck], [newjfs] and [mount] as functions of their
      arguments and the device; [ToolsRun]: what checking and repairing do.

    ** What the theorems show

    - Transactions: a commit that succeeds has put its pages on the file system,
      their records and the commit record on the log, and removed them from the
      cache; no commit changes the file system before its journal step succeeded;
      identifiers are never reused; abort leaves modified data in the cache.
    - Recovery: replay of a log returns success, applies exactly the images of
      committed transactions and marks the log; nothing of an uncommitted
      transaction is applied, for arbitrary records and failing writes. Of the
      transactions journalled since a mount the next one restores the first when
      it has one block, over later writes of that block, and nothing else, because
      the reader takes the padding of a segment for the end of the log; and nothing
      at all in the state that formatting and recovery leave. The older of two
      images wins.
    - Journal: the stream of records on the device after a commit, with their
      back pointers and padding; round trip of the superblock.
    - Allocation: allocation returns free blocks and marks exactly them, keeps
      the count of free blocks, and rollback restores the map; commit writes the
      working map of each dirty page, a set bit for each free block.
    - Trees: round trip of the extent root; insertion, truncation, taking and
      punching change exactly the mapping of their range; reads return the bytes
      of the file; directory insertion and removal change exactly one entry.
    - Devices and cache: the I/O loops transfer everything however the kernel
      splits the transfer, or report its error; the cache never evicts a dirty or pinned page on [put]
      and writes every dirty page on a flush.
    - Inodes: lookup finds the first slot of the table with the wanted fileset
      and number, and parsing keeps all 512 bytes.
    - Calls of the volume, on a device that answers: [setattr], [create_file],
      [mkdir], [symlink], [unlink_file], [setxattr], [removexattr] and [write_at]
      on mapped blocks change the inode table as their specification says, leave
      every other inode alone ([write_at] also every other data block), and give
      [vol_ok] back, so that calls compose; what was written is read.
      [allocate_inode] is the search for the first free slot. A new file is given
      byte by byte, with what it keeps of its slot; a change of the mode by its
      bits, with the flags it drops. [unlink_file], [link_file] and [rmdir] are
      described as they work, with the block of the parent: [unlink_file] for any
      number of links and open handles, with the blocks it frees.
    - Space of files: a write behind the extents takes a run of free blocks and
      maps it; a truncation gives exactly the blocks behind the new end back; the
      two together restore the map of free blocks.
    - Every call that succeeds leaves no transaction open; one that fails to read
      its inode leaves it open and blocks the volume until a sync commits it.
    - Flaws of the volume: a rename can destroy another name, an unlinked inode
      in the block of its directory stays, a new file maps the blocks of the
      deleted one, an extended attribute empties the inode, a truncation inside
      a block is undone by growing; a link to a file in the block of its directory
      is not counted; the data of a file can be taken for an inode.
    - Formatting: the superblock is read back and accepted by a mount; the
      geometry check accepts exactly the volumes that fit the device; an image of
      at least 4096 blocks mounts, and the mounted volume is a state from which
      the theorems on calls that take no data blocks start (those that do ask in
      [space_ok] for free blocks outside the part of the device that is searched
      for inodes, which formatting does not provide).
    - The FUSE server: granted locks exclude each other after any sequence of
      calls, [getlk] predicts [setlk], and a granted call changes only the locks of
      its owner; the node table is the kernel's count of references, batches of
      forgets included; a handle is
      issued once; on a mount that is not writable every request but the releases
      only reads the device, and those that would change the volume are refused;
      [access] is the POSIX decision; reads return the bytes
      of the file and what was written; a directory that was made is found;
      a listing has the dots below offset 2 and the entries from the offset on;
      [SEEK_DATA] finds the next data;
      copying ends within its length; a file that was created and written is read
      back and listed; a token sees exactly the interrupts of its
      own request.
    - Flaws of the server: node 1 is not mapped to the root inode; the check of a
      handle is inverted in the handlers; a listing repeats its last entry and, at
      offset 1, the entry [.]; a release writes to a mount that is not writable; a
      hole is reported inside data; relocking drops the rest of a range.
    - Tools: [jfsck --repair] replays a journal that is not marked as replayed;
      apart from that it changes a stale dirty state and nothing else, and
      nothing when the check reports an error.

    ** Conventions and bounds

    Integers are [Z]; an operation of a width that can overflow on the inputs it
    gets is written with its check ([add_u64], [as_u32], ...). Offsets in the log
    grow by at most a segment per record and are kept below 2^32 by the hypothesis
    [lm_space]. Error messages are kept as their format strings. Loops that are
    not structural take fuel: the I/O loops one unit per byte (a transfer moves at
    least one), [map_blocks] one per block asked for, the parser of an attribute
    list one per byte, [copy_file_range] one per byte asked for, the search for a
    synchronisation point one per byte of the log, the log reader by the number
    of descriptors that fit in the log ([log_fuel]); running out is
    [Panic] or [None], and the theorems that such a loop returns its result show that it does not.
    The iteration order of a [HashSet] is a parameter.

    The journal room of a call is counted in segments of two pages: a transaction
    of [k] pages takes at most [2 * k + 2].

    ** Not modelled

    The third-party [fuser] crate, which decodes requests and encodes replies; the
    FUSE session and the signal loop of [mount]; creating and opening files,
    system calls and threads. A request handler holds the lock of the server
    while it works on the volume, so requests are served one after the other; the
    polls of an interrupt flag during a long read, write or listing are the
    parameter [irq]. The theorems on whole calls leave open:
    writes that cross holes between extents, [fallocate], [punch_hole] and the
    copy of extents as whole calls (their steps on the tree and on the allocator
    have theorems in [Xtree] and [Dmap]), and [rename] beyond the state of the
    transaction and the flaws above. *)

From Stdlib Require Import ZArith Lia Strings.Byte.
From stdpp Require Export base list numbers strings.

#[global] Open Scope Z_scope.

Declare Scope jfs_scope.
Delimit Scope jfs_scope with jfs.
#[global] Open Scope jfs_scope.

(** ** Outcomes of Rust code

    [Ok] and [Err] are the constructors of [std::result::Result]; [Panic] is an
    unwinding (index out of range, slice out of range, integer overflow in a
    build with overflow checks) or an exit of the process. *)
Inductive outcome (E A : Type) : Type :=
| Ok (a : A)
| Err (e : E)
| Panic.
Arguments Ok {_ _} _.
Arguments Err {_ _} _.
Arguments Panic {_ _}.

(** The errors of the storage layer ([storage/mod.rs]), shared by every module.
    A formatted message is kept as its format string. *)
Inductive StorageError : Type :=
| Io (msg : string)
| InvalidSuperblock
| JournalNotReplayed
| UnsupportedBlockSize (size : Z)
| PageNotFound
| ReadOnly
| FaultInjection
| BlockOutOfRange (block size : Z)
| ShortRead (requested actual : Z)
| ShortWrite (requested actual : Z)
| UnexpectedEof (requested actual : Z)
| Interrupted
| XattrNotFound
| XattrAlreadyExists
| XattrNameTooLong
| XattrValueTooLarge
| XattrDataTooLarge
| AlreadyExists
| InvalidName
| NoFreeInode
| NotADirectory
| DirectoryNotEmpty
| NotFound
| InvalidFileType
| NotSupported
| CannotLinkDir
| XattrBufferTooSmall (needed : Z)
| Other (msg : string).

#[global] Instance StorageError_eq_dec : EqDecision StorageError.
Proof. solve_decision. Defined.

(** [storage::Result]. *)
Abbreviation result := (outcome StorageError).

(** The [?] operator and the sequencing of expressions that may panic. *)
Definition obind {E A B} (m : outcome E A) (k : A -> outcome E B) : outcome E B :=
  match m with
  | Ok a => k a
  | Err e => Err e
  | Panic => Panic
  end.

Definition is_ok {E A} (m : outcome E A) : bool :=
  match m with Ok _ => true | _ => false end.

Notation "'let!' x ':=' c1 'in' c2" := (obind c1 (fun x => c2))
  (at level 10, x pattern, c1 at level 200, c2 at level 200)
  : jfs_scope.

(** [Option::ok_or]. *)
Definition ok_or {E A} (o : option A) (e : E) : outcome E A :=
  match o with Some a => Ok a | None => Err e end.

(** Stateful code: every call that mutates takes the state and returns it,
    whatever the outcome of the call is. *)
Definition ST (S E A : Type) : Type := S -> outcome E A * S.

Definition sret {S E A} (a : A) : ST S E A := fun s => (Ok a, s).
Definition sfail {S E A} (e : E) : ST S E A := fun s => (Err e, s).
Definition spanic {S E A} : ST S E A := fun s => (Panic, s).
Definition slift {S E A} (m : outcome E A) : ST S E A := fun s => (m, s).
Definition sget {S E} : ST S E S := fun s => (Ok s, s).
Definition smod {S E} (f : S -> S) : ST S E unit := fun s => (Ok tt, f s).
Definition sbind {S E A B} (m : ST S E A) (k : A -> ST S E B) : ST S E B := fun s =>
  match m s with
  | (Ok a, s') => k a s'
  | (Err e, s') => (Err e, s')
  | (Panic, s') => (Panic, s')
  end.

Notation "'let*' x ':=' c1 'in' c2" := (sbind c1 (fun x => c2))
  (at level 10, x pattern, c1 at level 200, c2 at level 200)
  : jfs_scope.

(** [for x in l { body }] with a body that may leave by [?] or a panic. *)
Fixpoint sfor {S E A} (l : list A) (body : A -> ST S E unit) : ST S E unit :=
  match l with
  | [] => sret tt
  | x :: l' => let* _ := body x in sfor l' body
  end.

Lemma sbind_ok {S E A B} (m : ST S E A) (k : A -> ST S E B) s a s' :
  m s = (Ok a, s') -> sbind m k s = k a s'.
Proof. unfold sbind. by intros ->. Qed.

Lemma sbind_inv {S E A B} (m : ST S E A) (k : A -> ST S E B) s b s' :
  sbind m k s = (Ok b, s') -> exists a s1, m s = (Ok a, s1) /\ k a s1 = (Ok b, s').
Proof. unfold sbind. destruct (m s) as [[a| |] s1] eqn:E1; naive_solver. Qed.

Lemma obind_inv {E A B} (m : outcome E A) (k : A -> outcome E B) b :
  obind m k = Ok b -> exists a, m = Ok a /\ k a = Ok b.
Proof. destruct m; simpl; naive_solver. Qed.

(** An invariant of the state kept by every iteration is kept by the loop. *)
Lemma sfor_invariant {S E A} (P : S -> Prop) (l : list A) (body : A -> ST S E unit) s :
  (forall x s, x ∈ l -> P s -> P (body x s).2) -> P s -> P (sfor l body s).2.
Proof.
  revert s. induction l as [|x l IH]; intros s Hb Hs; simpl; [done|].
  unfold sbind. specialize (Hb x s (list_elem_of_here _ _) Hs) as Hx.
  destruct (body x s) as [[[]| |] s1]; simpl in *; try done.
  apply IH; [|done]. intros y s' Hy. apply Hb. by right.
Qed.

(** [keeps P m]: the state satisfies [P] after [m] when it did before, whatever
    the outcome. *)
Definition keeps {S E A} (P : S -> Prop) (m : ST S E A) : Prop := forall s, P s -> P (m s).2.

Lemma keeps_bind {S E A B} (P : S -> Prop) (m : ST S E A) (k : A -> ST S E B) :
  keeps P m -> (forall a, keeps P (k a)) -> keeps P (sbind m k).
Proof. intros Hm Hk s Hs. unfold sbind. specialize (Hm s Hs). destruct (m s) as [[a| |] s1]; [by apply Hk|done..]. Qed.

Lemma keeps_ret {S E A} (P : S -> Prop) (a : A) : keeps P (sret (E := E) a).
Proof. by intros s. Qed.
Lemma keeps_lift {S E A} (P : S -> Prop) (m : outcome E A) : keeps P (slift m).
Proof. by intros s. Qed.
Lemma keeps_panic {S E A} (P : S -> Prop) : keeps P (spanic (S := S) (E := E) (A := A)).
Proof. by intros s. Qed.
Lemma keeps_if {S E A} (P : S -> Prop) (b : bool) (m1 m2 : ST S E A) : keeps P m1 -> keeps P m2 -> keeps P (if b then m1 else m2).
Proof. by destruct b. Qed.

Lemma keeps_state {S E A} (Q : S -> Prop) (m : S -> ST S E A) : (forall s, keeps Q (m s)) -> keeps Q (fun s => m s s).
Proof. intros Hm s. apply (Hm s). Qed.

Ltac keeps :=
  repeat match goal with
  | H : ?G |- ?G => exact H
  | |- keeps _ (sret _) => apply keeps_ret
  | |- keeps _ (slift _) => apply keeps_lift
  | |- keeps _ spanic => apply keeps_panic
  | |- keeps _ (if _ then _ else _) => apply keeps_if
  | |- keeps _ (sbind _ _) => apply keeps_bind; [|intros ?]
  | |- keeps _ (let _ := _ in _) => cbn zeta
  end.

(** ** Machine integers *)

(** [as u8], [as u16], [as u32], [as u64], [as i64]. *)
Definition as_u8 (z : Z) : Z := z mod 2 ^ 8.
Definition as_u16 (z : Z) : Z := z mod 2 ^ 16.
Definition as_u32 (z : Z) : Z := z mod 2 ^ 32.
Definition as_u64 (z : Z) : Z := z mod 2 ^ 64.
Definition as_i64 (z : Z) : Z := (z + 2 ^ 63) mod 2 ^ 64 - 2 ^ 63.
(** [!x] on u32 and u64. *)
Definition not_u32 (z : Z) : Z := 2 ^ 32 - 1 - z.
Definition not_u64 (z : Z) : Z := 2 ^ 64 - 1 - z.

(** [a + b], [a - b], [a * b] on u64/usize and on u32, with overflow checks. *)
Definition add_u64 {E} (a b : Z) : outcome E Z :=
  if a + b <? 2 ^ 64 then Ok (a + b) else Panic.
Definition sub_u64 {E} (a b : Z) : outcome E Z :=
  if b <=? a then Ok (a - b) else Panic.
Definition mul_u64 {E} (a b : Z) : outcome E Z :=
  if a * b <? 2 ^ 64 then Ok (a * b) else Panic.
Definition add_u32 {E} (a b : Z) : outcome E Z :=
  if a + b <? 2 ^ 32 then Ok (a + b) else Panic.
Definition sub_u32 {E} (a b : Z) : outcome E Z :=
  if b <=? a then Ok (a - b) else Panic.
(** [saturating_sub]. *)
Definition saturating_sub (a b : Z) : Z := Z.max 0 (a - b).

Definition u32_range (z : Z) : Prop := 0 <= z < 2 ^ 32.
Definition u64_range (z : Z) : Prop := 0 <= z < 2 ^ 64.

Lemma add_u64_ok {E} a b : a + b < 2 ^ 64 -> @add_u64 E a b = Ok (a + b).
Proof. intros H. unfold add_u64. destruct (Z.ltb_spec (a + b) (2 ^ 64)); [done|lia]. Qed.

Lemma sub_u64_ok {E} a b : b <= a -> @sub_u64 E a b = Ok (a - b).
Proof. intros H. unfold sub_u64. destruct (Z.leb_spec b a); [done|lia]. Qed.

Lemma mul_u64_ok {E} a b : a * b < 2 ^ 64 -> @mul_u64 E a b = Ok (a * b).
Proof. intros H. unfold mul_u64. destruct (Z.ltb_spec (a * b) (2 ^ 64)); [done|lia]. Qed.

Lemma add_u32_ok {E} a b : a + b < 2 ^ 32 -> @add_u32 E a b = Ok (a + b).
Proof. intros H. unfold add_u32. destruct (Z.ltb_spec (a + b) (2 ^ 32)); [done|lia]. Qed.

Lemma sub_u32_ok {E} a b : b <= a -> @sub_u32 E a b = Ok (a - b).
Proof. intros H. unfold sub_u32. destruct (Z.leb_spec b a); [done|lia]. Qed.

Lemma as_u32_small z : 0 <= z < 2 ^ 32 -> as_u32 z = z.
Proof. intros. by apply Z.mod_small. Qed.

Lemma as_u64_small z : 0 <= z < 2 ^ 64 -> as_u64 z = z.
Proof. intros. by apply Z.mod_small. Qed.

Lemma as_u16_small z : 0 <= z < 2 ^ 16 -> as_u16 z = z.
Proof. intros. by apply Z.mod_small. Qed.

Lemma as_u8_small z : 0 <= z < 2 ^ 8 -> as_u8 z = z.
Proof. intros. by apply Z.mod_small. Qed.

Lemma as_i64_small z : - 2 ^ 63 <= z < 2 ^ 63 -> as_i64 z = z.
Proof. intros. unfold as_i64. rewrite Z.mod_small; lia. Qed.

(** Masks and disjunctions of disjoint fields, as arithmetic. *)
Lemma land_low n z : 0 <= n -> Z.land z (2 ^ n - 1) = z mod 2 ^ n.
Proof. intros. rewrite <- Z.land_ones by done. by rewrite Z.ones_equiv, <- Z.sub_1_r. Qed.

Lemma lor_fields n hi lo : 0 <= n -> 0 <= lo < 2 ^ n -> Z.lor (hi * 2 ^ n) lo = hi * 2 ^ n + lo.
Proof.
  intros Hn Hlo. rewrite <- Z.shiftl_mul_pow2 by done. symmetry.
  rewrite Z.add_nocarry_lxor.
  - rewrite Z.lxor_lor; [done|]. apply Z.bits_inj'. intros i Hi.
    rewrite Z.land_spec, Z.bits_0, Z.shiftl_spec by done.
    destruct (Z.lt_ge_cases i n).
    + by rewrite Z.testbit_neg_r by lia.
    + rewrite <- (Z.mod_small lo (2 ^ n)) by done.
      by rewrite Z.mod_pow2_bits_high, andb_false_r by lia.
  - apply Z.bits_inj'. intros i Hi.
    rewrite Z.land_spec, Z.bits_0, Z.shiftl_spec by done.
    destruct (Z.lt_ge_cases i n).
    + by rewrite Z.testbit_neg_r by lia.
    + rewrite <- (Z.mod_small lo (2 ^ n)) by done.
      by rewrite Z.mod_pow2_bits_high, andb_false_r by lia.
Qed.

(** Bit operations stay in the range of their operands. *)
Lemma lor_range n a b : 0 <= n -> 0 <= a < 2 ^ n -> 0 <= b < 2 ^ n -> 0 <= Z.lor a b < 2 ^ n.
Proof.
  intros Hn Ha Hb. replace (Z.lor a b) with (Z.lor a b mod 2 ^ n); [apply Z.mod_pos_bound; lia|].
  rewrite <- Z.land_ones, Z.land_lor_distr_l, !Z.land_ones by done. by rewrite !Z.mod_small.
Qed.

Lemma land_range n a b : 0 <= n -> 0 <= a < 2 ^ n -> 0 <= Z.land a b < 2 ^ n.
Proof.
  intros Hn Ha. replace (Z.land a b) with (Z.land a b mod 2 ^ n); [apply Z.mod_pos_bound; lia|].
  rewrite <- Z.land_ones, <- Z.land_assoc, (Z.land_comm b), Z.land_assoc, Z.land_ones by done. by rewrite Z.mod_small.
Qed.

(** The high field of a word: [l & !mask] for a mask of [n] low bits. *)
Lemma land_high n m z :
  0 <= n <= m -> 0 <= z < 2 ^ m -> Z.land z (2 ^ m - 1 - (2 ^ n - 1)) = z / 2 ^ n * 2 ^ n.
Proof.
  intros Hn Hz.
  replace (2 ^ m - 1 - (2 ^ n - 1)) with (Z.shiftl (Z.ones (m - n)) n).
  2:{ rewrite Z.shiftl_mul_pow2, Z.ones_equiv, <- Z.sub_1_r by lia.
      rewrite Z.mul_sub_distr_r, <- Z.pow_add_r by lia.
      replace (m - n + n) with m by lia. lia. }
  rewrite <- Z.shiftl_mul_pow2, <- Z.shiftr_div_pow2 by lia.
  apply Z.bits_inj'. intros i Hi.
  rewrite Z.land_spec, !Z.shiftl_spec by lia.
  destruct (Z.lt_ge_cases i n).
  - rewrite !(Z.testbit_neg_r _ (i - n)) by lia. by rewrite andb_false_r.
  - rewrite Z.shiftr_spec by lia. replace (i - n + n) with i by lia.
    destruct (Z.lt_ge_cases i m).
    + by rewrite Z.ones_spec_low, andb_true_r by lia.
    + rewrite <- (Z.mod_small z (2 ^ m)) by done.
      by rewrite Z.mod_pow2_bits_high by lia.
Qed.

(** ** Bytes *)

Abbreviation byte := Init.Byte.byte.

(** The value of a byte, and the byte of a value ([as u8]). *)
Definition bval (b : byte) : Z := Z.of_N (Byte.to_N b).
Definition bof (z : Z) : byte :=
  match Byte.of_N (Z.to_N (as_u8 z)) with Some b => b | None => Byte.x00 end.

#[global] Instance byte_eq_dec : EqDecision byte := Byte.byte_eq_dec.
#[global] Instance byte_inhabited : Inhabited byte := populate Byte.x00.

Lemma bval_range b : 0 <= bval b < 256.
Proof.
  unfold bval. pose proof (Byte.to_N_bounded b). split; [lia|].
  change 256 with (Z.of_N 256). apply N2Z.inj_lt. lia.
Qed.

Lemma bval_inj b1 b2 : bval b1 = bval b2 -> b1 = b2.
Proof.
  unfold bval. intros H%N2Z.inj.
  pose proof (Byte.of_to_N b1). pose proof (Byte.of_to_N b2). congruence.
Qed.

Lemma bval_bof z : bval (bof z) = z mod 256.
Proof.
  unfold bof, bval, as_u8. change (2 ^ 8) with 256.
  pose proof (Z.mod_pos_bound z 256 ltac:(lia)) as Hr.
  destruct (Byte.of_N (Z.to_N (z mod 256))) as [b|] eqn:Eb.
  - apply Byte.to_of_N in Eb. rewrite Eb. lia.
  - apply Byte.of_N_None_iff in Eb. lia.
Qed.

Lemma bof_bval b : bof (bval b) = b.
Proof. apply bval_inj. rewrite bval_bof. apply Z.mod_small, bval_range. Qed.

Lemma bval_bof_small z : 0 <= z < 256 -> bval (bof z) = z.
Proof. intros. rewrite bval_bof. by apply Z.mod_small. Qed.

(** Little-endian value of a list of bytes, and the [n] bytes of a value. *)
Fixpoint le_val (bs : list byte) : Z :=
  match bs with [] => 0 | b :: bs' => bval b + 256 * le_val bs' end.

Fixpoint le_bytes (n : nat) (z : Z) : list byte :=
  match n with O => [] | S n' => bof z :: le_bytes n' (z / 256) end.

Lemma length_le_bytes n z : length (le_bytes n z) = n.
Proof. revert z. induction n; intros; simpl; [done|]. by rewrite IHn. Qed.

Lemma le_val_range bs : 0 <= le_val bs < 2 ^ (8 * Z.of_nat (length bs)).
Proof.
  induction bs as [|b bs IH]; simpl; [lia|].
  pose proof (bval_range b).
  replace (8 * Z.of_nat (S (length bs))) with (8 + 8 * Z.of_nat (length bs)) by lia.
  rewrite Z.pow_add_r by lia. lia.
Qed.

Lemma le_val_bytes n z : 0 <= z < 2 ^ (8 * Z.of_nat n) -> le_val (le_bytes n z) = z.
Proof.
  revert z. induction n as [|n IH]; intros z Hz.
  - simpl in *. lia.
  - cbn [le_bytes le_val]. rewrite bval_bof.
    replace (8 * Z.of_nat (S n)) with (8 + 8 * Z.of_nat n) in Hz by lia.
    rewrite Z.pow_add_r in Hz by lia.
    rewrite IH; [|split; [apply Z.div_pos; lia|apply Z.div_lt_upper_bound; lia]].
    pose proof (Z.div_mod z 256). lia.
Qed.

(** The bits of a little-endian number, byte by byte. *)
Lemma le_val_testbit bs (k : nat) j b :
  bs !! k = Some b -> 0 <= j < 8 -> Z.testbit (le_val bs) (8 * Z.of_nat k + j) = Z.testbit (bval b) j.
Proof.
  revert k. induction bs as [|c bs IH]; intros k Hk Hj; [done|]. cbn [le_val]. pose proof (bval_range c).
  destruct k as [|k]; cbn in Hk.
  - injection Hk as ->. replace (8 * Z.of_nat 0 + j) with j by lia.
    rewrite <- (Z.mod_pow2_bits_low _ 8) by lia. change (2 ^ 8) with 256.
    rewrite (Z.mul_comm 256), Z.mod_add, Z.mod_small by lia. done.
  - replace (8 * Z.of_nat (S k) + j) with (8 * Z.of_nat k + j + 8) by lia.
    rewrite <- Z.div_pow2_bits by lia. change (2 ^ 8) with 256.
    rewrite (Z.mul_comm 256), Z.div_add, Z.div_small by lia. by apply IH.
Qed.

Lemma le_bytes_val bs : le_bytes (length bs) (le_val bs) = bs.
Proof.
  induction bs as [|b bs IH]; simpl; [done|].
  pose proof (bval_range b). f_equal.
  - apply bval_inj. rewrite bval_bof, (Z.mul_comm 256), Z.mod_add, Z.mod_small; lia.
  - rewrite (Z.mul_comm 256), Z.div_add, Z.div_small, Z.add_0_l by lia. done.
Qed.

(** ** The crate [byteorder]

    [byteorder::LittleEndian] is not part of the repository: its functions are
    a parameter of the model. Every call site of the program passes a slice of
    exactly the width of the integer, so a read takes the bytes of that slice
    and a write gives the bytes that overwrite it. *)
Class LittleEndian := {
  read_u16 : list byte -> Z;
  read_u32 : list byte -> Z;
  read_u64 : list byte -> Z;
  write_u16 : Z -> list byte;
  write_u32 : Z -> list byte;
  write_u64 : Z -> list byte;
}.

(** What the crate documents: integers are (de)serialised least significant
    byte first. *)
Class LittleEndianSpec `{LE : LittleEndian} : Prop := {
  read_u16_spec bs : length bs = 2%nat -> read_u16 bs = le_val bs;
  read_u32_spec bs : length bs = 4%nat -> read_u32 bs = le_val bs;
  read_u64_spec bs : length bs = 8%nat -> read_u64 bs = le_val bs;
  write_u16_spec z : 0 <= z < 2 ^ 16 -> write_u16 z = le_bytes 2 z;
  write_u32_spec z : 0 <= z < 2 ^ 32 -> write_u32 z = le_bytes 4 z;
  write_u64_spec z : 0 <= z < 2 ^ 64 -> write_u64 z = le_bytes 8 z;
}.

(** A concrete codec, for the witnesses. *)
Definition le_codec : LittleEndian := {|
  read_u16 := le_val; read_u32 := le_val; read_u64 := le_val;
  write_u16 := le_bytes 2; write_u32 := le_bytes 4; write_u64 := le_bytes 8;
|}.

Lemma le_codec_spec : @LittleEndianSpec le_codec.
Proof. by split. Qed.

Section little_endian.
Context `{LES : LittleEndianSpec}.

Lemma read_u16_range bs : length bs = 2%nat -> 0 <= read_u16 bs < 2 ^ 16.
Proof. intros H. rewrite read_u16_spec by done. pose proof (le_val_range bs). by rewrite H in *. Qed.
Lemma read_u32_range bs : length bs = 4%nat -> 0 <= read_u32 bs < 2 ^ 32.
Proof. intros H. rewrite read_u32_spec by done. pose proof (le_val_range bs). by rewrite H in *. Qed.
Lemma read_u64_range bs : length bs = 8%nat -> 0 <= read_u64 bs < 2 ^ 64.
Proof. intros H. rewrite read_u64_spec by done. pose proof (le_val_range bs). by rewrite H in *. Qed.

Lemma length_write_u16 z : 0 <= z < 2 ^ 16 -> length (write_u16 z) = 2%nat.
Proof. intros. by rewrite write_u16_spec, length_le_bytes. Qed.
Lemma length_write_u32 z : 0 <= z < 2 ^ 32 -> length (write_u32 z) = 4%nat.
Proof. intros. by rewrite write_u32_spec, length_le_bytes. Qed.
Lemma length_write_u64 z : 0 <= z < 2 ^ 64 -> length (write_u64 z) = 8%nat.
Proof. intros. by rewrite write_u64_spec, length_le_bytes. Qed.

Lemma read_write_u16 z : 0 <= z < 2 ^ 16 -> read_u16 (write_u16 z) = z.
Proof. intros. rewrite write_u16_spec, read_u16_spec by (done || apply length_le_bytes). by apply le_val_bytes. Qed.
Lemma read_write_u32 z : 0 <= z < 2 ^ 32 -> read_u32 (write_u32 z) = z.
Proof. intros. rewrite write_u32_spec, read_u32_spec by (done || apply length_le_bytes). by apply le_val_bytes. Qed.
Lemma read_write_u64 z : 0 <= z < 2 ^ 64 -> read_u64 (write_u64 z) = z.
Proof. intros. rewrite write_u64_spec, read_u64_spec by (done || apply length_le_bytes). by apply le_val_bytes. Qed.

Lemma write_read_u32 bs : length bs = 4%nat -> write_u32 (read_u32 bs) = bs.
Proof.
  intros H. rewrite write_u32_spec by by apply read_u32_range.
  rewrite read_u32_spec, <- H by done. apply le_bytes_val.
Qed.
End little_endian.

(** ** Slices and indexing *)

Definition zlen {A} (l : list A) : Z := Z.of_nat (length l).

(** [l[a..b]] once it is known to be in range. *)
Definition zslice {A} (l : list A) (a b : Z) : list A :=
  take (Z.to_nat (b - a)) (drop (Z.to_nat a) l).

(** [l[a..b]]: a slice expression panics out of range. *)
Definition slice {E A} (l : list A) (a b : Z) : outcome E (list A) :=
  if (0 <=? a) && (a <=? b) && (b <=? zlen l) then Ok (zslice l a b) else Panic.

(** The list after [l[a..a + d.len()].copy_from_slice(d)], in range. *)
Definition zsplice {A} (l : list A) (a : Z) (d : list A) : list A :=
  take (Z.to_nat a) l ++ d ++ drop (Z.to_nat a + length d) l.

(** [l[a..a + d.len()].copy_from_slice(d)]. *)
Definition splice {E A} (l : list A) (a : Z) (d : list A) : outcome E (list A) :=
  if (0 <=? a) && (a + zlen d <=? zlen l) then Ok (zsplice l a d) else Panic.

(** [l[i]] and [l[i] = x]. *)
Definition get {E A} (l : list A) (i : Z) : outcome E A :=
  if 0 <=? i then match l !! Z.to_nat i with Some x => Ok x | None => Panic end else Panic.
Definition set {E A} (l : list A) (i : Z) (x : A) : outcome E (list A) :=
  if (0 <=? i) && (i <? zlen l) then Ok (<[Z.to_nat i := x]> l) else Panic.

(** [<[u8; n]>::try_from(s).unwrap_or([0; n])]. *)
Definition try_into (n : nat) (s : list byte) : list byte :=
  if (length s =? n)%nat then s else replicate n Byte.x00.

(** [a..b] as the list of its values. *)
Definition range (a b : Z) : list Z := seqZ a (b - a).

(** *** Lengths: the rewriting base [zl] *)

Create HintDb jfs discriminated.
Create Rewrite HintDb zl.

Lemma zlen_nonneg {A} (l : list A) : 0 <= zlen l.
Proof. unfold zlen. lia. Qed.
Lemma zlen_app {A} (l k : list A) : zlen (l ++ k) = zlen l + zlen k.
Proof. unfold zlen. rewrite length_app. lia. Qed.
Lemma zlen_cons {A} (x : A) l : zlen (x :: l) = 1 + zlen l.
Proof. unfold zlen. simpl. lia. Qed.
Lemma zlen_nil {A} : zlen (@nil A) = 0.
Proof. done. Qed.
Lemma zlen_replicate {A} n (x : A) : zlen (replicate n x) = Z.of_nat n.
Proof. unfold zlen. by rewrite length_replicate. Qed.
Lemma zlen_insert {A} i (x : A) l : zlen (<[i:=x]> l) = zlen l.
Proof. unfold zlen. by rewrite length_insert. Qed.
Lemma zlen_zslice {A} (l : list A) a b :
  0 <= a <= b -> b <= zlen l -> zlen (zslice l a b) = b - a.
Proof. unfold zlen, zslice. rewrite length_take, length_drop. lia. Qed.
Lemma zlen_zsplice {A} (l d : list A) a :
  0 <= a -> a + zlen d <= zlen l -> zlen (zsplice l a d) = zlen l.
Proof.
  unfold zlen, zsplice. rewrite !length_app, length_take, length_drop. lia.
Qed.
Lemma length_zslice {A} (l : list A) a b :
  0 <= a <= b -> b <= zlen l -> length (zslice l a b) = Z.to_nat (b - a).
Proof. intros. pose proof (zlen_zslice l a b). unfold zlen in *. lia. Qed.
Lemma length_zsplice {A} (l d : list A) a :
  0 <= a -> a + zlen d <= zlen l -> length (zsplice l a d) = length l.
Proof. intros. pose proof (zlen_zsplice l d a). unfold zlen in *. lia. Qed.
Lemma zlen_fmap {A B} (f : A -> B) l : zlen (f <$> l) = zlen l.
Proof. unfold zlen. by rewrite length_fmap. Qed.
Lemma zlen_take {A} n (l : list A) : zlen (take n l) = Z.min (Z.of_nat n) (zlen l).
Proof. unfold zlen. rewrite length_take. lia. Qed.
Lemma zlen_drop {A} n (l : list A) : zlen (drop n l) = Z.max 0 (zlen l - Z.of_nat n).
Proof. unfold zlen. rewrite length_drop. lia. Qed.
Lemma zlen_of_length {A} (l : list A) n : length l = n -> zlen l = Z.of_nat n.
Proof. by intros <-. Qed.
Lemma length_range a b : length (range a b) = Z.to_nat (b - a).
Proof. unfold range. by rewrite length_seqZ. Qed.
Lemma zlen_range a b : zlen (range a b) = Z.max 0 (b - a).
Proof. unfold zlen. rewrite length_range. lia. Qed.

#[export] Hint Rewrite @zlen_app @zlen_cons @zlen_nil @zlen_replicate @zlen_insert
  @zlen_fmap @zlen_take @zlen_drop @zlen_range : zl.
#[export] Hint Rewrite @zlen_zslice @zlen_zsplice using (autorewrite with zl; lia) : zl.

Ltac zl := autorewrite with zl in *; try lia.

(** *** In-range slices and updates *)

Lemma slice_ok {E A} (l : list A) a b :
  0 <= a <= b -> b <= zlen l -> @slice E A l a b = Ok (zslice l a b).
Proof.
  intros. unfold slice.
  destruct (Z.leb_spec 0 a), (Z.leb_spec a b), (Z.leb_spec b (zlen l)); simpl; try done; lia.
Qed.

Lemma splice_ok {E A} (l d : list A) a :
  0 <= a -> a + zlen d <= zlen l -> @splice E A l a d = Ok (zsplice l a d).
Proof.
  intros. unfold splice.
  destruct (Z.leb_spec 0 a), (Z.leb_spec (a + zlen d) (zlen l)); simpl; try done; lia.
Qed.

Lemma lookup_total_of_zlen {A} `{Inhabited A} (l : list A) i :
  0 <= i < zlen l -> l !! Z.to_nat i = Some (l !!! Z.to_nat i).
Proof. intros. apply list_lookup_lookup_total_lt. unfold zlen in *. lia. Qed.

Lemma get_ok {E A} `{Inhabited A} (l : list A) i :
  0 <= i < zlen l -> @get E A l i = Ok (l !!! Z.to_nat i).
Proof.
  intros. unfold get. destruct (Z.leb_spec 0 i); [|lia].
  by rewrite lookup_total_of_zlen.
Qed.

Lemma get_lookup {E A} (l : list A) i x :
  0 <= i -> l !! Z.to_nat i = Some x -> @get E A l i = Ok x.
Proof. intros Hi Hx. unfold get. destruct (Z.leb_spec 0 i); [|lia]. by rewrite Hx. Qed.

Lemma set_ok {E A} (l : list A) i x :
  0 <= i < zlen l -> @set E A l i x = Ok (<[Z.to_nat i := x]> l).
Proof.
  intros. unfold set.
  destruct (Z.leb_spec 0 i), (Z.ltb_spec i (zlen l)); simpl; try done; lia.
Qed.

Lemma lookup_zslice {A} (l : list A) a b i :
  0 <= a -> zslice l a b !! i =
  if decide (Z.of_nat i < b - a) then l !! (Z.to_nat a + i)%nat else None.
Proof.
  intros. unfold zslice. case_decide.
  - rewrite lookup_take_lt by lia. by rewrite lookup_drop.
  - by rewrite lookup_take_ge by lia.
Qed.

Lemma lookup_zsplice {A} (l d : list A) a i :
  0 <= a -> a + zlen d <= zlen l -> zsplice l a d !! i =
  if decide (a <= Z.of_nat i < a + zlen d) then d !! (i - Z.to_nat a)%nat else l !! i.
Proof.
  intros Ha Hd. unfold zsplice, zlen in *. case_decide.
  - rewrite lookup_app_r by (rewrite length_take; lia).
    rewrite lookup_app_l by (rewrite length_take; lia).
    f_equal. rewrite length_take. lia.
  - destruct (decide (Z.of_nat i < a)).
    + rewrite lookup_app_l by (rewrite length_take; lia).
      by rewrite lookup_take_lt by lia.
    + rewrite lookup_app_r by (rewrite length_take; lia).
      rewrite lookup_app_r by (rewrite length_take; lia).
      rewrite lookup_drop. f_equal. rewrite length_take. lia.
Qed.

(** Reading back what was written, and reading beside it. *)
Lemma zslice_zsplice_same {A} (l d : list A) a b :
  0 <= a -> a + zlen d <= zlen l -> b = a + zlen d -> zslice (zsplice l a d) a b = d.
Proof.
  intros Ha Hd ->. apply list_eq. intros i.
  rewrite lookup_zslice by done. case_decide.
  - rewrite lookup_zsplice by done. rewrite decide_True by lia. f_equal. lia.
  - symmetry. apply lookup_ge_None_2. unfold zlen in *. lia.
Qed.

Lemma zslice_zsplice_disjoint {A} (l d : list A) a x y :
  0 <= a -> a + zlen d <= zlen l -> 0 <= x -> y <= a \/ a + zlen d <= x ->
  zslice (zsplice l a d) x y = zslice l x y.
Proof.
  intros Ha Hd Hx Hxy. apply list_eq. intros i.
  rewrite !lookup_zslice by done. case_decide; [|done].
  rewrite lookup_zsplice by done. rewrite decide_False by lia. done.
Qed.

Lemma zslice_zslice {A} (l : list A) a b x y :
  0 <= a -> 0 <= x -> y <= b - a -> zslice (zslice l a b) x y = zslice l (a + x) (a + y).
Proof.
  intros. apply list_eq. intros i. rewrite !lookup_zslice by lia.
  repeat case_decide; try done; try lia. f_equal. lia.
Qed.

Lemma zslice_all {A} (l : list A) n : n = zlen l -> zslice l 0 n = l.
Proof.
  intros ->. unfold zslice, zlen. rewrite drop_0, Z.sub_0_r, Nat2Z.id. by apply take_ge.
Qed.

Lemma zslice_whole {A} (l : list A) a b : a = 0 -> b = zlen l -> zslice l a b = l.
Proof. intros ->. apply zslice_all. Qed.

Lemma zsplice_nil {A} (l : list A) a : zsplice l a [] = l.
Proof. unfold zsplice. cbn [length app]. rewrite Nat.add_0_r. apply take_drop. Qed.

Lemma zslice_cat {A} (l : list A) a b c :
  0 <= a <= b -> b <= c -> c <= zlen l -> zslice l a b ++ zslice l b c = zslice l a c.
Proof.
  intros Ha Hb Hc. unfold zslice.
  replace (Z.to_nat (c - a)) with (Z.to_nat (b - a) + Z.to_nat (c - b))%nat by lia.
  rewrite <- take_take_drop. f_equal. f_equal. rewrite drop_drop. f_equal. lia.
Qed.

Lemma zslice_app_l {A} (l k : list A) a b :
  0 <= a -> b <= zlen l -> zslice (l ++ k) a b = zslice l a b.
Proof.
  intros. apply list_eq. intros i. rewrite !lookup_zslice by done. case_decide; [|done].
  apply lookup_app_l. unfold zlen in *. lia.
Qed.

Lemma zslice_app_r {A} (l k : list A) a b :
  zlen l <= a -> zslice (l ++ k) a b = zslice k (a - zlen l) (b - zlen l).
Proof.
  intros. pose proof (zlen_nonneg l). apply list_eq. intros i. rewrite !lookup_zslice by lia.
  replace (b - zlen l - (a - zlen l)) with (b - a) by lia. case_decide; [|done].
  rewrite lookup_app_r by (unfold zlen in *; lia). f_equal. unfold zlen in *. lia.
Qed.

(** Splitting a list around an in-range window. *)
Lemma zsplice_split {A} (l d : list A) a b :
  0 <= a <= b -> b <= zlen l -> zlen d = b - a ->
  zsplice l a d = zslice l 0 a ++ d ++ zslice l b (zlen l).
Proof.
  intros. unfold zsplice, zslice, zlen in *.
  rewrite drop_0, Z.sub_0_r. do 2 f_equal.
  rewrite take_ge by (rewrite length_drop; lia). f_equal. lia.
Qed.

(** Adjacent writes are one write. *)
Lemma zsplice_app {A} (l d1 d2 : list A) a b :
  0 <= a -> b = a + zlen d1 -> b + zlen d2 <= zlen l ->
  zsplice (zsplice l a d1) b d2 = zsplice l a (d1 ++ d2).
Proof.
  intros Ha -> Hl. pose proof (zlen_nonneg d1). pose proof (zlen_nonneg d2). apply list_eq. intros i.
  rewrite !lookup_zsplice by (rewrite ?zlen_zsplice, ?zlen_app; lia). rewrite zlen_app.
  destruct (decide (a + zlen d1 <= Z.of_nat i < a + zlen d1 + zlen d2)).
  - rewrite decide_True by lia. rewrite lookup_app_r by (unfold zlen in *; lia). f_equal. unfold zlen in *. lia.
  - destruct (decide (a <= Z.of_nat i < a + zlen d1)).
    + rewrite decide_True by lia. rewrite lookup_app_l by (unfold zlen in *; lia). done.
    + by rewrite decide_False by lia.
Qed.

Lemma set_splice {E A} (l : list A) i x : 0 <= i < zlen l -> @set E A l i x = Ok (zsplice l i [x]).
Proof.
  intros Hi. rewrite set_ok by done. f_equal. unfold zsplice, zlen in *. cbn [length].
  rewrite insert_take_drop by lia. simpl. do 3 f_equal. lia.
Qed.

(** The second of two writes to the same place stays. *)
Lemma zsplice_over {A} (l d1 d2 : list A) a :
  0 <= a -> zlen d1 = zlen d2 -> a + zlen d2 <= zlen l -> zsplice (zsplice l a d1) a d2 = zsplice l a d2.
Proof.
  intros Ha Hd Hl. apply list_eq. intros i. rewrite !lookup_zsplice by (rewrite ?zlen_zsplice; lia). rewrite Hd. by case_decide.
Qed.

Lemma zslice_zsplice_prefix {A} (l d : list A) a b :
  0 <= a -> b = a + zlen d -> b <= zlen l -> zslice (zsplice l a d) 0 b = zslice l 0 a ++ d.
Proof.
  intros Ha -> Hl. pose proof (zlen_nonneg d). rewrite <- (zslice_cat _ 0 a) by (rewrite ?zlen_zsplice; lia).
  rewrite zslice_zsplice_disjoint, zslice_zsplice_same by lia. done.
Qed.

Lemma try_into_ok n s : length s = n -> try_into n s = s.
Proof. intros <-. unfold try_into. by rewrite Nat.eqb_refl. Qed.

Lemma length_try_into n s : length (try_into n s) = n.
Proof.
  unfold try_into. destruct (Nat.eqb_spec (length s) n); [done|]. apply length_replicate.
Qed.

Lemma elem_of_range x a b : x ∈ range a b <-> a <= x < b.
Proof. unfold range. rewrite elem_of_seqZ. lia. Qed.
Lemma fmap_add_range s a b : Z.add s <$> range a b = range (s + a) (s + b).
Proof.
  unfold range, seqZ. replace (Z.to_nat (s + b - (s + a))) with (Z.to_nat (b - a)) by lia. rewrite <- list_fmap_compose. apply list_fmap_ext.
  intros i x _. cbn. lia.
Qed.

Lemma range_nil a b : b <= a -> range a b = [].
Proof. intros. apply seqZ_nil. lia. Qed.

Lemma range_cons a b : a < b -> range a b = a :: range (a + 1) b.
Proof. intros. unfold range. rewrite seqZ_cons by lia. f_equal. f_equal; lia. Qed.

Lemma range_snoc a b : a <= b -> range a (b + 1) = range a b ++ [b].
Proof.
  intros. unfold range. replace (b + 1 - a) with (b - a + 1) by lia.
  rewrite seqZ_app by lia. f_equal. rewrite seqZ_cons by lia.
  replace (a + (b - a)) with b by lia. done.
Qed.
