(* ===== verification/Types.v ===== *)
(** * On-disk types ([src/src/types.rs])

    The packed structures of the JFS on-disk format. A field of type [[u8; n]]
    is the list of its bytes; the predicates [wf_...] state the lengths that the
    Rust types guarantee, and every operation keeps them. The accessors read and
    write the fields through the little-endian codec of [Prelude.v]. *)

From S2P Require Import Prelude.
From Stdlib Require Import ZArith Lia.

(** ** Constants *)

Definition PSIZE : Z := 4096.
Definition PBSIZE : Z := 512.
Definition DISIZE : Z := 512.
Definition IDATASIZE : Z := 256.
Definition INOSPERIAG : Z := 4096.
Definition INOSPEREXT : Z := 32.
Definition IXSIZE : Z := DISIZE * INOSPEREXT.
Definition INOSPERPAGE : Z := 8.
Definition MAXTREEHEIGHT : Z := 8.
Definition EXTSPERIAG : Z := 128.
Definition LOGPSIZE : Z := 4096.
Definition LOGMAGIC : Z := 0x87654321.
Definition LOGVERSION : Z := 1.
Definition MAX_ACTIVE : nat := 128.
(** [b"JFS1"]. *)
Definition JFS_MAGIC : list byte := bof <$> [74; 70; 83; 49].
Definition JFS_VERSION : Z := 2.
Definition SUPER1_B : Z := 64.
Definition AIMAP_B : Z := SUPER1_B + 8.
Definition AITBL_B : Z := AIMAP_B + 16.
Definition SUPER2_B : Z := AITBL_B + 32.
Definition BMAP_B : Z := SUPER2_B + 8.
Definition SUPER1_OFF : Z := 0x8000.
Definition AIMAP_OFF : Z := SUPER1_OFF + PSIZE.
Definition AITBL_OFF : Z := AIMAP_OFF + PSIZE * 2.
Definition SUPER2_OFF : Z := AITBL_OFF + IXSIZE.
Definition BMAP_OFF : Z := SUPER2_OFF + PSIZE.
Definition AGGR_INODE_TABLE_START : Z := AITBL_OFF.
Definition AGGREGATE_I : Z := 1.
Definition BMAP_I : Z := 2.
Definition LOG_I : Z := 3.
Definition ROOT_I : Z := 2.
Definition FILESYSTEM_I : Z := 16.
Definition FM_CLEAN : Z := 0.
Definition FM_MOUNT : Z := 1.
Definition FM_DIRTY : Z := 2.
Definition FM_LOGREDO : Z := 4.
Definition LOGMOUNT : Z := 0.
Definition LOGREDONE : Z := 1.
Definition LOGWRAP : Z := 2.
Definition LOGREADERR : Z := 3.
Definition LOG_COMMIT : Z := 0x8000.
Definition LOG_SYNCPT : Z := 0x4000.
Definition LOG_MOUNT : Z := 0x2000.
Definition LOG_REDOPAGE : Z := 0x0800.
Definition LOG_NOREDOPAGE : Z := 0x0080.
Definition LOG_NOREDOINOEXT : Z := 0x0040.
Definition LOG_UPDATEMAP : Z := 0x0008.
Definition LOG_INODE : Z := 0x0001.
Definition LOG_XTREE : Z := 0x0002.
Definition LOG_DTREE : Z := 0x0004.
Definition LOG_BTROOT : Z := 0x0010.
Definition LOG_DATA : Z := 0x0080.
Definition BLOCK_SIZE : Z := PSIZE.

Definition zeros (n : nat) : list byte := replicate n Byte.x00.

Section codec.
Context {LE : LittleEndian}.

(** ** [pxd_t]: physical extent descriptor *)

Record Pxd := mkPxd { len_addr : list byte; addr2 : list byte }.

(** [Pxd::default()], which [Pxd::new()] returns. *)
Definition pxd_default : Pxd := mkPxd (zeros 4) (zeros 4).

Definition wf_pxd (p : Pxd) : Prop := length (len_addr p) = 4%nat /\ length (addr2 p) = 4%nat.

Definition pxd_length (p : Pxd) : Z :=
  let l := read_u32 (len_addr p) in
  Z.land l 0xffffff.

Definition pxd_set_length (p : Pxd) (len : Z) : Pxd :=
  let l := read_u32 (len_addr p) in
  let masked := Z.land l (not_u32 0xffffff) in
  let new_val := Z.lor masked (Z.land len 0xffffff) in
  mkPxd (write_u32 new_val) (addr2 p).

(** The final addition cannot overflow: [high] is a multiple of 2^32 below
    2^40 and [low] is a u32. *)
Definition pxd_address (p : Pxd) : Z :=
  let l := read_u32 (len_addr p) in
  let high := as_u64 (Z.shiftl (Z.land l (not_u64 0xffffff)) 8) in
  let low := read_u32 (addr2 p) in
  high + low.

Definition pxd_set_address (p : Pxd) (addr : Z) : Pxd :=
  let high_addr := as_u32 (Z.shiftr addr 32) in
  let low_addr := as_u32 addr in
  let l := read_u32 (len_addr p) in
  let reserved := Z.land l 0xffffff in
  let new_len_addr :=
    Z.lor reserved (Z.land (as_u32 (Z.shiftl high_addr 24)) (not_u32 0xffffff)) in
  mkPxd (write_u32 new_len_addr) (write_u32 low_addr).

Definition pxd_into_bytes (p : Pxd) : list byte := len_addr p ++ addr2 p.

Definition pxd_from_bytes (bytes : list byte) : Pxd :=
  if 8 <=? zlen bytes
  then mkPxd (zslice bytes 0 4) (zslice bytes 4 8)
  else pxd_default.

(** ** [dxd_t]: data extent descriptor *)

Record Dxd := mkDxd { dxd_flag : byte; dxd_rsrvd : list byte; dxd_size : list byte; dxd_loc : Pxd }.

Definition dxd_default : Dxd := mkDxd Byte.x00 (zeros 3) (zeros 4) pxd_default.

Definition wf_dxd (d : Dxd) : Prop :=
  length (dxd_rsrvd d) = 3%nat /\ length (dxd_size d) = 4%nat /\ wf_pxd (dxd_loc d).

Definition dxd_length (d : Dxd) : Z := read_u32 (dxd_size d).
Definition dxd_set_length (d : Dxd) (len : Z) : Dxd :=
  mkDxd (dxd_flag d) (dxd_rsrvd d) (write_u32 len) (dxd_loc d).
Definition dxd_loc_length (d : Dxd) : Z := pxd_length (dxd_loc d).
Definition dxd_loc_address (d : Dxd) : Z := pxd_address (dxd_loc d).
Definition dxd_set_loc (d : Dxd) (length address : Z) : Dxd :=
  mkDxd (dxd_flag d) (dxd_rsrvd d) (dxd_size d)
    (pxd_set_address (pxd_set_length pxd_default length) address).

(** ** [xad_t]: xtree extent descriptor *)

Record Xad := mkXad {
  xad_flag : byte; xad_rsvrd : list byte; xad_off1 : byte; xad_off2 : list byte; xad_loc : Pxd }.

Definition xad_default : Xad := mkXad Byte.x00 (zeros 2) Byte.x00 (zeros 4) pxd_default.

Definition wf_xad (x : Xad) : Prop :=
  length (xad_rsvrd x) = 2%nat /\ length (xad_off2 x) = 4%nat /\ wf_pxd (xad_loc x).

(** Bits of [XadFlag]. *)
Definition XAD_NEW : Z := 0x01.
Definition XAD_EXTENDED : Z := 0x02.
Definition XAD_COMPRESSED : Z := 0x04.
Definition XAD_NOTRECORDED : Z := 0x08.
Definition XAD_COW : Z := 0x10.

Definition xad_offset (x : Xad) : Z :=
  let high := Z.shiftl (bval (xad_off1 x)) 32 in
  let low := read_u32 (xad_off2 x) in
  as_i64 (Z.lor high low).

Definition xad_set_offset (x : Xad) (offset : Z) : Xad :=
  let val := as_u64 offset in
  mkXad (xad_flag x) (xad_rsvrd x)
    (bof (Z.land (Z.shiftr val 32) 0xff))
    (write_u32 (as_u32 (Z.land val 0xffffffff)))
    (xad_loc x).

Definition xad_length (x : Xad) : Z := pxd_length (xad_loc x).
Definition xad_set_length (x : Xad) (len : Z) : Xad :=
  mkXad (xad_flag x) (xad_rsvrd x) (xad_off1 x) (xad_off2 x) (pxd_set_length (xad_loc x) len).
Definition xad_address (x : Xad) : Z := pxd_address (xad_loc x).
Definition xad_set_address (x : Xad) (addr : Z) : Xad :=
  mkXad (xad_flag x) (xad_rsvrd x) (xad_off1 x) (xad_off2 x) (pxd_set_address (xad_loc x) addr).
(** [set_flag] with the bits of the flag. *)
Definition xad_set_flag (x : Xad) (flag : Z) : Xad :=
  mkXad (bof flag) (xad_rsvrd x) (xad_off1 x) (xad_off2 x) (xad_loc x).

(** ** [timestruc_t] *)

Record Timestruc := mkTimestruc { tv_sec : list byte; tv_nsec : list byte }.
Definition timestruc_default : Timestruc := mkTimestruc (zeros 4) (zeros 4).
Definition ts_seconds (t : Timestruc) : Z := read_u32 (tv_sec t).
Definition ts_set_seconds (t : Timestruc) (sec : Z) : Timestruc := mkTimestruc (write_u32 sec) (tv_nsec t).
Definition ts_nanoseconds (t : Timestruc) : Z := read_u32 (tv_nsec t).
Definition ts_set_nanoseconds (t : Timestruc) (nsec : Z) : Timestruc := mkTimestruc (tv_sec t) (write_u32 nsec).

(** ** [dinode] *)

Record Dinode := mkDinode {
  di_inostamp : list byte; di_fileset : list byte; di_number : list byte; di_generation : list byte;
  di_ixpxd : Pxd; di_size : list byte; di_nblocks : list byte; di_nlink : list byte;
  di_uid : list byte; di_gid : list byte; di_mode : list byte;
  di_atime : Timestruc; di_ctime : Timestruc; di_mtime : Timestruc; di_otime : Timestruc;
  di_acl : Dxd; di_ea : Dxd; di_next_index : list byte; di_acltype : list byte; di_u : list byte }.

Definition dinode_default : Dinode :=
  mkDinode (zeros 4) (zeros 4) (zeros 4) (zeros 4) pxd_default (zeros 8) (zeros 8) (zeros 4)
    (zeros 4) (zeros 4) (zeros 4) timestruc_default timestruc_default timestruc_default
    timestruc_default dxd_default dxd_default (zeros 4) (zeros 4) (zeros 384).

Definition dinode_inostamp (d : Dinode) : Z := read_u32 (di_inostamp d).
Definition dinode_fileset (d : Dinode) : Z := read_u32 (di_fileset d).
Definition dinode_number (d : Dinode) : Z := read_u32 (di_number d).
Definition dinode_generation (d : Dinode) : Z := read_u32 (di_generation d).
Definition dinode_size_val (d : Dinode) : Z := read_u64 (di_size d).
Definition dinode_nblocks (d : Dinode) : Z := read_u64 (di_nblocks d).
Definition dinode_nlink (d : Dinode) : Z := read_u32 (di_nlink d).
Definition dinode_uid (d : Dinode) : Z := read_u32 (di_uid d).
Definition dinode_gid (d : Dinode) : Z := read_u32 (di_gid d).
Definition dinode_mode (d : Dinode) : Z := read_u32 (di_mode d).
Definition dinode_is_dir (d : Dinode) : bool := Z.land (dinode_mode d) 0xf000 =? 0x4000.
Definition dinode_is_regular (d : Dinode) : bool := Z.land (dinode_mode d) 0xf000 =? 0x8000.
Definition dinode_is_symlink (d : Dinode) : bool := Z.land (dinode_mode d) 0xf000 =? 0xa000.
(** [&self.u[96..]], where [u] has 384 bytes. *)
Definition dinode_xtroot_bytes (d : Dinode) : list byte := zslice (di_u d) 96 384.
Definition dinode_dtroot_bytes (d : Dinode) : list byte := zslice (di_u d) 96 384.

(** [data[a..b].try_into().unwrap_or([0; n])]. *)
Definition field {E} (data : list byte) (a b : Z) (n : nat) : outcome E (list byte) :=
  let! s := slice data a b in Ok (try_into n s).

(** [Dinode::parse], with the new value of [*dinode] as its result. *)
Definition dinode_parse (data : list byte) : outcome string Dinode :=
  if zlen data <? 512 then Err "insufficient data for dinode"%string else
  let! inostamp := field data 0 4 4 in
  let! fileset := field data 4 8 4 in
  let! number := field data 8 12 4 in
  let! generation := field data 12 16 4 in
  let! ixpxd := slice data 16 24 in
  let! size := field data 24 32 8 in
  let! nblocks := field data 32 40 8 in
  let! nlink := field data 40 44 4 in
  let! uid := field data 44 48 4 in
  let! gid := field data 48 52 4 in
  let! mode := field data 52 56 4 in
  let! asec := field data 56 60 4 in
  let! ansec := field data 60 64 4 in
  let! csec := field data 64 68 4 in
  let! cnsec := field data 68 72 4 in
  let! msec := field data 72 76 4 in
  let! mnsec := field data 76 80 4 in
  let! osec := field data 80 84 4 in
  let! onsec := field data 84 88 4 in
  let! acl_flag := get data 88 in
  let! acl_r0 := get data 89 in
  let! acl_r1 := get data 90 in
  let! acl_r2 := get data 91 in
  let! acl_size := field data 92 96 4 in
  let! acl_loc := slice data 96 104 in
  let! ea_flag := get data 104 in
  let! ea_r0 := get data 105 in
  let! ea_r1 := get data 106 in
  let! ea_r2 := get data 107 in
  let! ea_size := field data 108 112 4 in
  let! ea_loc := slice data 112 120 in
  let! next_index := field data 120 124 4 in
  let! acltype := field data 124 128 4 in
  let! u := field data 128 512 384 in
  Ok (mkDinode inostamp fileset number generation (pxd_from_bytes ixpxd) size nblocks nlink
        uid gid mode (mkTimestruc asec ansec) (mkTimestruc csec cnsec) (mkTimestruc msec mnsec)
        (mkTimestruc osec onsec)
        (mkDxd acl_flag [acl_r0; acl_r1; acl_r2] acl_size (pxd_from_bytes acl_loc))
        (mkDxd ea_flag [ea_r0; ea_r1; ea_r2] ea_size (pxd_from_bytes ea_loc))
        next_index acltype u).

Definition dinode_set_size_val (d : Dinode) (val : Z) : Dinode :=
  mkDinode (di_inostamp d) (di_fileset d) (di_number d) (di_generation d) (di_ixpxd d)
    (write_u64 val) (di_nblocks d) (di_nlink d) (di_uid d) (di_gid d) (di_mode d)
    (di_atime d) (di_ctime d) (di_mtime d) (di_otime d) (di_acl d) (di_ea d)
    (di_next_index d) (di_acltype d) (di_u d).
Definition dinode_set_nblocks (d : Dinode) (val : Z) : Dinode :=
  mkDinode (di_inostamp d) (di_fileset d) (di_number d) (di_generation d) (di_ixpxd d)
    (di_size d) (write_u64 val) (di_nlink d) (di_uid d) (di_gid d) (di_mode d)
    (di_atime d) (di_ctime d) (di_mtime d) (di_otime d) (di_acl d) (di_ea d)
    (di_next_index d) (di_acltype d) (di_u d).

(** ** xtree structures *)

Definition MAXXLEN : Z := 2 ^ 24 - 1.
Definition XTROOTMAXSLOT : Z := 18.
Definition XTENTRYSTART : Z := 2.

Record XtHeader := mkXtHeader {
  xth_next : list byte; xth_prev : list byte; xth_flag : byte; xth_rsrvd1 : byte;
  xth_nextindex : list byte; xth_maxentry : list byte; xth_rsrvd2 : list byte; xth_self_pxd : Pxd }.

Definition xth_default : XtHeader :=
  mkXtHeader (zeros 8) (zeros 8) Byte.x00 Byte.x00 (zeros 2) (zeros 2) (zeros 2) pxd_default.

Definition wf_xth (h : XtHeader) : Prop :=
  length (xth_next h) = 8%nat /\ length (xth_prev h) = 8%nat /\ length (xth_nextindex h) = 2%nat /\
  length (xth_maxentry h) = 2%nat /\ length (xth_rsrvd2 h) = 2%nat /\ wf_pxd (xth_self_pxd h).

Definition xth_get_prev (h : XtHeader) : Z := read_u64 (xth_prev h).
Definition xth_set_next (h : XtHeader) (val : Z) : XtHeader :=
  mkXtHeader (write_u64 val) (xth_prev h) (xth_flag h) (xth_rsrvd1 h) (xth_nextindex h)
    (xth_maxentry h) (xth_rsrvd2 h) (xth_self_pxd h).
Definition xth_set_prev (h : XtHeader) (val : Z) : XtHeader :=
  mkXtHeader (xth_next h) (write_u64 val) (xth_flag h) (xth_rsrvd1 h) (xth_nextindex h)
    (xth_maxentry h) (xth_rsrvd2 h) (xth_self_pxd h).
Definition xth_get_nextindex (h : XtHeader) : Z := read_u16 (xth_nextindex h).
Definition xth_set_nextindex (h : XtHeader) (val : Z) : XtHeader :=
  mkXtHeader (xth_next h) (xth_prev h) (xth_flag h) (xth_rsrvd1 h) (write_u16 val)
    (xth_maxentry h) (xth_rsrvd2 h) (xth_self_pxd h).
Definition xth_get_maxentry (h : XtHeader) : Z := read_u16 (xth_maxentry h).
Definition xth_set_maxentry (h : XtHeader) (val : Z) : XtHeader :=
  mkXtHeader (xth_next h) (xth_prev h) (xth_flag h) (xth_rsrvd1 h) (xth_nextindex h)
    (write_u16 val) (xth_rsrvd2 h) (xth_self_pxd h).

Record XtRoot := mkXtRoot { xt_header : XtHeader; xt_xad : list Xad }.

Definition xtroot_default : XtRoot := mkXtRoot xth_default (replicate 18 xad_default).

Definition wf_xtroot (r : XtRoot) : Prop :=
  wf_xth (xt_header r) /\ length (xt_xad r) = 18%nat /\ Forall wf_xad (xt_xad r).

Definition xtroot_is_leaf (r : XtRoot) : bool := negb (Z.land (bval (xth_flag (xt_header r))) 0x02 =? 0).
Definition xtroot_is_root (r : XtRoot) : bool := negb (Z.land (bval (xth_flag (xt_header r))) 0x01 =? 0).
Definition xtroot_next_index (r : XtRoot) : Z := xth_get_nextindex (xt_header r).
(** [entry]: an index below [XTROOTMAXSLOT] is in range of the array. *)
Definition xtroot_entry (r : XtRoot) (idx : Z) : option Xad :=
  if (idx <? XTROOTMAXSLOT) && (idx <? xtroot_next_index r)
  then xt_xad r !! Z.to_nat idx else None.

(** ** dtree structures *)

Definition DTSLOTSIZE : Z := 32.
Definition DTENTRYSTART : Z := 1.
Definition DTROOTMAXSLOT : Z := 9.

(** [ldtentry]; [name] holds UCS-2 units, [next] is an i8 kept as its byte. *)
Record LdtEntry := mkLdtEntry {
  ldt_inumber : list byte; ldt_next : byte; ldt_name_len : byte; ldt_name : list Z; ldt_index : list byte }.

Definition ldt_default : LdtEntry := mkLdtEntry (zeros 4) Byte.x00 Byte.x00 (replicate 11 0) (zeros 4).

(** ** [logsuper] *)

Record LogSuper := mkLogSuper {
  ls_magic : list byte; ls_version : list byte; ls_serial : list byte; ls_size : list byte;
  ls_bsize : list byte; ls_l2bsize : list byte; ls_flag : list byte; ls_state : list byte;
  ls_end : list byte; ls_uuid : list byte; ls_label : list byte; ls_active : list (list byte) }.

Definition logsuper_default : LogSuper :=
  mkLogSuper (zeros 4) (zeros 4) (zeros 4) (zeros 4) (zeros 4) (zeros 4) (zeros 4) (zeros 4)
    (zeros 4) (zeros 16) (zeros 16) (replicate MAX_ACTIVE (zeros 16)).

Definition wf_logsuper (l : LogSuper) : Prop :=
  length (ls_magic l) = 4%nat /\ length (ls_version l) = 4%nat /\ length (ls_serial l) = 4%nat /\
  length (ls_size l) = 4%nat /\ length (ls_bsize l) = 4%nat /\ length (ls_l2bsize l) = 4%nat /\
  length (ls_flag l) = 4%nat /\ length (ls_state l) = 4%nat /\ length (ls_end l) = 4%nat /\
  length (ls_uuid l) = 16%nat /\ length (ls_label l) = 16%nat /\
  length (ls_active l) = MAX_ACTIVE /\ Forall (fun e => length e = 16%nat) (ls_active l).

Definition ls_magic_val (l : LogSuper) : Z := read_u32 (ls_magic l).
Definition ls_is_valid (l : LogSuper) : bool := ls_magic_val l =? LOGMAGIC.
Definition ls_get_version (l : LogSuper) : Z := read_u32 (ls_version l).
Definition ls_page_size (l : LogSuper) : Z := read_u32 (ls_size l).
Definition ls_block_size (l : LogSuper) : Z := read_u32 (ls_bsize l).
Definition ls_get_state (l : LogSuper) : Z := read_u32 (ls_state l).
Definition ls_get_end (l : LogSuper) : Z := read_u32 (ls_end l).
Definition ls_get_flag (l : LogSuper) : Z := read_u32 (ls_flag l).
Definition ls_set_state (l : LogSuper) (val : Z) : LogSuper :=
  mkLogSuper (ls_magic l) (ls_version l) (ls_serial l) (ls_size l) (ls_bsize l) (ls_l2bsize l)
    (ls_flag l) (write_u32 val) (ls_end l) (ls_uuid l) (ls_label l) (ls_active l).
Definition ls_set_end (l : LogSuper) (val : Z) : LogSuper :=
  mkLogSuper (ls_magic l) (ls_version l) (ls_serial l) (ls_size l) (ls_bsize l) (ls_l2bsize l)
    (ls_flag l) (ls_state l) (write_u32 val) (ls_uuid l) (ls_label l) (ls_active l).

(** ** [logpage] *)

(** [LogpageHeader] and [LogpageTrailer] have the same fields. *)
Record LogpageEnd := mkLogpageEnd { lpe_page : list byte; lpe_rsrvd : list byte; lpe_eor : list byte }.
Record Logpage := mkLogpage { lp_h : LogpageEnd; lp_data : list (list byte); lp_t : LogpageEnd }.

Definition lp_h_page (p : Logpage) : Z := read_u32 (lpe_page (lp_h p)).
Definition lp_h_eor (p : Logpage) : Z := read_u16 (lpe_eor (lp_h p)).
Definition lp_t_page (p : Logpage) : Z := read_u32 (lpe_page (lp_t p)).
Definition lp_t_eor (p : Logpage) : Z := read_u16 (lpe_eor (lp_t p)).

(** ** [lrd]: log record descriptor *)

Record Lrd := mkLrd {
  lrd_f_logtid : list byte; lrd_f_backchain : list byte; lrd_f_type : list byte; lrd_f_length : list byte;
  lrd_f_aggregate : list byte; lrd_f_fileset : list byte; lrd_f_inode : list byte;
  lrd_f_rtype : list byte; lrd_f_l2linesize : list byte; lrd_f_pxd : Pxd }.

Definition lrd_default : Lrd :=
  mkLrd (zeros 4) (zeros 4) (zeros 2) (zeros 2) (zeros 4) (zeros 4) (zeros 4) (zeros 2) (zeros 2) pxd_default.

Definition wf_lrd (r : Lrd) : Prop :=
  length (lrd_f_logtid r) = 4%nat /\ length (lrd_f_backchain r) = 4%nat /\
  length (lrd_f_type r) = 2%nat /\ length (lrd_f_length r) = 2%nat /\
  length (lrd_f_aggregate r) = 4%nat /\ length (lrd_f_fileset r) = 4%nat /\
  length (lrd_f_inode r) = 4%nat /\ length (lrd_f_rtype r) = 2%nat /\
  length (lrd_f_l2linesize r) = 2%nat /\ wf_pxd (lrd_f_pxd r).

Definition lrd_logtid (r : Lrd) : Z := read_u32 (lrd_f_logtid r).
Definition lrd_backchain (r : Lrd) : Z := read_u32 (lrd_f_backchain r).
Definition lrd_type (r : Lrd) : Z := read_u16 (lrd_f_type r).
Definition lrd_length (r : Lrd) : Z := read_u16 (lrd_f_length r).
Definition lrd_aggregate (r : Lrd) : Z := read_u32 (lrd_f_aggregate r).
Definition lrd_fileset (r : Lrd) : Z := read_u32 (lrd_f_fileset r).
Definition lrd_inode (r : Lrd) : Z := read_u32 (lrd_f_inode r).
Definition lrd_redopage_type (r : Lrd) : Z := read_u16 (lrd_f_rtype r).
Definition lrd_redopage_l2linesize (r : Lrd) : Z := read_u16 (lrd_f_l2linesize r).
Definition lrd_redopage_pxd (r : Lrd) : Pxd := lrd_f_pxd r.
Definition lrd_syncpt_sync (r : Lrd) : Z := read_u32 (lrd_f_fileset r).

(** [self.r#type() & FLAG != 0]. *)
Definition lrd_has (r : Lrd) (flag : Z) : bool := negb (Z.land (lrd_type r) flag =? 0).
Definition lrd_is_commit (r : Lrd) : bool := lrd_has r LOG_COMMIT.
Definition lrd_is_syncpt (r : Lrd) : bool := lrd_has r LOG_SYNCPT.
Definition lrd_is_redopage (r : Lrd) : bool := lrd_has r LOG_REDOPAGE.
Definition lrd_is_noredopage (r : Lrd) : bool := lrd_has r LOG_NOREDOPAGE.
Definition lrd_is_updatemap (r : Lrd) : bool := lrd_has r LOG_UPDATEMAP.
Definition lrd_is_noredoinoext (r : Lrd) : bool := lrd_has r LOG_NOREDOINOEXT.
Definition lrd_is_mount (r : Lrd) : bool := lrd_has r LOG_MOUNT.

(** ** Superblock *)

Record JfsSuperblock := mkSuper {
  s_magic : list byte; s_version : list byte; s_size : list byte; s_bsize : list byte;
  s_l2bsize : list byte; s_l2bfactor : list byte; s_pbsize : list byte; s_l2pbsize : list byte;
  s_pad : list byte; s_agsize : list byte; s_flag : list byte; s_state : list byte;
  s_compress : list byte; s_ait2 : Pxd; s_aim2 : Pxd; s_logdev : list byte; s_logserial : list byte;
  s_logpxd : Pxd; s_fsckpxd : Pxd; s_time : Timestruc; s_fsckloglen : list byte; s_fscklog : byte;
  s_fpack : list byte; s_xsize : list byte; s_xfsckpxd : Pxd; s_xlogpxd : Pxd;
  s_uuid : list byte; s_label : list byte; s_loguuid : list byte }.

Definition sb_is_valid_magic (s : JfsSuperblock) : bool := bool_decide (s_magic s = JFS_MAGIC).
Definition sb_version (s : JfsSuperblock) : Z := read_u32 (s_version s).
Definition sb_block_size (s : JfsSuperblock) : Z := read_u32 (s_bsize s).
Definition sb_l2bsize (s : JfsSuperblock) : Z := read_u16 (s_l2bsize s).
Definition sb_log2_pbsize (s : JfsSuperblock) : Z := read_u16 (s_l2pbsize s).
Definition sb_agsize (s : JfsSuperblock) : Z := read_u32 (s_agsize s).
Definition sb_flag (s : JfsSuperblock) : Z := read_u32 (s_flag s).
Definition sb_state (s : JfsSuperblock) : Z := read_u32 (s_state s).
Definition sb_has_inline_log (s : JfsSuperblock) : bool := negb (Z.land (sb_flag s) 0x00000800 =? 0).
Definition sb_aggregate_size (s : JfsSuperblock) : Z := read_u64 (s_size s).

(** ** [logdiff] *)

(** An i64 operation with overflow checks, from its exact result. *)
Definition i64_checked {E} (z : Z) : outcome E Z :=
  if (- 2 ^ 63 <=? z) && (z <? 2 ^ 63) then Ok z else Panic.

Definition logdiff (syncpt lsn logsize : Z) : result Z :=
  let! diff := i64_checked (lsn - syncpt) in
  if diff <? 0 then i64_checked (diff + logsize) else Ok diff.

End codec.

(** * Facts *)

Section facts.
Context `{LES : LittleEndianSpec}.

Lemma wf_pxd_default : wf_pxd pxd_default.
Proof. done. Qed.

(** The word of [len_addr] splits in a 24-bit length and 8 bits of address. *)
Lemma pxd_length_val p : pxd_length p = read_u32 (len_addr p) mod 2 ^ 24.
Proof. apply (land_low 24). lia. Qed.

Lemma word_high_range w : 0 <= w < 2 ^ 32 -> 0 <= w / 2 ^ 24 < 2 ^ 8.
Proof. intros. split; [apply Z.div_pos|apply Z.div_lt_upper_bound]; lia. Qed.

Lemma pxd_address_val p :
  wf_pxd p -> pxd_address p = read_u32 (len_addr p) / 2 ^ 24 * 2 ^ 32 + read_u32 (addr2 p).
Proof.
  intros [H1 H2]. unfold pxd_address, not_u64.
  pose proof (read_u32_range _ H1) as Hr.
  change 0xffffff with (2 ^ 24 - 1).
  rewrite (land_high 24 64) by lia.
  rewrite Z.shiftl_mul_pow2 by lia.
  pose proof (word_high_range _ Hr).
  rewrite as_u64_small; lia.
Qed.

Lemma pxd_set_length_word p len :
  wf_pxd p ->
  read_u32 (len_addr (pxd_set_length p len)) = read_u32 (len_addr p) / 2 ^ 24 * 2 ^ 24 + len mod 2 ^ 24
  /\ wf_pxd (pxd_set_length p len).
Proof.
  intros [H1 H2]. unfold pxd_set_length, wf_pxd. simpl.
  pose proof (read_u32_range _ H1) as Hr.
  change (not_u32 0xffffff) with (2 ^ 32 - 1 - (2 ^ 24 - 1)). change 0xffffff with (2 ^ 24 - 1).
  rewrite (land_high 24 32), (land_low 24) by lia.
  pose proof (Z.mod_pos_bound len (2 ^ 24) ltac:(lia)).
  rewrite lor_fields by lia.
  assert (0 <= read_u32 (len_addr p) / 2 ^ 24 * 2 ^ 24 + len mod 2 ^ 24 < 2 ^ 32) by
    (Z.div_mod_to_equations; lia).
  rewrite read_write_u32, length_write_u32 by lia. done.
Qed.

Lemma pxd_set_address_word p addr :
  wf_pxd p ->
  read_u32 (len_addr (pxd_set_address p addr))
    = (addr / 2 ^ 32) mod 2 ^ 8 * 2 ^ 24 + read_u32 (len_addr p) mod 2 ^ 24
  /\ read_u32 (addr2 (pxd_set_address p addr)) = addr mod 2 ^ 32
  /\ wf_pxd (pxd_set_address p addr).
Proof.
  intros [H1 H2]. unfold pxd_set_address, wf_pxd. simpl.
  pose proof (read_u32_range _ H1) as Hr.
  change (not_u32 0xffffff) with (2 ^ 32 - 1 - (2 ^ 24 - 1)). change 0xffffff with (2 ^ 24 - 1).
  rewrite Z.shiftr_div_pow2 by lia. rewrite Z.shiftl_mul_pow2 by lia. unfold as_u32.
  pose proof (Z.mod_pos_bound ((addr / 2 ^ 32) mod 2 ^ 32 * 2 ^ 24) (2 ^ 32) ltac:(lia)).
  pose proof (Z.mod_pos_bound addr (2 ^ 32) ltac:(lia)).
  pose proof (Z.mod_pos_bound (read_u32 (len_addr p)) (2 ^ 24) ltac:(lia)).
  pose proof (Z.mod_pos_bound (addr / 2 ^ 32) (2 ^ 8) ltac:(lia)).
  rewrite (land_high 24 32), (land_low 24) by lia.
  assert (((addr / 2 ^ 32) mod 2 ^ 32 * 2 ^ 24) mod 2 ^ 32 / 2 ^ 24 = (addr / 2 ^ 32) mod 2 ^ 8) as ->.
  { change (2 ^ 32) with (2 ^ 8 * 2 ^ 24) at 3. rewrite Z.mul_mod_distr_r by lia.
    rewrite Z.div_mul by lia. rewrite Z.mod_mod_divide; [done|]. by exists (2 ^ 24). }
  rewrite Z.lor_comm, lor_fields by lia.
  rewrite !read_write_u32, !length_write_u32 by lia. done.
Qed.

Lemma wf_pxd_set_length p len : wf_pxd p -> wf_pxd (pxd_set_length p len).
Proof. intros. by apply pxd_set_length_word. Qed.

Lemma wf_pxd_set_address p addr : wf_pxd p -> wf_pxd (pxd_set_address p addr).
Proof. intros. by apply pxd_set_address_word. Qed.

Lemma pxd_length_range p : 0 <= pxd_length p < 2 ^ 24.
Proof. rewrite pxd_length_val. apply Z.mod_pos_bound. lia. Qed.

Lemma pxd_address_range p : wf_pxd p -> 0 <= pxd_address p < 2 ^ 40.
Proof.
  intros Hp. rewrite pxd_address_val by done. destruct Hp as [H1 H2].
  pose proof (read_u32_range _ H1) as Hr. pose proof (read_u32_range _ H2).
  pose proof (word_high_range _ Hr). lia.
Qed.

Lemma pxd_length_set_length p len :
  wf_pxd p -> pxd_length (pxd_set_length p len) = len mod 2 ^ 24.
Proof.
  intros Hp. rewrite pxd_length_val. destruct (pxd_set_length_word p len Hp) as [-> _].
  rewrite Z.add_comm, Z.mod_add, Z.mod_mod; lia.
Qed.

Lemma pxd_address_set_length p len :
  wf_pxd p -> pxd_address (pxd_set_length p len) = pxd_address p.
Proof.
  intros Hp. destruct (pxd_set_length_word p len Hp) as [Hw Hwf].
  rewrite !pxd_address_val by done. rewrite Hw. simpl.
  rewrite Z.div_add_l, (Z.div_small (len mod _)); [lia|apply Z.mod_pos_bound|]; lia.
Qed.

Lemma pxd_length_set_address p addr :
  wf_pxd p -> pxd_length (pxd_set_address p addr) = pxd_length p.
Proof.
  intros Hp. rewrite !pxd_length_val. destruct (pxd_set_address_word p addr Hp) as (-> & _ & _).
  rewrite Z.add_comm, Z.mod_add, Z.mod_mod; lia.
Qed.

Lemma pxd_address_set_address p addr :
  wf_pxd p -> pxd_address (pxd_set_address p addr) = addr mod 2 ^ 40.
Proof.
  intros Hp. destruct (pxd_set_address_word p addr Hp) as (Hw & Hw2 & Hwf).
  rewrite pxd_address_val by done. rewrite Hw, Hw2.
  rewrite Z.div_add_l, (Z.div_small (read_u32 _ mod _)), Z.add_0_r; [|apply Z.mod_pos_bound|]; try lia.
  change (2 ^ 40) with (2 ^ 32 * 2 ^ 8). rewrite Z.rem_mul_r by lia. lia.
Qed.

(** Both fields of a descriptor written in either order. *)
Lemma pxd_set_both len addr :
  0 <= len < 2 ^ 24 -> 0 <= addr < 2 ^ 40 ->
  let p := pxd_set_length (pxd_set_address pxd_default addr) len in
  pxd_length p = len /\ pxd_address p = addr /\ wf_pxd p.
Proof.
  intros Hl Ha. simpl.
  rewrite pxd_length_set_length, pxd_address_set_length, pxd_address_set_address
    by auto using wf_pxd_default, wf_pxd_set_address.
  rewrite !Z.mod_small by done.
  auto using wf_pxd_default, wf_pxd_set_address, wf_pxd_set_length.
Qed.

Lemma pxd_from_into_bytes p : wf_pxd p -> pxd_from_bytes (pxd_into_bytes p) = p.
Proof.
  intros [H1 H2]. unfold pxd_from_bytes, pxd_into_bytes.
  apply zlen_of_length in H1, H2.
  rewrite zlen_app. destruct (Z.leb_spec 8 (zlen (len_addr p) + zlen (addr2 p))); [|lia].
  rewrite zslice_app_l by lia. rewrite zslice_app_r by lia.
  rewrite zslice_all by lia. rewrite H1. rewrite zslice_all by lia. by destruct p.
Qed.

Lemma pxd_into_from_bytes bs : length bs = 8%nat -> pxd_into_bytes (pxd_from_bytes bs) = bs.
Proof.
  intros H%zlen_of_length. unfold pxd_from_bytes, pxd_into_bytes.
  destruct (Z.leb_spec 8 (zlen bs)); [|lia]. simpl.
  rewrite zslice_cat by lia. apply zslice_all. lia.
Qed.

Lemma wf_pxd_from_bytes bs : wf_pxd (pxd_from_bytes bs).
Proof.
  unfold pxd_from_bytes. destruct (Z.leb_spec 8 (zlen bs)); [|done].
  split; simpl; rewrite length_zslice; try lia; done.
Qed.

(** ** [Xad] *)

Lemma wf_xad_default : wf_xad xad_default.
Proof. done. Qed.

Lemma xad_offset_val x :
  wf_xad x -> xad_offset x = bval (xad_off1 x) * 2 ^ 32 + read_u32 (xad_off2 x).
Proof.
  intros (_ & H2 & _). unfold xad_offset. pose proof (read_u32_range _ H2).
  pose proof (bval_range (xad_off1 x)).
  rewrite Z.shiftl_mul_pow2, lor_fields by lia. rewrite as_i64_small; lia.
Qed.

Lemma xad_offset_range x : wf_xad x -> 0 <= xad_offset x < 2 ^ 40.
Proof.
  intros Hx. rewrite xad_offset_val by done. destruct Hx as (_ & H2 & _).
  pose proof (read_u32_range _ H2). pose proof (bval_range (xad_off1 x)). lia.
Qed.

Lemma wf_xad_set_offset x o : wf_xad x -> wf_xad (xad_set_offset x o).
Proof.
  intros (H1 & H2 & H3). repeat split; simpl; try done; try apply H3.
  apply length_write_u32. apply Z.mod_pos_bound. lia.
Qed.

Lemma xad_offset_set_offset x o :
  wf_xad x -> xad_offset (xad_set_offset x o) = o mod 2 ^ 40.
Proof.
  intros Hx. rewrite xad_offset_val by by apply wf_xad_set_offset. simpl.
  change 0xffffffff with (2 ^ 32 - 1). change 0xff with (2 ^ 8 - 1).
  rewrite !land_low by lia. rewrite Z.shiftr_div_pow2 by lia.
  pose proof (Z.mod_pos_bound (as_u64 o) (2 ^ 32) ltac:(lia)).
  rewrite as_u32_small, read_write_u32 by lia.
  rewrite bval_bof. change 256 with (2 ^ 8). rewrite Z.mod_mod by lia.
  rewrite (Z.add_comm), (Z.mul_comm (_ mod _)).
  rewrite <- Z.rem_mul_r by lia. unfold as_u64.
  change (2 ^ 32 * 2 ^ 8) with (2 ^ 40).
  rewrite Z.mod_mod_divide; [done|]. by exists (2 ^ 24).
Qed.

Lemma wf_xad_set_length x n : wf_xad x -> wf_xad (xad_set_length x n).
Proof. intros (?&?&?). split_and!; [done|done|]. by apply wf_pxd_set_length. Qed.
Lemma wf_xad_set_address x a : wf_xad x -> wf_xad (xad_set_address x a).
Proof. intros (?&?&?). split_and!; [done|done|]. by apply wf_pxd_set_address. Qed.
Lemma wf_xad_set_flag x f : wf_xad x -> wf_xad (xad_set_flag x f).
Proof. done. Qed.

(** ** [Dinode] *)

Lemma field_ok {E} data a b n :
  0 <= a <= b -> b <= zlen data -> n = Z.to_nat (b - a) -> @field E data a b n = Ok (zslice data a b).
Proof.
  intros Ha Hb ->. unfold field. rewrite slice_ok by done. simpl.
  by rewrite try_into_ok by by apply length_zslice.
Qed.

(** The bytes of an inode, field after field, in the order of the packed struct. *)
Definition dinode_bytes (d : Dinode) : list byte :=
  di_inostamp d ++ di_fileset d ++ di_number d ++ di_generation d ++ pxd_into_bytes (di_ixpxd d) ++
  di_size d ++ di_nblocks d ++ di_nlink d ++ di_uid d ++ di_gid d ++ di_mode d ++
  tv_sec (di_atime d) ++ tv_nsec (di_atime d) ++ tv_sec (di_ctime d) ++ tv_nsec (di_ctime d) ++
  tv_sec (di_mtime d) ++ tv_nsec (di_mtime d) ++ tv_sec (di_otime d) ++ tv_nsec (di_otime d) ++
  dxd_flag (di_acl d) :: dxd_rsrvd (di_acl d) ++ dxd_size (di_acl d) ++ pxd_into_bytes (dxd_loc (di_acl d)) ++
  dxd_flag (di_ea d) :: dxd_rsrvd (di_ea d) ++ dxd_size (di_ea d) ++ pxd_into_bytes (dxd_loc (di_ea d)) ++
  di_next_index d ++ di_acltype d ++ di_u d.

Lemma zslice_uncons {A} `{Inhabited A} (l : list A) i j c :
  0 <= i < c -> c <= zlen l -> j = i + 1 -> l !!! Z.to_nat i :: zslice l j c = zslice l i c.
Proof.
  intros Hi Hc ->. unfold zslice.
  rewrite (drop_S l (l !!! Z.to_nat i) (Z.to_nat i)) by (apply lookup_total_of_zlen; lia).
  replace (Z.to_nat (c - i)) with (S (Z.to_nat (c - (i + 1)))) by lia.
  replace (S (Z.to_nat i)) with (Z.to_nat (i + 1)) by lia. done.
Qed.

Lemma dinode_parse_bytes data :
  zlen data = 512 -> exists d, dinode_parse data = Ok d /\ dinode_bytes d = data.
Proof.
  intros Hlen. unfold dinode_parse. rewrite Hlen.
  cbn [Z.ltb Z.compare Pos.compare Pos.compare_cont].
  rewrite !field_ok by (rewrite ?Hlen; done). rewrite !slice_ok by (rewrite ?Hlen; done).
  rewrite !get_ok by (rewrite ?Hlen; done). cbn [obind].
  eexists. split; [reflexivity|]. unfold dinode_bytes.
  cbn [di_inostamp di_fileset di_number di_generation di_ixpxd di_size di_nblocks di_nlink di_uid
       di_gid di_mode di_atime di_ctime di_mtime di_otime di_acl di_ea di_next_index di_acltype di_u
       tv_sec tv_nsec dxd_flag dxd_rsrvd dxd_size dxd_loc app].
  rewrite !pxd_into_from_bytes by (rewrite length_zslice; rewrite ?Hlen; done).
  rewrite !zslice_cat by (rewrite ?Hlen; done).
  rewrite 4!(zslice_uncons data) by (rewrite ?Hlen; done).
  rewrite !zslice_cat by (rewrite ?Hlen; done).
  rewrite 4!(zslice_uncons data) by (rewrite ?Hlen; done).
  rewrite !zslice_cat by (rewrite ?Hlen; done). by apply zslice_all.
Qed.

(** The fields of a parsed inode that the volume reads. *)
Lemma dinode_parse_fields data d :
  zlen data = 512 -> dinode_parse data = Ok d ->
  di_size d = zslice data 24 32 /\ di_nblocks d = zslice data 32 40 /\ di_nlink d = zslice data 40 44 /\
  di_mode d = zslice data 52 56 /\ dxd_flag (di_ea d) = data !!! 104%nat /\ dxd_size (di_ea d) = zslice data 108 112 /\
  di_u d = zslice data 128 512.
Proof.
  intros Hlen. unfold dinode_parse. rewrite Hlen.
  cbn [Z.ltb Z.compare Pos.compare Pos.compare_cont].
  rewrite !field_ok by (rewrite ?Hlen; done). rewrite !slice_ok by (rewrite ?Hlen; done).
  rewrite !get_ok by (rewrite ?Hlen; done). cbn [obind]. by intros [= <-].
Qed.

Lemma dinode_parse_long data :
  512 <= zlen data -> dinode_parse data = dinode_parse (zslice data 0 512).
Proof.
  intros Hlen. assert (zlen (zslice data 0 512) = 512) as Hl by by rewrite zlen_zslice.
  unfold dinode_parse. rewrite Hl.
  destruct (Z.ltb_spec (zlen data) 512); [lia|]. cbn [Z.ltb Z.compare Pos.compare Pos.compare_cont].
  rewrite !field_ok, !slice_ok, !get_ok by (rewrite ?Hl; lia).
  rewrite !(zslice_zslice data 0 512) by lia.
  rewrite !(list_lookup_total_alt (zslice _ _ _)), !lookup_zslice by lia.
  rewrite !list_lookup_total_alt. done.
Qed.

Lemma i64_checked_ok {E} z : - 2 ^ 63 <= z < 2 ^ 63 -> @i64_checked E z = Ok z.
Proof.
  intros. unfold i64_checked. destruct (Z.leb_spec (- 2 ^ 63) z), (Z.ltb_spec z (2 ^ 63)); try lia. done.
Qed.

(** * Properties *)

(** The fields of an extent descriptor: a setter stores its argument
    truncated to the 24 bits of the length or the 40 bits of the address and
    leaves the other field alone, both keep the descriptor well formed, and
    converting to the 8 bytes of the disk and back is the identity. *)
Theorem pxd_fields (p : Pxd) (len addr : Z) :
  wf_pxd p ->
  pxd_length (pxd_set_length p len) = len mod 2 ^ 24 /\
  pxd_address (pxd_set_length p len) = pxd_address p /\
  pxd_address (pxd_set_address p addr) = addr mod 2 ^ 40 /\
  pxd_length (pxd_set_address p addr) = pxd_length p /\
  wf_pxd (pxd_set_length p len) /\ wf_pxd (pxd_set_address p addr) /\
  pxd_from_bytes (pxd_into_bytes p) = p.
Proof.
  intros Hp. rewrite pxd_length_set_length, pxd_address_set_length, pxd_address_set_address,
    pxd_length_set_address, pxd_from_into_bytes by done.
  split_and!; auto using wf_pxd_set_length, wf_pxd_set_address.
Qed.

(** [Dinode::parse] accepts exactly the buffers of at least 512 bytes, and
    the inode it returns, written out field after field, is the first 512 bytes
    of the buffer: no byte of the on-disk inode is lost, moved or altered. *)
Theorem dinode_parse_lossless (data : list byte) :
  (zlen data < 512 /\ exists msg, dinode_parse data = Err msg) \/
  (512 <= zlen data /\ exists d, dinode_parse data = Ok d /\ dinode_bytes d = zslice data 0 512).
Proof.
  destruct (Z.lt_ge_cases (zlen data) 512) as [Hl|Hl].
  - left. split; [done|]. unfold dinode_parse. destruct (Z.ltb_spec (zlen data) 512); [by eexists|lia].
  - right. split; [done|]. rewrite dinode_parse_long by done. apply dinode_parse_bytes.
    by rewrite zlen_zslice.
Qed.

(** For log positions within the log, [logdiff] is the distance from the
    synchronisation point to the record modulo the log size. *)
Theorem logdiff_mod (syncpt lsn logsize : Z) :
  0 <= syncpt < logsize -> 0 <= lsn < logsize -> logsize < 2 ^ 63 ->
  logdiff syncpt lsn logsize = Ok ((lsn - syncpt) mod logsize).
Proof.
  intros Hs Hl Hz. unfold logdiff. rewrite i64_checked_ok by lia. cbn [obind].
  destruct (Z.ltb_spec (lsn - syncpt) 0).
  - rewrite i64_checked_ok by lia. f_equal.
    rewrite <- (Z.mod_small (lsn - syncpt + logsize) logsize) by lia.
    rewrite <- (Z.mod_add (lsn - syncpt) 1 logsize) by lia. f_equal. lia.
  - by rewrite Z.mod_small by lia.
Qed.
End facts.

Lemma pxd_fields_witness :
  pxd_length (LE := le_codec) (pxd_set_length (LE := le_codec) pxd_default 0x1000005) = 5.
Proof. exact (proj1 (pxd_fields (LES := le_codec_spec) pxd_default 0x1000005 0 wf_pxd_default)). Defined.

Lemma logdiff_mod_witness : logdiff 90 10 100 = Ok 20.
Proof. exact (logdiff_mod 90 10 100 ltac:(lia) ltac:(lia) ltac:(lia)). Defined.

#[export] Hint Resolve wf_pxd_default wf_pxd_set_length wf_pxd_set_address wf_pxd_from_bytes
  wf_xad_default wf_xad_set_offset wf_xad_set_length wf_xad_set_address wf_xad_set_flag : jfs.
