(* ===== verification/Storage.v ===== *)
(** * Block storage ([src/src/storage/mod.rs])

    The trait [Storage] is the class [Storage]; every method takes the state of
    the device and returns it. [StorageSpec] states what the program relies on
    (a call that succeeds does what it says, a call that fails touches nothing
    but its own range, flushes keep the contents) and [StorageReliable] that
    in-range calls succeed. The clients are proved against these interfaces;
    [MemoryStorage], [ReadOnlyStorage] and [FaultInjector] implement them. *)

From S2P Require Import Prelude Types.
From Stdlib Require Import ZArith Lia.

(** ** The trait *)

Class Storage (D : Type) := {
  read_block : Z -> ST D StorageError (list byte);
  write_block : Z -> list byte -> ST D StorageError unit;
  read_blocks : Z -> Z -> ST D StorageError (list byte);
  write_blocks : Z -> list byte -> ST D StorageError unit;
  sync : ST D StorageError unit;
  size_blocks : D -> Z;
  read_bytes : Z -> Z -> ST D StorageError (list byte);
  write_bytes : Z -> list byte -> ST D StorageError unit;
  flush_data : ST D StorageError unit;
  flush_metadata : ST D StorageError unit;
}.

(** ** Validation of writes *)

Definition validate_block_write (storage_size block : Z) (data : list byte) : result unit :=
  if negb (zlen data =? BLOCK_SIZE)
  then Err (Other "write_block: buffer is {} bytes, expected {}")
  else if storage_size <=? block then Err (BlockOutOfRange block storage_size)
  else Ok tt.

Definition validate_block_range (storage_size block : Z) (data : list byte) : result unit :=
  if negb (zlen data mod BLOCK_SIZE =? 0)
  then Err (Other "write_blocks: buffer length {} is not a multiple of BLOCK_SIZE ({})") else
  let count := zlen data / BLOCK_SIZE in
  if count =? 0 then Err (Other "write_blocks: data length is zero") else
  (* checked_add *)
  let! end_ :=
    (if block + count <? 2 ^ 64 then Ok (block + count)
     else Err (Other "write_blocks: block range overflow")) in
  if storage_size <=? block then Err (BlockOutOfRange block storage_size) else
  if storage_size <? end_ then Err (BlockOutOfRange end_ storage_size) else
  Ok tt.

(** ** [MemoryStorage] *)

Record MemoryStorage := mkMem { ms_data : list byte; ms_size : Z }.

(** [MemoryStorage::new]. *)
Definition mem_new (size_blocks : Z) : result MemoryStorage :=
  let! len := mul_u64 size_blocks BLOCK_SIZE in
  Ok (mkMem (replicate (Z.to_nat len) Byte.x00) len).

Definition mem_block_to_offset (block : Z) : result Z := mul_u64 block BLOCK_SIZE.

Definition mem_read_bytes (offset len : Z) : ST MemoryStorage StorageError (list byte) := fun s =>
  (let! end_ := add_u64 offset len in
   if ms_size s <? end_ then Err (Other "read beyond end of storage: {} > {}")
   else slice (ms_data s) offset end_, s).

Definition mem_write_bytes (offset : Z) (data : list byte) : ST MemoryStorage StorageError unit := fun s =>
  match
    (let! end_ := add_u64 offset (zlen data) in
     if ms_size s <? end_ then Err (Other "write beyond end of storage: {} > {}")
     else splice (ms_data s) offset data)
  with
  | Ok buf => (Ok tt, mkMem buf (ms_size s))
  | Err e => (Err e, s)
  | Panic => (Panic, s)
  end.

Definition mem_size_blocks (s : MemoryStorage) : Z := ms_size s / BLOCK_SIZE.

Definition mem_read_block (block : Z) : ST MemoryStorage StorageError (list byte) :=
  let* offset := slift (mem_block_to_offset block) in
  mem_read_bytes offset BLOCK_SIZE.

Definition mem_write_block (block : Z) (data : list byte) : ST MemoryStorage StorageError unit :=
  let* offset := slift (mem_block_to_offset block) in
  mem_write_bytes offset data.

Definition mem_read_blocks (block count : Z) : ST MemoryStorage StorageError (list byte) :=
  let* offset := slift (mem_block_to_offset block) in
  let* total := slift (mul_u64 count BLOCK_SIZE) in
  mem_read_bytes offset total.

Definition mem_write_blocks (block : Z) (data : list byte) : ST MemoryStorage StorageError unit :=
  let* s := sget in
  let* _ := slift (validate_block_range (mem_size_blocks s) block data) in
  let* offset := slift (mem_block_to_offset block) in
  mem_write_bytes offset data.

#[export] Instance memory_storage : Storage MemoryStorage := {|
  read_block := mem_read_block;
  write_block := mem_write_block;
  read_blocks := mem_read_blocks;
  write_blocks := mem_write_blocks;
  sync := sret tt;
  size_blocks := mem_size_blocks;
  read_bytes := mem_read_bytes;
  write_bytes := mem_write_bytes;
  flush_data := sret tt;
  flush_metadata := sret tt;
|}.

(** ** [NullStorage] *)

Inductive NullStorage := NullDevice.

#[export] Instance null_storage : Storage NullStorage := {|
  read_block := fun _ => sret (replicate (Z.to_nat BLOCK_SIZE) Byte.x00);
  write_block := fun _ _ => sret tt;
  read_blocks := fun _ count =>
    let* total := slift (mul_u64 count BLOCK_SIZE) in
    sret (replicate (Z.to_nat total) Byte.x00);
  write_blocks := fun _ _ => sret tt;
  sync := sret tt;
  size_blocks := fun _ => 0;
  read_bytes := fun _ len => sret (replicate (Z.to_nat len) Byte.x00);
  write_bytes := fun _ _ => sret tt;
  flush_data := sret tt;
  flush_metadata := sret tt;
|}.

(** ** [ReadOnlyStorage] *)

Record ReadOnlyStorage (D : Type) := mkRO { ro_inner : D }.
Arguments mkRO {_} _.
Arguments ro_inner {_} _.

(** A call forwarded to the wrapped device. *)
Definition ro_call {D A} (m : ST D StorageError A) : ST (ReadOnlyStorage D) StorageError A := fun s =>
  match m (ro_inner s) with (r, d) => (r, mkRO d) end.

#[export] Instance read_only_storage {D} `{Storage D} : Storage (ReadOnlyStorage D) := {|
  read_block := fun block => ro_call (read_block block);
  write_block := fun _ _ => sfail ReadOnly;
  read_blocks := fun block count => ro_call (read_blocks block count);
  write_blocks := fun _ _ => sfail ReadOnly;
  sync := sret tt;
  size_blocks := fun s => size_blocks (ro_inner s);
  read_bytes := fun offset len => ro_call (read_bytes offset len);
  write_bytes := fun _ _ => sfail ReadOnly;
  flush_data := sret tt;
  flush_metadata := sret tt;
|}.

(** ** [FaultInjector] *)

Record FaultInjector (D : Type) := mkFault {
  fi_inner : D;
  fi_write_count : Z; fi_write_fail_at : Z;
  fi_sync_count : Z; fi_sync_fail_at : Z;
  fi_crash_on_sync : bool; fi_short_write : bool; fi_short_read : bool;
  fi_read_fail_at : Z; fi_read_count : Z }.
Arguments mkFault {_} _ _ _ _ _ _ _ _ _ _.
Arguments fi_inner {_} _.
Arguments fi_write_count {_} _.
Arguments fi_write_fail_at {_} _.
Arguments fi_sync_count {_} _.
Arguments fi_sync_fail_at {_} _.
Arguments fi_crash_on_sync {_} _.
Arguments fi_short_write {_} _.
Arguments fi_short_read {_} _.
Arguments fi_read_fail_at {_} _.
Arguments fi_read_count {_} _.

(** [u64::MAX]. *)
Definition U64_MAX : Z := 2 ^ 64 - 1.

(** [FaultInjector::new]. *)
Definition fi_new {D} (inner : D) : FaultInjector D :=
  mkFault inner 0 U64_MAX 0 U64_MAX false false false U64_MAX 0.

Definition fi_set_write_fail {D} (n : Z) (s : FaultInjector D) : FaultInjector D :=
  mkFault (fi_inner s) (fi_write_count s) n (fi_sync_count s) (fi_sync_fail_at s)
    (fi_crash_on_sync s) (fi_short_write s) (fi_short_read s) (fi_read_fail_at s) (fi_read_count s).
Definition fi_set_read_fail {D} (n : Z) (s : FaultInjector D) : FaultInjector D :=
  mkFault (fi_inner s) (fi_write_count s) (fi_write_fail_at s) (fi_sync_count s) (fi_sync_fail_at s)
    (fi_crash_on_sync s) (fi_short_write s) (fi_short_read s) n (fi_read_count s).
Definition fi_set_sync_fail {D} (n : Z) (s : FaultInjector D) : FaultInjector D :=
  mkFault (fi_inner s) (fi_write_count s) (fi_write_fail_at s) (fi_sync_count s) n
    (fi_crash_on_sync s) (fi_short_write s) (fi_short_read s) (fi_read_fail_at s) (fi_read_count s).
Definition fi_set_crash_on_sync {D} (crash : bool) (s : FaultInjector D) : FaultInjector D :=
  mkFault (fi_inner s) (fi_write_count s) (fi_write_fail_at s) (fi_sync_count s) (fi_sync_fail_at s)
    crash (fi_short_write s) (fi_short_read s) (fi_read_fail_at s) (fi_read_count s).
Definition fi_set_short_write {D} (enabled : bool) (s : FaultInjector D) : FaultInjector D :=
  mkFault (fi_inner s) (fi_write_count s) (fi_write_fail_at s) (fi_sync_count s) (fi_sync_fail_at s)
    (fi_crash_on_sync s) enabled (fi_short_read s) (fi_read_fail_at s) (fi_read_count s).
Definition fi_set_short_read {D} (enabled : bool) (s : FaultInjector D) : FaultInjector D :=
  mkFault (fi_inner s) (fi_write_count s) (fi_write_fail_at s) (fi_sync_count s) (fi_sync_fail_at s)
    (fi_crash_on_sync s) (fi_short_write s) enabled (fi_read_fail_at s) (fi_read_count s).
Definition fi_reset {D} (s : FaultInjector D) : FaultInjector D :=
  mkFault (fi_inner s) (fi_write_count s) U64_MAX (fi_sync_count s) U64_MAX
    false false false U64_MAX (fi_read_count s).

Section fault_injector.
Context {D : Type} `{SD : Storage D}.

(** [read_count.fetch_add(1) + 1], then the test against [read_fail_at]. *)
Definition fi_count_read : ST (FaultInjector D) StorageError unit := fun s =>
  let s1 := mkFault (fi_inner s) (fi_write_count s) (fi_write_fail_at s) (fi_sync_count s)
    (fi_sync_fail_at s) (fi_crash_on_sync s) (fi_short_write s) (fi_short_read s)
    (fi_read_fail_at s) (as_u64 (fi_read_count s + 1)) in
  match @add_u64 StorageError (fi_read_count s) 1 with
  | Ok n => if (fi_read_fail_at s <=? n) && negb (fi_read_fail_at s =? 0)
            then (Err FaultInjection, s1) else (Ok tt, s1)
  | Err e => (Err e, s1)
  | Panic => (Panic, s1)
  end.

(** [write_count.fetch_add(1) + 1], then the test against [write_fail_at]. *)
Definition fi_count_write : ST (FaultInjector D) StorageError unit := fun s =>
  let s1 := mkFault (fi_inner s) (as_u64 (fi_write_count s + 1)) (fi_write_fail_at s) (fi_sync_count s)
    (fi_sync_fail_at s) (fi_crash_on_sync s) (fi_short_write s) (fi_short_read s)
    (fi_read_fail_at s) (fi_read_count s) in
  match @add_u64 StorageError (fi_write_count s) 1 with
  | Ok n => if (fi_write_fail_at s <=? n) && negb (fi_write_fail_at s =? 0)
            then (Err FaultInjection, s1) else (Ok tt, s1)
  | Err e => (Err e, s1)
  | Panic => (Panic, s1)
  end.

(** A call forwarded to the wrapped device. *)
Definition fi_call {A} (m : ST D StorageError A) : ST (FaultInjector D) StorageError A := fun s =>
  match m (fi_inner s) with
  | (r, d) => (r, mkFault d (fi_write_count s) (fi_write_fail_at s) (fi_sync_count s)
                   (fi_sync_fail_at s) (fi_crash_on_sync s) (fi_short_write s) (fi_short_read s)
                   (fi_read_fail_at s) (fi_read_count s))
  end.

(** [Err(ShortRead { .. })] when [short_read] is set. *)
Definition fi_check_short_read (expected : Z) (data : list byte)
  : ST (FaultInjector D) StorageError (list byte) :=
  let* s := sget in
  if fi_short_read s then sfail (ShortRead expected (Z.max (expected / 2) 1)) else sret data.

(** [Err(ShortWrite { .. })] when [short_write] is set. *)
Definition fi_check_short_write (data : list byte) : ST (FaultInjector D) StorageError unit :=
  let* s := sget in
  if fi_short_write s then sfail (ShortWrite (zlen data) (Z.max (zlen data / 2) 1)) else sret tt.

Definition fi_read_block (block : Z) : ST (FaultInjector D) StorageError (list byte) :=
  let* _ := fi_count_read in
  let* data := fi_call (read_block block) in
  fi_check_short_read BLOCK_SIZE data.

Definition fi_write_block (block : Z) (data : list byte) : ST (FaultInjector D) StorageError unit :=
  let* _ := fi_count_write in
  let* _ := fi_check_short_write data in
  fi_call (write_block block data).

Definition fi_read_blocks (block count : Z) : ST (FaultInjector D) StorageError (list byte) :=
  let* _ := fi_count_read in
  let* data := fi_call (read_blocks block count) in
  let* s := sget in
  if fi_short_read s then
    let* expected := slift (mul_u64 count BLOCK_SIZE) in
    sfail (ShortRead expected (Z.max (expected / 2) 1))
  else sret data.

Definition fi_write_blocks (block : Z) (data : list byte) : ST (FaultInjector D) StorageError unit :=
  let* _ := fi_count_write in
  let* _ := fi_check_short_write data in
  fi_call (write_blocks block data).

(** [std::process::exit(1)] is [Panic]: nothing runs after it. *)
Definition fi_sync : ST (FaultInjector D) StorageError unit := fun s =>
  let s1 := mkFault (fi_inner s) (fi_write_count s) (fi_write_fail_at s) (as_u64 (fi_sync_count s + 1))
    (fi_sync_fail_at s) (fi_crash_on_sync s) (fi_short_write s) (fi_short_read s)
    (fi_read_fail_at s) (fi_read_count s) in
  match @add_u64 StorageError (fi_sync_count s) 1 with
  | Ok n =>
      if fi_crash_on_sync s then (Panic, s1) else
      if (fi_sync_fail_at s <=? n) && negb (fi_sync_fail_at s =? 0)
      then (Err FaultInjection, s1) else fi_call sync s1
  | Err e => (Err e, s1)
  | Panic => (Panic, s1)
  end.

(** A short read of bytes truncates the result instead of failing. *)
Definition fi_read_bytes (offset len : Z) : ST (FaultInjector D) StorageError (list byte) :=
  let* _ := fi_count_read in
  let* data := fi_call (read_bytes offset len) in
  let* s := sget in
  if fi_short_read s
  then slift (slice data 0 (Z.max (zlen data / 2) 1))
  else sret data.

Definition fi_write_bytes (offset : Z) (data : list byte) : ST (FaultInjector D) StorageError unit :=
  let* _ := fi_count_write in
  let* _ := fi_check_short_write data in
  fi_call (write_bytes offset data).

(** [flush_data] and [flush_metadata] are the trait's defaults, [self.sync()]. *)
#[export] Instance fault_injector : Storage (FaultInjector D) := {|
  read_block := fi_read_block;
  write_block := fi_write_block;
  read_blocks := fi_read_blocks;
  write_blocks := fi_write_blocks;
  sync := fi_sync;
  size_blocks := fun s => size_blocks (fi_inner s);
  read_bytes := fi_read_bytes;
  write_bytes := fi_write_bytes;
  flush_data := fi_sync;
  flush_metadata := fi_sync;
|}.
End fault_injector.

(** ** Positional file I/O *)

(** [std::fs::File] seen through [FileExt::read_at] and [write_at]: the bytes of
    the file, the number of calls made, and the kernel's choice of how many
    bytes call number [n] transfers when [avail > 0] can be ([None]: an error). *)
Record File := mkFile { f_bytes : list byte; f_calls : nat; f_xfer : nat -> Z -> option Z }.

(** The documented contract of a positional transfer. *)
Definition xfer_spec (f : File) : Prop :=
  forall n avail k, 0 < avail -> f_xfer f n avail = Some k -> 1 <= k <= avail.

Definition io_error : StorageError := Io "I/O error".

Definition file_read_at (f : File) (offset len : Z) : result (list byte) * File :=
  let f' := mkFile (f_bytes f) (S (f_calls f)) (f_xfer f) in
  let avail := Z.min len (zlen (f_bytes f) - offset) in
  if avail <=? 0 then (Ok [], f') else
  match f_xfer f (f_calls f) avail with
  | Some k => (Ok (zslice (f_bytes f) offset (offset + k)), f')
  | None => (Err io_error, f')
  end.

(** A write past the end of the file extends it, zero-filled up to [offset]. *)
Definition file_put (bytes : list byte) (offset : Z) (data : list byte) : list byte :=
  let padded := bytes ++ replicate (Z.to_nat (offset + zlen data - zlen bytes)) Byte.x00 in
  zsplice padded offset data.

Definition file_write_at (f : File) (offset : Z) (data : list byte) : result Z * File :=
  if zlen data <=? 0 then (Ok 0, mkFile (f_bytes f) (S (f_calls f)) (f_xfer f)) else
  match f_xfer f (f_calls f) (zlen data) with
  | Some k => (Ok k, mkFile (file_put (f_bytes f) offset (zslice data 0 k)) (S (f_calls f)) (f_xfer f))
  | None => (Err io_error, mkFile (f_bytes f) (S (f_calls f)) (f_xfer f))
  end.

(** [read_exact_at]: [filled] bytes of the buffer are read; the result is the
    buffer. The fuel bounds the iterations of the [while] loop. *)
Fixpoint read_exact_loop (fuel : nat) (offset len : Z) (buf : list byte) : ST File StorageError (list byte) :=
  match fuel with
  | O => spanic
  | S fuel' =>
      if zlen buf <? len then
        let* pos := slift (add_u64 offset (zlen buf)) in
        let* bytes := (fun f => file_read_at f pos (len - zlen buf)) in
        if zlen bytes =? 0 then sfail (UnexpectedEof len (zlen buf))
        else read_exact_loop fuel' offset len (buf ++ bytes)
      else sret buf
  end.

Definition read_exact_at (offset len : Z) : ST File StorageError (list byte) :=
  read_exact_loop (S (Z.to_nat len)) offset len [].

(** [write_all_at]: [written] bytes of [data] are on the file. *)
Fixpoint write_all_loop (fuel : nat) (offset : Z) (data : list byte) (written : Z) : ST File StorageError unit :=
  match fuel with
  | O => spanic
  | S fuel' =>
      if written <? zlen data then
        let* pos := slift (add_u64 offset written) in
        let* rest := slift (slice data written (zlen data)) in
        let* n := (fun f => file_write_at f pos rest) in
        if n =? 0 then sfail (ShortWrite (zlen data) written)
        else write_all_loop fuel' offset data (written + n)
      else sret tt
  end.

Definition write_all_at (offset : Z) (data : list byte) : ST File StorageError unit :=
  write_all_loop (S (length data)) offset data 0.

(** ** [FileStorage] *)

Record FileStorage := mkFS { fs_file : File; fs_size : Z; fs_read_only : bool }.

Definition fs_call {A} (m : ST File StorageError A) : ST FileStorage StorageError A := fun s =>
  match m (fs_file s) with (r, f) => (r, mkFS f (fs_size s) (fs_read_only s)) end.

Definition fs_block_to_offset (block : Z) : result Z := mul_u64 block BLOCK_SIZE.
Definition fs_size_blocks (s : FileStorage) : Z := fs_size s / BLOCK_SIZE.

Definition fs_validate_write (block : Z) (data : list byte) (s : FileStorage) : result unit :=
  if fs_read_only s then Err ReadOnly else validate_block_write (fs_size_blocks s) block data.

Definition fs_read_bytes (offset len : Z) : ST FileStorage StorageError (list byte) :=
  fs_call (read_exact_at offset len).

Definition fs_write_bytes (offset : Z) (data : list byte) : ST FileStorage StorageError unit :=
  let* s := sget in
  if fs_read_only s then sfail ReadOnly else fs_call (write_all_at offset data).

Definition fs_read_block (block : Z) : ST FileStorage StorageError (list byte) :=
  let* offset := slift (fs_block_to_offset block) in
  fs_read_bytes offset BLOCK_SIZE.

Definition fs_write_block (block : Z) (data : list byte) : ST FileStorage StorageError unit :=
  let* s := sget in
  let* _ := slift (fs_validate_write block data s) in
  let* offset := slift (fs_block_to_offset block) in
  fs_write_bytes offset data.

Definition fs_read_blocks (block count : Z) : ST FileStorage StorageError (list byte) :=
  let* total := slift (mul_u64 count BLOCK_SIZE) in
  let* offset := slift (fs_block_to_offset block) in
  fs_read_bytes offset total.

Definition fs_write_blocks (block : Z) (data : list byte) : ST FileStorage StorageError unit :=
  let* s := sget in
  if fs_read_only s then sfail ReadOnly else
  let* _ := slift (validate_block_range (fs_size_blocks s) block data) in
  let* offset := slift (fs_block_to_offset block) in
  fs_write_bytes offset data.

(** * The interface to the rest of the program *)

(** Block [b] of the bytes [c] of a device. *)
Definition block_at (c : list byte) (b : Z) : list byte :=
  zslice c (b * BLOCK_SIZE) (b * BLOCK_SIZE + BLOCK_SIZE).

(** [c'] is [c] up to the bytes of the range [[off, off + len)]. *)
Definition same_outside (off len : Z) (c c' : list byte) : Prop :=
  zlen c' = zlen c /\
  forall i, ~ (off <= Z.of_nat i < off + len) -> c' !! i = c !! i.

(** A device: its bytes, and what its calls do to them. A read that succeeds
    returns bytes of the device ([read_bytes] a prefix of what was asked for);
    a write that succeeds replaces exactly its range; a write that fails
    changes nothing outside its range; flushes change nothing. *)
Class StorageSpec (D : Type) `{SD : Storage D} := {
  st_wf : D -> Prop;
  contents : D -> list byte;
  st_bound d : st_wf d -> zlen (contents d) < 2 ^ 64;
  st_size d : st_wf d -> size_blocks d = zlen (contents d) / BLOCK_SIZE;
  st_read_block b d : st_wf d -> 0 <= b ->
    st_wf (read_block b d).2 /\ contents (read_block b d).2 = contents d /\
    forall data, (read_block b d).1 = Ok data ->
      b * BLOCK_SIZE + BLOCK_SIZE <= zlen (contents d) /\ data = block_at (contents d) b;
  st_read_bytes off len d : st_wf d -> 0 <= off -> 0 <= len ->
    st_wf (read_bytes off len d).2 /\ contents (read_bytes off len d).2 = contents d /\
    forall data, (read_bytes off len d).1 = Ok data ->
      off + len <= zlen (contents d) /\ data `prefix_of` zslice (contents d) off (off + len);
  st_write_block b data d : st_wf d -> 0 <= b ->
    st_wf (write_block b data d).2 /\
    same_outside (b * BLOCK_SIZE) (zlen data) (contents d) (contents (write_block b data d).2) /\
    ((write_block b data d).1 = Ok tt ->
      b * BLOCK_SIZE + zlen data <= zlen (contents d) /\
      contents (write_block b data d).2 = zsplice (contents d) (b * BLOCK_SIZE) data);
  st_write_bytes off data d : st_wf d -> 0 <= off ->
    st_wf (write_bytes off data d).2 /\
    same_outside off (zlen data) (contents d) (contents (write_bytes off data d).2) /\
    ((write_bytes off data d).1 = Ok tt ->
      off + zlen data <= zlen (contents d) /\
      contents (write_bytes off data d).2 = zsplice (contents d) off data);
  st_sync d : st_wf d -> st_wf (sync d).2 /\ contents (sync d).2 = contents d;
  st_flush_data d : st_wf d -> st_wf (flush_data d).2 /\ contents (flush_data d).2 = contents d;
  st_flush_metadata d :
    st_wf d -> st_wf (flush_metadata d).2 /\ contents (flush_metadata d).2 = contents d;
}.

(** A device whose in-range calls succeed. *)
Class StorageReliable (D : Type) `{SS : StorageSpec D} : Prop := {
  st_read_block_ok b d : st_wf d -> 0 <= b -> b * BLOCK_SIZE + BLOCK_SIZE <= zlen (contents d) ->
    (read_block b d).1 = Ok (block_at (contents d) b);
  st_read_bytes_ok off len d : st_wf d -> 0 <= off -> 0 <= len -> off + len <= zlen (contents d) ->
    (read_bytes off len d).1 = Ok (zslice (contents d) off (off + len));
  st_write_block_ok b data d : st_wf d -> 0 <= b -> zlen data = BLOCK_SIZE ->
    b * BLOCK_SIZE + BLOCK_SIZE <= zlen (contents d) -> (write_block b data d).1 = Ok tt;
  st_write_bytes_ok off data d : st_wf d -> 0 <= off -> off + zlen data <= zlen (contents d) ->
    (write_bytes off data d).1 = Ok tt;
  st_sync_ok d : st_wf d -> (sync d).1 = Ok tt;
  st_flush_data_ok d : st_wf d -> (flush_data d).1 = Ok tt;
  st_flush_metadata_ok d : st_wf d -> (flush_metadata d).1 = Ok tt;
}.

Lemma same_outside_refl off len c : same_outside off len c c.
Proof. done. Qed.

Lemma same_outside_zsplice off (data c : list byte) :
  0 <= off -> off + zlen data <= zlen c -> same_outside off (zlen data) c (zsplice c off data).
Proof.
  intros Ho Hl. split; [by apply zlen_zsplice|].
  intros i Hi. rewrite lookup_zsplice by done. by rewrite decide_False.
Qed.

Lemma same_outside_zslice off len (c c' : list byte) a b :
  same_outside off len c c' -> 0 <= a -> b <= off \/ off + len <= a -> zslice c' a b = zslice c a b.
Proof.
  intros [_ Hs] Ha Hd. apply list_eq. intros i. rewrite !lookup_zslice by done.
  case_decide; [|done]. apply Hs. lia.
Qed.

Lemma same_outside_sub a n off len (c c' : list byte) :
  same_outside a n c c' -> off <= a -> a + n <= off + len -> same_outside off len c c'.
Proof. intros [Hz Hs] H1 H2. split; [done|]. intros i Hi. apply Hs. lia. Qed.

Lemma same_outside_trans off len (c1 c2 c3 : list byte) :
  same_outside off len c1 c2 -> same_outside off len c2 c3 -> same_outside off len c1 c3.
Proof. intros [Hz Hs] [Hz' Hs']. split; [congruence|]. intros i Hi. rewrite Hs', Hs by done. done. Qed.

Lemma same_outside_byte off len (c c' : list byte) i :
  same_outside off len c c' -> 0 <= i -> ~ (off <= i < off + len) -> c' !!! Z.to_nat i = c !!! Z.to_nat i.
Proof. intros [_ Hs] Hi Hn. rewrite !list_lookup_total_alt. rewrite Hs by lia. done. Qed.

#[export] Hint Resolve same_outside_refl same_outside_zsplice : jfs.

(** ** The implementations keep the interface *)

(** Reduce the projections of an instance and of pairs, and nothing else. *)
Ltac st_simpl :=
  cbn [read_block write_block read_blocks write_blocks sync size_blocks read_bytes write_bytes
       flush_data flush_metadata memory_storage fst snd ms_data ms_size].

Definition mem_wf (s : MemoryStorage) : Prop := zlen (ms_data s) = ms_size s /\ ms_size s < 2 ^ 64.

Lemma mem_read_bytes_spec off len s :
  mem_wf s -> 0 <= off -> 0 <= len ->
  mem_read_bytes off len s =
  (if off + len <=? ms_size s then Ok (zslice (ms_data s) off (off + len))
   else if off + len <? 2 ^ 64 then Err (Other "read beyond end of storage: {} > {}") else Panic, s).
Proof.
  intros [Hl Hs] Ho Hn. unfold mem_read_bytes, add_u64. f_equal.
  destruct (Z.ltb_spec (off + len) (2 ^ 64)); cbn [obind].
  - destruct (Z.ltb_spec (ms_size s) (off + len)), (Z.leb_spec (off + len) (ms_size s)); try lia; [done|].
    rewrite slice_ok by lia. done.
  - destruct (Z.leb_spec (off + len) (ms_size s)); [lia|done].
Qed.

Lemma mem_write_bytes_spec off data s :
  mem_wf s -> 0 <= off ->
  mem_write_bytes off data s =
  if off + zlen data <=? ms_size s then (Ok tt, mkMem (zsplice (ms_data s) off data) (ms_size s))
  else (if off + zlen data <? 2 ^ 64 then Err (Other "write beyond end of storage: {} > {}") else Panic, s).
Proof.
  intros [Hl Hs] Ho. unfold mem_write_bytes, add_u64.
  destruct (Z.ltb_spec (off + zlen data) (2 ^ 64)); cbn [obind].
  - destruct (Z.ltb_spec (ms_size s) (off + zlen data)), (Z.leb_spec (off + zlen data) (ms_size s));
      try lia; [done|]. rewrite splice_ok by lia. done.
  - destruct (Z.leb_spec (off + zlen data) (ms_size s)); [lia|done].
Qed.

Lemma mem_wf_write off data s :
  mem_wf s -> 0 <= off -> off + zlen data <= ms_size s ->
  mem_wf (mkMem (zsplice (ms_data s) off data) (ms_size s)).
Proof. intros [Hl Hs] Ho Hd. split; simpl; [|done]. by rewrite zlen_zsplice by lia. Qed.

Lemma mem_block_offset b :
  (mem_block_to_offset b = Ok (b * BLOCK_SIZE) /\ b * BLOCK_SIZE < 2 ^ 64) \/
  (mem_block_to_offset b = Panic /\ 2 ^ 64 <= b * BLOCK_SIZE).
Proof.
  unfold mem_block_to_offset, mul_u64. destruct (Z.ltb_spec (b * BLOCK_SIZE) (2 ^ 64)); auto.
Qed.

#[export] Program Instance memory_spec : StorageSpec MemoryStorage :=
  {| st_wf := mem_wf; contents := ms_data |}.
Next Obligation. intros d [-> H]. done. Qed.
Next Obligation. intros d [H _]. st_simpl. unfold mem_size_blocks. by rewrite H. Qed.
Next Obligation.
  intros b d Hd Hb. st_simpl. unfold mem_read_block, sbind, slift.
  destruct (mem_block_offset b) as [[-> Ho]|[-> Ho]]; st_simpl; [|done].
  rewrite mem_read_bytes_spec by (done || (unfold BLOCK_SIZE, PSIZE in *; lia)).
  destruct Hd as [Hl Hs].
  destruct (Z.leb_spec (b * BLOCK_SIZE + BLOCK_SIZE) (ms_size d)) as [Hle|Hle]; st_simpl.
  - split_and!; [done|done|]. intros data [= <-]. split; [lia|done].
  - split_and!; [done|done|]. by case_match.
Qed.
Next Obligation.
  intros off len d Hd Ho Hn. st_simpl. rewrite mem_read_bytes_spec by done. destruct Hd as [Hl Hs].
  destruct (Z.leb_spec (off + len) (ms_size d)) as [Hle|Hle]; st_simpl.
  - split_and!; [done|done|]. intros data [= <-]. split; [lia|done].
  - split_and!; [done|done|]. by case_match.
Qed.
Next Obligation.
  intros b data d Hd Hb. st_simpl. unfold mem_write_block, sbind, slift.
  destruct (mem_block_offset b) as [[-> Ho]|[-> Ho]]; st_simpl; [|split_and!; [done|apply same_outside_refl|done]].
  assert (0 <= b * BLOCK_SIZE) by (unfold BLOCK_SIZE, PSIZE; lia).
  rewrite mem_write_bytes_spec by done.
  destruct (Z.leb_spec (b * BLOCK_SIZE + zlen data) (ms_size d)) as [Hle|Hle]; st_simpl.
  - split_and!; [by apply mem_wf_write| |].
    + apply same_outside_zsplice; [done|]. by destruct Hd as [-> _].
    + intros _. split; [|done]. by destruct Hd as [-> _].
  - split_and!; [done|apply same_outside_refl|]. by case_match.
Qed.
Next Obligation.
  intros off data d Hd Ho. st_simpl. rewrite mem_write_bytes_spec by done.
  destruct (Z.leb_spec (off + zlen data) (ms_size d)) as [Hle|Hle]; st_simpl.
  - split_and!; [by apply mem_wf_write| |].
    + apply same_outside_zsplice; [done|]. by destruct Hd as [-> _].
    + intros _. split; [|done]. by destruct Hd as [-> _].
  - split_and!; [done|apply same_outside_refl|]. by case_match.
Qed.
Next Obligation. done. Qed.
Next Obligation. done. Qed.
Next Obligation. done. Qed.

#[export] Instance memory_reliable : StorageReliable MemoryStorage.
Proof.
  split; st_simpl; cbn [contents st_wf memory_spec].
  - intros b d Hd Hb Hr. unfold mem_read_block, sbind, slift. destruct (Hd) as [Hl Hs].
    destruct (mem_block_offset b) as [[-> Ho]|[-> Ho]]; [|unfold BLOCK_SIZE, PSIZE in *; lia].
    rewrite mem_read_bytes_spec by (done || (unfold BLOCK_SIZE, PSIZE in *; lia)).
    destruct (Z.leb_spec (b * BLOCK_SIZE + BLOCK_SIZE) (ms_size d)); [done|lia].
  - intros off len d Hd Ho Hn Hr. rewrite mem_read_bytes_spec by done. destruct Hd as [Hl Hs].
    destruct (Z.leb_spec (off + len) (ms_size d)); [done|lia].
  - intros b data d Hd Hb Hlen Hr. unfold mem_write_block, sbind, slift. destruct (Hd) as [Hl Hs].
    destruct (mem_block_offset b) as [[-> Ho]|[-> Ho]]; [|unfold BLOCK_SIZE, PSIZE in *; lia].
    rewrite mem_write_bytes_spec by (done || (unfold BLOCK_SIZE, PSIZE in *; lia)).
    destruct (Z.leb_spec (b * BLOCK_SIZE + zlen data) (ms_size d)); [done|lia].
  - intros off data d Hd Ho Hr. rewrite mem_write_bytes_spec by done. destruct Hd as [Hl Hs].
    destruct (Z.leb_spec (off + zlen data) (ms_size d)); [done|lia].
  - done.
  - done.
  - done.
Qed.

#[export] Program Instance read_only_spec {D} `{SS : StorageSpec D} : StorageSpec (ReadOnlyStorage D) :=
  {| st_wf s := st_wf (ro_inner s); contents s := contents (ro_inner s) |}.
Next Obligation. intros D SD SS d Hd. by apply st_bound. Qed.
Next Obligation. intros D SD SS d Hd. simpl. by apply st_size. Qed.
Next Obligation.
  intros D SD SS b d Hd Hb. simpl. unfold ro_call.
  pose proof (st_read_block b (ro_inner d) Hd Hb) as H. by destruct (read_block b (ro_inner d)).
Qed.
Next Obligation.
  intros D SD SS off len d Hd Ho Hl. simpl. unfold ro_call.
  pose proof (st_read_bytes off len (ro_inner d) Hd Ho Hl) as H. by destruct (read_bytes off len (ro_inner d)).
Qed.
Next Obligation. intros D SD SS b data d Hd Hb. split_and!; [done|apply same_outside_refl|done]. Qed.
Next Obligation. intros D SD SS off data d Hd Hb. split_and!; [done|apply same_outside_refl|done]. Qed.
Next Obligation. done. Qed.
Next Obligation. done. Qed.
Next Obligation. done. Qed.

Section fault_injector_spec.
Context {D : Type} `{SS : StorageSpec D}.
Implicit Types s : FaultInjector D.

Lemma fi_count_read_inner s : fi_inner (fi_count_read s).2 = fi_inner s.
Proof. unfold fi_count_read. repeat case_match; done. Qed.
Lemma fi_count_write_inner s : fi_inner (fi_count_write s).2 = fi_inner s.
Proof. unfold fi_count_write. repeat case_match; done. Qed.
Lemma fi_call_inner {A} (m : ST D StorageError A) s :
  fi_inner (fi_call m s).2 = (m (fi_inner s)).2 /\ (fi_call m s).1 = (m (fi_inner s)).1.
Proof. unfold fi_call. by destruct (m (fi_inner s)). Qed.

(** A read through the injector: counted, forwarded, and then checked by [k],
    which does not touch the device. *)
Lemma fi_read_shape (m : ST D StorageError (list byte)) (k : list byte -> ST (FaultInjector D) StorageError (list byte)) s :
  (forall data s, (k data s).2 = s) ->
  let r := (let* _ := fi_count_read in let* data := fi_call m in k data) s in
  (fi_inner r.2 = fi_inner s /\ ~ is_ok r.1) \/
  (fi_inner r.2 = (m (fi_inner s)).2 /\
   forall data, r.1 = Ok data -> exists data0 s0, (m (fi_inner s)).1 = Ok data0 /\ (k data0 s0).1 = Ok data).
Proof.
  intros Hk. cbn zeta. unfold sbind.
  pose proof (fi_count_read_inner s) as Hi.
  destruct (fi_count_read s) as [[[]| |] s1]; simpl in *; [|left; naive_solver..].
  right. destruct (fi_call_inner m s1) as [Hc1 Hc2]. rewrite Hi in *.
  destruct (fi_call m s1) as [[data0| |] s2]; simpl in *; try naive_solver.
  rewrite Hk. split; [done|]. intros data Hd. exists data0, s2. by rewrite <- Hc2.
Qed.

(** A write through the injector: rejected with the device untouched, or forwarded. *)
Lemma fi_write_shape (m : ST D StorageError unit) data s :
  let r := (let* _ := fi_count_write in let* _ := fi_check_short_write data in fi_call m) s in
  (fi_inner r.2 = fi_inner s /\ ~ is_ok r.1) \/
  (fi_inner r.2 = (m (fi_inner s)).2 /\ r.1 = (m (fi_inner s)).1).
Proof.
  cbn zeta. unfold sbind.
  pose proof (fi_count_write_inner s) as Hi.
  destruct (fi_count_write s) as [[[]| |] s1]; simpl in *; [|left; naive_solver..].
  unfold fi_check_short_write, sbind, sget. destruct (fi_short_write s1); simpl.
  - left. naive_solver.
  - right. rewrite <- Hi. apply fi_call_inner.
Qed.

Lemma fi_sync_shape s :
  (fi_inner (fi_sync s).2 = fi_inner s /\ ~ is_ok (fi_sync s).1) \/
  (fi_inner (fi_sync s).2 = (sync (fi_inner s)).2 /\ (fi_sync s).1 = (sync (fi_inner s)).1).
Proof.
  unfold fi_sync. case_match; [|left; naive_solver..].
  case_match; [left; naive_solver|]. case_match; [left; naive_solver|].
  right. unfold fi_call. simpl. by destruct (sync (fi_inner s)).
Qed.

#[export] Program Instance fault_injector_spec : StorageSpec (FaultInjector D) :=
  {| st_wf s := st_wf (fi_inner s); contents s := contents (fi_inner s) |}.
Next Obligation. intros d Hd. by apply st_bound. Qed.
Next Obligation. intros d Hd. simpl. by apply st_size. Qed.
Next Obligation.
  intros b s Hd Hb. simpl. unfold fi_read_block.
  destruct (fi_read_shape (read_block b) (fi_check_short_read BLOCK_SIZE) s) as [[-> Hn]|[-> Hok]].
  { intros data s'. unfold fi_check_short_read, sbind, sget. by destruct (fi_short_read s'). }
  { split_and!; [done|done|]. intros data Hdata. rewrite Hdata in Hn. naive_solver. }
  destruct (st_read_block b (fi_inner s) Hd Hb) as (H1 & H2 & H3). split_and!; [done|done|].
  intros data (data0 & s0 & Hm & Hk)%Hok. apply H3. rewrite Hm. f_equal.
  unfold fi_check_short_read, sbind, sget in Hk. destruct (fi_short_read s0); naive_solver.
Qed.
Next Obligation.
  intros off len s Hd Ho Hl. simpl. unfold fi_read_bytes.
  edestruct (fi_read_shape (read_bytes off len)) as [[-> Hn]|[-> Hok]].
  { intros data s'. unfold sbind, sget. by destruct (fi_short_read s'). }
  { split_and!; [done|done|]. intros data Hdata. rewrite Hdata in Hn. naive_solver. }
  destruct (st_read_bytes off len (fi_inner s) Hd Ho Hl) as (H1 & H2 & H3). split_and!; [done|done|].
  intros data (data0 & s0 & Hm & Hk)%Hok. destruct (H3 _ Hm) as [Hr Hp]. split; [done|].
  unfold sbind, sget, slift in Hk. destruct (fi_short_read s0); simpl in Hk; [|naive_solver].
  unfold slice in Hk. destruct (_ && _) in Hk; [|done]. injection Hk as <-.
  trans data0; [|done]. unfold zslice. rewrite drop_0. apply prefix_take.
Qed.
Next Obligation.
  intros b data s Hd Hb. simpl. unfold fi_write_block.
  destruct (fi_write_shape (write_block b data) data s) as [[-> Hn]|[-> ->]].
  - split_and!; [done|apply same_outside_refl|]. intros Hok. rewrite Hok in Hn. naive_solver.
  - by apply st_write_block.
Qed.
Next Obligation.
  intros off data s Hd Hb. simpl. unfold fi_write_bytes.
  destruct (fi_write_shape (write_bytes off data) data s) as [[-> Hn]|[-> ->]].
  - split_and!; [done|apply same_outside_refl|]. intros Hok. rewrite Hok in Hn. naive_solver.
  - by apply st_write_bytes.
Qed.
Next Obligation.
  intros s Hd. simpl. destruct (fi_sync_shape s) as [[-> Hn]|[-> _]]; [done|]. by apply st_sync.
Qed.
Next Obligation.
  intros s Hd. simpl. destruct (fi_sync_shape s) as [[-> Hn]|[-> _]]; [done|]. by apply st_sync.
Qed.
Next Obligation.
  intros s Hd. simpl. destruct (fi_sync_shape s) as [[-> Hn]|[-> _]]; [done|]. by apply st_sync.
Qed.
End fault_injector_spec.

(** * Properties *)

(** ** Short transfers *)

Lemma file_read_at_spec f off len :
  xfer_spec f -> 0 <= off -> 0 < len ->
  let r := file_read_at f off len in
  f_bytes r.2 = f_bytes f /\ f_xfer r.2 = f_xfer f /\
  match r.1 with
  | Ok [] => zlen (f_bytes f) <= off
  | Ok bytes => 0 < zlen bytes <= len /\ off + zlen bytes <= zlen (f_bytes f) /\
                bytes = zslice (f_bytes f) off (off + zlen bytes)
  | Err e => e = io_error /\ exists n avail, f_xfer f n avail = None
  | Panic => False
  end.
Proof.
  intros Hx Ho Hl. unfold file_read_at. cbn zeta.
  destruct (Z.leb_spec (Z.min len (zlen (f_bytes f) - off)) 0) as [Ha|Ha]; simpl; [split_and!; [done..|lia]|].
  destruct (f_xfer f (f_calls f) _) as [k|] eqn:Ek; simpl; [|naive_solver].
  apply Hx in Ek; [|done]. split_and!; [done..|].
  assert (zlen (zslice (f_bytes f) off (off + k)) = k) as Hk by (rewrite zlen_zslice; lia).
  destruct (zslice _ _ _) eqn:Ez; [zl|]. rewrite Hk. split_and!; [lia..|done].
Qed.

Lemma read_exact_loop_spec fuel f off len buf :
  xfer_spec f -> 0 <= off -> off + len < 2 ^ 64 -> zlen buf <= len -> len - zlen buf < Z.of_nat fuel ->
  buf = zslice (f_bytes f) off (off + zlen buf) -> (zlen buf = 0 \/ off + zlen buf <= zlen (f_bytes f)) ->
  let r := read_exact_loop fuel off len buf f in
  f_bytes r.2 = f_bytes f /\
  match r.1 with
  | Ok b => (len = 0 \/ off + len <= zlen (f_bytes f)) /\ b = zslice (f_bytes f) off (off + len)
  | Err (UnexpectedEof req act) =>
      req = len /\ zlen (f_bytes f) < off + len /\ act = Z.max 0 (zlen (f_bytes f) - off)
  | Err e => e = io_error /\ exists n avail, f_xfer f n avail = None
  | Panic => False
  end.
Proof.
  revert f buf. induction fuel as [|fuel IH]; intros f buf Hx Ho Hb Hbl Hfuel Hbuf Hin; [lia|].
  cbn [read_exact_loop]. destruct (Z.ltb_spec (zlen buf) len) as [Hlt|Hge].
  2:{ simpl. split; [done|]. replace (zlen buf) with len in * by lia. auto. }
  unfold slift, sbind. rewrite add_u64_ok by lia. cbn [fst snd].
  pose proof (zlen_nonneg buf).
  pose proof (file_read_at_spec f (off + zlen buf) (len - zlen buf) Hx ltac:(lia) ltac:(lia)) as Hr.
  destruct (file_read_at f _ _) as [[bytes|e|] f1]; simpl in Hr; destruct Hr as (Hf1 & Hx1 & Hr);
    [|simpl; split; [done|]; destruct Hr as [-> ?]; done|done].
  destruct (Z.eqb_spec (zlen bytes) 0) as [Hz|Hz].
  - destruct bytes; [|zl; pose proof (zlen_nonneg bytes); lia].
    simpl. split_and!; [done|done|lia|]. lia.
  - destruct bytes as [|x bytes]; [done|]. destruct Hr as (Hn & Hend & Heq).
    set (bs := x :: bytes) in *. rewrite <- Hf1 in *.
    specialize (IH f1 (buf ++ bs)). rewrite zlen_app in IH. rewrite Hx1 in IH.
    apply IH; try done; try lia.
    + unfold xfer_spec. by rewrite Hx1.
    + rewrite Hbuf at 1. rewrite Heq at 1. rewrite zslice_cat by lia. f_equal. lia.
Qed.

(** [read_exact_at] reads exactly the requested bytes however the kernel
    splits the transfer: it returns the bytes of the range when the file holds
    them, [UnexpectedEof] with the number of bytes that exist when it does not,
    an I/O error only if the kernel reports one; it always terminates and leaves
    the file as it was. *)
Theorem read_exact_at_correct f off len :
  xfer_spec f -> 0 <= off -> 0 <= len -> off + len < 2 ^ 64 ->
  let r := read_exact_at off len f in
  f_bytes r.2 = f_bytes f /\
  match r.1 with
  | Ok b => (len = 0 \/ off + len <= zlen (f_bytes f)) /\ b = zslice (f_bytes f) off (off + len)
  | Err (UnexpectedEof req act) =>
      req = len /\ zlen (f_bytes f) < off + len /\ act = Z.max 0 (zlen (f_bytes f) - off)
  | Err e => e = io_error /\ exists n avail, f_xfer f n avail = None
  | Panic => False
  end.
Proof.
  intros Hx Ho Hl Hb. apply read_exact_loop_spec; rewrite ?zlen_nil; try done; try lia; auto.
  unfold zslice. by replace (off + 0 - off) with 0 by lia.
Qed.

Lemma read_exact_at_correct_witness :
  let f := mkFile (bof <$> [10; 11; 12; 13; 14]) 0 (fun _ _ => Some 1) in
  f_bytes (read_exact_at 1 3 f).2 = f_bytes f /\
  (read_exact_at 1 3 f).1 = Ok (zslice (f_bytes f) 1 4).
Proof.
  intros f. destruct (read_exact_at_correct f 1 3) as [Hf Hr];
    [intros n a k Ha [= <-]; lia|lia|lia|lia|].
  split; [exact Hf|].
  change (read_exact_at 1 3 f).1 with (@Ok StorageError _ (bof <$> [11; 12; 13])) in Hr |- *.
  destruct Hr as [_ ->]. reflexivity.
Defined.

(** [file_put] of two consecutive pieces. *)
Lemma lookup_file_put (bytes data : list byte) off i :
  0 <= off -> 0 < zlen data ->
  file_put bytes off data !! i =
  if decide (off <= Z.of_nat i < off + zlen data) then data !! (i - Z.to_nat off)%nat
  else if decide (Z.of_nat i < zlen bytes) then bytes !! i
  else if decide (Z.of_nat i < off) then Some Byte.x00 else None.
Proof.
  intros Ho Hd. unfold file_put.
  set (p := replicate (Z.to_nat (off + zlen data - zlen bytes)) Byte.x00).
  pose proof (zlen_nonneg bytes).
  assert (zlen p = Z.max 0 (off + zlen data - zlen bytes)) as Hp.
  { unfold p. rewrite zlen_replicate. lia. }
  rewrite lookup_zsplice by (rewrite ?zlen_app; lia).
  case_decide; [done|]. case_decide.
  - apply lookup_app_l. unfold zlen in *. lia.
  - rewrite lookup_app_r by (unfold zlen in *; lia). unfold p in *.
    case_decide.
    + apply lookup_replicate_2. unfold zlen in *. lia.
    + apply lookup_ge_None_2. rewrite length_replicate. unfold zlen in *. lia.
Qed.

Lemma zlen_file_put (bytes data : list byte) off :
  0 <= off -> zlen (file_put bytes off data) = Z.max (zlen bytes) (off + zlen data).
Proof.
  intros Ho. unfold file_put. pose proof (zlen_nonneg bytes). pose proof (zlen_nonneg data).
  rewrite zlen_zsplice; rewrite ?zlen_app, ?zlen_replicate; lia.
Qed.

Lemma file_put_app (bytes d1 d2 : list byte) off :
  0 <= off -> 0 < zlen d1 -> 0 < zlen d2 ->
  file_put (file_put bytes off d1) (off + zlen d1) d2 = file_put bytes off (d1 ++ d2).
Proof.
  intros Ho H1 H2. apply list_eq. intros i.
  rewrite !lookup_file_put by (rewrite ?zlen_app; lia).
  rewrite zlen_app, zlen_file_put by done.
  repeat case_decide; try lia; try done.
  - rewrite lookup_app_r by (unfold zlen in *; lia). f_equal. unfold zlen in *. lia.
  - by rewrite lookup_app_l by (unfold zlen in *; lia).
Qed.

(** The bytes of the file after the first [k] bytes of [data] are written. *)
Definition put_prefix (bytes data : list byte) (off k : Z) : list byte :=
  if k <=? 0 then bytes else file_put bytes off (zslice data 0 k).

Lemma write_all_loop_spec fuel f0 f off data k :
  xfer_spec f -> f_xfer f = f_xfer f0 -> 0 <= off -> off + zlen data < 2 ^ 64 -> 0 <= k <= zlen data ->
  zlen data - k < Z.of_nat fuel -> f_bytes f = put_prefix (f_bytes f0) data off k ->
  let r := write_all_loop fuel off data k f in
  match r.1 with
  | Ok _ => f_bytes r.2 = put_prefix (f_bytes f0) data off (zlen data)
  | Err e => e = io_error /\ (exists n avail, f_xfer f0 n avail = None) /\
      exists j, 0 <= j < zlen data /\ f_bytes r.2 = put_prefix (f_bytes f0) data off j
  | Panic => False
  end.
Proof.
  revert f k. induction fuel as [|fuel IH]; intros f k Hx Hx0 Ho Hb Hk Hfuel Hf; [lia|].
  cbn [write_all_loop]. destruct (Z.ltb_spec k (zlen data)) as [Hlt|Hge].
  2:{ simpl. by replace (zlen data) with k by lia. }
  unfold slift, sbind. rewrite add_u64_ok, slice_ok by lia. cbn [fst snd].
  unfold file_write_at. rewrite zlen_zslice by lia.
  destruct (Z.leb_spec (zlen data - k) 0) as [?|Hpos]; [lia|].
  destruct (f_xfer f (f_calls f) (zlen data - k)) as [n|] eqn:En; cbn [fst snd].
  2:{ split_and!; [done| |].
      - exists (f_calls f), (zlen data - k). by rewrite <- Hx0.
      - exists k. split; [lia|done]. }
  pose proof (Hx _ _ _ Hpos En) as Hn.
  destruct (Z.eqb_spec n 0); [lia|].
  apply IH; simpl; try done; try lia.
  rewrite Hf. rewrite zslice_zslice by lia. unfold put_prefix.
  destruct (Z.leb_spec k 0) as [Hk0|Hk0], (Z.leb_spec (k + n) 0); try lia.
  - replace k with 0 by lia. by rewrite !Z.add_0_r.
  - rewrite <- (zslice_cat data 0 k (k + n)) by lia.
    rewrite <- file_put_app by (rewrite ?zlen_zslice; lia).
    rewrite zlen_zslice by lia. by rewrite Z.sub_0_r, Z.add_0_r.
Qed.

(** [write_all_at] writes the whole buffer however the kernel splits the
    transfer; when it fails the kernel reported the error, and exactly a proper
    prefix of the buffer has reached the file. *)
Theorem write_all_at_correct f off data :
  xfer_spec f -> 0 <= off -> off + zlen data < 2 ^ 64 ->
  let r := write_all_at off data f in
  match r.1 with
  | Ok _ => f_bytes r.2 = put_prefix (f_bytes f) data off (zlen data)
  | Err e => e = io_error /\ (exists n avail, f_xfer f n avail = None) /\
      exists j, 0 <= j < zlen data /\ f_bytes r.2 = put_prefix (f_bytes f) data off j
  | Panic => False
  end.
Proof.
  intros Hx Ho Hb. pose proof (zlen_nonneg data).
  apply write_all_loop_spec; try done; try lia. unfold zlen. lia.
Qed.

Lemma write_all_at_correct_witness :
  let f := mkFile (bof <$> [10; 11; 12]) 0 (fun _ _ => Some 1) in
  f_bytes (write_all_at 2 (bof <$> [7; 8]) f).2 = put_prefix (f_bytes f) (bof <$> [7; 8]) 2 2.
Proof.
  intros f. pose proof (write_all_at_correct f 2 (bof <$> [7; 8])
    ltac:(intros n a k Ha [= <-]; lia) ltac:(lia) ltac:(reflexivity)) as H.
  change (write_all_at 2 (bof <$> [7; 8]) f).1 with (@Ok StorageError unit tt) in H. exact H.
Defined.

(** ** Validation *)

(** [validate_block_range] accepts a write exactly when the buffer is a
    positive number of whole blocks and the whole range lies on the device; in
    particular it never accepts a range that wraps around u64. *)
Theorem validate_block_range_correct size block data :
  0 <= block -> size < 2 ^ 64 ->
  validate_block_range size block data = Ok tt <->
  exists count, 0 < count /\ zlen data = count * BLOCK_SIZE /\ block + count <= size.
Proof.
  intros Hb Hs. unfold validate_block_range.
  pose proof (zlen_nonneg data) as Hd. unfold BLOCK_SIZE, PSIZE in *.
  destruct (Z.eqb_spec (zlen data mod 4096) 0) as [Hm|Hm]; simpl.
  2:{ split; [done|]. intros (c & _ & Hc & _). rewrite Hc, Z.mod_mul in Hm; lia. }
  assert (zlen data = zlen data / 4096 * 4096) as Hq by (pose proof (Z.div_mod (zlen data) 4096); lia).
  set (c := zlen data / 4096) in *. clearbody c.
  split.
  - destruct (Z.eqb_spec c 0); [done|]. destruct (Z.ltb_spec (block + c) (2 ^ 64)); simpl; [|done].
    destruct (Z.leb_spec size block); [done|]. destruct (Z.ltb_spec size (block + c)); [done|].
    intros _. exists c. lia.
  - intros (c' & Hc' & Hl & Hr). assert (c' = c) as -> by lia.
    destruct (Z.eqb_spec c 0); [lia|]. destruct (Z.ltb_spec (block + c) (2 ^ 64)); simpl; [|lia].
    destruct (Z.leb_spec size block); [lia|]. destruct (Z.ltb_spec size (block + c)); [lia|done].
Qed.

Lemma validate_block_range_correct_witness :
  validate_block_range 3 2 (replicate 4096 Byte.x01) = Ok tt.
Proof.
  apply (validate_block_range_correct 3 2 (replicate 4096 Byte.x01)); [lia|lia|].
  exists 1. rewrite zlen_replicate. done.
Defined.

(** ** [MemoryStorage] *)

Lemma block_at_zsplice (c data : list byte) b b' :
  0 <= b -> 0 <= b' -> zlen data = BLOCK_SIZE -> b * BLOCK_SIZE + BLOCK_SIZE <= zlen c ->
  block_at (zsplice c (b * BLOCK_SIZE) data) b' = if decide (b = b') then data else block_at c b'.
Proof.
  intros Hb Hb' Hd Hr. unfold block_at, BLOCK_SIZE, PSIZE in *. case_decide as Heq.
  - subst b'. apply zslice_zsplice_same; lia.
  - apply zslice_zsplice_disjoint; lia.
Qed.

(** The last of the writes [l] of whole blocks to block [b]. *)
Fixpoint last_write (b : Z) (l : list (Z * list byte)) : option (list byte) :=
  match l with
  | [] => None
  | (b0, d) :: l' =>
      match last_write b l' with
      | Some x => Some x
      | None => if b0 =? b then Some d else None
      end
  end.

Lemma last_write_None b l : b ∉ l.*1 -> last_write b l = None.
Proof.
  induction l as [|[b0 d] l IH]; cbn [last_write fmap list_fmap]; [done|].
  rewrite not_elem_of_cons. cbn [fst]. intros [Hb Hl]. rewrite IH by done.
  destruct (Z.eqb_spec b0 b); [congruence|done].
Qed.

Lemma last_write_Some b l d :
  (b, d) ∈ l -> (forall d', (b, d') ∈ l -> d' = d) -> last_write b l = Some d.
Proof.
  induction l as [|[b0 d0] l IH]; cbn [last_write]; [by rewrite elem_of_nil|].
  rewrite elem_of_cons. intros Hin Hu.
  destruct (decide (b ∈ l.*1)) as [Hl|Hl].
  - apply list_elem_of_fmap in Hl as ([b1 d1] & -> & Hin1). cbn [fst] in *.
    assert (d1 = d) as -> by (apply Hu; by right).
    rewrite IH; [done|done|]. intros d' Hd'. apply Hu. by right.
  - rewrite last_write_None by done. destruct Hin as [[= -> ->]|Hin].
    + by rewrite Z.eqb_refl.
    + exfalso. apply Hl. apply list_elem_of_fmap. by exists (b, d).
Qed.

Section write_loop.
Context {D : Type} `{SR : StorageReliable D} {A : Type}.
Variables (blk : A -> Z) (dat : A -> list byte).

(** A loop of in-range block writes succeeds; afterwards each block holds the
    last write to it, or what it held before. *)
Lemma write_loop_ok (l : list A) body d :
  (forall x s, x ∈ l -> body x s = write_block (blk x) (dat x) s) ->
  st_wf d ->
  (forall x, x ∈ l -> 0 <= blk x /\ zlen (dat x) = BLOCK_SIZE /\
     blk x * BLOCK_SIZE + BLOCK_SIZE <= zlen (contents d)) ->
  exists d', sfor l body d = (Ok tt, d') /\ st_wf d' /\ zlen (contents d') = zlen (contents d) /\
  forall b, 0 <= b ->
    block_at (contents d') b = default (block_at (contents d) b) (last_write b ((fun x => (blk x, dat x)) <$> l)).
Proof.
  revert d. induction l as [|x l IH]; intros d Hb Hd Hl; cbn [sfor].
  { exists d. split_and!; done. }
  destruct (Hl x) as (H0 & Hlen & Hr); [apply list_elem_of_here|].
  pose proof (st_write_block_ok (blk x) (dat x) d Hd H0 Hlen Hr) as Hok.
  destruct (st_write_block (blk x) (dat x) d Hd H0) as (Hd1 & [Hz _] & Hc).
  destruct (Hc Hok) as [_ Hc1].
  destruct (IH (write_block (blk x) (dat x) d).2) as (d' & Hrun & Hd' & Hz' & Hfin).
  { intros y s Hy. apply Hb. by right. } { done. }
  { intros y Hy. rewrite Hz. apply Hl. by right. }
  exists d'. split_and!; [|done|congruence|].
  - unfold sbind. rewrite Hb by apply list_elem_of_here.
    destruct (write_block (blk x) (dat x) d) as [o d1]. simpl in Hok, Hrun. by subst o.
  - intros b Hb0. rewrite Hfin, Hc1, block_at_zsplice by done.
    cbn [fmap list_fmap last_write].
    destruct (last_write b _); [done|]. cbn [default].
    destruct (Z.eqb_spec (blk x) b); case_decide; done.
Qed.
End write_loop.

(** On [MemoryStorage] a block that was written is read back, every other
    block is unchanged, and both calls succeed for blocks of the device. *)
Theorem memory_read_after_write s b b' data :
  mem_wf s -> 0 <= b -> 0 <= b' -> zlen data = BLOCK_SIZE ->
  b * BLOCK_SIZE + BLOCK_SIZE <= ms_size s -> b' * BLOCK_SIZE + BLOCK_SIZE <= ms_size s ->
  (mem_write_block b data s).1 = Ok tt /\
  (mem_read_block b' (mem_write_block b data s).2).1 =
    if decide (b = b') then Ok data else (mem_read_block b' s).1.
Proof.
  intros Hs Hb Hb' Hd Hr Hr'. destruct (Hs) as [Hl _].
  pose proof (st_write_block_ok b data s Hs Hb Hd ltac:(simpl; lia)) as Hok.
  pose proof (st_write_block b data s Hs Hb) as (Hwf & _ & Hc). destruct (Hc Hok) as [_ Hcont].
  split; [exact Hok|].
  change (mem_write_block b data s) with (write_block b data s).
  change (mem_read_block b') with (read_block (D:=MemoryStorage) b').
  rewrite !st_read_block_ok by
    (done || (rewrite ?Hcont, ?zlen_zsplice; simpl; unfold BLOCK_SIZE, PSIZE in *; lia)).
  rewrite Hcont. rewrite block_at_zsplice by (done || (simpl; lia)). by case_decide.
Qed.

Lemma memory_read_after_write_witness :
  let s := mkMem (replicate 8192 Byte.x00) 8192 in
  (mem_write_block 1 (replicate 4096 Byte.x07) s).1 = Ok tt /\
  (mem_read_block 1 (mem_write_block 1 (replicate 4096 Byte.x07) s).2).1 = Ok (replicate 4096 Byte.x07).
Proof.
  intros s.
  exact (memory_read_after_write s 1 1 (replicate 4096 Byte.x07)
    (conj (zlen_replicate 8192 Byte.x00) eq_refl) ltac:(lia) ltac:(lia)
    (zlen_replicate 4096 Byte.x07) ltac:(done) ltac:(done)).
Defined.

(** ** [FaultInjector] *)

(** With a write limit [n > 0] every write call numbered [n] or later fails
    with [FaultInjection] and does not reach the wrapped device; an earlier call
    is forwarded unchanged unless short writes are enabled, and every call is
    counted. *)
Theorem fi_write_block_behaviour {D} `{Storage D} (s : FaultInjector D) b data :
  0 <= fi_write_count s < U64_MAX ->
  let r := fi_write_block b data s in
  let n := fi_write_count s + 1 in
  fi_write_count r.2 = n /\
  if bool_decide (fi_write_fail_at s <> 0 /\ fi_write_fail_at s <= n)
  then r.1 = Err FaultInjection /\ fi_inner r.2 = fi_inner s
  else if fi_short_write s
  then r.1 = Err (ShortWrite (zlen data) (Z.max (zlen data / 2) 1)) /\ fi_inner r.2 = fi_inner s
  else r.1 = (write_block b data (fi_inner s)).1 /\ fi_inner r.2 = (write_block b data (fi_inner s)).2.
Proof.
  intros Hc. unfold U64_MAX in Hc. cbn zeta. unfold fi_write_block, sbind, fi_count_write.
  rewrite add_u64_ok by lia. cbn [fi_short_write].
  case_bool_decide as Hf.
  - destruct (Z.leb_spec (fi_write_fail_at s) (fi_write_count s + 1)); [|lia].
    destruct (Z.eqb_spec (fi_write_fail_at s) 0); [lia|]. simpl.
    rewrite as_u64_small by lia. done.
  - destruct (_ && _) eqn:Hb.
    { exfalso. apply Hf. rewrite andb_true_iff, negb_true_iff in Hb. lia. }
    unfold fi_check_short_write, sbind, sget, fi_call. simpl.
    destruct (fi_short_write s); simpl.
    + by rewrite as_u64_small by lia.
    + destruct (write_block b data (fi_inner s)). simpl. by rewrite as_u64_small by lia.
Qed.

Lemma fi_write_block_behaviour_witness :
  let s := fi_set_write_fail 1 (fi_new (mkMem (replicate 4096 Byte.x00) 4096)) in
  fi_write_count (fi_write_block 0 [] s).2 = 1 /\
  (fi_write_block 0 [] s).1 = Err FaultInjection /\ fi_inner (fi_write_block 0 [] s).2 = fi_inner s.
Proof.
  intros s. exact (fi_write_block_behaviour s 0 [] ltac:(done)).
Defined.
