(* ===== verification/PageCache.v ===== *)
(** * Page cache and buffer pool ([src/src/storage/mod.rs])

    [PageCache] keeps pages in an LRU map of the crate [lru], which is not part
    of the repository: the map is the parameter [Lru], and [LruSpec] states what
    the crate documents, in terms of [iter()], which visits the entries from the
    most to the least recently used. [lru_list] is a concrete instance. *)

From S2P Require Import Prelude Types Storage.
From Stdlib Require Import ZArith Lia.

(** ** The crate [lru] *)

Class Lru (K V : Type) := {
  lru : Type;
  lru_new : Z -> lru;
  lru_get : K -> lru -> option V * lru;
  (** [get_mut]: the entry, if present, is promoted and updated in place. *)
  lru_get_mut : K -> (V -> V) -> lru -> option V * lru;
  lru_peek : K -> lru -> option V;
  lru_contains : K -> lru -> bool;
  lru_len : lru -> Z;
  lru_cap : lru -> Z;
  lru_peek_lru : lru -> option (K * V);
  lru_put : K -> V -> lru -> lru;
  lru_pop : K -> lru -> lru;
  lru_clear : lru -> lru;
  lru_iter : lru -> list (K * V);
}.

Section assoc.
Context {K V : Type} `{EqDecision K}.

(** The value of a key in a list of entries, and the entries of the other keys. *)
Fixpoint assoc (k : K) (l : list (K * V)) : option V :=
  match l with
  | [] => None
  | (k', v) :: l' => if decide (k = k') then Some v else assoc k l'
  end.

Fixpoint unassoc (k : K) (l : list (K * V)) : list (K * V) :=
  match l with
  | [] => []
  | (k', v) :: l' => if decide (k = k') then unassoc k l' else (k', v) :: unassoc k l'
  end.

(** The entries after a use of [k]. *)
Definition promote (k : K) (l : list (K * V)) : list (K * V) :=
  match assoc k l with Some v => (k, v) :: unassoc k l | None => l end.

(** The entries after an insertion: replacing a key needs no room, a new key
    drops the least recently used entry of a full map. *)
Definition lru_insert (cap : Z) (k : K) (v : V) (l : list (K * V)) : list (K * V) :=
  match assoc k l with
  | Some _ => (k, v) :: unassoc k l
  | None => (k, v) :: (if cap <=? zlen l then take (length l - 1) l else l)
  end.

Lemma assoc_unassoc k k' l : assoc k (unassoc k' l) = if decide (k = k') then None else assoc k l.
Proof.
  induction l as [|[k0 v0] l IH]; simpl; [by case_decide|].
  repeat (case_decide; simpl); congruence.
Qed.

Lemma assoc_promote k k' l : assoc k (promote k' l) = assoc k l.
Proof.
  unfold promote. destruct (assoc k' l) as [v|] eqn:E; [|done]. simpl. rewrite assoc_unassoc.
  case_decide; by simplify_eq.
Qed.

Lemma assoc_None k l : assoc k l = None <-> k ∉ l.*1.
Proof.
  induction l as [|[k0 v0] l IH]; simpl; [by split; [intros _; apply not_elem_of_nil|]|].
  rewrite not_elem_of_cons. case_decide; naive_solver.
Qed.

Lemma assoc_In k v l : NoDup l.*1 -> assoc k l = Some v <-> (k, v) ∈ l.
Proof.
  induction l as [|[k0 v0] l IH]; simpl; intros Hnd; [by rewrite elem_of_nil|].
  apply NoDup_cons in Hnd as [Hn Hnd]. rewrite elem_of_cons. case_decide as Hk; simplify_eq.
  - split; [intros; left; congruence|]. intros [[= ->]|Hin]; [done|].
    exfalso. apply Hn. apply list_elem_of_fmap. by exists (k0, v).
  - rewrite IH by done. naive_solver.
Qed.
End assoc.

(** What the crate documents. *)
Class LruSpec (K V : Type) `{EqDecision K} `{L : Lru K V} : Prop := {
  lru_iter_new n : lru_iter (lru_new n) = [];
  lru_cap_new n : 0 < n -> lru_cap (lru_new n) = n;
  lru_cap_pos c : 0 < lru_cap c;
  lru_nodup c : NoDup (lru_iter c).*1;
  lru_len_iter c : lru_len c = zlen (lru_iter c);
  lru_len_cap c : lru_len c <= lru_cap c;
  lru_get_value k c : (lru_get k c).1 = assoc k (lru_iter c);
  lru_get_iter k c : lru_iter (lru_get k c).2 = promote k (lru_iter c);
  lru_get_cap k c : lru_cap (lru_get k c).2 = lru_cap c;
  lru_get_mut_value k f c : (lru_get_mut k f c).1 = f <$> assoc k (lru_iter c);
  lru_get_mut_iter k f c : lru_iter (lru_get_mut k f c).2 =
    match assoc k (lru_iter c) with
    | Some v => (k, f v) :: unassoc k (lru_iter c)
    | None => lru_iter c
    end;
  lru_get_mut_cap k f c : lru_cap (lru_get_mut k f c).2 = lru_cap c;
  lru_peek_value k c : lru_peek k c = assoc k (lru_iter c);
  lru_contains_value k c : lru_contains k c = bool_decide (is_Some (assoc k (lru_iter c)));
  lru_peek_lru_value c : lru_peek_lru c = last (lru_iter c);
  lru_put_iter k v c : lru_iter (lru_put k v c) = lru_insert (lru_cap c) k v (lru_iter c);
  lru_put_cap k v c : lru_cap (lru_put k v c) = lru_cap c;
  lru_pop_iter k c : lru_iter (lru_pop k c) = unassoc k (lru_iter c);
  lru_pop_cap k c : lru_cap (lru_pop k c) = lru_cap c;
  lru_clear_iter c : lru_iter (lru_clear c) = [];
  lru_clear_cap c : lru_cap (lru_clear c) = lru_cap c;
}.

(** ** [CachedPage] *)

Record CachedPage := mkPage {
  cp_block : Z; cp_data : list byte; cp_dirty : bool; cp_inode : option Z;
  cp_index : Z; cp_pin_count : Z; cp_txid : Z }.

Definition cp_new (block : Z) (data : list byte) : CachedPage := mkPage block data false None 0 0 0.
Definition cp_mark_dirty (p : CachedPage) : CachedPage :=
  mkPage (cp_block p) (cp_data p) true (cp_inode p) (cp_index p) (cp_pin_count p) (cp_txid p).
Definition cp_mark_dirty_txn (txid : Z) (p : CachedPage) : CachedPage :=
  mkPage (cp_block p) (cp_data p) true (cp_inode p) (cp_index p) (cp_pin_count p) txid.
(** [saturating_add(1)] on u32. *)
Definition cp_pin (p : CachedPage) : CachedPage :=
  mkPage (cp_block p) (cp_data p) (cp_dirty p) (cp_inode p) (cp_index p)
    (Z.min (2 ^ 32 - 1) (cp_pin_count p + 1)) (cp_txid p).
(** [saturating_sub(1)]. *)
Definition cp_unpin (p : CachedPage) : CachedPage :=
  mkPage (cp_block p) (cp_data p) (cp_dirty p) (cp_inode p) (cp_index p)
    (saturating_sub (cp_pin_count p) 1) (cp_txid p).
Definition cp_is_pinned (p : CachedPage) : bool := 0 <? cp_pin_count p.
(** [p.dirty = false; p.txid = 0]. *)
Definition cp_clean (p : CachedPage) : CachedPage :=
  mkPage (cp_block p) (cp_data p) false (cp_inode p) (cp_index p) (cp_pin_count p) 0.

Section page_words.
Context {LE : LittleEndian}.
Definition cp_read_u32_le (p : CachedPage) (offset : Z) : result Z :=
  let! b := slice (cp_data p) offset (offset + 4) in Ok (read_u32 b).
Definition cp_write_u32_le (p : CachedPage) (offset val : Z) : result CachedPage :=
  let! d := splice (cp_data p) offset (write_u32 val) in
  Ok (mkPage (cp_block p) d true (cp_inode p) (cp_index p) (cp_pin_count p) (cp_txid p)).
Definition cp_read_u64_le (p : CachedPage) (offset : Z) : result Z :=
  let! b := slice (cp_data p) offset (offset + 8) in Ok (read_u64 b).
Definition cp_write_u64_le (p : CachedPage) (offset val : Z) : result CachedPage :=
  let! d := splice (cp_data p) offset (write_u64 val) in
  Ok (mkPage (cp_block p) d true (cp_inode p) (cp_index p) (cp_pin_count p) (cp_txid p)).
Definition cp_read_u16_le (p : CachedPage) (offset : Z) : result Z :=
  let! b := slice (cp_data p) offset (offset + 2) in Ok (read_u16 b).
Definition cp_write_u16_le (p : CachedPage) (offset val : Z) : result CachedPage :=
  let! d := splice (cp_data p) offset (write_u16 val) in
  Ok (mkPage (cp_block p) d true (cp_inode p) (cp_index p) (cp_pin_count p) (cp_txid p)).
End page_words.

(** ** [PageCache] *)

(** Keys are [(inode, block)]. *)
Abbreviation PageKey := (Z * Z)%type.

Section page_cache.
Context {L : Lru PageKey CachedPage}.

Record PageCache := mkCache { pc_capacity : Z; pc_cache : lru }.

Definition pc_new (capacity : Z) : PageCache := mkCache capacity (lru_new (Z.max capacity 1)).

Definition pc_with (c : PageCache) (m : lru) : PageCache := mkCache (pc_capacity c) m.

Definition pc_get (inode block : Z) (c : PageCache) : option CachedPage * PageCache :=
  let r := lru_get (inode, block) (pc_cache c) in (r.1, pc_with c r.2).

Definition pc_peek (inode block : Z) (c : PageCache) : option CachedPage :=
  lru_peek (inode, block) (pc_cache c).

Definition pc_peek_block (block : Z) (c : PageCache) : option CachedPage :=
  snd <$> List.find (fun e => e.1.2 =? block) (lru_iter (pc_cache c)).

(** A failed [storage.read_block] is [unwrap_or_default()]: an empty page. *)
Definition pc_get_or_load {D} `{Storage D} (inode block index : Z) (cd : PageCache * D)
  : result CachedPage * (PageCache * D) :=
  let (c, d) := cd in
  let key := (inode, block) in
  match lru_get key (pc_cache c) with
  | (Some page, m) => (Ok page, (pc_with c m, d))
  | (None, m) =>
      let found := List.find (fun e => (e.1.2 =? block) && negb (e.1.1 =? inode)) (lru_iter m) in
      let '(data, d') :=
        match found with
        | Some (_, p) => (Some (cp_data p), d)
        | None =>
            match read_block block d with
            | (Ok bytes, d') => (Some bytes, d')
            | (Err _, d') => (Some [], d')
            | (Panic, d') => (None, d')
            end
        end in
      match data with
      | None => (Panic, (pc_with c m, d'))
      | Some bytes =>
          let page := mkPage block bytes false (Some inode) index 0 0 in
          (Ok page, (pc_with c (lru_put key page m), d'))
      end
  end.

(** [get_mut_for_write], with the mutation [f] its caller makes through the reference. *)
Definition pc_get_mut_for_write (inode block : Z) (f : CachedPage -> CachedPage) (c : PageCache)
  : result CachedPage * PageCache :=
  match lru_get_mut (inode, block) (fun p => f (cp_pin p)) (pc_cache c) with
  | (Some p, m) => (Ok p, pc_with c m)
  | (None, m) => (Err PageNotFound, pc_with c m)
  end.

Definition pc_unpin_page (inode block : Z) (c : PageCache) : PageCache :=
  pc_with c (lru_get_mut (inode, block) cp_unpin (pc_cache c)).2.

(** The eviction guard shared by [put] and [put_block]. *)
Definition pc_victim_busy (key : PageKey) (c : PageCache) : bool :=
  if negb (lru_contains key (pc_cache c)) && (lru_cap (pc_cache c) <=? lru_len (pc_cache c)) then
    match lru_peek_lru (pc_cache c) with
    | Some (_, v) => cp_dirty v || (0 <? cp_pin_count v)
    | None => false
    end
  else false.

Definition cache_full : StorageError := Other "cache full: LRU victim is dirty or pinned".

Definition pc_put (inode : Z) (page : CachedPage) (c : PageCache) : result unit * PageCache :=
  let key := (inode, cp_block page) in
  if pc_victim_busy key c then (Err cache_full, c)
  else (Ok tt, pc_with c (lru_put key page (pc_cache c))).

Definition pc_put_block (block : Z) (page : CachedPage) (c : PageCache) : result unit * PageCache :=
  let key := (0, block) in
  if pc_victim_busy key c then (Err cache_full, c)
  else (Ok tt, pc_with c (lru_put key page (pc_cache c))).

Definition pc_mark_dirty (inode block : Z) (c : PageCache) : PageCache :=
  pc_with c (lru_get_mut (inode, block) cp_mark_dirty (pc_cache c)).2.

Definition pc_mark_dirty_txn (inode block txid : Z) (c : PageCache) : PageCache :=
  pc_with c (lru_get_mut (inode, block) (cp_mark_dirty_txn txid) (pc_cache c)).2.

(** The two passes of [flush_inode] and [flush_all]: write the pages collected
    from the cache, then clean the entries under the keys recomputed for them. *)
Definition pc_write_back {D} `{Storage D} (pages : list (Z * Z * list byte)) : ST (PageCache * D) StorageError unit :=
  fun cd =>
  match sfor pages (fun '(_, block, data) => write_block block data) cd.2 with
  | (Ok _, d) =>
      (Ok tt, (fold_left (fun c '(inode, block, _) =>
                 pc_with c (lru_get_mut (inode, block) cp_clean (pc_cache c)).2) pages cd.1, d))
  | (Err e, d) => (Err e, (cd.1, d))
  | (Panic, d) => (Panic, (cd.1, d))
  end.

Definition pc_flush_inode {D} `{Storage D} (inode : Z) : ST (PageCache * D) StorageError unit := fun cd =>
  let dirty :=
    List.filter (fun e : PageKey * CachedPage => cp_dirty e.2 && bool_decide (cp_inode e.2 = Some inode))
      (lru_iter (pc_cache cd.1)) in
  pc_write_back ((fun e : PageKey * CachedPage => (inode, cp_block e.2, cp_data e.2)) <$> dirty) cd.

Definition pc_flush_all {D} `{Storage D} : ST (PageCache * D) StorageError unit := fun cd =>
  let dirty := List.filter (fun e : PageKey * CachedPage => cp_dirty e.2) (lru_iter (pc_cache cd.1)) in
  pc_write_back ((fun e : PageKey * CachedPage => (default 0 (cp_inode e.2), cp_block e.2, cp_data e.2)) <$> dirty) cd.

Definition pc_release (inode block : Z) (c : PageCache) : PageCache :=
  pc_with c (lru_pop (inode, block) (pc_cache c)).

Definition pc_evict (inode : Z) (c : PageCache) : PageCache :=
  let keys := List.filter (fun k : PageKey => k.1 =? inode) (lru_iter (pc_cache c)).*1 in
  fold_left (fun c key => pc_with c (lru_pop key (pc_cache c))) keys c.

Definition pc_clear (c : PageCache) : PageCache := pc_with c (lru_clear (pc_cache c)).

Definition pc_has_dirty (c : PageCache) : bool := existsb (fun e => cp_dirty e.2) (lru_iter (pc_cache c)).
Definition pc_has_pinned (c : PageCache) : bool :=
  existsb (fun e => 0 <? cp_pin_count e.2) (lru_iter (pc_cache c)).

(** [ConsistencyChecker]: each check panics on a violation. *)
Definition check_idle (c : PageCache) : result unit :=
  if pc_has_dirty c then Panic else if pc_has_pinned c then Panic else Ok tt.
Definition check_in_transaction (c : PageCache) : result unit :=
  let violations := List.filter (fun e : PageKey * CachedPage => cp_dirty e.2 && (cp_pin_count e.2 =? 0))
    (lru_iter (pc_cache c)) in
  if zlen violations =? 0 then Ok tt else Panic.
Definition check_post_commit (c : PageCache) : result unit :=
  if pc_has_dirty c then Panic else if pc_has_pinned c then Panic else Ok tt.
End page_cache.

(** ** [BufferPool] *)

Record BufferPool := mkPool { bp_buffers : list (list byte); bp_free : list Z }.

Definition bp_new (size page_size : Z) : BufferPool :=
  mkPool (replicate (Z.to_nat size) (replicate (Z.to_nat page_size) Byte.x00)) (range 0 size).

(** [acquire]: [free.pop()] takes the last index. *)
Definition bp_acquire (p : BufferPool) : result (option Z) * BufferPool :=
  match last (bp_free p) with
  | None => (Ok None, p)
  | Some idx =>
      let p' := mkPool (bp_buffers p) (take (length (bp_free p) - 1) (bp_free p)) in
      if (0 <=? idx) && (idx <? zlen (bp_buffers p)) then (Ok (Some idx), p') else (Panic, p')
  end.

(** [release]: the buffer is zeroed and its index pushed. *)
Definition bp_release (idx : Z) (p : BufferPool) : result unit * BufferPool :=
  match @get StorageError _ (bp_buffers p) idx with
  | Ok b => (Ok tt, mkPool (<[Z.to_nat idx := replicate (length b) Byte.x00]> (bp_buffers p)) (bp_free p ++ [idx]))
  | _ => (Panic, p)
  end.

(** ** Block number conversions *)

(** Shifts of a u64; a shift by 64 or more panics. *)
Definition disk_to_fs_block (pbn l2bfactor : Z) : result Z :=
  if l2bfactor <? 64 then Ok (as_u64 (Z.shiftl pbn l2bfactor)) else Panic.
Definition fs_to_disk_block (fsb l2cfactor : Z) : result Z :=
  if l2cfactor <? 64 then Ok (Z.shiftr fsb l2cfactor) else Panic.

(** * A concrete LRU map *)

Section lru_list.
Context {K V : Type} `{EqDecision K}.

Lemma unassoc_subseteq k (l : list (K * V)) : (unassoc k l) `sublist_of` l.
Proof.
  induction l as [|[k0 v0] l IH]; simpl; [done|].
  case_decide; [by apply sublist_cons|by apply sublist_skip].
Qed.

Lemma nodup_keys_sublist (l k : list (K * V)) : l `sublist_of` k -> NoDup k.*1 -> NoDup l.*1.
Proof. intros Hs Hn. eapply sublist_NoDup; [exact Hn|]. by apply (fmap_sublist fst). Qed.

Lemma unassoc_keys k (l : list (K * V)) : k ∉ (unassoc k l).*1.
Proof. apply assoc_None. rewrite assoc_unassoc. by case_decide. Qed.

Lemma nodup_insert_front k (v : V) (l : list (K * V)) : NoDup l.*1 -> NoDup ((k, v) :: unassoc k l).*1.
Proof.
  intros Hn. simpl. apply NoDup_cons. split; [apply unassoc_keys|].
  eapply nodup_keys_sublist; [apply unassoc_subseteq|done].
Qed.

Lemma nodup_promote k (l : list (K * V)) : NoDup l.*1 -> NoDup (promote k l).*1.
Proof. intros Hn. unfold promote. case_match; [by apply nodup_insert_front|done]. Qed.

Lemma length_unassoc k (l : list (K * V)) v :
  assoc k l = Some v -> (S (length (unassoc k l)) <= length l)%nat.
Proof.
  induction l as [|[k0 v0] l IH]; simpl; [done|].
  case_decide; intros Ha.
  - pose proof (sublist_length _ _ (unassoc_subseteq k l)). lia.
  - simpl. apply IH in Ha. lia.
Qed.

Lemma nodup_lru_insert cap k (v : V) (l : list (K * V)) : NoDup l.*1 -> NoDup (lru_insert cap k v l).*1.
Proof.
  intros Hn. unfold lru_insert. destruct (assoc k l) eqn:E; [by apply nodup_insert_front|].
  apply assoc_None in E. simpl. apply NoDup_cons.
  assert ((if cap <=? zlen l then take (length l - 1) l else l) `sublist_of` l) as Hs
    by (case_match; [apply sublist_take|done]).
  split; [|by eapply nodup_keys_sublist].
  intros Hin. apply E. eapply elem_of_sublist; [done|]. by apply (fmap_sublist fst).
Qed.

Lemma zlen_lru_insert cap k (v : V) (l : list (K * V)) :
  0 < cap -> zlen l <= cap -> zlen (lru_insert cap k v l) <= cap.
Proof.
  intros Hc Hl. unfold lru_insert. destruct (assoc k l) eqn:E.
  - apply length_unassoc in E. rewrite zlen_cons. unfold zlen in *. lia.
  - rewrite zlen_cons. destruct (Z.leb_spec cap (zlen l)); [|lia].
    rewrite zlen_take. unfold zlen in *. lia.
Qed.

(** A map: its capacity and its entries, most recently used first. *)
Record lru_state := mkLru {
  ll_cap : Z; ll_entries : list (K * V);
  ll_ok : bool_decide (0 < ll_cap /\ NoDup ll_entries.*1 /\ zlen ll_entries <= ll_cap) = true }.

Definition ll_make (cap : Z) (l : list (K * V)) (old : lru_state) : lru_state :=
  match decide (bool_decide (0 < cap /\ NoDup l.*1 /\ zlen l <= cap) = true) with
  | left H => mkLru cap l H
  | right _ => old
  end.

Lemma ll_make_entries cap l old :
  0 < cap -> NoDup l.*1 -> zlen l <= cap ->
  ll_entries (ll_make cap l old) = l /\ ll_cap (ll_make cap l old) = cap.
Proof.
  intros. unfold ll_make. destruct (decide _) as [H2|H2]; [done|].
  exfalso. apply H2. by apply bool_decide_eq_true_2.
Qed.

Definition ll_one : lru_state := mkLru 1 [] eq_refl.

#[export] Instance lru_list : Lru K V := {|
  lru := lru_state;
  lru_new n := ll_make n [] ll_one;
  lru_get k c := (assoc k (ll_entries c), ll_make (ll_cap c) (promote k (ll_entries c)) c);
  lru_get_mut k f c :=
    (f <$> assoc k (ll_entries c),
     ll_make (ll_cap c)
       match assoc k (ll_entries c) with
       | Some v => (k, f v) :: unassoc k (ll_entries c)
       | None => ll_entries c
       end c);
  lru_peek k c := assoc k (ll_entries c);
  lru_contains k c := bool_decide (is_Some (assoc k (ll_entries c)));
  lru_len c := zlen (ll_entries c);
  lru_cap c := ll_cap c;
  lru_peek_lru c := last (ll_entries c);
  lru_put k v c := ll_make (ll_cap c) (lru_insert (ll_cap c) k v (ll_entries c)) c;
  lru_pop k c := ll_make (ll_cap c) (unassoc k (ll_entries c)) c;
  lru_clear c := ll_make (ll_cap c) [] c;
  lru_iter c := ll_entries c;
|}.

Lemma ll_inv c : 0 < ll_cap c /\ NoDup (ll_entries c).*1 /\ zlen (ll_entries c) <= ll_cap c.
Proof. destruct c as [cap l H]. exact (bool_decide_eq_true_1 _ H). Qed.

Lemma ll_get_mut_inv k (f : V -> V) c :
  let l := match assoc k (ll_entries c) with
           | Some v => (k, f v) :: unassoc k (ll_entries c)
           | None => ll_entries c
           end in NoDup l.*1 /\ zlen l <= ll_cap c.
Proof.
  destruct (ll_inv c) as (? & ? & ?). cbn zeta. destruct (assoc k _) eqn:E; [|done].
  split; [by apply nodup_insert_front|]. apply length_unassoc in E.
  rewrite zlen_cons. unfold zlen in *. lia.
Qed.

Lemma ll_promote_inv k c :
  NoDup (promote k (ll_entries c)).*1 /\ zlen (promote k (ll_entries c)) <= ll_cap c.
Proof.
  pose proof (ll_get_mut_inv k id c) as H. unfold promote. destruct (assoc _ _); done.
Qed.

Lemma ll_unassoc_inv k c :
  NoDup (unassoc k (ll_entries c)).*1 /\ zlen (unassoc k (ll_entries c)) <= ll_cap c.
Proof.
  destruct (ll_inv c) as (? & ? & ?).
  split; [eapply nodup_keys_sublist; [apply unassoc_subseteq|done]|].
  pose proof (sublist_length _ _ (unassoc_subseteq k (ll_entries c))). unfold zlen in *. lia.
Qed.

#[export] Instance lru_list_spec : LruSpec K V.
Proof.
  split; intros; simpl.
  - unfold ll_make. by destruct (decide _).
  - apply ll_make_entries; [done|constructor|]. rewrite zlen_nil. lia.
  - apply ll_inv.
  - apply ll_inv.
  - done.
  - apply ll_inv.
  - done.
  - apply ll_make_entries; [apply ll_inv|apply ll_promote_inv..].
  - apply ll_make_entries; [apply ll_inv|apply ll_promote_inv..].
  - done.
  - apply ll_make_entries; [apply ll_inv|apply ll_get_mut_inv..].
  - apply ll_make_entries; [apply ll_inv|apply ll_get_mut_inv..].
  - done.
  - done.
  - done.
  - apply ll_make_entries; [apply ll_inv|apply nodup_lru_insert, ll_inv|apply zlen_lru_insert; apply ll_inv].
  - apply ll_make_entries; [apply ll_inv|apply nodup_lru_insert, ll_inv|apply zlen_lru_insert; apply ll_inv].
  - apply ll_make_entries; [apply ll_inv|apply ll_unassoc_inv..].
  - apply ll_make_entries; [apply ll_inv|apply ll_unassoc_inv..].
  - apply ll_make_entries; [apply ll_inv|constructor|]. rewrite zlen_nil. pose proof (ll_inv c). lia.
  - apply ll_make_entries; [apply ll_inv|constructor|]. rewrite zlen_nil. pose proof (ll_inv c). lia.
Qed.
End lru_list.

(** * Properties *)

(** Entries and the values they give to keys. *)
Section assoc_facts.
Context {K V : Type} `{EqDecision K}.

Lemma assoc_lru_insert cap k (v : V) (l : list (K * V)) :
  assoc k (lru_insert cap k v l) = Some v.
Proof. unfold lru_insert. destruct (assoc k l); simpl; by rewrite decide_True. Qed.

Lemma assoc_app_ne k k0 (v0 : V) (l : list (K * V)) :
  k <> k0 -> assoc k (l ++ [(k0, v0)]) = assoc k l.
Proof.
  intros Hk. induction l as [|[k1 v1] l IH]; simpl; [by rewrite decide_False|].
  by rewrite IH.
Qed.

Lemma take_last (l : list (K * V)) x : last l = Some x -> l = take (length l - 1) l ++ [x].
Proof.
  intros [l' ->]%last_Some. rewrite length_app. simpl.
  replace (length l' + 1 - 1)%nat with (length l') by lia. by rewrite take_app_length.
Qed.

(** An insertion can only lose the least recently used entry of a full map. *)
Lemma assoc_lru_insert_ne cap k k' (v w : V) (l : list (K * V)) :
  k' <> k -> assoc k' l = Some w -> 0 < cap ->
  (cap <= zlen l -> assoc k l = None -> forall x, last l = Some x -> x.1 <> k') ->
  assoc k' (lru_insert cap k v l) = Some w.
Proof.
  intros Hk Hw Hcap Hv. unfold lru_insert. destruct (assoc k l) eqn:E.
  { simpl. rewrite decide_False, assoc_unassoc, decide_False; done. }
  simpl. rewrite decide_False by done.
  destruct (Z.leb_spec cap (zlen l)) as [Hc|Hc]; [|done].
  destruct (last l) as [[k0 v0]|] eqn:El.
  - pose proof (take_last l _ El) as Hl. rewrite Hl in Hw.
    rewrite assoc_app_ne in Hw; [done|]. intros ->. by eapply (Hv Hc eq_refl).
  - apply last_None in El. by subst l.
Qed.
End assoc_facts.

Section cache_properties.
Context {L : Lru PageKey CachedPage} {LS : LruSpec PageKey CachedPage}.

Lemma pc_peek_assoc i b c : pc_peek i b c = assoc (i, b) (lru_iter (pc_cache c)).
Proof. apply lru_peek_value. Qed.

Lemma pc_victim_idle key c k v :
  pc_victim_busy key c = false -> assoc key (lru_iter (pc_cache c)) = None ->
  lru_cap (pc_cache c) <= zlen (lru_iter (pc_cache c)) ->
  last (lru_iter (pc_cache c)) = Some (k, v) ->
  cp_dirty v || cp_is_pinned v = false.
Proof.
  unfold pc_victim_busy. rewrite lru_contains_value, lru_len_iter, lru_peek_lru_value.
  intros Hb Ha Hc Hl. rewrite Ha, Hl in Hb. rewrite bool_decide_eq_false_2 in Hb by (by intros []).
  destruct (Z.leb_spec (lru_cap (pc_cache c)) (zlen (lru_iter (pc_cache c)))); [done|lia].
Qed.

(** [PageCache::put] either fails with "cache full" and leaves the cache as
    it was, or stores the page under its key and keeps every dirty or pinned
    page of the other keys; it fails exactly when the key is new, the cache is
    full and the least recently used page is dirty or pinned. *)
Theorem pc_put_keeps_busy_pages (inode : Z) (page : CachedPage) (c : PageCache) :
  let r := pc_put inode page c in
  (r.1 = Err cache_full /\ r.2 = c /\ pc_peek inode (cp_block page) c = None /\
     lru_cap (pc_cache c) <= lru_len (pc_cache c) /\
     exists k v, lru_peek_lru (pc_cache c) = Some (k, v) /\ cp_dirty v || cp_is_pinned v = true)
  \/
  (r.1 = Ok tt /\ pc_peek inode (cp_block page) r.2 = Some page /\
     forall i b p, (i, b) <> (inode, cp_block page) -> pc_peek i b c = Some p ->
       cp_dirty p || cp_is_pinned p = true -> pc_peek i b r.2 = Some p).
Proof.
  cbn zeta. unfold pc_put. destruct (pc_victim_busy _ c) eqn:Hb.
  - left. unfold pc_victim_busy in Hb. rewrite pc_peek_assoc.
    rewrite lru_contains_value in Hb.
    destruct (assoc _ _) eqn:Ea; [by rewrite bool_decide_eq_true_2 in Hb|].
    destruct (Z.leb_spec (lru_cap (pc_cache c)) (lru_len (pc_cache c))); [|by rewrite andb_false_r in Hb].
    destruct (negb _); [simpl in Hb|done].
    destruct (lru_peek_lru (pc_cache c)) as [[k v]|]; [|done].
    split_and!; try done. by exists k, v.
  - right. cbn [fst snd pc_with pc_cache]. split_and!; [done| |].
    + rewrite pc_peek_assoc. cbn [pc_with pc_cache]. rewrite lru_put_iter. apply assoc_lru_insert.
    + intros i b p Hk Hp Hbusy. rewrite pc_peek_assoc in *. cbn [pc_with pc_cache]. rewrite lru_put_iter.
      apply assoc_lru_insert_ne; [done|done|apply lru_cap_pos|].
      intros Hc Hn [k v] Hl Heq. simpl in Heq. subst k.
      apply assoc_In in Hp; [|apply lru_nodup].
      assert (assoc (i, b) (lru_iter (pc_cache c)) = Some v) as Hv.
      { apply assoc_In; [apply lru_nodup|]. apply last_Some in Hl as [l' ->].
        apply elem_of_app. right. by apply list_elem_of_singleton. }
      apply assoc_In in Hp; [|apply lru_nodup]. simplify_eq.
      pose proof (pc_victim_idle _ _ _ _ Hb Hn Hc Hl). congruence.
Qed.

(** The data [get_or_load] gives to a page: the cached page, else the page of
    another inode for the same block, else the block of the device. *)
Definition cached_copy (inode block : Z) (c : PageCache) : option CachedPage :=
  snd <$> List.find (fun e : PageKey * CachedPage => (e.1.2 =? block) && negb (e.1.1 =? inode))
    (lru_iter (pc_cache c)).

(** On a device that answers, [get_or_load] returns the page cached under
    the key if there is one, otherwise a clean page with the data cached for the
    same block under another inode, otherwise with the block of the device; the
    page is cached afterwards, and the device is not changed. *)
Theorem pc_get_or_load_correct {D} `{SR : StorageReliable D} inode block index c (d : D) :
  st_wf d -> 0 <= block -> block * BLOCK_SIZE + BLOCK_SIZE <= zlen (contents d) ->
  let r := pc_get_or_load inode block index (c, d) in
  let page := match pc_peek inode block c with
              | Some p => p
              | None => mkPage block
                          match cached_copy inode block c with
                          | Some p => cp_data p
                          | None => block_at (contents d) block
                          end false (Some inode) index 0 0
              end in
  r.1 = Ok page /\ pc_peek inode block r.2.1 = Some page /\
  st_wf r.2.2 /\ contents r.2.2 = contents d.
Proof.
  intros Hd Hb Hr. cbn zeta. unfold pc_get_or_load, cached_copy. rewrite pc_peek_assoc.
  pose proof (lru_get_value (inode, block) (pc_cache c)) as Hv.
  pose proof (lru_get_iter (inode, block) (pc_cache c)) as Hi.
  destruct (lru_get (inode, block) (pc_cache c)) as [o m]. cbn [fst snd] in *. subst o.
  destruct (assoc (inode, block) (lru_iter (pc_cache c))) as [p|] eqn:Ea.
  { split_and!; [done| |done|done]. cbn [fst snd]. rewrite pc_peek_assoc. cbn [pc_with pc_cache].
    by rewrite Hi, assoc_promote. }
  assert (lru_iter m = lru_iter (pc_cache c)) as ->. { rewrite Hi. unfold promote. by rewrite Ea. }
  destruct (List.find _ _) as [[k p]|] eqn:Ef; cbn [fmap option_fmap option_map snd].
  - split_and!; [done| |done|done]. cbn [fst snd]. rewrite pc_peek_assoc. cbn [pc_with pc_cache].
    rewrite lru_put_iter. apply assoc_lru_insert.
  - pose proof (st_read_block_ok block d Hd Hb Hr) as Hok.
    destruct (st_read_block block d Hd Hb) as (Hd' & Hc & _).
    destruct (read_block block d) as [o d']. cbn [fst snd] in *. subst o.
    split_and!; [done| |done|done]. cbn [fst snd]. rewrite pc_peek_assoc. cbn [pc_with pc_cache].
    rewrite lru_put_iter. apply assoc_lru_insert.
Qed.

(** [get_or_load] does not look at the page its insertion pushes out: with
    a full cache and a new key, the least recently used page leaves the cache
    even when it is dirty, and the device does not receive its data. *)
Theorem pc_get_or_load_drops_dirty_victim {D} `{SS : StorageSpec D} inode block index c (d : D) vi vb v :
  st_wf d -> 0 <= block -> pc_peek inode block c = None ->
  lru_len (pc_cache c) = lru_cap (pc_cache c) ->
  lru_peek_lru (pc_cache c) = Some ((vi, vb), v) -> cp_dirty v = true ->
  (read_block block d).1 <> Panic ->
  let r := pc_get_or_load inode block index (c, d) in
  is_ok r.1 = true /\ pc_peek vi vb r.2.1 = None /\ contents r.2.2 = contents d.
Proof.
  intros Hd Hb Hn Hfull Hl Hv Hp. cbn zeta. rewrite pc_peek_assoc in Hn. unfold pc_get_or_load.
  rewrite lru_peek_lru_value in Hl. rewrite lru_len_iter in Hfull.
  pose proof (lru_get_value (inode, block) (pc_cache c)) as Hval.
  pose proof (lru_get_iter (inode, block) (pc_cache c)) as Hi.
  pose proof (lru_get_cap (inode, block) (pc_cache c)) as Hcap.
  destruct (lru_get (inode, block) (pc_cache c)) as [o m]. cbn [fst snd] in *. subst o. rewrite Hn.
  unfold promote in Hi. rewrite Hn in Hi.
  assert (forall page, assoc (vi, vb) (lru_iter (lru_put (inode, block) page m)) = None) as Hgone.
  { intros page. rewrite lru_put_iter, Hi, Hcap, <- Hfull. unfold lru_insert. rewrite Hn, Z.leb_refl.
    pose proof (take_last _ _ Hl) as Htl. pose proof (lru_nodup (pc_cache c)) as Hnd.
    apply assoc_None. rewrite Htl, fmap_app, NoDup_app in Hnd. destruct Hnd as (_ & Hdis & _).
    assert ((vi, vb) <> (inode, block)).
    { intros Heq. apply assoc_None in Hn. apply Hn. rewrite Htl, fmap_app, <- Heq.
      apply elem_of_app. right. by apply list_elem_of_singleton. }
    cbn [fmap list_fmap fst]. apply not_elem_of_cons. split; [done|].
    intros Hin. apply (Hdis _ Hin). by apply list_elem_of_singleton. }
  destruct (st_read_block block d Hd Hb) as (_ & Hc & _).
  destruct (List.find _ _) as [[k p]|]; cbn [fst snd].
  { rewrite pc_peek_assoc. cbn [pc_with pc_cache]. by rewrite Hgone. }
  destruct (read_block block d) as [[bytes|e|] d']; cbn [fst snd] in *; try done;
    rewrite pc_peek_assoc; cbn [pc_with pc_cache]; by rewrite Hgone.
Qed.

(** Every page is cached under the inode and block it records. *)
Definition well_keyed (c : PageCache) : Prop :=
  forall i b p, pc_peek i b c = Some p -> default 0 (cp_inode p) = i /\ cp_block p = b.

(** The cleaning pass of a flush. *)
Lemma clean_pass (keys : list (Z * Z * list byte)) c i b :
  pc_peek i b (fold_left (fun c '(inode, block, _) =>
    pc_with c (lru_get_mut (inode, block) cp_clean (pc_cache c)).2) keys c) =
  if decide ((i, b) ∈ keys.*1) then cp_clean <$> pc_peek i b c else pc_peek i b c.
Proof.
  revert c. induction keys as [|[[i0 b0] dt] keys IH]; intros c; cbn [fold_left fmap list_fmap fst].
  { rewrite decide_False by apply not_elem_of_nil. done. }
  rewrite IH. rewrite !pc_peek_assoc. cbn [pc_with pc_cache]. rewrite lru_get_mut_iter.
  assert (forall k l, assoc k (match assoc (i0, b0) l with
            | Some v => ((i0, b0), cp_clean v) :: unassoc (i0, b0) l | None => l end) =
          if decide (k = (i0, b0)) then cp_clean <$> assoc k l else assoc k l) as Hstep.
  { intros k l. destruct (decide (k = (i0, b0))) as [->|Hk]; destruct (assoc (i0, b0) l) eqn:E;
      cbn [assoc]; rewrite ?decide_True, ?E by done; try done.
    by rewrite decide_False, assoc_unassoc, decide_False. }
  rewrite Hstep. destruct (decide ((i, b) = (i0, b0))) as [[= -> ->]|Hne].
  - rewrite (decide_True (P := (i0, b0) ∈ (i0, b0) :: keys.*1)) by apply list_elem_of_here.
    case_decide; [|done]. by destruct (assoc _ _).
  - destruct (decide ((i, b) ∈ keys.*1)) as [Hin|Hin].
    + by rewrite decide_True by by right.
    + rewrite decide_False; [done|]. rewrite elem_of_cons. naive_solver.
Qed.

Lemma pc_entry_peek k p c : (k, p) ∈ lru_iter (pc_cache c) <-> pc_peek k.1 k.2 c = Some p.
Proof. rewrite pc_peek_assoc. destruct k. symmetry. apply assoc_In, lru_nodup. Qed.

Lemma pc_has_dirty_false c :
  (forall i b p, pc_peek i b c = Some p -> cp_dirty p = false) -> pc_has_dirty c = false.
Proof.
  intros H. unfold pc_has_dirty. apply not_true_is_false. rewrite existsb_exists.
  intros ([k p] & Hin & Hd). apply list_elem_of_In, pc_entry_peek in Hin. apply H in Hin. simpl in Hd. congruence.
Qed.

(** [flush_all] on a reliable device, for a cache whose pages are whole
    in-range blocks under their own keys and whose dirty pages of one block
    agree: it succeeds, every dirty page is on the device afterwards, the blocks
    without a dirty page are unchanged, and the pages stay cached with their
    data but clean. *)
Theorem pc_flush_all_correct {D} `{SR : StorageReliable D} c (d : D) :
  st_wf d -> well_keyed c ->
  (forall i b p, pc_peek i b c = Some p -> cp_dirty p = true ->
     0 <= b /\ zlen (cp_data p) = BLOCK_SIZE /\ b * BLOCK_SIZE + BLOCK_SIZE <= zlen (contents d)) ->
  (forall i i' b p p', pc_peek i b c = Some p -> pc_peek i' b c = Some p' ->
     cp_dirty p = true -> cp_dirty p' = true -> cp_data p = cp_data p') ->
  let r := pc_flush_all (c, d) in
  r.1 = Ok tt /\ pc_has_dirty r.2.1 = false /\ st_wf r.2.2 /\
  (forall i b p, pc_peek i b c = Some p -> cp_dirty p = true ->
     block_at (contents r.2.2) b = cp_data p) /\
  (forall b, 0 <= b -> (forall i p, pc_peek i b c = Some p -> cp_dirty p = false) ->
     block_at (contents r.2.2) b = block_at (contents d) b) /\
  (forall i b, pc_peek i b r.2.1 = (fun p => if cp_dirty p then cp_clean p else p) <$> pc_peek i b c).
Proof.
  intros Hd Hwk Hrange Hagree. cbn zeta. unfold pc_flush_all, pc_write_back. cbn [fst snd].
  set (dirty := List.filter _ _). set (pages := _ <$> dirty).
  assert (Hdirty : forall k p, (k, p) ∈ dirty <-> pc_peek k.1 k.2 c = Some p /\ cp_dirty p = true).
  { intros k p. unfold dirty. rewrite list_elem_of_In, filter_In, <- list_elem_of_In. by rewrite pc_entry_peek. }
  assert (Hpages : forall i b dt, (i, b, dt) ∈ pages <->
            exists p, pc_peek i b c = Some p /\ cp_dirty p = true /\ cp_data p = dt).
  { intros i b dt. unfold pages. rewrite list_elem_of_fmap. split.
    - intros ([[i' b'] p] & Heq & Hin). apply Hdirty in Hin as [Hp Hdp]. cbn [fst snd] in *.
      destruct (Hwk _ _ _ Hp) as [<- <-]. injection Heq as -> -> ->. by exists p.
    - intros (p & Hp & Hdp & <-). exists ((i, b), p). cbn [snd].
      destruct (Hwk _ _ _ Hp) as [<- <-]. split; [done|]. by apply Hdirty. }
  match goal with |- context [sfor pages ?body d] =>
    destruct (write_loop_ok (fun x => x.1.2) (fun x => x.2) pages body d) as (d' & -> & Hd' & Hz & Hfin)
  end.
  { by intros [[? ?] ?] s _. } { done. }
  { intros [[i b] dt] (p & Hp & Hdp & <-)%Hpages. cbn [fst snd]. by eapply Hrange. }
  cbn [fst snd].
  assert (Hpeek : forall i b, pc_peek i b (fold_left (fun c '(inode, block, _) =>
            pc_with c (lru_get_mut (inode, block) cp_clean (pc_cache c)).2) pages c) =
            (fun p => if cp_dirty p then cp_clean p else p) <$> pc_peek i b c).
  { intros i b. rewrite clean_pass. destruct (pc_peek i b c) as [p|] eqn:Hp; [|by case_decide].
    cbn [fmap option_fmap option_map]. destruct (cp_dirty p) eqn:Hdp.
    - rewrite decide_True; [done|]. apply list_elem_of_fmap. exists (i, b, cp_data p).
      split; [done|]. apply Hpages. by exists p.
    - rewrite decide_False; [done|]. intros ([[i' b'] dt] & [= <- <-] & (p' & ? & ? & ?)%Hpages)%list_elem_of_fmap.
      congruence. }
  split_and!; [done| |done| | |done].
  - apply pc_has_dirty_false. intros i b p. rewrite Hpeek.
    destruct (pc_peek i b c) as [q|]; [|done]. cbn [fmap option_fmap option_map].
    intros [= <-]. by destruct (cp_dirty q) eqn:E.
  - intros i b p Hp Hdp. destruct (Hrange _ _ _ Hp Hdp) as [Hb _]. rewrite Hfin by done.
    erewrite last_write_Some; [done| |].
    + apply list_elem_of_fmap. exists (i, b, cp_data p). split; [done|]. apply Hpages. by exists p.
    + intros dt ([[i' b'] dt'] & [= <- <-] & (p' & Hp' & Hdp' & <-)%Hpages)%list_elem_of_fmap. by eapply Hagree.
  - intros b Hb Hclean. rewrite Hfin by done. rewrite last_write_None; [done|].
    rewrite <- list_fmap_compose. intros ([[i' b'] dt'] & [= ->] & (p' & Hp' & Hdp' & _)%Hpages)%list_elem_of_fmap.
    cbn [fst snd] in *. apply Hclean in Hp'. congruence.
Qed.
End cache_properties.

(** * Witnesses *)

(** A cache of one page [p] of inode [i]. *)
Definition one_page (i : Z) (p : CachedPage) : PageCache := (pc_put i p (pc_new 1)).2.

(** A full cache whose only page is dirty refuses another page. *)
Lemma pc_put_keeps_busy_pages_witness :
  let c := one_page 1 (mkPage 0 [] true (Some 1) 0 0 0) in
  (pc_put 2 (cp_new 7 []) c).1 = Err cache_full /\ (pc_put 2 (cp_new 7 []) c).2 = c.
Proof.
  intros c. destruct (pc_put_keeps_busy_pages 2 (cp_new 7 []) c) as [(H1 & H2 & _)|(H1 & _)].
  - exact (conj H1 H2).
  - discriminate H1.
Defined.

Lemma pc_get_or_load_correct_witness :
  let d := mkMem (replicate 4096 Byte.x07) 4096 in
  (pc_get_or_load 5 0 9 (pc_new 2, d)).1 =
    Ok (mkPage 0 (block_at (replicate 4096 Byte.x07) 0) false (Some 5) 9 0 0).
Proof.
  intros d.
  exact (proj1 (pc_get_or_load_correct 5 0 9 (pc_new 2) d
    (conj (zlen_replicate 4096 Byte.x07) eq_refl) (Z.le_refl 0)
    (Z.eq_le_incl _ _ (eq_sym (zlen_replicate 4096 Byte.x07))))).
Defined.

Lemma pc_get_or_load_drops_dirty_victim_witness :
  let c := one_page 1 (mkPage 0 [Byte.x07] true (Some 1) 0 0 0) in
  let d := mkMem [] 0 in
  pc_peek 1 0 c <> None /\ pc_peek 1 0 (pc_get_or_load 2 1 0 (c, d)).2.1 = None.
Proof.
  intros c d. split; [done|].
  exact (proj1 (proj2 (pc_get_or_load_drops_dirty_victim 2 1 0 c d 1 0
    (mkPage 0 [Byte.x07] true (Some 1) 0 0 0)
    (conj eq_refl eq_refl) ltac:(lia) eq_refl eq_refl eq_refl eq_refl ltac:(done)))).
Defined.

Lemma one_page_peek i p i' b' q :
  pc_peek i' b' (one_page i p) = Some q -> i' = i /\ b' = cp_block p /\ q = p.
Proof.
  rewrite pc_peek_assoc. change (lru_iter (pc_cache (one_page i p))) with [((i, cp_block p), p)].
  cbn [assoc]. case_decide; naive_solver.
Qed.

Lemma pc_flush_all_correct_witness :
  let p := mkPage 0 (replicate 4096 Byte.x07) true (Some 1) 0 0 0 in
  let d := mkMem (replicate 4096 Byte.x00) 4096 in
  (pc_flush_all (one_page 1 p, d)).1 = Ok tt /\ pc_has_dirty (pc_flush_all (one_page 1 p, d)).2.1 = false.
Proof.
  intros p d.
  destruct (pc_flush_all_correct (one_page 1 p) d) as (H1 & H2 & _); [| | | |by split].
  - by split; [apply zlen_replicate|].
  - by intros i b q (-> & -> & ->)%one_page_peek.
  - intros i b q (-> & -> & ->)%one_page_peek _. cbn [cp_block cp_data p].
    rewrite zlen_replicate. cbn [contents memory_spec ms_data d]. by rewrite zlen_replicate.
  - by intros i i' b q q' (-> & -> & ->)%one_page_peek (-> & _ & ->)%one_page_peek.
Defined.
