(* ===== verification/Dmap.v ===== *)
(** * Block allocation map ([src/src/alloc/dmap.rs])

    [BlockAllocMap] keeps a free-block bitmap in memory, built from the dmap
    pages of the BMAP inode, and logs the extents allocated and freed since the
    last commit so that an abort can undo them. The storage the map shares is a
    component of its state. The iteration order of a [HashSet] is unspecified:
    it is the parameter [hash_order]. *)

From stdpp Require Import gmap.
From Stdlib Require Import ZArith Lia.
From S2P Require Import Prelude Types Storage.

Definition BLOCKS_PER_DMAP : Z := 8192.
Definition BMAP_INODE : Z := BMAP_I.

Record BlockAllocMap (D : Type) := mkBam {
  bam_storage : D;
  bam_mapsize : Z;
  bam_nfree : Z;
  bam_free_map : list bool;
  bam_ndmap : Z;
  bam_dmap_start : Z;
  bam_dmap_len : Z;
  bam_allocated : list (Z * Z);
  bam_freed : list (Z * Z);
  bam_dirty_pages : gset Z }.
Arguments mkBam {D}.
Arguments bam_storage {D}.
Arguments bam_mapsize {D}.
Arguments bam_nfree {D}.
Arguments bam_free_map {D}.
Arguments bam_ndmap {D}.
Arguments bam_dmap_start {D}.
Arguments bam_dmap_len {D}.
Arguments bam_allocated {D}.
Arguments bam_freed {D}.
Arguments bam_dirty_pages {D}.

(** ** Reading the map from the device *)

Section bmap_parse.
Context {LE : LittleEndian}.

Definition parse_pxd_addr (bytes : list byte) : Z :=
  let len_addr := read_u32 (zslice bytes 0 4) in
  let addr2 := read_u32 (zslice bytes 4 8) in
  Z.lor (Z.shiftl (Z.shiftr len_addr 24) 32) addr2.

Definition parse_pxd_len (bytes : list byte) : Z :=
  let len_addr := read_u32 (zslice bytes 0 4) in Z.land len_addr 0xFFFFFF.

(** The inner loop of [find_bmap_inode]: the inodes of one block. *)
Fixpoint bmap_scan_slots (data : list byte) (idxs : list Z) : option Z :=
  match idxs with
  | [] => None
  | i :: idxs' =>
      let off := i * DISIZE in
      if zlen data <? off + DISIZE then None
      else
        let fs := read_u32 (zslice data (off + 4) (off + 8)) in
        let num := read_u32 (zslice data (off + 8) (off + 12)) in
        if (fs =? 1) && (num =? BMAP_INODE) then Some off else bmap_scan_slots data idxs'
  end.

(** Its outer loop: the blocks of the aggregate inode table. *)
Fixpoint bmap_scan_blocks {D} `{Storage D} (ait_addr : Z) (offs : list Z) : ST D StorageError (Z * Z) :=
  match offs with
  | [] => sfail (Other "BMAP inode not found")
  | block_offset :: offs' => fun d =>
      let block_num := ait_addr + block_offset in
      if size_blocks d <=? block_num then bmap_scan_blocks ait_addr offs' d
      else
        (let* data := read_block block_num in
         match bmap_scan_slots data (range 0 INOSPERPAGE) with
         | Some off => sret (block_num, off)
         | None => bmap_scan_blocks ait_addr offs'
         end) d
  end.

Definition find_bmap_inode {D} `{Storage D} : ST D StorageError (Z * Z) :=
  let* sb_data := read_bytes SUPER1_OFF PSIZE in
  let* pxd := slift (slice sb_data 48 56) in
  let ait_addr := parse_pxd_addr pxd in
  let ait_len := parse_pxd_len pxd in
  bmap_scan_blocks ait_addr (range 0 (ait_len + 32)).

(** The extents of the xtroot, first to last. *)
Fixpoint bmap_first_extent (xt : list byte) (idxs : list Z) : option (Z * Z) :=
  match idxs with
  | [] => None
  | i :: idxs' =>
      let base := 32 + (i - 2) * 16 in
      if zlen xt <? base + 16 then None
      else
        let xad := zslice xt base (base + 16) in
        let loc_len_raw := read_u32 (zslice xad 8 12) in
        let length := Z.land loc_len_raw 0xFFFFFF in
        let addr_high := Z.land (Z.shiftr loc_len_raw 24) 0xFF in
        let addr2 := read_u32 (zslice xad 12 16) in
        let address := Z.lor (Z.shiftl addr_high 32) addr2 in
        if 0 <? length then Some (address, length) else bmap_first_extent xt idxs'
  end.

Definition parse_bmap_xtroot (dinode : list byte) : result (Z * Z) :=
  let xt_off := 128 + 96 in
  if zlen dinode <? xt_off + 32 then Err (Other "dinode too short for xtroot")
  else
    let xt := zslice dinode xt_off (zlen dinode) in
    let nextindex := read_u16 (zslice xt 18 20) in
    match bmap_first_extent xt (range 2 nextindex) with
    | Some e => Ok e
    | None =>
        let spxd_len := read_u32 (zslice xt 24 28) in
        let spxd_addr_high := Z.land (Z.shiftr spxd_len 24) 0xFF in
        let spxd_addr_low := read_u32 (zslice xt 28 32) in
        let s_len := Z.land spxd_len 0xFFFFFF in
        let s_addr := Z.lor (Z.shiftl spxd_addr_high 32) spxd_addr_low in
        if 0 <? s_len then Ok (s_addr, s_len)
        else Err (Other "no extents in bmap xtroot")
    end.

(** One word of a dmap page, bit by bit. *)
Definition parse_dmap_word (word base : Z) (free_map : list bool) : list bool :=
  fold_left (fun m bit =>
    let blk_idx := base + bit in
    if blk_idx <? zlen m
    then <[Z.to_nat blk_idx := negb (Z.land (Z.shiftr word bit) 1 =? 0)]> m else m)
    (range 0 32) free_map.

Fixpoint parse_dmap_words (page : list byte) (start_block : Z) (words : list Z) (free_map : list bool)
  : list bool :=
  match words with
  | [] => free_map
  | word_idx :: words' =>
      let off := 3072 + word_idx * 4 in
      if zlen page <? off + 4 then free_map
      else
        let word := read_u32 (zslice page off (off + 4)) in
        parse_dmap_words page start_block words' (parse_dmap_word word (start_block + word_idx * 32) free_map)
  end.

Definition parse_dmap_page (page : list byte) (start_block : Z) (free_map : list bool) : list bool :=
  parse_dmap_words page start_block (range 0 256) free_map.

(** The loop of [new] over the dmap pages. *)
Fixpoint bam_load_pages {D} `{Storage D} (dmap_start : Z) (idxs : list Z) (free_map : list bool)
  : ST D StorageError (list bool) :=
  match idxs with
  | [] => sret free_map
  | i :: idxs' => fun d =>
      let dmap_block := dmap_start + 1 + i in
      if size_blocks d <=? dmap_block then (Ok free_map, d)
      else
        (let* dmap_page := read_block dmap_block in
         bam_load_pages dmap_start idxs' (parse_dmap_page dmap_page (i * BLOCKS_PER_DMAP) free_map)) d
  end.

(** [vec![false; n]]: a capacity above [isize::MAX] panics. *)
Definition vec_false (n : Z) : result (list bool) :=
  if n <? 2 ^ 63 then Ok (replicate (Z.to_nat n) false) else Panic.

Definition bam_new {D} `{Storage D} : ST D StorageError (BlockAllocMap D) :=
  let* (page_block, page_offset) := find_bmap_inode in
  let* page_data := read_block page_block in
  let* dinode_bytes := slift (slice page_data page_offset (page_offset + DISIZE)) in
  let* (dmap_start, dmap_len) := slift (parse_bmap_xtroot dinode_bytes) in
  let* desc_block := read_block dmap_start in
  let* f0 := slift (slice desc_block 0 8) in
  let* f1 := slift (slice desc_block 8 16) in
  let mapsize := read_u64 f0 in
  let nfree := read_u64 f1 in
  let* l := slift (sub_u64 dmap_len 1) in
  let* bytes := slift (mul_u64 (Z.max l 0) BLOCK_SIZE) in
  let ndmap := Z.max (bytes / BLOCKS_PER_DMAP) 1 in
  let* free_map := slift (vec_false mapsize) in
  let* free_map := bam_load_pages dmap_start (range 0 ndmap) free_map in
  fun d => (Ok (mkBam d mapsize nfree free_map ndmap dmap_start dmap_len [] [] ∅), d).
End bmap_parse.

(** ** Allocation *)

Section bam_ops.
Context {D : Type}.
Abbreviation Bam := (BlockAllocMap D).

Definition num_ag (b : Bam) : Z := if 0 <? bam_mapsize b / 4 then 4 else 1.

Definition ag_for_block (block : Z) (b : Bam) : Z :=
  let ag_size := bam_mapsize b / Z.max (num_ag b) 1 in
  if 0 <? ag_size then as_u32 (block / ag_size) else 0.

(** The loops that mark the blocks of an extent: blocks outside the bitmap are
    skipped. *)
Definition mark_extent (start len : Z) (v : bool) (free_map : list bool) : list bool :=
  fold_left (fun m i => let blk := start + i in if blk <? zlen m then <[Z.to_nat blk := v]> m else m)
    (range 0 len) free_map.

Fixpoint free_run_loop (free_map : list bool) (nblocks : Z) (blks : list Z) (run_start run_len : Z)
  : result (option Z) :=
  match blks with
  | [] => Ok None
  | blk :: blks' =>
      let! free := get free_map blk in
      if free : bool then
        let run_start := if run_len =? 0 then blk else run_start in
        let run_len := run_len + 1 in
        if nblocks <=? run_len then Ok (Some run_start)
        else free_run_loop free_map nblocks blks' run_start run_len
      else free_run_loop free_map nblocks blks' run_start 0
  end.

Definition find_free_run (nblocks start : Z) (b : Bam) : result (option Z) :=
  free_run_loop (bam_free_map b) nblocks (range start (bam_mapsize b)) start 0.

(** The state after the marking of an extent. *)
Definition bam_update (b : Bam) (nfree : Z) (free_map : list bool) (allocated freed : list (Z * Z))
  (dirty : gset Z) : Bam :=
  mkBam (bam_storage b) (bam_mapsize b) nfree free_map (bam_ndmap b) (bam_dmap_start b) (bam_dmap_len b)
    allocated freed dirty.

Context {LE : LittleEndian}.

Definition alloc_extent (nblocks hint : Z) : ST Bam StorageError (option Pxd) := fun b =>
  if (nblocks =? 0) || (bam_mapsize b <? nblocks) then (Err (Other "invalid block count"), b)
  else
    match (let! start := find_free_run nblocks hint b in
           match start with
           | Some s => Ok s
           | None =>
               let! start := find_free_run nblocks 0 b in
               ok_or start (Other "no contiguous free blocks available")
           end) with
    | Err e => (Err e, b)
    | Panic => (Panic, b)
    | Ok start =>
        let pxd := pxd_set_length (pxd_set_address pxd_default start) (as_u32 nblocks) in
        (Ok (Some pxd),
         bam_update b (saturating_sub (bam_nfree b) nblocks)
           (mark_extent start nblocks false (bam_free_map b))
           (bam_allocated b ++ [(start, as_u32 nblocks)]) (bam_freed b)
           ({[1 + start / BLOCKS_PER_DMAP]} ∪ bam_dirty_pages b))
    end.

Definition free_extent (pxd : Pxd) : ST Bam StorageError unit := fun b =>
  let addr := pxd_address pxd in
  let len := pxd_length pxd in
  if bam_mapsize b <? addr + len then (Err (Other "extent exceeds aggregate size"), b)
  else
    let m := mark_extent addr len true (bam_free_map b) in
    match @add_u64 StorageError (bam_nfree b) len with
    | Ok nfree =>
        (Ok tt, bam_update b nfree m (bam_allocated b) (bam_freed b ++ [(addr, len)])
                  ({[1 + addr / BLOCKS_PER_DMAP]} ∪ bam_dirty_pages b))
    | _ => (Panic, bam_update b (bam_nfree b) m (bam_allocated b) (bam_freed b) (bam_dirty_pages b))
    end.

(** The two loops of [rollback]: [nfree] is adjusted after each extent. *)
Fixpoint rollback_loop (v : bool) (adjust : Z -> Z -> result Z) (l : list (Z * Z)) (nfree : Z) (m : list bool)
  : result (Z * list bool) :=
  match l with
  | [] => Ok (nfree, m)
  | (addr, len) :: l' =>
      let m := mark_extent addr len v m in
      let! nfree := adjust nfree len in
      rollback_loop v adjust l' nfree m
  end.

Definition bam_rollback (b : Bam) : result Bam :=
  let! (nfree, m) := rollback_loop true add_u64 (bam_allocated b) (bam_nfree b) (bam_free_map b) in
  let! (nfree, m) := rollback_loop false sub_u64 (bam_freed b) nfree m in
  Ok (bam_update b nfree m [] [] ∅).

(** ** Writing the map back *)

Context `{Storage D}.

(** A call on the shared device. *)
Definition bam_io {A} (io : ST D StorageError A) : ST Bam StorageError A := fun b =>
  let (r, d) := io (bam_storage b) in
  (r, mkBam d (bam_mapsize b) (bam_nfree b) (bam_free_map b) (bam_ndmap b) (bam_dmap_start b)
        (bam_dmap_len b) (bam_allocated b) (bam_freed b) (bam_dirty_pages b)).

Definition write_word_to_dmap (dmap_page word_idx value : Z) : ST Bam StorageError unit := fun b =>
  let block_num := bam_dmap_start b + dmap_page in
  (let* page := bam_io (read_block block_num) in
   let off := 2048 + word_idx * 4 in
   if off + 4 <=? zlen page
   then bam_io (write_block block_num (zsplice page off (write_u32 value)))
   else sret tt) b.

(** The word of the blocks [blk_offset .. blk_offset + 32). *)
Fixpoint dmap_word (free_map : list bool) (mapsize blk_offset : Z) (bits : list Z) (word : Z) : result Z :=
  match bits with
  | [] => Ok word
  | bit :: bits' =>
      let blk_idx := blk_offset + bit in
      let! free := if blk_idx <? mapsize then get free_map blk_idx else Ok false in
      dmap_word free_map mapsize blk_offset bits'
        (if free : bool then Z.lor word (Z.shiftl 1 bit) else word)
  end.

(** The working map of a page, overwritten from the bitmap. *)
Fixpoint serialize_words (free_map : list bool) (mapsize start_block : Z) (words : list Z) (page : list byte)
  : result (list byte) :=
  match words with
  | [] => Ok page
  | word_idx :: words' =>
      let blk_offset := start_block + word_idx * 32 in
      let! word := dmap_word free_map mapsize blk_offset (range 0 32) 0 in
      let off := 2048 + word_idx * 4 in
      serialize_words free_map mapsize start_block words'
        (if off + 4 <=? zlen page then zsplice page off (write_u32 word) else page)
  end.

(** One dirty page of [commit]. *)
Definition commit_page (dmap_page : Z) : ST Bam StorageError unit := fun b =>
  let block_num := bam_dmap_start b + dmap_page in
  if size_blocks (bam_storage b) <=? block_num then (Ok tt, b)
  else
    (let* page := bam_io (read_block block_num) in
     let* p := slift (sub_u64 dmap_page 1) in
     let start_block := p * BLOCKS_PER_DMAP in
     let* page := slift (serialize_words (bam_free_map b) (bam_mapsize b) start_block (range 0 256) page) in
     bam_io (write_block block_num page)) b.

Variable hash_order : gset Z -> list Z.

Definition bam_commit : ST Bam StorageError unit := fun b =>
  (let* _ := sfor (hash_order (bam_dirty_pages b)) commit_page in
   let* desc := bam_io (read_block (bam_dmap_start b)) in
   let* desc := slift (splice desc 8 (write_u64 (bam_nfree b))) in
   let* _ := bam_io (write_block (bam_dmap_start b) desc) in
   smod (fun b => bam_update b (bam_nfree b) (bam_free_map b) [] [] ∅)) b.
End bam_ops.

(** * Properties *)

(** ** The bitmap *)

(** The blocks [s .. s + n) are free. *)
Definition all_free (m : list bool) (s n : Z) : Prop :=
  forall i, s <= i < s + n -> m !! Z.to_nat i = Some true.

(** The number of free blocks. *)
Definition count_free (m : list bool) : Z := zlen (filter (fun b => b = true) m).

Lemma count_free_app m1 m2 : count_free (m1 ++ m2) = count_free m1 + count_free m2.
Proof. unfold count_free. by rewrite filter_app, zlen_app. Qed.

Lemma count_free_replicate n v : count_free (replicate n v) = if v : bool then Z.of_nat n else 0.
Proof.
  unfold count_free. induction n as [|n IH]; [by destruct v|].
  cbn [replicate]. rewrite filter_cons. destruct v; case_decide; try done.
  rewrite zlen_cons, IH. lia.
Qed.

Lemma mark_fold_lookup start v (idxs : list Z) (m : list bool) (i : nat) :
  (forall x, x ∈ idxs -> 0 <= start + x) ->
  fold_left (fun m i => let blk := start + i in if blk <? zlen m then <[Z.to_nat blk := v]> m else m) idxs m !! i =
  if decide (Z.of_nat i - start ∈ idxs) then (fun _ => v) <$> m !! i else m !! i.
Proof.
  revert m. induction idxs as [|x idxs IH]; intros m Hpos; cbn [fold_left].
  { by rewrite decide_False by apply not_elem_of_nil. }
  rewrite IH by (intros; apply Hpos; by right).
  specialize (Hpos x (list_elem_of_here _ _)). cbn zeta.
  assert (Hm : (if start + x <? zlen m then <[Z.to_nat (start + x):=v]> m else m) !! i =
          if decide (Z.of_nat i - start = x) then (fun _ => v) <$> m !! i else m !! i).
  { destruct (Z.ltb_spec (start + x) (zlen m)) as [Hlt|Hge]; destruct (decide (Z.of_nat i - start = x)) as [Hx|Hx].
    - assert (i = Z.to_nat (start + x)) as -> by lia.
      unfold zlen in Hlt. rewrite list_lookup_insert_eq by lia.
      destruct (lookup_lt_is_Some_2 m (Z.to_nat (start + x))) as [? ->]; [lia|done].
    - rewrite list_lookup_insert_ne by lia. done.
    - rewrite (lookup_ge_None_2 m i) by (unfold zlen in Hge; lia). done.
    - done. }
  rewrite Hm. destruct (decide (Z.of_nat i - start = x)) as [Hx|Hx];
    destruct (decide (Z.of_nat i - start ∈ idxs)) as [Hi|Hi];
    destruct (decide (Z.of_nat i - start ∈ x :: idxs)) as [Hc|Hc]; try done;
    try (by destruct (m !! i)); exfalso; rewrite elem_of_cons in Hc; naive_solver.
Qed.

Lemma lookup_mark_extent start len v m i :
  0 <= start ->
  mark_extent start len v m !! i =
  if decide (start <= Z.of_nat i < start + len) then (fun _ => v) <$> m !! i else m !! i.
Proof.
  intros Hs. unfold mark_extent. rewrite mark_fold_lookup.
  - repeat case_decide; try done; rewrite elem_of_range in *; lia.
  - intros x. rewrite elem_of_range. lia.
Qed.

Lemma length_mark_extent start len v m : 0 <= start -> length (mark_extent start len v m) = length m.
Proof.
  intros Hs. unfold mark_extent. generalize (range 0 len). intros l. revert m.
  induction l as [|x l IH]; intros m; cbn [fold_left]; [done|].
  rewrite IH. cbn zeta. case_match; [apply length_insert|done].
Qed.

Lemma mark_extent_zsplice start len v m :
  0 <= start -> 0 <= len -> start + len <= zlen m ->
  mark_extent start len v m = zsplice m start (replicate (Z.to_nat len) v).
Proof.
  intros Hs Hl Hr. apply list_eq. intros i. rewrite lookup_mark_extent by done.
  rewrite lookup_zsplice, zlen_replicate by (rewrite ?zlen_replicate; lia).
  destruct (decide (start <= Z.of_nat i < start + len)) as [Hi|Hi].
  - rewrite decide_True by lia. rewrite lookup_replicate_2 by lia.
    destruct (lookup_lt_is_Some_2 m i) as [? ->]; [unfold zlen in Hr; lia|done].
  - by rewrite decide_False by lia.
Qed.

Lemma uniform_slice (m : list bool) s n v :
  0 <= s -> 0 <= n -> (forall i, s <= i < s + n -> m !! Z.to_nat i = Some v) ->
  s + n <= zlen m -> zslice m s (s + n) = replicate (Z.to_nat n) v.
Proof.
  intros Hs Hn Hf Hr. apply list_eq. intros i. rewrite lookup_zslice by done. case_decide as Hi.
  - rewrite lookup_replicate_2 by lia. rewrite <- (Hf (s + Z.of_nat i)) by lia. f_equal. lia.
  - symmetry. apply lookup_ge_None_2. rewrite length_replicate. lia.
Qed.

(** Marking a uniform extent changes the number of free blocks by its length. *)
Lemma count_free_mark (m : list bool) s n (v w : bool) :
  0 <= s -> 0 <= n -> s + n <= zlen m ->
  (forall i, s <= i < s + n -> m !! Z.to_nat i = Some w) ->
  count_free (mark_extent s n v m) = count_free m + (if v then n else 0) - (if w then n else 0).
Proof.
  intros Hs Hn Hr Hf. rewrite mark_extent_zsplice by done.
  rewrite (zsplice_split _ _ s (s + n)) by (rewrite ?zlen_replicate; lia).
  assert (count_free m = count_free (zslice m 0 s) + (count_free (zslice m s (s + n)) +
            count_free (zslice m (s + n) (zlen m)))) as ->.
  { rewrite <- !count_free_app, !zslice_cat by lia. by rewrite zslice_all. }
  rewrite !count_free_app, (uniform_slice m s n w), !count_free_replicate by done.
  destruct v, w; lia.
Qed.

Lemma all_free_bound m s n : 0 <= s -> 0 < n -> all_free m s n -> s + n <= zlen m.
Proof.
  intros Hs Hn Hf. specialize (Hf (s + n - 1) ltac:(lia)). apply lookup_lt_Some in Hf. unfold zlen. lia.
Qed.

(** ** The search *)

Lemma free_run_loop_spec m n start k rs rl :
  0 <= start -> start <= k - rl -> 0 <= rl < n ->
  (0 < rl -> rs = k - rl) -> all_free m (k - rl) rl ->
  (forall s, start <= s < k - rl -> ~ all_free m s n) ->
  match free_run_loop m n (range k (zlen m)) rs rl with
  | Ok (Some s) => start <= s /\ all_free m s n /\ forall s', start <= s' < s -> ~ all_free m s' n
  | Ok None => forall s, start <= s -> ~ all_free m s n
  | _ => False
  end.
Proof.
  intros H0. remember (Z.to_nat (zlen m - k)) as fuel eqn:Hfuel.
  revert k rs rl Hfuel. induction fuel as [|fuel IH]; intros k rs rl Hfuel Hk Hrl Hrs Hrun Hno.
  { rewrite range_nil by lia. cbn [free_run_loop]. intros s Hs Hf.
    destruct (Z.lt_ge_cases s (k - rl)); [by apply (Hno s); [lia|]|].
    pose proof (all_free_bound m s n). specialize (H1 ltac:(lia) ltac:(lia) Hf). lia. }
  rewrite range_cons by lia. cbn [free_run_loop]. rewrite get_ok by lia. cbn [obind].
  assert (Hlk : m !! Z.to_nat k = Some (m !!! Z.to_nat k)) by (apply lookup_total_of_zlen; lia).
  destruct (m !!! Z.to_nat k) eqn:Hb.
  - set (rs' := if rl =? 0 then k else rs).
    assert (rs' = k - rl) as ->. { unfold rs'. destruct (Z.eqb_spec rl 0); [lia|]. apply Hrs. lia. }
    assert (Hrun' : all_free m (k - rl) (rl + 1)).
    { intros i Hi. destruct (decide (i = k)) as [->|]; [done|]. apply Hrun. lia. }
    destruct (Z.leb_spec n (rl + 1)) as [Hn|Hn].
    + replace n with (rl + 1) in * by lia. split_and!; [done|done|]. intros s' Hs'. by apply Hno.
    + apply IH; try lia.
      * replace (k + 1 - (rl + 1)) with (k - rl) by lia. done.
      * intros s Hs. apply Hno. lia.
  - apply IH; try lia.
    + intros i Hi. lia.
    + intros s Hs Hf. destruct (Z.lt_ge_cases s (k - rl)); [by apply (Hno s); [lia|]|].
      specialize (Hf k ltac:(lia)). congruence.
Qed.

Section bam_properties.
Context {D : Type}.
Abbreviation Bam := (BlockAllocMap D).

(** The bitmap covers the aggregate, whose blocks have 32-bit numbers, and
    [nfree] counts its free blocks. *)
Definition bam_wf (b : Bam) : Prop :=
  zlen (bam_free_map b) = bam_mapsize b /\ bam_mapsize b < 2 ^ 32 /\
  bam_nfree b = count_free (bam_free_map b).

Lemma find_free_run_spec (nblocks start : Z) (b : Bam) :
  zlen (bam_free_map b) = bam_mapsize b -> 0 < nblocks -> 0 <= start ->
  match find_free_run nblocks start b with
  | Ok (Some s) => start <= s /\ s + nblocks <= bam_mapsize b /\ all_free (bam_free_map b) s nblocks /\
      forall s', start <= s' < s -> ~ all_free (bam_free_map b) s' nblocks
  | Ok None => forall s, start <= s -> ~ all_free (bam_free_map b) s nblocks
  | _ => False
  end.
Proof.
  intros Hl Hn Hs. unfold find_free_run. rewrite <- Hl.
  pose proof (free_run_loop_spec (bam_free_map b) nblocks start start start 0) as Hr.
  destruct (free_run_loop _ _ _ _ _) as [[s|]| |]; (lapply Hr; [clear Hr; intros Hr|lia]).
  1: destruct Hr as (? & Hf & ?); try lia; try (intros i ?; lia); try (intros i ? _; lia).
  1: { split_and!; try done. apply all_free_bound; [lia|done|done]. }
  all: apply Hr; try lia; intros i ?; try lia; intros _; lia.
Qed.

(** [find_free_run] is a correct first-fit search: it returns the first
    position at or after [start] where [nblocks] consecutive blocks are free,
    and [None] only when there is no such position. *)
Theorem find_free_run_correct (nblocks start : Z) (b : Bam) :
  zlen (bam_free_map b) = bam_mapsize b -> 0 < nblocks -> 0 <= start ->
  match find_free_run nblocks start b with
  | Ok (Some s) => start <= s /\ s + nblocks <= bam_mapsize b /\ all_free (bam_free_map b) s nblocks /\
      forall s', start <= s' < s -> ~ all_free (bam_free_map b) s' nblocks
  | Ok None => forall s, start <= s -> ~ all_free (bam_free_map b) s nblocks
  | _ => False
  end.
Proof. apply find_free_run_spec. Qed.

(** The search of [alloc_extent]: from the hint, then from the beginning. *)
Lemma alloc_search n hint (b : Bam) :
  zlen (bam_free_map b) = bam_mapsize b -> 0 < n -> 0 <= hint ->
  match (let! start := find_free_run n hint b in
         match start with
         | Some s => Ok s
         | None => let! start := find_free_run n 0 b in
                   ok_or start (Other "no contiguous free blocks available")
         end) with
  | Ok s => 0 <= s /\ s + n <= bam_mapsize b /\ all_free (bam_free_map b) s n
  | Err e => e = Other "no contiguous free blocks available" /\
             forall s, 0 <= s -> ~ all_free (bam_free_map b) s n
  | Panic => False
  end.
Proof.
  intros Hl Hn Hh.
  pose proof (find_free_run_spec n hint b Hl Hn Hh) as H1.
  pose proof (find_free_run_spec n 0 b Hl Hn ltac:(lia)) as H2.
  destruct (find_free_run n hint b) as [[s|]| |]; cbn [obind]; try done.
  { destruct H1 as (? & ? & ? & _). split_and!; try done. lia. }
  destruct (find_free_run n 0 b) as [[s|]| |]; cbn [obind ok_or]; try done.
  destruct H2 as (? & ? & ? & _). done.
Qed.

Context `{LES : LittleEndianSpec}.

Lemma alloc_extent_cases n hint (b : Bam) :
  zlen (bam_free_map b) = bam_mapsize b -> 0 <= n -> 0 <= hint ->
  ((n = 0 \/ bam_mapsize b < n) /\ alloc_extent n hint b = (Err (Other "invalid block count"), b)) \/
  (0 < n <= bam_mapsize b /\ (forall s, 0 <= s -> ~ all_free (bam_free_map b) s n) /\
     alloc_extent n hint b = (Err (Other "no contiguous free blocks available"), b)) \/
  (0 < n <= bam_mapsize b /\ exists s, 0 <= s /\ s + n <= bam_mapsize b /\
     all_free (bam_free_map b) s n /\
     alloc_extent n hint b =
       (Ok (Some (pxd_set_length (pxd_set_address pxd_default s) (as_u32 n))),
        bam_update b (saturating_sub (bam_nfree b) n) (mark_extent s n false (bam_free_map b))
          (bam_allocated b ++ [(s, as_u32 n)]) (bam_freed b)
          ({[1 + s / BLOCKS_PER_DMAP]} ∪ bam_dirty_pages b))).
Proof.
  intros Hl Hn Hh. unfold alloc_extent.
  destruct (Z.eqb_spec n 0); cbn [orb]; [by left; split; [left|]|].
  destruct (Z.ltb_spec (bam_mapsize b) n); [by left; split; [right|]|]. right.
  pose proof (alloc_search n hint b Hl ltac:(lia) Hh) as Hs.
  destruct (let! start := _ in _) as [s|e|]; [|destruct Hs as [-> Hs]|done].
  - right. split; [lia|]. exists s. by destruct Hs as (? & ? & ?).
  - left. split_and!; [lia|lia|done|done].
Qed.

Lemma bam_nonneg (b : Bam) : bam_wf b -> 0 <= bam_mapsize b /\ 0 <= bam_nfree b <= bam_mapsize b.
Proof.
  intros (Hl & _ & Hc). rewrite <- Hl, Hc. unfold count_free, zlen.
  pose proof (length_filter (fun b => b = true) (bam_free_map b)). lia.
Qed.

Lemma all_free_count (m : list bool) s n :
  0 <= s -> 0 <= n -> s + n <= zlen m -> all_free m s n -> n <= count_free m.
Proof.
  intros Hs Hn Hr Hf. pose proof (count_free_mark m s n false true Hs Hn Hr Hf) as Hc.
  assert (0 <= count_free (mark_extent s n false m)) by apply zlen_nonneg. cbv iota in Hc. lia.
Qed.

(** C31: [alloc_extent] either returns a descriptor of [nblocks] blocks of the
    aggregate that were all free, marks exactly these blocks as used, lowers
    [nfree] by [nblocks] and logs the extent; or fails without a change, with
    "no contiguous free blocks available" only when no run of [nblocks] free
    blocks exists anywhere. The invariant is kept. *)
Theorem alloc_extent_correct (nblocks hint : Z) (b : Bam) :
  bam_wf b -> 0 < nblocks <= bam_mapsize b -> nblocks < 2 ^ 24 -> 0 <= hint ->
  let r := alloc_extent nblocks hint b in
  (r = (Err (Other "no contiguous free blocks available"), b) /\
   forall s, 0 <= s -> ~ all_free (bam_free_map b) s nblocks) \/
  (exists pxd, r.1 = Ok (Some pxd) /\ wf_pxd pxd /\ pxd_length pxd = nblocks /\
     pxd_address pxd + nblocks <= bam_mapsize b /\
     all_free (bam_free_map b) (pxd_address pxd) nblocks /\
     bam_free_map r.2 = mark_extent (pxd_address pxd) nblocks false (bam_free_map b) /\
     bam_nfree r.2 = bam_nfree b - nblocks /\
     bam_allocated r.2 = bam_allocated b ++ [(pxd_address pxd, nblocks)] /\
     bam_wf r.2).
Proof.
  intros Hwf Hn Hn24 Hh. cbn zeta. destruct (Hwf) as (Hl & Hsz & Hc).
  destruct (alloc_extent_cases nblocks hint b Hl ltac:(lia) Hh) as [[? _]|[(_ & Hs & ->)|(_ & s & Hs & Hr & Hf & ->)]].
  - lia.
  - by left.
  - right. rewrite as_u32_small by lia. eexists. split; [done|].
    destruct (pxd_set_both nblocks s) as (Hlen & Haddr & Hw); [lia|lia|].
    rewrite Hlen, Haddr. cbn [snd bam_update bam_free_map bam_nfree bam_allocated].
    pose proof (all_free_count (bam_free_map b) s nblocks Hs ltac:(lia) ltac:(lia) Hf).
    unfold saturating_sub. split_and!; try done; try lia.
    split_and!; cbn [bam_update bam_free_map bam_nfree bam_mapsize].
    + unfold zlen. rewrite length_mark_extent by done. exact Hl.
    + done.
    + rewrite (count_free_mark _ _ _ false true) by (done || lia). lia.
Qed.

(** ** Undoing a transaction *)

Definition covered (l : list (Z * Z)) (i : Z) : bool :=
  existsb (fun '(a, n) => (a <=? i) && (i <? a + n)) l.

Fixpoint sum_len (l : list (Z * Z)) : Z :=
  match l with [] => 0 | e :: l' => e.2 + sum_len l' end.

Lemma covered_app l k i : covered (l ++ k) i = covered l i || covered k i.
Proof. apply existsb_app. Qed.

Lemma covered_one a n i : covered [(a, n)] i = true <-> a <= i < a + n.
Proof. cbn [covered existsb]. rewrite orb_false_r, andb_true_iff. lia. Qed.

Lemma sum_len_app l k : sum_len (l ++ k) = sum_len l + sum_len k.
Proof. induction l as [|e l IH]; cbn [app sum_len]; lia. Qed.

Lemma sum_len_nonneg l : Forall (fun e => 0 <= e.1 /\ 0 <= e.2) l -> 0 <= sum_len l.
Proof. intros Hl. induction Hl as [|e l [_ ?] _ IH]; cbn [sum_len]; [lia|]. lia. Qed.

Lemma rollback_loop_spec v adjust (sgn : Z) l nfree m :
  (forall x n, x + sgn * n < 2 ^ 64 -> 0 <= x + sgn * n -> adjust x n = Ok (x + sgn * n)) ->
  Forall (fun e => 0 <= e.1 /\ 0 <= e.2) l ->
  0 <= nfree < 2 ^ 64 -> 0 <= nfree + sgn * sum_len l < 2 ^ 64 -> (sgn = 1 \/ sgn = -1) ->
  exists m', rollback_loop v adjust l nfree m = Ok (nfree + sgn * sum_len l, m') /\
    length m' = length m /\
    forall i, m' !! i = if covered l (Z.of_nat i) then (fun _ => v) <$> m !! i else m !! i.
Proof.
  intros Hadj Hl. revert nfree m. induction Hl as [|[a n] l [Ha Hn] Hl IH]; intros nfree m Hf Hs Hsgn.
  { exists m. cbn [rollback_loop sum_len covered existsb]. split_and!; try done. f_equal. f_equal. lia. }
  cbn [rollback_loop]. cbn [sum_len fst snd] in *.
  pose proof (sum_len_nonneg l Hl).
  rewrite Hadj by (destruct Hsgn; subst; lia). cbn [obind].
  destruct (IH (nfree + sgn * n) (mark_extent a n v m)) as (m' & -> & Hlen & Hlk);
    [destruct Hsgn; subst; lia..|done|].
  exists m'. split_and!.
  - f_equal. f_equal. lia.
  - rewrite Hlen. by apply length_mark_extent.
  - intros i. rewrite Hlk, lookup_mark_extent by done. cbn [covered existsb].
    destruct (decide (a <= Z.of_nat i < a + n)) as [Hi|Hi].
    + rewrite (proj2 (andb_true_iff _ _)) by lia. cbn [orb].
      case_match; [by destruct (m !! i)|done].
    + replace ((a <=? Z.of_nat i) && (Z.of_nat i <? a + n)) with false; [done|].
      symmetry. apply andb_false_iff. lia.
Qed.

(** One call of a transaction: an allocation, with any outcome, or a free of an
    extent that was in use at the start of the transaction and still is. *)
Inductive txn_step (m0 : list bool) : Bam -> Bam -> Prop :=
| txn_alloc n hint b : 0 <= n -> 0 <= hint -> txn_step m0 b (alloc_extent n hint b).2
| txn_free pxd b b' :
    wf_pxd pxd -> free_extent pxd b = (Ok tt, b') ->
    (forall i, pxd_address pxd <= i < pxd_address pxd + pxd_length pxd ->
       m0 !! Z.to_nat i = Some false /\ bam_free_map b !! Z.to_nat i = Some false) ->
    txn_step m0 b b'.

(** What holds during a transaction that started with the bitmap of [b0]. *)
Definition txn_inv (b0 b : Bam) : Prop :=
  bam_wf b /\ bam_mapsize b = bam_mapsize b0 /\
  Forall (fun e => 0 <= e.1 /\ 0 <= e.2) (bam_allocated b ++ bam_freed b) /\
  bam_nfree b + sum_len (bam_allocated b) = bam_nfree b0 + sum_len (bam_freed b) /\
  forall i : nat,
    (covered (bam_freed b) (Z.of_nat i) = true -> bam_free_map b0 !! i = Some false) /\
    (covered (bam_freed b) (Z.of_nat i) = false -> covered (bam_allocated b) (Z.of_nat i) = true ->
       bam_free_map b0 !! i = Some true) /\
    (covered (bam_freed b) (Z.of_nat i) = false -> covered (bam_allocated b) (Z.of_nat i) = false ->
       bam_free_map b !! i = bam_free_map b0 !! i).

Lemma txn_inv_alloc b0 b n hint :
  txn_inv b0 b -> 0 <= n -> 0 <= hint -> txn_inv b0 (alloc_extent n hint b).2.
Proof.
  intros Hinv Hn Hh. destruct (Hinv) as (Hwf & Hms & Hpos & Hsum & Hblk). destruct (Hwf) as (Hl & Hsz & Hc).
  destruct (alloc_extent_cases n hint b Hl Hn Hh) as [[_ ->]|[(_ & _ & ->)|(Hn1 & s & Hs & Hr & Hf & ->)]]; [done|done|].
  pose proof (all_free_count (bam_free_map b) s n Hs Hn ltac:(lia) Hf).
  rewrite as_u32_small by lia. cbn [snd].
  unfold txn_inv, bam_wf, bam_update, saturating_sub. cbn -[sum_len covered Z.pow].
  split_and!; try done.
  - unfold zlen. by rewrite length_mark_extent.
  - rewrite (count_free_mark _ _ _ false true) by (done || lia). lia.
  - rewrite !Forall_app in *. destruct Hpos. split_and!; try done. by constructor.
  - rewrite sum_len_app. cbn [sum_len snd]. lia.
  - intros i. destruct (Hblk i) as (Hb1 & Hb2 & Hb3).
    rewrite covered_app, lookup_mark_extent by done. split_and!; [done| |].
    + intros Hfr [Ha|Ha]%orb_true_iff; [by apply Hb2|]. apply covered_one in Ha.
      destruct (covered (bam_allocated b) (Z.of_nat i)) eqn:Hal; [by apply Hb2|].
      rewrite <- Hb3 by done. rewrite <- (Nat2Z.id i). by apply Hf.
    + intros Hfr [Ha Hs']%orb_false_iff.
      rewrite decide_False; [by apply Hb3|]. intros Hi%covered_one. congruence.
Qed.

Lemma txn_inv_free b0 b b' pxd :
  txn_inv b0 b -> wf_pxd pxd -> free_extent pxd b = (Ok tt, b') ->
  (forall i, pxd_address pxd <= i < pxd_address pxd + pxd_length pxd ->
     bam_free_map b0 !! Z.to_nat i = Some false /\ bam_free_map b !! Z.to_nat i = Some false) ->
  txn_inv b0 b'.
Proof.
  intros (Hwf & Hms & Hpos & Hsum & Hblk) Hp Hfree Hused. destruct (Hwf) as (Hl & Hsz & Hc).
  pose proof (pxd_address_range pxd Hp). pose proof (pxd_length_range pxd). pose proof (bam_nonneg b Hwf).
  unfold free_extent in Hfree.
  destruct (Z.ltb_spec (bam_mapsize b) (pxd_address pxd + pxd_length pxd)); [done|].
  rewrite add_u64_ok in Hfree by lia. injection Hfree as <-.
  unfold txn_inv, bam_wf, bam_update. cbn -[sum_len covered Z.pow].
  split_and!; try done.
  - unfold zlen. by rewrite length_mark_extent by lia.
  - rewrite (count_free_mark _ _ _ true false); try lia. intros i Hi. by apply Hused.
  - rewrite !Forall_app in *. destruct Hpos. split_and!; try done. constructor; [|done]. cbn [fst snd]. lia.
  - rewrite sum_len_app. cbn [sum_len snd]. lia.
  - intros i. destruct (Hblk i) as (Hb1 & Hb2 & Hb3).
    rewrite covered_app, lookup_mark_extent by lia. split_and!.
    + intros [Ha|Ha]%orb_true_iff; [by apply Hb1|]. apply covered_one in Ha.
      rewrite <- (Nat2Z.id i). by apply Hused.
    + intros [Hfr _]%orb_false_iff. by apply Hb2.
    + intros [Hfr Hs']%orb_false_iff Ha.
      rewrite decide_False; [by apply Hb3|]. intros Hi%covered_one. congruence.
Qed.

Lemma txn_inv_rtc b0 b1 b : txn_inv b0 b1 -> rtc (txn_step (bam_free_map b0)) b1 b -> txn_inv b0 b.
Proof.
  intros Hi Hs. induction Hs as [b1|b1 b2 b3 Hstep _ IH]; [done|]. apply IH.
  destruct Hstep; [by apply txn_inv_alloc|by eapply txn_inv_free].
Qed.

(** C33: for every sequence of allocations and of frees of extents that were in
    use when the transaction began, [rollback] gives back the bitmap and the
    free count the transaction began with, and empties the logs. *)
Theorem rollback_restores (b0 b : Bam) :
  bam_wf b0 -> bam_allocated b0 = [] -> bam_freed b0 = [] ->
  rtc (txn_step (bam_free_map b0)) b0 b ->
  bam_nfree b + sum_len (bam_allocated b) < 2 ^ 64 ->
  exists b', bam_rollback b = Ok b' /\ bam_free_map b' = bam_free_map b0 /\
    bam_nfree b' = bam_nfree b0 /\ bam_allocated b' = [] /\ bam_freed b' = [] /\ bam_dirty_pages b' = ∅.
Proof.
  intros Hwf0 Ha0 Hf0 Hsteps Hov.
  assert (txn_inv b0 b) as (Hwf & Hms & Hpos & Hsum & Hblk).
  { eapply (txn_inv_rtc b0 b0); [|done]. unfold txn_inv. rewrite Ha0, Hf0. split_and!; try done. }
  apply Forall_app in Hpos as [Hpa Hpf]. destruct (bam_nonneg b Hwf) as [_ Hnf].
  destruct (bam_nonneg b0 Hwf0) as [_ Hnf0]. pose proof (sum_len_nonneg _ Hpa) as Hsa.
  destruct (Hwf0) as (_ & Hsz0 & _).
  destruct (rollback_loop_spec true add_u64 1 (bam_allocated b) (bam_nfree b) (bam_free_map b))
    as (m1 & Hr1 & Hl1 & Hlk1); [intros; rewrite Z.mul_1_l in *; by apply add_u64_ok|done|lia|lia|by left|].
  destruct (rollback_loop_spec false sub_u64 (-1) (bam_freed b) (bam_nfree b + sum_len (bam_allocated b)) m1)
    as (m2 & Hr2 & Hl2 & Hlk2); [|done|lia|lia|by right|].
  { intros x n Hx1 Hx2. rewrite sub_u64_ok by lia. f_equal; lia. }
  rewrite Z.mul_1_l in Hr1. unfold bam_rollback. rewrite Hr1. cbn [obind]. rewrite Hr2. cbn [obind].
  eexists. split; [done|]. cbn [bam_update bam_free_map bam_nfree bam_allocated bam_freed bam_dirty_pages].
  split_and!; try done; [|lia]. apply list_eq. intros i. rewrite Hlk2, Hlk1.
  destruct (Hblk i) as (Hb1 & Hb2 & Hb3).
  assert (Hsome : is_Some (bam_free_map b !! i) <-> is_Some (bam_free_map b0 !! i)).
  { rewrite !lookup_lt_is_Some. destruct Hwf as [? _], Hwf0 as [? _]. unfold zlen in *. lia. }
  destruct (covered (bam_freed b) (Z.of_nat i)) eqn:Ef, (covered (bam_allocated b) (Z.of_nat i)) eqn:Ea.
  - rewrite Hb1 in * by done. destruct (bam_free_map b !! i); [done|]. by destruct (proj2 Hsome).
  - rewrite Hb1 in * by done. destruct (bam_free_map b !! i); [done|]. by destruct (proj2 Hsome).
  - rewrite Hb2 in * by done. destruct (bam_free_map b !! i); [done|]. by destruct (proj2 Hsome).
  - by apply Hb3.
Qed.

(** A successful free, for an extent of used blocks. *)
Lemma free_extent_ok (pxd : Pxd) (b : Bam) :
  wf_pxd pxd -> bam_wf b -> pxd_address pxd + pxd_length pxd <= bam_mapsize b ->
  free_extent pxd b =
    (Ok tt, bam_update b (bam_nfree b + pxd_length pxd)
              (mark_extent (pxd_address pxd) (pxd_length pxd) true (bam_free_map b))
              (bam_allocated b) (bam_freed b ++ [(pxd_address pxd, pxd_length pxd)])
              ({[1 + pxd_address pxd / BLOCKS_PER_DMAP]} ∪ bam_dirty_pages b)).
Proof.
  intros Hp Hwf Hr. pose proof (pxd_length_range pxd). pose proof (bam_nonneg b Hwf).
  destruct Hwf as (_ & Hsz & _). unfold free_extent.
  destruct (Z.ltb_spec (bam_mapsize b) (pxd_address pxd + pxd_length pxd)); [lia|].
  by rewrite add_u64_ok by lia.
Qed.

Lemma mark_mark (m : list bool) s n v w :
  0 <= s -> mark_extent s n v (mark_extent s n w m) = mark_extent s n v m.
Proof.
  intros Hs. apply list_eq. intros i. rewrite !lookup_mark_extent by done.
  case_decide; [by destruct (m !! i)|done].
Qed.

Lemma mark_free_again (m : list bool) s n :
  0 <= s -> all_free m s n -> mark_extent s n true m = m.
Proof.
  intros Hs Hf. apply list_eq. intros i. rewrite lookup_mark_extent by done.
  case_decide as Hi; [|done]. specialize (Hf _ Hi). rewrite Nat2Z.id in Hf. by rewrite Hf.
Qed.

(** Freeing the extent an allocation returned gives back the bitmap and the
    free count of before. *)
Theorem alloc_then_free (nblocks hint : Z) (b b1 : Bam) (pxd : Pxd) :
  bam_wf b -> 0 < nblocks < 2 ^ 24 -> 0 <= hint ->
  alloc_extent nblocks hint b = (Ok (Some pxd), b1) ->
  exists b2, free_extent pxd b1 = (Ok tt, b2) /\
    bam_free_map b2 = bam_free_map b /\ bam_nfree b2 = bam_nfree b /\ bam_wf b2.
Proof.
  intros Hwf Hn Hh Hal. destruct (Hwf) as (Hl & Hsz & Hc).
  pose proof (txn_inv_alloc b b nblocks hint) as Hinv. rewrite Hal in Hinv.
  destruct (alloc_extent_cases nblocks hint b Hl ltac:(lia) Hh)
    as [[_ E]|[(_ & _ & E)|(_ & s & Hs & Hr & Hf & E)]]; rewrite E in Hal; try done.
  injection Hal as <- <-. clear E Hinv. rewrite as_u32_small by lia.
  destruct (pxd_set_both nblocks s) as (Hlen & Haddr & Hw); [lia|lia|].
  pose proof (all_free_count (bam_free_map b) s nblocks Hs ltac:(lia) ltac:(lia) Hf).
  rewrite free_extent_ok; [|done| |by rewrite Hlen, Haddr].
  - eexists. split; [done|]. rewrite Hlen, Haddr. unfold bam_wf, saturating_sub.
    cbn [bam_update bam_free_map bam_nfree bam_mapsize].
    rewrite mark_mark, mark_free_again by done. split_and!; try done; lia.
  - unfold bam_wf, saturating_sub. cbn [bam_update bam_free_map bam_nfree bam_mapsize]. split_and!; [|done|].
    + unfold zlen. by rewrite length_mark_extent.
    + rewrite (count_free_mark _ _ _ false true) by (done || lia). lia.
Qed.

(** An extent that is allocated and freed within one transaction is in use
    after [rollback], although it was free before the transaction; the count
    [nfree] is the one of before and no longer counts the free blocks. *)
Theorem rollback_leaks_freed_allocation (nblocks hint : Z) (b b1 b2 : Bam) (pxd : Pxd) :
  bam_wf b -> bam_allocated b = [] -> bam_freed b = [] -> 0 < nblocks < 2 ^ 24 -> 0 <= hint ->
  alloc_extent nblocks hint b = (Ok (Some pxd), b1) -> free_extent pxd b1 = (Ok tt, b2) ->
  exists b', bam_rollback b2 = Ok b' /\
    all_free (bam_free_map b) (pxd_address pxd) nblocks /\
    bam_free_map b' = mark_extent (pxd_address pxd) nblocks false (bam_free_map b) /\
    bam_nfree b' = bam_nfree b /\ bam_nfree b' = count_free (bam_free_map b') + nblocks.
Proof.
  intros Hwf Ha0 Hf0 Hn Hh Hal Hfr. destruct (Hwf) as (Hl & Hsz & Hc). pose proof (bam_nonneg b Hwf) as Hnn.
  destruct (alloc_extent_cases nblocks hint b Hl ltac:(lia) Hh)
    as [[_ E]|[(_ & _ & E)|(_ & s & Hs & Hr & Hf & E)]]; rewrite E in Hal; try done.
  injection Hal as <- <-. clear E. rewrite as_u32_small in * by lia.
  destruct (pxd_set_both nblocks s) as (Hlen & Haddr & Hw); [lia|lia|].
  pose proof (all_free_count (bam_free_map b) s nblocks Hs ltac:(lia) ltac:(lia) Hf).
  rewrite Haddr. unfold free_extent in Hfr. rewrite Hlen, Haddr in Hfr.
  cbn [bam_update bam_mapsize bam_nfree bam_free_map bam_allocated bam_freed] in Hfr.
  destruct (Z.ltb_spec (bam_mapsize b) (s + nblocks)); [lia|].
  unfold saturating_sub in Hfr. rewrite add_u64_ok in Hfr by lia. injection Hfr as <-.
  unfold bam_rollback. cbn [bam_update bam_allocated bam_freed bam_nfree bam_free_map].
  rewrite Ha0, Hf0. cbn [app rollback_loop]. rewrite add_u64_ok by lia. cbn [obind].
  rewrite sub_u64_ok by lia. cbn [obind]. eexists. split; [done|].
  cbn [bam_update bam_free_map bam_nfree]. rewrite !mark_mark by done.
  rewrite (count_free_mark _ _ _ false true) by (done || lia). split_and!; try done; lia.
Qed.

(** ** The pages *)

(** The bit of block [blk] in a word that starts at block [base]. *)
Definition block_bit (m : list bool) (mapsize blk : Z) : bool :=
  (blk <? mapsize) && default false (m !! Z.to_nat blk).

Lemma dmap_word_spec m mapsize base k word :
  zlen m = mapsize -> 0 <= base -> 0 <= k <= 32 -> 0 <= word < 2 ^ k ->
  exists w, dmap_word m mapsize base (range k 32) word = Ok w /\ 0 <= w < 2 ^ 32 /\
    forall i, 0 <= i < 32 ->
      Z.testbit w i = if i <? k then Z.testbit word i else block_bit m mapsize (base + i).
Proof.
  intros Hm Hb. remember (Z.to_nat (32 - k)) as n eqn:Hn. revert k word Hn.
  induction n as [|n IH]; intros k word Hn Hk Hw.
  { assert (k = 32) as -> by lia. exists word. rewrite range_nil by lia. split_and!; try done; [lia..|].
    intros i Hi. by destruct (Z.ltb_spec i 32); [|lia]. }
  rewrite range_cons by lia. cbn [dmap_word].
  assert (Hget : (if base + k <? mapsize then get m (base + k) else Ok false) =
                 Ok (block_bit m mapsize (base + k)) :> result bool).
  { unfold block_bit. destruct (Z.ltb_spec (base + k) mapsize); [|done].
    destruct (lookup_lt_is_Some_2 m (Z.to_nat (base + k))) as [v Hv]; [unfold zlen in *; lia|].
    rewrite (get_lookup _ _ v) by (done || lia). by rewrite Hv. }
  rewrite Hget. cbn [obind].
  assert (Hor : Z.lor word (Z.shiftl 1 k) = 2 ^ k + word).
  { rewrite Z.shiftl_mul_pow2, Z.lor_comm by lia. rewrite lor_fields by lia. lia. }
  set (word' := if block_bit m mapsize (base + k) then Z.lor word (Z.shiftl 1 k) else word).
  destruct (IH (k + 1) word') as (w & -> & Hwr & Hbits); [lia|lia| |].
  { rewrite Z.pow_add_r, Z.pow_1_r by lia. unfold word'. destruct (block_bit _ _ _); rewrite ?Hor; lia. }
  exists w. split_and!; [done|lia|lia|]. intros i Hi. rewrite Hbits by done.
  destruct (Z.ltb_spec i k), (Z.ltb_spec i (k + 1)); try lia; [| |done].
  - unfold word'. destruct (block_bit _ _ _); [|done]. rewrite Z.lor_spec, Z.shiftl_spec by lia.
    by rewrite (Z.testbit_neg_r 1), orb_false_r by lia.
  - assert (i = k) as -> by lia. unfold word'. destruct (block_bit m mapsize (base + k)).
    + rewrite Z.lor_spec, Z.shiftl_spec by lia. by rewrite Z.sub_diag, orb_true_r.
    + rewrite <- (Z.mod_small word (2 ^ k)) by done. apply Z.mod_pow2_bits_high. lia.
Qed.

(** The working map of [page] encodes the blocks from [start] on. *)
Definition wmap_word (page : list byte) (i : Z) : Z :=
  read_u32 (zslice page (2048 + i * 4) (2048 + i * 4 + 4)).

Lemma serialize_words_spec m mapsize start k page :
  zlen m = mapsize -> 0 <= start -> 0 <= k <= 256 -> zlen page = 4096 ->
  exists page', serialize_words m mapsize start (range k 256) page = Ok page' /\ zlen page' = 4096 /\
    same_outside (2048 + k * 4) (1024 - k * 4) page page' /\
    forall i bit, k <= i < 256 -> 0 <= bit < 32 ->
      Z.testbit (wmap_word page' i) bit = block_bit m mapsize (start + i * 32 + bit).
Proof.
  intros Hm Hs. remember (Z.to_nat (256 - k)) as n eqn:Hn. revert k page Hn.
  induction n as [|n IH]; intros k page Hn Hk Hp.
  { rewrite range_nil by lia. exists page. split_and!; [done|done|apply same_outside_refl|]. intros; lia. }
  rewrite range_cons by lia. cbn [serialize_words].
  destruct (dmap_word_spec m mapsize (start + k * 32) 0 0) as (w & -> & Hw & Hbits); [done|lia|lia|lia|].
  cbn [obind]. rewrite Hp. destruct (Z.leb_spec (2048 + k * 4 + 4) 4096); [|lia].
  assert (Hlw : zlen (write_u32 w) = 4). { unfold zlen. by rewrite length_write_u32. }
  set (page1 := zsplice page (2048 + k * 4) (write_u32 w)).
  assert (Hz1 : zlen page1 = 4096). { unfold page1. rewrite zlen_zsplice; lia. }
  destruct (IH (k + 1) page1) as (page' & -> & Hp' & Hout & Henc); [lia|lia|done|].
  exists page'. split_and!; [done|done| |].
  - split; [congruence|]. intros i Hi. destruct Hout as [_ Hout].
    rewrite Hout by lia. unfold page1. rewrite lookup_zsplice by lia. by rewrite decide_False by lia.
  - intros i bit Hi Hbit. destruct (decide (i = k)) as [->|]; [|apply Henc; lia].
    unfold wmap_word. rewrite (same_outside_zslice _ _ _ _ _ _ Hout) by lia.
    unfold page1. rewrite zslice_zsplice_same by lia. rewrite read_write_u32 by done.
    rewrite Hbits by done. by destruct (Z.ltb_spec bit 0); [lia|].
Qed.

(** The page [commit] writes for a dmap page carries in its working map,
    bit by bit, the bitmap of the 8192 blocks of that page (blocks beyond the
    aggregate as used), and is the old page everywhere else. *)
Theorem serialize_page_encodes_bitmap (m : list bool) (start : Z) (page : list byte) :
  zlen page = 4096 -> 0 <= start ->
  exists page', serialize_words m (zlen m) start (range 0 256) page = Ok page' /\
    same_outside 2048 1024 page page' /\
    forall blk, start <= blk < start + BLOCKS_PER_DMAP ->
      Z.testbit (wmap_word page' ((blk - start) / 32)) ((blk - start) mod 32) =
        (blk <? zlen m) && default false (m !! Z.to_nat blk).
Proof.
  intros Hp Hs. destruct (serialize_words_spec m (zlen m) start 0 page) as (page' & H1 & H2 & H3 & H4); [done|done|lia|done|].
  exists page'. split_and!; [done|done|]. intros blk Hb. unfold BLOCKS_PER_DMAP in Hb.
  pose proof (Z.div_mod (blk - start) 32 ltac:(lia)). pose proof (Z.mod_pos_bound (blk - start) 32 ltac:(lia)).
  rewrite H4 by (lia || (split; [apply Z.div_pos; lia|apply Z.div_lt_upper_bound; lia])).
  unfold block_bit. f_equal; f_equal; f_equal; try f_equal; lia.
Qed.

Lemma parse_words_same page page' start words m :
  same_outside 2048 1024 page page' -> (forall w, w ∈ words -> 0 <= w) ->
  parse_dmap_words page' start words m = parse_dmap_words page start words m.
Proof.
  intros Hs. revert m. induction words as [|w words IH]; intros m Hw; cbn [parse_dmap_words]; [done|].
  destruct (Hs) as [-> _]. specialize (Hw w (list_elem_of_here _ _)) as Hw0.
  rewrite (same_outside_zslice _ _ _ _ _ _ Hs) by lia. case_match; [done|]. apply IH.
  intros; apply Hw; by right.
Qed.

(** [parse_dmap_page], through which [new] builds the bitmap, gives the same
    result on the page [commit] wrote as on the page that was there before: it
    reads the persistent map, which [commit] does not touch. *)
Theorem reload_ignores_commit (m m0 : list bool) (start : Z) (page page' : list byte) :
  zlen page = 4096 -> 0 <= start ->
  serialize_words m (zlen m) start (range 0 256) page = Ok page' ->
  parse_dmap_page page' start m0 = parse_dmap_page page start m0.
Proof.
  intros Hp Hs Hser. destruct (serialize_words_spec m (zlen m) start 0 page) as (p & H1 & H2 & H3 & _); [done|done|lia|done|].
  rewrite Hser in H1. injection H1 as <-. apply parse_words_same; [done|].
  intros w. rewrite elem_of_range. lia.
Qed.

(** ** Reading the persistent map *)

Lemma shifted_bit w i : 0 <= i -> negb (Z.land (Z.shiftr w i) 1 =? 0) = Z.testbit w i.
Proof.
  intros Hi. replace (Z.testbit w i) with (Z.testbit (Z.shiftr w i) 0) by (by rewrite Z.shiftr_spec by lia).
  change 1 with (2 ^ 1 - 1) at 1. rewrite land_low by lia. change (2 ^ 1) with 2.
  rewrite <- Z.bit0_mod. by destruct (Z.testbit (Z.shiftr w i) 0).
Qed.

Lemma parse_word_fold word base (bits : list Z) (m : list bool) (i : nat) :
  NoDup bits -> (forall x, x ∈ bits -> 0 <= x) -> 0 <= base ->
  fold_left (fun m bit => let blk_idx := base + bit in
    if blk_idx <? zlen m then <[Z.to_nat blk_idx := negb (Z.land (Z.shiftr word bit) 1 =? 0)]> m else m) bits m !! i =
  if decide (Z.of_nat i - base ∈ bits) then (fun _ => Z.testbit word (Z.of_nat i - base)) <$> m !! i else m !! i.
Proof.
  intros Hnd. revert m. induction Hnd as [|x bits Hx Hnd IH]; intros m Hpos Hb; cbn [fold_left].
  { by rewrite decide_False by apply not_elem_of_nil. }
  rewrite IH by (done || intros; apply Hpos; by right).
  specialize (Hpos x (list_elem_of_here _ _)). cbn zeta. rewrite shifted_bit by done.
  destruct (decide (Z.of_nat i - base = x)) as [Hix|Hix].
  - rewrite Hix, decide_False, (decide_True (P := x ∈ x :: bits)) by (done || apply list_elem_of_here).
    destruct (Z.ltb_spec (base + x) (zlen m)) as [Hlt|Hge].
    + assert (Z.to_nat (base + x) = i) as -> by lia. unfold zlen in Hlt.
      rewrite list_lookup_insert_eq by lia.
      destruct (lookup_lt_is_Some_2 m i) as [? ->]; [lia|done].
    + by rewrite (lookup_ge_None_2 m i) by (unfold zlen in Hge; lia).
  - assert (Hm : (if base + x <? zlen m then <[Z.to_nat (base + x):=Z.testbit word x]> m else m) !! i = m !! i).
    { destruct (base + x <? zlen m); [|done]. apply list_lookup_insert_ne. lia. }
    rewrite Hm. destruct (decide (Z.of_nat i - base ∈ bits)) as [Hi|Hi].
    + by rewrite decide_True by by right.
    + rewrite decide_False; [done|]. by apply not_elem_of_cons.
Qed.

Lemma parse_dmap_word_lookup word base m (i : nat) :
  0 <= base ->
  parse_dmap_word word base m !! i =
  if decide (base <= Z.of_nat i < base + 32) then (fun _ => Z.testbit word (Z.of_nat i - base)) <$> m !! i else m !! i.
Proof.
  intros Hb. unfold parse_dmap_word. rewrite parse_word_fold; [| |intros x; rewrite elem_of_range; lia|done].
  - repeat case_decide; try done; rewrite elem_of_range in *; lia.
  - apply NoDup_seqZ.
Qed.

Lemma parse_dmap_words_lookup page start k m (i : nat) :
  zlen page = 4096 -> 0 <= start -> 0 <= k <= 256 ->
  parse_dmap_words page start (range k 256) m !! i =
  if decide (start + k * 32 <= Z.of_nat i < start + BLOCKS_PER_DMAP)
  then (fun _ => Z.testbit (read_u32 (zslice page (3072 + (Z.of_nat i - start) / 32 * 4)
                                       (3072 + (Z.of_nat i - start) / 32 * 4 + 4)))
                  ((Z.of_nat i - start) mod 32)) <$> m !! i
  else m !! i.
Proof.
  intros Hp Hs. remember (Z.to_nat (256 - k)) as n eqn:Hn. revert k m Hn. unfold BLOCKS_PER_DMAP.
  induction n as [|n IH]; intros k m Hn Hk.
  { rewrite range_nil by lia. cbn [parse_dmap_words]. by rewrite decide_False by lia. }
  rewrite range_cons by lia. cbn [parse_dmap_words]. rewrite Hp.
  destruct (Z.ltb_spec 4096 (3072 + k * 4 + 4)); [lia|].
  rewrite IH, parse_dmap_word_lookup by lia.
  destruct (decide (start + k * 32 <= Z.of_nat i < start + k * 32 + 32)) as [Hi|Hi].
  - rewrite decide_False, decide_True by lia.
    pose proof (Z.div_mod (Z.of_nat i - start) 32 ltac:(lia)).
    pose proof (Z.mod_pos_bound (Z.of_nat i - start) 32 ltac:(lia)).
    replace ((Z.of_nat i - start) / 32) with k by nia.
    replace ((Z.of_nat i - start) mod 32) with (Z.of_nat i - (start + k * 32)) by nia. done.
  - repeat case_decide; try done; lia.
Qed.

(** [parse_dmap_page] gives each block of the page the bit of the persistent
    map (set means free), and leaves the other blocks of the bitmap alone. *)
Theorem parse_dmap_page_decodes (page : list byte) (start : Z) (m : list bool) (i : nat) :
  zlen page = 4096 -> 0 <= start ->
  parse_dmap_page page start m !! i =
  if decide (start <= Z.of_nat i < start + BLOCKS_PER_DMAP)
  then (fun _ => Z.testbit (read_u32 (zslice page (3072 + (Z.of_nat i - start) / 32 * 4)
                                       (3072 + (Z.of_nat i - start) / 32 * 4 + 4)))
                  ((Z.of_nat i - start) mod 32)) <$> m !! i
  else m !! i.
Proof.
  intros Hp Hs. unfold parse_dmap_page. rewrite parse_dmap_words_lookup by (done || lia).
  by rewrite Z.mul_0_l, Z.add_0_r.
Qed.

End bam_properties.

(** ** Commit *)

Section commit_properties.
Context {D : Type} {SD : Storage D} {SS : StorageSpec D} {SR : StorageReliable D}.
Context {LE : LittleEndian} {LES : LittleEndianSpec}.
Abbreviation Bam := (BlockAllocMap D).

Definition bam_with (b : Bam) (d : D) : Bam :=
  mkBam d (bam_mapsize b) (bam_nfree b) (bam_free_map b) (bam_ndmap b) (bam_dmap_start b)
    (bam_dmap_len b) (bam_allocated b) (bam_freed b) (bam_dirty_pages b).

(** The image [commit] gives to dmap page [p]. *)
Definition page_image (b : Bam) (p : Z) (old : list byte) : list byte :=
  match serialize_words (bam_free_map b) (bam_mapsize b) ((p - 1) * BLOCKS_PER_DMAP) (range 0 256) old with
  | Ok new => new
  | _ => old
  end.

Lemma page_image_with b d p old : page_image (bam_with b d) p old = page_image b p old.
Proof. unfold page_image. cbn [bam_with bam_free_map bam_mapsize]. reflexivity. Qed.

Lemma block_at_len (c : list byte) b :
  0 <= b -> b * BLOCK_SIZE + BLOCK_SIZE <= zlen c -> zlen (block_at c b) = 4096.
Proof. intros. unfold block_at, BLOCK_SIZE, PSIZE in *. rewrite zlen_zslice; lia. Qed.

Lemma block_in_range (d : D) b :
  st_wf d -> b * BLOCK_SIZE + BLOCK_SIZE <= zlen (contents d) -> b < size_blocks d.
Proof.
  intros Hd Hr. rewrite st_size by done. unfold BLOCK_SIZE, PSIZE in *.
  assert (b + 1 <= zlen (contents d) / 4096); [|lia]. apply Z.div_le_lower_bound; lia.
Qed.

(** Replacing block [b] of a device by [data]. *)
Definition put_block_at (c : list byte) (b : Z) (data : list byte) : list byte :=
  zsplice c (b * BLOCK_SIZE) data.

(** Reading and writing one block through the map. *)
Lemma bam_read b blk :
  st_wf (bam_storage b) -> 0 <= blk -> blk * BLOCK_SIZE + BLOCK_SIZE <= zlen (contents (bam_storage b)) ->
  exists d, bam_io (read_block blk) b = (Ok (block_at (contents (bam_storage b)) blk), bam_with b d) /\
    st_wf d /\ contents d = contents (bam_storage b).
Proof.
  intros Hd Hb Hr. unfold bam_io.
  pose proof (st_read_block_ok blk (bam_storage b) Hd Hb Hr) as Hok.
  destruct (st_read_block blk (bam_storage b) Hd Hb) as (Hd' & Hc & _).
  destruct (read_block blk (bam_storage b)) as [o d]. cbn [fst snd] in *. subst o. by exists d.
Qed.

Lemma bam_write b blk data :
  st_wf (bam_storage b) -> 0 <= blk -> zlen data = BLOCK_SIZE ->
  blk * BLOCK_SIZE + BLOCK_SIZE <= zlen (contents (bam_storage b)) ->
  exists d, bam_io (write_block blk data) b = (Ok tt, bam_with b d) /\
    st_wf d /\ contents d = put_block_at (contents (bam_storage b)) blk data.
Proof.
  intros Hd Hb Hl Hr. unfold bam_io.
  pose proof (st_write_block_ok blk data (bam_storage b) Hd Hb Hl Hr) as Hok.
  destruct (st_write_block blk data (bam_storage b) Hd Hb) as (Hd' & _ & Hc). destruct (Hc Hok) as [_ Hc'].
  destruct (write_block blk data (bam_storage b)) as [o d]. cbn [fst snd] in *. subst o. by exists d.
Qed.

Lemma commit_page_ok b p :
  zlen (bam_free_map b) = bam_mapsize b -> st_wf (bam_storage b) -> 1 <= p -> 0 <= bam_dmap_start b ->
  (bam_dmap_start b + p) * BLOCK_SIZE + BLOCK_SIZE <= zlen (contents (bam_storage b)) ->
  exists d, commit_page p b = (Ok tt, bam_with b d) /\ st_wf d /\
    contents d = put_block_at (contents (bam_storage b)) (bam_dmap_start b + p)
                   (page_image b p (block_at (contents (bam_storage b)) (bam_dmap_start b + p))) /\
    zlen (page_image b p (block_at (contents (bam_storage b)) (bam_dmap_start b + p))) = BLOCK_SIZE.
Proof.
  intros Hm Hd Hp Hs Hr. set (blk := bam_dmap_start b + p) in *. unfold commit_page. fold blk.
  pose proof (block_in_range _ _ Hd Hr). destruct (Z.leb_spec (size_blocks (bam_storage b)) blk); [lia|].
  destruct (bam_read b blk) as (d1 & Hread & Hd1 & Hc1); [done|lia|done|].
  rewrite (sbind_ok _ _ _ _ _ Hread). rewrite sub_u64_ok by lia.
  erewrite sbind_ok by done. unfold page_image.
  destruct (serialize_words_spec (bam_free_map b) (bam_mapsize b) ((p - 1) * BLOCKS_PER_DMAP) 0
              (block_at (contents (bam_storage b)) blk)) as (page' & Hser & Hz & _);
    [done|unfold BLOCKS_PER_DMAP; lia|lia|apply block_at_len; lia|].
  rewrite Hser. erewrite sbind_ok by done.
  destruct (bam_write (bam_with b d1) blk page') as (d2 & Hw & Hd2 & Hc2); [done|lia|done|cbn [bam_with bam_storage]; by rewrite Hc1|].
  exists d2. rewrite Hw. split_and!; [done|done| |done]. rewrite Hc2. cbn [bam_with bam_storage]. by rewrite Hc1.
Qed.

Lemma commit_loop_ok b l :
  zlen (bam_free_map b) = bam_mapsize b -> st_wf (bam_storage b) -> 0 <= bam_dmap_start b -> NoDup l ->
  (forall p, p ∈ l -> 1 <= p /\
     (bam_dmap_start b + p) * BLOCK_SIZE + BLOCK_SIZE <= zlen (contents (bam_storage b))) ->
  exists d, sfor l commit_page b = (Ok tt, bam_with b d) /\ st_wf d /\
    zlen (contents d) = zlen (contents (bam_storage b)) /\
    forall blk, 0 <= blk -> block_at (contents d) blk =
      if decide (blk - bam_dmap_start b ∈ l)
      then page_image b (blk - bam_dmap_start b) (block_at (contents (bam_storage b)) blk)
      else block_at (contents (bam_storage b)) blk.
Proof.
  intros Hm Hd Hs Hnd. revert b Hm Hd Hs. induction Hnd as [|p l Hp Hnd IH]; intros b Hm Hd Hs Hl; cbn [sfor].
  { exists (bam_storage b). split_and!; [by destruct b|done|done|].
    intros blk _. by rewrite decide_False by apply not_elem_of_nil. }
  destruct (Hl p (list_elem_of_here _ _)) as [Hp1 Hr].
  destruct (commit_page_ok b p) as (d1 & Hrun & Hd1 & Hc1 & Hz1); [done..|].
  assert (Hlen1 : zlen (contents d1) = zlen (contents (bam_storage b))).
  { rewrite Hc1. unfold put_block_at. rewrite zlen_zsplice; [done|unfold BLOCK_SIZE, PSIZE in *; lia|lia]. }
  destruct (IH (bam_with b d1)) as (d2 & Hrun2 & Hd2 & Hlen2 & Hblk); [done|done|done| |].
  { intros q Hq. cbn [bam_with bam_dmap_start bam_storage]. rewrite Hlen1. apply Hl. by right. }
  exists d2. rewrite (sbind_ok _ _ _ _ _ Hrun). split_and!; [done|done| |].
  - rewrite Hlen2. done.
  - intros blk Hblk0. rewrite Hblk by done. cbn [bam_with bam_dmap_start bam_storage].
    rewrite Hc1. unfold put_block_at. rewrite block_at_zsplice by (done || lia).
    destruct (decide (bam_dmap_start b + p = blk)) as [<-|Hne].
    + replace (bam_dmap_start b + p - bam_dmap_start b) with p by lia.
      rewrite decide_False, decide_True by (done || apply list_elem_of_here). done.
    + destruct (decide (blk - bam_dmap_start b ∈ l)) as [Hin|Hin].
      * rewrite decide_True by (by right). by rewrite page_image_with.
      * rewrite decide_False; [done|]. apply not_elem_of_cons. split; [lia|done].
Qed.

(** A commit on a device that answers. *)
Lemma bam_commit_run (hash_order : gset Z -> list Z) (b : Bam) :
  (forall s, hash_order s ≡ₚ elements s) ->
  zlen (bam_free_map b) = bam_mapsize b -> st_wf (bam_storage b) -> 0 <= bam_dmap_start b ->
  0 <= bam_nfree b < 2 ^ 64 ->
  bam_dmap_start b * BLOCK_SIZE + BLOCK_SIZE <= zlen (contents (bam_storage b)) ->
  (forall p, p ∈ bam_dirty_pages b -> 1 <= p /\
     (bam_dmap_start b + p) * BLOCK_SIZE + BLOCK_SIZE <= zlen (contents (bam_storage b))) ->
  exists d, bam_commit hash_order b =
    (Ok tt, mkBam d (bam_mapsize b) (bam_nfree b) (bam_free_map b) (bam_ndmap b) (bam_dmap_start b)
              (bam_dmap_len b) [] [] ∅) /\ st_wf d /\
    zlen (contents d) = zlen (contents (bam_storage b)) /\
    forall blk, 0 <= blk -> block_at (contents d) blk =
      if decide (blk = bam_dmap_start b)
      then zsplice (block_at (contents (bam_storage b)) blk) 8 (le_bytes 8 (bam_nfree b))
      else if decide (blk - bam_dmap_start b ∈ bam_dirty_pages b)
      then page_image b (blk - bam_dmap_start b) (block_at (contents (bam_storage b)) blk)
      else block_at (contents (bam_storage b)) blk.
Proof.
  intros Hord Hm Hd Hs Hnf Hdesc Hdirty. unfold bam_commit.
  assert (Hin : forall p, p ∈ hash_order (bam_dirty_pages b) <-> p ∈ bam_dirty_pages b).
  { intros p. rewrite Hord. apply elem_of_elements. }
  destruct (commit_loop_ok b (hash_order (bam_dirty_pages b))) as (d1 & Hrun & Hd1 & Hlen1 & Hb1); [done|done|done| | |].
  { rewrite Hord. apply NoDup_elements. } { intros p Hp%Hin. by apply Hdirty. }
  rewrite (sbind_ok _ _ _ _ _ Hrun).
  destruct (bam_read (bam_with b d1) (bam_dmap_start b)) as (d2 & Hread & Hd2 & Hc2);
    [done|done|cbn [bam_with bam_storage]; by rewrite Hlen1|].
  rewrite (sbind_ok _ _ _ _ _ Hread). cbn [bam_with bam_storage] in *.
  assert (Hz0 : zlen (block_at (contents d1) (bam_dmap_start b)) = 4096) by (apply block_at_len; [done|by rewrite Hlen1]).
  assert (Hw8 : zlen (write_u64 (bam_nfree b)) = 8) by (unfold zlen; by rewrite length_write_u64).
  rewrite splice_ok by lia. erewrite sbind_ok by done.
  set (desc := zsplice _ 8 _). assert (Hzd : zlen desc = BLOCK_SIZE) by (unfold desc; rewrite zlen_zsplice; [done|lia|lia]).
  destruct (bam_write (bam_with b d2) (bam_dmap_start b) desc) as (d3 & Hw & Hd3 & Hc3);
    [done|done|done|cbn [bam_with bam_storage]; by rewrite Hc2, Hlen1|].
  change (bam_with (bam_with b d1) d2) with (bam_with b d2). rewrite (sbind_ok _ _ _ _ _ Hw).
  exists d3. split_and!; [done|done| |].
  { rewrite Hc3. unfold put_block_at. cbn [bam_with bam_storage]. rewrite zlen_zsplice; rewrite ?Hc2, ?Hlen1; unfold BLOCK_SIZE, PSIZE in *; lia. }
  intros blk Hblk. rewrite Hc3. unfold put_block_at.
  cbn [bam_with bam_storage]. rewrite block_at_zsplice by (done || rewrite Hc2, Hlen1; done). rewrite Hc2.
  destruct (decide (blk = bam_dmap_start b)) as [->|Hne].
  - rewrite decide_True by done. unfold desc. rewrite write_u64_spec by done. f_equal.
    rewrite Hb1 by done. rewrite decide_False; [done|]. intros [Hp _]%Hin%Hdirty. lia.
  - rewrite decide_False by done. rewrite Hb1 by done. repeat case_decide; try done; exfalso; naive_solver.
Qed.

(** Bit [i mod 8] of byte [i / 8] of the working map of a dmap page, which is
    the bytes 2048 to 3071 of the page. *)
Definition wmap_bit (page : list byte) (i : Z) : option bool :=
  (fun c => Z.testbit (bval c) (i mod 8)) <$> page !! Z.to_nat (2048 + i / 8).

Lemma wmap_word_bit page i :
  zlen page = 4096 -> 0 <= i < 8192 ->
  wmap_bit page i = Some (Z.testbit (wmap_word page (i / 32)) (i mod 32)).
Proof.
  intros Hp Hi. pose proof (Z.div_mod i 32 ltac:(lia)). pose proof (Z.mod_pos_bound i 32 ltac:(lia)).
  pose proof (Z.div_mod i 8 ltac:(lia)). pose proof (Z.mod_pos_bound i 8 ltac:(lia)).
  set (k := i / 8 - i / 32 * 4). assert (Hk : 0 <= k < 4) by (subst k; lia).
  unfold wmap_bit, wmap_word.
  set (w := zslice page _ _). assert (Hw : length w = 4%nat).
  { enough (zlen w = 4) by (unfold zlen in *; lia). unfold w. rewrite zlen_zslice; lia. }
  destruct (lookup_lt_is_Some_2 w (Z.to_nat k)) as [c Hc]; [lia|].
  assert (page !! Z.to_nat (2048 + i / 8) = Some c) as ->.
  { rewrite <- Hc. unfold w. rewrite lookup_zslice, decide_True by lia. f_equal. subst k; lia. }
  cbn. f_equal. rewrite read_u32_spec by done.
  rewrite <- (le_val_testbit w (Z.to_nat k) (i mod 8) c) by (done || lia). f_equal. subst k; lia.
Qed.

Lemma page_image_bits b p old :
  zlen (bam_free_map b) = bam_mapsize b -> 1 <= p -> zlen old = 4096 ->
  same_outside 2048 1024 old (page_image b p old) /\
  forall i, 0 <= i < 8192 ->
    wmap_bit (page_image b p old) i =
      Some (bool_decide (bam_free_map b !! Z.to_nat ((p - 1) * 8192 + i) = Some true)).
Proof.
  intros Hm Hp Ho. unfold page_image, BLOCKS_PER_DMAP.
  destruct (serialize_words_spec (bam_free_map b) (bam_mapsize b) ((p - 1) * 8192) 0 old)
    as (page' & -> & Hz & Hout & Hbits); [done|lia|lia|done|]. split; [done|]. intros i Hi.
  pose proof (Z.div_mod i 32 ltac:(lia)). pose proof (Z.mod_pos_bound i 32 ltac:(lia)).
  rewrite wmap_word_bit, Hbits by lia. f_equal. unfold block_bit.
  replace ((p - 1) * 8192 + i / 32 * 32 + i mod 32) with ((p - 1) * 8192 + i) by lia.
  destruct (Z.ltb_spec ((p - 1) * 8192 + i) (bam_mapsize b)) as [Hlt|Hge]; cbn [andb].
  - by destruct (_ !! _) as [[]|].
  - rewrite bool_decide_eq_false_2; [done|]. rewrite lookup_ge_None_2; [done|]. unfold zlen in *. lia.
Qed.

(** C34: [commit] on a device that answers, whatever the order of the dirty set.
    It succeeds. In the working map of each dirty dmap page [p], the bytes
    2048 to 3071, bit [i mod 8] of byte [i / 8] is set exactly when block
    [(p - 1) * 8192 + i] belongs to the map and is free; the other bytes of
    the page, the persistent map that a mount reads among them, are as
    before. The descriptor gets [nfree] in bytes 8 to 15, every other block
    of the device is unchanged, and the logs and the dirty set are emptied. *)
Theorem bam_commit_correct (hash_order : gset Z -> list Z) (b : Bam) :
  (forall s, hash_order s ≡ₚ elements s) ->
  zlen (bam_free_map b) = bam_mapsize b -> st_wf (bam_storage b) -> 0 <= bam_dmap_start b ->
  0 <= bam_nfree b < 2 ^ 64 ->
  bam_dmap_start b * BLOCK_SIZE + BLOCK_SIZE <= zlen (contents (bam_storage b)) ->
  (forall p, p ∈ bam_dirty_pages b -> 1 <= p /\
     (bam_dmap_start b + p) * BLOCK_SIZE + BLOCK_SIZE <= zlen (contents (bam_storage b))) ->
  exists d, bam_commit hash_order b =
    (Ok tt, mkBam d (bam_mapsize b) (bam_nfree b) (bam_free_map b) (bam_ndmap b) (bam_dmap_start b)
              (bam_dmap_len b) [] [] ∅) /\ st_wf d /\
    let before blk := block_at (contents (bam_storage b)) blk in
    let after blk := block_at (contents d) blk in
    after (bam_dmap_start b) = zsplice (before (bam_dmap_start b)) 8 (le_bytes 8 (bam_nfree b)) /\
    (forall p, p ∈ bam_dirty_pages b ->
       same_outside 2048 1024 (before (bam_dmap_start b + p)) (after (bam_dmap_start b + p)) /\
       forall i, 0 <= i < 8192 ->
         wmap_bit (after (bam_dmap_start b + p)) i =
           Some (bool_decide (bam_free_map b !! Z.to_nat ((p - 1) * 8192 + i) = Some true))) /\
    (forall blk, 0 <= blk -> blk <> bam_dmap_start b -> blk - bam_dmap_start b ∉ bam_dirty_pages b ->
       after blk = before blk).
Proof.
  intros H1 H2 H3 H4 H5 H6 H7. destruct (bam_commit_run hash_order b H1 H2 H3 H4 H5 H6 H7) as (d & Hrun & Hd & _ & Hb).
  exists d. cbn zeta. split_and!; [done|done| | |].
  - rewrite Hb by done. by rewrite decide_True.
  - intros p Hp. destruct (H7 p Hp) as [Hp1 Hr]. rewrite Hb by lia.
    rewrite decide_False, decide_True by (try (replace (bam_dmap_start b + p - bam_dmap_start b) with p by lia); done || lia).
    replace (bam_dmap_start b + p - bam_dmap_start b) with p by lia.
    apply page_image_bits; [done..|]. apply block_at_len; lia.
  - intros blk H0 Hne Hnd. rewrite Hb by done. by rewrite !decide_False.
Qed.
End commit_properties.

(** * Witnesses *)

(** Four blocks, the second in use; the map is at blocks 0 and 1 of a device. *)
Definition small_bam : BlockAllocMap MemoryStorage :=
  mkBam (mkMem (replicate 8192 Byte.x00) 8192) 4 3 [true; false; true; true] 1 0 2 [] [] {[ 1 ]}.

Lemma small_bam_wf : bam_wf small_bam.
Proof. by split_and!. Qed.

Lemma find_free_run_correct_witness :
  find_free_run 2 0 small_bam = Ok (Some 2) /\ all_free [true; false; true; true] 2 2.
Proof.
  split; [reflexivity|].
  exact (proj1 (proj2 (proj2 (find_free_run_correct 2 0 small_bam eq_refl eq_refl (Z.le_refl 0))))).
Defined.

Lemma alloc_extent_correct_witness :
  exists pxd, (alloc_extent (LE := le_codec) 2 0 small_bam).1 = Ok (Some pxd) /\
    pxd_length (LE := le_codec) pxd = 2.
Proof.
  destruct (alloc_extent_correct (LES := le_codec_spec) 2 0 small_bam small_bam_wf)
    as [[H _]|(pxd & H1 & _ & H2 & _)]; [done|done|done|discriminate H|by exists pxd].
Defined.

Lemma alloc_then_free_witness :
  let r := alloc_extent (LE := le_codec) 2 0 small_bam in
  exists pxd b2, r.1 = Ok (Some pxd) /\ free_extent (LE := le_codec) pxd r.2 = (Ok tt, b2) /\
    bam_free_map b2 = [true; false; true; true].
Proof.
  intros r. assert (exists pxd b1, r = (Ok (Some pxd), b1)) as (pxd & b1 & Hr) by (do 2 eexists; reflexivity).
  destruct (alloc_then_free (LES := le_codec_spec) 2 0 small_bam b1 pxd small_bam_wf)
    as (b2 & H1 & H2 & _); [done|done|exact Hr|]. rewrite Hr. by exists pxd, b2.
Defined.

Lemma rollback_restores_witness :
  let b := (alloc_extent (LE := le_codec) 2 0 small_bam).2 in
  exists b', bam_rollback b = Ok b' /\ bam_free_map b' = [true; false; true; true].
Proof.
  intros b. destruct (rollback_restores (LES := le_codec_spec) small_bam b) as (b' & H1 & H2 & _);
    [apply small_bam_wf|done|done| |done|by exists b'].
  apply rtc_once, (txn_alloc (LE := le_codec) _ 2 0); done.
Defined.

Lemma rollback_leaks_freed_allocation_witness :
  let b1 := (alloc_extent (LE := le_codec) 1 0 small_bam).2 in
  exists pxd b2 b', alloc_extent (LE := le_codec) 1 0 small_bam = (Ok (Some pxd), b1) /\
    free_extent (LE := le_codec) pxd b1 = (Ok tt, b2) /\ bam_rollback b2 = Ok b' /\
    bam_nfree b' = count_free (bam_free_map b') + 1.
Proof.
  intros b1.
  assert (exists pxd b2, alloc_extent (LE := le_codec) 1 0 small_bam = (Ok (Some pxd), b1) /\
            free_extent (LE := le_codec) pxd b1 = (Ok tt, b2)) as (pxd & b2 & Ha & Hf)
    by (do 2 eexists; split; reflexivity).
  destruct (rollback_leaks_freed_allocation (LES := le_codec_spec) 1 0 small_bam b1 b2 pxd small_bam_wf)
    as (b' & H1 & _ & _ & _ & H2); [done..|]. by exists pxd, b2, b'.
Defined.

Lemma serialize_page_encodes_bitmap_witness :
  exists page', serialize_words (LE := le_codec) [true; false; true] 3 0 (range 0 256) (replicate 4096 Byte.x00) = Ok page' /\
    Z.testbit (wmap_word (LE := le_codec) page' 0) 2 = true.
Proof.
  destruct (serialize_page_encodes_bitmap (LES := le_codec_spec) [true; false; true] 0 (replicate 4096 Byte.x00))
    as (page' & H1 & _ & H2); [apply zlen_replicate|done|].
  exists page'. split; [exact H1|]. apply (H2 2). unfold BLOCKS_PER_DMAP. lia.
Defined.

Lemma reload_ignores_commit_witness :
  exists page', serialize_words (LE := le_codec) [true; false; true] 3 0 (range 0 256) (replicate 4096 Byte.x00) = Ok page' /\
    parse_dmap_page (LE := le_codec) page' 0 [false] = parse_dmap_page (LE := le_codec) (replicate 4096 Byte.x00) 0 [false].
Proof.
  destruct (serialize_words_spec (LES := le_codec_spec) [true; false; true] 3 0 0 (replicate 4096 Byte.x00))
    as (page' & H1 & _); [done|done|done|apply zlen_replicate|].
  exists page'. split; [exact H1|].
  apply (reload_ignores_commit (LES := le_codec_spec) [true; false; true]); [apply zlen_replicate|done|exact H1].
Defined.

Lemma parse_dmap_page_decodes_witness :
  parse_dmap_page (LE := le_codec) (replicate 4096 Byte.x01) 0 [false; false] !! 1%nat =
  (fun _ => Z.testbit (@read_u32 le_codec (zslice (replicate 4096 Byte.x01) 3072 3076)) 1) <$> ([false; false] !! 1%nat).
Proof.
  exact (parse_dmap_page_decodes (LE := le_codec) (replicate 4096 Byte.x01) 0 [false; false] 1
    (zlen_replicate 4096 Byte.x01) (Z.le_refl 0)).
Defined.

Lemma bam_commit_correct_witness :
  exists d, bam_commit (LE := le_codec) elements small_bam =
      (Ok tt, mkBam d 4 3 [true; false; true; true] 1 0 2 [] [] ∅) /\
    wmap_bit (block_at (contents d) 1) 0 = Some true /\ wmap_bit (block_at (contents d) 1) 1 = Some false.
Proof.
  destruct (bam_commit_correct (LES := le_codec_spec) elements small_bam) as (d & H & _ & _ & Hp & _);
    [done|done| |done|done| | |].
  - by split; [apply zlen_replicate|].
  - cbn [contents memory_spec bam_storage ms_data small_bam]. by rewrite zlen_replicate.
  - intros p. cbn [contents memory_spec bam_storage ms_data small_bam bam_dirty_pages bam_dmap_start].
    rewrite elem_of_singleton, zlen_replicate. by intros ->.
  - destruct (Hp 1) as [_ Hbits]; [by apply elem_of_singleton|].
    exists d. split_and!; [exact H|apply (Hbits 0); lia|apply (Hbits 1); lia].
Defined.
