(* ===== verification/Xtree.v ===== *)
(** * Extent tree ([src/src/btree/xtree.rs])

    [Xtree] has one field, the root of the tree in the inode, so its state is
    the [XtRoot] of Types.v: a header with the next free index and 18 slots, of
    which slots [XTENTRYSTART .. nextindex) hold extents. The flag names of the
    crate [bitflags] are a parameter ([from_bits_truncate]). *)

From S2P Require Import Prelude Types Storage.
From Stdlib Require Import ZArith Lia.

Record Extent := mkExtent { e_offset : Z; e_length : Z; e_address : Z; e_flags : Z }.

(** The slots visited by [for i in XTENTRYSTART..next { if i >= XTROOTMAXSLOT { break; } .. }]. *)
Definition xt_slots {LE : LittleEndian} (r : XtRoot) : list Xad :=
  zslice (xt_xad r) XTENTRYSTART (Z.min (xtroot_next_index r) XTROOTMAXSLOT).

Section parse.
Context {LE : LittleEndian}.

Definition parse_xad (data : list byte) : result Xad :=
  if zlen data <? 16 then Err (Other "insufficient data for xad")
  else
    let! flag := get data 0 in
    let! r0 := get data 1 in
    let! r1 := get data 2 in
    let! off1 := get data 3 in
    let! off2 := field data 4 8 4 in
    let! loc := slice data 8 16 in
    Ok (mkXad flag [r0; r1] off1 off2 (pxd_from_bytes loc)).

(** The loop over the slots of the buffer. *)
Fixpoint parse_xads (data : list byte) (idxs : list Z) (xads : list Xad) : result (list Xad) :=
  match idxs with
  | [] => Ok xads
  | i :: idxs' =>
      let base := 32 + i * 16 in
      if zlen data <? base + 16 then Ok xads
      else
        let! x := parse_xad (zslice data base (base + 16)) in
        let! xads := set xads (XTENTRYSTART + i) x in
        parse_xads data idxs' xads
  end.

Definition parse_xtroot (data : list byte) : result XtRoot :=
  if zlen data <? 20 then Err (Other "insufficient data for xtroot header")
  else
    let! next := field data 0 8 8 in
    let! prev := field data 8 16 8 in
    let! flag := get data 16 in
    let! rsrvd1 := get data 17 in
    let! nextindex := field data 18 20 2 in
    let! maxentry := field data 20 22 2 in
    let! rsrvd2 := field data 22 24 2 in
    let! self_pxd := slice data 24 32 in
    let! xads := parse_xads data (range 0 (saturating_sub XTROOTMAXSLOT XTENTRYSTART)) (xt_xad xtroot_default) in
    Ok (mkXtRoot (mkXtHeader next prev flag rsrvd1 nextindex maxentry rsrvd2 (pxd_from_bytes self_pxd)) xads).

Definition xt_from_inode_data (data : list byte) : result XtRoot :=
  if zlen data <? 96 then Err (Other "insufficient data for xtroot") else parse_xtroot data.

(** The bytes [to_bytes] stores for one slot at [base]. *)
Definition put_xad (buf : list byte) (base : Z) (x : Xad) : result (list byte) :=
  let! buf := set buf base (xad_flag x) in
  let! buf := splice buf (base + 1) (xad_rsvrd x) in
  let! buf := set buf (base + 3) (xad_off1 x) in
  let! buf := splice buf (base + 4) (xad_off2 x) in
  let! buf := splice buf (base + 8) (len_addr (xad_loc x)) in
  splice buf (base + 12) (addr2 (xad_loc x)).

Fixpoint put_xads (xads : list Xad) (idxs : list Z) (buf : list byte) : result (list byte) :=
  match idxs with
  | [] => Ok buf
  | i :: idxs' =>
      let idx := XTENTRYSTART + i in
      if XTROOTMAXSLOT <=? idx then Ok buf
      else
        let! x := get xads idx in
        let base := 32 + i * 16 in
        if zlen buf <? base + 16 then Ok buf
        else
          let! buf := put_xad buf base x in
          put_xads xads idxs' buf
  end.

Definition xt_to_bytes (r : XtRoot) : result (list byte) :=
  let h := xt_header r in
  let! buf := splice (zeros 288) 0 (xth_next h) in
  let! buf := splice buf 8 (xth_prev h) in
  let! buf := set buf 16 (xth_flag h) in
  let! buf := set buf 17 (xth_rsrvd1 h) in
  let! buf := splice buf 18 (xth_nextindex h) in
  let! buf := splice buf 20 (xth_maxentry h) in
  let! buf := splice buf 22 (xth_rsrvd2 h) in
  let! buf := splice buf 24 (len_addr (xth_self_pxd h)) in
  let! buf := splice buf 28 (addr2 (xth_self_pxd h)) in
  put_xads (xt_xad r) (range 0 (saturating_sub XTROOTMAXSLOT XTENTRYSTART)) buf.
End parse.

(** ** Lookup and mapping *)

Section lookup.
Context {LE : LittleEndian} (from_bits_truncate : Z -> Z).

Fixpoint lookup_slots (offset : Z) (slots : list Xad) : option Extent :=
  match slots with
  | [] => None
  | x :: slots' =>
      let xoff := as_u64 (xad_offset x) in
      let xlen := xad_length x in
      if (xoff <=? offset) && (offset <? xoff + xlen)
      then Some (mkExtent (as_i64 xoff) (as_u32 xlen) (xad_address x) (from_bits_truncate (bval (xad_flag x))))
      else lookup_slots offset slots'
  end.

Definition xt_lookup (offset : Z) (r : XtRoot) : result (option Extent) := Ok (lookup_slots offset (xt_slots r)).

(** The [while] loop of [map_blocks]; [None] when the fuel runs out. *)
Fixpoint map_blocks_loop (fuel : nat) (r : XtRoot) (current stop : Z) (acc : list (Z * Z))
  : option (result (list (Z * Z))) :=
  match fuel with
  | O => None
  | S fuel' =>
      if current <? stop then
        match xt_lookup current r with
        | Ok (Some e) =>
            let rel := current - as_u64 (e_offset e) in
            let remaining := stop - current in
            let take := Z.min (e_length e - rel) remaining in
            map_blocks_loop fuel' r (current + take) stop (acc ++ [(e_address e + rel, take)])
        | Ok None => Some (Ok (acc ++ [(0, stop - current)]))
        | Err e => Some (Err e)
        | Panic => Some Panic
        end
      else Some (Ok acc)
  end.

(** One more iteration than the number of blocks is enough ([map_blocks_correct]). *)
Definition map_blocks (offset length : Z) (r : XtRoot) : result (list (Z * Z)) :=
  let! stop := add_u64 offset length in
  match map_blocks_loop (S (Z.to_nat length)) r offset stop [] with
  | Some res => res
  | None => Panic
  end.

Definition iter_extents (r : XtRoot) : list Extent :=
  omap (fun x =>
    if xad_length x =? 0 then None
    else Some (mkExtent (xad_offset x) (xad_length x) (xad_address x) (from_bits_truncate (bval (xad_flag x)))))
    (xt_slots r).

(** ** Reading data *)

(** The state of the copy loops: the bytes so far, how many remain, and the
    offset in the next block. [check k] is the answer of the [k]-th
    [token.check()]: [true] when the operation is cancelled. *)
Record ReadState := mkRead { rd_result : list byte; rd_remaining : Z; rd_buf_offset : Z; rd_checks : nat }.

Context {D : Type} `{Storage D} (check : nat -> bool).

(** [for blk in 0..block_count], with its break. *)
Fixpoint read_extent (block_addr : Z) (blks : list Z) (st : ReadState) : ST D StorageError ReadState :=
  match blks with
  | [] => sret st
  | blk :: blks' =>
      if rd_remaining st =? 0 then sret st
      else if check (rd_checks st) then sfail Interrupted
      else
        let* a := slift (add_u64 block_addr blk) in
        let* data := read_block a in
        let to_copy := Z.min (BLOCK_SIZE - rd_buf_offset st) (rd_remaining st) in
        let* part := slift (slice data (rd_buf_offset st) (rd_buf_offset st + to_copy)) in
        read_extent block_addr blks'
          (mkRead (rd_result st ++ part) (rd_remaining st - to_copy) 0 (S (rd_checks st)))
  end.

Fixpoint read_extents (extents : list (Z * Z)) (st : ReadState) : ST D StorageError ReadState :=
  match extents with
  | [] => sret st
  | (block_addr, block_count) :: extents' =>
      if block_addr =? 0 then
        let* bytes := slift (mul_u64 block_count BLOCK_SIZE) in
        let n := Z.min bytes (rd_remaining st) in
        let st := mkRead (rd_result st ++ replicate (Z.to_nat n) Byte.x00)
                    (saturating_sub (rd_remaining st) n) 0 (rd_checks st) in
        if rd_remaining st =? 0 then sret st else read_extents extents' st
      else
        let* st := read_extent block_addr (range 0 block_count) st in
        read_extents extents' st
  end.

Definition read_data_checked (offset length : Z) (r : XtRoot) : ST D StorageError (list byte) :=
  let fsb_offset := offset / BLOCK_SIZE in
  let byte_offset := offset mod BLOCK_SIZE in
  let* n := slift (add_u64 length byte_offset) in
  let* n := slift (add_u64 n BLOCK_SIZE) in
  let fsb_count := (n - 1) / BLOCK_SIZE in
  let* extents := slift (map_blocks fsb_offset fsb_count r) in
  let* st := read_extents extents (mkRead [] length byte_offset 0) in
  sret (take (Z.to_nat length) (rd_result st)).
End lookup.

(** [read_data] is the same code without the checks. *)
Definition read_data {LE : LittleEndian} (from_bits_truncate : Z -> Z) {D} `{Storage D}
  (offset length : Z) (r : XtRoot) : ST D StorageError (list byte) :=
  read_data_checked from_bits_truncate (fun _ => false) offset length r.

(** ** Updates *)

Section update.
Context {LE : LittleEndian}.

Definition xt_with_next (r : XtRoot) (next : Z) (xads : list Xad) : XtRoot :=
  mkXtRoot (xth_set_nextindex (xt_header r) next) xads.

(** The entry [insert_extent], [set_extent] and [insert_taken_extent] store in a slot. *)
Definition fill_xad (x : Xad) (logical_offset length physical_addr flag : Z) : Xad :=
  xad_set_flag (xad_set_address (xad_set_length (xad_set_offset x logical_offset) length) physical_addr) flag.

(** The part of [insert_extent] and of [insert_taken_extent] that takes a new slot. *)
Definition append_extent (logical_offset length physical_addr flag : Z) (r : XtRoot) : result (bool * XtRoot) :=
  let next_idx := xtroot_next_index r in
  if XTROOTMAXSLOT <=? next_idx then Ok (false, r)
  else
    let idx := if next_idx <=? XTENTRYSTART then XTENTRYSTART else next_idx in
    let! x := get (xt_xad r) idx in
    let! xads := set (xt_xad r) idx (fill_xad x logical_offset length physical_addr flag) in
    Ok (true, xt_with_next r (idx + 1) xads).

Definition insert_extent (logical_offset length physical_addr : Z) (r : XtRoot) : result (bool * XtRoot) :=
  let next_idx := xtroot_next_index r in
  if XTENTRYSTART <? next_idx then
    let last_idx := next_idx - 1 in
    if XTROOTMAXSLOT <=? last_idx then Ok (false, r)
    else
      let! last := get (xt_xad r) last_idx in
      if (xad_offset last + xad_length last =? logical_offset) &&
         (xad_address last + xad_length last =? physical_addr)
      then
        let! len := add_u32 (xad_length last) length in
        let! xads := set (xt_xad r) last_idx (xad_set_length last len) in
        Ok (true, mkXtRoot (xt_header r) xads)
      else append_extent logical_offset length physical_addr XAD_NEW r
  else append_extent logical_offset length physical_addr XAD_NEW r.

Definition set_extent (idx logical_offset length physical_addr : Z) (r : XtRoot) : result (bool * XtRoot) :=
  if (idx <? XTENTRYSTART) || (XTROOTMAXSLOT <=? idx) then Ok (false, r)
  else
    let! x := get (xt_xad r) idx in
    let! xads := set (xt_xad r) idx (fill_xad x logical_offset length physical_addr XAD_NEW) in
    Ok (true, mkXtRoot (xt_header r) xads).

Definition insert_taken_extent (logical_offset length physical_addr : Z) (r : XtRoot) : result (bool * XtRoot) :=
  append_extent logical_offset length physical_addr 0 r.

(** The loop over the slots: what each slot pushes to [kept] and to the result. *)
Fixpoint slots_loop {T} (step : Xad -> result (list Xad * list T)) (slots : list Xad) : result (list Xad * list T) :=
  match slots with
  | [] => Ok ([], [])
  | x :: slots' =>
      let! (k, t) := step x in
      let! (ks, ts) := slots_loop step slots' in
      Ok (k ++ ks, t ++ ts)
  end.

(** "Write kept extents back" and the clearing of the slots left over. *)
Definition write_kept (kept : list Xad) (r : XtRoot) : XtRoot :=
  let next_idx := xtroot_next_index r in
  let xads := fold_left (fun xs '(i, x) =>
      let idx := XTENTRYSTART + Z.of_nat i in
      if idx <? XTROOTMAXSLOT then <[Z.to_nat idx := x]> xs else xs) (imap pair kept) (xt_xad r) in
  let new_next := XTENTRYSTART + zlen kept in
  let xads := fold_left (fun xs idx => <[Z.to_nat idx := xad_default]> xs)
      (range new_next (Z.min next_idx XTROOTMAXSLOT)) xads in
  xt_with_next r (as_u16 new_next) xads.

Definition update_slots {T} (step : Xad -> result (list Xad * list T)) (r : XtRoot) : result (list T * XtRoot) :=
  let! (kept, out) := slots_loop step (xt_slots r) in
  Ok (out, write_kept kept r).

Definition truncate_step (new_eof_fsb : Z) (x : Xad) : result (list Xad * list (Z * Z)) :=
  let ext_offset := xad_offset x in
  let ext_length := xad_length x in
  let ext_addr := xad_address x in
  if ext_length =? 0 then Ok ([], [])
  else if new_eof_fsb <=? ext_offset then Ok ([], [(ext_addr, ext_length)])
  else if new_eof_fsb <? ext_offset + ext_length then
    let keep_len := as_u32 (new_eof_fsb - ext_offset) in
    let free_len := as_u32 (ext_offset + ext_length - new_eof_fsb) in
    Ok ([xad_set_length x keep_len], [(ext_addr + keep_len, free_len)])
  else Ok ([x], []).

Definition truncate_extents (new_eof_fsb : Z) (r : XtRoot) : result (list (Z * Z) * XtRoot) :=
  update_slots (truncate_step new_eof_fsb) r.

Definition punch_step (start_fsb end_fsb : Z) (x : Xad) : result (list Xad * list (Z * Z)) :=
  let ext_offset := xad_offset x in
  let ext_length := xad_length x in
  let ext_addr := xad_address x in
  if ext_length =? 0 then Ok ([], [])
  else
    let ext_end := ext_offset + ext_length in
    if ext_end <=? start_fsb then Ok ([x], [])
    else if end_fsb <=? ext_offset then Ok ([x], [])
    else if (start_fsb <=? ext_offset) && (ext_end <=? end_fsb) then Ok ([], [(ext_addr, ext_length)])
    else if (ext_offset <? start_fsb) && (end_fsb <? ext_end) then
      let left_len := as_u32 (start_fsb - ext_offset) in
      let right_len := as_u32 (ext_end - end_fsb) in
      let right_addr := ext_addr + left_len in
      Ok ([xad_set_length x left_len;
           xad_set_address (xad_set_length (xad_set_offset x end_fsb) right_len) right_addr],
          [(ext_addr + left_len, as_u32 (end_fsb - start_fsb))])
    else if ext_offset <? start_fsb then
      let keep_len := as_u32 (start_fsb - ext_offset) in
      let! free_len := sub_u32 ext_length keep_len in
      Ok ([xad_set_length x keep_len], [(ext_addr + keep_len, free_len)])
    else
      let keep_len := as_u32 (ext_end - end_fsb) in
      let free_len := as_u32 (end_fsb - ext_offset) in
      Ok ([xad_set_address (xad_set_length (xad_set_offset x end_fsb) keep_len) (ext_addr + free_len)],
          [(ext_addr, free_len)]).

Definition punch_extents (start_fsb end_fsb : Z) (r : XtRoot) : result (list (Z * Z) * XtRoot) :=
  update_slots (punch_step start_fsb end_fsb) r.

Definition take_step (start_fsb end_fsb : Z) (x : Xad) : result (list Xad * list (Z * Z * Z)) :=
  let ext_offset := xad_offset x in
  let ext_length := xad_length x in
  let ext_addr := xad_address x in
  if ext_length =? 0 then Ok ([], [])
  else
    let ext_end := ext_offset + ext_length in
    if ext_end <=? start_fsb then Ok ([x], [])
    else if end_fsb <=? ext_offset then Ok ([x], [])
    else if (start_fsb <=? ext_offset) && (ext_end <=? end_fsb) then
      Ok ([], [(ext_offset, ext_length, ext_addr)])
    else if (ext_offset <? start_fsb) && (end_fsb <? ext_end) then
      let left_len := as_u32 (start_fsb - ext_offset) in
      let right_len := as_u32 (ext_end - end_fsb) in
      let! right_addr := add_u64 (ext_addr + left_len) (as_u64 (end_fsb - start_fsb)) in
      Ok ([xad_set_length x left_len;
           xad_set_address (xad_set_length (xad_set_offset x end_fsb) right_len) right_addr],
          [(start_fsb, as_u32 (end_fsb - start_fsb), ext_addr + left_len)])
    else if ext_offset <? start_fsb then
      let keep_len := as_u32 (start_fsb - ext_offset) in
      let! take_len := sub_u32 ext_length keep_len in
      Ok ([xad_set_length x keep_len], [(start_fsb, take_len, ext_addr + keep_len)])
    else
      let take_len := as_u32 (end_fsb - ext_offset) in
      let! keep_len := sub_u32 ext_length take_len in
      Ok ([xad_set_address (xad_set_length (xad_set_offset x end_fsb) keep_len) (ext_addr + take_len)],
          [(ext_offset, take_len, ext_addr)]).

Definition take_extents (start_fsb end_fsb : Z) (r : XtRoot) : result (list (Z * Z * Z) * XtRoot) :=
  update_slots (take_step start_fsb end_fsb) r.

(** ** [validate] and [split_extent] *)

Fixpoint validate_slots (slots : list Xad) (prev_end : Z) : bool :=
  match slots with
  | [] => true
  | x :: slots' =>
      if xad_length x =? 0 then validate_slots slots' prev_end
      else if xad_offset x <? prev_end then false
      else validate_slots slots' (xad_offset x + xad_length x)
  end.

Definition xt_validate (r : XtRoot) : outcome string unit :=
  if validate_slots (xt_slots r) 0 then Ok tt
  else Err "extent at index {} overlaps previous (offset={}, prev_end={})".

(** The first slot [i, i + 1, ..] that straddles [split_at]. *)
Fixpoint find_split (split_at : Z) (i : Z) (slots : list Xad) : option Z :=
  match slots with
  | [] => None
  | x :: slots' =>
      if (xad_offset x <? split_at) && (split_at <? xad_offset x + xad_length x) then Some i
      else find_split split_at (i + 1) slots'
  end.

Definition split_extent (split_at : Z) (r : XtRoot) : result (bool * XtRoot) :=
  if split_at <=? 0 then Ok (false, r)
  else
    let next_idx := xtroot_next_index r in
    match find_split split_at XTENTRYSTART (xt_slots r) with
    | None => Ok (false, r)
    | Some idx =>
        let! x := get (xt_xad r) idx in
        let keep_len := as_u32 (split_at - xad_offset x) in
        let! new_len := sub_u32 (xad_length x) keep_len in
        let new_addr := xad_address x + keep_len in
        let new_next := next_idx + 1 in
        if XTROOTMAXSLOT <? new_next then Ok (false, r)
        else
          let! xads := set (xt_xad r) idx (xad_set_length x keep_len) in
          let! xads :=
            if next_idx <? XTROOTMAXSLOT then
              let! y := get xads next_idx in
              set xads next_idx (fill_xad y split_at new_len new_addr 0)
            else Ok xads in
          Ok (true, xt_with_next r (as_u16 new_next) xads)
    end.
End update.

(** * Properties *)

(** ** The bytes of the inode *)

Section xt_bytes.
Context `{LES : LittleEndianSpec}.

Definition xad_bytes (x : Xad) : list byte :=
  [xad_flag x] ++ xad_rsvrd x ++ [xad_off1 x] ++ xad_off2 x ++ pxd_into_bytes (xad_loc x).

Lemma zlen_xad_bytes x : wf_xad x -> zlen (xad_bytes x) = 16.
Proof.
  intros (H1 & H2 & H3 & H4). unfold xad_bytes, pxd_into_bytes, zlen.
  rewrite !length_app, H1, H2, H3, H4. done.
Qed.

Lemma put_xad_ok buf base x :
  wf_xad x -> 0 <= base -> base + 16 <= zlen buf -> put_xad buf base x = Ok (zsplice buf base (xad_bytes x)).
Proof.
  intros (H1 & H2 & H3 & H4) Hb Hl. apply zlen_of_length in H1, H2, H3, H4. unfold put_xad, xad_bytes, pxd_into_bytes.
  rewrite set_splice by lia. cbn [obind].
  rewrite splice_ok by (rewrite ?zlen_zsplice; zl). cbn [obind]. rewrite zsplice_app by zl.
  rewrite set_splice by (rewrite ?zlen_zsplice; zl). cbn [obind]. rewrite zsplice_app by zl.
  rewrite splice_ok by (rewrite ?zlen_zsplice; zl). cbn [obind]. rewrite zsplice_app by zl.
  rewrite splice_ok by (rewrite ?zlen_zsplice; zl). cbn [obind]. rewrite zsplice_app by zl.
  rewrite splice_ok by (rewrite ?zlen_zsplice; zl). rewrite zsplice_app by zl. by rewrite <- !app_assoc.
Qed.

Lemma parse_xad_ok c :
  zlen c = 16 -> exists x, parse_xad c = Ok x /\ wf_xad x /\ xad_bytes x = c.
Proof.
  intros Hl. unfold parse_xad. rewrite Hl. cbn [Z.ltb Z.compare Pos.compare Pos.compare_cont].
  rewrite !get_ok, field_ok, slice_ok by (rewrite ?Hl; done). cbn [obind].
  eexists. split; [done|]. split.
  - split_and!; cbn [xad_rsvrd xad_off2 xad_loc]; [done|by apply length_zslice; rewrite ?Hl|apply wf_pxd_from_bytes].
  - unfold xad_bytes. cbn [xad_flag xad_rsvrd xad_off1 xad_off2 xad_loc app].
    rewrite pxd_into_from_bytes by (rewrite length_zslice; rewrite ?Hl; done).
    rewrite zslice_cat by (rewrite ?Hl; done). rewrite 4!(zslice_uncons c) by (rewrite ?Hl; done).
    by apply zslice_all.
Qed.

(** The array the parsing loop builds holds, slot by slot, the bytes of the buffer. *)
Lemma parse_xads_ok data k xads :
  zlen data = 288 -> 0 <= k <= 16 -> length xads = 18%nat -> Forall wf_xad xads ->
  exists xads', parse_xads data (range k 16) xads = Ok xads' /\ length xads' = 18%nat /\ Forall wf_xad xads' /\
    forall i, k <= i < 16 -> exists x, xads' !! Z.to_nat (2 + i) = Some x /\
      xad_bytes x = zslice data (32 + i * 16) (32 + i * 16 + 16).
Proof.
  intros Hd. remember (Z.to_nat (16 - k)) as n eqn:Hn. revert k xads Hn.
  assert (Hgen : forall n k xads, n = Z.to_nat (16 - k) -> 0 <= k <= 16 -> length xads = 18%nat -> Forall wf_xad xads ->
    exists xads', parse_xads data (range k 16) xads = Ok xads' /\ length xads' = 18%nat /\ Forall wf_xad xads' /\
    (forall i, (i < Z.to_nat (2 + k))%nat -> xads' !! i = xads !! i) /\
    forall i, k <= i < 16 -> exists x, xads' !! Z.to_nat (2 + i) = Some x /\
      xad_bytes x = zslice data (32 + i * 16) (32 + i * 16 + 16)).
  { clear n. induction n as [|n IH]; intros k xads Hn Hk Hl Hwf.
    { rewrite range_nil by lia. exists xads. split_and!; try done. intros; lia. }
    rewrite range_cons by lia. cbn [parse_xads]. rewrite Hd.
    destruct (Z.ltb_spec 288 (32 + k * 16 + 16)); [lia|].
    destruct (parse_xad_ok (zslice data (32 + k * 16) (32 + k * 16 + 16))) as (x & -> & Hx & Hb); [rewrite zlen_zslice; lia|].
    cbn [obind]. unfold XTENTRYSTART. rewrite set_ok by (unfold zlen; lia). cbn [obind].
    destruct (IH (k + 1) (<[Z.to_nat (2 + k):=x]> xads)) as (xads' & -> & Hl' & Hwf' & Hlow & Hhi);
      [lia|lia|by rewrite length_insert|by apply Forall_insert|].
    exists xads'. split_and!; try done.
    - intros i Hi. rewrite Hlow by lia. apply list_lookup_insert_ne. lia.
    - intros i Hi. destruct (decide (i = k)) as [->|]; [|apply Hhi; lia].
      exists x. split; [|done]. rewrite Hlow by lia. apply list_lookup_insert_eq. lia. }
  intros k xads Hn Hk Hl Hwf. destruct (Hgen n k xads Hn Hk Hl Hwf) as (xads' & ? & ? & ? & _ & ?). by exists xads'.
Qed.

Lemma put_xads_ok data xads k buf :
  zlen data = 288 -> zlen buf = 288 -> 0 <= k <= 16 -> length xads = 18%nat -> Forall wf_xad xads ->
  (forall i, k <= i < 16 -> exists x, xads !! Z.to_nat (2 + i) = Some x /\
     xad_bytes x = zslice data (32 + i * 16) (32 + i * 16 + 16)) ->
  zslice buf 0 (32 + k * 16) = zslice data 0 (32 + k * 16) ->
  put_xads xads (range k 16) buf = Ok data.
Proof.
  intros Hd Hb Hk Hl Hwf Hx Hpre. remember (Z.to_nat (16 - k)) as n eqn:Hn. revert k buf Hn Hb Hk Hx Hpre.
  induction n as [|n IH]; intros k buf Hn Hb Hk Hx Hpre.
  { rewrite range_nil by lia. cbn [put_xads]. f_equal.
    rewrite <- (zslice_all buf 288), <- (zslice_all data 288) by done. by replace 288 with (32 + k * 16) by lia. }
  rewrite range_cons by lia. cbn [put_xads]. unfold XTROOTMAXSLOT, XTENTRYSTART.
  destruct (Z.leb_spec 18 (2 + k)); [lia|].
  destruct (Hx k) as (x & Hlk & Hbytes); [lia|]. rewrite (get_lookup _ _ x) by (done || lia). cbn [obind].
  rewrite Hb. destruct (Z.ltb_spec 288 (32 + k * 16 + 16)); [lia|].
  assert (wf_xad x) as Hwx by (eapply Forall_lookup_1; done).
  rewrite put_xad_ok by (done || lia). cbn [obind]. pose proof (zlen_xad_bytes x Hwx) as Hz.
  apply IH; [lia|rewrite zlen_zsplice; lia|lia|intros i Hi; apply Hx; lia|].
  rewrite zslice_zsplice_prefix by lia. rewrite Hpre, Hbytes. apply eq_trans with (zslice data 0 (32 + k * 16 + 16)).
  - apply zslice_cat; lia.
  - f_equal. lia.
Qed.

Definition xth_bytes (h : XtHeader) : list byte :=
  xth_next h ++ xth_prev h ++ [xth_flag h] ++ [xth_rsrvd1 h] ++ xth_nextindex h ++ xth_maxentry h ++
  xth_rsrvd2 h ++ pxd_into_bytes (xth_self_pxd h).

Ltac put_next := rewrite ?splice_ok, ?set_splice by (rewrite ?zlen_zsplice; zl); cbn [obind];
  rewrite ?zsplice_app by zl.

Lemma zlen_xth_bytes h : wf_xth h -> zlen (xth_bytes h) = 32.
Proof.
  intros (H1 & H2 & H3 & H4 & H5 & H6 & H7). unfold xth_bytes, pxd_into_bytes, zlen.
  rewrite !length_app, H1, H2, H3, H4, H5, H6, H7. done.
Qed.

Lemma xt_to_bytes_header r :
  wf_xth (xt_header r) ->
  xt_to_bytes r = put_xads (xt_xad r) (range 0 16) (zsplice (zeros 288) 0 (xth_bytes (xt_header r))).
Proof.
  intros (H1 & H2 & H3 & H4 & H5 & H6 & H7). apply zlen_of_length in H1, H2, H3, H4, H5, H6, H7.
  assert (Hz : zlen (zeros 288) = 288) by apply zlen_replicate.
  unfold xt_to_bytes, xth_bytes, pxd_into_bytes. cbn zeta.
  do 9 put_next. by rewrite <- !app_assoc.
Qed.

Lemma xt_parse_print (data : list byte) :
  zlen data = 288 -> exists r, xt_from_inode_data data = Ok r /\ wf_xtroot r /\ xt_to_bytes r = Ok data.
Proof.
  intros Hd. unfold xt_from_inode_data, parse_xtroot. rewrite Hd.
  cbn [Z.ltb Z.compare Pos.compare Pos.compare_cont].
  rewrite !field_ok, !get_ok, slice_ok by (rewrite ?Hd; done). cbn [obind].
  change (saturating_sub XTROOTMAXSLOT XTENTRYSTART) with 16.
  destruct (parse_xads_ok data 0 (xt_xad xtroot_default)) as (xads & -> & Hl & Hwf & Hx);
    [done|lia|done|by apply Forall_replicate|].
  cbn [obind]. set (h := mkXtHeader _ _ _ _ _ _ _ _).
  assert (Hwfh : wf_xth h).
  { unfold wf_xth, h. cbn [xth_next xth_prev xth_nextindex xth_maxentry xth_rsrvd2 xth_self_pxd].
    split_and!; try (apply length_zslice; rewrite ?Hd; done); apply wf_pxd_from_bytes. }
  eexists. split; [done|]. split.
  { split; [|done]. cbn [xt_header]. exact Hwfh. }
  rewrite xt_to_bytes_header by exact Hwfh. cbn [xt_xad xt_header].
  assert (Hz : zlen (zeros 288) = 288) by apply zlen_replicate. pose proof (zlen_xth_bytes _ Hwfh) as Hz32.
  assert (Hbytes : xth_bytes h = zslice data 0 32).
  { unfold xth_bytes, h. cbn [xth_next xth_prev xth_flag xth_rsrvd1 xth_nextindex xth_maxentry xth_rsrvd2 xth_self_pxd app].
    rewrite pxd_into_from_bytes by (rewrite length_zslice; rewrite ?Hd; done).
    rewrite !zslice_cat by (rewrite ?Hd; done). rewrite 2!(zslice_uncons data) by (rewrite ?Hd; done).
    by rewrite !zslice_cat by (rewrite ?Hd; done). }
  apply put_xads_ok; [done|rewrite zlen_zsplice; lia|lia|done|done|done|].
  rewrite (zslice_zsplice_prefix _ _ 0 32) by lia. exact Hbytes.
Qed.

(** Parsing the 288 bytes of the tree root of an inode and writing it back
    gives the same bytes, and the parsed root is well formed. *)
Theorem xtroot_roundtrip (data : list byte) :
  zlen data = 288 -> exists r, xt_from_inode_data data = Ok r /\ wf_xtroot r /\ xt_to_bytes r = Ok data.
Proof. apply xt_parse_print. Qed.
End xt_bytes.

(** ** The block map *)

Section xt_map.
Context `{LES : LittleEndianSpec}.

(** The block of the device a list of slots gives to logical block [b]: the
    first slot that covers [b] decides. *)
Fixpoint phys (slots : list Xad) (b : Z) : option Z :=
  match slots with
  | [] => None
  | x :: slots' =>
      if decide (xad_offset x <= b < xad_offset x + xad_length x)
      then Some (xad_address x + (b - xad_offset x)) else phys slots' b
  end.

Lemma phys_app l k b : phys (l ++ k) b = match phys l b with Some a => Some a | None => phys k b end.
Proof. induction l as [|x l IH]; cbn [app phys]; [done|]. by case_decide. Qed.

Lemma xad_length_range x : 0 <= xad_length x < 2 ^ 24.
Proof. apply pxd_length_range. Qed.

Lemma xad_address_range x : wf_xad x -> 0 <= xad_address x < 2 ^ 40.
Proof. intros (_ & _ & H). by apply pxd_address_range. Qed.

Lemma wf_slots r : wf_xtroot r -> Forall wf_xad (xt_slots r).
Proof. intros (_ & _ & H). unfold xt_slots, zslice. by apply Forall_take, Forall_drop. Qed.

Lemma lookup_slots_phys fb slots b :
  Forall wf_xad slots ->
  match lookup_slots fb b slots with
  | Some e => phys slots b = Some (e_address e + (b - e_offset e)) /\
      e_offset e <= b < e_offset e + e_length e /\ 0 <= e_offset e < 2 ^ 40 /\
      0 <= e_length e < 2 ^ 24 /\ 0 <= e_address e < 2 ^ 40
  | None => phys slots b = None
  end.
Proof.
  intros Hwf. induction Hwf as [|x slots Hx Hwf IH]; cbn [lookup_slots phys]; [done|].
  pose proof (xad_offset_range x Hx). pose proof (xad_length_range x). pose proof (xad_address_range x Hx).
  rewrite as_u64_small by lia.
  destruct (Z.leb_spec (xad_offset x) b), (Z.ltb_spec b (xad_offset x + xad_length x)); cbn [andb].
  - rewrite decide_True by lia. cbn [e_address e_offset e_length].
    rewrite as_i64_small, as_u32_small by lia. done.
  - rewrite decide_False by lia. exact IH.
  - rewrite decide_False by lia. exact IH.
  - rewrite decide_False by lia. exact IH.
Qed.

(** The blocks a list of (address, count) pairs stands for. *)
Definition run_blocks (l : list (Z * Z)) : list Z := concat ((fun e => seqZ e.1 e.2) <$> l).

Lemma run_blocks_app l k : run_blocks (l ++ k) = run_blocks l ++ run_blocks k.
Proof. unfold run_blocks. by rewrite fmap_app, concat_app. Qed.

(** In a validated list the slot found for a block decides for all its blocks. *)
Lemma lookup_slots_extent fb slots p b e :
  Forall wf_xad slots -> validate_slots slots p = true -> lookup_slots fb b slots = Some e ->
  p <= e_offset e /\
  forall b', e_offset e <= b' < e_offset e + e_length e ->
    phys slots b' = Some (e_address e + (b' - e_offset e)).
Proof.
  intros Hwf. revert p. induction Hwf as [|x slots Hx Hwf IH]; intros p; cbn [lookup_slots validate_slots phys]; [done|].
  pose proof (xad_offset_range x Hx). pose proof (xad_length_range x).
  rewrite as_u64_small by lia. intros Hv Hl.
  destruct (Z.eqb_spec (xad_length x) 0) as [Hz|Hz].
  - destruct (_ && _) eqn:Hc; [lia|]. destruct (IH p Hv Hl) as [Hp Hb]. split; [done|].
    intros b' Hb'. rewrite decide_False by lia. by apply Hb.
  - destruct (Z.ltb_spec (xad_offset x) p); [done|]. destruct (_ && _) eqn:Hc.
    + injection Hl as <-. cbn [e_offset e_length e_address]. rewrite as_i64_small, as_u32_small by lia.
      split; [lia|]. intros b' Hb'. by rewrite decide_True by lia.
    + destruct (IH _ Hv Hl) as [Hp Hb]. split; [lia|].
      intros b' Hb'. rewrite decide_False by lia. by apply Hb.
Qed.

(** What the loop does from [current]: it appends runs for the blocks up to the
    first unmapped one, and one run at address 0 for all the rest. *)
Lemma map_blocks_loop_ok fb fuel r current stop acc :
  wf_xtroot r -> validate_slots (xt_slots r) 0 = true -> 0 <= current <= stop ->
  stop - current < Z.of_nat fuel ->
  exists runs k, 0 <= k /\ current + k <= stop /\
    (Some <$> run_blocks runs) = phys (xt_slots r) <$> seqZ current k /\
    Forall (fun e => 0 < e.2 < 2 ^ 24) runs /\
    ((current + k = stop /\ map_blocks_loop fb fuel r current stop acc = Some (Ok (acc ++ runs))) \/
     (current + k < stop /\ phys (xt_slots r) (current + k) = None /\
      map_blocks_loop fb fuel r current stop acc = Some (Ok (acc ++ runs ++ [(0, stop - (current + k))])))).
Proof.
  intros Hwf Hv. revert current acc. induction fuel as [|fuel IH]; intros current acc Hc Hf; [lia|].
  cbn [map_blocks_loop]. destruct (Z.ltb_spec current stop) as [Hlt|Hge].
  2:{ exists [], 0. rewrite app_nil_r. split_and!; try done; [lia|]. left. split; [lia|done]. }
  unfold xt_lookup. pose proof (lookup_slots_phys fb (xt_slots r) current (wf_slots r Hwf)) as Hl.
  destruct (lookup_slots fb current (xt_slots r)) as [e|] eqn:El.
  2:{ exists [], 0. rewrite Z.add_0_r. split_and!; try done; [lia|]. right. done. }
  destruct Hl as (_ & Hin & Ho & Hlen & Ha). rewrite as_u64_small by lia.
  destruct (lookup_slots_extent fb _ _ _ _ (wf_slots r Hwf) Hv El) as [_ Hext].
  set (t := Z.min (e_length e - (current - e_offset e)) (stop - current)).
  destruct (IH (current + t) (acc ++ [(e_address e + (current - e_offset e), t)]))
    as (runs & k & Hk & Hk2 & Hruns & Hfa & Hcases); [lia|lia|].
  exists ((e_address e + (current - e_offset e), t) :: runs), (t + k). split_and!; [lia|lia| | |].
  - rewrite seqZ_app by lia. rewrite fmap_app, <- Hruns.
    change (run_blocks ((e_address e + (current - e_offset e), t) :: runs))
      with (seqZ (e_address e + (current - e_offset e)) t ++ run_blocks runs).
    rewrite fmap_app. f_equal. apply list_eq. intros i. rewrite !list_lookup_fmap.
    destruct (decide (Z.of_nat i < t)) as [Hi|Hi].
    + rewrite !lookup_seqZ_lt by lia. cbn [fmap option_fmap option_map].
      rewrite Hext by lia. f_equal. f_equal. lia.
    + by rewrite !lookup_seqZ_ge by lia.
  - constructor; [cbn [snd]; lia|done].
  - rewrite Z.add_assoc. destruct Hcases as [[H1 ->]|(H1 & H2 & ->)].
    + left. split; [done|]. by rewrite <- app_assoc.
    + right. split_and!; [done|done|]. by rewrite <- app_assoc.
Qed.

Lemma map_blocks_ok fb offset length r :
  wf_xtroot r -> xt_validate r = Ok tt -> 0 <= offset -> 0 <= length -> offset + length < 2 ^ 64 ->
  exists runs k, 0 <= k <= length /\
    (Some <$> run_blocks runs) = phys (xt_slots r) <$> seqZ offset k /\
    Forall (fun e => 0 < e.2 < 2 ^ 24) runs /\
    ((k = length /\ map_blocks fb offset length r = Ok runs) \/
     (k < length /\ phys (xt_slots r) (offset + k) = None /\
      map_blocks fb offset length r = Ok (runs ++ [(0, length - k)]))).
Proof.
  intros Hwf Hv Ho Hl Hov. unfold xt_validate in Hv. destruct (validate_slots _ 0) eqn:Hvs; [|done].
  unfold map_blocks. rewrite add_u64_ok by lia. cbn [obind].
  destruct (map_blocks_loop_ok fb (S (Z.to_nat length)) r offset (offset + length) [] Hwf Hvs)
    as (runs & k & Hk & Hk2 & Hruns & Hfa & Hc); [lia|lia|].
  exists runs, k. split_and!; [lia|lia|done|done|].
  destruct Hc as [[H1 ->]|(H1 & H2 & ->)]; [left; split; [lia|done]|].
  right. split_and!; [lia|done|]. cbn [app]. do 3 f_equal. f_equal. lia.
Qed.

(** C36: on a valid tree [map_blocks] terminates and returns runs that cover the
    [length] blocks: the runs before the first unmapped block list, block by
    block, the device blocks the extents give; from the first unmapped block on
    there is a single run at address 0. *)
Theorem map_blocks_correct (from_bits_truncate : Z -> Z) (offset length : Z) (r : XtRoot) :
  wf_xtroot r -> xt_validate r = Ok tt -> 0 <= offset -> 0 <= length -> offset + length < 2 ^ 64 ->
  exists runs k, 0 <= k <= length /\
    (Some <$> run_blocks runs) = phys (xt_slots r) <$> seqZ offset k /\
    Forall (fun e => 0 < e.2 < 2 ^ 24) runs /\
    ((k = length /\ map_blocks from_bits_truncate offset length r = Ok runs) \/
     (k < length /\ phys (xt_slots r) (offset + k) = None /\
      map_blocks from_bits_truncate offset length r = Ok (runs ++ [(0, length - k)]))).
Proof. apply map_blocks_ok. Qed.

(** On blocks that are all mapped, the runs list their device blocks. *)
Lemma map_blocks_mapped (from_bits_truncate : Z -> Z) (offset length : Z) (r : XtRoot) (addrs : list Z) :
  wf_xtroot r -> xt_validate r = Ok tt -> 0 <= offset -> 0 <= length -> offset + length < 2 ^ 64 ->
  Some <$> addrs = phys (xt_slots r) <$> seqZ offset length ->
  exists runs, map_blocks from_bits_truncate offset length r = Ok runs /\ run_blocks runs = addrs /\ Forall (fun e => 0 < e.2 < 2 ^ 24) runs.
Proof.
  intros Hwf Hv Ho Hl Hov Haddrs. destruct (map_blocks_ok from_bits_truncate offset length r Hwf Hv Ho Hl Hov) as (runs & k & Hk & Hruns & Hfa & Hc).
  assert (Hmapped : forall j, 0 <= j < length -> phys (xt_slots r) (offset + j) <> None).
  { intros j Hj Hnone. assert ((Some <$> addrs) !! Z.to_nat j = Some None) as Hlk.
    { rewrite Haddrs, list_lookup_fmap, lookup_seqZ_lt by lia. cbn [fmap option_fmap option_map]. rewrite Z2Nat.id by lia. by rewrite Hnone. }
    rewrite list_lookup_fmap in Hlk. by destruct (addrs !! Z.to_nat j). }
  destruct Hc as [[-> Hm]|(Hlt & Hnone & _)]; [|by exfalso; apply (Hmapped k); [lia|]].
  exists runs. split_and!; try done. apply (inj (fmap Some)). by rewrite Hruns, Haddrs.
Qed.

(** ** Writing slots back *)

Lemma write_kept_fold (kept : list Xad) j xs :
  (2 + j + length kept <= length xs)%nat -> length xs = 18%nat ->
  fold_left (fun xs '(i, x) =>
      let idx := XTENTRYSTART + Z.of_nat i in
      if idx <? XTROOTMAXSLOT then <[Z.to_nat idx := x]> xs else xs) (imap (fun i x => (j + i, x)%nat) kept) xs =
  zsplice xs (2 + Z.of_nat j) kept.
Proof.
  revert j xs. induction kept as [|x kept IH]; intros j xs Hl Hx; cbn [imap fold_left length] in *.
  { unfold zsplice. cbn [length app]. rewrite Nat.add_0_r. by rewrite take_drop. }
  rewrite Nat.add_0_r. unfold XTENTRYSTART, XTROOTMAXSLOT in *.
  destruct (Z.ltb_spec (2 + Z.of_nat j) 18); [|lia].
  rewrite (imap_ext _ (fun i x => (S j + i, x)%nat)) by (intros i y _; apply (f_equal (fun n => (n, y))); unfold compose; lia).
  pose proof (IH (S j) (<[Z.to_nat (2 + Z.of_nat j):=x]> xs)) as IH'. unfold compose.
  rewrite IH' by (rewrite ?length_insert; lia).
  pose proof (@set_splice StorageError _ xs (2 + Z.of_nat j) x) as Hs.
  rewrite set_ok in Hs by (unfold zlen; lia). injection Hs as ->; [|unfold zlen; lia].
  rewrite zsplice_app; [done|lia|unfold zlen; simpl; lia|unfold zlen; lia].
Qed.

Lemma clear_fold (idxs : list Z) xs n :
  Forall wf_xad xs -> (forall i, i ∈ idxs -> n <= i) -> 0 <= n ->
  let xs' := fold_left (fun xs idx => <[Z.to_nat idx := xad_default]> xs) idxs xs in
  length xs' = length xs /\ Forall wf_xad xs' /\ zslice xs' 0 n = zslice xs 0 n.
Proof.
  intros Hwf Hi Hn. cbn zeta. revert xs Hwf. induction idxs as [|i idxs IH]; intros xs Hwf; cbn [fold_left]; [done|].
  destruct (IH ltac:(intros; apply Hi; by right) (<[Z.to_nat i := xad_default]> xs)) as (H1 & H2 & H3).
  { by apply Forall_insert. }
  rewrite length_insert in H1. split_and!; [done|done|]. rewrite H3.
  specialize (Hi i (list_elem_of_here _ _)).
  apply list_eq. intros k. rewrite !lookup_zslice by lia. case_decide; [|done].
  apply list_lookup_insert_ne. lia.
Qed.

Lemma xtroot_next_set r n xads : 0 <= n < 2 ^ 16 -> xtroot_next_index (xt_with_next r n xads) = n.
Proof. intros. apply read_write_u16. done. Qed.

Lemma wf_xth_set_next h n : wf_xth h -> 0 <= n < 2 ^ 16 -> wf_xth (xth_set_nextindex h n).
Proof.
  intros (?&?&?&?&?&?) Hn. unfold wf_xth. cbn [xth_set_nextindex xth_next xth_prev xth_nextindex xth_maxentry xth_rsrvd2 xth_self_pxd].
  split_and!; try done. by apply length_write_u16.
Qed.

Lemma write_kept_ok kept r :
  wf_xtroot r -> Forall wf_xad kept -> zlen kept <= 16 ->
  wf_xtroot (write_kept kept r) /\ xt_slots (write_kept kept r) = kept /\
  xtroot_next_index (write_kept kept r) = 2 + zlen kept.
Proof.
  intros (Hh & Hl & Hwf) Hk Hz. pose proof (zlen_nonneg kept). unfold zlen in Hz.
  unfold write_kept. rewrite as_u16_small by (unfold XTENTRYSTART, zlen; lia).
  rewrite (imap_ext pair (fun i x => (0 + i, x)%nat)) by done.
  rewrite write_kept_fold by lia. change (2 + Z.of_nat 0) with 2.
  set (xs := zsplice (xt_xad r) 2 kept).
  assert (Hxl : length xs = 18%nat) by (unfold xs; rewrite length_zsplice; unfold zlen; lia).
  assert (Hxw : Forall wf_xad xs).
  { unfold xs, zsplice. rewrite !Forall_app. split_and!; [by apply Forall_take|done|by apply Forall_drop]. }
  destruct (clear_fold (range (XTENTRYSTART + zlen kept) (Z.min (xtroot_next_index r) XTROOTMAXSLOT)) xs
              (2 + zlen kept) Hxw) as (H1 & H2 & H3); [intros i; rewrite elem_of_range; unfold XTENTRYSTART; lia|lia|].
  rewrite Hxl in H1. split_and!.
  - split_and!; [|done|done]. apply wf_xth_set_next; [done|]. unfold XTENTRYSTART, zlen. lia.
  - unfold xt_slots. rewrite xtroot_next_set by (unfold XTENTRYSTART, zlen; lia).
    unfold XTENTRYSTART, XTROOTMAXSLOT, zlen in *. cbn [xt_with_next xt_xad].
    replace (Z.min (2 + Z.of_nat (length kept)) 18) with (2 + Z.of_nat (length kept)) by lia.
    set (xs' := fold_left _ _ xs) in *.
    replace (zslice xs' 2 (2 + Z.of_nat (length kept)))
      with (zslice (zslice xs' 0 (2 + Z.of_nat (length kept))) 2 (2 + Z.of_nat (length kept)))
      by (rewrite zslice_zslice by lia; done).
    rewrite H3, zslice_zslice by lia. apply zslice_zsplice_same; unfold zlen; lia.
  - apply xtroot_next_set. unfold XTENTRYSTART, zlen. lia.
Qed.

(** ** Truncating, punching and taking *)

(** A relation between slots, kept slots and results that composes along the
    list holds of the whole loop when it holds of every slot. *)
Lemma slots_loop_rel {T} (R : list Xad -> list Xad -> list T -> Prop) step slots :
  R [] [] [] ->
  (forall x s k ks t ts, R [x] k t -> R s ks ts -> R (x :: s) (k ++ ks) (t ++ ts)) ->
  (forall x, x ∈ slots -> exists k t, step x = Ok (k, t) /\ R [x] k t) ->
  exists ks ts, slots_loop step slots = Ok (ks, ts) /\ R slots ks ts.
Proof.
  intros H0 Happ. induction slots as [|x slots IH]; intros Hs; cbn [slots_loop]; [by exists [], []|].
  destruct (Hs x (list_elem_of_here _ _)) as (k & t & -> & HR). cbn [obind].
  destruct IH as (ks & ts & -> & HRs); [intros y Hy; apply Hs; by right|]. cbn [obind].
  exists (k ++ ks), (t ++ ts). split; [done|]. by apply Happ.
Qed.

(** The device blocks of a list of slots. *)
Definition slot_blocks (slots : list Xad) : list Z :=
  concat ((fun x => seqZ (xad_address x) (xad_length x)) <$> slots).

Lemma slot_blocks_app l k : slot_blocks (l ++ k) = slot_blocks l ++ slot_blocks k.
Proof. unfold slot_blocks. by rewrite fmap_app, concat_app. Qed.

(** The map a list of (offset, length, address) triples stands for. *)
Fixpoint triple_phys (l : list (Z * Z * Z)) (b : Z) : option Z :=
  match l with
  | [] => None
  | (o, n, a) :: l' => if decide (o <= b < o + n) then Some (a + (b - o)) else triple_phys l' b
  end.

Lemma triple_phys_app l k b :
  triple_phys (l ++ k) b = match triple_phys l b with Some a => Some a | None => triple_phys k b end.
Proof. induction l as [|[[o n] a] l IH]; cbn [app triple_phys]; [done|]. by case_decide. Qed.

(** What the three operations have in common: the kept slots are well formed
    and map exactly the blocks [keep] accepts, as before. *)
Definition keeps (keep : Z -> bool) (slots kept : list Xad) : Prop :=
  Forall wf_xad kept /\ forall b, phys kept b = if keep b then phys slots b else None.

Lemma keeps_app keep x s k ks : keeps keep [x] k -> keeps keep s ks -> keeps keep (x :: s) (k ++ ks).
Proof.
  intros [H1 H2] [H3 H4]. split; [by apply Forall_app|]. intros b. rewrite phys_app, H2, H4. cbn [phys].
  destruct (keep b); [|done]. by case_decide.
Qed.

(** Fields of the edited slots. *)
Lemma xad_edit_length x n :
  wf_xad x -> 0 <= n < 2 ^ 24 ->
  let y := xad_set_length x n in
  wf_xad y /\ xad_length y = n /\ xad_offset y = xad_offset x /\ xad_address y = xad_address x.
Proof.
  intros Hx Hn. destruct (Hx) as (_ & _ & Hp). cbn zeta. unfold xad_length, xad_address. cbn [xad_set_length xad_loc].
  rewrite pxd_length_set_length, pxd_address_set_length, Z.mod_small by done.
  split_and!; try done. by apply wf_xad_set_length.
Qed.

Lemma xad_edit_all x o n a :
  wf_xad x -> 0 <= o < 2 ^ 40 -> 0 <= n < 2 ^ 24 -> 0 <= a < 2 ^ 40 ->
  let y := xad_set_address (xad_set_length (xad_set_offset x o) n) a in
  wf_xad y /\ xad_length y = n /\ xad_offset y = o /\ xad_address y = a.
Proof.
  intros Hx Ho Hn Ha. cbn zeta. pose proof (wf_xad_set_offset x o Hx) as Hx1. destruct (Hx) as (_ & _ & Hp).
  split_and!.
  - by apply wf_xad_set_address, wf_xad_set_length.
  - unfold xad_length. cbn [xad_set_address xad_set_length xad_set_offset xad_loc].
    rewrite pxd_length_set_address, pxd_length_set_length by auto using wf_pxd_set_length. by apply Z.mod_small.
  - change (xad_offset (xad_set_address (xad_set_length (xad_set_offset x o) n) a)) with (xad_offset (xad_set_offset x o)).
    rewrite xad_offset_set_offset by done. by apply Z.mod_small.
  - unfold xad_address. cbn [xad_set_address xad_set_length xad_set_offset xad_loc].
    rewrite pxd_address_set_address by auto using wf_pxd_set_length. by apply Z.mod_small.
Qed.

Lemma keeps_self (keep : Z -> bool) x :
  wf_xad x -> (forall b, xad_offset x <= b < xad_offset x + xad_length x -> keep b = true) -> keeps keep [x] [x].
Proof.
  intros Hx Hk. split; [by constructor|]. intros b. cbn [phys]. case_decide as Hb; [by rewrite Hk|]. by case_match.
Qed.

Lemma keeps_none (keep : Z -> bool) x :
  (forall b, xad_offset x <= b < xad_offset x + xad_length x -> keep b = false) -> keeps keep [x] [].
Proof.
  intros Hk. split; [constructor|]. intros b. cbn [phys]. case_decide as Hb; [by rewrite Hk|]. by case_match.
Qed.

(** A part of [x]: the blocks from [o] on, at the same place on the device. *)
Lemma keeps_part (keep : Z -> bool) x y :
  wf_xad y -> xad_offset x <= xad_offset y ->
  xad_offset y + xad_length y <= xad_offset x + xad_length x ->
  xad_address y - xad_offset y = xad_address x - xad_offset x ->
  (forall b, xad_offset x <= b < xad_offset x + xad_length x ->
     keep b = bool_decide (xad_offset y <= b < xad_offset y + xad_length y)) -> keeps keep [x] [y].
Proof.
  intros Hy H1 H2 H3 Hk. split; [by constructor|]. intros b. cbn [phys].
  destruct (decide (xad_offset x <= b < xad_offset x + xad_length x)) as [Hb|Hb].
  - rewrite Hk by done. case_bool_decide; case_decide; try lia; try done. f_equal. lia.
  - rewrite decide_False by lia. by case_match.
Qed.

Lemma slots_bound r : wf_xtroot r -> zlen (xt_slots r) <= 16.
Proof.
  intros (_ & Hl & _). unfold xt_slots, zslice, zlen, XTENTRYSTART, XTROOTMAXSLOT.
  rewrite length_take, length_drop. lia.
Qed.

(** *** Truncation *)

Lemma truncate_step_ok eof x :
  wf_xad x -> exists k t, truncate_step eof x = Ok (k, t) /\ zlen k <= 1 /\
    keeps (fun b => b <? eof) [x] k /\ slot_blocks k ++ run_blocks t = slot_blocks [x].
Proof.
  intros Hx. pose proof (xad_offset_range x Hx). pose proof (xad_length_range x). pose proof (xad_address_range x Hx).
  unfold truncate_step, slot_blocks, run_blocks. cbn [fmap list_fmap concat]. rewrite app_nil_r.
  destruct (Z.eqb_spec (xad_length x) 0) as [Hz|Hz].
  { exists [], []. split_and!; [done|done|apply keeps_none; lia|]. by rewrite Hz. }
  destruct (Z.leb_spec eof (xad_offset x)) as [He|He].
  { eexists _, _. split_and!; [done|done| |].
    - apply keeps_none. intros b Hb. by apply Z.ltb_ge; lia.
    - cbn [fmap list_fmap concat fst snd app]. by rewrite app_nil_r. }
  destruct (Z.ltb_spec eof (xad_offset x + xad_length x)) as [He2|He2].
  - rewrite !as_u32_small by lia. eexists _, _. split_and!; [done|done| |].
    + destruct (xad_edit_length x (eof - xad_offset x)) as (Hw & H1' & H2' & H3'); [done|lia|].
      apply keeps_part; [done|lia|lia|lia|]. intros b Hb. rewrite H1', H2'.
      case_bool_decide; [apply Z.ltb_lt|apply Z.ltb_ge]; lia.
    + cbn [fmap list_fmap concat fst snd]. destruct (xad_edit_length x (eof - xad_offset x)) as (_ & -> & _ & ->); [done|lia|].
      rewrite !app_nil_r. rewrite <- seqZ_app by lia. f_equal. lia.
  - eexists _, _. split_and!; [done|done| |].
    + apply keeps_self; [done|]. intros b Hb. apply Z.ltb_lt. lia.
    + cbn [fmap list_fmap concat app]. by rewrite !app_nil_r.
Qed.

(** [truncate_extents] cuts the map of the file at the new end: the blocks
    before it keep their device blocks, the blocks from it on are unmapped, and
    the device blocks of the tree are split, none lost and none duplicated,
    between the remaining tree and the returned list of freed runs. *)
Theorem truncate_extents_correct (eof : Z) (r : XtRoot) :
  wf_xtroot r ->
  exists freed r', truncate_extents eof r = Ok (freed, r') /\ wf_xtroot r' /\
    (forall b, phys (xt_slots r') b = if b <? eof then phys (xt_slots r) b else None) /\
    slot_blocks (xt_slots r') ++ run_blocks freed ≡ₚ slot_blocks (xt_slots r).
Proof.
  intros Hwf. unfold truncate_extents, update_slots.
  destruct (slots_loop_rel (fun s k t => zlen k <= zlen s /\ keeps (fun b => b <? eof) s k /\
              slot_blocks k ++ run_blocks t ≡ₚ slot_blocks s) (truncate_step eof) (xt_slots r))
    as (ks & ts & -> & Hlen & [Hkw Hphys] & Hblk).
  - split_and!; [done| |done]. split; [constructor|]. intros b. by case_match.
  - intros x s k ks t ts (Hl1 & Hk1 & Hb1) (Hl2 & Hk2 & Hb2). split_and!.
    + rewrite zlen_app. rewrite zlen_cons in *. change (zlen []) with 0 in *. lia.
    + by apply keeps_app.
    + change (x :: s) with ([x] ++ s). rewrite !slot_blocks_app, run_blocks_app, <- Hb1, <- Hb2. solve_Permutation.
  - intros x Hx. destruct (truncate_step_ok eof x) as (k & t & -> & ? & ? & Hb);
      [eapply Forall_forall; [by apply wf_slots|done]|].
    exists k, t. split_and!; try done. by rewrite Hb.
  - cbn [obind]. pose proof (slots_bound r Hwf).
    destruct (write_kept_ok ks r Hwf Hkw) as (Hw & Hs & _); [lia|].
    exists ts, (write_kept ks r). rewrite Hs. done.
Qed.

(** *** Punching and taking a range *)

Definition in_range (s e b : Z) : bool := (s <=? b) && (b <? e).

Lemma in_range_spec s e b : in_range s e b = bool_decide (s <= b < e).
Proof. unfold in_range. destruct (Z.leb_spec s b), (Z.ltb_spec b e); symmetry; case_bool_decide; lia || done. Qed.

(** The slot covers the whole range and more on both sides. *)
Definition spans (s e : Z) (x : Xad) : Prop := xad_offset x < s /\ e < xad_offset x + xad_length x.
#[local] Instance spans_dec s e x : Decision (spans s e x).
Proof. unfold spans. apply _. Defined.

(** What a slot [x] becomes under a removal of the blocks of [s, e): the kept
    slots map the other blocks, and the removed blocks are one run. *)
Definition removal (s e : Z) (x : Xad) (k : list Xad) (lo n : Z) : Prop :=
  keeps (fun b => negb (in_range s e b)) [x] k /\
  zlen k <= 1 + (if decide (spans s e x) then 1 else 0) /\
  0 <= n /\ (n <> 0 -> xad_offset x <= lo) /\
  (forall b, lo <= b < lo + n <-> s <= b < e /\ xad_offset x <= b < xad_offset x + xad_length x) /\
  slot_blocks k ++ seqZ (xad_address x + (lo - xad_offset x)) n ≡ₚ slot_blocks [x].

Lemma slot_blocks_one x : slot_blocks [x] = seqZ (xad_address x) (xad_length x).
Proof. unfold slot_blocks. cbn [fmap list_fmap concat]. by rewrite app_nil_r. Qed.

Lemma removal_outside s e x :
  wf_xad x -> s <= e -> xad_offset x + xad_length x <= s \/ e <= xad_offset x -> removal s e x [x] (xad_offset x) 0.
Proof.
  intros Hx Hse Ho. pose proof (xad_length_range x). split_and!; try done.
  - apply keeps_self; [done|]. intros b Hb. rewrite in_range_spec, negb_true_iff. apply bool_decide_eq_false. lia.
  - rewrite zlen_cons, zlen_nil. case_decide; lia.
  - intros b. lia.
  - rewrite seqZ_nil, app_nil_r by lia. done.
Qed.

Lemma removal_inside s e x :
  s <= xad_offset x -> xad_offset x + xad_length x <= e -> removal s e x [] (xad_offset x) (xad_length x).
Proof.
  intros H1 H2. pose proof (xad_length_range x). split_and!; try done; try lia; try (intros b; lia).
  - apply keeps_none. intros b Hb. rewrite in_range_spec, negb_false_iff. apply bool_decide_eq_true. lia.
  - rewrite zlen_nil. case_decide; lia.
  - rewrite slot_blocks_one, Z.sub_diag, Z.add_0_r. done.
Qed.

Lemma removal_left s e x :
  wf_xad x -> xad_offset x < s < xad_offset x + xad_length x -> xad_offset x + xad_length x <= e ->
  removal s e x [xad_set_length x (s - xad_offset x)] s (xad_length x - (s - xad_offset x)).
Proof.
  intros Hx H1 H2. pose proof (xad_length_range x).
  destruct (xad_edit_length x (s - xad_offset x)) as (Hw & Hl & Ho & Ha); [done|lia|].
  split_and!; try lia; try (intros b; lia).
  - apply keeps_part; [done|lia|lia|lia|]. intros b Hb. rewrite Hl, Ho, in_range_spec.
    do 2 case_bool_decide; simpl; lia || done.
  - rewrite zlen_cons, zlen_nil. case_decide; lia.
  - rewrite !slot_blocks_one, Hl, Ha, <- seqZ_app by lia. f_equiv. lia.
Qed.

Lemma removal_right s e x :
  wf_xad x -> s <= xad_offset x -> xad_offset x < e < xad_offset x + xad_length x -> xad_address x + xad_length x <= 2 ^ 40 ->
  xad_offset x + xad_length x <= 2 ^ 40 ->
  removal s e x [xad_set_address (xad_set_length (xad_set_offset x e) (xad_offset x + xad_length x - e))
                   (xad_address x + (e - xad_offset x))] (xad_offset x) (e - xad_offset x).
Proof.
  intros Hx H1 H2 H3 H4. pose proof (xad_length_range x). pose proof (xad_address_range x Hx). pose proof (xad_offset_range x Hx).
  destruct (xad_edit_all x e (xad_offset x + xad_length x - e) (xad_address x + (e - xad_offset x)))
    as (Hw & Hl & Ho & Ha); [done|lia|lia|lia|].
  split_and!; try lia; try (intros b; lia).
  - apply keeps_part; [done|lia|lia|lia|]. intros b Hb. rewrite Hl, Ho, in_range_spec.
    do 2 case_bool_decide; simpl; lia || done.
  - rewrite zlen_cons, zlen_nil. case_decide; lia.
  - rewrite !slot_blocks_one, Hl, Ha, Z.sub_diag, Z.add_0_r. rewrite Permutation_app_comm, <- seqZ_app by lia. f_equiv. lia.
Qed.

Lemma removal_middle s e x :
  wf_xad x -> s <= e -> spans s e x -> xad_address x + xad_length x <= 2 ^ 40 -> xad_offset x + xad_length x <= 2 ^ 40 ->
  removal s e x [xad_set_length x (s - xad_offset x);
                 xad_set_address (xad_set_length (xad_set_offset x e) (xad_offset x + xad_length x - e))
                   (xad_address x + (s - xad_offset x) + (e - s))] s (e - s).
Proof.
  intros Hx Hse [H1 H2] H3 H4. pose proof (xad_length_range x). pose proof (xad_address_range x Hx). pose proof (xad_offset_range x Hx).
  destruct (xad_edit_length x (s - xad_offset x)) as (Hw & Hl & Ho & Ha); [done|lia|].
  destruct (xad_edit_all x e (xad_offset x + xad_length x - e) (xad_address x + (s - xad_offset x) + (e - s)))
    as (Hw' & Hl' & Ho' & Ha'); [done|lia|lia|lia|].
  set (y := xad_set_length x _) in *. set (z := xad_set_address _ _) in *.
  split_and!; try lia; try (intros b; lia).
  - split; [by rewrite !Forall_cons|]. intros b. cbn [phys]. rewrite Hl, Ho, Ha, Hl', Ho', Ha', in_range_spec.
    case_bool_decide; simpl; repeat case_decide; try lia; try done; f_equal; lia.
  - rewrite !zlen_cons, zlen_nil. rewrite decide_True by done. lia.
  - unfold slot_blocks. cbn [fmap list_fmap concat]. rewrite Hl, Ha, Hl', Ha', !app_nil_r.
    rewrite <- app_assoc, (Permutation_app_comm (seqZ (_ + _ + _) _)).
    rewrite <- seqZ_app by lia. rewrite <- seqZ_app by lia. f_equiv. lia.
Qed.

(** The slots of a tree whose extents end within the 40-bit fields. *)
Definition extents_fit (r : XtRoot) : Prop :=
  Forall (fun x => xad_offset x + xad_length x <= 2 ^ 40 /\ xad_address x + xad_length x <= 2 ^ 40) (xt_slots r).

Lemma take_step_ok s e x :
  wf_xad x -> s <= e -> xad_offset x + xad_length x <= 2 ^ 40 /\ xad_address x + xad_length x <= 2 ^ 40 ->
  exists k t, take_step s e x = Ok (k, t) /\
    keeps (fun b => negb (in_range s e b)) [x] k /\ zlen k <= 1 + (if decide (spans s e x) then 1 else 0) /\
    (forall b, triple_phys t b = if in_range s e b then phys [x] b else None) /\
    slot_blocks k ++ run_blocks ((fun '(o, n, a) => (a, n)) <$> t) ≡ₚ slot_blocks [x].
Proof.
  intros Hx Hse [Hfo Hfa]. pose proof (xad_length_range x). pose proof (xad_address_range x Hx). pose proof (xad_offset_range x Hx).
  assert (Hout : forall k t lo n, removal s e x k lo n ->
    (t = [] /\ n = 0 \/ t = [(lo, n, xad_address x + (lo - xad_offset x))]) ->
    keeps (fun b => negb (in_range s e b)) [x] k /\ zlen k <= 1 + (if decide (spans s e x) then 1 else 0) /\
    (forall b, triple_phys t b = if in_range s e b then phys [x] b else None) /\
    slot_blocks k ++ run_blocks ((fun '(o, n, a) => (a, n)) <$> t) ≡ₚ slot_blocks [x]).
  { intros k t lo n (Hk & Hz & Hn & Hlo & Hb & Hp) Ht. split_and!; [done|done| |].
    - intros b. specialize (Hb b). rewrite in_range_spec. cbn [phys].
      destruct Ht as [[-> ->]| ->]; cbn [triple_phys]; case_bool_decide; repeat case_decide; try lia; try done; f_equal; lia.
    - destruct Ht as [[-> ->]| ->]; unfold run_blocks; cbn [fmap list_fmap concat fst snd]; rewrite ?app_nil_r.
      + rewrite seqZ_nil, app_nil_r in Hp by lia. done.
      + done. }
  unfold take_step. destruct (Z.eqb_spec (xad_length x) 0) as [Hz|Hz].
  { eexists _, _. split; [done|]. split_and!.
    - apply keeps_none. lia.
    - rewrite zlen_nil. case_decide; lia.
    - intros b. cbn [triple_phys phys]. rewrite decide_False by lia. by destruct (in_range s e b).
    - rewrite slot_blocks_one, Hz. done. }
  destruct (Z.leb_spec (xad_offset x + xad_length x) s) as [H1'|H1'].
  { eexists _, _. split; [done|]. eapply Hout; [apply removal_outside; auto|by left]. }
  destruct (Z.leb_spec e (xad_offset x)) as [H2'|H2'].
  { eexists _, _. split; [done|]. eapply Hout; [apply removal_outside; auto|by left]. }
  destruct (Z.leb_spec s (xad_offset x)) as [H3'|H3'], (Z.leb_spec (xad_offset x + xad_length x) e) as [H4'|H4'];
    destruct (Z.ltb_spec (xad_offset x) s), (Z.ltb_spec e (xad_offset x + xad_length x)); try lia; cbn [andb].
  - eexists _, _. split; [done|]. eapply Hout; [by apply removal_inside|]. right. do 2 f_equal. lia.
  - rewrite as_u32_small by lia. rewrite sub_u32_ok by lia. cbn [obind].
    replace (xad_length x - (e - xad_offset x)) with (xad_offset x + xad_length x - e) by lia.
    eexists _, _. split; [done|]. eapply Hout; [by apply removal_right|]. right. do 2 f_equal. lia.
  - rewrite as_u32_small by lia. rewrite sub_u32_ok by lia. cbn [obind].
    eexists _, _. split; [done|]. eapply Hout; [by apply removal_left|]. right. done.
  - rewrite !as_u32_small, as_u64_small, add_u64_ok by lia. cbn [obind].
    eexists _, _. split; [done|]. eapply Hout; [by apply removal_middle|]. right. done.
Qed.

(** [take_extents] with room for the pieces: the tree afterwards maps the
    blocks outside [[start, end)] as before and no block inside, the returned
    triples map exactly the blocks inside as the tree did, and the device
    blocks are divided between the two, none lost and none duplicated. *)
Theorem take_extents_correct (s e : Z) (r : XtRoot) :
  wf_xtroot r -> extents_fit r -> s <= e ->
  zlen (xt_slots r) + zlen (filter (spans s e) (xt_slots r)) <= 16 ->
  exists taken r', take_extents s e r = Ok (taken, r') /\ wf_xtroot r' /\
    (forall b, phys (xt_slots r') b = if in_range s e b then None else phys (xt_slots r) b) /\
    (forall b, triple_phys taken b = if in_range s e b then phys (xt_slots r) b else None) /\
    slot_blocks (xt_slots r') ++ run_blocks ((fun '(o, n, a) => (a, n)) <$> taken) ≡ₚ slot_blocks (xt_slots r).
Proof.
  intros Hwf Hfit Hse Hroom. unfold take_extents, update_slots.
  destruct (slots_loop_rel (fun sl k t => zlen k <= zlen sl + zlen (filter (spans s e) sl) /\
              keeps (fun b => negb (in_range s e b)) sl k /\
              (forall b, triple_phys t b = if in_range s e b then phys sl b else None) /\
              slot_blocks k ++ run_blocks ((fun '(o, n, a) => (a, n)) <$> t) ≡ₚ slot_blocks sl)
              (take_step s e) (xt_slots r))
    as (ks & ts & -> & Hlen & [Hkw Hphys] & Htr & Hblk).
  - split_and!; [done| | |done]; [split; [constructor|]|]; intros b; by case_match.
  - intros x sl k ks t ts (Hl1 & Hk1 & Ht1 & Hb1) (Hl2 & Hk2 & Ht2 & Hb2). split_and!.
    + rewrite zlen_app. change (x :: sl) with ([x] ++ sl). rewrite filter_app, !zlen_app. lia.
    + by apply keeps_app.
    + intros b. rewrite triple_phys_app, Ht1, Ht2. cbn [phys]. destruct (in_range s e b); [|done]. by case_decide.
    + change (x :: sl) with ([x] ++ sl). rewrite fmap_app, !slot_blocks_app, run_blocks_app, <- Hb1, <- Hb2. solve_Permutation.
  - intros x Hx. destruct (take_step_ok s e x) as (k & t & -> & Hk & Hz & Ht & Hb);
      [eapply Forall_forall; [by apply wf_slots|done]|done|exact (proj1 (Forall_forall _ _) Hfit x Hx)|].
    exists k, t. split_and!; try done. rewrite filter_cons, filter_nil. destruct (decide (spans s e x)); unfold zlen in *; simpl in *; lia.
  - cbn [obind]. destruct (write_kept_ok ks r Hwf Hkw) as (Hw & Hs & _); [lia|].
    exists ts, (write_kept ks r). rewrite Hs. split_and!; try done. intros b. rewrite Hphys. by destruct (in_range s e b).
Qed.

Lemma punch_step_ok s e x :
  wf_xad x -> s <= e -> ~ spans s e x ->
  xad_offset x + xad_length x <= 2 ^ 40 /\ xad_address x + xad_length x <= 2 ^ 40 ->
  exists k t, punch_step s e x = Ok (k, t) /\
    keeps (fun b => negb (in_range s e b)) [x] k /\ zlen k <= 1 /\
    slot_blocks k ++ run_blocks t ≡ₚ slot_blocks [x].
Proof.
  intros Hx Hse Hsp [Hfo Hfa]. pose proof (xad_length_range x). pose proof (xad_address_range x Hx). pose proof (xad_offset_range x Hx).
  assert (Hout : forall k t lo n, removal s e x k lo n ->
    (t = [] /\ n = 0 \/ t = [(xad_address x + (lo - xad_offset x), n)]) ->
    keeps (fun b => negb (in_range s e b)) [x] k /\ zlen k <= 1 /\
    slot_blocks k ++ run_blocks t ≡ₚ slot_blocks [x]).
  { intros k t lo n (Hk & Hz & Hn & Hlo & Hb & Hp) Ht. rewrite decide_False in Hz by done. split_and!; [done|lia|].
    destruct Ht as [[-> ->]| ->]; unfold run_blocks; cbn [fmap list_fmap concat fst snd]; rewrite ?app_nil_r; [|done].
    rewrite seqZ_nil, app_nil_r in Hp by lia. done. }
  unfold punch_step. destruct (Z.eqb_spec (xad_length x) 0) as [Hz|Hz].
  { eexists _, _. split; [done|]. split_and!; [apply keeps_none; lia|done|]. by rewrite slot_blocks_one, Hz. }
  destruct (Z.leb_spec (xad_offset x + xad_length x) s) as [H1'|H1'].
  { eexists _, _. split; [done|]. eapply Hout; [apply removal_outside; auto|by left]. }
  destruct (Z.leb_spec e (xad_offset x)) as [H2'|H2'].
  { eexists _, _. split; [done|]. eapply Hout; [apply removal_outside; auto|by left]. }
  destruct (Z.leb_spec s (xad_offset x)) as [H3'|H3'], (Z.leb_spec (xad_offset x + xad_length x) e) as [H4'|H4'];
    destruct (Z.ltb_spec (xad_offset x) s), (Z.ltb_spec e (xad_offset x + xad_length x)); try lia; cbn [andb].
  - eexists _, _. split; [done|]. eapply Hout; [by apply removal_inside|]. right. do 2 f_equal. lia.
  - rewrite !as_u32_small by lia.
    eexists _, _. split; [done|]. eapply Hout; [by apply removal_right|]. right. do 2 f_equal. lia.
  - rewrite as_u32_small by lia. rewrite sub_u32_ok by lia. cbn [obind].
    eexists _, _. split; [done|]. eapply Hout; [by apply removal_left|]. right. done.
  - exfalso. by apply Hsp.
Qed.

(** [punch_extents], when no extent reaches over both ends of the range:
    the blocks of the range are unmapped, all others keep their device blocks,
    and the device blocks are divided between the tree and the freed runs. *)
Theorem punch_extents_correct (s e : Z) (r : XtRoot) :
  wf_xtroot r -> extents_fit r -> s <= e -> Forall (fun x => ~ spans s e x) (xt_slots r) ->
  exists freed r', punch_extents s e r = Ok (freed, r') /\ wf_xtroot r' /\
    (forall b, phys (xt_slots r') b = if in_range s e b then None else phys (xt_slots r) b) /\
    slot_blocks (xt_slots r') ++ run_blocks freed ≡ₚ slot_blocks (xt_slots r).
Proof.
  intros Hwf Hfit Hse Hns. unfold punch_extents, update_slots.
  destruct (slots_loop_rel (fun sl k t => zlen k <= zlen sl /\ keeps (fun b => negb (in_range s e b)) sl k /\
              slot_blocks k ++ run_blocks t ≡ₚ slot_blocks sl) (punch_step s e) (xt_slots r))
    as (ks & ts & -> & Hlen & [Hkw Hphys] & Hblk).
  - split_and!; [done| |done]. split; [constructor|]; intros b; by case_match.
  - intros x sl k ks t ts (Hl1 & Hk1 & Hb1) (Hl2 & Hk2 & Hb2). split_and!.
    + change (x :: sl) with ([x] ++ sl). rewrite !zlen_app. lia.
    + by apply keeps_app.
    + change (x :: sl) with ([x] ++ sl). rewrite !slot_blocks_app, run_blocks_app, <- Hb1, <- Hb2. solve_Permutation.
  - intros x Hx. destruct (punch_step_ok s e x) as (k & t & -> & Hk & Hz & Hb);
      [eapply Forall_forall; [by apply wf_slots|done]|done|exact (proj1 (Forall_forall _ _) Hns x Hx)
      |exact (proj1 (Forall_forall _ _) Hfit x Hx)|].
    by exists k, t.
  - cbn [obind]. pose proof (slots_bound r Hwf). destruct (write_kept_ok ks r Hwf Hkw) as (Hw & Hs & _); [lia|].
    exists ts, (write_kept ks r). rewrite Hs. split_and!; try done. intros b. rewrite Hphys. by destruct (in_range s e b).
Qed.

(** A hole punched in the middle of an extent: [punch_extents] reports the
    device blocks of the hole as freed, but maps the block after the hole to the
    first of them, no longer to the block it was stored in. *)
Theorem punch_middle_maps_freed_block (s e : Z) (r : XtRoot) (x : Xad) :
  wf_xtroot r -> xt_slots r = [x] -> s < e -> spans s e x ->
  xad_offset x + xad_length x <= 2 ^ 40 -> xad_address x + xad_length x <= 2 ^ 40 ->
  exists r', punch_extents s e r = Ok ([(xad_address x + (s - xad_offset x), e - s)], r') /\
    phys (xt_slots r') e = Some (xad_address x + (s - xad_offset x)) /\
    phys (xt_slots r) e = Some (xad_address x + (e - xad_offset x)).
Proof.
  intros Hwf Hsl Hse Hsp Hfo Hfa. pose proof (wf_slots r Hwf) as Hws. rewrite Hsl in Hws. apply Forall_cons in Hws as [Hx _].
  pose proof (xad_length_range x). pose proof (xad_address_range x Hx). pose proof (xad_offset_range x Hx).
  destruct (Hsp) as [H2 H3]. unfold punch_extents, update_slots. rewrite Hsl. cbn [slots_loop]. unfold punch_step at 1.
  destruct (Z.eqb_spec (xad_length x) 0); [lia|]. destruct (Z.leb_spec (xad_offset x + xad_length x) s); [lia|].
  destruct (Z.leb_spec e (xad_offset x)); [lia|]. destruct (Z.leb_spec s (xad_offset x)); [lia|].
  destruct (Z.ltb_spec (xad_offset x) s); [|lia]. destruct (Z.ltb_spec e (xad_offset x + xad_length x)); [|lia].
  cbn [andb obind app]. rewrite !as_u32_small by lia.
  destruct (xad_edit_length x (s - xad_offset x)) as (Hw & Hl & Ho & Ha); [done|lia|].
  destruct (xad_edit_all x e (xad_offset x + xad_length x - e) (xad_address x + (s - xad_offset x)))
    as (Hw' & Hl' & Ho' & Ha'); [done|lia|lia|lia|].
  set (y := xad_set_length x _) in *. set (z := xad_set_address _ _) in *.
  eexists. split; [done|]. destruct (write_kept_ok [y; z] r Hwf) as (_ & -> & _); [by rewrite !Forall_cons|done|].
  cbn [phys]. rewrite Hl, Ho, Ha, Hl', Ho', Ha'. rewrite !decide_False, !decide_True by lia.
  rewrite Z.sub_diag, Z.add_0_r. done.
Qed.

(** *** Insertion *)

(** The end of the last extent [validate] has seen. *)
Fixpoint validate_end (slots : list Xad) (p : Z) : Z :=
  match slots with
  | [] => p
  | x :: slots' => validate_end slots' (if xad_length x =? 0 then p else xad_offset x + xad_length x)
  end.

Lemma validate_app l k p : validate_slots (l ++ k) p = validate_slots l p && validate_slots k (validate_end l p).
Proof.
  revert p. induction l as [|x l IH]; intros p; cbn [app validate_slots validate_end]; [done|].
  destruct (xad_length x =? 0); [apply IH|]. destruct (xad_offset x <? p); [done|apply IH].
Qed.

Lemma validate_end_le l p lo :
  p <= lo -> Forall (fun x => xad_offset x + xad_length x <= lo) l -> validate_end l p <= lo.
Proof.
  intros Hp Hl. revert p Hp. induction Hl as [|x l Hx Hl IH]; intros p Hp; cbn [validate_end]; [done|].
  apply IH. by case_match.
Qed.

Lemma phys_none_above l lo b :
  Forall (fun x => xad_offset x + xad_length x <= lo) l -> lo <= b -> phys l b = None.
Proof. intros Hl Hb. induction Hl as [|x l Hx Hl IH]; cbn [phys]; [done|]. rewrite decide_False by lia. done. Qed.

Lemma fill_xad_fields x lo len pa fl :
  wf_xad x -> 0 <= lo < 2 ^ 40 -> 0 <= len < 2 ^ 24 -> 0 <= pa < 2 ^ 40 ->
  let y := fill_xad x lo len pa fl in
  wf_xad y /\ xad_length y = len /\ xad_offset y = lo /\ xad_address y = pa.
Proof. intros Hx Ho Hl Hp. exact (xad_edit_all x lo len pa Hx Ho Hl Hp). Qed.

Lemma next_index_range r : wf_xtroot r -> 0 <= xtroot_next_index r < 2 ^ 16.
Proof. intros ((_ & _ & H & _) & _). by apply read_u16_range. Qed.

Lemma append_extent_ok lo len pa fl r :
  wf_xtroot r -> 0 <= lo < 2 ^ 40 -> 0 <= len < 2 ^ 24 -> 0 <= pa < 2 ^ 40 ->
  (18 <= xtroot_next_index r /\ append_extent lo len pa fl r = Ok (false, r)) \/
  (exists r' y, append_extent lo len pa fl r = Ok (true, r') /\ wf_xtroot r' /\ xt_slots r' = xt_slots r ++ [y] /\
     wf_xad y /\ xad_length y = len /\ xad_offset y = lo /\ xad_address y = pa).
Proof.
  intros Hwf Hlo Hlen Hpa. pose proof (next_index_range r Hwf) as Hn. destruct (Hwf) as (Hh & Hl & Hx).
  unfold append_extent. cbn zeta. set (n := xtroot_next_index r) in *. unfold XTROOTMAXSLOT, XTENTRYSTART.
  destruct (Z.leb_spec 18 n) as [Hf|Hf]; [by left|]. right.
  set (idx := if n <=? 2 then 2 else n).
  assert (Hidx : 2 <= idx < 18 /\ idx = Z.max 2 n) by (unfold idx; destruct (Z.leb_spec n 2); lia).
  destruct (lookup_lt_is_Some_2 (xt_xad r) (Z.to_nat idx)) as [x Hlk]; [lia|].
  rewrite (get_lookup _ _ x) by (done || lia). cbn [obind]. rewrite set_splice by (unfold zlen; lia). cbn [obind].
  assert (wf_xad x) as Hwx by (eapply Forall_lookup_1; done).
  pose proof (fill_xad_fields x lo len pa fl Hwx Hlo Hlen Hpa) as (Hwy & Hfy). set (y := fill_xad x lo len pa fl) in *.
  eexists _, y. split; [done|]. split_and!; try done.
  - split_and!; cbn [xt_with_next xt_xad xt_header].
    + apply wf_xth_set_next; [done|lia].
    + rewrite length_zsplice; [done|lia|unfold zlen; simpl; lia].
    + unfold zsplice. rewrite !Forall_app, Forall_cons.
      split_and!; [by apply Forall_take|done|constructor|by apply Forall_drop].
  - unfold xt_slots. rewrite xtroot_next_set by lia. fold n. unfold XTROOTMAXSLOT, XTENTRYSTART. cbn [xt_with_next xt_xad].
    assert (Hz : zlen (xt_xad r) = 18) by (unfold zlen; lia).
    assert (Hy : zlen [y] = 1) by done.
    replace (Z.min (idx + 1) 18) with (idx + 1) by lia.
    rewrite <- (zslice_cat _ 2 idx (idx + 1)) by (rewrite ?zlen_zsplice; lia).
    rewrite zslice_zsplice_disjoint, zslice_zsplice_same by lia. f_equal.
    destruct (Z.leb_spec n 2).
    + unfold zslice. replace (Z.to_nat (idx - 2)) with 0%nat by lia. by replace (Z.to_nat (Z.min n 18 - 2)) with 0%nat by lia.
    + f_equal. lia.
  - apply Hfy.
  - apply Hfy.
  - apply Hfy.
Qed.

(** The tree after the extension of its last slot. *)
Lemma replace_last_ok r last y :
  wf_xtroot r -> wf_xad y -> 2 < xtroot_next_index r <= 18 ->
  xt_xad r !! Z.to_nat (xtroot_next_index r - 1) = Some last ->
  let r' := mkXtRoot (xt_header r) (<[Z.to_nat (xtroot_next_index r - 1) := y]> (xt_xad r)) in
  wf_xtroot r' /\ exists pre, xt_slots r = pre ++ [last] /\ xt_slots r' = pre ++ [y].
Proof.
  intros (Hh & Hl & Hx) Hy Hn Hlk. cbn zeta. set (n := xtroot_next_index r) in *. split.
  - split_and!; cbn [xt_xad xt_header]; [done|by rewrite length_insert|by apply Forall_insert].
  - assert (Hz : zlen (xt_xad r) = 18) by (unfold zlen; lia).
    exists (zslice (xt_xad r) 2 (n - 1)). unfold xt_slots. cbn [xt_xad].
    change (xtroot_next_index (mkXtRoot (xt_header r) _)) with n. fold n. unfold XTENTRYSTART, XTROOTMAXSLOT.
    replace (Z.min n 18) with n by lia.
    assert (Hone : forall l : list Xad, zlen l = 18 -> forall v, l !! Z.to_nat (n - 1) = Some v -> zslice l 2 n = zslice l 2 (n - 1) ++ [v]).
    { intros l Hll v Hv. rewrite <- (zslice_cat l 2 (n - 1) n) by lia. f_equal.
      unfold zslice. replace (Z.to_nat (n - (n - 1))) with 1%nat by lia.
      rewrite (drop_S _ _ _ Hv). done. }
    split; [by apply Hone|]. rewrite (Hone _ ltac:(by rewrite zlen_insert) y).
    + f_equal. apply list_eq. intros i. rewrite !lookup_zslice by lia. case_decide; [|done].
      apply list_lookup_insert_ne. lia.
    + apply list_lookup_insert_eq. lia.
Qed.

Lemma insert_extent_ok (lo len pa : Z) (r : XtRoot) :
  wf_xtroot r -> xt_validate r = Ok tt -> xtroot_next_index r <= 18 ->
  0 <= lo < 2 ^ 40 -> 0 < len < 2 ^ 24 -> 0 <= pa < 2 ^ 40 ->
  Forall (fun x => xad_offset x + xad_length x <= lo /\ xad_length x + len < 2 ^ 24) (xt_slots r) ->
  (xtroot_next_index r = 18 /\ insert_extent lo len pa r = Ok (false, r)) \/
  (exists r', insert_extent lo len pa r = Ok (true, r') /\ wf_xtroot r' /\ xt_validate r' = Ok tt /\
     forall b, phys (xt_slots r') b = if in_range lo (lo + len) b then Some (pa + (b - lo)) else phys (xt_slots r) b).
Proof.
  intros Hwf Hv Hn18 Hlo Hlen Hpa Hall. pose proof (next_index_range r Hwf) as Hn.
  assert (Hend : Forall (fun x => xad_offset x + xad_length x <= lo) (xt_slots r)) by (eapply Forall_impl; [done|by intros x []]).
  unfold xt_validate in Hv. destruct (validate_slots (xt_slots r) 0) eqn:Hvs; [|done].
  assert (Happ : (xtroot_next_index r = 18 /\ append_extent lo len pa XAD_NEW r = Ok (false, r)) \/
    (exists r', append_extent lo len pa XAD_NEW r = Ok (true, r') /\ wf_xtroot r' /\ xt_validate r' = Ok tt /\
     forall b, phys (xt_slots r') b = if in_range lo (lo + len) b then Some (pa + (b - lo)) else phys (xt_slots r) b)).
  { destruct (append_extent_ok lo len pa XAD_NEW r) as [[? ?]|(r' & y & Hr & Hw & Hs & Hwy & Hl & Ho & Ha)];
      [done|lia|lia|lia|left; split; [lia|done]|]. right. exists r'. split_and!; [done|done| |].
    - unfold xt_validate. rewrite Hs, validate_app, Hvs. cbn [andb validate_slots]. rewrite Hl, Ho.
      pose proof (validate_end_le (xt_slots r) 0 lo ltac:(lia) Hend).
      destruct (Z.eqb_spec len 0); [lia|]. destruct (Z.ltb_spec lo (validate_end (xt_slots r) 0)); [lia|done].
    - intros b. rewrite Hs, phys_app, in_range_spec. cbn [phys]. rewrite Hl, Ho, Ha.
      case_bool_decide as Hb.
      + rewrite (phys_none_above _ lo) by (done || lia). by rewrite decide_True by lia.
      + destruct (phys (xt_slots r) b); [done|]. by rewrite decide_False by lia. }
  unfold insert_extent. cbn zeta. unfold XTENTRYSTART, XTROOTMAXSLOT.
  destruct (Z.ltb_spec 2 (xtroot_next_index r)) as [H2|H2]; [|exact Happ].
  destruct (Z.leb_spec 18 (xtroot_next_index r - 1)); [lia|].
  destruct (lookup_lt_is_Some_2 (xt_xad r) (Z.to_nat (xtroot_next_index r - 1))) as [x Hlk]; [destruct Hwf as (_ & -> & _); lia|].
  rewrite (get_lookup _ _ x) by (done || lia). cbn [obind].
  destruct ((_ =? _) && (_ =? _)) eqn:Hc; [|exact Happ]. clear Happ. apply andb_true_iff in Hc as [Hc1 Hc2]. right.
  assert (wf_xad x) as Hwx by (destruct Hwf as (_ & _ & ?); eapply Forall_lookup_1; done).
  destruct (replace_last_ok r x x Hwf Hwx ltac:(lia) Hlk) as (_ & pre & Hpre & _).
  assert (xad_length x + len < 2 ^ 24).
  { rewrite Hpre, Forall_app, Forall_cons in Hall. lia. }
  pose proof (xad_length_range x). rewrite add_u32_ok by lia. cbn [obind].
  rewrite set_ok by (destruct Hwf as (_ & Hl18 & _); unfold zlen; lia). cbn [obind].
  destruct (xad_edit_length x (xad_length x + len)) as (Hwy & Hly & Hoy & Hay); [done|lia|].
  destruct (replace_last_ok r x (xad_set_length x (xad_length x + len))) as (Hwf' & pre' & Hpre' & Hnew);
    [done|done|lia|done|].
  assert (pre' = pre) as -> by (rewrite Hpre in Hpre'; by apply app_inj_tail in Hpre' as [-> _]).
  eexists. split; [done|]. split_and!; [done| |].
  - unfold xt_validate. rewrite Hnew, validate_app. rewrite Hpre, validate_app in Hvs. apply andb_true_iff in Hvs as [-> Hlast].
    cbn [andb validate_slots] in *. rewrite Hly, Hoy. destruct (Z.eqb_spec (xad_length x + len) 0); [lia|].
    destruct (Z.ltb_spec (xad_offset x) (validate_end pre 0)); [|done].
    rewrite Hpre, Forall_app in Hend. pose proof (validate_end_le pre 0 lo ltac:(lia) (proj1 Hend)).
    destruct (Z.eqb_spec (xad_length x) 0); [lia|done].
  - intros b. rewrite Hnew, Hpre, !phys_app, in_range_spec. cbn [phys]. rewrite Hly, Hoy, Hay.
    rewrite Hpre, Forall_app in Hend. case_bool_decide as Hb.
    + rewrite (phys_none_above pre lo) by (lia || apply Hend). rewrite decide_True by lia. f_equal. lia.
    + destruct (phys pre b); [done|]. repeat case_decide; try done; lia.
Qed.

End xt_map.

(** ** Reading file data *)

Section xt_read.
Context `{LES : LittleEndianSpec} {D : Type} {SD : Storage D} {SS : StorageSpec D} {SR : StorageReliable D}.
Variable from_bits_truncate : Z -> Z.

(** The two nested loops as one loop over the device blocks. *)
Fixpoint read_flat (check : nat -> bool) (addrs : list Z) (st : ReadState) : ST D StorageError ReadState :=
  match addrs with
  | [] => sret st
  | a :: addrs' =>
      if rd_remaining st =? 0 then sret st
      else if check (rd_checks st) then sfail Interrupted
      else
        let* data := read_block a in
        let to_copy := Z.min (BLOCK_SIZE - rd_buf_offset st) (rd_remaining st) in
        let* part := slift (slice data (rd_buf_offset st) (rd_buf_offset st + to_copy)) in
        read_flat check addrs' (mkRead (rd_result st ++ part) (rd_remaining st - to_copy) 0 (S (rd_checks st)))
  end.

Lemma read_flat_app check l1 l2 st d :
  read_flat check (l1 ++ l2) st d = sbind (read_flat check l1 st) (read_flat check l2) d.
Proof.
  revert st d. induction l1 as [|a l1 IH]; intros st d; cbn [app read_flat]; [done|].
  destruct (rd_remaining st =? 0) eqn:Hr.
  - unfold sbind, sret. destruct l2; cbn [read_flat]; [done|]. by rewrite Hr.
  - destruct (check _); [done|]. unfold sbind in *. destruct (read_block a d) as [[data| |] d1]; try done.
    unfold slift. destruct (slice _ _ _); done || apply IH.
Qed.

Lemma read_extent_flat check a i n st d :
  0 <= a -> 0 <= i -> a + n <= 2 ^ 64 ->
  read_extent check a (range i n) st d = read_flat check (seqZ (a + i) (n - i)) st d.
Proof.
  intros Ha Hi Hn. remember (Z.to_nat (n - i)) as k eqn:Hk. revert i st d Hk Hi.
  induction k as [|k IH]; intros i st d Hk Hi.
  { rewrite range_nil, seqZ_nil by lia. done. }
  rewrite range_cons, seqZ_cons by lia. cbn [read_extent read_flat].
  destruct (rd_remaining st =? 0); [done|]. destruct (check _); [done|].
  rewrite add_u64_ok by lia. rewrite (sbind_ok _ _ _ _ _ (eq_refl : slift (Ok (a + i)) d = (Ok (a + i), d))).
  unfold sbind. destruct (read_block (a + i) d) as [[data| |] d1]; try done.
  unfold slift. destruct (slice _ _ _); try done. rewrite IH by lia. f_equal. f_equal; lia.
Qed.

Lemma read_extents_flat check runs st d :
  Forall (fun e => 0 < e.1 /\ 0 < e.2 /\ e.1 + e.2 <= 2 ^ 64) runs ->
  read_extents check runs st d = read_flat check (run_blocks runs) st d.
Proof.
  intros Hr. revert st d. induction Hr as [|[a n] runs (Ha & Hn & Hb) Hr IH]; intros st d; cbn [read_extents]; [done|].
  cbn [fst snd] in *. destruct (Z.eqb_spec a 0); [lia|].
  change (run_blocks ((a, n) :: runs)) with (seqZ a n ++ run_blocks runs).
  rewrite read_flat_app. unfold sbind. rewrite read_extent_flat by lia. rewrite Z.add_0_r, Z.sub_0_r.
  destruct (read_flat check (seqZ a n) st d) as [[st'| |] d']; try done.
Qed.

Lemma read_flat_ok addrs st (d : D) :
  st_wf d -> 0 <= rd_remaining st -> 0 <= rd_buf_offset st < BLOCK_SIZE ->
  Forall (fun a => 0 <= a /\ a * BLOCK_SIZE + BLOCK_SIZE <= zlen (contents d)) addrs ->
  exists st' d', read_flat (fun _ => false) addrs st d = (Ok st', d') /\ st_wf d' /\ contents d' = contents d /\
    rd_result st' = rd_result st ++ take (Z.to_nat (rd_remaining st))
                      (drop (Z.to_nat (rd_buf_offset st)) (concat (block_at (contents d) <$> addrs))).
Proof.
  revert st d. induction addrs as [|a addrs IH]; intros st d Hd Hr Hb Ha; cbn [read_flat fmap list_fmap concat].
  { exists st, d. split_and!; try done. rewrite drop_nil, take_nil, app_nil_r. done. }
  destruct (Z.eqb_spec (rd_remaining st) 0) as [Hz|Hz].
  { exists st, d. split_and!; try done. rewrite Hz. by rewrite take_0, app_nil_r. }
  apply Forall_cons in Ha as [[Ha0 Har] Ha].
  pose proof (st_read_block_ok a d Hd Ha0 Har) as Hok. destruct (st_read_block a d Hd Ha0) as (Hd1 & Hc1 & _).
  unfold sbind. destruct (read_block a d) as [o d1]. cbn [fst snd] in *. subst o.
  assert (Hlen : zlen (block_at (contents d) a) = BLOCK_SIZE) by (unfold block_at; rewrite zlen_zslice; unfold BLOCK_SIZE, PSIZE in *; lia).
  set (blk := block_at (contents d) a) in *. set (n := Z.min (BLOCK_SIZE - rd_buf_offset st) (rd_remaining st)).
  rewrite slice_ok by lia. unfold slift.
  destruct (IH (mkRead (rd_result st ++ zslice blk (rd_buf_offset st) (rd_buf_offset st + n)) (rd_remaining st - n) 0 (S (rd_checks st))) d1)
    as (st' & d' & Hrun & Hd' & Hc' & Hres); cbn [rd_remaining rd_buf_offset]; [done|lia|lia|by rewrite Hc1|].
  exists st', d'. split_and!; [done|done|congruence|]. rewrite Hres. cbn [rd_result rd_remaining rd_buf_offset].
  rewrite drop_0, Hc1, <- app_assoc. f_equal. unfold zslice, zlen in *.
  replace (Z.to_nat (rd_buf_offset st + n - rd_buf_offset st)) with (Z.to_nat n) by lia.
  rewrite drop_app_le by lia. rewrite take_app. rewrite length_drop. f_equal.
  - destruct (decide (n = rd_remaining st)) as [->|]; [done|]. rewrite !take_ge; [done|rewrite length_drop; lia..].
  - f_equal. lia.
Qed.

Lemma read_data_ok (offset length : Z) (r : XtRoot) (addrs : list Z) (d : D) :
  wf_xtroot r -> xt_validate r = Ok tt -> st_wf d ->
  0 <= offset -> 0 <= length -> offset + length + 2 * BLOCK_SIZE < 2 ^ 64 ->
  Some <$> addrs = phys (xt_slots r) <$>
    seqZ (offset / BLOCK_SIZE) ((length + offset mod BLOCK_SIZE + BLOCK_SIZE - 1) / BLOCK_SIZE) ->
  Forall (fun a => 0 < a /\ a * BLOCK_SIZE + BLOCK_SIZE <= zlen (contents d)) addrs ->
  let file := concat (block_at (contents d) <$> addrs) in
  exists d', read_data from_bits_truncate offset length r d =
    (Ok (zslice file (offset mod BLOCK_SIZE) (offset mod BLOCK_SIZE + length)), d') /\ contents d' = contents d.
Proof.
  intros Hwf Hv Hd Ho Hl Hov Haddrs Hin file. unfold read_data, read_data_checked.
  pose proof (Z.mod_pos_bound offset BLOCK_SIZE ltac:(done)) as Hm.
  pose proof (Z.div_pos offset BLOCK_SIZE Ho ltac:(done)) as Hq.
  pose proof (Z.div_mod offset BLOCK_SIZE ltac:(done)) as Hdm. unfold BLOCK_SIZE, PSIZE in Hov, Hm, Hq, Hdm.
  set (cnt := (length + offset mod BLOCK_SIZE + BLOCK_SIZE - 1) / BLOCK_SIZE) in *.
  assert (Hcnt : 0 <= cnt /\ cnt * 4096 <= length + offset mod 4096 + 4095).
  { unfold cnt, BLOCK_SIZE, PSIZE. split; [apply Z.div_pos; lia|]. pose proof (Z.mul_div_le (length + offset mod 4096 + 4096 - 1) 4096). lia. }
  do 2 (rewrite add_u64_ok by (unfold BLOCK_SIZE, PSIZE; lia); erewrite sbind_ok by reflexivity). fold cnt.
  destruct (map_blocks_mapped from_bits_truncate (offset / BLOCK_SIZE) cnt r addrs Hwf Hv Hq (proj1 Hcnt)) as (runs & -> & Hrb & Hfa);
    [unfold BLOCK_SIZE, PSIZE; lia|done|].
  erewrite sbind_ok by reflexivity.
  assert (Hpos : Forall (fun e => 0 < e.1 /\ 0 < e.2 /\ e.1 + e.2 <= 2 ^ 64) runs).
  { pose proof (st_bound d Hd) as Hbd. rewrite <- Hrb in Hin. clear -Hfa Hin Hbd.
    induction Hfa as [|[a n] runs Hn Hfa IH]; [constructor|]. cbn [fst snd] in *.
    change (run_blocks ((a, n) :: runs)) with (seqZ a n ++ run_blocks runs) in Hin.
    apply Forall_app in Hin as [Hin1 Hin2]. constructor; [|by apply IH]. cbn [fst snd].
    rewrite Forall_seqZ in Hin1. pose proof (Hin1 a ltac:(lia)). pose proof (Hin1 (a + n - 1) ltac:(lia)). unfold BLOCK_SIZE, PSIZE in *. lia. }
  unfold sbind at 1. rewrite read_extents_flat by done. rewrite Hrb.
  destruct (read_flat_ok addrs (mkRead [] length (offset mod BLOCK_SIZE) 0) d) as (st' & d' & -> & _ & Hc' & Hres);
    [done|done|exact Hm|eapply Forall_impl; [done|intros a []; split; [lia|done]]|].
  exists d'. split; [|done]. unfold sret. do 2 f_equal. rewrite Hres. cbn [rd_result rd_remaining rd_buf_offset app].
  rewrite take_take. unfold zslice. fold file. f_equal. lia.
Qed.

(** [read_data] of a byte range whose blocks are all mapped, on a valid tree
    and a device that answers, returns exactly the bytes of that range of the
    file: the bytes [offset, offset + length) of the concatenation of the
    device blocks the tree gives to the file's blocks. *)
Theorem read_data_correct (offset length : Z) (r : XtRoot) (addrs : list Z) (d : D) :
  wf_xtroot r -> xt_validate r = Ok tt -> st_wf d ->
  0 <= offset -> 0 <= length -> offset + length + 2 * BLOCK_SIZE < 2 ^ 64 ->
  Some <$> addrs = phys (xt_slots r) <$>
    seqZ (offset / BLOCK_SIZE) ((length + offset mod BLOCK_SIZE + BLOCK_SIZE - 1) / BLOCK_SIZE) ->
  Forall (fun a => 0 < a /\ a * BLOCK_SIZE + BLOCK_SIZE <= zlen (contents d)) addrs ->
  let file := concat (block_at (contents d) <$> addrs) in
  exists d', read_data from_bits_truncate offset length r d =
    (Ok (zslice file (offset mod BLOCK_SIZE) (offset mod BLOCK_SIZE + length)), d') /\ contents d' = contents d.
Proof. apply read_data_ok. Qed.
End xt_read.

(** * Witnesses *)

(** A file of four blocks, at blocks 1 to 4 of the device. *)
Definition small_tree : XtRoot :=
  match insert_extent (LE := le_codec) 0 4 1 xtroot_default with Ok (_, r) => r | _ => xtroot_default end.

Lemma small_tree_wf : wf_xtroot small_tree.
Proof. vm_compute. split_and!; [done..|]. repeat (apply Forall_cons; split; [done|]). constructor. Qed.

Lemma small_tree_valid : xt_validate (LE := le_codec) small_tree = Ok tt.
Proof. reflexivity. Qed.

Lemma small_tree_slot :
  exists x, xt_slots (LE := le_codec) small_tree = [x] /\ xad_offset (LE := le_codec) x = 0 /\
    xad_length (LE := le_codec) x = 4 /\ xad_address (LE := le_codec) x = 1.
Proof. eexists. split; [reflexivity|]. done. Qed.

Lemma small_tree_fit : extents_fit (LE := le_codec) small_tree.
Proof.
  destruct small_tree_slot as (x & Hs & Ho & Hl & Ha). unfold extents_fit. rewrite Hs.
  apply Forall_cons. rewrite Ho, Hl, Ha. split; [done|constructor].
Qed.

Lemma xtroot_roundtrip_witness :
  exists r, xt_from_inode_data (zeros 288) = Ok r /\ xt_to_bytes r = Ok (zeros 288).
Proof.
  destruct (xtroot_roundtrip (zeros 288)) as (r & H1 & _ & H2); [apply zlen_replicate|]. by exists r.
Defined.

Lemma map_blocks_correct_witness :
  exists runs k, 0 <= k <= 6 /\
    (k = 6 /\ map_blocks (LE := le_codec) id 1 6 small_tree = Ok runs \/
     k < 6 /\ map_blocks (LE := le_codec) id 1 6 small_tree = Ok (runs ++ [(0, 6 - k)])).
Proof.
  destruct (map_blocks_correct (LES := le_codec_spec) id 1 6 small_tree small_tree_wf small_tree_valid)
    as (runs & k & Hk & _ & _ & Hc); [done|done|done|]. exists runs, k. split; [done|]. naive_solver.
Defined.

Lemma truncate_extents_correct_witness :
  exists freed r', truncate_extents (LE := le_codec) 2 small_tree = Ok (freed, r') /\
    phys (LE := le_codec) (xt_slots (LE := le_codec) r') 1 = Some 2 /\
    phys (LE := le_codec) (xt_slots (LE := le_codec) r') 2 = None.
Proof.
  destruct (truncate_extents_correct (LES := le_codec_spec) 2 small_tree small_tree_wf) as (f & r' & H1 & _ & H2 & _).
  exists f, r'. split_and!; [done|rewrite H2; reflexivity|rewrite H2; reflexivity].
Defined.

Lemma take_extents_correct_witness :
  exists taken r', take_extents (LE := le_codec) 1 3 small_tree = Ok (taken, r') /\
    triple_phys taken 2 = Some 3 /\ phys (LE := le_codec) (xt_slots (LE := le_codec) r') 3 = Some 4.
Proof.
  destruct (take_extents_correct (LES := le_codec_spec) 1 3 small_tree small_tree_wf small_tree_fit)
    as (t & r' & H1 & _ & H2 & H3 & _); [done|vm_compute; done|].
  exists t, r'. split_and!; [done|rewrite H3; reflexivity|rewrite H2; reflexivity].
Defined.

Lemma punch_extents_correct_witness :
  exists freed r', punch_extents (LE := le_codec) 2 4 small_tree = Ok (freed, r') /\
    phys (LE := le_codec) (xt_slots (LE := le_codec) r') 1 = Some 2.
Proof.
  destruct (punch_extents_correct (LES := le_codec_spec) 2 4 small_tree small_tree_wf small_tree_fit)
    as (f & r' & H1 & _ & H2 & _); [done| |].
  - destruct small_tree_slot as (x & Hs & Ho & Hl & _). rewrite Hs. apply Forall_cons. unfold spans. rewrite Ho, Hl.
    split; [lia|constructor].
  - exists f, r'. split; [done|]. rewrite H2. reflexivity.
Defined.

Lemma punch_middle_maps_freed_block_witness :
  exists r', punch_extents (LE := le_codec) 1 2 small_tree = Ok ([(2, 1)], r') /\
    phys (LE := le_codec) (xt_slots (LE := le_codec) r') 2 = Some 2.
Proof.
  destruct small_tree_slot as (x & Hs & Ho & Hl & Ha).
  destruct (punch_middle_maps_freed_block (LES := le_codec_spec) 1 2 small_tree x small_tree_wf Hs)
    as (r' & H1 & H2 & _); [done|unfold spans; rewrite Ho, Hl; lia|rewrite Ho, Hl; done|rewrite Ha, Hl; done|].
  rewrite Ho, Ha in H1, H2. by exists r'.
Defined.


Lemma read_data_correct_witness :
  let d := mkMem (replicate 20480 Byte.x07) 20480 in
  exists d', read_data (LE := le_codec) id 4097 4096 small_tree d =
    (Ok (zslice (concat (block_at (replicate 20480 Byte.x07) <$> [2; 3])) 1 4097), d').
Proof.
  intros d.
  destruct (read_data_correct (LES := le_codec_spec) id 4097 4096 small_tree [2; 3] d small_tree_wf small_tree_valid)
    as (d' & H & _); [|done|done|done|reflexivity| |by exists d'].
  - by split; [apply zlen_replicate|].
  - cbn [contents memory_spec ms_data d]. rewrite zlen_replicate. by repeat (apply Forall_cons; split).
Defined.
