(* ===== verification/Dtree.v ===== *)
(** * Directory tree ([src/src/btree/dtree.rs])

    [Dtree] keeps the 288 bytes of the directory root of an inode: a header of
    32 bytes with the number of entries (byte 17), the free list (bytes 18 and
    19) and the table of the slots in use (bytes 24 to 31), then eight slots of
    32 bytes. All operations work on these bytes. *)

From S2P Require Import Prelude Types Storage.
From Stdlib Require Import ZArith Lia.

Record DirEntry := mkDirEntry { de_inumber : Z; de_name : list Z; de_index : Z }.

Record Dtree := mkDtree { dt_data : list byte; dt_block : Z }.

Definition DTROOT_NEXTINDEX : Z := 17.
Definition DTROOT_ENTRY_BASE : Z := DTENTRYSTART * DTSLOTSIZE.

Definition dt_from_inode_data (data : list byte) : result Dtree :=
  if zlen data <? DTROOT_ENTRY_BASE then Err (Other "insufficient data for dtroot")
  else Ok (mkDtree data 0).

Definition dt_to_bytes (t : Dtree) : list byte := dt_data t.

Definition dt_next_index (t : Dtree) : result Z :=
  if zlen (dt_data t) <=? DTROOT_NEXTINDEX then Ok 0
  else let! b := get (dt_data t) DTROOT_NEXTINDEX in Ok (bval b).

Definition dt_len_entries (t : Dtree) : result Z := dt_next_index t.

(** The loop of [read_stbl]. *)
Fixpoint read_stbl_loop (data : list byte) (idxs : list Z) : result (list Z) :=
  match idxs with
  | [] => Ok []
  | i :: idxs' =>
      if zlen data <=? 24 + i then Ok []
      else
        let! b := get data (24 + i) in
        let! rest := read_stbl_loop data idxs' in
        Ok (bval b :: rest)
  end.

Definition read_stbl (num_entries : Z) (t : Dtree) : result (list Z) :=
  read_stbl_loop (dt_data t) (range 0 (Z.min num_entries 8)).

Section dtree.
Context {LE : LittleEndian}.

(** [chunks_exact(2)] drops an odd last byte. *)
Fixpoint bytes_to_u16 (bytes : list byte) : list Z :=
  match bytes with
  | b0 :: b1 :: bytes' => read_u16 [b0; b1] :: bytes_to_u16 bytes'
  | _ => []
  end.

Definition ldt_get_inumber (e : LdtEntry) : Z := read_u32 (ldt_inumber e).
Definition ldt_get_index (e : LdtEntry) : Z := read_u32 (ldt_index e).

Definition parse_ldt_entry (offset : Z) (t : Dtree) : result LdtEntry :=
  if zlen (dt_data t) <? offset + DTSLOTSIZE then Err (Other "entry out of bounds")
  else
    let! d := slice (dt_data t) offset (offset + DTSLOTSIZE) in
    let! inumber := field d 0 4 4 in
    let! next := get d 4 in
    let! name_len := get d 5 in
    let name := (fun i => read_u16 (zslice d (6 + i * 2) (8 + i * 2))) <$> range 0 11 in
    let! index := field d 28 32 4 in
    Ok (mkLdtEntry inumber next name_len name index).

(** The entry at a slot, as [lookup], [entries] and [remove] read it: [None]
    where they [continue]. *)
Definition read_slot (slot_idx : Z) (t : Dtree) : result (option DirEntry) :=
  let offset := slot_idx * DTSLOTSIZE in
  if zlen (dt_data t) <? offset + DTSLOTSIZE then Ok None
  else
    let! entry := parse_ldt_entry offset t in
    let! name := slice (dt_data t) (offset + 6) (offset + 6 + bval (ldt_name_len entry) * 2) in
    Ok (Some (mkDirEntry (ldt_get_inumber entry) (bytes_to_u16 name) (ldt_get_index entry))).

Fixpoint lookup_loop (name : list Z) (stbl : list Z) (t : Dtree) : result (option DirEntry) :=
  match stbl with
  | [] => Ok None
  | slot_idx :: stbl' =>
      let! o := read_slot slot_idx t in
      match o with
      | Some e => if bool_decide (de_name e = name) then Ok (Some e) else lookup_loop name stbl' t
      | None => lookup_loop name stbl' t
      end
  end.

Definition dt_lookup (name : list Z) (t : Dtree) : result (option DirEntry) :=
  let! num_entries := dt_next_index t in
  if num_entries =? 0 then Ok None
  else
    let! stbl := read_stbl num_entries t in
    lookup_loop name stbl t.

Fixpoint entries_loop (stbl : list Z) (t : Dtree) : result (list DirEntry) :=
  match stbl with
  | [] => Ok []
  | slot_idx :: stbl' =>
      let! o := read_slot slot_idx t in
      let! rest := entries_loop stbl' t in
      match o with Some e => Ok (e :: rest) | None => Ok rest end
  end.

Definition dt_entries (t : Dtree) : result (list DirEntry) :=
  let! num_entries := dt_next_index t in
  let! stbl := read_stbl num_entries t in
  entries_loop stbl t.

(** ** Updates *)

Definition dt_with (t : Dtree) (data : list byte) : Dtree := mkDtree data (dt_block t).

Definition set_stbl_entry (idx slot : Z) (t : Dtree) : result Dtree :=
  let stbl_offset := 24 + idx in
  if zlen (dt_data t) <=? stbl_offset then Err (Other "stbl offset out of bounds")
  else let! d := set (dt_data t) stbl_offset (bof slot) in Ok (dt_with t d).

Definition read_stbl_entry (idx : Z) (t : Dtree) : result Z :=
  let stbl_offset := 24 + idx in
  if zlen (dt_data t) <=? stbl_offset then Err (Other "stbl offset out of bounds")
  else let! b := get (dt_data t) stbl_offset in Ok (bval b).

Definition dt_set_nextindex (val : Z) (t : Dtree) : result Dtree :=
  if DTROOT_NEXTINDEX <? zlen (dt_data t)
  then let! d := set (dt_data t) DTROOT_NEXTINDEX (bof val) in Ok (dt_with t d)
  else Ok t.

Definition alloc_slot (num_entries : Z) (t : Dtree) : result (Z * Dtree) :=
  let data := dt_data t in
  let! freecnt := if 18 <? zlen data then let! b := get data 18 in Ok (bval b) else Ok 0 in
  let! freelist := if 19 <? zlen data then let! b := get data 19 in Ok (bval b) else Ok 0 in
  if (0 <? freecnt) && negb (freelist =? 0) then
    let slot := freelist in
    let! next := if slot * DTSLOTSIZE + 4 <? zlen data
                 then let! b := get data (slot * DTSLOTSIZE + 4) in Ok (bval b) else Ok 0 in
    let! data := set data 18 (bof (freecnt - 1)) in
    let! data := set data 19 (bof next) in
    Ok (slot, dt_with t data)
  else Ok (Z.min (num_entries + DTENTRYSTART) (DTROOTMAXSLOT - 1), t).

(** The characters of a name, from byte [off] on. *)
Fixpoint put_name (data : list byte) (off : Z) (name : list Z) : result (list byte) :=
  match name with
  | [] => Ok data
  | ch :: name' =>
      let! data := splice data off (write_u16 ch) in
      put_name data (off + 2) name'
  end.

Definition write_ldt_entry (offset ino : Z) (name : list Z) (index : Z) (t : Dtree) : result Dtree :=
  if zlen (dt_data t) <? offset + DTSLOTSIZE then Err (Other "slot offset out of bounds")
  else
    let! data := splice (dt_data t) offset (write_u32 ino) in
    let! data := set data (offset + 5) (bof (Z.min (zlen name) 11)) in
    let! data := put_name data (offset + 6) (take 11 name) in
    let! data := splice data (offset + 28) (write_u32 index) in
    Ok (dt_with t data).

(** [insert]; on an error or a panic the tree the caller is left with is not used. *)
Definition dt_insert (name : list Z) (ino index : Z) (t : Dtree) : result (bool * Dtree) :=
  let! found := dt_lookup name t in
  match found with
  | Some _ => Ok (false, t)
  | None =>
      let! num_entries := dt_next_index t in
      if DTROOTMAXSLOT - 1 <=? num_entries then Ok (false, t)
      else
        let! (free_slot, t) := alloc_slot num_entries t in
        if DTROOTMAXSLOT <=? free_slot then Ok (false, t)
        else
          let offset := free_slot * DTSLOTSIZE in
          let! t := write_ldt_entry offset ino name index t in
          let new_next := num_entries + 1 in
          let! t := set_stbl_entry (new_next - 1) free_slot t in
          let! t := dt_set_nextindex new_next t in
          Ok (true, t)
  end.

(** A call whose result is dropped: an error leaves the tree as it is. *)
Definition ignore_result (r : result Dtree) (t : Dtree) : result Dtree :=
  match r with Ok t' => Ok t' | Err _ => Ok t | Panic => Panic end.

(** [for j in stbl_idx..num_entries - 1]: the table moves down by one. *)
Fixpoint shift_stbl (js : list Z) (t : Dtree) : result Dtree :=
  match js with
  | [] => Ok t
  | j :: js' =>
      let! next_slot := read_stbl_entry (j + 1) t in
      let! t := ignore_result (set_stbl_entry j next_slot t) t in
      shift_stbl js' t
  end.

Definition clear_slot (slot_idx : Z) (t : Dtree) : result Dtree :=
  let slot_offset := slot_idx * DTSLOTSIZE in
  if slot_offset + DTSLOTSIZE <=? zlen (dt_data t)
  then let! d := splice (dt_data t) slot_offset (replicate (Z.to_nat DTSLOTSIZE) Byte.x00) in Ok (dt_with t d)
  else Ok t.

Fixpoint remove_loop (name : list Z) (num_entries stbl_idx : Z) (stbl : list Z) (t : Dtree) : result (option Z * Dtree) :=
  match stbl with
  | [] => Ok (None, t)
  | slot_idx :: stbl' =>
      let! o := read_slot slot_idx t in
      match o with
      | Some e =>
          if bool_decide (de_name e = name) then
            let! t := shift_stbl (range stbl_idx (num_entries - 1)) t in
            let! t := ignore_result (set_stbl_entry (num_entries - 1) 0 t) t in
            let! t := dt_set_nextindex (num_entries - 1) t in
            let! t := clear_slot slot_idx t in
            Ok (Some (de_inumber e), t)
          else remove_loop name num_entries (stbl_idx + 1) stbl' t
      | None => remove_loop name num_entries (stbl_idx + 1) stbl' t
      end
  end.

Definition dt_remove (name : list Z) (t : Dtree) : result (option Z * Dtree) :=
  let! num_entries := dt_next_index t in
  let! stbl := read_stbl num_entries t in
  remove_loop name num_entries 0 stbl t.
End dtree.

(** ** The cursor of a directory listing *)

Record DirectoryCursor := mkCursor { cur_offset : Z }.

Definition DOT_OFFSET : Z := 0.
Definition DOTDOT_OFFSET : Z := 1.
Definition ENTRY_BASE : Z := 2.

Definition cursor_new : DirectoryCursor := mkCursor ENTRY_BASE.
Definition cursor_from_offset (offset : Z) : DirectoryCursor := mkCursor offset.
Definition entry_index (c : DirectoryCursor) : option Z := if cur_offset c <? ENTRY_BASE then None else Some (cur_offset c - ENTRY_BASE).
Definition cursor_advance (c : DirectoryCursor) : result DirectoryCursor := let! o := add_u64 (cur_offset c) 1 in Ok (mkCursor o).
Definition cursor_is_dot (c : DirectoryCursor) : bool := cur_offset c =? DOT_OFFSET.
Definition cursor_is_dotdot (c : DirectoryCursor) : bool := cur_offset c =? DOTDOT_OFFSET.
Definition cursor_is_entry (c : DirectoryCursor) : bool := ENTRY_BASE <=? cur_offset c.
Definition cursor_has_more (num_entries : Z) (c : DirectoryCursor) : bool :=
  if cur_offset c <? ENTRY_BASE then true else cur_offset c - ENTRY_BASE <? num_entries.

(** * Properties *)

Section dtree_facts.
Context `{LES : LittleEndianSpec}.

(** Byte [i], the number of entries, and the slots of the table. *)
Definition byte_at (data : list byte) (i : Z) : Z := bval (data !!! Z.to_nat i).
Definition dt_count (t : Dtree) : Z := byte_at (dt_data t) 17.
Definition dt_stbl (t : Dtree) : list Z := (fun i => byte_at (dt_data t) (24 + i)) <$> range 0 (dt_count t).

(** The entry a slot holds. *)
Definition slot_entry (data : list byte) (s : Z) : DirEntry :=
  let o := s * DTSLOTSIZE in
  mkDirEntry (read_u32 (zslice data o (o + 4)))
    (bytes_to_u16 (zslice data (o + 6) (o + 6 + byte_at data (o + 5) * 2)))
    (read_u32 (zslice data (o + 28) (o + 32))).

(** A directory root as the operations keep it: 288 bytes, at most eight
    entries, no free list, each entry in one of the slots 1 to 8 with a name of
    at most 11 units, no slot used twice. *)
Definition dt_wf (t : Dtree) : Prop :=
  zlen (dt_data t) = 288 /\ dt_count t <= 8 /\ byte_at (dt_data t) 18 = 0 /\
  NoDup (dt_stbl t) /\
  Forall (fun s => 1 <= s <= 8 /\ byte_at (dt_data t) (s * 32 + 5) <= 11) (dt_stbl t).

#[global] Instance dt_wf_dec t : Decision (dt_wf t).
Proof. unfold dt_wf. apply _. Defined.

Lemma byte_at_range data i : 0 <= byte_at data i < 256.
Proof. apply bval_range. Qed.

Lemma get_byte data i : 0 <= i < zlen data -> get data i = Ok (data !!! Z.to_nat i) :> result byte.
Proof. intros. by apply get_ok. Qed.

Lemma dt_next_index_ok t : zlen (dt_data t) = 288 -> dt_next_index t = Ok (dt_count t).
Proof. intros Hl. unfold dt_next_index. rewrite Hl. cbn [Z.leb]. rewrite get_byte by (rewrite Hl; done). done. Qed.

Lemma read_stbl_loop_ok data a b :
  zlen data = 288 -> 0 <= a -> b <= 264 ->
  read_stbl_loop data (range a b) = Ok ((fun i => byte_at data (24 + i)) <$> range a b).
Proof.
  intros Hl. remember (Z.to_nat (b - a)) as n eqn:Hn. revert a Hn. induction n as [|n IH]; intros a Hn Ha Hb.
  { by rewrite range_nil by lia. }
  rewrite range_cons by lia. cbn [read_stbl_loop fmap list_fmap]. rewrite Hl.
  destruct (Z.leb_spec 288 (24 + a)); [lia|]. rewrite get_byte by lia. cbn [obind].
  rewrite IH by lia. done.
Qed.

Lemma read_stbl_ok t : zlen (dt_data t) = 288 -> dt_count t <= 8 -> read_stbl (dt_count t) t = Ok (dt_stbl t).
Proof.
  intros Hl Hc. unfold read_stbl. rewrite Z.min_l by done. pose proof (byte_at_range (dt_data t) 17).
  apply read_stbl_loop_ok; [done|lia|lia].
Qed.

Lemma read_slot_ok t s :
  zlen (dt_data t) = 288 -> 1 <= s <= 8 -> byte_at (dt_data t) (s * 32 + 5) <= 11 ->
  read_slot s t = Ok (Some (slot_entry (dt_data t) s)).
Proof.
  intros Hl Hs Hn. pose proof (byte_at_range (dt_data t) (s * 32 + 5)).
  unfold read_slot, parse_ldt_entry. unfold DTSLOTSIZE in *. rewrite Hl.
  destruct (Z.ltb_spec 288 (s * 32 + 32)); [lia|]. rewrite slice_ok by lia. cbn [obind].
  set (c := zslice (dt_data t) (s * 32) (s * 32 + 32)).
  assert (Hc : zlen c = 32) by (unfold c; rewrite zlen_zslice; lia).
  rewrite !field_ok, !get_byte by (rewrite ?Hc; done). cbn [obind ldt_name_len].
  assert (Hlen : bval (c !!! Z.to_nat 5) = byte_at (dt_data t) (s * 32 + 5)).
  { unfold byte_at, c. rewrite !list_lookup_total_alt, lookup_zslice by lia. rewrite decide_True by lia.
    do 3 f_equal. lia. }
  rewrite Hlen. rewrite slice_ok by lia. cbn [obind]. unfold slot_entry, ldt_get_inumber, ldt_get_index, DTSLOTSIZE.
  cbn [ldt_inumber ldt_index]. unfold c. rewrite !zslice_zslice by lia.
  do 3 f_equal; f_equal; f_equal; lia.
Qed.

Lemma entries_loop_ok t l :
  zlen (dt_data t) = 288 -> Forall (fun s => 1 <= s <= 8 /\ byte_at (dt_data t) (s * 32 + 5) <= 11) l ->
  entries_loop l t = Ok (slot_entry (dt_data t) <$> l).
Proof.
  intros Hl Hs. induction Hs as [|s l [Hs1 Hs2] Hs IH]; cbn [entries_loop]; [done|].
  rewrite read_slot_ok by done. cbn [obind]. by rewrite IH.
Qed.

Lemma dt_entries_ok t : dt_wf t -> dt_entries t = Ok (slot_entry (dt_data t) <$> dt_stbl t).
Proof.
  intros (Hl & Hc & _ & _ & Hs). unfold dt_entries. rewrite dt_next_index_ok by done. cbn [obind].
  rewrite read_stbl_ok by done. cbn [obind]. by apply entries_loop_ok.
Qed.

Lemma lookup_loop_entries name stbl t es :
  entries_loop stbl t = Ok es ->
  lookup_loop name stbl t = Ok (List.find (fun e => bool_decide (de_name e = name)) es).
Proof.
  revert es. induction stbl as [|s stbl IH]; intros es; cbn [entries_loop lookup_loop].
  { by intros [= <-]. }
  intros (o & -> & He)%obind_inv. apply obind_inv in He as (rest & Hrest & He). cbn [obind].
  destruct o as [e|]; injection He as <-; [|by apply IH].
  cbn [List.find]. case_bool_decide; [done|]. by apply IH.
Qed.

Lemma dt_lookup_entries name t es :
  dt_entries t = Ok es -> dt_lookup name t = Ok (List.find (fun e => bool_decide (de_name e = name)) es).
Proof.
  intros (n & Hn & He)%obind_inv. apply obind_inv in He as (stbl & Hs & He). unfold dt_lookup.
  rewrite Hn. cbn [obind]. destruct (Z.eqb_spec n 0) as [->|].
  - unfold read_stbl in Hs. rewrite range_nil in Hs by lia. injection Hs as <-. by injection He as <-.
  - rewrite Hs. cbn [obind]. by apply lookup_loop_entries.
Qed.

(** [lookup] finds the first entry with the name among the entries
    [entries] lists, and nothing when there is none: the two traversals of a
    directory agree, for every directory [entries] can list. *)
Theorem dt_lookup_is_find (name : list Z) (t : Dtree) (es : list DirEntry) :
  dt_entries t = Ok es -> dt_lookup name t = Ok (List.find (fun e => bool_decide (de_name e = name)) es).
Proof. apply dt_lookup_entries. Qed.

(** ** Frames *)

Lemma byte_frame a n data data' i :
  same_outside a n data data' -> 0 <= i -> ~ (a <= i < a + n) -> byte_at data' i = byte_at data i.
Proof. intros Hs Hi Hn. unfold byte_at. by rewrite (same_outside_byte _ _ _ _ _ Hs). Qed.

Lemma slot_frame a n data data' s :
  same_outside a n data data' -> 0 <= s -> s * 32 + 32 <= a \/ a + n <= s * 32 ->
  byte_at data (s * 32 + 5) <= 11 -> slot_entry data' s = slot_entry data s.
Proof.
  intros Hs H0 Hd Hn. pose proof (byte_at_range data (s * 32 + 5)). unfold slot_entry, DTSLOTSIZE.
  rewrite (byte_frame a n data data') by (done || lia).
  rewrite !(same_outside_zslice a n data data') by (done || lia). done.
Qed.

Lemma byte_at_set data i x : 0 <= i < zlen data -> byte_at (zsplice data i [x]) i = bval x.
Proof.
  intros Hi. unfold byte_at. rewrite list_lookup_total_alt, lookup_zsplice by (rewrite ?zlen_cons, ?zlen_nil; lia).
  rewrite decide_True by (rewrite zlen_cons, zlen_nil; lia).
  replace (Z.to_nat i - Z.to_nat i)%nat with 0%nat by lia. done.
Qed.

(** ** Writing an entry *)

Definition u16_units (name : list Z) : Prop := Forall (fun ch => 0 <= ch < 2 ^ 16) name.

Lemma zlen_name_bytes name : u16_units name -> zlen (concat (write_u16 <$> name)) = 2 * zlen name.
Proof.
  intros Hn. induction Hn as [|ch name Hch Hn IH]; cbn [fmap list_fmap concat]; [done|].
  rewrite zlen_app, zlen_cons, IH. unfold zlen. rewrite length_write_u16 by done. lia.
Qed.

Lemma put_name_ok data off name :
  u16_units name -> 0 <= off -> off + 2 * zlen name <= zlen data ->
  put_name data off name = Ok (zsplice data off (concat (write_u16 <$> name))).
Proof.
  intros Hn. revert data off. induction Hn as [|ch name Hch Hn IH]; intros data off Ho Hl; cbn [put_name fmap list_fmap concat].
  { unfold zsplice. cbn [length app]. by rewrite Nat.add_0_r, take_drop. }
  rewrite zlen_cons in Hl. pose proof (zlen_nonneg name).
  assert (Hw : zlen (write_u16 ch) = 2) by (unfold zlen; by rewrite length_write_u16).
  rewrite splice_ok by lia. cbn [obind]. rewrite IH by (rewrite ?zlen_zsplice; lia).
  rewrite zsplice_app by (rewrite ?zlen_name_bytes by done; lia). done.
Qed.

Lemma bytes_to_u16_app bs rest : length bs = 2%nat -> bytes_to_u16 (bs ++ rest) = read_u16 bs :: bytes_to_u16 rest.
Proof. destruct bs as [|b0 [|b1 [|]]]; by intros. Qed.

Lemma bytes_to_u16_names name : u16_units name -> bytes_to_u16 (concat (write_u16 <$> name)) = name.
Proof.
  intros Hn. induction Hn as [|ch name Hch Hn IH]; cbn [fmap list_fmap concat]; [done|].
  rewrite bytes_to_u16_app by by apply length_write_u16. by rewrite read_write_u16, IH.
Qed.

Lemma write_ldt_entry_ok t s ino name index :
  zlen (dt_data t) = 288 -> 1 <= s <= 8 -> u32_range ino -> u32_range index ->
  u16_units name -> zlen name <= 11 ->
  exists data', write_ldt_entry (s * DTSLOTSIZE) ino name index t = Ok (dt_with t data') /\
    same_outside (s * 32) 32 (dt_data t) data' /\ byte_at data' (s * 32 + 5) = zlen name /\
    slot_entry data' s = mkDirEntry ino name index.
Proof.
  intros Hl Hs Hi Hx Hn Hlen. unfold write_ldt_entry, DTSLOTSIZE. rewrite Hl.
  destruct (Z.ltb_spec 288 (s * 32 + 32)); [lia|]. pose proof (zlen_nonneg name).
  assert (Hwi : zlen (write_u32 ino) = 4) by (unfold zlen; by rewrite length_write_u32).
  assert (Hwx : zlen (write_u32 index) = 4) by (unfold zlen; by rewrite length_write_u32).
  rewrite splice_ok by lia. cbn [obind].
  set (d1 := zsplice (dt_data t) (s * 32) (write_u32 ino)).
  assert (H1 : zlen d1 = 288) by (unfold d1; rewrite zlen_zsplice; lia).
  rewrite set_splice by lia. cbn [obind]. rewrite Z.min_l by lia.
  set (d2 := zsplice d1 (s * 32 + 5) [bof (zlen name)]).
  assert (Hone : zlen [bof (zlen name)] = 1) by done.
  assert (H2 : zlen d2 = 288) by (unfold d2; rewrite zlen_zsplice; lia).
  rewrite take_ge by (unfold zlen in Hlen; lia). rewrite put_name_ok by (done || lia). cbn [obind].
  set (d3 := zsplice d2 (s * 32 + 6) _). pose proof (zlen_name_bytes name Hn) as Hnb.
  assert (H3 : zlen d3 = 288) by (unfold d3; rewrite zlen_zsplice; lia).
  rewrite splice_ok by lia. cbn [obind]. set (d4 := zsplice d3 (s * 32 + 28) _).
  assert (Hf1 : same_outside (s * 32) 4 (dt_data t) d1) by (rewrite <- Hwi; apply same_outside_zsplice; lia).
  assert (Hf2 : same_outside (s * 32 + 5) 1 d1 d2) by (apply (same_outside_zsplice _ [_]); rewrite ?Hone; lia).
  assert (Hf3 : same_outside (s * 32 + 6) 22 d2 d3).
  { apply (same_outside_sub (s * 32 + 6) (2 * zlen name)); [|lia|lia]. rewrite <- Hnb. apply same_outside_zsplice; lia. }
  assert (Hf4 : same_outside (s * 32 + 28) 4 d3 d4) by (rewrite <- Hwx; apply same_outside_zsplice; lia).
  assert (Hb : byte_at d4 (s * 32 + 5) = zlen name).
  { rewrite (byte_frame _ _ _ _ _ Hf4), (byte_frame _ _ _ _ _ Hf3) by lia. unfold d2. rewrite byte_at_set by lia.
    apply bval_bof_small. lia. }
  exists d4. split_and!; [done| |done|].
  - apply (same_outside_trans _ _ _ d1); [by eapply same_outside_sub; [done|lia|lia]|].
    apply (same_outside_trans _ _ _ d2); [by eapply same_outside_sub; [done|lia|lia]|].
    apply (same_outside_trans _ _ _ d3); (eapply same_outside_sub; [done|lia|lia]).
  - unfold slot_entry, DTSLOTSIZE. rewrite Hb. f_equal.
    + rewrite (same_outside_zslice _ _ _ _ _ _ Hf4), (same_outside_zslice _ _ _ _ _ _ Hf3), (same_outside_zslice _ _ _ _ _ _ Hf2) by lia.
      unfold d1. rewrite zslice_zsplice_same by lia. by apply read_write_u32.
    + rewrite (same_outside_zslice _ _ _ _ _ _ Hf4) by lia. unfold d3.
      rewrite zslice_zsplice_same by (rewrite ?Hnb; lia). by apply bytes_to_u16_names.
    + unfold d4. rewrite zslice_zsplice_same by lia. by apply read_write_u32.
Qed.

(** ** Insertion *)

(** Every successful insertion: the slot after the number of entries gets the
    new entry and joins the table; all other slots are as before. *)
Lemma dt_insert_state t name ino index :
  dt_wf t -> dt_lookup name t = Ok None -> dt_count t < 8 ->
  u32_range ino -> u32_range index -> u16_units name -> zlen name <= 11 ->
  exists t', dt_insert name ino index t = Ok (true, t') /\ zlen (dt_data t') = 288 /\
    dt_count t' = dt_count t + 1 /\ byte_at (dt_data t') 18 = 0 /\
    dt_stbl t' = dt_stbl t ++ [dt_count t + 1] /\
    forall s, 1 <= s <= 8 ->
      (s = dt_count t + 1 -> byte_at (dt_data t') (s * 32 + 5) = zlen name /\
         slot_entry (dt_data t') s = mkDirEntry ino name index) /\
      (s <> dt_count t + 1 -> byte_at (dt_data t') (s * 32 + 5) = byte_at (dt_data t) (s * 32 + 5) /\
         (byte_at (dt_data t) (s * 32 + 5) <= 11 -> slot_entry (dt_data t') s = slot_entry (dt_data t) s)).
Proof.
  intros (Hl & Hc & H18 & _ & _) Hnone Hc8 Hi Hx Hn Hlen. pose proof (byte_at_range (dt_data t) 17) as Hc0.
  fold (dt_count t) in Hc0. unfold dt_insert. rewrite Hnone. cbn [obind]. rewrite dt_next_index_ok by done. cbn [obind].
  unfold DTROOTMAXSLOT. destruct (Z.leb_spec (9 - 1) (dt_count t)); [lia|].
  unfold alloc_slot. rewrite Hl. cbn [Z.ltb Z.compare Pos.compare Pos.compare_cont].
  rewrite !get_byte by (rewrite Hl; done). cbn [obind].
  change (bval (dt_data t !!! Z.to_nat 18)) with (byte_at (dt_data t) 18). rewrite H18. cbn [Z.ltb Z.compare andb obind].
  unfold DTENTRYSTART, DTROOTMAXSLOT. rewrite Z.min_l by lia.
  destruct (Z.leb_spec 9 (dt_count t + 1)); [lia|].
  destruct (write_ldt_entry_ok t (dt_count t + 1) ino name index) as (d1 & -> & Hf1 & Hb1 & He1); try done; [lia|].
  cbn [obind]. assert (Hz1 : zlen d1 = 288) by (destruct Hf1; congruence).
  unfold set_stbl_entry. cbn [dt_with dt_data]. rewrite Hz1. destruct (Z.leb_spec 288 (24 + (dt_count t + 1 - 1))); [lia|].
  rewrite set_splice by lia. cbn [obind]. unfold dt_set_nextindex. cbn [dt_with dt_data].
  set (slot := bof (dt_count t + 1)). set (d2 := zsplice d1 (24 + (dt_count t + 1 - 1)) [slot]).
  assert (Hone : zlen [slot] = 1) by done.
  assert (Hz2 : zlen d2 = 288) by (unfold d2; rewrite zlen_zsplice; lia).
  rewrite Hz2. cbn [DTROOT_NEXTINDEX Z.ltb Z.compare Pos.compare Pos.compare_cont].
  rewrite set_splice by (rewrite Hz2; done). cbn [obind]. eexists. split; [done|]. cbn [dt_with dt_data].
  change DTROOT_NEXTINDEX with 17. set (d3 := zsplice d2 17 [slot]).
  assert (Hf2 : same_outside (24 + (dt_count t + 1 - 1)) 1 d1 d2) by (apply (same_outside_zsplice _ [_]); rewrite ?Hone; lia).
  assert (Hf3 : same_outside 17 1 d2 d3) by (apply (same_outside_zsplice _ [_]); rewrite ?Hone; lia).
  assert (Hcnt : byte_at d3 17 = dt_count t + 1).
  { unfold d3. rewrite byte_at_set by lia. apply bval_bof_small. lia. }
  assert (Hlow : forall i, 0 <= i < 32 -> i <> 17 -> i <> 24 + dt_count t -> byte_at d3 i = byte_at (dt_data t) i).
  { intros i Hi1 Hi2 Hi3. rewrite (byte_frame _ _ _ _ _ Hf3), (byte_frame _ _ _ _ _ Hf2), (byte_frame _ _ _ _ _ Hf1) by lia. done. }
  split_and!.
  - destruct Hf3; congruence.
  - exact Hcnt.
  - rewrite Hlow by lia. done.
  - unfold dt_stbl at 1, dt_count at 1. cbn [dt_data dt_with]. rewrite Hcnt, range_snoc, fmap_app by lia. f_equal.
    + unfold dt_stbl. apply list_fmap_ext. intros k i Hk%list_elem_of_lookup_2%elem_of_range. apply Hlow; lia.
    + cbn [fmap list_fmap]. f_equal. rewrite (byte_frame _ _ _ _ _ Hf3) by lia. unfold d2.
      replace (24 + (dt_count t + 1 - 1)) with (24 + dt_count t) by lia. rewrite byte_at_set by lia. apply bval_bof_small. lia.
  - intros s Hs. split.
    + intros ->. rewrite (byte_frame _ _ _ _ _ Hf3), (byte_frame _ _ _ _ _ Hf2) by lia. split; [done|].
      rewrite (slot_frame _ _ _ _ _ Hf3), (slot_frame _ _ _ _ _ Hf2), He1; [done|lia|lia|lia|lia|lia|].
      rewrite (byte_frame _ _ _ _ _ Hf2); lia.
    + intros Hne. rewrite (byte_frame _ _ _ _ _ Hf3), (byte_frame _ _ _ _ _ Hf2), (byte_frame _ _ _ _ _ Hf1) by lia.
      split; [done|]. intros Hb.
      rewrite (slot_frame _ _ _ _ _ Hf3), (slot_frame _ _ _ _ _ Hf2), (slot_frame _ _ _ _ _ Hf1); try done; try lia.
      * rewrite (byte_frame _ _ _ _ _ Hf1); lia.
      * rewrite (byte_frame _ _ _ _ _ Hf2), (byte_frame _ _ _ _ _ Hf1); lia.
Qed.

(** Inserting a name into a directory whose next slot is unused. *)
Lemma dt_insert_fresh (t : Dtree) (name : list Z) (ino index : Z) (es : list DirEntry) :
  dt_wf t -> dt_entries t = Ok es -> Forall (fun e => de_name e <> name) es ->
  dt_count t < 8 -> dt_count t + 1 ∉ dt_stbl t ->
  u32_range ino -> u32_range index -> u16_units name -> zlen name <= 11 ->
  exists t', dt_insert name ino index t = Ok (true, t') /\ dt_wf t' /\
    dt_entries t' = Ok (es ++ [mkDirEntry ino name index]).
Proof.
  intros Hwf Hes Hnew Hc Hfresh Hi Hx Hn Hlen.
  destruct (dt_insert_state t name ino index) as (t' & Ht' & Hl & Hcnt & H18 & Hstbl & Hslots); try done.
  { rewrite (dt_lookup_entries _ _ _ Hes). f_equal. clear -Hnew.
    induction Hnew as [|e es He _ IH]; cbn [List.find]; [done|]. by rewrite bool_decide_eq_false_2. }
  destruct (Hwf) as (_ & _ & _ & Hnd & Hs). rewrite (dt_entries_ok t Hwf) in Hes. injection Hes as <-.
  pose proof (byte_at_range (dt_data t) 17) as Hc0. fold (dt_count t) in Hc0.
  assert (Hwf' : dt_wf t').
  { split_and!; [done|lia|done| |].
    - rewrite Hstbl. apply NoDup_app. split_and!; [done| |apply NoDup_singleton].
      intros s Hin ->%list_elem_of_singleton. done.
    - rewrite Hstbl. apply Forall_app. split.
      + apply Forall_forall. intros s Hin. rewrite Forall_forall in Hs. destruct (Hs s Hin) as [Hs1 Hs2].
        split; [done|]. destruct (Hslots s Hs1) as [_ Ho]. destruct (Ho ltac:(by intros ->)) as [-> _]. done.
      + apply Forall_cons. split; [|constructor]. split; [lia|]. destruct (Hslots (dt_count t + 1) ltac:(lia)) as [He _].
        destruct (He eq_refl) as [-> _]. done. }
  exists t'. split_and!; [done|done|]. rewrite dt_entries_ok by done. f_equal. rewrite Hstbl, fmap_app. f_equal.
  - apply list_fmap_ext. intros k s Hk%list_elem_of_lookup_2. rewrite Forall_forall in Hs. destruct (Hs s Hk) as [Hs1 Hs2].
    destruct (Hslots s Hs1) as [_ Ho]. destruct (Ho ltac:(by intros ->)) as [_ Hsame]. by apply Hsame.
  - cbn [fmap list_fmap]. f_equal. destruct (Hslots (dt_count t + 1) ltac:(lia)) as [He _]. by destruct (He eq_refl) as [_ ->].
Qed.

(** Inserting a new name of at most 11 units into a directory whose next
    slot is unused: the listing is the old one followed by the new entry, and
    the directory stays well formed. *)
Theorem dt_insert_correct (t : Dtree) (name : list Z) (ino index : Z) (es : list DirEntry) :
  dt_wf t -> dt_entries t = Ok es -> Forall (fun e => de_name e <> name) es ->
  dt_count t < 8 -> dt_count t + 1 ∉ dt_stbl t ->
  u32_range ino -> u32_range index -> u16_units name -> zlen name <= 11 ->
  exists t', dt_insert name ino index t = Ok (true, t') /\ dt_wf t' /\
    dt_entries t' = Ok (es ++ [mkDirEntry ino name index]).
Proof. apply dt_insert_fresh. Qed.

(** When the slot that follows the number of entries is in use (as it is
    after the removal of an entry that was not the last), [insert] takes it all
    the same: it reports success, and the entry that was in that slot is
    replaced by the new one in the listing. *)
Theorem dt_insert_overwrites_live_slot (t : Dtree) (name : list Z) (ino index : Z) (j : nat) :
  dt_wf t -> dt_lookup name t = Ok None -> dt_count t < 8 ->
  dt_stbl t !! j = Some (dt_count t + 1) ->
  u32_range ino -> u32_range index -> u16_units name -> zlen name <= 11 ->
  exists t' es', dt_insert name ino index t = Ok (true, t') /\ dt_entries t' = Ok es' /\
    es' !! j = Some (mkDirEntry ino name index).
Proof.
  intros Hwf Hnone Hc Hj Hi Hx Hn Hlen.
  destruct (dt_insert_state t name ino index) as (t' & Ht' & Hl & Hcnt & H18 & Hstbl & Hslots); try done.
  destruct (Hwf) as (_ & _ & _ & _ & Hs). pose proof (byte_at_range (dt_data t) 17) as Hc0. fold (dt_count t) in Hc0.
  assert (Hall : Forall (fun s => 1 <= s <= 8 /\ byte_at (dt_data t') (s * 32 + 5) <= 11) (dt_stbl t')).
  { assert (Hcase : forall s, 1 <= s <= 8 -> s <> dt_count t + 1 -> byte_at (dt_data t) (s * 32 + 5) <= 11 ->
              byte_at (dt_data t') (s * 32 + 5) <= 11).
    { intros s Hs1 Hne Hb. destruct (Hslots s Hs1) as [_ Ho]. destruct (Ho Hne) as [-> _]. done. }
    assert (Hnew : byte_at (dt_data t') ((dt_count t + 1) * 32 + 5) <= 11).
    { destruct (Hslots (dt_count t + 1) ltac:(lia)) as [He _]. destruct (He eq_refl) as [-> _]. done. }
    rewrite Hstbl. apply Forall_app. split; [|by apply Forall_cons; split; [split; [lia|done]|constructor]].
    apply Forall_forall. intros s Hin. rewrite Forall_forall in Hs. destruct (Hs s Hin) as [Hs1 Hs2]. split; [done|].
    destruct (decide (s = dt_count t + 1)) as [->|Hne]; [done|by apply Hcase]. }
  exists t', (slot_entry (dt_data t') <$> dt_stbl t'). split_and!; [done| |].
  - unfold dt_entries. rewrite dt_next_index_ok by done. cbn [obind]. rewrite read_stbl_ok by (done || lia). cbn [obind].
    by apply entries_loop_ok.
  - rewrite list_lookup_fmap, Hstbl, lookup_app_l by (by eapply lookup_lt_Some). rewrite Hj. cbn [fmap option_fmap option_map].
    f_equal. destruct (Hslots (dt_count t + 1) ltac:(lia)) as [He _]. by destruct (He eq_refl) as [_ ->].
Qed.

(** ** Removal *)

Lemma shift_stbl_ok t j n :
  zlen (dt_data t) = 288 -> 0 <= j -> n <= 8 ->
  exists data', shift_stbl (range j (n - 1)) t = Ok (dt_with t data') /\
    same_outside (24 + j) (Z.max 0 (n - 1 - j)) (dt_data t) data' /\
    forall i, j <= i < n - 1 -> byte_at data' (24 + i) = byte_at (dt_data t) (24 + i + 1).
Proof.
  remember (Z.to_nat (n - 1 - j)) as k eqn:Hk. revert t j Hk.
  induction k as [|k IH]; intros t j Hk Hl Hj Hn.
  { rewrite range_nil by lia. exists (dt_data t). split_and!; [by destruct t|apply same_outside_refl|lia]. }
  rewrite range_cons by lia. cbn [shift_stbl]. unfold read_stbl_entry at 1. rewrite Hl.
  destruct (Z.leb_spec 288 (24 + (j + 1))); [lia|]. rewrite get_byte by lia. cbn [obind].
  unfold set_stbl_entry. rewrite Hl. destruct (Z.leb_spec 288 (24 + j)); [lia|]. rewrite set_splice by lia.
  cbn [obind ignore_result]. rewrite bof_bval.
  set (b := dt_data t !!! Z.to_nat (24 + (j + 1))). set (d1 := zsplice (dt_data t) (24 + j) [b]).
  assert (Hone : zlen [b] = 1) by done.
  assert (Hf1 : same_outside (24 + j) 1 (dt_data t) d1) by (apply (same_outside_zsplice _ [_]); rewrite ?Hone; lia).
  destruct (IH (dt_with t d1) (j + 1)) as (d2 & -> & Hf2 & Hb2); [lia|cbn [dt_with dt_data]; destruct Hf1; congruence|lia|lia|].
  exists d2. cbn [dt_with dt_data] in *. split_and!; [done| |].
  - apply (same_outside_trans _ _ _ d1); (eapply same_outside_sub; [done|lia|lia]).
  - intros i Hi. destruct (decide (i = j)) as [->|].
    + rewrite (byte_frame _ _ _ _ _ Hf2) by lia. unfold d1. rewrite byte_at_set by lia. unfold byte_at, b. do 3 f_equal. lia.
    + rewrite Hb2 by lia. rewrite (byte_frame _ _ _ _ _ Hf1); [done|lia|lia].
Qed.

Lemma set_byte_ok data i x :
  zlen data = 288 -> 0 <= i < 288 ->
  set data i x = Ok (zsplice data i [x]) :> result (list byte) /\
  same_outside i 1 data (zsplice data i [x]) /\ zlen (zsplice data i [x]) = 288.
Proof.
  intros Hl Hi. assert (Hone : zlen [x] = 1) by done. rewrite set_splice by lia.
  assert (same_outside i 1 data (zsplice data i [x])) as Hf by (apply (same_outside_zsplice _ [_]); rewrite ?Hone; lia).
  split_and!; [done|done|]. destruct Hf; congruence.
Qed.

(** What the removal of table position [j], which holds slot [s], leaves. *)
Lemma remove_found t j s n (v : Z) :
  dt_wf t -> dt_stbl t !! Z.to_nat j = Some s -> 0 <= j -> n = dt_count t ->
  exists t',
    (let! t := shift_stbl (range j (n - 1)) t in
     let! t := ignore_result (set_stbl_entry (n - 1) 0 t) t in
     let! t := dt_set_nextindex (n - 1) t in
     let! t := clear_slot s t in
     Ok (Some v, t)) = Ok (Some v, t') :> result (option Z * Dtree) /\
    dt_wf t' /\ dt_stbl t' = delete (Z.to_nat j) (dt_stbl t) /\
    forall s', s' ∈ dt_stbl t' -> slot_entry (dt_data t') s' = slot_entry (dt_data t) s'.
Proof.
  intros (Hl & Hc & H18 & Hnd & Hs) Hj Hj0 ->. pose proof (byte_at_range (dt_data t) 17) as Hc0. fold (dt_count t) in Hc0.
  assert (Hjc : j < dt_count t).
  { apply lookup_lt_Some in Hj. unfold dt_stbl in Hj. rewrite length_fmap, length_range in Hj. lia. }
  assert (Hsr : 1 <= s <= 8) by (eapply Forall_lookup_1 in Hs; [|done]; lia).
  destruct (shift_stbl_ok t j (dt_count t) Hl Hj0 Hc) as (d1 & -> & Hf1 & Hb1). cbn [obind].
  assert (H1 : zlen d1 = 288) by (destruct Hf1; congruence).
  unfold set_stbl_entry. cbn [dt_with dt_data]. rewrite H1. destruct (Z.leb_spec 288 (24 + (dt_count t - 1))); [lia|].
  destruct (set_byte_ok d1 (24 + (dt_count t - 1)) (bof 0) H1 ltac:(lia)) as (-> & Hf2 & H2).
  cbn [obind ignore_result]. set (d2 := zsplice d1 (24 + (dt_count t - 1)) [bof 0]) in *.
  unfold dt_set_nextindex, dt_with. cbn [dt_data dt_block]. rewrite H2. change DTROOT_NEXTINDEX with 17.
  cbn [Z.ltb Z.compare Pos.compare Pos.compare_cont].
  destruct (set_byte_ok d2 17 (bof (dt_count t - 1)) H2 ltac:(lia)) as (-> & Hf3 & H3).
  set (d3 := zsplice d2 17 [bof (dt_count t - 1)]) in *. cbn [obind]. unfold clear_slot, DTSLOTSIZE. cbn [dt_data].
  rewrite H3. destruct (Z.leb_spec (s * 32 + 32) 288); [|lia].
  assert (Hz32 : zlen (replicate (Z.to_nat 32) Byte.x00) = 32) by apply zlen_replicate.
  rewrite splice_ok by lia. cbn [obind]. set (d4 := zsplice d3 (s * 32) _).
  assert (Hf4 : same_outside (s * 32) 32 d3 d4) by (rewrite <- Hz32 at 1; apply same_outside_zsplice; lia).
  assert (Hcnt : byte_at d4 17 = dt_count t - 1).
  { rewrite (byte_frame _ _ _ _ _ Hf4) by lia. unfold d3. rewrite byte_at_set by lia. apply bval_bof_small. lia. }
  assert (Hstbl : dt_stbl (mkDtree d4 (dt_block t)) = delete (Z.to_nat j) (dt_stbl t)).
  { apply list_eq. intros i. unfold dt_stbl, dt_count at 1. cbn [dt_data]. rewrite Hcnt.
    assert (Hlk : forall dd m, ((fun i => byte_at dd (24 + i)) <$> range 0 m) !! i =
              if decide (Z.of_nat i < m) then Some (byte_at dd (24 + Z.of_nat i)) else None).
    { intros dd m. rewrite list_lookup_fmap. unfold range. case_decide.
      - rewrite lookup_seqZ_lt by lia. done.
      - rewrite lookup_seqZ_ge by lia. done. }
    rewrite Hlk. destruct (decide (Z.of_nat i < j)).
    - rewrite list_lookup_delete_lt by lia. rewrite Hlk, !decide_True by lia. f_equal.
      rewrite (byte_frame _ _ _ _ _ Hf4), (byte_frame _ _ _ _ _ Hf3), (byte_frame _ _ _ _ _ Hf2), (byte_frame _ _ _ _ _ Hf1) by lia. done.
    - rewrite list_lookup_delete_ge by lia. rewrite list_lookup_fmap. unfold range.
      case_decide as Hi.
      + rewrite lookup_seqZ_lt by lia. cbn [fmap option_fmap option_map]. f_equal.
        rewrite (byte_frame _ _ _ _ _ Hf4), (byte_frame _ _ _ _ _ Hf3), (byte_frame _ _ _ _ _ Hf2) by lia.
        rewrite Hb1 by lia. f_equal. lia.
      + by rewrite lookup_seqZ_ge by lia. }
  assert (Hsub : forall s', s' ∈ dt_stbl (mkDtree d4 (dt_block t)) -> s' ∈ dt_stbl t /\ s' <> s).
  { intros s' Hin. rewrite Hstbl in Hin. split; [by eapply elem_of_sublist; [|apply sublist_delete]|]. intros ->.
    rewrite delete_take_drop in Hin. rewrite <- (take_drop_middle _ _ _ Hj) in Hnd.
    apply NoDup_app in Hnd as (_ & Hd & [Hd2 _]%NoDup_cons).
    apply elem_of_app in Hin as [Hin|Hin]; [|done]. apply (Hd _ Hin). apply list_elem_of_here. }
  assert (Hslot : forall s', s' ∈ dt_stbl (mkDtree d4 (dt_block t)) ->
            (1 <= s' <= 8 /\ byte_at d4 (s' * 32 + 5) <= 11) /\ slot_entry d4 s' = slot_entry (dt_data t) s').
  { intros s' [Hin Hne]%Hsub. rewrite Forall_forall in Hs. destruct (Hs s' Hin) as [Hr Hb].
    assert (Hby : byte_at d4 (s' * 32 + 5) = byte_at (dt_data t) (s' * 32 + 5)).
    { rewrite (byte_frame _ _ _ _ _ Hf4), (byte_frame _ _ _ _ _ Hf3), (byte_frame _ _ _ _ _ Hf2), (byte_frame _ _ _ _ _ Hf1) by lia. done. }
    split; [rewrite Hby; done|].
    assert (Hf : same_outside 0 32 (dt_data t) d3).
    { apply (same_outside_trans _ _ _ d1); [eapply same_outside_sub; [done|lia|lia]|].
      apply (same_outside_trans _ _ _ d2); (eapply same_outside_sub; [done|lia|lia]). }
    rewrite (slot_frame _ _ _ _ _ Hf4), (slot_frame _ _ _ _ _ Hf); try done; try lia.
    rewrite (byte_frame _ _ _ _ _ Hf); lia. }
  exists (mkDtree d4 (dt_block t)). split; [done|]. split_and!; [|done|intros s' Hin; by apply Hslot].
  split_and!; cbn [dt_data].
  - transitivity (zlen d3); [exact (proj1 Hf4)|exact H3].
  - change (byte_at d4 17 <= 8). lia.
  - rewrite (byte_frame _ _ _ _ _ Hf4), (byte_frame _ _ _ _ _ Hf3), (byte_frame _ _ _ _ _ Hf2), (byte_frame _ _ _ _ _ Hf1) by lia. done.
  - rewrite Hstbl. eapply sublist_NoDup; [done|apply sublist_delete].
  - apply Forall_forall. intros s' Hin. by apply Hslot.
Qed.

Lemma remove_loop_ok name t pre l :
  dt_wf t -> dt_stbl t = pre ++ l -> Forall (fun s => de_name (slot_entry (dt_data t) s) <> name) pre ->
  match List.find (fun e => bool_decide (de_name e = name)) (slot_entry (dt_data t) <$> l) with
  | None => remove_loop name (dt_count t) (zlen pre) l t = Ok (None, t)
  | Some e => exists t' pre' s l', remove_loop name (dt_count t) (zlen pre) l t = Ok (Some (de_inumber e), t') /\
      dt_wf t' /\ dt_stbl t = pre' ++ s :: l' /\ slot_entry (dt_data t) s = e /\
      Forall (fun s => de_name (slot_entry (dt_data t) s) <> name) pre' /\
      dt_stbl t' = pre' ++ l' /\ forall s', s' ∈ dt_stbl t' -> slot_entry (dt_data t') s' = slot_entry (dt_data t) s'
  end.
Proof.
  intros Hwf. revert pre. induction l as [|s l IH]; intros pre Hst Hpre; cbn [fmap list_fmap List.find remove_loop]; [done|].
  destruct (Hwf) as (Hl & _ & _ & _ & Hs).
  assert (Hss : 1 <= s <= 8 /\ byte_at (dt_data t) (s * 32 + 5) <= 11).
  { rewrite Hst, Forall_app, Forall_cons in Hs. apply Hs. }
  rewrite read_slot_ok by apply Hss || done. cbn [obind].
  case_bool_decide as Hn.
  - destruct (remove_found t (zlen pre) s (dt_count t) (de_inumber (slot_entry (dt_data t) s)) Hwf)
      as (t' & Hrun & Hwf' & Hst' & Hsl).
    { rewrite Hst. unfold zlen. rewrite Nat2Z.id. by apply list_lookup_middle. } { apply zlen_nonneg. } { done. }
    exists t', pre, s, l. split_and!; try done.
    + rewrite Hst', Hst. unfold zlen. rewrite Nat2Z.id. apply delete_middle.
  - specialize (IH (pre ++ [s])). rewrite zlen_app, zlen_cons, zlen_nil in IH. apply IH.
    + rewrite Hst. by rewrite <- app_assoc.
    + apply Forall_app. split; [done|]. by apply Forall_cons.
Qed.

(** Removing the first entry with a name. *)
Lemma dt_remove_first (t : Dtree) (name : list Z) (es : list DirEntry) :
  dt_wf t -> dt_entries t = Ok es ->
  (Forall (fun e => de_name e <> name) es /\ dt_remove name t = Ok (None, t)) \/
  (exists t' before e after, es = before ++ e :: after /\ de_name e = name /\
     Forall (fun e => de_name e <> name) before /\
     dt_remove name t = Ok (Some (de_inumber e), t') /\ dt_wf t' /\ dt_entries t' = Ok (before ++ after)).
Proof.
  intros Hwf Hes. rewrite dt_entries_ok in Hes by done. injection Hes as <-.
  destruct (Hwf) as (Hl & Hc & _ & _ & _). unfold dt_remove. rewrite dt_next_index_ok by done. cbn [obind].
  rewrite read_stbl_ok by done. cbn [obind].
  pose proof (remove_loop_ok name t [] (dt_stbl t) Hwf eq_refl (Forall_nil_2 _)) as Hr. change (zlen []) with 0 in Hr.
  destruct (List.find _ _) as [e|] eqn:Hfind.
  - right. destruct Hr as (t' & pre & s & l & -> & Hwf' & Hst & <- & Hpre & Hst' & Hsl).
    apply find_some in Hfind as [_ Hname%bool_decide_eq_true_1].
    exists t', (slot_entry (dt_data t) <$> pre), (slot_entry (dt_data t) s), (slot_entry (dt_data t) <$> l).
    split_and!; try done.
    + by rewrite Hst, fmap_app.
    + by apply Forall_fmap.
    + rewrite dt_entries_ok by done. f_equal. rewrite <- fmap_app, <- Hst'. apply list_fmap_ext.
      intros k s' Hk%list_elem_of_lookup_2. by apply Hsl.
  - left. split; [|done]. apply Forall_forall. intros e He.
    eapply find_none in Hfind; [|by apply list_elem_of_In]. by apply bool_decide_eq_false_1 in Hfind.
Qed.

(** [remove] on a well-formed directory: it returns the inode of the first
    entry with the name and deletes exactly that entry from the listing, keeping
    the directory well formed; without such an entry it returns [None] and
    changes nothing. *)
Theorem dt_remove_correct (t : Dtree) (name : list Z) (es : list DirEntry) :
  dt_wf t -> dt_entries t = Ok es ->
  (Forall (fun e => de_name e <> name) es /\ dt_remove name t = Ok (None, t)) \/
  (exists t' before e after, es = before ++ e :: after /\ de_name e = name /\
     Forall (fun e => de_name e <> name) before /\
     dt_remove name t = Ok (Some (de_inumber e), t') /\ dt_wf t' /\ dt_entries t' = Ok (before ++ after)).
Proof. apply dt_remove_first. Qed.
End dtree_facts.

(** * Witnesses *)

Definition empty_dir : Dtree := mkDtree (zeros 288) 0.

Definition insert_or_keep (name : list Z) (ino : Z) (t : Dtree) : Dtree :=
  match dt_insert (LE := le_codec) name ino 0 t with Ok (_, t') => t' | _ => t end.
Definition remove_or_keep (name : list Z) (t : Dtree) : Dtree :=
  match dt_remove (LE := le_codec) name t with Ok (_, t') => t' | _ => t end.

(** Entries "a" and "b" inserted, then "a" removed: the one entry is in slot 2. *)
Definition gap_dir : Dtree := remove_or_keep [97] (insert_or_keep [98] 6 (insert_or_keep [97] 5 empty_dir)).

Lemma empty_dir_wf : dt_wf empty_dir.
Proof. split_and!; try done. constructor. Qed.

Lemma gap_dir_stbl : dt_stbl gap_dir = [2].
Proof. vm_compute. reflexivity. Qed.

Lemma gap_dir_wf : dt_wf gap_dir.
Proof.
  split_and!; [vm_compute; done|vm_compute; done|vm_compute; done|..]; rewrite gap_dir_stbl.
  - apply NoDup_singleton.
  - apply Forall_cons. split; [|constructor]. split; [done|]. vm_compute. done.
Qed.

Lemma dt_lookup_is_find_witness :
  dt_lookup (LE := le_codec) [98] gap_dir = Ok (Some (mkDirEntry 6 [98] 0)).
Proof. exact (dt_lookup_is_find (LE := le_codec) [98] gap_dir [mkDirEntry 6 [98] 0] ltac:(vm_compute; reflexivity)). Defined.

Lemma dt_insert_correct_witness :
  exists t', dt_insert (LE := le_codec) [97] 5 0 empty_dir = Ok (true, t') /\
    dt_entries (LE := le_codec) t' = Ok [mkDirEntry 5 [97] 0].
Proof.
  destruct (dt_insert_correct (LES := le_codec_spec) empty_dir [97] 5 0 [] empty_dir_wf) as (t' & H1 & _ & H2);
    [done|constructor|done|apply not_elem_of_nil|done|done|by apply Forall_cons; split; [|constructor]|done|].
  by exists t'.
Defined.

Lemma dt_insert_overwrites_live_slot_witness :
  dt_lookup (LE := le_codec) [98] gap_dir <> Ok None /\
  exists t' es', dt_insert (LE := le_codec) [99] 7 0 gap_dir = Ok (true, t') /\
    dt_entries (LE := le_codec) t' = Ok es' /\ es' !! 0%nat = Some (mkDirEntry 7 [99] 0).
Proof.
  split; [vm_compute; done|].
  apply (dt_insert_overwrites_live_slot (LES := le_codec_spec) gap_dir [99] 7 0 0 gap_dir_wf);
    [vm_compute; done|vm_compute; done|rewrite gap_dir_stbl; done|done|done|by apply Forall_cons; split; [|constructor]|done].
Defined.

Lemma dt_remove_correct_witness :
  exists t', dt_remove (LE := le_codec) [98] gap_dir = Ok (Some 6, t') /\ dt_entries (LE := le_codec) t' = Ok [].
Proof.
  destruct (dt_remove_correct (LE := le_codec) gap_dir [98] [mkDirEntry 6 [98] 0] gap_dir_wf)
    as [[H _]|(t' & b & e & a & He & _ & _ & H1 & _ & H2)]; [vm_compute; done| |].
  - apply Forall_cons in H as [H _]. by destruct H.
  - exists t'. destruct b as [|e0 b]; cbn [app] in He.
    + injection He as <- <-. exact (conj H1 H2).
    + injection He as _ He. destruct b; discriminate He.
Defined.

(** ** The cursor *)

(** The entries a client visits: the index of the cursor while there is more,
    then the next one. *)
Fixpoint cursor_walk (fuel : nat) (num_entries : Z) (c : DirectoryCursor) : result (list Z) :=
  match fuel with
  | O => Ok []
  | S fuel =>
      if cursor_has_more num_entries c then
        let! c' := cursor_advance c in
        let! rest := cursor_walk fuel num_entries c' in
        Ok (match entry_index c with Some i => i :: rest | None => rest end)
      else Ok []
  end.

Lemma cursor_walk_from i num_entries fuel :
  0 <= i <= num_entries -> num_entries + 2 < 2 ^ 64 -> num_entries - i < Z.of_nat fuel ->
  cursor_walk fuel num_entries (mkCursor (ENTRY_BASE + i)) = Ok (range i num_entries).
Proof.
  revert i. induction fuel as [|fuel IH]; intros i Hi Hn Hf; [lia|]. cbn [cursor_walk]. unfold cursor_has_more, entry_index, cursor_advance, ENTRY_BASE. cbn [cur_offset].
  destruct (Z.ltb_spec (2 + i) 2); [lia|]. rewrite Z.add_simpl_l. destruct (Z.ltb_spec i num_entries).
  - rewrite add_u64_ok by lia. cbn [obind]. rewrite <- Z.add_assoc. unfold ENTRY_BASE in IH. rewrite IH by lia. cbn [obind]. by rewrite (range_cons i) by lia.
  - by rewrite range_nil by lia.
Qed.

(** A fresh cursor visits every entry once, in order, and stops; a resumed one
    goes on where it was; one at [.] or [..] comes to the entries. *)
Theorem cursor_visits_all num_entries (c : DirectoryCursor) :
  0 <= num_entries -> num_entries + 2 < 2 ^ 64 -> 0 <= cur_offset c <= num_entries + 2 ->
  cursor_walk (Z.to_nat num_entries + 3) num_entries c = Ok (range (Z.max 0 (cur_offset c - 2)) num_entries).
Proof.
  intros H0 Hn Hc. destruct c as [o]. cbn [cur_offset] in *. destruct (Z.leb_spec 2 o).
  - replace (mkCursor o) with (mkCursor (ENTRY_BASE + (o - 2))) by (unfold ENTRY_BASE; f_equal; lia). rewrite cursor_walk_from by lia. by rewrite Z.max_r by lia.
  - assert (H1 : cursor_walk (Z.to_nat num_entries + 2) num_entries (mkCursor 1) = Ok (range 0 num_entries)).
    { replace (Z.to_nat num_entries + 2)%nat with (S (Z.to_nat num_entries + 1))%nat by lia. cbn [cursor_walk]. change (cursor_has_more num_entries (mkCursor 1)) with true. cbn match.
      change (cursor_advance (mkCursor 1)) with (Ok (E := StorageError) (mkCursor (ENTRY_BASE + 0))). cbn [obind]. rewrite cursor_walk_from by lia. done. }
    rewrite Z.max_l by lia. destruct (Z.eq_dec o 1) as [->|].
    + replace (Z.to_nat num_entries + 3)%nat with (S (Z.to_nat num_entries + 2))%nat by lia. cbn [cursor_walk]. change (cursor_has_more num_entries (mkCursor 1)) with true. cbn match.
      change (cursor_advance (mkCursor 1)) with (Ok (E := StorageError) (mkCursor (ENTRY_BASE + 0))). cbn [obind]. rewrite cursor_walk_from by lia. done.
    + assert (o = 0) as -> by lia. replace (Z.to_nat num_entries + 3)%nat with (S (Z.to_nat num_entries + 2))%nat by lia. cbn [cursor_walk].
      change (cursor_has_more num_entries (mkCursor 0)) with true. cbn match. change (cursor_advance (mkCursor 0)) with (Ok (E := StorageError) (mkCursor 1)). cbn [obind]. by rewrite H1.
Qed.
