(* ===== verification/LogMgr.v ===== *)
(** * Journal log manager ([src/src/journal/logmgr.rs])

    [LogManager] buffers log records in two log pages and writes them to the
    log device, whose state [W] is threaded beside the manager (the program
    shares it through an [Arc]). The methods that only read or write one page
    of the device take the manager as an argument. *)

From S2P Require Import Prelude Types Storage.
From Stdlib Require Import ZArith Lia.

Definition LOG_BUFFER_SIZE : Z := LOGPSIZE * 2.
Definition LRD_SIZE : Z := 36.

Record LogManager := mkLog {
  lm_logsuper : LogSuper;
  lm_log_id : string;
  lm_inline : bool;
  lm_write_offset : Z;
  lm_prev_record_offset : Z;
  lm_log_buffer : list byte;
  lm_buffer_dirty : bool;
  lm_log_pages : Z;
  lm_log_base : Z }.

Section logmgr.
Context {LE : LittleEndian}.

Definition lm_new (logsuper : LogSuper) (log_base : Z) : LogManager :=
  let inline := negb (Z.land (Z.shiftr (ls_get_flag logsuper) 9) 1 =? 0) in
  mkLog logsuper "" inline 0 0 (zeros (Z.to_nat LOG_BUFFER_SIZE)) false (ls_page_size logsuper) log_base.

Definition lm_validate (l : LogManager) : bool :=
  (ls_magic_val (lm_logsuper l) =? LOGMAGIC) && (ls_get_version (lm_logsuper l) =? LOGVERSION).
Definition lm_needs_replay (l : LogManager) : bool := negb (ls_get_state (lm_logsuper l) =? LOGREDONE).
Definition lm_has_wrapped (l : LogManager) : bool := ls_get_state (lm_logsuper l) =? LOGWRAP.
Definition lm_log_size_bytes (l : LogManager) : Z := ls_page_size (lm_logsuper l) * LOGPSIZE.
Definition lm_end (l : LogManager) : Z := ls_get_end (lm_logsuper l).

Definition lm_data_start (l : LogManager) : result Z := add_u64 (lm_log_base l) (BLOCK_SIZE * 2).
Definition lm_page_offset (page_num : Z) (l : LogManager) : result Z :=
  let! start := add_u64 (lm_log_base l) (BLOCK_SIZE * 2) in add_u64 start (page_num * LOGPSIZE).

(** ** Superblock of the log *)

(** [if data.len() >= b { field = data[a..b] }]. *)
Definition super_field (data : list byte) (a b : Z) (n : nat) : list byte :=
  if b <=? zlen data then zslice data a b else zeros n.

Definition read_super {W} `{Storage W} (log_base : Z) : ST W StorageError LogSuper :=
  let* offset := slift (add_u64 log_base BLOCK_SIZE) in
  let* data := read_bytes offset BLOCK_SIZE in
  sret (mkLogSuper
    (super_field data 0 4 4) (super_field data 4 8 4) (super_field data 8 12 4)
    (super_field data 12 16 4) (super_field data 16 20 4) (super_field data 20 24 4)
    (super_field data 24 28 4) (super_field data 28 32 4) (super_field data 32 36 4)
    (super_field data 36 52 16) (super_field data 52 68 16) (ls_active logsuper_default)).

(** The table of active volumes, entry by entry. *)
Fixpoint put_active (entries : list (list byte)) (i : Z) (buf : list byte) : result (list byte) :=
  match entries with
  | [] => Ok buf
  | uuid :: entries' =>
      let offset := 68 + i * 16 in
      let active_bytes := Z.of_nat MAX_ACTIVE * 16 in
      let! buf := if (offset + 16 <=? zlen buf) && (offset + 16 <=? 68 + active_bytes)
                  then splice buf offset uuid else Ok buf in
      put_active entries' (i + 1) buf
  end.

Definition super_bytes (s : LogSuper) : result (list byte) :=
  let! buf := splice (zeros (Z.to_nat LOGPSIZE)) 0 (ls_magic s) in
  let! buf := splice buf 4 (ls_version s) in
  let! buf := splice buf 8 (ls_serial s) in
  let! buf := splice buf 12 (ls_size s) in
  let! buf := splice buf 16 (ls_bsize s) in
  let! buf := splice buf 20 (ls_l2bsize s) in
  let! buf := splice buf 24 (ls_flag s) in
  let! buf := splice buf 28 (ls_state s) in
  let! buf := splice buf 32 (ls_end s) in
  let! buf := splice buf 36 (ls_uuid s) in
  let! buf := splice buf 52 (ls_label s) in
  put_active (ls_active s) 0 buf.

Definition write_super {W} `{Storage W} (s : LogSuper) (l : LogManager) : ST W StorageError unit :=
  let* buf := slift (super_bytes s) in
  let* offset := slift (add_u64 (lm_log_base l) BLOCK_SIZE) in
  write_bytes offset buf.

Definition read_page {W} `{Storage W} (page_num : Z) (l : LogManager) : ST W StorageError (list byte) :=
  let* offset := slift (lm_page_offset page_num l) in read_bytes offset LOGPSIZE.

Definition write_page {W} `{Storage W} (page_num : Z) (data : list byte) (l : LogManager) : ST W StorageError unit :=
  let* offset := slift (lm_page_offset page_num l) in write_bytes offset data.

(** ** Log records *)

(** A descriptor as 36 bytes. *)
Definition lrd_bytes (r : Lrd) : result (list byte) :=
  let! buf := splice (zeros 36) 0 (lrd_f_logtid r) in
  let! buf := splice buf 4 (lrd_f_backchain r) in
  let! buf := splice buf 8 (lrd_f_type r) in
  let! buf := splice buf 10 (lrd_f_length r) in
  let! buf := splice buf 12 (lrd_f_aggregate r) in
  let! buf := splice buf 16 (lrd_f_fileset r) in
  let! buf := splice buf 20 (lrd_f_inode r) in
  let! buf := splice buf 24 (lrd_f_rtype r) in
  let! buf := splice buf 26 (lrd_f_l2linesize r) in
  let! buf := splice buf 28 (len_addr (lrd_f_pxd r)) in
  splice buf 32 (addr2 (lrd_f_pxd r)).

(** The descriptor [append_log_record] builds for a block. *)
Definition redopage_lrd (txid prev block : Z) (data_len : Z) : Lrd :=
  mkLrd (write_u32 (as_u32 txid)) (write_u32 (as_u32 prev)) (write_u16 LOG_REDOPAGE)
    (write_u16 (as_u16 data_len)) (write_u32 0) (zeros 4) (zeros 4) (write_u16 LOG_INODE) (zeros 2)
    (pxd_set_length (pxd_set_address pxd_default block) 1).

(** The descriptor [commit_transaction] builds. *)
Definition commit_lrd (txid prev : Z) : Lrd :=
  mkLrd (write_u32 (as_u32 txid)) (write_u32 (as_u32 prev)) (write_u16 LOG_COMMIT) (write_u16 0)
    (write_u32 0) (zeros 4) (zeros 4) (zeros 2) (zeros 2) pxd_default.

(** ** Operations on the manager and the device *)

Context {W : Type} `{Storage W}.
Abbreviation LS := (LogManager * W)%type.

Definition on_log {A} (io : LogManager -> ST W StorageError A) : ST LS StorageError A := fun s =>
  let (r, w) := io s.1 s.2 in (r, (s.1, w)).

Definition set_log (f : LogManager -> LogManager) : ST LS StorageError unit := smod (fun s => (f s.1, s.2)).

(** The pages of the buffer with data, one after the other. *)
Definition flush_page (start_page i : Z) : ST LS StorageError unit := fun s =>
  (let* page_num := slift (add_u32 start_page (as_u32 i)) in
   let buf_start := i * LOGPSIZE in
   let buf_end := Z.min (buf_start + LOGPSIZE) (zlen (lm_log_buffer s.1)) in
   let* chunk := slift (slice (lm_log_buffer s.1) buf_start buf_end) in
   on_log (write_page page_num chunk)) s.

Definition flush_journal : ST LS StorageError unit := fun s =>
  let l := s.1 in
  (let* _ :=
     if lm_buffer_dirty l && (0 <? lm_write_offset l) then
       let buffer_start := lm_write_offset l - lm_write_offset l mod LOG_BUFFER_SIZE in
       let bytes_in_buffer := lm_write_offset l - buffer_start in
       let dirty_pages := (bytes_in_buffer + LOGPSIZE - 1) / LOGPSIZE in
       let start_page := as_u32 (buffer_start / LOGPSIZE) in
       sfor (range 0 dirty_pages) (flush_page start_page)
     else sret tt in
   let* _ := on_log (fun _ => flush_metadata) in
   let* _ := on_log (fun _ => sync) in
   let* _ := set_log (fun l => mkLog (ls_set_end (lm_logsuper l) (as_u32 (lm_write_offset l))) (lm_log_id l)
                (lm_inline l) (lm_write_offset l) (lm_prev_record_offset l) (lm_log_buffer l) (lm_buffer_dirty l)
                (lm_log_pages l) (lm_log_base l)) in
   fun s => on_log (write_super (lm_logsuper s.1)) s) s.

(** The flush of a full buffer that starts the next buffer segment. *)
Definition next_segment (needed : Z) : ST LS StorageError unit := fun s =>
  if LOG_BUFFER_SIZE <? lm_write_offset s.1 mod LOG_BUFFER_SIZE + needed then
    (let* _ := flush_journal in
     set_log (fun l => mkLog (lm_logsuper l) (lm_log_id l) (lm_inline l)
       ((lm_write_offset l + LOG_BUFFER_SIZE - 1) / LOG_BUFFER_SIZE * LOG_BUFFER_SIZE)
       (lm_prev_record_offset l) (zeros (length (lm_log_buffer l))) false (lm_log_pages l) (lm_log_base l))) s
  else (Ok tt, s).

(** The bytes of a record, stored at the write offset. *)
Definition store_record (r : Lrd) (data : list byte) : ST LS StorageError unit := fun s =>
  let l := s.1 in
  let buf_off := lm_write_offset l mod LOG_BUFFER_SIZE in
  match (let! bytes := lrd_bytes r in
         let! buf := splice (lm_log_buffer l) buf_off bytes in
         splice buf (buf_off + LRD_SIZE) data) with
  | Ok buf => (Ok tt, (mkLog (lm_logsuper l) (lm_log_id l) (lm_inline l) (lm_write_offset l)
                         (lm_prev_record_offset l) buf true (lm_log_pages l) (lm_log_base l), s.2))
  | Err e => (Err e, s)
  | Panic => (Panic, s)
  end.

Definition append_log_record (txid block : Z) (data : list byte) : ST LS StorageError unit :=
  let record_total := LRD_SIZE + zlen data in
  let* _ := next_segment record_total in
  fun s =>
  (let* _ := store_record (redopage_lrd txid (lm_prev_record_offset s.1) block (zlen data)) data in
   set_log (fun l => mkLog (lm_logsuper l) (lm_log_id l) (lm_inline l) (lm_write_offset l + record_total)
     (lm_write_offset l) (lm_log_buffer l) (lm_buffer_dirty l) (lm_log_pages l) (lm_log_base l))) s.

Definition commit_transaction (txid : Z) : ST LS StorageError unit :=
  let* _ := next_segment LRD_SIZE in
  fun s =>
  (let* _ := store_record (commit_lrd txid (lm_prev_record_offset s.1)) [] in
   let* _ := set_log (fun l => mkLog (lm_logsuper l) (lm_log_id l) (lm_inline l) (lm_write_offset l + LRD_SIZE)
     (lm_prev_record_offset l) (lm_log_buffer l) (lm_buffer_dirty l) (lm_log_pages l) (lm_log_base l)) in
   let* _ := flush_journal in
   set_log (fun l => mkLog (lm_logsuper l) (lm_log_id l) (lm_inline l) (lm_write_offset l)
     0 (lm_log_buffer l) (lm_buffer_dirty l) (lm_log_pages l) (lm_log_base l))) s.
End logmgr.

(** * Properties *)

Section log_bytes.
Context `{LES : LittleEndianSpec}.

Ltac put_field := rewrite splice_ok by (rewrite ?zlen_zsplice; zl); cbn [obind]; rewrite ?zsplice_app by zl.

(** The bytes of a descriptor, field after field. *)
Definition lrd_flat (r : Lrd) : list byte :=
  lrd_f_logtid r ++ lrd_f_backchain r ++ lrd_f_type r ++ lrd_f_length r ++ lrd_f_aggregate r ++
  lrd_f_fileset r ++ lrd_f_inode r ++ lrd_f_rtype r ++ lrd_f_l2linesize r ++ pxd_into_bytes (lrd_f_pxd r).

Lemma zsplice_full {A} (l d : list A) : zlen d = zlen l -> zsplice l 0 d = d.
Proof.
  intros Hl. unfold zsplice, zlen in *. cbn [Z.to_nat take Nat.add].
  rewrite drop_ge, app_nil_r by lia. done.
Qed.

Lemma lrd_bytes_ok r : wf_lrd r -> lrd_bytes r = Ok (lrd_flat r) /\ zlen (lrd_flat r) = 36.
Proof.
  intros (H1 & H2 & H3 & H4 & H5 & H6 & H7 & H8 & H9 & H10 & H11).
  apply zlen_of_length in H1, H2, H3, H4, H5, H6, H7, H8, H9, H10, H11.
  assert (Hz : zlen (zeros 36) = 36) by done.
  assert (Hflat : zlen (lrd_flat r) = 36) by (unfold lrd_flat, pxd_into_bytes; zl).
  split; [|done]. unfold lrd_bytes. do 11 put_field.
  rewrite <- !app_assoc. rewrite zsplice_full; [done|]. unfold lrd_flat, pxd_into_bytes in Hflat. lia.
Qed.

(** The fixed part of the log superblock. *)
Definition super_head (s : LogSuper) : list byte :=
  ls_magic s ++ ls_version s ++ ls_serial s ++ ls_size s ++ ls_bsize s ++ ls_l2bsize s ++ ls_flag s ++
  ls_state s ++ ls_end s ++ ls_uuid s ++ ls_label s.

Lemma put_active_ok entries i buf :
  zlen buf = 4096 -> 0 <= i -> Forall (fun e => length e = 16%nat) entries ->
  exists buf', put_active entries i buf = Ok buf' /\ same_outside 68 4028 buf buf'.
Proof.
  intros Hb Hi He. revert i buf Hb Hi. induction He as [|e entries He Hes IH]; intros i buf Hb Hi; cbn [put_active].
  { exists buf. split; [done|apply same_outside_refl]. }
  destruct (_ && _) eqn:Hc; cbn [obind].
  - apply andb_true_iff in Hc as [Hc1 Hc2]. assert (He16 : zlen e = 16) by (unfold zlen; lia).
    rewrite splice_ok by lia. cbn [obind].
    destruct (IH (i + 1) (zsplice buf (68 + i * 16) e)) as (buf' & -> & Hs); [rewrite zlen_zsplice; lia|lia|].
    exists buf'. split; [done|]. eapply same_outside_trans; [|done].
    eapply same_outside_sub; [apply same_outside_zsplice; lia|lia|lia].
  - destruct (IH (i + 1) buf) as (buf' & -> & Hs); [done|lia|]. by exists buf'.
Qed.

Lemma super_bytes_ok s :
  wf_logsuper s -> exists buf, super_bytes s = Ok buf /\ zlen buf = 4096 /\ zslice buf 0 68 = super_head s.
Proof.
  intros (H1 & H2 & H3 & H4 & H5 & H6 & H7 & H8 & H9 & H10 & H11 & _ & Hact).
  apply zlen_of_length in H1, H2, H3, H4, H5, H6, H7, H8, H9, H10, H11.
  assert (Hz : zlen (zeros (Z.to_nat LOGPSIZE)) = 4096) by apply zlen_replicate.
  unfold super_bytes. do 11 put_field. rewrite <- !app_assoc. fold (super_head s).
  assert (Hh : zlen (super_head s) = 68) by (unfold super_head; zl).
  change (ls_magic s ++ ls_version s ++ ls_serial s ++ ls_size s ++ ls_bsize s ++ ls_l2bsize s ++ ls_flag s ++
    ls_state s ++ ls_end s ++ ls_uuid s ++ ls_label s) with (super_head s).
  destruct (put_active_ok (ls_active s) 0 (zsplice (zeros (Z.to_nat LOGPSIZE)) 0 (super_head s)))
    as (buf & -> & Hs); [rewrite zlen_zsplice; lia|lia|done|].
  exists buf. split_and!; [done|destruct Hs as [-> _]; rewrite zlen_zsplice; lia|].
  rewrite (same_outside_zslice _ _ _ _ _ _ Hs) by lia. rewrite (zslice_zsplice_same _ _ 0) by lia. done.
Qed.
End log_bytes.

Section log_device.
Context `{LES : LittleEndianSpec} {W : Type} {SW : Storage W} {SS : StorageSpec W} {SR : StorageReliable W}.

(** A successful write of bytes. *)
Lemma write_bytes_run off data (w : W) :
  st_wf w -> 0 <= off -> off + zlen data <= zlen (contents w) ->
  exists w', write_bytes off data w = (Ok tt, w') /\ st_wf w' /\ contents w' = zsplice (contents w) off data.
Proof.
  intros Hw Ho Hr. pose proof (st_write_bytes_ok off data w Hw Ho Hr) as Hok.
  destruct (st_write_bytes off data w Hw Ho) as (Hw' & _ & Hc). destruct (Hc Hok) as [_ Hc'].
  destruct (write_bytes off data w) as [o w']. cbn [fst snd] in *. subst o. by exists w'.
Qed.

(** Where the parts of the log are. *)
Definition log_data (l : LogManager) : Z := lm_log_base l + 8192.
Definition buffer_start (l : LogManager) : Z := lm_write_offset l - lm_write_offset l mod 8192.

(** The log as a stream of bytes: what is on the device before the buffered
    segment, then what is in the buffer. *)
Definition log_stream (l : LogManager) (w : W) : list byte :=
  zslice (contents w) (log_data l) (log_data l + buffer_start l) ++
  zslice (lm_log_buffer l) 0 (lm_write_offset l - buffer_start l).

(** What records of whole blocks and commit records leave in the segment: at
    most one record with a block, and descriptors. No such sum is a whole
    segment, so the buffer never becomes full to the last byte. *)
Definition segment_fill (n : Z) : Prop := exists a b, 0 <= a /\ 0 <= b /\ n = 4132 * a + 36 * b.

(** The rest of a segment after its first [n] bytes, with nothing in it. *)
Definition blank (n : Z) : list byte := zeros (Z.to_nat (8192 - n)).

Lemma zlen_blank n : 0 <= n <= 8192 -> zlen (blank n) = 8192 - n.
Proof. intros Hn. unfold blank, zeros, zlen. rewrite length_replicate. lia. Qed.

Lemma zslice_blank n a b : 0 <= a <= b -> n + b = 8192 -> zslice (blank n) a b = blank (n + a).
Proof. intros Ha Hb. unfold blank, zeros, zslice. rewrite drop_replicate, take_replicate. f_equal. lia. Qed.

(** The state the operations keep: a buffer of two pages, dirty exactly when it
    holds data, with zeros behind the data. *)
Definition lm_wf (l : LogManager) : Prop :=
  zlen (lm_log_buffer l) = 8192 /\ wf_logsuper (lm_logsuper l) /\ 0 <= lm_log_base l /\
  0 <= lm_write_offset l /\ (lm_buffer_dirty l = true <-> lm_write_offset l mod 8192 <> 0) /\
  segment_fill (lm_write_offset l mod 8192) /\
  zslice (lm_log_buffer l) (lm_write_offset l mod 8192) 8192 = blank (lm_write_offset l mod 8192).

(** The segment being filled lies on the device, and offsets fit in 32 bits. *)
Definition lm_room (l : LogManager) (w : W) : Prop :=
  log_data l + buffer_start l + 8192 <= zlen (contents w) /\ lm_write_offset l + 8192 < 2 ^ 32.

Lemma buffer_start_facts l :
  0 <= lm_write_offset l ->
  0 <= buffer_start l <= lm_write_offset l /\ lm_write_offset l - buffer_start l = lm_write_offset l mod 8192 /\
  lm_write_offset l < buffer_start l + 8192 /\ exists q, buffer_start l = q * 8192.
Proof.
  intros Ho. unfold buffer_start. pose proof (Z.mod_pos_bound (lm_write_offset l) 8192 ltac:(lia)).
  pose proof (Z.div_mod (lm_write_offset l) 8192 ltac:(lia)). pose proof (Z.div_pos (lm_write_offset l) 8192 Ho ltac:(lia)).
  split_and!; try lia. exists (lm_write_offset l / 8192). lia.
Qed.

(** One page of the buffer reaches its place in the log. *)
Lemma flush_page_ok l (w : W) i :
  lm_wf l -> st_wf w -> lm_room l w -> 0 <= i < 2 ->
  exists w', flush_page (as_u32 (buffer_start l / LOGPSIZE)) i (l, w) = (Ok tt, (l, w')) /\ st_wf w' /\
    contents w' = zsplice (contents w) (log_data l + buffer_start l + i * 4096)
                    (zslice (lm_log_buffer l) (i * 4096) (i * 4096 + 4096)).
Proof.
  intros (Hbuf & _ & Hbase & Ho & _) Hw [Hr1 Hr2] Hi. pose proof (st_bound w Hw).
  destruct (buffer_start_facts l Ho) as (Hbs & _ & _ & q & Hq). unfold log_data in *.
  assert (Hdiv : buffer_start l / LOGPSIZE = q * 2) by (rewrite Hq; unfold LOGPSIZE; symmetry; apply Z.div_unique_exact; lia).
  destruct (write_bytes_run (lm_log_base l + 8192 + buffer_start l + i * 4096)
    (zslice (lm_log_buffer l) (i * 4096) (i * 4096 + 4096)) w) as (w1 & Hw1 & Hwf1 & Hc1);
    [done|lia|rewrite zlen_zslice; lia|].
  exists w1. split_and!; [|done|done].
  assert (Ho1 : lm_page_offset (q * 2 + i) l = Ok (lm_log_base l + 8192 + buffer_start l + i * 4096)).
  { unfold lm_page_offset. rewrite add_u64_ok by (unfold BLOCK_SIZE, PSIZE; lia). cbn [obind].
    rewrite add_u64_ok by (unfold BLOCK_SIZE, PSIZE, LOGPSIZE; lia). f_equal. unfold BLOCK_SIZE, PSIZE, LOGPSIZE. lia. }
  unfold flush_page. cbn [fst]. rewrite Hdiv, !as_u32_small by lia. rewrite add_u32_ok by lia.
  rewrite Hbuf. unfold LOGPSIZE. rewrite Z.min_l by lia. rewrite slice_ok by lia.
  unfold sbind, slift, on_log, write_page. cbn [fst snd]. unfold slift, sbind. rewrite Ho1. by rewrite Hw1.
Qed.

Lemma flush_pages_ok l (w : W) n :
  lm_wf l -> st_wf w -> lm_room l w -> 0 <= n <= 2 ->
  exists w', sfor (range 0 n) (flush_page (as_u32 (buffer_start l / LOGPSIZE))) (l, w) = (Ok tt, (l, w')) /\
    st_wf w' /\
    contents w' = zsplice (contents w) (log_data l + buffer_start l) (zslice (lm_log_buffer l) 0 (n * 4096)).
Proof.
  intros Hl Hw Hr Hn. destruct (Hl) as (Hbuf & _ & Hbase & Ho & _). pose proof Hr as [Hr1 _].
  destruct (buffer_start_facts l Ho) as (Hbs & _).
  assert (n = 0 \/ n = 1 \/ n = 2) as [-> | [-> | ->]] by lia.
  - exists w. split_and!; [done|done|]. change (zslice _ 0 _) with (@nil byte). by rewrite zsplice_nil.
  - destruct (flush_page_ok l w 0) as (w1 & H1 & Hw1 & Hc1); [done|done|done|lia|].
    exists w1. rewrite range_cons, range_nil by lia. cbn [sfor]. rewrite (sbind_ok _ _ _ _ _ H1).
    split_and!; [done|done|]. rewrite Hc1. by rewrite Z.add_0_r.
  - destruct (flush_page_ok l w 0) as (w1 & H1 & Hw1 & Hc1); [done|done|done|lia|].
    assert (Hlen : zlen (contents w1) = zlen (contents w)).
    { rewrite Hc1, zlen_zsplice; rewrite ?zlen_zslice; unfold log_data in *; lia. }
    destruct (flush_page_ok l w1 1) as (w2 & H2 & Hw2 & Hc2); [done|done|split; [lia|apply Hr]|lia|].
    exists w2. rewrite !range_cons, range_nil by lia. cbn [sfor].
    rewrite (sbind_ok _ _ _ _ _ H1), (sbind_ok _ _ _ _ _ H2).
    split_and!; [done|done|]. rewrite Hc2, Hc1. rewrite Z.add_0_r.
    unfold log_data in *. rewrite zsplice_app by (rewrite ?zlen_zslice; lia).
    rewrite zslice_cat by lia. done.
Qed.

(** The superblock is written and read back, but for the table of active
    volumes, which [read_super] leaves at its default. *)
Lemma write_super_run s l (w : W) :
  wf_logsuper s -> st_wf w -> 0 <= lm_log_base l -> lm_log_base l + 8192 <= zlen (contents w) ->
  exists w' buf, write_super s l w = (Ok tt, w') /\ st_wf w' /\
    contents w' = zsplice (contents w) (lm_log_base l + 4096) buf /\ zlen buf = 4096 /\ zslice buf 0 68 = super_head s.
Proof.
  intros Hs Hw Hb Hr. pose proof (st_bound w Hw). destruct (super_bytes_ok s Hs) as (buf & Hbuf & Hlen & Hhead).
  destruct (write_bytes_run (lm_log_base l + 4096) buf w) as (w1 & Hw1 & Hwf1 & Hc1); [done|lia|lia|].
  exists w1, buf. split_and!; [|done|done|done|done].
  unfold write_super. rewrite Hbuf. unfold sbind, slift. rewrite add_u64_ok by (unfold BLOCK_SIZE, PSIZE; lia). done.
Qed.

Lemma read_super_run s base (w : W) buf :
  wf_logsuper s -> st_wf w -> 0 <= base -> base + 8192 <= zlen (contents w) ->
  zslice (contents w) (base + 4096) (base + 8192) = buf -> zslice buf 0 68 = super_head s ->
  (read_super base w).1 = Ok (mkLogSuper (ls_magic s) (ls_version s) (ls_serial s) (ls_size s) (ls_bsize s) (ls_l2bsize s)
    (ls_flag s) (ls_state s) (ls_end s) (ls_uuid s) (ls_label s) (ls_active logsuper_default)).
Proof.
  intros (H1 & H2 & H3 & H4 & H5 & H6 & H7 & H8 & H9 & H10 & H11 & _) Hw Hb Hr Hbuf Hhead.
  apply zlen_of_length in H1, H2, H3, H4, H5, H6, H7, H8, H9, H10, H11.
  pose proof (st_bound w Hw). unfold read_super, sbind, slift. rewrite add_u64_ok by (unfold BLOCK_SIZE, PSIZE; lia).
  pose proof (st_read_bytes_ok (base + BLOCK_SIZE) BLOCK_SIZE w Hw) as Hrd. unfold BLOCK_SIZE, PSIZE in *.
  destruct (read_bytes _ _ w) as [o w'] eqn:Ho. cbn [fst] in Hrd. rewrite Hrd by lia. cbn [fst].
  replace (base + 4096 + 4096) with (base + 8192) by lia. rewrite Hbuf.
  assert (Hl : zlen buf = 4096) by (rewrite <- Hbuf, zlen_zslice; lia).
  assert (Hf : forall a b n, 0 <= a -> b <= 68 -> super_field buf a b n = zslice (super_head s) a b).
  { intros a b n Ha Hb'. unfold super_field. rewrite Hl. destruct (b <=? 4096) eqn:E; [|lia].
    rewrite <- Hhead, zslice_zslice by lia. f_equal; lia. }
  unfold sret. cbn [fst]. rewrite !Hf by lia. unfold super_head. repeat f_equal.
  all: repeat first [ rewrite zslice_app_r by zl | rewrite zslice_app_l by zl ]; apply zslice_whole; lia.
Qed.

Lemma segment_fill_le n : segment_fill n -> n <= 8192 -> n < 8192.
Proof. intros (a & b & Ha & Hb & ->) Hn. assert (a = 0 \/ a = 1) as [-> | ->] by lia; lia. Qed.

(** The manager after [flush_journal]. *)
Definition lm_flushed (l : LogManager) : LogManager :=
  mkLog (ls_set_end (lm_logsuper l) (as_u32 (lm_write_offset l))) (lm_log_id l) (lm_inline l) (lm_write_offset l)
    (lm_prev_record_offset l) (lm_log_buffer l) (lm_buffer_dirty l) (lm_log_pages l) (lm_log_base l).

Lemma as_u32_range z : 0 <= as_u32 z < 2 ^ 32.
Proof. apply Z.mod_pos_bound. lia. Qed.

Lemma lm_flushed_wf l : lm_wf l -> lm_wf (lm_flushed l).
Proof.
  intros (H1 & H2 & H3). split; [done|split; [|done]].
  destruct H2 as (? & ? & ? & ? & ? & ? & ? & ? & ? & ? & ? & ? & ?). split_and!; try done.
  apply length_write_u32, as_u32_range.
Qed.

(** The pages written by [flush_journal] hold the segment. *)
Lemma flush_segment_ok l (w : W) :
  lm_wf l -> st_wf w -> lm_room l w ->
  exists w' n,
    (if lm_buffer_dirty l && (0 <? lm_write_offset l) then
       sfor (range 0 ((lm_write_offset l - buffer_start l + LOGPSIZE - 1) / LOGPSIZE))
         (flush_page (as_u32 (buffer_start l / LOGPSIZE)))
     else sret tt) (l, w) = (Ok tt, (l, w')) /\ st_wf w' /\
    lm_write_offset l - buffer_start l <= n * 4096 <= 8192 /\
    contents w' = zsplice (contents w) (log_data l + buffer_start l) (zslice (lm_log_buffer l) 0 (n * 4096)).
Proof.
  intros Hl Hw Hr. destruct (Hl) as (_ & _ & _ & Ho & Hd & _).
  destruct (buffer_start_facts l Ho) as (Hbs & Hmod & Hlt & _).
  destruct (lm_buffer_dirty l && _) eqn:Hc.
  - set (n := (lm_write_offset l - buffer_start l + LOGPSIZE - 1) / LOGPSIZE).
    assert (Hn : lm_write_offset l - buffer_start l <= n * 4096 /\ n * 4096 <= lm_write_offset l - buffer_start l + 4095).
    { subst n. unfold LOGPSIZE.
      pose proof (Z.div_mod (lm_write_offset l - buffer_start l + 4096 - 1) 4096 ltac:(lia)).
      pose proof (Z.mod_pos_bound (lm_write_offset l - buffer_start l + 4096 - 1) 4096 ltac:(lia)). lia. }
    destruct (flush_pages_ok l w n) as (w' & Hrun & Hw' & Hc'); [done..|lia|].
    exists w', n. split_and!; [done|done|lia|lia|done].
  - assert (Hz : lm_write_offset l - buffer_start l = 0).
    { rewrite Hmod. apply andb_false_iff in Hc as [Hc|Hc].
      - destruct (decide (lm_write_offset l mod 8192 = 0)) as [|Hne]; [done|]. apply Hd in Hne. congruence.
      - replace (lm_write_offset l) with 0 by lia. done. }
    exists w, 0. split_and!; [done|done|lia|lia|].
    change (zslice _ 0 _) with (@nil byte). by rewrite zsplice_nil.
Qed.

(** The device after a flush: the stream, then the superblock that points to
    its end; nothing outside the log area is written. A segment of which both
    pages hold data is written whole, with the zeros behind the data. *)
Definition on_device (l : LogManager) (w : W) (stream : list byte) : Prop :=
  zslice (contents w) (log_data l) (log_data l + lm_write_offset l) = stream /\
  zslice (zslice (contents w) (lm_log_base l + 4096) (lm_log_base l + 8192)) 0 68 = super_head (lm_logsuper l) /\
  (4096 < lm_write_offset l mod 8192 ->
   zslice (contents w) (log_data l + lm_write_offset l) (log_data l + buffer_start l + 8192) = blank (lm_write_offset l mod 8192)).

Lemma flush_journal_ok l (w : W) :
  lm_wf l -> st_wf w -> lm_room l w ->
  exists w', flush_journal (l, w) = (Ok tt, (lm_flushed l, w')) /\ st_wf w' /\
    on_device (lm_flushed l) w' (log_stream l w) /\
    same_outside (lm_log_base l + 4096) (4096 + buffer_start l + 8192) (contents w) (contents w').
Proof.
  intros Hl Hw Hr. destruct (Hl) as (Hbuf & Hs & Hb & Ho & _ & _ & Htail). destruct (Hr) as [Hr1 Hr2].
  destruct (buffer_start_facts l Ho) as (Hbs & Hmod & Hlt & _).
  destruct (flush_segment_ok l w Hl Hw Hr) as (w1 & n & Hrun & Hw1 & Hn & Hc1). unfold log_data in *.
  pose proof (st_flush_metadata_ok w1 Hw1) as Hf. destruct (st_flush_metadata w1 Hw1) as [Hw2 Hc2].
  destruct (flush_metadata w1) as [o w2] eqn:E2. cbn [fst snd] in *. subst o.
  pose proof (st_sync_ok w2 Hw2) as Hf. destruct (st_sync w2 Hw2) as [Hw3 Hc3].
  destruct (sync w2) as [o w3] eqn:E3. cbn [fst snd] in *. subst o.
  set (seg := zslice (lm_log_buffer l) 0 (n * 4096)) in *.
  assert (Hseg : zlen seg = n * 4096) by (subst seg; rewrite zlen_zslice; lia).
  assert (Hlen : zlen (contents w1) = zlen (contents w)) by (rewrite Hc1, zlen_zsplice; lia).
  destruct (write_super_run (lm_logsuper (lm_flushed l)) (lm_flushed l) w3) as (w4 & buf & E4 & Hw4 & Hc4 & Hbl & Hbh);
    [apply lm_flushed_wf, Hl|done|done|rewrite Hc3, Hc2; cbn; lia|]. cbn [lm_flushed lm_log_base] in Hc4.
  exists w4. split_and!; [|done| |].
  - unfold flush_journal. cbn [fst]. unfold LOG_BUFFER_SIZE. change (LOGPSIZE * 2) with 8192.
    fold (buffer_start l). rewrite (sbind_ok _ _ _ _ _ Hrun).
    unfold sbind, on_log, set_log, smod. cbn [fst snd]. rewrite E2. cbn [fst snd]. rewrite E3. cbn [fst snd].
    fold (lm_flushed l). by rewrite E4.
  - assert (Hlen4 : zlen (contents w4) = zlen (contents w)) by (rewrite Hc4, zlen_zsplice; rewrite ?Hc3, ?Hc2; lia).
    assert (Hpart : forall x y, 0 <= x <= y -> y <= n * 4096 ->
      zslice (contents w4) (lm_log_base l + 8192 + buffer_start l + x) (lm_log_base l + 8192 + buffer_start l + y) = zslice (lm_log_buffer l) x y).
    { intros x y Hx Hy. rewrite Hc4, Hc3, Hc2, zslice_zsplice_disjoint, Hc1 by lia.
      assert (Hpre : zslice (zsplice (contents w) (lm_log_base l + 8192 + buffer_start l) seg)
        (lm_log_base l + 8192 + buffer_start l) (lm_log_base l + 8192 + buffer_start l + n * 4096) = seg)
        by (apply zslice_zsplice_same; lia).
      transitivity (zslice seg x y); [rewrite <- Hpre at 2; rewrite zslice_zslice by lia; f_equal; lia|].
      subst seg. rewrite zslice_zslice by lia. f_equal; lia. }
    unfold on_device, log_data. change (buffer_start (lm_flushed l)) with (buffer_start l).
    cbn [lm_flushed lm_log_base lm_write_offset]. split_and!.
    + unfold log_stream, log_data. rewrite <- (zslice_cat _ _ (lm_log_base l + 8192 + buffer_start l)) by lia.
      f_equal; [by rewrite Hc4, Hc3, Hc2, zslice_zsplice_disjoint, Hc1, zslice_zsplice_disjoint by lia|].
      rewrite <- Hpart by lia. f_equal; lia.
    + cbn [lm_flushed lm_log_base]. rewrite Hc4, (zslice_zsplice_same _ _ (lm_log_base l + 4096)) by (rewrite ?Hc3, ?Hc2; lia). done.
    + intros Htwo. rewrite <- Htail, <- Hpart by lia. f_equal; lia.
  - rewrite Hc4, Hc3, Hc2. eapply same_outside_trans with (c2 := contents w1).
    + rewrite Hc1. eapply same_outside_sub; [apply same_outside_zsplice; lia|lia|lia].
    + eapply same_outside_sub; [apply same_outside_zsplice; lia|lia|lia].
Qed.

Lemma zlen_log_stream l (w : W) : lm_wf l -> lm_room l w -> zlen (log_stream l w) = lm_write_offset l.
Proof.
  intros (Hbuf & _ & Hb & Ho & _) [Hr _]. destruct (buffer_start_facts l Ho) as (Hbs & Hmod & Hlt & _).
  unfold log_stream, log_data in *. rewrite zlen_app, !zlen_zslice by lia. lia.
Qed.

(** The device has [n] segments after the one being filled. *)
Definition lm_space (n : Z) (l : LogManager) (w : W) : Prop :=
  log_data l + buffer_start l + 8192 + n * 8192 <= zlen (contents w) /\ lm_write_offset l + 8192 + n * 8192 < 2 ^ 32.

Lemma lm_space_room n l (w : W) : 0 <= n -> lm_space n l w -> lm_room l w.
Proof. unfold lm_space, lm_room. lia. Qed.

(** The padding before [needed] bytes: none when they fit in the segment,
    zeros up to its end when both of its pages hold data. *)
Definition padding (l : LogManager) (needed : Z) (pad : list byte) : Prop :=
  zlen pad < 8192 /\
  (lm_write_offset l mod 8192 + needed <= 8192 -> pad = []) /\
  (8192 < lm_write_offset l mod 8192 + needed -> 4096 < lm_write_offset l mod 8192 -> pad = blank (lm_write_offset l mod 8192)).

(** Starting a segment keeps the stream and pads it up to the segment. *)
Lemma next_segment_ok n needed l (w : W) :
  lm_wf l -> st_wf w -> lm_space n l w -> 1 <= n -> needed <= 8192 ->
  exists l' w' pad, next_segment needed (l, w) = (Ok tt, (l', w')) /\ lm_wf l' /\ st_wf w' /\ lm_space (n - 1) l' w' /\
    log_stream l' w' = log_stream l w ++ pad /\ padding l needed pad /\
    lm_write_offset l' mod 8192 + needed <= 8192 /\ lm_prev_record_offset l' = lm_prev_record_offset l /\
    lm_log_base l' = lm_log_base l /\ same_outside (lm_log_base l + 4096) (12288 + buffer_start l) (contents w) (contents w').
Proof.
  intros Hl Hw Hsp Hn Hneed. destruct (Hl) as (Hbuf & Hs & Hb & Ho & Hd & Hfill & _).
  pose proof (lm_space_room n l w ltac:(lia) Hsp) as Hr. destruct (Hsp) as [Hs1 Hs2].
  destruct (buffer_start_facts l Ho) as (Hbs & Hmod & Hlt & q & Hq). unfold next_segment. cbn [fst].
  unfold LOG_BUFFER_SIZE. change (LOGPSIZE * 2) with 8192. destruct (8192 <? _) eqn:Hc.
  - destruct (flush_journal_ok l w Hl Hw Hr) as (w' & Hrun & Hw' & (Hdev & _ & Hblank) & Hsame).
    rewrite (sbind_ok _ _ _ _ _ Hrun). unfold set_log, smod. cbn [fst snd].
    cbn [lm_flushed lm_logsuper lm_log_id lm_inline lm_write_offset lm_prev_record_offset lm_log_buffer lm_log_pages lm_log_base].
    assert (Hup : (lm_write_offset l + 8192 - 1) / 8192 * 8192 = buffer_start l + 8192).
    { replace ((lm_write_offset l + 8192 - 1) / 8192) with (q + 1); [lia|].
      apply Z.div_unique_pos with (lm_write_offset l - buffer_start l - 1); lia. }
    rewrite Hup.
    assert (Hmod' : (buffer_start l + 8192) mod 8192 = 0) by (rewrite Hq; replace (q * 8192 + 8192) with ((q + 1) * 8192) by lia; apply Z_mod_mult).
    set (l' := mkLog _ _ _ _ _ _ _ _ _).
    assert (Hbs' : buffer_start l' = buffer_start l + 8192) by (unfold buffer_start, l'; cbn [lm_write_offset]; fold (buffer_start l); rewrite Hmod'; lia).
    assert (Hlen : zlen (contents w') = zlen (contents w)) by apply Hsame.
    exists l', w', (zslice (contents w') (log_data l + lm_write_offset l) (log_data l + buffer_start l + 8192)).
    unfold log_data in *. unfold lm_wf, lm_space, padding. split_and!; try done.
    + subst l'; cbn [lm_log_buffer]. unfold zlen in *. unfold zeros. rewrite length_replicate. lia.
    + apply lm_flushed_wf, Hl.
    + subst l'; cbn [lm_write_offset]. lia.
    + exists 0, 0. subst l'; cbn [lm_write_offset]. lia.
    + subst l'; cbn [lm_write_offset lm_log_buffer]. rewrite Hmod', zslice_whole by (unfold zlen, zeros in *; rewrite ?length_replicate; lia).
      unfold blank. f_equal. unfold zlen in Hbuf. lia.
    + unfold log_data. rewrite Hbs'. subst l'; cbn [lm_log_base]. lia.
    + subst l'; cbn [lm_write_offset]. lia.
    + unfold log_stream at 1. rewrite Hbs'. subst l'; cbn [lm_write_offset lm_log_base lm_log_buffer]; unfold log_data; cbn [lm_log_base].
      rewrite Z.sub_diag. change (zslice _ 0 0) with (@nil byte). rewrite app_nil_r.
      unfold log_data in Hdev; cbn [lm_flushed lm_log_base lm_write_offset] in Hdev. rewrite <- Hdev.
      rewrite zslice_cat by lia. f_equal. lia.
    + rewrite zlen_zslice by lia. lia.
    + intros ?. lia.
    + subst l'; cbn [lm_write_offset]. lia.
    + by replace (12288 + buffer_start l) with (4096 + buffer_start l + 8192) by lia.
  - exists l, w, []. unfold padding. split_and!; try done; try (unfold lm_space; lia).
    by rewrite app_nil_r.
Qed.

(** The manager with a record stored at the write offset. *)
Definition lm_stored (bytes : list byte) (prev : Z) (l : LogManager) : LogManager :=
  mkLog (lm_logsuper l) (lm_log_id l) (lm_inline l) (lm_write_offset l + zlen bytes) prev
    (zsplice (lm_log_buffer l) (lm_write_offset l mod 8192) bytes) true (lm_log_pages l) (lm_log_base l).

Lemma store_record_ok r data l (w : W) prev :
  lm_wf l -> wf_lrd r -> lm_write_offset l mod 8192 + 36 + zlen data <= 8192 ->
  (let* _ := store_record r data in
   set_log (fun l => mkLog (lm_logsuper l) (lm_log_id l) (lm_inline l) (lm_write_offset l + (36 + zlen data))
     (prev l) (lm_log_buffer l) (lm_buffer_dirty l) (lm_log_pages l) (lm_log_base l))) (l, w)
  = (Ok tt, (lm_stored (lrd_flat r ++ data) (prev (mkLog (lm_logsuper l) (lm_log_id l) (lm_inline l) (lm_write_offset l)
       (lm_prev_record_offset l) (zsplice (lm_log_buffer l) (lm_write_offset l mod 8192) (lrd_flat r ++ data)) true
       (lm_log_pages l) (lm_log_base l))) l, w)).
Proof.
  intros (Hbuf & _ & _ & Ho & _) Hr Hfit. destruct (lrd_bytes_ok r Hr) as [Hb Hl].
  pose proof (Z.mod_pos_bound (lm_write_offset l) 8192 ltac:(lia)). pose proof (zlen_nonneg data).
  unfold sbind, store_record. cbn [fst snd]. unfold LOG_BUFFER_SIZE. change (LOGPSIZE * 2) with 8192.
  rewrite Hb. cbn [obind]. rewrite splice_ok by lia. cbn [obind]. unfold LRD_SIZE.
  rewrite splice_ok by (rewrite ?zlen_zsplice; lia). rewrite zsplice_app by lia.
  unfold set_log, smod, lm_stored. cbn [fst snd lm_logsuper lm_log_id lm_inline lm_write_offset lm_log_buffer lm_buffer_dirty lm_log_pages lm_log_base].
  by rewrite zlen_app, Hl.
Qed.

(** A record that leaves room in its segment extends the stream. *)
Lemma lm_stored_ok bytes prev n l (w : W) :
  lm_wf l -> lm_space n l w -> 0 <= n -> 0 < zlen bytes -> segment_fill (lm_write_offset l mod 8192 + zlen bytes) ->
  lm_write_offset l mod 8192 + zlen bytes <= 8192 ->
  lm_wf (lm_stored bytes prev l) /\ lm_space (n - 1) (lm_stored bytes prev l) w /\
  log_stream (lm_stored bytes prev l) w = log_stream l w ++ bytes.
Proof.
  intros (Hbuf & Hs & Hb & Ho & Hd & _ & Htail) [Hs1 Hs2] Hn Hpos Hfill Hfit.
  pose proof (segment_fill_le _ Hfill Hfit) as Hlt. destruct (buffer_start_facts l Ho) as (Hbs & Hmod & Hlt' & q & Hq).
  assert (Hm : (lm_write_offset l + zlen bytes) mod 8192 = lm_write_offset l mod 8192 + zlen bytes).
  { symmetry. apply Z.mod_unique_pos with q; [|]; pose proof (Z.mod_pos_bound (lm_write_offset l) 8192 ltac:(lia)); lia. }
  pose proof (Z.mod_pos_bound (lm_write_offset l) 8192 ltac:(lia)).
  assert (Hbs' : buffer_start (lm_stored bytes prev l) = buffer_start l).
  { unfold buffer_start at 1, lm_stored. cbn [lm_write_offset]. rewrite Hm. unfold buffer_start. lia. }
  unfold lm_wf, lm_space. split_and!.
  - cbn [lm_stored lm_log_buffer]. rewrite zlen_zsplice; lia.
  - done.
  - done.
  - cbn [lm_stored lm_write_offset]. lia.
  - cbn [lm_stored lm_write_offset lm_buffer_dirty]. rewrite Hm. split; [lia|done].
  - cbn [lm_stored lm_write_offset]. by rewrite Hm.
  - cbn [lm_stored lm_write_offset lm_log_buffer]. rewrite Hm, zslice_zsplice_disjoint by lia.
    rewrite <- (zslice_blank _ (zlen bytes) (8192 - lm_write_offset l mod 8192)), <- Htail, zslice_zslice by lia. f_equal; lia.
  - unfold log_data in *. rewrite Hbs'. cbn [lm_stored lm_log_base]. lia.
  - cbn [lm_stored lm_write_offset]. lia.
  - unfold log_stream. rewrite Hbs'. unfold log_data. cbn [lm_stored lm_log_base lm_write_offset lm_log_buffer].
    rewrite <- app_assoc. f_equal. rewrite Hmod.
    replace (lm_write_offset l + zlen bytes - buffer_start l) with (lm_write_offset l mod 8192 + zlen bytes) by lia.
    rewrite zslice_zsplice_prefix by lia. done.
Qed.

Lemma buffer_start_mono l l' :
  0 <= lm_write_offset l <= lm_write_offset l' -> buffer_start l <= buffer_start l'.
Proof.
  intros Ho. unfold buffer_start.
  pose proof (Z.div_mod (lm_write_offset l) 8192 ltac:(lia)). pose proof (Z.div_mod (lm_write_offset l') 8192 ltac:(lia)).
  pose proof (Z.div_le_mono (lm_write_offset l) (lm_write_offset l') 8192). lia.
Qed.

(** What an operation on the log writes lies in the log area, up to the
    segment being filled. *)
Definition log_frame (l : LogManager) (w : W) (l' : LogManager) (w' : W) : Prop :=
  lm_log_base l' = lm_log_base l /\ lm_write_offset l <= lm_write_offset l' /\
  same_outside (lm_log_base l + 4096) (12288 + buffer_start l') (contents w) (contents w').

Lemma log_frame_trans l1 w1 l2 w2 l3 w3 :
  0 <= lm_write_offset l1 -> log_frame l1 w1 l2 w2 -> log_frame l2 w2 l3 w3 -> log_frame l1 w1 l3 w3.
Proof.
  intros Ho (Hb1 & Ho1 & Hs1) (Hb2 & Ho2 & Hs2). split_and!; [congruence|lia|].
  eapply same_outside_trans; [|by rewrite <- Hb1].
  eapply same_outside_sub; [done|lia|]. pose proof (buffer_start_mono l2 l3). lia.
Qed.

Lemma wf_redopage_lrd txid prev block len : wf_lrd (redopage_lrd txid prev block len).
Proof.
  destruct (pxd_set_address_word pxd_default block wf_pxd_default) as (_ & _ & Hw).
  destruct (pxd_set_length_word _ 1 Hw) as [_ Hp].
  split_and!; try done; try apply length_write_u32; try apply length_write_u16; try apply as_u32_range; try done.
  apply Z.mod_pos_bound. lia.
Qed.

Lemma wf_commit_lrd txid prev : wf_lrd (commit_lrd txid prev).
Proof.
  split_and!; try done; try apply length_write_u32; try apply length_write_u16; try apply as_u32_range; done.
Qed.

(** What is on the device is the stream, before and after a flush. *)
Lemma log_stream_device l (w w' : W) :
  lm_wf l -> lm_room l w ->
  zslice (contents w') (log_data l) (log_data l + lm_write_offset l) = log_stream l w -> log_stream l w' = log_stream l w.
Proof.
  intros (_ & _ & Hb & Ho & _) [Hr _] Hdev. destruct (buffer_start_facts l Ho) as (Hbs & _ & Hlt & _).
  unfold log_stream at 1. unfold log_data in *.
  assert (Hpre : zslice (contents w') (lm_log_base l + 8192) (lm_log_base l + 8192 + buffer_start l)
    = zslice (contents w) (lm_log_base l + 8192) (lm_log_base l + 8192 + buffer_start l)).
  { transitivity (zslice (log_stream l w) 0 (buffer_start l)).
    - rewrite <- Hdev, zslice_zslice by lia. f_equal; lia.
    - unfold log_stream, log_data. rewrite zslice_app_l by (rewrite ?zlen_zslice; lia).
      apply zslice_whole; rewrite ?zlen_zslice; lia. }
  by rewrite Hpre.
Qed.

(** The bytes of the record of a block. *)
Definition redo_record (txid prev : Z) (b : Z * list byte) : list byte :=
  lrd_flat (redopage_lrd txid prev b.1 (zlen b.2)) ++ b.2.

Lemma append_log_record_ok n txid block data l (w : W) :
  lm_wf l -> st_wf w -> lm_space n l w -> 2 <= n -> zlen data = 4096 ->
  exists l' w' pad, append_log_record txid block data (l, w) = (Ok tt, (l', w')) /\ lm_wf l' /\ st_wf w' /\
    lm_space (n - 2) l' w' /\ padding l 4132 pad /\
    log_stream l' w' = log_stream l w ++ pad ++ redo_record txid (lm_prev_record_offset l) (block, data) /\
    lm_prev_record_offset l' = zlen (log_stream l w ++ pad) /\ log_frame l w l' w'.
Proof.
  intros Hl Hw Hsp Hn Hd. assert (Ho : 0 <= lm_write_offset l) by apply Hl.
  destruct (next_segment_ok n (LRD_SIZE + zlen data) l w) as
    (l1 & w1 & pad & Hrun & Hl1 & Hw1 & Hsp1 & Hst & Hpad & Hfit & Hprev & Hbase & Hsame);
    [done|done|done|lia|unfold LRD_SIZE; lia|]. unfold LRD_SIZE in *.
  pose proof (zlen_log_stream l w Hl (lm_space_room n _ _ ltac:(lia) Hsp)) as Hz.
  pose proof (zlen_log_stream l1 w1 Hl1 (lm_space_room (n - 1) _ _ ltac:(lia) Hsp1)) as Hz1.
  pose proof (f_equal zlen Hst) as Hzst. rewrite zlen_app in Hzst. pose proof (zlen_nonneg pad).
  set (rec := redo_record txid (lm_prev_record_offset l) (block, data)).
  assert (Hrec : zlen rec = 4132).
  { subst rec. unfold redo_record. rewrite zlen_app. cbn [fst snd]. destruct (lrd_bytes_ok _ (wf_redopage_lrd txid (lm_prev_record_offset l) block (zlen data))) as [_ ->].
    lia. }
  assert (Hfill : segment_fill (lm_write_offset l1 mod 8192 + zlen rec)).
  { destruct Hl1 as (_ & _ & _ & _ & _ & (a & b & Ha & Hb & Hab) & _). exists (a + 1), b. lia. }
  destruct (lm_stored_ok rec (lm_write_offset l1) (n - 1) l1 w1) as (Hl2 & Hsp2 & Hst2); [done|done|lia|lia|done|lia|].
  exists (lm_stored rec (lm_write_offset l1) l1), w1, pad. unfold log_frame. split_and!; try done.
  - unfold append_log_record. rewrite (sbind_ok _ _ _ _ _ Hrun). cbn [fst]. rewrite Hprev. unfold LRD_SIZE.
    rewrite store_record_ok; [done|done|apply wf_redopage_lrd|lia].
  - by replace (n - 2) with (n - 1 - 1) by lia.
  - by rewrite Hd in Hpad.
  - by rewrite Hst2, Hst, <- app_assoc.
  - cbn [lm_stored lm_prev_record_offset]. rewrite zlen_app. lia.
  - cbn [lm_stored lm_write_offset]. lia.
  - eapply same_outside_sub; [done|lia|].
    pose proof (buffer_start_mono l (lm_stored rec (lm_write_offset l1) l1)). cbn [lm_stored lm_write_offset] in *. lia.
Qed.

Lemma commit_transaction_ok n txid l (w : W) :
  lm_wf l -> st_wf w -> lm_space n l w -> 2 <= n ->
  exists l' w' pad, commit_transaction txid (l, w) = (Ok tt, (l', w')) /\ lm_wf l' /\ st_wf w' /\
    lm_space (n - 2) l' w' /\ padding l 36 pad /\
    log_stream l' w' = log_stream l w ++ pad ++ lrd_flat (commit_lrd txid (lm_prev_record_offset l)) /\
    on_device l' w' (log_stream l' w') /\ ls_end (lm_logsuper l') = write_u32 (lm_write_offset l') /\
    lm_prev_record_offset l' = 0 /\ log_frame l w l' w'.
Proof.
  intros Hl Hw Hsp Hn. assert (Ho : 0 <= lm_write_offset l) by apply Hl.
  destruct (next_segment_ok n LRD_SIZE l w) as
    (l1 & w1 & pad & Hrun & Hl1 & Hw1 & Hsp1 & Hst & Hpad & Hfit & Hprev & Hbase & Hsame);
    [done|done|done|lia|unfold LRD_SIZE; lia|]. unfold LRD_SIZE in *.
  pose proof (zlen_log_stream l w Hl (lm_space_room n _ _ ltac:(lia) Hsp)) as Hz.
  pose proof (zlen_log_stream l1 w1 Hl1 (lm_space_room (n - 1) _ _ ltac:(lia) Hsp1)) as Hz1.
  pose proof (f_equal zlen Hst) as Hzst. rewrite zlen_app in Hzst. pose proof (zlen_nonneg pad).
  set (rec := lrd_flat (commit_lrd txid (lm_prev_record_offset l))).
  assert (Hrec : zlen rec = 36) by (subst rec; apply lrd_bytes_ok, wf_commit_lrd).
  assert (Hfill : segment_fill (lm_write_offset l1 mod 8192 + zlen rec)).
  { destruct Hl1 as (_ & _ & _ & _ & _ & (a & b & Ha & Hb & Hab) & _). exists a, (b + 1). lia. }
  destruct (lm_stored_ok rec (lm_prev_record_offset l) (n - 1) l1 w1) as (Hl2 & Hsp2 & Hst2); [done|done|lia|lia|done|lia|].
  set (l2 := lm_stored rec (lm_prev_record_offset l) l1) in *.
  destruct (flush_journal_ok l2 w1) as (w3 & Hrun3 & Hw3 & Hdev & Hsame3);
    [done|done|by apply (lm_space_room (n - 1 - 1)); [lia|]|].
  set (l3 := mkLog (lm_logsuper (lm_flushed l2)) (lm_log_id l2) (lm_inline l2) (lm_write_offset l2) 0
    (lm_log_buffer l2) (lm_buffer_dirty l2) (lm_log_pages l2) (lm_log_base l2)).
  assert (Hst3 : log_stream l3 w3 = log_stream l2 w1).
  { change (log_stream l3 w3) with (log_stream l2 w3). apply log_stream_device; [done|by apply (lm_space_room (n - 1 - 1)); [lia|]|].
    apply Hdev. }
  exists l3, w3, pad. unfold log_frame, on_device. split_and!; try done.
  - unfold commit_transaction. rewrite (sbind_ok _ _ _ _ _ Hrun). cbn [fst]. rewrite Hprev.
    pose proof (store_record_ok (commit_lrd txid (lm_prev_record_offset l)) [] l1 w1 lm_prev_record_offset Hl1
      (wf_commit_lrd _ _) ltac:(unfold zlen; cbn [length]; lia)) as Hstore.
    cbn [lm_prev_record_offset] in Hstore. rewrite Hprev, app_nil_r in Hstore. fold rec l2 in Hstore.
    apply sbind_inv in Hstore as ([] & s1 & Hs1 & Hs2). rewrite (sbind_ok _ _ _ _ _ Hs1).
    rewrite (sbind_ok _ _ _ _ _ Hs2), (sbind_ok _ _ _ _ _ Hrun3). done.
  - apply (lm_flushed_wf _ Hl2).
  - unfold lm_space in *. destruct Hsame3 as [Hlen3 _]. rewrite Hlen3. change (log_data l3) with (log_data l2).
    change (buffer_start l3) with (buffer_start l2). change (lm_write_offset l3) with (lm_write_offset l2). lia.
  - by rewrite Hst3, Hst2, Hst, <- app_assoc.
  - rewrite Hst3. apply Hdev.
  - apply Hdev.
  - exact (proj2 (proj2 Hdev)).
  - cbn [l3 lm_logsuper lm_flushed ls_set_end ls_end lm_write_offset]. rewrite as_u32_small; [done|].
    split; [apply Hl2|]. destruct Hsp2. lia.
  - subst l3 l2. cbn [lm_stored lm_write_offset]. lia.
  - change (buffer_start l3) with (buffer_start l2). eapply same_outside_trans.
    + eapply same_outside_sub; [apply Hsame|lia|]. pose proof (buffer_start_mono l l2).
      subst l2. cbn [lm_stored lm_write_offset] in *. lia.
    + replace (lm_log_base l) with (lm_log_base l2) by done. eapply same_outside_sub; [done|lia|lia].
Qed.

(** [logged txid prev s blocks prev' s']: the stream [s] grew to [s'] by one
    record per block; each record points back to the one before it, and a
    record may start after padding. *)
Inductive logged (txid : Z) : Z -> list byte -> list (Z * list byte) -> Z -> list byte -> Prop :=
| logged_nil prev s : logged txid prev s [] prev s
| logged_cons prev s pad b blocks prev' s' :
    zlen pad < 8192 ->
    logged txid (zlen (s ++ pad)) (s ++ pad ++ redo_record txid prev b) blocks prev' s' ->
    logged txid prev s (b :: blocks) prev' s'.

(** The records of the blocks of a transaction, in order. *)
Definition log_blocks (txid : Z) (blocks : list (Z * list byte)) : ST (LogManager * W) StorageError unit :=
  sfor blocks (fun b => append_log_record txid b.1 b.2).

Lemma log_blocks_ok n txid blocks l (w : W) :
  lm_wf l -> st_wf w -> lm_space n l w -> 2 * zlen blocks <= n -> Forall (fun b => zlen b.2 = 4096) blocks ->
  exists l' w', log_blocks txid blocks (l, w) = (Ok tt, (l', w')) /\ lm_wf l' /\ st_wf w' /\
    lm_space (n - 2 * zlen blocks) l' w' /\
    logged txid (lm_prev_record_offset l) (log_stream l w) blocks (lm_prev_record_offset l') (log_stream l' w') /\
    log_frame l w l' w'.
Proof.
  intros Hl Hw Hsp Hn Hbl. revert n l w Hl Hw Hsp Hn. induction Hbl as [|[block data] blocks Hd Hbl IH]; intros n l w Hl Hw Hsp Hn.
  { exists l, w. change (zlen (@nil (Z * list byte))) with 0. replace (n - 2 * 0) with n by lia. unfold log_frame. split_and!; try done. constructor. }
  rewrite zlen_cons in *. pose proof (zlen_nonneg blocks). unfold log_blocks. cbn [sfor fst snd].
  destruct (append_log_record_ok n txid block data l w) as (l1 & w1 & pad & Hrun & Hl1 & Hw1 & Hsp1 & Hpad & Hst & Hprev & Hfr);
    [done|done|done|lia|done|].
  rewrite (sbind_ok _ _ _ _ _ Hrun).
  destruct (IH (n - 2) l1 w1) as (l2 & w2 & Hrun2 & Hl2 & Hw2 & Hsp2 & Hlog & Hfr2); [done|done|done|lia|].
  exists l2, w2. replace (n - 2 * (1 + zlen blocks)) with (n - 2 - 2 * zlen blocks) by lia. split_and!; try done.
  - apply logged_cons with pad; [apply Hpad|]. by rewrite <- Hprev, <- Hst.
  - eapply log_frame_trans; [apply Hl|done|done].
Qed.

(** C4: the records of a transaction are durable when its commit returns: on a
    device that does not fail and has room for them, logging the blocks and
    committing succeed; the log area then holds the earlier stream, the record
    of each block chained to the one before, and the commit record, its
    superblock points to the end of that stream, and no byte outside the log
    area up to the current segment changed. *)
Theorem log_transaction_durable n txid blocks l (w : W)
  (Hl : lm_wf l) (Hw : st_wf w) (Hsp : lm_space n l w) (Hn : 2 * zlen blocks + 2 <= n)
  (Hb : Forall (fun b => zlen b.2 = 4096) blocks) :
  exists l' w' prev s pad,
    (let* _ := log_blocks txid blocks in commit_transaction txid) (l, w) = (Ok tt, (l', w')) /\
    lm_wf l' /\ st_wf w' /\
    logged txid (lm_prev_record_offset l) (log_stream l w) blocks prev s /\
    on_device l' w' (s ++ pad ++ lrd_flat (commit_lrd txid prev)) /\ zlen pad < 8192 /\
    ls_end (lm_logsuper l') = write_u32 (lm_write_offset l') /\ lm_prev_record_offset l' = 0 /\ log_frame l w l' w'.
Proof.
  destruct (log_blocks_ok n txid blocks l w Hl Hw Hsp ltac:(lia) Hb) as (l1 & w1 & Hrun & Hl1 & Hw1 & Hsp1 & Hlog & Hfr1).
  destruct (commit_transaction_ok _ txid l1 w1 Hl1 Hw1 Hsp1) as
    (l2 & w2 & pad & Hrun2 & Hl2 & Hw2 & _ & Hpad & Hst & Hdev & Hend & Hprev & Hfr2); [lia|].
  exists l2, w2, (lm_prev_record_offset l1), (log_stream l1 w1), pad. pose proof (proj1 Hpad).
  rewrite (sbind_ok _ _ _ _ _ Hrun), <- Hst. split_and!; try done. eapply log_frame_trans; [apply Hl|done|done].
Qed.

(** The log superblock that [write_super] writes is the one [read_super]
    reads, but for the table of active volumes, which [read_super] returns
    empty whatever the disk holds. *)
Theorem log_super_roundtrip s l (w : W)
  (Hs : wf_logsuper s) (Hw : st_wf w) (Hb : 0 <= lm_log_base l) (Hr : lm_log_base l + 8192 <= zlen (contents w)) :
  exists w', write_super s l w = (Ok tt, w') /\
    (read_super (lm_log_base l) w').1 = Ok (mkLogSuper (ls_magic s) (ls_version s) (ls_serial s) (ls_size s) (ls_bsize s)
      (ls_l2bsize s) (ls_flag s) (ls_state s) (ls_end s) (ls_uuid s) (ls_label s) (ls_active logsuper_default)).
Proof.
  destruct (write_super_run s l w Hs Hw Hb Hr) as (w' & buf & Hrun & Hw' & Hc & Hlen & Hhead).
  exists w'. split; [done|]. apply (read_super_run s _ _ buf); try done.
  - rewrite Hc, zlen_zsplice; lia.
  - rewrite Hc. apply zslice_zsplice_same; lia.
Qed.
End log_device.

(** ** Witnesses *)

(** A log of seven segments on a device of its own. *)
Definition witness_log : LogManager := lm_new (LE := le_codec) logsuper_default 0.
Definition witness_device : MemoryStorage := mkMem (replicate (Z.to_nat 65536) Byte.x00) 65536.

Lemma witness_log_wf : lm_wf witness_log.
Proof.
  unfold lm_wf, witness_log, lm_new. cbn [lm_log_buffer lm_logsuper lm_log_base lm_write_offset lm_buffer_dirty].
  split_and!; try done; try apply zlen_replicate.
  - split_and!; try done. by apply Forall_replicate.
  - by exists 0, 0.
Qed.

Lemma witness_device_wf : st_wf witness_device.
Proof. split; [apply zlen_replicate|done]. Qed.

Lemma witness_room z : z <= 65536 -> z <= zlen (contents witness_device).
Proof. cbn [contents memory_spec ms_data witness_device]. rewrite zlen_replicate, Z2Nat.id by lia. done. Qed.

Lemma log_transaction_durable_witness :
  let block := (5, replicate (Z.to_nat 4096) Byte.x07) in
  exists l' w', (let* _ := log_blocks (LE := le_codec) 1 [block] in commit_transaction (LE := le_codec) 1) (witness_log, witness_device) = (Ok tt, (l', w')) /\
    lm_prev_record_offset l' = 0.
Proof.
  intros block. pose proof le_codec_spec.
  destruct (log_transaction_durable (LE := le_codec) 4 1 [block] witness_log witness_device) as
    (l' & w' & prev & s & pad & Hrun & _ & _ & _ & _ & _ & _ & Hprev & _).
  - apply witness_log_wf.
  - apply witness_device_wf.
  - split; [|vm_compute; reflexivity]. apply witness_room. vm_compute. discriminate.
  - vm_compute. discriminate.
  - apply Forall_singleton. apply zlen_replicate.
  - exists l', w'. exact (conj Hrun Hprev).
Defined.

Lemma log_super_roundtrip_witness :
  exists w', write_super logsuper_default witness_log witness_device = (Ok tt, w') /\
    (read_super 0 w').1 = Ok logsuper_default.
Proof.
  destruct (log_super_roundtrip logsuper_default witness_log witness_device) as (w' & H1 & H2).
  - apply witness_log_wf.
  - apply witness_device_wf.
  - done.
  - apply witness_room. vm_compute. discriminate.
  - exists w'. exact (conj H1 H2).
Defined.
