(* ===== verification/Devices.v ===== *)
(** * Two devices

    The journal and the file system are two [Arc<dyn Storage>] objects: distinct
    devices for an external log, one device for an inline log. Code that uses
    both takes two [Storage] instances over one state; for distinct devices
    the state is a pair and the instances below select its sides. *)

From S2P Require Import Prelude Types Storage.
From Stdlib Require Import ZArith Lia.

(** ** Writes of whole blocks *)

(** Writes applied in order. *)
Definition apply_writes (ws : list (Z * list byte)) (c : list byte) : list byte :=
  fold_left (fun c w => zsplice c (w.1 * BLOCK_SIZE) w.2) ws c.

Lemma apply_writes_app ws1 ws2 c : apply_writes (ws1 ++ ws2) c = apply_writes ws2 (apply_writes ws1 c).
Proof. apply fold_left_app. Qed.

(** The block written last keeps what was written. *)
Lemma block_at_apply_writes ws c b d :
  0 <= b -> b * BLOCK_SIZE + BLOCK_SIZE <= zlen c ->
  Forall (fun w => 0 <= w.1 /\ zlen w.2 = BLOCK_SIZE /\ w.1 * BLOCK_SIZE + BLOCK_SIZE <= zlen c) ws ->
  block_at c b = d \/ (b, d) ∈ ws -> (forall d', (b, d') ∈ ws -> d' = d) -> block_at (apply_writes ws c) b = d.
Proof.
  intros Hb Hr Hws. revert c Hr Hws. induction ws as [|[b1 d1] ws IH]; intros c Hr Hws Hd Hu; cbn [apply_writes fold_left].
  { destruct Hd as [|Hd]; [done|]. by apply not_elem_of_nil in Hd. }
  apply Forall_cons in Hws as [(H1 & H2 & H3) Hws]. cbn [fst snd] in *.
  assert (Hl : zlen (zsplice c (b1 * BLOCK_SIZE) d1) = zlen c) by (unfold BLOCK_SIZE, PSIZE in *; apply zlen_zsplice; lia).
  fold (apply_writes ws (zsplice c (b1 * BLOCK_SIZE) d1)). apply IH; [by rewrite Hl|by rewrite Hl| |].
  - rewrite block_at_zsplice by lia. case_decide as Heq; [subst b1; left; apply Hu; by left|].
    destruct Hd as [Hd|Hd]; [by left|]. apply elem_of_cons in Hd as [[= -> ->]|Hd]; [done|by right].
  - intros d' Hd'. apply Hu. by right.
Qed.

Section runs.
Context {W : Type} {FS : Storage W} {SS : StorageSpec W} {SR : StorageReliable W}.

Lemma write_block_run b data (w : W) :
  st_wf w -> 0 <= b -> zlen data = BLOCK_SIZE -> b * BLOCK_SIZE + BLOCK_SIZE <= zlen (contents w) ->
  exists w', write_block b data w = (Ok tt, w') /\ st_wf w' /\ contents w' = zsplice (contents w) (b * BLOCK_SIZE) data.
Proof.
  intros Hw Hb Hd Hr. pose proof (st_write_block_ok b data w Hw Hb Hd Hr) as Hok.
  destruct (st_write_block b data w Hw Hb) as (Hw' & _ & Hc). destruct (Hc Hok) as [_ Hc'].
  destruct (write_block b data w) as [o w']. cbn [fst snd] in *. subst o. by exists w'.
Qed.

End runs.

(** ** Selecting a side *)

Section sides.
Context {A B : Type}.

Definition on_left {E X} (m : ST A E X) : ST (A * B) E X := fun s => let (r, a) := m s.1 in (r, (a, s.2)).
Definition on_right {E X} (m : ST B E X) : ST (A * B) E X := fun s => let (r, b) := m s.2 in (r, (s.1, b)).

Definition left_device (SA : Storage A) : Storage (A * B) := {|
  read_block b := on_left (read_block b);
  write_block b data := on_left (write_block b data);
  read_blocks b n := on_left (read_blocks b n);
  write_blocks b data := on_left (write_blocks b data);
  sync := on_left sync;
  size_blocks s := size_blocks s.1;
  read_bytes off len := on_left (read_bytes off len);
  write_bytes off data := on_left (write_bytes off data);
  flush_data := on_left flush_data;
  flush_metadata := on_left flush_metadata |}.

Definition right_device (SB : Storage B) : Storage (A * B) := {|
  read_block b := on_right (read_block b);
  write_block b data := on_right (write_block b data);
  read_blocks b n := on_right (read_blocks b n);
  write_blocks b data := on_right (write_blocks b data);
  sync := on_right sync;
  size_blocks s := size_blocks s.2;
  read_bytes off len := on_right (read_bytes off len);
  write_bytes off data := on_right (write_bytes off data);
  flush_data := on_right flush_data;
  flush_metadata := on_right flush_metadata |}.

Lemma on_left_spec {E X} (m : ST A E X) s : on_left m s = ((m s.1).1, ((m s.1).2, s.2)).
Proof. unfold on_left. by destruct (m s.1). Qed.
Lemma on_right_spec {E X} (m : ST B E X) s : on_right m s = ((m s.2).1, (s.1, (m s.2).2)).
Proof. unfold on_right. by destruct (m s.2). Qed.

#[program] Definition left_spec (SA : Storage A) (SP : StorageSpec A) : @StorageSpec (A * B) (left_device SA) := {|
  st_wf s := st_wf s.1; contents s := contents s.1 |}.
Next Obligation. intros SA SP d Hd. exact (st_bound d.1 Hd). Qed.
Next Obligation. intros SA SP d Hd. exact (st_size d.1 Hd). Qed.
Next Obligation. intros SA SP b d Hd Hb. cbn [read_block left_device]. rewrite on_left_spec. by apply (st_read_block b d.1). Qed.
Next Obligation. intros SA SP b n d Hd. cbn [read_bytes left_device]. rewrite on_left_spec. by apply (st_read_bytes b n d.1). Qed.
Next Obligation. intros SA SP b data d Hd. cbn [write_block left_device]. rewrite on_left_spec. by apply (st_write_block b data d.1). Qed.
Next Obligation. intros SA SP b data d Hd. cbn [write_bytes left_device]. rewrite on_left_spec. by apply (st_write_bytes b data d.1). Qed.
Next Obligation. intros SA SP d Hd. cbn [sync left_device]. rewrite on_left_spec. by apply (st_sync d.1). Qed.
Next Obligation. intros SA SP d Hd. cbn [flush_data left_device]. rewrite on_left_spec. by apply (st_flush_data d.1). Qed.
Next Obligation. intros SA SP d Hd. cbn [flush_metadata left_device]. rewrite on_left_spec. by apply (st_flush_metadata d.1). Qed.

Lemma left_reliable (SA : Storage A) (SP : StorageSpec A) :
  StorageReliable A -> @StorageReliable (A * B) (left_device SA) (left_spec SA SP).
Proof.
  intros R. split; intros; cbn [read_block read_bytes write_block write_bytes sync flush_data flush_metadata left_device];
    rewrite on_left_spec; cbn [fst]; cbn [st_wf contents left_spec] in *;
    first [ by apply st_read_block_ok | by apply st_read_bytes_ok | by apply st_write_block_ok | by apply st_write_bytes_ok
          | by apply st_sync_ok | by apply st_flush_data_ok | by apply st_flush_metadata_ok ].
Qed.

#[program] Definition right_spec (SB : Storage B) (SP : StorageSpec B) : @StorageSpec (A * B) (right_device SB) := {|
  st_wf s := st_wf s.2; contents s := contents s.2 |}.
Next Obligation. intros SB SP d Hd. exact (st_bound d.2 Hd). Qed.
Next Obligation. intros SB SP d Hd. exact (st_size d.2 Hd). Qed.
Next Obligation. intros SB SP b d Hd Hb. cbn [read_block right_device]. rewrite on_right_spec. by apply (st_read_block b d.2). Qed.
Next Obligation. intros SB SP b n d Hd. cbn [read_bytes right_device]. rewrite on_right_spec. by apply (st_read_bytes b n d.2). Qed.
Next Obligation. intros SB SP b data d Hd. cbn [write_block right_device]. rewrite on_right_spec. by apply (st_write_block b data d.2). Qed.
Next Obligation. intros SB SP b data d Hd. cbn [write_bytes right_device]. rewrite on_right_spec. by apply (st_write_bytes b data d.2). Qed.
Next Obligation. intros SB SP d Hd. cbn [sync right_device]. rewrite on_right_spec. by apply (st_sync d.2). Qed.
Next Obligation. intros SB SP d Hd. cbn [flush_data right_device]. rewrite on_right_spec. by apply (st_flush_data d.2). Qed.
Next Obligation. intros SB SP d Hd. cbn [flush_metadata right_device]. rewrite on_right_spec. by apply (st_flush_metadata d.2). Qed.

Lemma right_reliable (SB : Storage B) (SP : StorageSpec B) :
  StorageReliable B -> @StorageReliable (A * B) (right_device SB) (right_spec SB SP).
Proof.
  intros R. split; intros; cbn [read_block read_bytes write_block write_bytes sync flush_data flush_metadata right_device];
    rewrite on_right_spec; cbn [fst]; cbn [st_wf contents right_spec] in *;
    first [ by apply st_read_block_ok | by apply st_read_bytes_ok | by apply st_write_block_ok | by apply st_write_bytes_ok
          | by apply st_sync_ok | by apply st_flush_data_ok | by apply st_flush_metadata_ok ].
Qed.
End sides.

(** Writing to one of two devices leaves the other as it is. *)
Class SeparateDevices (W : Type) (S1 S2 : Storage W) (P1 : @StorageSpec W S1) (P2 : @StorageSpec W S2) : Prop := {
  sep_write_block b data w : @contents _ _ P1 (@write_block _ S2 b data w).2 = @contents _ _ P1 w /\
    (@st_wf _ _ P1 w -> @st_wf _ _ P1 (@write_block _ S2 b data w).2);
  sep_write_bytes off data w : @contents _ _ P1 (@write_bytes _ S2 off data w).2 = @contents _ _ P1 w /\
    (@st_wf _ _ P1 w -> @st_wf _ _ P1 (@write_bytes _ S2 off data w).2);
  sep_read_bytes off len w : @contents _ _ P1 (@read_bytes _ S2 off len w).2 = @contents _ _ P1 w /\
    (@st_wf _ _ P1 w -> @st_wf _ _ P1 (@read_bytes _ S2 off len w).2);
  sep_sync w : @contents _ _ P1 (@sync _ S2 w).2 = @contents _ _ P1 w /\
    (@st_wf _ _ P1 w -> @st_wf _ _ P1 (@sync _ S2 w).2);
  sep_flush_data w : @contents _ _ P1 (@flush_data _ S2 w).2 = @contents _ _ P1 w /\
    (@st_wf _ _ P1 w -> @st_wf _ _ P1 (@flush_data _ S2 w).2);
  sep_flush_metadata w : @contents _ _ P1 (@flush_metadata _ S2 w).2 = @contents _ _ P1 w /\
    (@st_wf _ _ P1 w -> @st_wf _ _ P1 (@flush_metadata _ S2 w).2) }.

(** What the journal calls on its device keeps the other one. *)
Lemma separate_keeps {W} {S1 S2 : Storage W} {P1 : @StorageSpec W S1} {P2 : @StorageSpec W S2} {Sep : SeparateDevices W S1 S2 P1 P2} c :
  let P := fun w : W => @st_wf _ _ P1 w /\ @contents _ _ P1 w = c in
  (forall off data, keeps P (write_bytes (Storage := S2) off data)) /\ keeps P (flush_metadata (Storage := S2)) /\ keeps P (sync (Storage := S2)).
Proof.
  split_and!; [intros off data|..]; intros w [H1 H2];
    [destruct (sep_write_bytes off data w)|destruct (sep_flush_metadata w)|destruct (sep_sync w)]; (split; [auto|congruence]).
Qed.

Lemma left_right_separate {A B} (SA : Storage A) (SB : Storage B) (PA : StorageSpec A) (PB : StorageSpec B) :
  SeparateDevices (A * B) (left_device SA) (right_device SB) (left_spec SA PA) (right_spec SB PB).
Proof.
  split; intros; cbn [read_bytes write_block write_bytes sync flush_data flush_metadata right_device]; rewrite on_right_spec; done.
Qed.

Lemma right_left_separate {A B} (SA : Storage A) (SB : Storage B) (PA : StorageSpec A) (PB : StorageSpec B) :
  SeparateDevices (A * B) (right_device SB) (left_device SA) (right_spec SB PB) (left_spec SA PA).
Proof.
  split; intros; cbn [read_bytes write_block write_bytes sync flush_data flush_metadata left_device]; rewrite on_left_spec; done.
Qed.
