(* ===== verification/Recovery.v ===== *)
(** * Crash recovery ([src/src/journal/recovery.rs])

    [JournalRecovery] reads the records of the log forward, then processes them
    from the last to the first: commit records mark their transaction, the
    records of marked transactions are written to the file system.

    [replay] takes two devices. For an inline log both are the same device, so
    the state [W] holds whatever devices there are and the two arguments of type
    [Storage W] select the log and the file system. *)

From stdpp Require Import gmap.
From Stdlib Require Import ZArith Lia.
From S2P Require Import Prelude Types Storage PageCache LogMgr Devices.

Definition NBUFPOOL : Z := 128.
Definition COMHASH_SIZE : nat := 64.
Definition BHASHSIZE : Z := 4096.
Definition INODEMAP_WORD_SIZE : Z := 4.

(** ** [CommitTracker] *)

Record CommitEntry := mkCommitEntry { ce_tid : Z; ce_next : option Z }.
Record CommitTracker := mkCommits { ct_committed : gmap Z CommitEntry; ct_hash_table : list (list Z) }.

Definition ct_new : CommitTracker := mkCommits ∅ (replicate COMHASH_SIZE []).

(** The bucket [tid & 0x3f] always exists in the table of 64 buckets. *)
Definition ct_commit (tid : Z) (t : CommitTracker) : CommitTracker :=
  let hash := Z.to_nat (Z.land tid 0x3f) in
  mkCommits (<[tid := mkCommitEntry tid None]> (ct_committed t))
    (alter (fun bucket => bucket ++ [tid]) hash (ct_hash_table t)).

Definition ct_is_committed (tid : Z) (t : CommitTracker) : bool := bool_decide (is_Some (ct_committed t !! tid)).

Definition ct_end_of_transaction (tid : Z) (t : CommitTracker) : bool * CommitTracker :=
  if ct_is_committed tid t then (true, mkCommits (delete tid (ct_committed t)) (ct_hash_table t)) else (false, t).

(** ** [PageTracker] and [PageTrackerTable] *)

Record PageTracker := mkTracker {
  tr_pxd : Pxd; tr_page_type : Z; tr_aggregate : Z; tr_next : option Z; tr_summary : Z; tr_inode_slots : Z;
  tr_dtroot : gmap Z Z; tr_xtroot : gmap Z Z; tr_dt_page_slots : Z; tr_xt_page_high : Z; tr_xt_page_low : Z;
  tr_data_page_slots : Z }.

Definition tr_new (pxd : Pxd) (page_type aggregate : Z) : PageTracker :=
  mkTracker pxd page_type aggregate None 0 0 ∅ ∅ 0 0 0 0.

Definition tr_is_complete (t : PageTracker) : bool := tr_summary t =? 0xff.

Definition tr_set_no_redo (t : PageTracker) : PageTracker :=
  mkTracker (tr_pxd t) 0 (tr_aggregate t) (tr_next t) 0xff (tr_inode_slots t) (tr_dtroot t) (tr_xtroot t)
    (tr_dt_page_slots t) (tr_xt_page_high t) (tr_xt_page_low t) (tr_data_page_slots t).

Definition tr_set_slots (inode_slots summary : Z) (t : PageTracker) : PageTracker :=
  mkTracker (tr_pxd t) (tr_page_type t) (tr_aggregate t) (tr_next t) summary inode_slots (tr_dtroot t) (tr_xtroot t)
    (tr_dt_page_slots t) (tr_xt_page_high t) (tr_xt_page_low t) (tr_data_page_slots t).

Definition PageTrackerTable : Type := list (list (Z * PageTracker)).

Definition pt_new : PageTrackerTable := replicate (Z.to_nat BHASHSIZE) [].
Definition pt_hash (addr : Z) : nat := Z.to_nat (addr mod BHASHSIZE).
Definition pt_bucket (addr : Z) (t : PageTrackerTable) : list (Z * PageTracker) := default [] (t !! pt_hash addr).

Definition pt_find (addr : Z) (t : PageTrackerTable) : option PageTracker :=
  snd <$> List.find (fun e => e.1 =? addr) (pt_bucket addr t).

(** The first entry under the key, updated in place. *)
Fixpoint bucket_update (addr : Z) (f : PageTracker -> PageTracker) (b : list (Z * PageTracker)) : list (Z * PageTracker) :=
  match b with
  | [] => []
  | (k, t) :: b' => if k =? addr then (k, f t) :: b' else (k, t) :: bucket_update addr f b'
  end.

(** What a caller of [find_mut] does with the entry it gets. *)
Definition pt_find_mut (addr : Z) (f : PageTracker -> PageTracker) (t : PageTrackerTable) : PageTrackerTable :=
  alter (bucket_update addr f) (pt_hash addr) t.

Definition pt_push (addr : Z) (tr : PageTracker) (t : PageTrackerTable) : PageTrackerTable :=
  alter (fun b => b ++ [(addr, tr)]) (pt_hash addr) t.

(** ** [NoRedoFileTable] *)

Definition NoRedoFileTable : Type := gmap Z bool.
Definition nrf_insert (inode : Z) (t : NoRedoFileTable) : NoRedoFileTable := <[inode := true]> t.
Definition nrf_contains (inode : Z) (t : NoRedoFileTable) : bool := bool_decide (is_Some (t !! inode)).

(** ** [RecoveryVolume] *)

Record RecoveryVolume := mkRVol {
  rv_status : Z; rv_fssize : Z; rv_lbperpage : Z; rv_bmap_ctl : Z; rv_bmap_wsp : list (list byte);
  rv_fsimap_lst : list (list byte) }.

Definition rv_new : RecoveryVolume := mkRVol FM_DIRTY 0 1 0 [] [].
Definition rv_is_clean (v : RecoveryVolume) : bool := rv_status v =? FM_CLEAN.
Definition rv_is_logredoing (v : RecoveryVolume) : bool := rv_status v =? FM_LOGREDO.

(** ** [JournalRecovery] *)

Record JournalRecovery := mkRecovery {
  jr_logsuper : LogSuper; jr_commits : CommitTracker; jr_pages : PageTrackerTable;
  jr_no_redo_files : NoRedoFileTable; jr_volumes : list RecoveryVolume; jr_buf_pool : BufferPool }.

Definition jr_new (logsuper : LogSuper) : JournalRecovery :=
  mkRecovery logsuper ct_new pt_new ∅ [] (bp_new NBUFPOOL BLOCK_SIZE).

Definition jr_with_pages (f : PageTrackerTable -> PageTrackerTable) (j : JournalRecovery) : JournalRecovery :=
  mkRecovery (jr_logsuper j) (jr_commits j) (f (jr_pages j)) (jr_no_redo_files j) (jr_volumes j) (jr_buf_pool j).
Definition jr_with_volumes (f : list RecoveryVolume -> list RecoveryVolume) (j : JournalRecovery) : JournalRecovery :=
  mkRecovery (jr_logsuper j) (jr_commits j) (jr_pages j) (jr_no_redo_files j) (f (jr_volumes j)) (jr_buf_pool j).

(** The kind of an operating system error: whether it is [UnexpectedEof]. *)
Class IoKind := { io_is_eof : string -> bool }.

Section recovery.
Context {LE : LittleEndian} {IOK : IoKind}.

Definition pt_find_or_create (pxd : Pxd) (page_type aggregate : Z) (t : PageTrackerTable) : PageTrackerTable :=
  let addr := pxd_address pxd in
  match pt_find addr t with
  | Some _ => t
  | None => pt_push addr (tr_new pxd page_type aggregate) t
  end.

(** [get_volume] and [get_or_create_volume]: the table grows up to the index. *)
Definition get_volume (idx : Z) (j : JournalRecovery) : JournalRecovery :=
  jr_with_volumes (fun vs => vs ++ replicate (Z.to_nat (idx + 1) - length vs) rv_new) j.
Definition volume_at (idx : Z) (j : JournalRecovery) : RecoveryVolume :=
  default rv_new (jr_volumes j !! Z.to_nat idx).

(** ** Reading the log *)

Definition read_bytes_eof_ok {W} `{Storage W} (offset len : Z) : ST W StorageError (list byte) := fun w =>
  match read_bytes offset len w with
  | (Ok data, w) => (Ok data, w)
  | (Err (UnexpectedEof _ _), w) => (Ok (zeros (Z.to_nat len)), w)
  | (Err (Io e), w) => if io_is_eof e then (Ok (zeros (Z.to_nat len)), w) else (Err (Io e), w)
  | (Err e, w) => (Err e, w)
  | (Panic, w) => (Panic, w)
  end.

Record LogReader := mkReader {
  lr_log_end : Z; lr_log_start : Z; lr_log_data_start : Z; lr_log_size : Z; lr_wrapped : bool; lr_pos : Z }.

Definition lr_new (logsuper : LogSuper) (log_start : Z) : result LogReader :=
  let log_size := ls_page_size logsuper in
  let log_end := ls_get_end logsuper in
  let! pos := if 0 <? log_end then add_u64 log_start log_end else Ok log_start in
  Ok (mkReader log_end 0 log_start log_size false pos).

Definition lr_at (pos : Z) (r : LogReader) : LogReader :=
  mkReader (lr_log_end r) (lr_log_start r) (lr_log_data_start r) (lr_log_size r) (lr_wrapped r) pos.
Definition lr_set_syncpt (syncpt_addr : Z) (r : LogReader) : LogReader :=
  mkReader (lr_log_end r) syncpt_addr (lr_log_data_start r) (lr_log_size r) (lr_wrapped r) (lr_pos r).
Definition lr_set_wrapped (r : LogReader) : LogReader :=
  mkReader (lr_log_end r) (lr_log_start r) (lr_log_data_start r) (lr_log_size r) true (lr_pos r).

Definition parse_lrd (buf : list byte) : Lrd :=
  if LRD_SIZE <=? zlen buf then
    mkLrd (zslice buf 0 4) (zslice buf 4 8) (zslice buf 8 10) (zslice buf 10 12) (zslice buf 12 16)
      (zslice buf 16 20) (zslice buf 20 24) (zslice buf 24 26) (zslice buf 26 28)
      (mkPxd (zslice buf 28 32) (zslice buf 32 36))
  else lrd_default.

(** [peek.len() < 4 || (peek[0] == 0 && ... && peek[3] == 0)]. *)
Definition zero_word (peek : list byte) : bool :=
  (zlen peek <? 4) || forallb (fun b => bval b =? 0) (take 4 peek).

(** The size of a record, rounded up to words. *)
Definition rec_total (length : Z) : Z := (LRD_SIZE + length + 3) / 4 * 4.

Definition next_forward {W} {H : Storage W} : ST (LogReader * W) StorageError (option (Lrd * list byte)) := fun s =>
  let (r, w) := s in
  let run :=
    let* limit := slift (add_u64 (lr_log_data_start r) (lr_log_size r * LOGPSIZE)) in
    if limit <=? lr_pos r then sret None else
    let* peek := read_bytes_eof_ok (lr_pos r) 4 in
    if zero_word peek then sret None else
    let* lrd_bytes := read_bytes_eof_ok (lr_pos r) LRD_SIZE in
    if zlen lrd_bytes <? LRD_SIZE then sret None else
    let lrd := parse_lrd lrd_bytes in
    let data_len := lrd_length lrd in
    let* data_start := slift (add_u64 (lr_pos r) LRD_SIZE) in
    let* data := if 0 <? data_len then read_bytes data_start data_len else sret [] in
    let* pos := slift (add_u64 (lr_pos r) (rec_total data_len)) in
    sret (Some (lrd, data, pos)) in
  match run w with
  | (Ok (Some (lrd, data, pos)), w) => (Ok (Some (lrd, data)), (lr_at pos r, w))
  | (Ok None, w) => (Ok None, (r, w))
  | (Err e, w) => (Err e, (r, w))
  | (Panic, w) => (Panic, (r, w))
  end.

(** [find_end]: every iteration advances by at least a descriptor, so the
    number of descriptors that fit in the log bounds the iterations. *)
Definition log_fuel (r : LogReader) : nat := Z.to_nat (lr_log_size r * LOGPSIZE / LRD_SIZE + 1).

Fixpoint find_end_from {W} {H : Storage W} (fuel : nat) (r : LogReader) (pos : Z) : ST W StorageError Z :=
  match fuel with
  | O => spanic
  | S fuel =>
      let* limit := slift (add_u64 (lr_log_data_start r) (lr_log_size r * LOGPSIZE)) in
      if limit <=? pos then sret pos else
      let* lrd_bytes := read_bytes_eof_ok pos 4 in
      if zero_word lrd_bytes then sret pos else
      let* lrd_full := read_bytes_eof_ok pos LRD_SIZE in
      if zlen lrd_full <? LRD_SIZE then sret pos else
      let length := lrd_length (parse_lrd lrd_full) in
      let* pos := slift (add_u64 pos (rec_total length)) in
      find_end_from fuel r pos
  end.

Definition find_end {W} {H : Storage W} (r : LogReader) : ST W StorageError Z :=
  find_end_from (S (log_fuel r)) r (lr_log_data_start r).

(** The XOR check of a log page. *)
Definition validate_log_page (page : Logpage) : bool :=
  if negb (lp_h_page page =? lp_t_page page) then false
  else
    let xor := fold_left (fun x word => Z.lxor x (read_u32 word)) (lp_data page) 0 in
    let expected_header := as_u16 (Z.shiftr xor 16) in
    let expected_trailer := as_u16 (Z.land xor 0xffff) in
    (lp_h_eor page =? expected_header) && (lp_t_eor page =? expected_trailer).

(** ** Processing the records *)

Definition set_jr {W} (f : JournalRecovery -> JournalRecovery) : ST (JournalRecovery * W) StorageError unit :=
  smod (fun s => (f s.1, s.2)).

Definition on_fs {W A} (io : ST W StorageError A) : ST (JournalRecovery * W) StorageError A := fun s =>
  let (r, w) := io s.2 in (r, (s.1, w)).

(** The [LOG_INODE] branch of [update_page] after the block is written. In the
    [else] branch the program sets fields of a tracker of its own and then
    stores a fresh one. *)
Definition note_inode_page (lrd : Lrd) (t : PageTrackerTable) : PageTrackerTable :=
  let pxd := lrd_redopage_pxd lrd in
  let page_addr := pxd_address pxd in
  match pt_find page_addr t with
  | Some _ => pt_find_mut page_addr (fun tr => tr_set_slots 0x07 (Z.lor (tr_summary tr) 0x07) tr) t
  | None => pt_find_or_create pxd LOG_INODE (lrd_aggregate lrd) t
  end.

Definition update_page {W} {FS : Storage W} (lrd : Lrd) (data : list byte) : ST (JournalRecovery * W) StorageError unit := fun s =>
  let page_addr := pxd_address (lrd_redopage_pxd lrd) in
  let complete := match pt_find page_addr (jr_pages s.1) with Some t => tr_is_complete t | None => false end in
  (if complete then sret tt else
   let page_type := lrd_redopage_type lrd in
   if page_type =? LOG_INODE then
     let* _ := on_fs (write_block page_addr data) in
     set_jr (jr_with_pages (note_inode_page lrd))
   else if negb (Z.land page_type LOG_DATA =? 0) then on_fs (write_block page_addr data)
   else sret tt) s.

Definition do_after {W} {FS : Storage W} (lrd : Lrd) (data : list byte) : ST (JournalRecovery * W) StorageError unit :=
  let* _ := set_jr (get_volume (lrd_aggregate lrd)) in
  fun s =>
  let vol := volume_at (lrd_aggregate lrd) s.1 in
  (if rv_is_clean vol || rv_is_logredoing vol then sret tt
   else if negb (lrd_redopage_type lrd =? LOG_INODE) && nrf_contains (lrd_inode lrd) (jr_no_redo_files s.1) then sret tt
   else update_page lrd data) s.

(** The filter of one page; in the [else] branch the fresh entry stored is not
    the one marked. *)
Definition filter_page (pxd : Pxd) (aggregate : Z) (t : PageTrackerTable) : PageTrackerTable :=
  match pt_find (pxd_address pxd) t with
  | Some _ => pt_find_mut (pxd_address pxd) tr_set_no_redo t
  | None => pt_find_or_create pxd 0 aggregate t
  end.

Definition do_no_redo_page {W} (lrd : Lrd) : ST (JournalRecovery * W) StorageError unit :=
  set_jr (jr_with_pages (filter_page (lrd_redopage_pxd lrd) (lrd_aggregate lrd))).

(** The page filtered at [addr], whose descriptor keeps 40 bits of address. *)
Definition filter_at (addr aggregate : Z) (t : PageTrackerTable) : PageTrackerTable :=
  let filter_pxd := pxd_set_length (pxd_set_address pxd_default addr) 1 in
  match pt_find addr t with
  | Some _ => pt_find_mut addr tr_set_no_redo t
  | None => pt_find_or_create filter_pxd 0 aggregate t
  end.

Definition do_no_redo_ino_ext {W} (lrd : Lrd) : ST (JournalRecovery * W) StorageError unit :=
  let pxd := lrd_redopage_pxd lrd in
  let pages := (pxd_length pxd + BLOCK_SIZE - 1) / BLOCK_SIZE in
  set_jr (jr_with_pages (fun t =>
    fold_left (fun t i => filter_at (pxd_address pxd + i * BLOCK_SIZE) (lrd_aggregate lrd) t) (range 0 (Z.min pages 4)) t)).

Definition mark_bmap {W} (lrd : Lrd) (val : Z) : ST (JournalRecovery * W) StorageError unit :=
  let vol_idx := lrd_aggregate lrd in
  let* _ := set_jr (get_volume vol_idx) in
  fun s =>
  let vol := volume_at vol_idx s.1 in
  let block := pxd_address (lrd_redopage_pxd lrd) / BLOCK_SIZE in
  (match rv_bmap_wsp vol !! Z.to_nat block with
   | Some page =>
       if (val =? 1) && (INODEMAP_WORD_SIZE <? zlen page) then
         if negb (read_u32 (zslice page 0 4) =? 0) then sret tt
         else set_jr (jr_with_volumes (fun vs => <[Z.to_nat vol_idx :=
                mkRVol (rv_status vol) (rv_fssize vol) (rv_lbperpage vol) (rv_bmap_ctl vol)
                  (<[Z.to_nat block := zsplice page 0 (write_u32 1)]> (rv_bmap_wsp vol)) (rv_fsimap_lst vol)]> vs))
       else sret tt
   | None => sret tt
   end) s.

Definition do_update_map {W} (lrd : Lrd) : ST (JournalRecovery * W) StorageError unit :=
  let record_type := lrd_redopage_type lrd in
  if negb (Z.land record_type 0x0020 =? 0) then mark_bmap lrd 0
  else if negb (Z.land record_type 0x0010 =? 0) then mark_bmap lrd 1
  else mark_bmap lrd 1.

Definition process_record {W} {FS : Storage W} (lrd : Lrd) (data : list byte) : ST (JournalRecovery * W) StorageError unit := fun s =>
  (if lrd_is_commit lrd then
     set_jr (fun j => mkRecovery (jr_logsuper j) (ct_commit (lrd_logtid lrd) (jr_commits j)) (jr_pages j)
                        (jr_no_redo_files j) (jr_volumes j) (jr_buf_pool j))
   else if lrd_is_mount lrd then
     let* _ := set_jr (get_volume (lrd_aggregate lrd)) in
     set_jr (fun j => jr_with_volumes (fun vs =>
       let vol := volume_at (lrd_aggregate lrd) j in
       <[Z.to_nat (lrd_aggregate lrd) := mkRVol FM_CLEAN (rv_fssize vol) (rv_lbperpage vol) (rv_bmap_ctl vol)
           (rv_bmap_wsp vol) (rv_fsimap_lst vol)]> vs) j)
   else if lrd_is_syncpt lrd then sret tt
   else if negb (ct_is_committed (lrd_logtid lrd) (jr_commits s.1)) then sret tt
   else if lrd_is_commit lrd && (lrd_backchain lrd =? 0) then
     set_jr (fun j => mkRecovery (jr_logsuper j) (ct_end_of_transaction (lrd_logtid lrd) (jr_commits j)).2 (jr_pages j)
                        (jr_no_redo_files j) (jr_volumes j) (jr_buf_pool j))
   else if lrd_is_redopage lrd then do_after lrd data
   else if lrd_is_noredopage lrd then do_no_redo_page lrd
   else if lrd_is_noredoinoext lrd then do_no_redo_ino_ext lrd
   else if lrd_is_updatemap lrd then do_update_map lrd
   else sret tt) s.

(** ** [replay] *)

(** Phase 1: the records whose end lies within the log. *)
Fixpoint collect {W} {LG : Storage W} (fuel : nat) (log_data_start log_end : Z) (records : list (Lrd * list byte))
  : ST (LogReader * W) StorageError (list (Lrd * list byte)) :=
  match fuel with
  | O => spanic
  | S fuel =>
      let* next := next_forward in
      fun s =>
      match next with
      | Some (lrd, data) =>
          let rec_end := lr_pos s.1 - log_data_start in
          if log_end <? rec_end then (Ok records, s)
          else collect fuel log_data_start log_end (records ++ [(lrd, data)]) s
      | None => (Ok records, s)
      end
  end.

(** The address at which a sync point stops the replay. *)
Definition stop_address (lrd : Lrd) (log_data_start last_addr : Z) : result Z :=
  if lrd_is_syncpt lrd then
    let sync := lrd_syncpt_sync lrd in
    if 0 <? sync then add_u64 log_data_start (sync * LOGPSIZE) else Ok last_addr
  else Ok last_addr.

(** Phase 2, over the reversed records; [pos] is where the reader stopped. *)
Fixpoint replay_records {W} {FS : Storage W} (records : list (Lrd * list byte)) (log_data_start pos last_addr : Z)
  : ST (JournalRecovery * W) StorageError unit :=
  match records with
  | [] => sret tt
  | (lrd, data) :: records =>
      let* _ := process_record lrd data in
      let* last_addr := slift (stop_address lrd log_data_start last_addr) in
      if (0 <? last_addr) && (pos <=? last_addr) then sret tt
      else replay_records records log_data_start pos last_addr
  end.

(** Phase 3: the fixed fields of the superblock. *)
Definition final_super (s : LogSuper) : list byte :=
  ls_magic s ++ ls_version s ++ ls_serial s ++ ls_size s ++ ls_bsize s ++ ls_l2bsize s ++ ls_flag s ++ ls_state s ++
  ls_end s.

Definition replay {W} (LG FS : Storage W) (log_data_start : Z) : ST (JournalRecovery * W) StorageError unit := fun s =>
  let j := s.1 in
  (if ls_get_state (jr_logsuper j) =? LOGREDONE then sret tt else
   let* log_end :=
     if 0 <? ls_get_end (jr_logsuper j) then sret (ls_get_end (jr_logsuper j))
     else let* reader := slift (lr_new (jr_logsuper j) log_data_start) in on_fs (find_end (W := W) (H := LG) reader) in
   let* reader := slift (lr_new (jr_logsuper j) log_data_start) in
   let* (records, pos) := on_fs (fun w =>
     let '(r, (reader, w)) := collect (LG := LG) (S (log_fuel reader)) log_data_start log_end [] (lr_at log_data_start reader, w) in
     (let! records := r in Ok (records, lr_pos reader), w)) in
   let* _ := replay_records (FS := FS) (rev records) log_data_start pos 0 in
   let* _ := set_jr (fun j => mkRecovery (ls_set_state (jr_logsuper j) LOGREDONE) (jr_commits j) (jr_pages j)
                                (jr_no_redo_files j) (jr_volumes j) (jr_buf_pool j)) in
   fun s =>
   (let* buf := slift (splice (zeros 128) 0 (final_super (jr_logsuper s.1))) in
    on_fs (write_bytes (Storage := LG) (saturating_sub log_data_start BLOCK_SIZE) buf)) s) s.

Definition finalize (j : JournalRecovery) : LogSuper * JournalRecovery :=
  let s := ls_set_state (jr_logsuper j) LOGREDONE in
  (s, mkRecovery s (jr_commits j) (jr_pages j) (jr_no_redo_files j) (jr_volumes j) (jr_buf_pool j)).
End recovery.

(** * Properties *)

(** ** Descriptors *)

Lemma parse_lrd_flat r : wf_lrd r -> parse_lrd (lrd_flat r) = r.
Proof.
  intros Hr. destruct (lrd_bytes_ok r Hr) as [_ Hl].
  destruct Hr as (H1 & H2 & H3 & H4 & H5 & H6 & H7 & H8 & H9 & H10 & H11).
  apply zlen_of_length in H1, H2, H3, H4, H5, H6, H7, H8, H9, H10, H11.
  unfold parse_lrd. rewrite Hl. change (LRD_SIZE <=? 36) with true. cbn iota.
  destruct r as [f1 f2 f3 f4 f5 f6 f7 f8 f9 [p1 p2]]. unfold lrd_flat, pxd_into_bytes in *.
  cbn [lrd_f_logtid lrd_f_backchain lrd_f_type lrd_f_length lrd_f_aggregate lrd_f_fileset lrd_f_inode lrd_f_rtype
       lrd_f_l2linesize lrd_f_pxd len_addr addr2] in *.
  f_equal; [..|f_equal].
  all: repeat first [ rewrite zslice_app_r by zl | rewrite zslice_app_l by zl ]; apply zslice_whole; lia.
Qed.

(** The parser of recovery inverts the writer of the log manager: the 36
    bytes [lrd_bytes] makes of a descriptor parse to that descriptor. *)
Theorem lrd_roundtrip r (Hr : wf_lrd r) :
  exists bytes, lrd_bytes r = Ok bytes /\ zlen bytes = LRD_SIZE /\ parse_lrd bytes = r.
Proof.
  destruct (lrd_bytes_ok r Hr) as [Hb Hl]. exists (lrd_flat r). split_and!; [done|done|by apply parse_lrd_flat].
Qed.

Lemma lrd_roundtrip_witness :
  exists bytes, lrd_bytes (mkLrd (zeros 4) (zeros 4) (zeros 2) (zeros 2) (zeros 4) (zeros 4) (zeros 4) (zeros 2) (zeros 2)
    (mkPxd (zeros 4) (bof <$> [1; 2; 3; 4]))) = Ok bytes /\ zlen bytes = LRD_SIZE.
Proof.
  destruct (lrd_roundtrip (mkLrd (zeros 4) (zeros 4) (zeros 2) (zeros 2) (zeros 4) (zeros 4) (zeros 4) (zeros 2) (zeros 2)
    (mkPxd (zeros 4) (bof <$> [1; 2; 3; 4])))) as (bytes & H1 & H2 & _); [by split_and!|]. by exists bytes.
Defined.

(** ** What reaches the file system *)

(** The writes of committed transactions, from the records in the order in
    which they are processed (the last of the log first). *)
Fixpoint committed_redo `{LE : LittleEndian} (tids : gset Z) (records : list (Lrd * list byte)) : list (Z * list byte) :=
  match records with
  | [] => []
  | (r, data) :: records =>
      if lrd_is_commit r then committed_redo ({[lrd_logtid r]} ∪ tids) records
      else if bool_decide (lrd_logtid r ∈ tids) && lrd_is_redopage r
      then (pxd_address (lrd_redopage_pxd r), data) :: committed_redo tids records
      else committed_redo tids records
  end.

Section redo_facts.
Context {LE : LittleEndian} {LES : LittleEndianSpec} {W : Type} {FS : Storage W} {SS : StorageSpec W}.

Abbreviation JW := (JournalRecovery * W)%type.

(** [touches c c' ws]: only bytes of the blocks in [ws] differ. *)
Definition only_touches (ws : list (Z * list byte)) (c c' : list byte) : Prop :=
  length c' = length c /\
  forall i, 0 <= i -> Forall (fun w => ~ (w.1 * BLOCK_SIZE <= i < w.1 * BLOCK_SIZE + zlen w.2)) ws ->
    c' !!! Z.to_nat i = c !!! Z.to_nat i.

Lemma only_touches_refl ws c : only_touches ws c c.
Proof. done. Qed.

Lemma only_touches_trans ws1 ws2 c1 c2 c3 :
  only_touches ws1 c1 c2 -> only_touches ws2 c2 c3 -> only_touches (ws1 ++ ws2) c1 c3.
Proof.
  intros [Hl1 H1] [Hl2 H2]. split; [congruence|]. intros i Hi Hf. apply Forall_app in Hf as [Hf1 Hf2].
  rewrite H2, H1; done.
Qed.

Lemma update_page_touches lrd data (j : JournalRecovery) (w : W) :
  wf_pxd (lrd_f_pxd lrd) -> st_wf w ->
  let s' := (update_page lrd data (j, w)).2 in
  st_wf s'.2 /\ jr_commits s'.1 = jr_commits j /\
  only_touches [(pxd_address (lrd_redopage_pxd lrd), data)] (contents w) (contents s'.2).
Proof.
  intros Hp Hw. unfold update_page. cbn [fst snd]. destruct (match pt_find _ _ with Some _ => _ | _ => _ end); [done|].
  assert (Ha : 0 <= pxd_address (lrd_redopage_pxd lrd)).
  { by apply pxd_address_range. }
  destruct (st_write_block (pxd_address (lrd_redopage_pxd lrd)) data w Hw Ha) as (Hw' & Hs & _).
  assert (Ht : only_touches [(pxd_address (lrd_redopage_pxd lrd), data)] (contents w)
    (contents (write_block (pxd_address (lrd_redopage_pxd lrd)) data w).2)).
  { split; [destruct Hs as [Hl _]; unfold zlen in Hl; lia|]. intros i Hi Hf. rewrite Forall_singleton in Hf.
    by apply (same_outside_byte _ _ _ _ _ Hs). }
  destruct (lrd_redopage_type lrd =? LOG_INODE).
  - unfold sbind, on_fs, set_jr, smod. cbn [fst snd]. destruct (write_block _ _ w) as [[[]| |] w']; done.
  - destruct (negb _); [|done]. unfold on_fs. cbn [fst snd]. by destruct (write_block _ _ w) as [[[]| |] w'].
Qed.

(** One record: its transaction is marked, or the write of a record of a marked
    transaction is the only thing that touches the device. *)
Lemma process_record_touches lrd data j (w : W) (tids : gset Z) :
  wf_pxd (lrd_f_pxd lrd) -> st_wf w -> (forall t, is_Some (ct_committed (jr_commits j) !! t) -> t ∈ tids) ->
  let s' := (process_record lrd data (j, w)).2 in
  st_wf s'.2 /\
  (forall t, is_Some (ct_committed (jr_commits s'.1) !! t) -> t ∈ tids \/ (lrd_is_commit lrd = true /\ t = lrd_logtid lrd)) /\
  only_touches (if negb (lrd_is_commit lrd) && (bool_decide (lrd_logtid lrd ∈ tids) && lrd_is_redopage lrd)
                then [(pxd_address (lrd_redopage_pxd lrd), data)] else []) (contents w) (contents s'.2).
Proof.
  intros Hp Hw Ht. unfold process_record. cbn [fst]. destruct (lrd_is_commit lrd) eqn:Hc.
  { cbn. split_and!; [done| |done]. intros t. destruct (decide (t = lrd_logtid lrd)) as [->|Hne]; [by right|].
    rewrite lookup_insert_ne by done. eauto. }
  cbn [negb andb]. destruct (lrd_is_mount lrd).
  { cbn. split_and!; [done|by eauto|done]. }
  destruct (lrd_is_syncpt lrd); [cbn; split_and!; [done|by eauto|done]|].
  unfold ct_is_committed. destruct (bool_decide_reflect (is_Some (ct_committed (jr_commits j) !! lrd_logtid lrd))) as [Hin|Hin];
    cbn [negb]; [|cbn; split_and!; [done|by eauto|done]].
  rewrite (bool_decide_eq_true_2 (lrd_logtid lrd ∈ tids)) by eauto. cbn [andb].
  destruct (lrd_is_redopage lrd).
  - unfold do_after, sbind, set_jr, smod. cbn [fst snd]. destruct (rv_is_clean _ || _); [cbn; split_and!; [done|by eauto|done]|].
    destruct (negb _ && _); [cbn; split_and!; [done|by eauto|done]|].
    destruct (update_page_touches lrd data (get_volume (lrd_aggregate lrd) j) w Hp Hw) as (H1 & H2 & H3).
    split_and!; [done| |done]. rewrite H2. cbn. by eauto.
  - destruct (lrd_is_noredopage lrd); [cbn; split_and!; [done|by eauto|done]|].
    destruct (lrd_is_noredoinoext lrd); [cbn; split_and!; [done|by eauto|done]|].
    destruct (lrd_is_updatemap lrd); [|cbn; split_and!; [done|by eauto|done]].
    unfold do_update_map. assert (Hm : forall v, let s' := (mark_bmap lrd v (j, w)).2 in s'.2 = w /\ jr_commits s'.1 = jr_commits j).
    { intros v. unfold mark_bmap, sbind, set_jr, smod. cbn [fst snd]. by repeat case_match. }
    assert (Hv : exists v, (if negb (Z.land (lrd_redopage_type lrd) 0x0020 =? 0) then mark_bmap lrd 0
      else if negb (Z.land (lrd_redopage_type lrd) 0x0010 =? 0) then mark_bmap lrd 1 else mark_bmap lrd 1) (j, w) = mark_bmap lrd v (j, w)).
    { repeat case_match; eauto. }
    destruct Hv as [v ->]. destruct (Hm v) as [-> ->]. split_and!; [done|by eauto|done].
Qed.

Lemma replay_records_touches records start pos last j (w : W) (tids : gset Z) :
  Forall (fun r => wf_pxd (lrd_f_pxd r.1)) records -> st_wf w ->
  (forall t, is_Some (ct_committed (jr_commits j) !! t) -> t ∈ tids) ->
  let s' := (replay_records records start pos last (j, w)).2 in
  st_wf s'.2 /\ only_touches (committed_redo tids records) (contents w) (contents s'.2).
Proof.
  intros Hr. revert last j w tids. induction Hr as [|[r data] records Hp Hr IH]; intros last j w tids Hw Ht; cbn [replay_records]; [done|].
  destruct (process_record_touches r data j w tids Hp Hw Ht) as (Hw1 & Ht1 & Ho1).
  assert (Hweak : forall ws ws' c c', ws ⊆ ws' -> only_touches ws c c' -> only_touches ws' c c').
  { intros ws ws' c c' Hs [Hl Ho]. split; [done|]. intros i Hi Hf. apply Ho; [done|]. rewrite Forall_forall in *. eauto. }
  set (head := if negb _ && _ then _ else _) in Ho1.
  set (tids1 := if lrd_is_commit r then {[lrd_logtid r]} ∪ tids else tids).
  assert (Hcons : committed_redo tids ((r, data) :: records) = head ++ committed_redo tids1 records).
  { subst head tids1. cbn [committed_redo]. destruct (lrd_is_commit r); [done|]. cbn [negb andb]. by destruct (_ && _). }
  rewrite Hcons. destruct (process_record r data (j, w)) as [o [j1 w1]] eqn:E. cbn [fst snd] in *.
  assert (Hhead : only_touches (head ++ committed_redo tids1 records) (contents w) (contents w1)).
  { eapply Hweak; [|done]. set_solver. }
  destruct o as [[]| |]; [|unfold sbind; rewrite E; done..]. rewrite (sbind_ok _ _ _ _ _ E).
  assert (Ht2 : forall t, is_Some (ct_committed (jr_commits j1) !! t) -> t ∈ tids1).
  { intros t Hs. subst tids1. destruct (Ht1 t Hs) as [H|[Hc ->]]; [destruct (lrd_is_commit r); set_solver|]. rewrite Hc. set_solver. }
  unfold sbind, slift. destruct (stop_address r start last) as [last'| |]; [|done..]. cbn beta iota. destruct ((0 <? _) && _); [done|].
  destruct (IH last' j1 w1 tids1 Hw1 Ht2) as [Hw2 Ho2]. split; [done|]. eapply only_touches_trans; done.
Qed.

(** C3: recovery applies nothing of a transaction that has no commit record:
    whatever the records are, and even when a write fails half-way, a byte of
    the file system outside the blocks named by the redo records of
    transactions whose commit record comes later in the log keeps its value. *)
Theorem uncommitted_never_applied records start pos last j (w : W)
  (Hr : Forall (fun r => wf_pxd (lrd_f_pxd r.1)) records) (Hw : st_wf w)
  (Hj : ct_committed (jr_commits j) = ∅) i
  (Hi : 0 <= i) (Hout : Forall (fun w => ~ (w.1 * BLOCK_SIZE <= i < w.1 * BLOCK_SIZE + zlen w.2)) (committed_redo ∅ (rev records))) :
  let w' := (replay_records (rev records) start pos last (j, w)).2.2 in
  st_wf w' /\ zlen (contents w') = zlen (contents w) /\ contents w' !!! Z.to_nat i = contents w !!! Z.to_nat i.
Proof.
  destruct (replay_records_touches (rev records) start pos last j w ∅) as [Hw' [Hl Ho]].
  - rewrite Forall_forall in *. intros x Hx. apply Hr. by apply list_elem_of_In, in_rev, list_elem_of_In.
  - done.
  - rewrite Hj. intros t [x Hx]. by rewrite lookup_empty in Hx.
  - cbn zeta. split_and!; [done|unfold zlen; lia|by apply Ho].
Qed.
End redo_facts.

(** ** Replay of a log of block images *)

Section redo_ok.
Context {LE : LittleEndian} {LES : LittleEndianSpec} {W : Type} {FS : Storage W} {SS : StorageSpec W} {SR : StorageReliable W}.

(** The records the log manager writes: commit records, and images of blocks
    of the file system of [n] bytes. *)
Definition image_record (n : Z) (r : Lrd * list byte) : Prop :=
  wf_lrd r.1 /\ lrd_is_mount r.1 = false /\ lrd_is_syncpt r.1 = false /\
  (lrd_is_commit r.1 = false ->
     lrd_is_redopage r.1 = true /\ lrd_redopage_type r.1 = LOG_INODE /\ zlen r.2 = BLOCK_SIZE /\
     pxd_address (lrd_redopage_pxd r.1) * BLOCK_SIZE + BLOCK_SIZE <= n).

(** No volume is marked clean and no page is filtered. *)
Definition redo_ready (tids : gset Z) (j : JournalRecovery) : Prop :=
  (forall t, is_Some (ct_committed (jr_commits j) !! t) <-> t ∈ tids) /\
  Forall (fun v => rv_status v = FM_DIRTY) (jr_volumes j) /\
  Forall (Forall (fun e => tr_summary e.2 = 0 \/ tr_summary e.2 = 7)) (jr_pages j).

Lemma bucket_update_forall (P : Z * PageTracker -> Prop) addr f b :
  (forall k t, P (k, t) -> P (k, f t)) -> Forall P b -> Forall P (bucket_update addr f b).
Proof.
  intros Hf. induction 1 as [|[k t] b Hk Hb IH]; cbn [bucket_update]; [done|]. case_match; constructor; auto.
Qed.

Lemma pt_find_forall (P : Z * PageTracker -> Prop) addr t tr :
  Forall (Forall P) t -> pt_find addr t = Some tr -> exists k, P (k, tr).
Proof.
  intros Ht. unfold pt_find, pt_bucket, PageTrackerTable. destruct (t !! pt_hash addr) as [b|] eqn:Hb; [|cbn; discriminate].
  cbn [default from_option id].
  destruct (List.find _ b) as [[k x]|] eqn:Hf; [|cbn; discriminate]. cbn. intros [= ->]. exists k.
  apply find_some in Hf as [Hin _]. rewrite Forall_forall in Ht. specialize (Ht b (list_elem_of_lookup_2 _ _ _ Hb)).
  rewrite Forall_forall in Ht. by apply Ht, list_elem_of_In.
Qed.

Lemma note_inode_page_ready lrd t :
  Forall (Forall (fun e => tr_summary e.2 = 0 \/ tr_summary e.2 = 7)) t ->
  Forall (Forall (fun e => tr_summary e.2 = 0 \/ tr_summary e.2 = 7)) (note_inode_page lrd t).
Proof.
  intros Ht. unfold note_inode_page, pt_find_or_create. destruct (pt_find _ t) eqn:Hf; [|rewrite ?Hf].
  - unfold pt_find_mut. apply Forall_alter; [done|]. intros b _ Hb. apply bucket_update_forall; [|done].
    intros k x [Hx|Hx]; cbn [snd tr_set_slots tr_summary] in *; rewrite Hx; by right.
  - unfold pt_push. apply Forall_alter; [done|]. intros b _ Hb. apply Forall_app_2; [done|]. constructor; [by left|done].
Qed.

Lemma get_volume_dirty idx j :
  Forall (fun v => rv_status v = FM_DIRTY) (jr_volumes j) ->
  Forall (fun v => rv_status v = FM_DIRTY) (jr_volumes (get_volume idx j)) /\ rv_status (volume_at idx (get_volume idx j)) = FM_DIRTY.
Proof.
  intros Hv. assert (Hg : Forall (fun v => rv_status v = FM_DIRTY) (jr_volumes (get_volume idx j))).
  { cbn. apply Forall_app_2; [done|]. by apply Forall_replicate. }
  split; [done|]. unfold volume_at. destruct (_ !! _) as [v|] eqn:E; [|done]. rewrite Forall_lookup in Hg. eauto.
Qed.

Lemma process_image r data tids j (w : W) :
  image_record (zlen (contents w)) (r, data) -> redo_ready tids j -> st_wf w ->
  exists j' w', process_record r data (j, w) = (Ok tt, (j', w')) /\ st_wf w' /\
    jr_logsuper j' = jr_logsuper j /\
    redo_ready (if lrd_is_commit r then {[lrd_logtid r]} ∪ tids else tids) j' /\
    contents w' = apply_writes (if negb (lrd_is_commit r) && bool_decide (lrd_logtid r ∈ tids)
                                then [(pxd_address (lrd_redopage_pxd r), data)] else []) (contents w).
Proof.
  intros (Hwf & Hm & Hs & Hr) (Hc & Hv & Ht) Hw. cbn [fst snd] in *. unfold process_record. cbn [fst].
  destruct (lrd_is_commit r) eqn:Ec.
  { eexists _, w. split_and!; [done|done|done| |done]. split_and!; [|done|done]. intros t. cbn.
    destruct (decide (t = lrd_logtid r)) as [->|Hne]; [rewrite lookup_insert_eq; split; [set_solver|by eauto]|].
    rewrite lookup_insert_ne by done. rewrite Hc. set_solver. }
  rewrite Hm, Hs. cbn [negb andb]. destruct (Hr eq_refl) as (Hredo & Hty & Hd & Hrng). unfold ct_is_committed.
  rewrite (bool_decide_ext _ _ (Hc (lrd_logtid r))). case_bool_decide as Hin; cbn [negb]; [|by eexists j, w].
  rewrite Hredo. unfold do_after, sbind at 1, set_jr, smod. cbn [fst snd]. destruct (get_volume_dirty (lrd_aggregate r) j Hv) as [Hv' Hst].
  unfold rv_is_clean, rv_is_logredoing. rewrite Hst, Hty. cbn. unfold update_page. cbn [fst snd].
  destruct (write_block_run (pxd_address (lrd_redopage_pxd r)) data w) as (w' & Hrun & Hw' & Hc'); [done| |done|done|].
  { apply pxd_address_range, Hwf. }
  assert (Hcomp : match pt_find (pxd_address (lrd_redopage_pxd r)) (jr_pages (get_volume (lrd_aggregate r) j)) with
    | Some t => tr_is_complete t | None => false end = false).
  { destruct (pt_find _ _) as [t|] eqn:E; [|done]. destruct (pt_find_forall _ _ _ _ Ht E) as (k & [Hk|Hk]);
      unfold tr_is_complete; cbn [snd] in Hk; by rewrite Hk. }
  rewrite Hcomp, Hty. change (LOG_INODE =? LOG_INODE) with true. cbn iota.
  unfold sbind, on_fs. cbn [fst snd]. rewrite Hrun.
  eexists _, w'. split_and!; [done|done|done| |done]. split_and!; [done|done|]. by apply note_inode_page_ready.
Qed.

Lemma replay_images records start pos tids j (w : W) :
  Forall (image_record (zlen (contents w))) records -> redo_ready tids j -> st_wf w ->
  exists j' w', replay_records records start pos 0 (j, w) = (Ok tt, (j', w')) /\ st_wf w' /\
    jr_logsuper j' = jr_logsuper j /\ zlen (contents w') = zlen (contents w) /\
    contents w' = apply_writes (committed_redo tids records) (contents w).
Proof.
  intros Hr. remember (zlen (contents w)) as n eqn:Hn. revert tids j w Hn.
  induction Hr as [|[r data] records Hrec Hr IH]; intros tids j w Hn Hj Hw; cbn [replay_records].
  { by eexists j, w. }
  subst n. destruct (process_image r data tids j w Hrec Hj Hw) as (j1 & w1 & Hrun & Hw1 & Hs1 & Hj1 & Hc1).
  pose proof (process_record_touches r data j w tids) as Htouch. destruct Htouch as (_ & _ & [Hl1 _]);
    [apply Hrec|done|apply Hj|]. rewrite Hrun in Hl1. cbn [snd] in Hl1.
  destruct (IH (if lrd_is_commit r then {[lrd_logtid r]} ∪ tids else tids) j1 w1) as (j2 & w2 & Hrun2 & Hw2 & Hs2 & Hl2 & Hc2); [unfold zlen; lia|done|done|].
  rewrite (sbind_ok _ _ _ _ _ Hrun). unfold sbind, slift, stop_address. destruct Hrec as (_ & _ & Hsync & Hred). cbn [fst] in Hsync, Hred. rewrite Hsync.
  cbn beta iota. change (0 <? 0) with false. cbn [andb]. exists j2, w2. split_and!; [done|done|congruence|unfold zlen in *; lia|].
  rewrite Hc2, Hc1. cbn [committed_redo]. destruct (lrd_is_commit r) eqn:Ec; [done|].
  destruct (Hred eq_refl) as (-> & _). rewrite andb_true_r. cbn [negb andb]. by case_bool_decide.
Qed.

Lemma jr_new_ready s : redo_ready ∅ (jr_new s).
Proof.
  split_and!; [|done|].
  - intros t. cbn. rewrite lookup_empty. split; [by intros [? [=]]|set_solver].
  - by apply Forall_replicate.
Qed.

Lemma committed_redo_images n tids records :
  Forall (image_record n) records ->
  Forall (fun w => 0 <= w.1 /\ zlen w.2 = BLOCK_SIZE /\ w.1 * BLOCK_SIZE + BLOCK_SIZE <= n) (committed_redo tids records).
Proof.
  intros Hr. revert tids. induction Hr as [|[r data] records (Hwf & _ & _ & Hrec) Hr IH]; intros tids; cbn [committed_redo]; [done|].
  cbn [fst snd] in *. destruct (lrd_is_commit r); [done|]. destruct (_ && _); [|done]. constructor; [|done]. cbn [fst snd].
  destruct (Hrec eq_refl) as (_ & _ & H1 & H2). split_and!; [|done|done]. apply pxd_address_range, Hwf.
Qed.

(** Recovery restores committed transactions: on a device that does not
    fail, processing a log of block images succeeds, and every block logged
    by a committed transaction, with one image in the log, holds that
    image afterwards. *)
Theorem replay_restores_committed records start pos super (w : W) b d
  (Hr : Forall (image_record (zlen (contents w))) records) (Hw : st_wf w)
  (Hin : (b, d) ∈ committed_redo ∅ (rev records))
  (Hu : forall d', (b, d') ∈ committed_redo ∅ (rev records) -> d' = d) :
  exists j' w', replay_records (rev records) start pos 0 (jr_new super, w) = (Ok tt, (j', w')) /\
    zlen (contents w') = zlen (contents w) /\ block_at (contents w') b = d.
Proof.
  assert (Hr' : Forall (image_record (zlen (contents w))) (rev records)).
  { rewrite Forall_forall in *. intros x Hx. apply Hr. by apply list_elem_of_In, in_rev, list_elem_of_In. }
  destruct (replay_images (rev records) start pos ∅ (jr_new super) w Hr' (jr_new_ready super) Hw)
    as (j' & w' & Hrun & _ & _ & Hl & Hc).
  exists j', w'. split_and!; [done|done|]. rewrite Hc. pose proof (committed_redo_images _ ∅ _ Hr') as Him.
  destruct (proj1 (Forall_forall _ _) Him _ Hin) as (H1 & H2 & H3). apply block_at_apply_writes; auto.
Qed.
End redo_ok.

(** ** Reading back the log *)

Section scan_facts.
Context {LE : LittleEndian} {LES : LittleEndianSpec} {IOK : IoKind} {W : Type} {LG : Storage W} {SS : StorageSpec W} {SR : StorageReliable W}.

(** A record that the reader can delimit: a transaction identifier other than
    zero, and data of a whole number of words. *)
Definition log_record (r : Lrd * list byte) : Prop :=
  wf_lrd r.1 /\ lrd_length r.1 = zlen r.2 /\ zlen r.2 mod 4 = 0 /\ zero_word (lrd_f_logtid r.1) = false.

Definition record_bytes (r : Lrd * list byte) : list byte := lrd_flat r.1 ++ r.2.

Lemma zlen_record_bytes r : log_record r -> zlen (record_bytes r) = 36 + zlen r.2.
Proof. intros (H & _). unfold record_bytes. destruct (lrd_bytes_ok _ H) as [_ Hl]. rewrite zlen_app. lia. Qed.

Lemma rec_total_record r : log_record r -> rec_total (lrd_length r.1) = zlen (record_bytes r).
Proof.
  intros Hr. rewrite zlen_record_bytes by done. destruct Hr as (_ & -> & Hm & _). unfold rec_total, LRD_SIZE.
  pose proof (Z.div_mod (zlen r.2) 4 ltac:(lia)). replace (36 + zlen r.2 + 3) with (3 + (9 + zlen r.2 / 4) * 4) by lia.
  rewrite Z.div_add by lia. change (3 / 4) with 0. lia.
Qed.

Lemma read_bytes_run off len (w : W) :
  st_wf w -> 0 <= off -> 0 <= len -> off + len <= zlen (contents w) ->
  exists w', read_bytes off len w = (Ok (zslice (contents w) off (off + len)), w') /\ st_wf w' /\ contents w' = contents w.
Proof.
  intros Hw Ho Hl Hr. pose proof (st_read_bytes_ok off len w Hw Ho Hl Hr) as Hok.
  destruct (st_read_bytes off len w Hw Ho Hl) as (Hw' & Hc & _).
  destruct (read_bytes off len w) as [o w']. cbn [fst snd] in *. subst o. by exists w'.
Qed.

Lemma read_bytes_eof_ok_run off len (w : W) :
  st_wf w -> 0 <= off -> 0 <= len -> off + len <= zlen (contents w) ->
  exists w', read_bytes_eof_ok off len w = (Ok (zslice (contents w) off (off + len)), w') /\ st_wf w' /\ contents w' = contents w.
Proof.
  intros Hw Ho Hl Hr. destruct (read_bytes_run off len w Hw Ho Hl Hr) as (w' & Hrun & H). exists w'. split; [|done].
  unfold read_bytes_eof_ok. by rewrite Hrun.
Qed.

(** The limit of the log as a sum that does not overflow. *)
Definition lr_limit (r : LogReader) : Z := lr_log_data_start r + lr_log_size r * LOGPSIZE.

Lemma next_forward_record rd r (w : W) :
  log_record rd -> st_wf w -> 0 <= lr_pos r < lr_limit r -> lr_limit r < 2 ^ 64 ->
  lr_pos r + zlen (record_bytes rd) <= zlen (contents w) ->
  zslice (contents w) (lr_pos r) (lr_pos r + zlen (record_bytes rd)) = record_bytes rd ->
  exists w', next_forward (r, w) = (Ok (Some rd), (lr_at (lr_pos r + zlen (record_bytes rd)) r, w')) /\
    st_wf w' /\ contents w' = contents w.
Proof.
  intros Hrec Hw Hp Hlim Hr Hz. pose proof (rec_total_record rd Hrec) as Htot. pose proof (zlen_record_bytes rd Hrec) as Hlen.
  destruct Hrec as (Hwf & Hlrd & Hmod & Hne). destruct (lrd_bytes_ok _ Hwf) as [_ Hflat]. pose proof (st_bound w Hw) as Hbound.
  pose proof (zlen_nonneg rd.2).
  assert (Hsub : forall a b, 0 <= a -> b <= zlen (record_bytes rd) ->
    zslice (contents w) (lr_pos r + a) (lr_pos r + b) = zslice (record_bytes rd) a b).
  { intros a b Ha Hb. rewrite <- Hz, zslice_zslice by lia. done. }
  assert (H4 : zslice (contents w) (lr_pos r) (lr_pos r + 4) = lrd_f_logtid rd.1).
  { rewrite <- (Z.add_0_r (lr_pos r)) at 1. rewrite Hsub by lia. unfold record_bytes.
    destruct Hwf as (H1 & _). apply zlen_of_length in H1. unfold lrd_flat. rewrite <- app_assoc.
    rewrite zslice_app_l by lia. apply zslice_whole; lia. }
  assert (H36 : zslice (contents w) (lr_pos r) (lr_pos r + 36) = lrd_flat rd.1).
  { rewrite <- (Z.add_0_r (lr_pos r)) at 1. rewrite Hsub by lia. unfold record_bytes.
    rewrite zslice_app_l by lia. apply zslice_whole; lia. }
  assert (Hd : zslice (contents w) (lr_pos r + 36) (lr_pos r + 36 + zlen rd.2) = rd.2).
  { rewrite <- Z.add_assoc, Hsub by lia. unfold record_bytes. rewrite zslice_app_r by lia. apply zslice_whole; lia. }
  destruct (read_bytes_eof_ok_run (lr_pos r) 4 w) as (w1 & Hr1 & Hw1 & Hc1); [done|lia|lia|lia|].
  destruct (read_bytes_eof_ok_run (lr_pos r) LRD_SIZE w1) as (w2 & Hr2 & Hw2 & Hc2); [done|lia|done|unfold LRD_SIZE; rewrite Hc1; lia|].
  rewrite Hc1 in Hr2. unfold LRD_SIZE in Hr2. rewrite H36 in Hr2. rewrite H4 in Hr1.
  assert (Hdata : exists w3, (if 0 <? zlen rd.2 then read_bytes (lr_pos r + LRD_SIZE) (zlen rd.2) else sret []) w2 = (Ok rd.2, w3) /\
    st_wf w3 /\ contents w3 = contents w).
  { destruct (0 <? zlen rd.2) eqn:E.
    - destruct (read_bytes_run (lr_pos r + LRD_SIZE) (zlen rd.2) w2) as (w3 & Hr3 & Hw3 & Hc3);
        [done|unfold LRD_SIZE; lia|lia|unfold LRD_SIZE; rewrite Hc2, Hc1; lia|].
      exists w3. rewrite Hr3, Hc2, Hc1. unfold LRD_SIZE. rewrite Hd. split_and!; [done|done|congruence].
    - exists w2. split_and!; [|done|congruence]. assert (rd.2 = []) as ->; [|done].
      destruct rd.2; [done|]. rewrite zlen_cons in E. pose proof (zlen_nonneg l). lia. }
  destruct Hdata as (w3 & Hr3 & Hw3 & Hc3). exists w3. split_and!; [|done|done]. unfold next_forward.
  unfold sbind, slift at 1. rewrite add_u64_ok by (unfold lr_limit in Hlim; lia). fold (lr_limit r).
  destruct (lr_limit r <=? lr_pos r) eqn:E; [lia|]. rewrite Hr1, Hne. unfold LRD_SIZE. rewrite Hr2.
  rewrite Hflat. change (36 <? 36) with false. cbn iota. rewrite parse_lrd_flat by done. unfold slift at 1.
  rewrite add_u64_ok by lia. rewrite Hlrd. fold LRD_SIZE. rewrite Hr3. unfold slift. rewrite <- Hlrd, Htot, add_u64_ok by lia.
  by destruct rd.
Qed.

Lemma next_forward_end r (w : W) :
  st_wf w -> 0 <= lr_pos r -> lr_limit r < 2 ^ 64 ->
  lr_limit r <= lr_pos r \/ (lr_pos r + 4 <= zlen (contents w) /\ zslice (contents w) (lr_pos r) (lr_pos r + 4) = zeros 4) ->
  exists w', next_forward (r, w) = (Ok None, (r, w')) /\ st_wf w' /\ contents w' = contents w.
Proof.
  intros Hw Hp Hlim He. unfold next_forward, sbind, slift at 1. rewrite add_u64_ok by (unfold lr_limit in Hlim; lia).
  fold (lr_limit r). destruct (lr_limit r <=? lr_pos r) eqn:E; [by exists w|]. destruct He as [He|[Hr Hz]]; [lia|].
  destruct (read_bytes_eof_ok_run (lr_pos r) 4 w) as (w1 & -> & Hw1 & Hc1); [done|lia|lia|lia|]. rewrite Hz. by exists w1.
Qed.

(** The scan of consecutive records up to the end of the log. *)
Lemma collect_records records acc fuel start log_end r (w : W) :
  Forall log_record records -> st_wf w -> (length records < fuel)%nat -> start <= lr_pos r -> 0 <= start ->
  lr_limit r < 2 ^ 64 -> let total := zlen (concat (record_bytes <$> records)) in
  lr_pos r + total <= lr_limit r -> lr_pos r + total <= zlen (contents w) -> lr_pos r + total - start <= log_end ->
  zslice (contents w) (lr_pos r) (lr_pos r + total) = concat (record_bytes <$> records) ->
  lr_limit r <= lr_pos r + total \/
    (lr_pos r + total + 4 <= zlen (contents w) /\ zslice (contents w) (lr_pos r + total) (lr_pos r + total + 4) = zeros 4) ->
  exists w', collect fuel start log_end acc (r, w) = (Ok (acc ++ records), (lr_at (lr_pos r + total) r, w')) /\
    st_wf w' /\ contents w' = contents w.
Proof.
  intros Hrec. revert acc fuel r w. induction Hrec as [|rd records Hrd Hrecs IH]; intros acc fuel r w Hw Hf Hp Hs Hlim total Hl1 Hl2 Hl3 Hz He.
  - subst total. cbn in *. change (zlen (@nil byte)) with 0 in *. rewrite Z.add_0_r in *. destruct fuel as [|fuel]; [lia|].
    destruct (next_forward_end r w Hw ltac:(lia) Hlim He) as (w1 & Hrun & Hw1 & Hc1). exists w1. cbn [collect].
    rewrite (sbind_ok _ _ _ _ _ Hrun), app_nil_r. split_and!; [|done|done]. by destruct r.
  - subst total. cbn [fmap list_fmap concat] in *. change (record_bytes <$> records) with (map record_bytes records) in *.
    rewrite zlen_app in *. set (n := zlen (record_bytes rd)) in *.
    pose proof (zlen_record_bytes rd Hrd). pose proof (zlen_nonneg rd.2). pose proof (zlen_nonneg (concat (map record_bytes records))).
    destruct fuel as [|fuel]; [cbn [length] in Hf; lia|]. cbn [length] in Hf.
    assert (Hz1 : zslice (contents w) (lr_pos r) (lr_pos r + n) = record_bytes rd).
    { transitivity (zslice (record_bytes rd ++ concat (map record_bytes records)) 0 n).
      - rewrite <- Hz, zslice_zslice by lia. f_equal; lia.
      - rewrite zslice_app_l by lia. by apply zslice_whole. }
    destruct (next_forward_record rd r w) as (w1 & Hrun & Hw1 & Hc1); [done|done|lia|done|lia|done|]. fold n in Hrun.
    cbn [collect]. rewrite (sbind_ok _ _ _ _ _ Hrun). destruct rd as [lrd data]. cbn [fst snd lr_pos lr_at].
    destruct (log_end <? lr_pos r + n - start) eqn:E; [lia|].
    destruct (IH (acc ++ [(lrd, data)]) fuel (lr_at (lr_pos r + n) r) w1) as (w2 & Hrun2 & Hw2 & Hc2);
      [done|lia|cbn; lia|lia|done|cbn [lr_pos lr_at]; unfold lr_limit in *; cbn; lia|cbn [lr_pos lr_at]; rewrite Hc1; lia|cbn [lr_pos lr_at]; lia| | |].
    + cbn [lr_pos lr_at]. rewrite Hc1. transitivity (zslice (record_bytes (lrd, data) ++ concat (map record_bytes records)) n (n + zlen (concat (map record_bytes records)))).
      * rewrite <- Hz, zslice_zslice by lia. f_equal; lia.
      * rewrite zslice_app_r by lia. apply zslice_whole; lia.
    + cbn [lr_pos lr_at]. rewrite Hc1. rewrite <- !(Z.add_assoc (lr_pos r)). rewrite <- !(Z.add_assoc (lr_pos r)) in He.
      unfold lr_limit in *. cbn [lr_log_data_start lr_log_size lr_at].
      destruct He as [He|[He1 He2]]; [left; lia|right]. split; [lia|]. rewrite <- He2. f_equal; lia.
    + exists w2. rewrite Hrun2, <- app_assoc. cbn [lr_pos lr_at]. split_and!; [|done|congruence].
      cbn [app]. unfold lr_at. cbn. by rewrite Z.add_assoc.
Qed.
End scan_facts.

(** ** Invariants of the devices *)

Section invariants.
Context {LE : LittleEndian} {IOK : IoKind} {W : Type} (P : W -> Prop).

Lemma read_bytes_eof_ok_keeps {S : Storage W} off len :
  keeps P (read_bytes off len) -> keeps P (read_bytes_eof_ok off len).
Proof.
  intros Hr w Hw. specialize (Hr w Hw). unfold read_bytes_eof_ok.
  destruct (read_bytes off len w) as [[d|e|] w']; [done| |done]. destruct e; try done. by destruct (io_is_eof _).
Qed.

Lemma next_forward_keeps {S : Storage W} (r : LogReader) (w : W) :
  (forall off len, keeps P (read_bytes off len)) -> P w -> P (next_forward (r, w)).2.2.
Proof.
  intros Hr Hw. unfold next_forward. set (run := sbind _ _).
  assert (Hk : keeps P run).
  { subst run. pose proof (fun off len => read_bytes_eof_ok_keeps off len (Hr off len)) as He. keeps; try apply He; try apply Hr. }
  specialize (Hk w Hw). destruct (run w) as [[[[[lrd data] pos]|]|e|] w']; done.
Qed.

Lemma collect_keeps {S : Storage W} fuel start log_end acc (r : LogReader) (w : W) :
  (forall off len, keeps P (read_bytes off len)) -> P w -> P (collect fuel start log_end acc (r, w)).2.2.
Proof.
  intros Hr. revert acc r w. induction fuel as [|fuel IH]; intros acc r w Hw; cbn [collect]; [done|].
  pose proof (next_forward_keeps r w Hr Hw) as Hn. unfold sbind. destruct (next_forward (r, w)) as [[[[lrd data]|]|e|] [r1 w1]];
    cbn [fst snd] in *; try done. destruct (_ <? _); [done|]. by apply IH.
Qed.

Lemma on_fs_keeps {A} (m : ST W StorageError A) : keeps P m -> keeps (fun s => P s.2) (on_fs (W := W) m).
Proof. intros Hm [j w] Hw. unfold on_fs. cbn [snd] in *. specialize (Hm w Hw). by destruct (m w). Qed.

Lemma set_jr_keeps f : keeps (fun s : JournalRecovery * W => P s.2) (set_jr f).
Proof. by intros [j w]. Qed.

Lemma process_record_keeps {S : Storage W} lrd data :
  (forall b d, keeps P (write_block b d)) -> keeps (fun s : JournalRecovery * W => P s.2) (process_record lrd data).
Proof.
  intros Hw. assert (Hf : forall b d, keeps (fun s : JournalRecovery * W => P s.2) (on_fs (write_block b d)))
    by (intros; apply on_fs_keeps; auto).
  assert (Hm : forall v, keeps (fun s : JournalRecovery * W => P s.2) (mark_bmap lrd v)).
  { intros v. unfold mark_bmap. apply keeps_bind; [apply set_jr_keeps|intros _]. apply keeps_state. intros s.
    destruct (_ !! _); keeps; apply set_jr_keeps. }
  unfold process_record. apply keeps_state. intros s. keeps; try apply set_jr_keeps.
  - unfold do_after. apply keeps_bind; [apply set_jr_keeps|intros _]. apply keeps_state. intros s'. keeps.
    unfold update_page. apply keeps_state. intros s''. keeps; try apply Hf; apply set_jr_keeps.
  - unfold do_update_map. keeps; apply Hm.
Qed.

Lemma replay_records_keeps {S : Storage W} records start pos last :
  (forall b d, keeps P (write_block b d)) -> keeps (fun s : JournalRecovery * W => P s.2) (replay_records records start pos last).
Proof.
  intros Hw. revert last. induction records as [|[lrd data] records IH]; intros last; cbn [replay_records]; keeps.
  - by apply process_record_keeps.
  - apply IH.
Qed.
End invariants.

(** ** The whole replay *)

(** A log in state [LOGREDONE] is never replayed: neither device changes. *)
Theorem replay_skips_redone `{LE : LittleEndian} `{IOK : IoKind} {W} (LG FS : Storage W) start (s : JournalRecovery * W)
  (Hs : ls_get_state (jr_logsuper s.1) = LOGREDONE) : replay LG FS start s = (Ok tt, s).
Proof. unfold replay. by rewrite Hs. Qed.

Section log_facts.
Context {LE : LittleEndian} {LES : LittleEndianSpec} {IOK : IoKind} {W : Type} {LG : Storage W} {PL : @StorageSpec W LG} {RL : @StorageReliable W LG PL}.

Abbreviation logc := (@contents W LG PL).

(** The log area at [start] begins with [records], a zero word follows them, and
    the end in the superblock lies behind them. *)
Definition log_holds (super : LogSuper) (start : Z) (records : list (Lrd * list byte)) (w : W) : Prop :=
  let stream := concat (record_bytes <$> records) in
  Forall log_record records /\ wf_logsuper super /\ zlen stream <= ls_get_end super < 2 ^ 64 - start /\
  zslice (logc w) start (start + zlen stream) = stream /\
  zlen stream < ls_page_size super * LOGPSIZE /\ start + ls_page_size super * LOGPSIZE <= zlen (logc w) /\
  zslice (logc w) (start + zlen stream) (start + zlen stream + 4) = zeros 4.

Lemma zlen_concat_records records :
  Forall log_record records -> 36 * zlen records <= zlen (concat (record_bytes <$> records)).
Proof.
  induction 1 as [|r records Hr Hrs IH]; [done|]. cbn [fmap list_fmap concat]. rewrite zlen_cons, zlen_app, zlen_record_bytes by done.
  pose proof (zlen_nonneg r.2). change (list_fmap _ _ record_bytes records) with (record_bytes <$> records). lia.
Qed.

(** The superblock that [replay] leaves. *)
Definition redone (super : LogSuper) : LogSuper := ls_set_state super LOGREDONE.

Lemma final_super_head super :
  wf_logsuper super ->
  splice (E := StorageError) (zeros 128) 0 (final_super super) = Ok (zsplice (zeros 128) 0 (final_super super)) /\
  zlen (final_super super) = 36 /\ zslice (final_super super) 28 32 = ls_state super.
Proof.
  intros (H1 & H2 & H3 & H4 & H5 & H6 & H7 & H8 & H9 & _). apply zlen_of_length in H1, H2, H3, H4, H5, H6, H7, H8, H9.
  assert (Hl : zlen (final_super super) = 36) by (unfold final_super; zl).
  assert (Hz : zlen (zeros 128) = 128) by done. split_and!; [apply splice_ok; lia|done|].
  unfold final_super. repeat first [ rewrite zslice_app_r by zl | rewrite zslice_app_l by zl ]; apply zslice_whole; lia.
Qed.

Lemma redone_wf super : wf_logsuper super -> wf_logsuper (redone super).
Proof.
  intros (? & ? & ? & ? & ? & ? & ? & ? & ? & ? & ? & ? & ?). split_and!; try done. by apply length_write_u32.
Qed.

(** Phase 1 on the log: all its records, in order. *)
Lemma collect_log super start records (w : W) :
  log_holds super start records w -> @st_wf _ _ PL w -> 0 <= start ->
  exists reader r' w', lr_new super start = Ok reader /\
    collect (LG := LG) (S (log_fuel reader)) start (ls_get_end super) [] (lr_at start reader, w) = (Ok records, (r', w')) /\
    @st_wf _ _ PL w' /\ logc w' = logc w.
Proof.
  intros (Hrec & Hsup & Hend & Hz & Hlt & Hdev & Hzero) HwL Hs. pose proof (st_bound w HwL) as Hbound.
  set (total := zlen (concat (record_bytes <$> records))) in *. pose proof (zlen_nonneg (concat (record_bytes <$> records))) as Hnn. fold total in Hnn.
  pose proof (zlen_concat_records records Hrec) as Hcount. fold total in Hcount.
  set (reader := mkReader (ls_get_end super) 0 start (ls_page_size super) false (if 0 <? ls_get_end super then start + ls_get_end super else start)).
  assert (Hnew : lr_new super start = Ok reader).
  { unfold lr_new. subst reader. destruct (0 <? ls_get_end super) eqn:E; [rewrite add_u64_ok by (unfold LOGPSIZE in *; lia)|]; done. }
  assert (Hfuel : (length records < S (log_fuel reader))%nat).
  { unfold log_fuel. cbn [lr_log_size reader]. unfold LRD_SIZE, zlen in *.
    assert (Z.of_nat (length records) <= ls_page_size super * LOGPSIZE / 36) by (apply Z.div_le_lower_bound; lia). lia. }
  destruct (collect_records (LG := LG) (SS := PL) (SR := RL) records [] (S (log_fuel reader)) start (ls_get_end super) (lr_at start reader) w) as (w' & Hrun & HwL' & Hc);
    try done; cbn [lr_pos lr_at]; unfold lr_limit; cbn [lr_log_data_start lr_log_size lr_at reader]; fold total; try lia.
  { right. split; [|done]. enough (start + total + 4 <= zlen (logc w)) by done.
    pose proof (f_equal zlen Hzero) as Hz4. change (zlen (zeros 4)) with 4 in Hz4.
    destruct (decide (start + total + 4 <= zlen (logc w))); [done|]. unfold zslice, zlen in Hz4.
    rewrite length_take, length_drop in Hz4. unfold zlen in *. lia. }
  by exists reader, (lr_at (start + total) (lr_at start reader)), w'.
Qed.

Lemma holds_end super start records (w : W) : log_holds super start records w -> records <> [] -> 0 < ls_get_end super.
Proof.
  intros (Hrec & _ & Hend & _) Hne. pose proof (zlen_concat_records records Hrec). destruct records as [|r records]; [done|]. rewrite zlen_cons in *.
  pose proof (zlen_nonneg records). lia.
Qed.

(** The 128 bytes that [replay] writes over the superblock. *)
Definition super_tail (super : LogSuper) : list byte := zsplice (zeros 128) 0 (final_super (redone super)).

Lemma zlen_super_tail super : wf_logsuper super -> zlen (super_tail super) = 128.
Proof.
  intros Hs. destruct (final_super_head (redone super) (redone_wf super Hs)) as (_ & Hl & _). unfold super_tail. rewrite zlen_zsplice; [done|lia|rewrite Hl; done].
Qed.

(** The phases of [replay], one after the other. *)
Lemma replay_phases {FS : Storage W} super start reader records r' (w w1 : W) j2 w2 w3 :
  wf_logsuper super -> ls_get_state super <> LOGREDONE -> 0 < ls_get_end super -> BLOCK_SIZE <= start ->
  lr_new super start = Ok reader ->
  collect (LG := LG) (S (log_fuel reader)) start (ls_get_end super) [] (lr_at start reader, w) = (Ok records, (r', w1)) ->
  replay_records (FS := FS) (rev records) start (lr_pos r') 0 (jr_new super, w1) = (Ok tt, (j2, w2)) -> jr_logsuper j2 = super ->
  write_bytes (Storage := LG) (start - BLOCK_SIZE) (super_tail super) w2 = (Ok tt, w3) ->
  exists j', replay LG FS start (jr_new super, w) = (Ok tt, (j', w3)) /\ jr_logsuper j' = redone super.
Proof.
  intros Hsup Hstate Hpos Hstart Hnew Hcol Hrun2 Hsup2 Hrun3. destruct (final_super_head (redone super) (redone_wf super Hsup)) as (Hsp & _).
  exists (mkRecovery (redone super) (jr_commits j2) (jr_pages j2) (jr_no_redo_files j2) (jr_volumes j2) (jr_buf_pool j2)). split; [|done]. unfold replay. cbn [fst jr_logsuper jr_new]. destruct (Z.eqb_spec (ls_get_state super) LOGREDONE); [done|].
  destruct (0 <? ls_get_end super) eqn:E; [|lia].
  unfold sbind at 1. unfold sret at 1. unfold sbind at 1. unfold slift at 1. rewrite Hnew.
  unfold sbind at 1. unfold on_fs at 1. cbn [snd fst]. rewrite Hcol. cbn [obind].
  rewrite (sbind_ok _ _ _ _ _ Hrun2). unfold sbind at 1, set_jr, smod. cbn [fst snd jr_logsuper]. rewrite Hsup2.
  fold (redone super). unfold sbind, slift. rewrite Hsp. unfold on_fs. cbn [fst snd]. unfold saturating_sub.
  rewrite Z.max_r by lia. fold (super_tail super). rewrite Hrun3. done.
Qed.
End log_facts.

Section replay_facts.
Context {LE : LittleEndian} {LES : LittleEndianSpec} {IOK : IoKind} {W : Type} {LG FS : Storage W}.
Context {PL : @StorageSpec W LG} {PF : @StorageSpec W FS} {RL : @StorageReliable W LG PL} {RF : @StorageReliable W FS PF}.
Context {SepL : SeparateDevices W LG FS PL PF} {SepF : SeparateDevices W FS LG PF PL}.

Abbreviation logc := (@contents W LG PL).
Abbreviation fsc := (@contents W FS PF).

(** Replay, run to its end. *)
Lemma replay_run super start records (w : W) :
  log_holds (LG := LG) (PL := PL) super start records w -> @st_wf _ _ PL w -> @st_wf _ _ PF w -> ls_get_state super <> LOGREDONE -> records <> [] -> BLOCK_SIZE <= start ->
  Forall (image_record (zlen (fsc w))) records ->
  exists j' w', replay LG FS start (jr_new super, w) = (Ok tt, (j', w')) /\
    jr_logsuper j' = redone super /\
    fsc w' = apply_writes (committed_redo ∅ (rev records)) (fsc w) /\
    logc w' = zsplice (logc w) (start - BLOCK_SIZE) (zsplice (zeros 128) 0 (final_super (redone super))) /\
    zslice (logc w') (start - BLOCK_SIZE + 28) (start - BLOCK_SIZE + 32) = write_u32 LOGREDONE.
Proof.
  intros Hholds HwL HwF Hstate Hne Hstart Himg. pose proof (holds_end (LG := LG) (PL := PL) _ _ _ _ Hholds Hne) as Hpos.
  destruct (collect_log (LG := LG) (PL := PL) super start records w Hholds HwL) as (reader & r' & w1 & Hnew & Hcol & HwL1 & HcL1); [unfold BLOCK_SIZE, PSIZE in *; lia|].
  destruct (collect_keeps (fun w0 => @st_wf _ _ PF w0 /\ fsc w0 = fsc w) (S := LG) (S (log_fuel reader)) start (ls_get_end super) [] (lr_at start reader) w) as [HwF1 HcF1]; [|done|].
  { intros off len w0 [H1 H2]. destruct (sep_read_bytes (SeparateDevices := SepF) off len w0) as [H3 H4]. split; [auto|congruence]. }
  rewrite Hcol in HwF1, HcF1. cbn [snd] in *. destruct Hholds as (_ & Hsup & _ & _ & Hlt & Hdev & _). pose proof (zlen_nonneg (concat (record_bytes <$> records))) as Hnn.
  assert (Himg' : Forall (image_record (zlen (fsc w1))) (rev records)) by (rewrite HcF1; by apply Forall_rev).
  destruct (replay_images (rev records) start (lr_pos r') ∅ (jr_new super) w1 Himg' (jr_new_ready super) HwF1)
    as (j2 & w2 & Hrun2 & HwF2 & Hsup2 & Hlen2 & HcF2). cbn [jr_new jr_logsuper] in Hsup2.
  pose proof (replay_records_keeps (fun w0 => @st_wf _ _ PL w0 /\ logc w0 = logc w) (S := FS) (rev records) start (lr_pos r') 0) as Hkeep.
  destruct (Hkeep ltac:(intros b d w0 [H1 H2]; destruct (sep_write_block (SeparateDevices := SepL) b d w0) as [H3 H4]; split; [auto|congruence])
    (jr_new super, w1) (conj HwL1 HcL1)) as [HwL2 HcL2]. rewrite Hrun2 in HwL2, HcL2. cbn [snd] in HwL2, HcL2.
  pose proof (zlen_super_tail super Hsup) as Hl128.
  destruct (write_bytes_run (SW := LG) (start - BLOCK_SIZE) (super_tail super) w2) as (w3 & Hrun3 & _ & HcL3);
    [done|lia|rewrite HcL2, Hl128; unfold LOGPSIZE, BLOCK_SIZE, PSIZE in *; lia|].
  destruct (sep_write_bytes (SeparateDevices := SepF) (start - BLOCK_SIZE) (super_tail super) w2) as [HcF3 _]. rewrite Hrun3 in HcF3. cbn [snd] in HcF3.
  destruct (replay_phases (LG := LG) (FS := FS) super start reader records r' w w1 j2 w2 w3) as (j' & Hrun & Hj); try done.
  exists j', w3. split_and!; try done; [congruence|by rewrite HcL3, HcL2|].
  destruct (final_super_head (redone super) (redone_wf super Hsup)) as (_ & Hl36 & Hst). unfold BLOCK_SIZE, PSIZE in *.
  rewrite HcL3, HcL2. transitivity (zslice (super_tail super) 28 32).
  - rewrite <- (zslice_zsplice_same (logc w) (super_tail super) (start - 4096) (start - 4096 + 128)) at 2 by (unfold LOGPSIZE in *; lia). rewrite zslice_zslice by lia. done.
  - change (write_u32 LOGREDONE) with (ls_state (redone super)). rewrite <- Hst. unfold super_tail. rewrite <- (zslice_zsplice_same (zeros 128) (final_super (redone super)) 0 36) at 2 by (rewrite ?Hl36; done).
    rewrite zslice_zslice by lia. done.
Qed.

(** C2: replay of a whole log: when the log device begins with the records of
    [records] and a zero word follows them, and the log and the file system are
    distinct devices that do not fail, [replay] succeeds; the file system then has
    the images of the committed transactions, written from the last record of the
    log to the first, and the log device differs only in the 128 bytes written
    over its superblock, whose state field is [LOGREDONE]. *)
Theorem replay_correct super start records (w : W)
  (Hholds : log_holds (LG := LG) (PL := PL) super start records w) (HwL : @st_wf _ _ PL w) (HwF : @st_wf _ _ PF w)
  (Hstate : ls_get_state super <> LOGREDONE) (Hne : records <> []) (Hstart : BLOCK_SIZE <= start)
  (Himg : Forall (image_record (zlen (fsc w))) records) :
  exists j' w', replay LG FS start (jr_new super, w) = (Ok tt, (j', w')) /\
    jr_logsuper j' = redone super /\
    fsc w' = apply_writes (committed_redo ∅ (rev records)) (fsc w) /\
    logc w' = zsplice (logc w) (start - BLOCK_SIZE) (zsplice (zeros 128) 0 (final_super (redone super))) /\
    zslice (logc w') (start - BLOCK_SIZE + 28) (start - BLOCK_SIZE + 32) = write_u32 LOGREDONE.
Proof. by apply replay_run. Qed.
End replay_facts.

(** ** One device *)

Section inline_facts.
Context {LE : LittleEndian} {LES : LittleEndianSpec} {IOK : IoKind} {W : Type} {DV : Storage W} {SP : StorageSpec W} {RD : StorageReliable W}.

(** Replay of a log that lies on the device of the file system. *)
Lemma replay_inline super start records (w : W) :
  log_holds (LG := DV) (PL := SP) super start records w -> st_wf w -> ls_get_state super <> LOGREDONE -> records <> [] -> BLOCK_SIZE <= start ->
  Forall (image_record (zlen (contents w))) records ->
  exists j' w', replay DV DV start (jr_new super, w) = (Ok tt, (j', w')) /\ jr_logsuper j' = redone super /\ st_wf w' /\
    contents w' = zsplice (apply_writes (committed_redo ∅ (rev records)) (contents w)) (start - BLOCK_SIZE) (super_tail super) /\
    zlen (contents w') = zlen (contents w).
Proof.
  intros Hholds Hw Hstate Hne Hstart Himg. pose proof (holds_end _ _ _ _ Hholds Hne) as Hpos.
  destruct (collect_log super start records w Hholds Hw) as (reader & r' & w1 & Hnew & Hcol & Hw1 & Hc1); [unfold BLOCK_SIZE, PSIZE in *; lia|].
  destruct Hholds as (_ & Hsup & _ & _ & Hlt & Hdev & _). pose proof (zlen_nonneg (concat (record_bytes <$> records))) as Hnn.
  assert (Himg' : Forall (image_record (zlen (contents w1))) (rev records)) by (rewrite Hc1; by apply Forall_rev).
  destruct (replay_images (rev records) start (lr_pos r') ∅ (jr_new super) w1 Himg' (jr_new_ready super) Hw1)
    as (j2 & w2 & Hrun2 & Hw2 & Hsup2 & Hlen2 & Hc2). cbn [jr_new jr_logsuper] in Hsup2. rewrite Hc1 in Hc2, Hlen2.
  pose proof (zlen_super_tail super Hsup) as Hl128. assert (Hroom : start - BLOCK_SIZE + 128 <= zlen (contents w2)) by (rewrite Hlen2; unfold LOGPSIZE, BLOCK_SIZE, PSIZE in *; lia).
  destruct (write_bytes_run (start - BLOCK_SIZE) (super_tail super) w2) as (w3 & Hrun3 & Hw3 & Hc3); [done|lia|lia|].
  destruct (replay_phases (FS := DV) super start reader records r' w w1 j2 w2 w3) as (j' & Hrun & Hj); try done.
  exists j', w3. split_and!; try done; [by rewrite Hc3, Hc2|rewrite Hc3, zlen_zsplice; lia].
Qed.
End inline_facts.

(** ** Records of the log manager *)

Section manager_records.
Context {LE : LittleEndian} {LES : LittleEndianSpec}.

Lemma redopage_fields txid prev block len :
  0 <= txid < 2 ^ 32 -> 0 <= block < 2 ^ 40 ->
  let r := redopage_lrd txid prev block len in
  lrd_logtid r = txid /\ lrd_is_commit r = false /\ lrd_is_mount r = false /\ lrd_is_syncpt r = false /\
  lrd_is_redopage r = true /\ lrd_redopage_type r = LOG_INODE /\ pxd_address (lrd_redopage_pxd r) = block.
Proof.
  intros Ht Hb. destruct (pxd_set_address_word pxd_default block wf_pxd_default) as (_ & _ & Hw).
  assert (Hty : lrd_type (redopage_lrd txid prev block len) = LOG_REDOPAGE) by (apply read_write_u16; done).
  unfold lrd_is_commit, lrd_is_mount, lrd_is_syncpt, lrd_is_redopage, lrd_has. rewrite Hty. split_and!; try done.
  - unfold lrd_logtid. cbn [redopage_lrd lrd_f_logtid]. rewrite as_u32_small by done. by apply read_write_u32.
  - by apply read_write_u16.
  - unfold lrd_redopage_pxd. cbn [redopage_lrd lrd_f_pxd]. rewrite pxd_address_set_length by done.
    rewrite pxd_address_set_address by done. by apply Z.mod_small.
Qed.

Lemma commit_fields txid prev :
  0 <= txid < 2 ^ 32 -> lrd_logtid (commit_lrd txid prev) = txid /\ lrd_is_commit (commit_lrd txid prev) = true /\
  lrd_is_mount (commit_lrd txid prev) = false /\ lrd_is_syncpt (commit_lrd txid prev) = false.
Proof.
  intros Ht. assert (Hty : lrd_type (commit_lrd txid prev) = LOG_COMMIT) by (apply read_write_u16; done).
  unfold lrd_is_commit, lrd_is_mount, lrd_is_syncpt, lrd_has. rewrite Hty. split_and!; try done.
  unfold lrd_logtid. cbn [commit_lrd lrd_f_logtid]. rewrite as_u32_small by done. by apply read_write_u32.
Qed.

Lemma redopage_image n txid prev block data :
  0 <= txid < 2 ^ 32 -> 0 <= block < 2 ^ 40 -> zlen data = BLOCK_SIZE -> block * BLOCK_SIZE + BLOCK_SIZE <= n ->
  image_record n (redopage_lrd txid prev block (zlen data), data).
Proof.
  intros Ht Hb Hd Hn. destruct (redopage_fields txid prev block (zlen data) Ht Hb) as (_ & H2 & H3 & H4 & H5 & H6 & H7).
  split_and!; [apply wf_redopage_lrd|done|done|]. intros _. cbn [fst snd] in *. by rewrite H7.
Qed.

Lemma commit_image n txid prev : 0 <= txid < 2 ^ 32 -> image_record n (commit_lrd txid prev, []).
Proof.
  intros Ht. destruct (commit_fields txid prev Ht) as (_ & H2 & H3 & H4). split_and!; [apply wf_commit_lrd|done|done|].
  cbn [fst]. by rewrite H2.
Qed.

Context {W : Type} {FS : Storage W} {SS : StorageSpec W} {SR : StorageReliable W}.

(** Records are applied from the last to the first without remembering
    which blocks were already restored, so an older image overwrites a newer
    one: two committed transactions that both logged block [b] leave the image
    of the first. *)
Theorem replay_restores_older_image b old new start pos super (w : W)
  (Hw : st_wf w) (Hb : 0 <= b < 2 ^ 40) (Ho : zlen old = BLOCK_SIZE) (Hn : zlen new = BLOCK_SIZE)
  (Hr : b * BLOCK_SIZE + BLOCK_SIZE <= zlen (contents w)) :
  let records := [(redopage_lrd 1 0 b (zlen old), old); (commit_lrd 1 0, []);
                  (redopage_lrd 2 0 b (zlen new), new); (commit_lrd 2 0, [])] in
  exists j' w', replay_records (rev records) start pos 0 (jr_new super, w) = (Ok tt, (j', w')) /\
    block_at (contents w') b = old.
Proof.
  intros records. assert (Hr' : Forall (image_record (zlen (contents w))) (rev records)).
  { cbn [rev app records]. apply Forall_cons; split; [by apply commit_image|].
    apply Forall_cons; split; [by apply redopage_image|]. apply Forall_cons; split; [by apply commit_image|].
    apply Forall_singleton. by apply redopage_image. }
  destruct (replay_images (rev records) start pos ∅ (jr_new super) w Hr' (jr_new_ready super) Hw) as (j' & w' & Hrun & _ & _ & _ & Hc).
  exists j', w'. split; [done|].
  destruct (redopage_fields 1 0 b (zlen old) ltac:(done) Hb) as (A1 & A2 & _ & _ & A5 & _ & A7).
  destruct (redopage_fields 2 0 b (zlen new) ltac:(done) Hb) as (B1 & B2 & _ & _ & B5 & _ & B7).
  destruct (commit_fields 1 0 ltac:(done)) as (C1 & C2 & _). destruct (commit_fields 2 0 ltac:(done)) as (D1 & D2 & _).
  assert (Hws : committed_redo ∅ (rev records) = [(b, new); (b, old)]).
  { cbn [rev app records committed_redo]. rewrite D2, B2, B5, C2, A2, A5, D1, B1, C1, A1, A7, B7.
    rewrite !bool_decide_eq_true_2 by set_solver. done. }
  rewrite Hc, Hws. cbn [apply_writes fold_left fst snd].
  assert (Hl : zlen (zsplice (contents w) (b * BLOCK_SIZE) new) = zlen (contents w)) by (unfold BLOCK_SIZE, PSIZE in *; apply zlen_zsplice; lia).
  rewrite block_at_zsplice by (rewrite ?Hl; lia). by rewrite decide_True.
Qed.
End manager_records.

(** ** Concrete logs *)

(** No error of the operating system is an end of file here. *)
Definition no_eof : IoKind := {| io_is_eof _ := false |}.

Definition fill (n : Z) (b : byte) : list byte := replicate (Z.to_nat n) b.

(** A superblock of a log of eight pages, and a file system of two blocks. *)
Definition wsuper (end_ : Z) : LogSuper :=
  mkLogSuper (le_bytes 4 LOGMAGIC) (le_bytes 4 LOGVERSION) (zeros 4) (le_bytes 4 8) (zeros 4) (zeros 4) (zeros 4) (zeros 4)
    (le_bytes 4 end_) (zeros 16) (zeros 16) (replicate MAX_ACTIVE (zeros 16)).
Definition wdisk : MemoryStorage := mkMem (fill 8192 Byte.x00) 8192.
Definition wlogdev : MemoryStorage := mkMem (fill 40960 Byte.x00) 40960.

(** Log the blocks and commit them, crash before they are written to the file
    system, and replay the log: the file system after the replay. *)
Definition crash_and_replay (blocks : list (Z * list byte)) : option (list byte) :=
  match (let* _ := log_blocks (LE := le_codec) 1 blocks in commit_transaction (LE := le_codec) 1)
          (lm_new (LE := le_codec) (wsuper 0) 0, wlogdev) with
  | (Ok _, (l, dev)) =>
      match replay (LE := le_codec) (IOK := no_eof) (left_device _) (right_device _) 8192
              (jr_new (lm_logsuper l), (dev, wdisk)) with
      | (Ok _, (_, (_, fs))) => Some (ms_data fs)
      | _ => None
      end
  | _ => None
  end.

(** A transaction of two blocks is committed in the log but never recovered:
    the second record starts a new segment, the reader takes the padding
    before it for the end of the log and finds no commit record, so the file
    system is left as it was. A transaction of one block is recovered. *)
Theorem two_block_transaction_lost :
  crash_and_replay [(0, fill 4096 Byte.x07)] = Some (fill 4096 Byte.x07 ++ fill 4096 Byte.x00) /\
  crash_and_replay [(0, fill 4096 Byte.x07); (1, fill 4096 Byte.x08)] = Some (ms_data wdisk).
Proof. split; vm_compute; reflexivity. Qed.

(** ** Witnesses *)

(** Block 1 logged by transaction 1, which committed, and block 0 by
    transaction 2, which did not. *)
Definition wrecords : list (Lrd * list byte) :=
  [(redopage_lrd (LE := le_codec) 1 0 1 4096, fill 4096 Byte.x07); (commit_lrd (LE := le_codec) 1 0, []);
   (redopage_lrd (LE := le_codec) 2 0 0 4096, fill 4096 Byte.x08)].

Lemma wdisk_wf : st_wf wdisk.
Proof. split; [apply zlen_replicate|done]. Qed.

Lemma wredo : committed_redo (LE := le_codec) ∅ (rev wrecords) = [(1, fill 4096 Byte.x07)].
Proof. vm_compute. reflexivity. Qed.

Lemma wrecords_images : Forall (image_record (LE := le_codec) 8192) wrecords.
Proof.
  pose proof le_codec_spec. unfold wrecords. change 4096 with (zlen (fill 4096 Byte.x07)) at 1.
  change 4096 with (zlen (fill 4096 Byte.x08)) at 3.
  apply Forall_cons; split; [by apply (redopage_image (LE := le_codec))|].
  apply Forall_cons; split; [by apply (commit_image (LE := le_codec))|].
  apply Forall_singleton. by apply (redopage_image (LE := le_codec)).
Qed.

Lemma uncommitted_never_applied_witness :
  contents (replay_records (LE := le_codec) (rev wrecords) 8192 0 0 (jr_new logsuper_default, wdisk)).2.2 !!! 5%nat = Byte.x00.
Proof.
  pose proof le_codec_spec.
  destruct (uncommitted_never_applied (LE := le_codec) wrecords 8192 0 0 (jr_new logsuper_default) wdisk) with (i := 5) as (_ & _ & H5).
  - eapply Forall_impl; [apply wrecords_images|]. intros x Hx. apply Hx.
  - apply wdisk_wf.
  - done.
  - lia.
  - rewrite wredo. apply Forall_singleton. unfold BLOCK_SIZE, PSIZE. cbn [fst]. lia.
  - exact H5.
Defined.

Lemma replay_restores_committed_witness :
  exists j' w', replay_records (LE := le_codec) (rev wrecords) 8192 0 0 (jr_new logsuper_default, wdisk) = (Ok tt, (j', w')) /\
    block_at (contents w') 1 = fill 4096 Byte.x07.
Proof.
  pose proof le_codec_spec.
  destruct (replay_restores_committed (LE := le_codec) wrecords 8192 0 logsuper_default wdisk 1 (fill 4096 Byte.x07))
    as (j' & w' & H1 & _ & H2).
  - replace (zlen (contents wdisk)) with 8192 by (symmetry; apply zlen_replicate). apply wrecords_images.
  - apply wdisk_wf.
  - rewrite wredo. by apply list_elem_of_singleton.
  - rewrite wredo. intros d' [= ->]%list_elem_of_singleton. reflexivity.
  - exists j', w'. exact (conj H1 H2).
Defined.

Lemma replay_skips_redone_witness :
  let j := jr_new (ls_set_state (LE := le_codec) logsuper_default LOGREDONE) in
  replay (LE := le_codec) (IOK := no_eof) (left_device _) (right_device _) 8192 (j, (wlogdev, wdisk)) = (Ok tt, (j, (wlogdev, wdisk))).
Proof. intros j. apply (replay_skips_redone (LE := le_codec) (IOK := no_eof)). reflexivity. Defined.

Lemma replay_restores_older_image_witness :
  let records := [(redopage_lrd (LE := le_codec) 1 0 1 (zlen (fill 4096 Byte.x07)), fill 4096 Byte.x07); (commit_lrd (LE := le_codec) 1 0, []);
                  (redopage_lrd (LE := le_codec) 2 0 1 (zlen (fill 4096 Byte.x08)), fill 4096 Byte.x08); (commit_lrd (LE := le_codec) 2 0, [])] in
  exists j' w', replay_records (LE := le_codec) (rev records) 8192 0 0 (jr_new logsuper_default, wdisk) = (Ok tt, (j', w')) /\
    block_at (contents w') 1 = fill 4096 Byte.x07.
Proof.
  pose proof le_codec_spec.
  apply (replay_restores_older_image (LE := le_codec) 1 (fill 4096 Byte.x07) (fill 4096 Byte.x08) 8192 0 logsuper_default wdisk).
  - apply wdisk_wf.
  - lia.
  - apply zlen_replicate.
  - apply zlen_replicate.
  - replace (zlen (contents wdisk)) with 8192 by (symmetry; apply zlen_replicate). done.
Defined.

Definition wlogfull : MemoryStorage :=
  mkMem (fill 8192 Byte.x00 ++ concat (record_bytes <$> wrecords) ++ fill 24468 Byte.x00) 40960.

Lemma wlogfull_holds :
  log_holds (LE := le_codec) (LG := left_device (B := MemoryStorage) _) (PL := left_spec _ _) (wsuper 8300) 8192 wrecords (wlogfull, wdisk).
Proof.
  split_and!; [|by split_and!; try done; apply Forall_replicate| |vm_compute; reflexivity..| |vm_compute; reflexivity].
  - repeat (apply Forall_cons; split); [..|apply Forall_nil; done].
    all: split_and!; [| vm_compute; reflexivity..].
    1, 3: apply (wf_redopage_lrd (LE := le_codec) (LES := le_codec_spec)).
    apply (wf_commit_lrd (LE := le_codec) (LES := le_codec_spec)).
  - vm_compute. discriminate.
  - vm_compute. discriminate.
Qed.

Lemma replay_correct_witness :
  exists j' w', replay (LE := le_codec) (IOK := no_eof) (left_device _) (right_device _) 8192 (jr_new (wsuper 8300), (wlogfull, wdisk))
    = (Ok tt, (j', w')) /\ ms_data w'.2 = apply_writes [(1, fill 4096 Byte.x07)] (ms_data wdisk).
Proof.
  pose proof le_codec_spec.
  destruct (replay_correct (LE := le_codec) (IOK := no_eof) (LG := left_device _) (FS := right_device _)
    (PL := left_spec _ _) (PF := right_spec _ _) (RL := left_reliable _ _ _) (RF := right_reliable _ _ _)
    (SepL := left_right_separate _ _ _ _) (SepF := right_left_separate _ _ _ _) (wsuper 8300) 8192 wrecords (wlogfull, wdisk))
    as (j' & w' & H1 & _ & H2 & _).
  - apply wlogfull_holds.
  - split; [vm_compute|]; reflexivity.
  - apply wdisk_wf.
  - vm_compute. discriminate.
  - discriminate.
  - vm_compute. discriminate.
  - cbn [contents right_spec snd]. replace (zlen (contents wdisk)) with 8192 by (symmetry; apply zlen_replicate). apply wrecords_images.
  - exists j', w'. split; [exact H1|]. rewrite wredo in H2. exact H2.
Defined.
