(* ===== verification/RecoveryPages.v ===== *)
(** * Recovery code outside the replay ([src/src/journal/recovery.rs])

    The operations of [JournalRecovery] that [replay] does not call: the updates
    of the single kinds of page, which only keep the table of trackers, and the
    search for the last synchronisation point. *)

From stdpp Require Import gmap.
From Stdlib Require Import ZArith Lia.
From S2P Require Import Types Storage PageCache LogMgr Recovery Prelude.

(** ** [RecoveryBufferPool] *)

Definition acquire_page (p : BufferPool) : result (option Z) * BufferPool := bp_acquire p.
Definition release_page (idx : Z) (p : BufferPool) : result unit * BufferPool := bp_release idx p.
Definition get_page (idx : Z) (p : BufferPool) : result (list byte) := get (bp_buffers p) idx.

(** ** Trackers *)

Definition tr_insert_xtroot (ino : Z) (t : PageTracker) : PageTracker :=
  mkTracker (tr_pxd t) (tr_page_type t) (tr_aggregate t) (tr_next t) (tr_summary t) (tr_inode_slots t) (tr_dtroot t)
    (<[ino := 0xffff]> (tr_xtroot t)) (tr_dt_page_slots t) (tr_xt_page_high t) (tr_xt_page_low t) (tr_data_page_slots t).
Definition tr_insert_dtroot (ino : Z) (t : PageTracker) : PageTracker :=
  mkTracker (tr_pxd t) (tr_page_type t) (tr_aggregate t) (tr_next t) (tr_summary t) (tr_inode_slots t)
    (<[ino := 0xffff]> (tr_dtroot t)) (tr_xtroot t) (tr_dt_page_slots t) (tr_xt_page_high t) (tr_xt_page_low t) (tr_data_page_slots t).

(** The part of [update_inode_page] on a tracker that exists. *)
Definition tr_inode_updated (t : PageTracker) : PageTracker :=
  let inode_slots := Z.lor (tr_inode_slots t) 0x07 in
  let summary := if inode_slots =? 0x07 then Z.lor (tr_summary t) 0x07 else tr_summary t in
  let summary := if summary =? 0xff then 0xff else summary in
  tr_set_slots inode_slots summary t.

Section pages.
Context {LE : LittleEndian} {IOK : IoKind}.

(** The tracker of the page of a record is updated, or a new one stored: the tracker
    that the program builds with its fields set is not the one it stores. *)
Definition update_tracker (lrd : Lrd) (page_type : Z) (f : PageTracker -> PageTracker) (j : JournalRecovery) : JournalRecovery :=
  let pxd := lrd_redopage_pxd lrd in
  let page_addr := pxd_address pxd in
  jr_with_pages (fun t => match pt_find page_addr t with
                          | Some _ => pt_find_mut page_addr f t
                          | None => pt_find_or_create pxd page_type (lrd_aggregate lrd) t
                          end) j.

(** The data and the device are arguments that it does not use. *)
Definition recovery_update_inode_page (lrd : Lrd) (data : list byte) : JournalRecovery -> JournalRecovery :=
  update_tracker lrd LOG_INODE tr_inode_updated.
Definition update_xtree_root (lrd : Lrd) (ino : Z) (data : list byte) : JournalRecovery -> JournalRecovery :=
  update_tracker lrd (Z.lor LOG_BTROOT LOG_XTREE) (tr_insert_xtroot ino).
Definition update_dtree_root (lrd : Lrd) (ino : Z) (data : list byte) : JournalRecovery -> JournalRecovery :=
  update_tracker lrd (Z.lor LOG_BTROOT LOG_DTREE) (tr_insert_dtroot ino).
Definition update_xtree_node (lrd : Lrd) (data : list byte) (j : JournalRecovery) : JournalRecovery := j.
Definition update_dtree_node (lrd : Lrd) (data : list byte) (j : JournalRecovery) : JournalRecovery := j.

Section device.
Context {W : Type} {LG : Storage W}.

(** The block is read and dropped. *)
Definition update_data_page (lrd : Lrd) (data : list byte) : ST W StorageError unit :=
  let* _ := read_block (pxd_address (lrd_redopage_pxd lrd) / BLOCK_SIZE) in sret tt.

(** ** [find_syncpt] *)

Definition saturating_add_u64 (a b : Z) : Z := Z.min (a + b) (2 ^ 64 - 1).

(** The [while] loop; every round goes back by a descriptor. *)
Fixpoint find_syncpt_from (fuel : nat) (log_data_start log_end pos : Z) : ST W StorageError Z :=
  match fuel with
  | O => spanic
  | S fuel =>
      if pos <=? saturating_add_u64 log_data_start LRD_SIZE then sret 0 else
      let* lrd_bytes := read_bytes_eof_ok (saturating_sub pos LRD_SIZE) LRD_SIZE in
      if zlen lrd_bytes <? 8 then sret 0 else
      let* b := slift (slice lrd_bytes 8 10) in
      if negb (Z.land (read_u16 b) LOG_SYNCPT =? 0) then
        let* b := slift (slice lrd_bytes 16 20) in
        let sync_val := read_u32 b in
        if 0 <? sync_val then
          let* syncpt_addr := slift (add_u64 log_data_start (sync_val * LOGPSIZE)) in
          if syncpt_addr <? log_end then slift (add_u64 log_data_start syncpt_addr) else sret 0
        else sret 0
      else find_syncpt_from fuel log_data_start log_end (saturating_sub pos LRD_SIZE)
  end.

Definition find_syncpt (log_data_start log_end : Z) : ST W StorageError Z :=
  find_syncpt_from (S (Z.to_nat log_end)) log_data_start log_end log_end.
End device.

(** ** What they do *)

(** The kinds of page that are tracked by a B+-tree root never become complete: the
    records that follow are applied again. *)
Lemma root_updates_keep_summary ino t : tr_is_complete (tr_insert_xtroot ino t) = tr_is_complete t /\ tr_is_complete (tr_insert_dtroot ino t) = tr_is_complete t.
Proof. done. Qed.

Context {LES : LittleEndianSpec} {W : Type} {LG : Storage W} {SS : StorageSpec W} {SR : StorageReliable W}.

(** The search ends, on every log. *)
Lemma find_syncpt_from_run log_data_start log_end : 0 <= log_data_start < 2 ^ 62 -> log_end < 2 ^ 62 -> forall fuel pos (w : W),
  st_wf w -> pos <= log_end -> pos <= zlen (contents w) -> (Z.to_nat pos < fuel)%nat ->
  exists r w', find_syncpt_from fuel log_data_start log_end pos w = (Ok r, w') /\ contents w' = contents w /\
    (r = 0 \/ exists n, 0 < n /\ log_data_start + n * LOGPSIZE < log_end /\ r = log_data_start + (log_data_start + n * LOGPSIZE)).
Proof.
  intros Hs He. induction fuel as [|fuel IH]; intros pos w Hw Hpe Hp Hf; [lia|]. cbn [find_syncpt_from]. unfold saturating_add_u64, LRD_SIZE in *.
  destruct (Z.leb_spec pos (Z.min (log_data_start + 36) (2 ^ 64 - 1))); [exists 0, w; by eauto|]. unfold saturating_sub.
  destruct (read_bytes_eof_ok_run (Z.max 0 (pos - 36)) 36 w) as (w1 & Hr & Hw1 & Hc1); [done|lia|lia|lia|]. rewrite (sbind_ok _ _ _ _ _ Hr).
  set (d := zslice (contents w) _ _). assert (Hd : zlen d = 36) by (unfold d; rewrite zlen_zslice; lia). destruct (Z.ltb_spec (zlen d) 8); [lia|].
  rewrite slice_ok by lia. unfold sbind at 1, slift at 1. cbn iota. destruct (negb _) eqn:Hk.
  - rewrite slice_ok by lia. unfold sbind at 1, slift at 1. cbn iota. set (n := read_u32 _). assert (Hn : 0 <= n < 2 ^ 32) by (apply read_u32_range; enough (zlen (zslice d 16 20) = 4) by (unfold zlen in *; lia); rewrite zlen_zslice; lia).
    destruct (Z.ltb_spec 0 n); [|exists 0, w1; by eauto]. unfold LOGPSIZE. rewrite add_u64_ok by lia. unfold sbind at 1, slift at 1. cbn iota.
    destruct (Z.ltb_spec (log_data_start + n * 4096) log_end); [|exists 0, w1; by eauto]. unfold slift. rewrite add_u64_ok by lia. eexists _, w1. split; [reflexivity|]. eauto 10.
  - destruct (IH (Z.max 0 (pos - 36)) w1) as (r & w2 & Hr2 & Hc2 & Hres); [done|lia|rewrite Hc1; lia|lia|]. exists r, w2. rewrite Hr2, Hc2. auto.
Qed.

(** The search for the last synchronisation point ends on every log that the
    device holds, leaves the device as it is, and returns 0 (replay everything) or an
    address that lies beyond the synchronisation point by the start of the log's
    data: the start, which the address of the point contains, is added again. *)
Theorem find_syncpt_result log_data_start log_end (w : W) (Hw : st_wf w)
  (Hs : 0 <= log_data_start < 2 ^ 62) (He : log_end < 2 ^ 62) (Hz : log_end <= zlen (contents w)) :
  exists r w', find_syncpt log_data_start log_end w = (Ok r, w') /\ contents w' = contents w /\
    (r = 0 \/ exists n, 0 < n /\ log_data_start + n * LOGPSIZE < log_end /\ r = log_data_start + (log_data_start + n * LOGPSIZE)).
Proof. apply find_syncpt_from_run; lia || done. Qed.
End pages.
