(* ===== verification/Layout.v ===== *)
(** * Layouts outside the running code ([src/src/types.rs])

    The packed structures and constants that the format declares and no operation
    uses, with the bytes they take, and the log page with its XOR integrity
    check. *)

From stdpp Require Import gmap.
From Stdlib Require Import ZArith Lia.
From S2P Require Import Types Storage PageCache LogMgr Recovery Prelude.

(** ** Constants *)

Definition L2PSIZE : Z := 12.
Definition L2PBSIZE : Z := 9.
Definition L2DISIZE : Z := 9.
Definition INODESLOTSIZE : Z := 128.
Definition L2INODESLOTSIZE : Z := 7.
Definition IAG_SIZE : Z := 4096.
Definition L2INOSPERIAG : Z := 12.
Definition L2INOSPEREXT : Z := 5.
Definition L2INOSPERPAGE : Z := 3.
Definition L2LOGPSIZE : Z := 12.
Definition AGGR_RSVD_BLOCKS : Z := SUPER1_B.
Definition AGGR_RSVD_BYTES : Z := SUPER1_OFF.
Definition XTSLOTSIZE : Z := 16.
Definition L2XTSLOTSIZE : Z := 4.
Definition XTPAGEMAXSLOT : Z := 256.
Definition DATASLOTSIZE : Z := 16.
Definition L2DATASLOTSIZE : Z := 4.
Definition L2DTSLOTSIZE : Z := 5.
Definition DTSLOTHDRSIZE : Z := 2.
Definition DTSLOTDATASIZE : Z := 30.
Definition DTSLOTDATALEN : nat := 15.
Definition BTPAGE_ENTRY_SIZE : nat := 4064.
Definition LOG_PAGE_DATA_WORDS : nat := Z.to_nat (LOGPSIZE / 4 - 4).

(** Each logarithm is that of its size, and the sizes fit together. *)
Lemma sizes_agree :
  2 ^ L2PSIZE = PSIZE /\ 2 ^ L2PBSIZE = PBSIZE /\ 2 ^ L2DISIZE = DISIZE /\ 2 ^ L2INODESLOTSIZE = INODESLOTSIZE /\ 2 ^ L2INOSPERIAG = INOSPERIAG /\
  2 ^ L2INOSPEREXT = INOSPEREXT /\ 2 ^ L2INOSPERPAGE = INOSPERPAGE /\ 2 ^ L2LOGPSIZE = LOGPSIZE /\ 2 ^ L2XTSLOTSIZE = XTSLOTSIZE /\ 2 ^ L2DTSLOTSIZE = DTSLOTSIZE /\
  INOSPERPAGE * DISIZE = PSIZE /\ EXTSPERIAG * INOSPEREXT = INOSPERIAG /\ XTPAGEMAXSLOT * XTSLOTSIZE = PSIZE /\ DTSLOTHDRSIZE + DTSLOTDATASIZE = DTSLOTSIZE /\
  DTSLOTDATASIZE = 2 * Z.of_nat DTSLOTDATALEN /\ AGGR_RSVD_BLOCKS * PBSIZE = AGGR_RSVD_BYTES.
Proof. split_and!; reflexivity. Qed.

Section codec.
Context {LE : LittleEndian} {LES : LittleEndianSpec}.

(** ** Structures *)

(** The bytes of an array of u16, in the order of the codec. *)
Definition u16s (l : list Z) : list byte := mjoin (write_u16 <$> l).

Record PxdList := mkPxdList { maxnpxd : Z; npxd : Z; pl_pxd : list Pxd }.
Definition pxdlist_default : PxdList := mkPxdList 0 0 (replicate (Z.to_nat MAXTREEHEIGHT) pxd_default).
Definition pxdlist_bytes (l : PxdList) : list byte := write_u16 (maxnpxd l) ++ write_u16 (npxd l) ++ mjoin (pxd_into_bytes <$> pl_pxd l).

Record DtSlot := mkDtSlot { ds_next : byte; ds_cnt : byte; ds_name : list Z }.
Definition dtslot_default : DtSlot := mkDtSlot Byte.x00 Byte.x00 (replicate DTSLOTDATALEN 0).
Definition dtslot_bytes (s : DtSlot) : list byte := [ds_next s; ds_cnt s] ++ u16s (ds_name s).

Record IdtEntry := mkIdtEntry { id_xd : Pxd; id_next : byte; id_name_len : byte; id_name : list Z }.
Definition idt_default : IdtEntry := mkIdtEntry pxd_default Byte.x00 Byte.x00 (replicate 11 0).
Definition idt_bytes (e : IdtEntry) : list byte := pxd_into_bytes (id_xd e) ++ [id_next e; id_name_len e] ++ u16s (id_name e).

Record BtPage := mkBtPage {
  bt_next : list byte; bt_prev : list byte; bt_flag : byte; bt_rsrvd : list byte; bt_self_addr : list byte; bt_entry : list byte }.
Definition btpage_default : BtPage := mkBtPage (zeros 8) (zeros 8) Byte.x00 (zeros 7) (zeros 8) (zeros BTPAGE_ENTRY_SIZE).
Definition btpage_bytes (p : BtPage) : list byte := bt_next p ++ bt_prev p ++ [bt_flag p] ++ bt_rsrvd p ++ bt_self_addr p ++ bt_entry p.

Record Iag := mkIag { iag_wmap : list (list byte); iag_pmap : list (list byte); iag_inoext : list Pxd }.
Definition iag_default : Iag :=
  let n := Z.to_nat EXTSPERIAG in mkIag (replicate n (zeros 4)) (replicate n (zeros 4)) (replicate n pxd_default).
Definition iag_bytes (i : Iag) : list byte := mjoin (iag_wmap i) ++ mjoin (iag_pmap i) ++ mjoin (pxd_into_bytes <$> iag_inoext i).

Record Dmap := mkDmap { dm_wmap : list (list byte); dm_pmap : list (list byte) }.
Definition dmap_default : Dmap := let n := Z.to_nat (8192 / 4) in mkDmap (replicate n (zeros 4)) (replicate n (zeros 4)).
Definition dmap_bytes (d : Dmap) : list byte := mjoin (dm_wmap d) ++ mjoin (dm_pmap d).

(** ** The log page *)

Definition lpe_default : LogpageEnd := mkLogpageEnd (zeros 4) (zeros 2) (zeros 2).
Definition logpage_default : Logpage := mkLogpage lpe_default (replicate LOG_PAGE_DATA_WORDS (zeros 4)) lpe_default.
Definition set_h_page (val : Z) (p : Logpage) : Logpage :=
  mkLogpage (mkLogpageEnd (write_u32 val) (lpe_rsrvd (lp_h p)) (lpe_eor (lp_h p))) (lp_data p) (lp_t p).
Definition set_h_eor (val : Z) (p : Logpage) : Logpage :=
  mkLogpage (mkLogpageEnd (lpe_page (lp_h p)) (lpe_rsrvd (lp_h p)) (write_u16 val)) (lp_data p) (lp_t p).
Definition data_bytes (p : Logpage) : list byte := mjoin (lp_data p).
Definition lpe_bytes (e : LogpageEnd) : list byte := lpe_page e ++ lpe_rsrvd e ++ lpe_eor e.
Definition logpage_bytes (p : Logpage) : list byte := lpe_bytes (lp_h p) ++ data_bytes p ++ lpe_bytes (lp_t p).

(** The sizes of the structures: those of a page are 4096 bytes, except for [Iag],
    which lacks the control part of the page, and [Dmap], whose arrays have a word
    for every four blocks instead of a bit for each. *)
Lemma layout_sizes :
  zlen (pxdlist_bytes pxdlist_default) = 68 /\ zlen (dtslot_bytes dtslot_default) = DTSLOTSIZE /\ zlen (idt_bytes idt_default) = DTSLOTSIZE /\
  zlen (btpage_bytes btpage_default) = PSIZE /\ zlen (logpage_bytes logpage_default) = LOGPSIZE /\ zlen (data_bytes logpage_default) = LOGPSIZE - 16 /\
  zlen (iag_bytes iag_default) = 2048 /\ zlen (dmap_bytes dmap_default) = 16384.
Proof.
  assert (Hw : length (write_u16 0) = 2%nat) by (apply length_write_u16; lia).
  assert (Hu : forall n, zlen (u16s (replicate n 0)) = 2 * Z.of_nat n).
  { induction n as [|n IH]; [done|]. change (u16s (replicate (S n) 0)) with (write_u16 0 ++ u16s (replicate n 0)). rewrite zlen_app, IH. unfold zlen. rewrite Hw. lia. }
  split_and!; try (vm_compute; reflexivity).
  - unfold pxdlist_bytes. rewrite !zlen_app. unfold pxdlist_default. cbn [maxnpxd npxd pl_pxd]. unfold zlen at 1 2. rewrite !Hw. reflexivity.
  - unfold dtslot_bytes. rewrite zlen_app. unfold dtslot_default. cbn [ds_next ds_cnt ds_name]. rewrite Hu. reflexivity.
  - unfold idt_bytes. rewrite !zlen_app. unfold idt_default. cbn [id_xd id_next id_name_len id_name]. rewrite Hu. reflexivity.
Qed.

(** ** The integrity check *)

Definition page_xor (words : list (list byte)) : Z := fold_left (fun x word => Z.lxor x (read_u32 word)) words 0.

(** The writer's side of the check. *)
Definition seal (p : Logpage) : Logpage :=
  let xor := page_xor (lp_data p) in
  mkLogpage (mkLogpageEnd (lpe_page (lp_h p)) (lpe_rsrvd (lp_h p)) (write_u16 (as_u16 (Z.shiftr xor 16))))
    (lp_data p) (mkLogpageEnd (lpe_page (lp_h p)) (lpe_rsrvd (lp_t p)) (write_u16 (as_u16 (Z.land xor 0xffff)))).

Lemma xor_from words : forall x, fold_left (fun x word => Z.lxor x (read_u32 word)) words x = Z.lxor x (page_xor words).
Proof.
  unfold page_xor. induction words as [|w words IH]; intros x; cbn [fold_left]; [by rewrite Z.lxor_0_r|]. rewrite IH, (IH (Z.lxor 0 _)), Z.lxor_0_l. by rewrite Z.lxor_assoc.
Qed.

Lemma xor_insert words i old new : words !! i = Some old -> page_xor (<[i := new]> words) = Z.lxor (page_xor words) (Z.lxor (read_u32 old) (read_u32 new)).
Proof.
  intros Hi. rewrite <- (take_drop_middle words i old Hi) at 2. rewrite insert_take_drop by by eapply lookup_lt_Some. unfold page_xor. rewrite !fold_left_app. cbn [fold_left].
  rewrite !(xor_from (drop _ _)). rewrite !Z.lxor_assoc. f_equal. rewrite (Z.lxor_comm (page_xor _) (Z.lxor _ _)), <- (Z.lxor_assoc (read_u32 old)), <- (Z.lxor_assoc (read_u32 old)), Z.lxor_nilpotent, Z.lxor_0_l. done.
Qed.

Lemma lxor_u32 a b : 0 <= a < 2 ^ 32 -> 0 <= b < 2 ^ 32 -> 0 <= Z.lxor a b < 2 ^ 32.
Proof.
  intros Ha Hb. split; [apply Z.lxor_nonneg; lia|]. destruct (Z.eq_dec (Z.lxor a b) 0) as [->|Hne]; [lia|]. assert (0 <= Z.lxor a b) by (apply Z.lxor_nonneg; lia).
  apply Z.log2_lt_pow2; [lia|]. assert (Hl : forall z, 0 <= z < 2 ^ 32 -> Z.log2 z < 32).
  { intros z Hz. destruct (Z.eq_dec z 0) as [->|]; [done|]. apply Z.log2_lt_pow2; lia. }
  pose proof (Z.log2_lxor a b ltac:(lia) ltac:(lia)). pose proof (Hl a Ha). pose proof (Hl b Hb). lia.
Qed.

Lemma page_xor_u32 words : Forall (fun w => length w = 4%nat) words -> 0 <= page_xor words < 2 ^ 32.
Proof.
  induction 1 as [|w words Hw Hws IH]; [done|]. change (page_xor (w :: words)) with (fold_left (fun x word => Z.lxor x (read_u32 word)) words (Z.lxor 0 (read_u32 w))).
  rewrite xor_from, Z.lxor_0_l. apply lxor_u32; [by apply read_u32_range|done].
Qed.

(** The two halves determine the word. *)
Lemma halves_inj x y : 0 <= x < 2 ^ 32 -> 0 <= y < 2 ^ 32 -> as_u16 (Z.shiftr x 16) = as_u16 (Z.shiftr y 16) -> as_u16 (Z.land x 0xffff) = as_u16 (Z.land y 0xffff) -> x = y.
Proof.
  intros Hx Hy. unfold as_u16. change 0xffff with (Z.ones 16). rewrite !Z.land_ones, !Z.shiftr_div_pow2 by lia. rewrite !Z.mod_mod by done.
  rewrite !(Z.mod_small (_ / _)) by (split; [apply Z.div_pos; lia|apply Z.div_lt_upper_bound; lia]). intros Hh Hl.
  rewrite (Z.div_mod x (2 ^ 16)), (Z.div_mod y (2 ^ 16)) by done. by rewrite Hh, Hl.
Qed.

(** The integrity check of a log page accepts every page that is sealed with the
    XOR of its words, and refuses it once any one word of its data is changed. *)
Theorem log_page_integrity p i old new
  (Hw : Forall (fun w => length w = 4%nat) (lp_data p)) (Hi : lp_data p !! i = Some old) (Hn : length new = 4%nat) (Hne : new <> old) :
  validate_log_page (seal p) = true /\
  validate_log_page (mkLogpage (lp_h (seal p)) (<[i := new]> (lp_data p)) (lp_t (seal p))) = false.
Proof.
  pose proof (page_xor_u32 _ Hw) as Hx. assert (Hr : forall z, read_u16 (write_u16 (as_u16 z)) = as_u16 z) by (intros z; apply read_write_u16; unfold as_u16; apply Z.mod_pos_bound; lia).
  unfold validate_log_page, lp_h_page, lp_t_page, lp_h_eor, lp_t_eor, seal. cbn [lp_h lp_t lp_data lpe_page lpe_eor]. rewrite Z.eqb_refl, !Hr. cbn [negb]. split.
  - fold (page_xor (lp_data p)). by rewrite !Z.eqb_refl.
  - fold (page_xor (<[i := new]> (lp_data p))). apply not_true_is_false. intros [H1 H2]%andb_true_iff. apply Z.eqb_eq in H1, H2.
    assert (Hx' : 0 <= page_xor (<[i := new]> (lp_data p)) < 2 ^ 32) by (apply page_xor_u32; by apply Forall_insert).
    pose proof (halves_inj _ _ Hx Hx' H1 H2) as He. rewrite (xor_insert _ _ _ _ Hi) in He. apply (f_equal (Z.lxor (page_xor (lp_data p)))) in He.
    rewrite <- Z.lxor_assoc, !Z.lxor_nilpotent, Z.lxor_0_l in He. symmetry in He. apply Z.lxor_eq in He. apply Hne.
    rewrite <- (write_read_u32 new Hn), <- He. apply write_read_u32. rewrite Forall_lookup in Hw. by eapply Hw.
Qed.
End codec.

(** [log_page_integrity] on an empty page. *)
Lemma log_page_integrity_witness : let _ := le_codec in
  validate_log_page (mkLogpage (lp_h (seal logpage_default)) (<[7%nat := [Byte.x01; Byte.x00; Byte.x00; Byte.x00]]> (lp_data logpage_default)) (lp_t (seal logpage_default))) = false.
Proof.
  intros le. apply (@log_page_integrity le_codec le_codec_spec logpage_default 7 (zeros 4)); [by apply Forall_replicate|reflexivity|reflexivity|discriminate].
Defined.
