(* ===== verification/Transaction.v ===== *)
(** * Transactions ([src/src/transaction.rs])

    The transaction manager, the page cache, the journal (if there is one) and
    the devices are the state of its operations. [commit] takes the storage of
    the file system as an argument and the journal writes to its own: as in
    recovery, two [Storage] instances over one state select them. The
    [write_lock] field is never used and is left out. *)

From S2P Require Import Prelude Types Storage PageCache LogMgr Devices.
From Stdlib Require Import ZArith Lia.

Record ActiveTxn := mkTxn {
  tx_txid : Z; tx_dirty_pages : list (Z * Z); tx_allocated : list Z; tx_freed : list Z }.

Record TransactionManager := mkTm { tm_next_txid : Z; tm_active : option ActiveTxn; tm_last_committed : Z }.

Record CommitResult := mkCommitResult { cr_pages_written : Z; cr_txid : Z }.

Definition tm_new : TransactionManager := mkTm 1 None 0.

Definition no_active : StorageError := Other "no active transaction".

(** ** Operations on the manager alone *)

(** [fetch_add] wraps around. *)
Definition tm_begin (t : TransactionManager) : result Z * TransactionManager :=
  match tm_active t with
  | Some _ => (Err (Other "transaction already in progress"), t)
  | None =>
      let txid := tm_next_txid t in
      (Ok txid, mkTm (as_u64 (txid + 1)) (Some (mkTxn txid [] [] [])) (tm_last_committed t))
  end.

Definition tm_current_txid (t : TransactionManager) : option Z :=
  match tm_active t with
  | Some tx => Some (tx_txid tx)
  | None => if 0 <? tm_last_committed t then Some (tm_last_committed t) else None
  end.

Definition tm_has_active (t : TransactionManager) : bool := bool_decide (is_Some (tm_active t)).

Definition tm_with_active (t : TransactionManager) (a : option ActiveTxn) : TransactionManager :=
  mkTm (tm_next_txid t) a (tm_last_committed t).

Definition tm_record_allocation (block : Z) (t : TransactionManager) : result unit * TransactionManager :=
  match tm_active t with
  | None => (Err no_active, t)
  | Some a => (Ok tt, tm_with_active t (Some (mkTxn (tx_txid a) (tx_dirty_pages a) (tx_allocated a ++ [block]) (tx_freed a))))
  end.

Definition tm_record_free (block : Z) (t : TransactionManager) : result unit * TransactionManager :=
  match tm_active t with
  | None => (Err no_active, t)
  | Some a => (Ok tt, tm_with_active t (Some (mkTxn (tx_txid a) (tx_dirty_pages a) (tx_allocated a) (tx_freed a ++ [block]))))
  end.

Section transaction.
Context {LE : LittleEndian} {L : Lru PageKey CachedPage}.

(** ** Operations on the manager and the cache *)

Definition tm_mark_dirty (inode block : Z) (tc : TransactionManager * PageCache) : result unit * (TransactionManager * PageCache) :=
  let (t, c) := tc in
  match tm_active t with
  | None => (Err no_active, (t, c))
  | Some a =>
      let c := pc_mark_dirty_txn inode block (tx_txid a) c in
      let pages := if bool_decide ((inode, block) ∈ tx_dirty_pages a) then tx_dirty_pages a
                   else tx_dirty_pages a ++ [(inode, block)] in
      (Ok tt, (tm_with_active t (Some (mkTxn (tx_txid a) pages (tx_allocated a) (tx_freed a))), c))
  end.

(** One page of [abort_pages] and of [abort]; the result of [put] is dropped. *)
Definition abort_page (c : PageCache) (key : Z * Z) : PageCache :=
  let '(inode, block) := key in
  let (page, c) := pc_get inode block c in
  let c := match page with
           | Some p => (pc_put inode (cp_unpin (cp_clean p)) c).2
           | None => c
           end in
  pc_unpin_page inode block c.

Definition abort_pages (dirty_pages : list (Z * Z)) (c : PageCache) : PageCache := fold_left abort_page dirty_pages c.

Definition tm_abort (tc : TransactionManager * PageCache) : TransactionManager * PageCache :=
  let (t, c) := tc in
  match tm_active t with
  | None => (t, c)
  | Some a => (tm_with_active t None, abort_pages (tx_dirty_pages a) c)
  end.

(** ** Commit *)

Context {W : Type}.

Record TxState := mkTx { st_mgr : TransactionManager; st_cache : PageCache; st_log : option LogManager; st_dev : W }.

Definition tx_with_cache (f : PageCache -> PageCache) (s : TxState) : TxState :=
  mkTx (st_mgr s) (f (st_cache s)) (st_log s) (st_dev s).
Definition tx_with_mgr (f : TransactionManager -> TransactionManager) (s : TxState) : TxState :=
  mkTx (f (st_mgr s)) (st_cache s) (st_log s) (st_dev s).

Definition on_dev {A} (io : ST W StorageError A) : ST TxState StorageError A := fun s =>
  let (r, w) := io (st_dev s) in (r, mkTx (st_mgr s) (st_cache s) (st_log s) w).

(** A call on the journal, if there is one. *)
Definition on_journal (io : ST (LogManager * W) StorageError unit) : ST TxState StorageError unit := fun s =>
  match st_log s with
  | None => (Ok tt, s)
  | Some l => let '(r, (l, w)) := io (l, st_dev s) in (r, mkTx (st_mgr s) (st_cache s) (Some l) w)
  end.

(** [cache.get(inode, block)]. *)
Definition cache_get (key : Z * Z) : ST TxState StorageError (option CachedPage) := fun s =>
  let (page, c) := pc_get key.1 key.2 (st_cache s) in (Ok page, tx_with_cache (fun _ => c) s).

(** [if let Err(e) = ... { self.abort_pages(...); return Err(e); }]. *)
Definition or_abort {A} (dirty_pages : list (Z * Z)) (m : ST TxState StorageError A) : ST TxState StorageError A := fun s =>
  match m s with
  | (Err e, s) => (Err e, tx_with_cache (abort_pages dirty_pages) s)
  | r => r
  end.

(** Step 2: the journal records and the commit record. *)
Definition journal_step {LG : Storage W} (txid : Z) (dirty_pages : list (Z * Z)) : ST TxState StorageError unit := fun s =>
  match st_log s with
  | None => (Ok tt, s)
  | Some _ =>
      (let* _ := sfor dirty_pages (fun key =>
         let* page := cache_get key in
         match page with
         | Some p => or_abort dirty_pages (on_journal (append_log_record txid key.2 (cp_data p)))
         | None => sret tt
         end) in
       or_abort dirty_pages (on_journal (commit_transaction txid))) s
  end.

(** Step 3: the pages to their blocks, and how many. *)
Fixpoint write_step {FS : Storage W} (all pages : list (Z * Z)) (written : Z) : ST TxState StorageError Z :=
  match pages with
  | [] => sret written
  | key :: pages =>
      let* page := cache_get key in
      match page with
      | Some p => let* _ := or_abort all (on_dev (write_block key.2 (cp_data p))) in write_step all pages (written + 1)
      | None => write_step all pages written
      end
  end.

(** Step 5. *)
Definition release_pages (pages : list (Z * Z)) (c : PageCache) : PageCache :=
  fold_left (fun c '(inode, block) => pc_release inode block (pc_unpin_page inode block c)) pages c.

Definition commit {LG FS : Storage W} : ST TxState StorageError CommitResult := fun s =>
  match tm_active (st_mgr s) with
  | None => (Err no_active, s)
  | Some active =>
      let txid := tx_txid active in
      let dirty_pages := tx_dirty_pages active in
      (let* _ := or_abort dirty_pages (on_dev (flush_data (Storage := FS))) in
       let* _ := journal_step (LG := LG) txid dirty_pages in
       let* written := write_step (FS := FS) dirty_pages dirty_pages 0 in
       let* _ := or_abort dirty_pages (on_dev (flush_metadata (Storage := FS))) in
       let* _ := smod (tx_with_cache (release_pages dirty_pages)) in
       let* _ := smod (tx_with_mgr (fun t => mkTm (tm_next_txid t) (tm_active t) txid)) in
       sret (mkCommitResult written txid)) (tx_with_mgr (fun t => tm_with_active t None) s)
  end.
End transaction.
Arguments TxState {L} W.

(** * Properties *)

(** ** The cache seen by key *)

Section cache_views.
Context {L : Lru PageKey CachedPage} {LS : LruSpec PageKey CachedPage}.

Lemma pc_get_view i b c k : (pc_get i b c).1 = pc_peek i b c /\ pc_peek k.1 k.2 (pc_get i b c).2 = pc_peek k.1 k.2 c.
Proof.
  unfold pc_get. cbn [fst snd]. rewrite !pc_peek_assoc. cbn [pc_with pc_cache]. rewrite lru_get_value, lru_get_iter, assoc_promote. done.
Qed.

Lemma pc_update_view i b f c k :
  pc_peek k.1 k.2 (pc_with c (lru_get_mut (i, b) f (pc_cache c)).2) =
  if decide (k = (i, b)) then f <$> pc_peek k.1 k.2 c else pc_peek k.1 k.2 c.
Proof.
  rewrite !pc_peek_assoc. cbn [pc_with pc_cache]. rewrite lru_get_mut_iter. destruct k as [i' b']. cbn [fst snd].
  case_decide as Hk; [rewrite Hk|]; destruct (assoc (i, b) (lru_iter (pc_cache c))) as [v|] eqn:E; cbn [assoc]; rewrite ?E; try done.
  - by rewrite decide_True.
  - by rewrite decide_False, assoc_unassoc, decide_False.
Qed.

(** Storing a page that is present replaces it: nothing is evicted. *)
Lemma pc_put_present_view i p c k p0 :
  pc_peek i (cp_block p) c = Some p0 ->
  pc_peek k.1 k.2 (pc_put i p c).2 = if decide (k = (i, cp_block p)) then Some p else pc_peek k.1 k.2 c.
Proof.
  intros Hp. rewrite pc_peek_assoc in Hp. unfold pc_put, pc_victim_busy. rewrite lru_contains_value, Hp.
  rewrite bool_decide_eq_true_2 by done. cbn [negb andb]. cbn [snd]. rewrite !pc_peek_assoc. cbn [pc_with pc_cache].
  rewrite lru_put_iter. unfold lru_insert. rewrite Hp. destruct k as [i' b']. cbn [fst snd assoc].
  case_decide; [done|]. by rewrite assoc_unassoc, decide_False.
Qed.

Lemma pc_release_view i b c k :
  pc_peek k.1 k.2 (pc_release i b c) = if decide (k = (i, b)) then None else pc_peek k.1 k.2 c.
Proof.
  rewrite !pc_peek_assoc. unfold pc_release. cbn [pc_with pc_cache]. rewrite lru_pop_iter, assoc_unassoc. by destruct k.
Qed.

(** Every page is cached under the block it records. *)
Definition block_keyed (c : PageCache) : Prop := forall k p, pc_peek k.1 k.2 c = Some p -> cp_block p = k.2.

(** What [abort_page] makes of a page. *)
Definition aborted (p : CachedPage) : CachedPage := cp_unpin (cp_unpin (cp_clean p)).

Lemma abort_page_view c key k :
  block_keyed c ->
  pc_peek k.1 k.2 (abort_page c key) = if decide (k = key) then aborted <$> pc_peek k.1 k.2 c else pc_peek k.1 k.2 c.
Proof.
  intros Hc. destruct key as [i b]. unfold abort_page. pose proof (pc_get_view i b c) as Hg.
  destruct (pc_get i b c) as [page c1]. cbn [fst snd] in Hg. unfold pc_unpin_page. rewrite pc_update_view.
  destruct (Hg (i, b)) as [-> _]. destruct (pc_peek i b c) as [p|] eqn:Hp.
  - assert (Hb : cp_block p = b) by apply (Hc (i, b) p Hp).
    rewrite !(pc_put_present_view _ _ _ _ p) by (cbn [cp_unpin cp_clean cp_block]; rewrite Hb; pose proof (Hg (i, b)) as [_ Hgi]; cbn [fst snd] in Hgi; rewrite Hgi; done).
    cbn [cp_unpin cp_clean cp_block]. rewrite Hb. destruct (Hg k) as [_ ->]. case_decide as Hk; [|done]. subst k. cbn [fst snd]. by rewrite Hp.
  - destruct (Hg k) as [_ ->]. case_decide as Hk; [|done]. subst k. cbn [fst snd]. by rewrite Hp.
Qed.

Lemma abort_page_keyed c key : block_keyed c -> block_keyed (abort_page c key).
Proof.
  intros Hc k p. rewrite abort_page_view by done. case_decide; [|apply Hc].
  destruct (pc_peek k.1 k.2 c) as [q|] eqn:Hq; [|done]. cbn. intros [= <-]. cbn. by apply Hc.
Qed.

(** Aborting keeps the data of every page, and leaves the pages of the
    transaction clean and without a transaction. *)
Lemma abort_pages_view pages c k p :
  block_keyed c -> pc_peek k.1 k.2 c = Some p ->
  exists p', pc_peek k.1 k.2 (abort_pages pages c) = Some p' /\ cp_data p' = cp_data p /\ cp_block p' = cp_block p /\
    (k ∈ pages -> cp_dirty p' = false /\ cp_txid p' = 0) /\ (k ∉ pages -> p' = p) /\
    (cp_dirty p = false /\ cp_txid p = 0 -> cp_dirty p' = false /\ cp_txid p' = 0).
Proof.
  unfold abort_pages. revert c p. induction pages as [|key pages IH]; intros c p Hc Hp; cbn [fold_left].
  { exists p. split_and!; try done. by intros ?%not_elem_of_nil. }
  pose proof (abort_page_view c key k Hc) as Hv. rewrite Hp in Hv. destruct (decide (k = key)) as [->|Hk].
  - destruct (IH (abort_page c key) (aborted p) (abort_page_keyed _ _ Hc) Hv) as (p' & H1 & H2 & H3 & H4 & H5 & H6).
    assert (Hclean : cp_dirty p' = false /\ cp_txid p' = 0) by (apply H6; done).
    exists p'. split_and!; try done. intros Hn. exfalso. apply Hn. by left.
  - destruct (IH (abort_page c key) p (abort_page_keyed _ _ Hc) Hv) as (p' & H1 & H2 & H3 & H4 & H5 & H6).
    exists p'. split_and!; try done.
    + intros [Hin|Hin]%elem_of_cons; [done|by apply H4].
    + intros [_ Hn]%not_elem_of_cons. by apply H5.
Qed.

(** [abort] ends the transaction and leaves every page of it in the cache,
    clean, unowned and with the data the transaction wrote: the modified
    contents are not discarded, and the other pages are untouched. *)
Theorem abort_keeps_modified_data t c a k p
  (Ha : tm_active t = Some a) (Hc : block_keyed c) (Hp : pc_peek k.1 k.2 c = Some p) :
  let tc := tm_abort (t, c) in
  tm_active tc.1 = None /\
  exists p', pc_peek k.1 k.2 tc.2 = Some p' /\ cp_data p' = cp_data p /\
    (k ∈ tx_dirty_pages a -> cp_dirty p' = false /\ cp_txid p' = 0) /\ (k ∉ tx_dirty_pages a -> p' = p).
Proof.
  cbn zeta. unfold tm_abort. rewrite Ha. cbn [fst snd tm_with_active tm_active]. split; [done|].
  destruct (abort_pages_view (tx_dirty_pages a) c k p Hc Hp) as (p' & H1 & H2 & _ & H4 & H5 & _). by exists p'.
Qed.
End cache_views.

(** ** What the steps of a commit keep *)

Section steps.
Context {LE : LittleEndian} {L : Lru PageKey CachedPage} {W : Type}.

Lemma on_dev_keeps {A} (P : TxState W -> Prop) (io : ST W StorageError A) :
  (forall s, P s -> P (mkTx (st_mgr s) (st_cache s) (st_log s) (io (st_dev s)).2)) -> keeps P (on_dev io).
Proof. intros H s Hs. specialize (H s Hs). unfold on_dev. by destruct (io (st_dev s)). Qed.

Lemma or_abort_keeps {A} (P : TxState W -> Prop) pages (m : ST (TxState W) StorageError A) :
  (forall f s, P s -> P (tx_with_cache f s)) -> keeps P m -> keeps P (or_abort pages m).
Proof. intros Hc Hm s Hs. specialize (Hm s Hs). unfold or_abort. destruct (m s) as [[a|e|] s1]; cbn [snd] in *; auto. Qed.

Lemma cache_get_keeps (P : TxState W -> Prop) key :
  (forall f s, P s -> P (tx_with_cache f s)) -> keeps P (cache_get key).
Proof. intros Hc s Hs. unfold cache_get. destruct (pc_get _ _ _) as [page c]. cbn [snd]. by apply Hc. Qed.

(** A property that depends neither on the cache nor on the journal is kept by
    the journal step when the calls of the journal keep it. *)
Lemma journal_step_keeps {LG : Storage W} (P : TxState W -> Prop) txid pages :
  (forall f s, P s -> P (tx_with_cache f s)) ->
  (forall key data, keeps P (on_journal (append_log_record txid key data))) ->
  keeps P (on_journal (commit_transaction txid)) -> keeps P (journal_step txid pages).
Proof.
  intros Hc Ha Hm s Hs. unfold journal_step. destruct (st_log s) as [l|]; [|done].
  eapply keeps_bind with (s := s); [|intros _|done].
  - intros s1 Hs1. apply sfor_invariant; [|done]. intros key s2 _ Hs2. revert s2 Hs2.
    apply (keeps_bind P); [by apply cache_get_keeps|]. intros [p|]; [|apply keeps_ret]. apply or_abort_keeps; [done|apply Ha].
  - by apply or_abort_keeps.
Qed.

Lemma write_step_keeps {FS : Storage W} (P : TxState W -> Prop) all pages n :
  (forall f s, P s -> P (tx_with_cache f s)) -> (forall b d, keeps P (on_dev (write_block b d))) -> keeps P (write_step all pages n).
Proof.
  intros Hc Hw. revert n. induction pages as [|key pages IH]; intros n; cbn [write_step]; keeps; [by apply cache_get_keeps|].
  destruct a as [p|]; [|apply IH]. keeps; [|apply IH]. by apply or_abort_keeps.
Qed.

Lemma on_journal_keeps (P : TxState W -> Prop) io :
  (forall s l, st_log s = Some l -> P s -> P (mkTx (st_mgr s) (st_cache s) (Some (io (l, st_dev s)).2.1) (io (l, st_dev s)).2.2)) ->
  keeps P (on_journal io).
Proof.
  intros H s Hs. unfold on_journal. destruct (st_log s) as [l|] eqn:E; [|done]. specialize (H s l E Hs).
  by destruct (io (l, st_dev s)) as [r [l' w']].
Qed.

(** The manager after a commit, whatever its outcome. *)
Lemma commit_mgr {LG FS : Storage W} (s : TxState W) :
  tm_next_txid (st_mgr (commit (LG := LG) (FS := FS) s).2) = tm_next_txid (st_mgr s) /\
  tm_active (st_mgr (commit (LG := LG) (FS := FS) s).2) = None.
Proof.
  unfold commit. destruct (tm_active (st_mgr s)) as [a|] eqn:Ea; [|done].
  set (P := fun s1 : TxState W => tm_next_txid (st_mgr s1) = tm_next_txid (st_mgr s) /\ tm_active (st_mgr s1) = None).
  assert (Hc : forall f s1, P s1 -> P (tx_with_cache f s1)) by done.
  enough (H : keeps P (let* _ := or_abort (tx_dirty_pages a) (on_dev (flush_data (Storage := FS))) in
       let* _ := journal_step (LG := LG) (tx_txid a) (tx_dirty_pages a) in
       let* written := write_step (FS := FS) (tx_dirty_pages a) (tx_dirty_pages a) 0 in
       let* _ := or_abort (tx_dirty_pages a) (on_dev (flush_metadata (Storage := FS))) in
       let* _ := smod (tx_with_cache (release_pages (tx_dirty_pages a))) in
       let* _ := smod (tx_with_mgr (fun t => mkTm (tm_next_txid t) (tm_active t) (tx_txid a))) in
       sret (mkCommitResult written (tx_txid a)))) by (apply H; done).
  keeps; try (apply or_abort_keeps; [done|apply on_dev_keeps; done]); try done.
  - apply journal_step_keeps; [done|intros; by apply on_journal_keeps|by apply on_journal_keeps].
  - apply write_step_keeps; [done|]. intros. by apply on_dev_keeps.
  - by intros s1 Hs1.
  - by intros s1 Hs1.
Qed.

(** ** Transaction identifiers *)

(** The operations of the manager, with the identifier a [begin] returns. *)
Inductive tx_step {LG FS : Storage W} (s : TxState W) : option Z -> TxState W -> Prop :=
| step_begin txid t : tm_begin (st_mgr s) = (Ok txid, t) -> tx_step s (Some txid) (tx_with_mgr (fun _ => t) s)
| step_begin_busy e t : tm_begin (st_mgr s) = (Err e, t) -> tx_step s None (tx_with_mgr (fun _ => t) s)
| step_mark_dirty i b : let tc := (tm_mark_dirty i b (st_mgr s, st_cache s)).2 in
    tx_step s None (mkTx tc.1 tc.2 (st_log s) (st_dev s))
| step_allocation b : tx_step s None (tx_with_mgr (fun t => (tm_record_allocation b t).2) s)
| step_free b : tx_step s None (tx_with_mgr (fun t => (tm_record_free b t).2) s)
| step_commit : tx_step s None (commit (LG := LG) (FS := FS) s).2
| step_abort : let tc := tm_abort (st_mgr s, st_cache s) in tx_step s None (mkTx tc.1 tc.2 (st_log s) (st_dev s)).

Inductive tx_steps {LG FS : Storage W} : TxState W -> list Z -> TxState W -> Prop :=
| steps_nil s : tx_steps s [] s
| steps_begin s txid s1 ids s2 : tx_step (LG := LG) (FS := FS) s (Some txid) s1 -> tx_steps s1 ids s2 -> tx_steps s (txid :: ids) s2
| steps_other s s1 ids s2 : tx_step (LG := LG) (FS := FS) s None s1 -> tx_steps s1 ids s2 -> tx_steps s ids s2.

Lemma tx_step_next {LG FS : Storage W} s o s' :
  tx_step (LG := LG) (FS := FS) s o s' ->
  match o with
  | Some txid => txid = tm_next_txid (st_mgr s) /\ tm_next_txid (st_mgr s') = as_u64 (txid + 1)
  | None => tm_next_txid (st_mgr s') = tm_next_txid (st_mgr s)
  end.
Proof.
  destruct 1 as [txid t H|e t H|i b|b|b| |]; cbn [st_mgr tx_with_mgr].
  - unfold tm_begin in H. destruct (tm_active (st_mgr s)); by simplify_eq.
  - unfold tm_begin in H. destruct (tm_active (st_mgr s)); by simplify_eq.
  - subst tc. unfold tm_mark_dirty. by destruct (tm_active (st_mgr s)).
  - unfold tm_record_allocation. by destruct (tm_active (st_mgr s)).
  - unfold tm_record_free. by destruct (tm_active (st_mgr s)).
  - apply commit_mgr.
  - subst tc. unfold tm_abort. by destruct (tm_active (st_mgr s)).
Qed.

(** Transaction identifiers are never reused: in any sequence of operations,
    commits that fail included, the identifiers that [begin] returns are
    consecutive, as long as the 64-bit counter does not wrap around. *)
Theorem txids_consecutive {LG FS : Storage W} (s : TxState W) ids s'
  (Hs : tx_steps (LG := LG) (FS := FS) s ids s') (H0 : 0 <= tm_next_txid (st_mgr s))
  (Hw : tm_next_txid (st_mgr s) + zlen ids < 2 ^ 64) :
  ids = range (tm_next_txid (st_mgr s)) (tm_next_txid (st_mgr s) + zlen ids) /\
  tm_next_txid (st_mgr s') = tm_next_txid (st_mgr s) + zlen ids.
Proof.
  induction Hs as [s|s txid s1 ids s2 H1 H2 IH|s s1 ids s2 H1 H2 IH].
  - change (zlen (@nil Z)) with 0. rewrite range_nil by lia. split; [done|lia].
  - rewrite zlen_cons in *. pose proof (zlen_nonneg ids). apply tx_step_next in H1 as [-> Hn]. rewrite as_u64_small in Hn by lia. rewrite Hn in IH.
    destruct IH as [IH1 IH2]; [lia|lia|]. rewrite range_cons by lia. split; [|lia]. f_equal.
    replace (tm_next_txid (st_mgr s) + (1 + zlen ids)) with (tm_next_txid (st_mgr s) + 1 + zlen ids) by lia. done.
  - apply tx_step_next in H1. rewrite H1 in IH. apply IH; lia.
Qed.
End steps.

(** ** Commit *)

Section commit_facts.
Context {LE : LittleEndian} {LES : LittleEndianSpec} {L : Lru PageKey CachedPage} {LS : LruSpec PageKey CachedPage}.
Context {W : Type} {LG FS : Storage W} {PL : @StorageSpec W LG} {PF : @StorageSpec W FS}.
Context {SepL : SeparateDevices W LG FS PL PF} {SepF : SeparateDevices W FS LG PF PL}.

Abbreviation logc := (@contents W LG PL).
Abbreviation fsc := (@contents W FS PF).

(** The journal never writes to the file system. *)
Lemma log_io_keeps (P : W -> Prop) {A} (io : LogManager -> ST W StorageError A) :
  (forall l, keeps P (io l)) -> keeps (fun s : LogManager * W => P s.2) (on_log io).
Proof. intros Hio [l w] Hw. unfold on_log. specialize (Hio l w Hw). cbn [fst snd] in *. by destruct (io l w). Qed.

Lemma set_log_keeps (P : W -> Prop) f : keeps (fun s : LogManager * W => P s.2) (set_log f).
Proof. by intros [l w]. Qed.

Section log_keeps.
Context (P : W -> Prop) (Hwb : forall off data, keeps P (write_bytes (Storage := LG) off data))
        (Hfm : keeps P (flush_metadata (Storage := LG))) (Hsy : keeps P (sync (Storage := LG))).

Lemma flush_page_keeps start i : keeps (fun s : LogManager * W => P s.2) (flush_page (H := LG) start i).
Proof.
  intros s Hs. unfold flush_page. generalize (s.1) as l0. intros l0. revert s Hs.
  refine (keeps_bind (fun s : LogManager * W => P s.2) _ _ _ _); [apply keeps_lift|intros page]. cbn zeta. keeps. apply log_io_keeps. intros l. unfold write_page. keeps. apply Hwb.
Qed.

Lemma flush_journal_keeps : keeps (fun s : LogManager * W => P s.2) (flush_journal (H := LG)).
Proof.
  intros s Hs. unfold flush_journal. generalize (s.1) as l0. intros l0. revert s Hs.
  refine (keeps_bind (fun s : LogManager * W => P s.2) _ _ _ _); [|intros _; keeps].
  - apply keeps_if; [|apply keeps_ret]. cbn zeta. intros s1 Hs1. apply (sfor_invariant (fun s : LogManager * W => P s.2)); [|done].
    intros i s2 _. apply flush_page_keeps.
  - apply log_io_keeps. done.
  - apply log_io_keeps. done.
  - apply set_log_keeps.
  - intros s1 Hs1. apply (log_io_keeps P (write_super (lm_logsuper s1.1))); [|done]. intros l. unfold write_super. keeps. apply Hwb.
Qed.

Lemma next_segment_keeps n : keeps (fun s : LogManager * W => P s.2) (next_segment (H := LG) n).
Proof.
  intros s Hs. unfold next_segment. destruct (_ <? _); [|done]. revert s Hs. refine (keeps_bind (fun s : LogManager * W => P s.2) _ _ _ _); [apply flush_journal_keeps|].
  intros _. apply set_log_keeps.
Qed.

Lemma store_record_keeps r data : keeps (fun s : LogManager * W => P s.2) (store_record r data).
Proof. intros s Hs. unfold store_record. by destruct (let! _ := _ in _). Qed.

Lemma append_log_record_keeps txid b data : keeps (fun s : LogManager * W => P s.2) (append_log_record (H := LG) txid b data).
Proof.
  unfold append_log_record. apply keeps_bind; [apply next_segment_keeps|intros _]. intros s Hs.
  generalize (lm_prev_record_offset s.1) as prev. intros prev. revert s Hs. refine (keeps_bind (fun s : LogManager * W => P s.2) _ _ _ _); [|intros _; keeps];
    [apply store_record_keeps|apply set_log_keeps].
Qed.

Lemma commit_transaction_keeps txid : keeps (fun s : LogManager * W => P s.2) (commit_transaction (H := LG) txid).
Proof.
  unfold commit_transaction. apply keeps_bind; [apply next_segment_keeps|intros _]. intros s Hs.
  generalize (lm_prev_record_offset s.1) as prev. intros prev. revert s Hs. refine (keeps_bind (fun s : LogManager * W => P s.2) _ _ _ _); [|intros _; keeps];
    [apply store_record_keeps|apply set_log_keeps|apply flush_journal_keeps|apply set_log_keeps].
Qed.
End log_keeps.

Lemma journal_step_fs txid pages c :
  keeps (fun s : TxState W => @st_wf _ _ PF (st_dev s) /\ fsc (st_dev s) = c) (journal_step (LG := LG) txid pages).
Proof.
  set (P := fun w : W => @st_wf _ _ PF w /\ fsc w = c).
  destruct (separate_keeps (Sep := SepF) c) as (Hwb & Hfm & Hsy). fold P in Hwb, Hfm, Hsy.
  apply journal_step_keeps; [done| |]; intros; apply on_journal_keeps; intros s l Hl Hs; cbn [st_dev].
  - by apply (append_log_record_keeps P Hwb Hfm Hsy _ _ _ (l, st_dev s)).
  - by apply (commit_transaction_keeps P Hwb Hfm Hsy _ (l, st_dev s)).
Qed.

(** C32: the journal is written ahead: whatever fails, [commit] changes a byte of
    the file system only after the data was flushed and the journal step, which
    ends with the flushed commit record, returned without error. *)
Theorem commit_writes_ahead (s : TxState W) a
  (Ha : tm_active (st_mgr s) = Some a) (Hw : @st_wf _ _ PF (st_dev s))
  (Hch : fsc (st_dev (commit (LG := LG) (FS := FS) s).2) <> fsc (st_dev s)) :
  exists s1 s2,
    or_abort (tx_dirty_pages a) (on_dev (flush_data (Storage := FS))) (tx_with_mgr (fun t => tm_with_active t None) s) = (Ok tt, s1) /\
    journal_step (LG := LG) (tx_txid a) (tx_dirty_pages a) s1 = (Ok tt, s2) /\ fsc (st_dev s2) = fsc (st_dev s).
Proof.
  unfold commit in Hch. rewrite Ha in Hch.
  set (s0 := tx_with_mgr (fun t => tm_with_active t None) s) in *.
  set (P := fun s : TxState W => @st_wf _ _ PF (st_dev s) /\ fsc (st_dev s) = fsc (st_dev s0)).
  assert (H1 : keeps P (or_abort (tx_dirty_pages a) (on_dev (flush_data (Storage := FS))))).
  { apply or_abort_keeps; [done|]. apply on_dev_keeps. intros s1 [Hs1 Hs2]. destruct (st_flush_data (st_dev s1) Hs1) as [Hf1 Hf2].
    split; [done|]. cbn [st_dev]. congruence. }
  unfold sbind at 1 in Hch. specialize (H1 s0 ltac:(done)).
  destruct (or_abort _ (on_dev flush_data) s0) as [[[]|e|] s1]; [|by destruct H1..].
  pose proof (journal_step_fs (tx_txid a) (tx_dirty_pages a) (fsc (st_dev s0)) s1 H1) as H2.
  unfold sbind at 1 in Hch. destruct (journal_step _ _ s1) as [[[]|e|] s2] eqn:E2; [|by destruct H2..].
  exists s1, s2. split_and!; [done|exact E2|apply H2].
Qed.

Context {RL : @StorageReliable W LG PL} {RF : @StorageReliable W FS PF}.

(** The same pages under the same keys; the recency may differ. *)
Definition same_view (c c' : PageCache) : Prop := forall k, pc_peek k.1 k.2 c' = pc_peek k.1 k.2 c.

(** The contents of those of the pages that are cached, by block. *)
Definition images (c : PageCache) (pages : list (Z * Z)) (imgs : list (Z * list byte)) : Prop :=
  imgs = omap (fun k => (fun p => (k.2, cp_data p)) <$> pc_peek k.1 k.2 c) pages.

Lemma images_view c c' pages imgs : same_view c c' -> images c pages imgs -> images c' pages imgs.
Proof. intros Hv ->. apply list_omap_ext. apply Forall_Forall2_diag, Forall_true. intros k. by rewrite Hv. Qed.

Lemma images_cons c key pages imgs :
  images c (key :: pages) imgs ->
  match pc_peek key.1 key.2 c with
  | Some p => exists imgs', imgs = (key.2, cp_data p) :: imgs' /\ images c pages imgs'
  | None => images c pages imgs
  end.
Proof. intros ->. cbn [omap list_omap]. destruct (pc_peek key.1 key.2 c); [by eexists|done]. Qed.

Lemma cache_get_run key (s : TxState W) :
  exists c', cache_get key s = (Ok (pc_peek key.1 key.2 (st_cache s)), mkTx (st_mgr s) c' (st_log s) (st_dev s)) /\
    same_view (st_cache s) c'.
Proof.
  unfold cache_get. pose proof (pc_get_view key.1 key.2 (st_cache s)) as Hg. destruct (pc_get _ _ _) as [page c']. cbn [fst snd] in Hg.
  exists c'. split; [destruct (Hg key) as [-> _]; done|]. intros k. apply Hg.
Qed.

Lemma journal_loop_ok all txid pages imgs (s : TxState W) l l' w' :
  st_log s = Some l -> images (st_cache s) pages imgs -> log_blocks (SW := LG) txid imgs (l, st_dev s) = (Ok tt, (l', w')) ->
  exists c', sfor pages (fun key =>
      let* page := cache_get key in
      match page with
      | Some p => or_abort all (on_journal (append_log_record (H := LG) txid key.2 (cp_data p)))
      | None => sret tt
      end) s = (Ok tt, mkTx (st_mgr s) c' (Some l') w') /\ same_view (st_cache s) c'.
Proof.
  revert imgs s l. induction pages as [|key pages IH]; intros imgs s l Hl Hi Hrun.
  { rewrite Hi in Hrun. injection Hrun as -> <-. exists (st_cache s). cbn [sfor]. rewrite <- Hl. split; [by destruct s|done]. }
  apply images_cons in Hi. destruct (pc_peek key.1 key.2 (st_cache s)) as [p|] eqn:Hp.
  2: { destruct (cache_get_run key s) as (c1 & Hget & Hv1). cbn [sfor]. unfold sbind at 1. rewrite (sbind_ok _ _ _ _ _ Hget), Hp.
       destruct (IH imgs (mkTx (st_mgr s) c1 (st_log s) (st_dev s)) l) as (c2 & Hrun2 & Hv2); [done|exact (images_view _ _ _ _ Hv1 Hi)|done|].
       exists c2. split; [exact Hrun2|]. intros k. rewrite Hv2. apply Hv1. }
  destruct Hi as (imgs' & -> & Hi).
  unfold log_blocks in Hrun. cbn [sfor fst snd] in Hrun. apply sbind_inv in Hrun as ([] & [l1 w1] & Happ & Hrest).
  destruct (cache_get_run key s) as (c1 & Hget & Hv1). cbn [sfor].
  assert (Hstep : (let* page := cache_get key in
      match page with
      | Some p => or_abort all (on_journal (append_log_record (H := LG) txid key.2 (cp_data p)))
      | None => sret tt
      end) s = (Ok tt, mkTx (st_mgr s) c1 (Some l1) w1)).
  { rewrite (sbind_ok _ _ _ _ _ Hget), Hp. unfold or_abort, on_journal. cbn [st_log st_dev st_mgr st_cache]. by rewrite Hl, Happ. }
  rewrite (sbind_ok _ _ _ _ _ Hstep).
  destruct (IH imgs' (mkTx (st_mgr s) c1 (Some l1) w1) l1) as (c2 & Hrun2 & Hv2); [done|exact (images_view _ _ _ _ Hv1 Hi)|done|].
  exists c2. split; [done|]. intros k. rewrite Hv2. apply Hv1.
Qed.

Lemma write_step_fs all pages imgs n (s : TxState W) :
  images (st_cache s) pages imgs -> @st_wf _ _ PF (st_dev s) ->
  Forall (fun im => 0 <= im.1 /\ zlen im.2 = BLOCK_SIZE /\ im.1 * BLOCK_SIZE + BLOCK_SIZE <= zlen (fsc (st_dev s))) imgs ->
  exists c' w', write_step (FS := FS) all pages n s = (Ok (n + zlen imgs), mkTx (st_mgr s) c' (st_log s) w') /\
    same_view (st_cache s) c' /\ @st_wf _ _ PF w' /\ fsc w' = apply_writes imgs (fsc (st_dev s)).
Proof.
  revert imgs n s. induction pages as [|key pages IH]; intros imgs n s Hi HwF Hf.
  { rewrite Hi. exists (st_cache s), (st_dev s). cbn [write_step omap list_omap]. change (zlen (@nil (Z * list byte))) with 0.
    rewrite Z.add_0_r. split_and!; try done. by destruct s. }
  apply images_cons in Hi. destruct (pc_peek key.1 key.2 (st_cache s)) as [p|] eqn:Hp.
  2: { destruct (cache_get_run key s) as (c1 & Hget & Hv1). cbn [write_step]. rewrite (sbind_ok _ _ _ _ _ Hget), Hp.
       destruct (IH imgs n (mkTx (st_mgr s) c1 (st_log s) (st_dev s))) as (c2 & w2 & Hrun2 & Hv2 & HwF2 & Hc2); [exact (images_view _ _ _ _ Hv1 Hi)|done|done|].
       exists c2, w2. split_and!; try done. intros k. rewrite Hv2. apply Hv1. }
  destruct Hi as (imgs' & -> & Hi). apply Forall_cons in Hf as [(F1 & F2 & F3) Hf]. cbn [fst snd] in *. destruct (cache_get_run key s) as (c1 & Hget & Hv1). cbn [write_step]. rewrite (sbind_ok _ _ _ _ _ Hget), Hp.
  destruct (write_block_run (FS := FS) key.2 (cp_data p) (st_dev s) HwF F1 F2 F3) as (w1 & Hrun1 & HwF1 & Hc1).
  assert (Hstep : or_abort all (on_dev (write_block (Storage := FS) key.2 (cp_data p))) (mkTx (st_mgr s) c1 (st_log s) (st_dev s))
    = (Ok tt, mkTx (st_mgr s) c1 (st_log s) w1)).
  { unfold or_abort, on_dev. cbn [st_dev st_mgr st_cache st_log]. by rewrite Hrun1. }
  rewrite (sbind_ok _ _ _ _ _ Hstep).
  assert (Hlen : zlen (fsc w1) = zlen (fsc (st_dev s))) by (rewrite Hc1; unfold BLOCK_SIZE, PSIZE in *; apply zlen_zsplice; lia).
  destruct (IH imgs' (n + 1) (mkTx (st_mgr s) c1 (st_log s) w1)) as (c2 & w2 & Hrun2 & Hv2 & HwF2 & Hc2);
    [exact (images_view _ _ _ _ Hv1 Hi)|done|cbn [st_dev]; by rewrite Hlen|].
  exists c2, w2. rewrite Hrun2. cbn [st_mgr st_log st_cache st_dev] in *. rewrite zlen_cons. split_and!; try done.
  - f_equal. f_equal. lia.
  - intros k. rewrite Hv2. apply Hv1.
  - by rewrite Hc2, Hc1.
Qed.

Lemma write_step_ok all pages imgs n (s : TxState W) :
  images (st_cache s) pages imgs -> @st_wf _ _ PF (st_dev s) -> @st_wf _ _ PL (st_dev s) ->
  Forall (fun im => 0 <= im.1 /\ zlen im.2 = BLOCK_SIZE /\ im.1 * BLOCK_SIZE + BLOCK_SIZE <= zlen (fsc (st_dev s))) imgs ->
  exists c' w', write_step (FS := FS) all pages n s = (Ok (n + zlen imgs), mkTx (st_mgr s) c' (st_log s) w') /\
    same_view (st_cache s) c' /\ @st_wf _ _ PF w' /\ @st_wf _ _ PL w' /\
    fsc w' = apply_writes imgs (fsc (st_dev s)) /\ logc w' = logc (st_dev s).
Proof.
  intros Hi HwF HwL Hf. destruct (write_step_fs all pages imgs n s Hi HwF Hf) as (c' & w' & Hrun & Hv & HwF' & Hc).
  assert (Hk : keeps (fun s1 : TxState W => @st_wf _ _ PL (st_dev s1) /\ logc (st_dev s1) = logc (st_dev s)) (write_step (FS := FS) all pages n)).
  { apply write_step_keeps; [done|]. intros b d. apply on_dev_keeps. intros s1 [H1 H2]. cbn [st_dev].
    destruct (sep_write_block (SeparateDevices := SepL) b d (st_dev s1)) as [H3 H4]. split; [auto|congruence]. }
  specialize (Hk s (conj HwL eq_refl)). rewrite Hrun in Hk. cbn [snd st_dev] in Hk. exists c', w'. by destruct Hk.
Qed.

Lemma release_pages_view pages c k :
  pc_peek k.1 k.2 (release_pages pages c) = if decide (k ∈ pages) then None else pc_peek k.1 k.2 c.
Proof.
  revert c. induction pages as [|[i b] pages IH]; intros c; cbn [release_pages fold_left].
  { rewrite decide_False by apply not_elem_of_nil. done. }
  fold (release_pages pages (pc_release i b (pc_unpin_page i b c))). rewrite IH, pc_release_view. unfold pc_unpin_page. rewrite pc_update_view.
  destruct (decide (k = (i, b))) as [->|Hk].
  - rewrite (decide_True (P := (i, b) ∈ (i, b) :: pages)) by apply list_elem_of_here. by case_decide.
  - destruct (decide (k ∈ pages)) as [Hin|Hin].
    + by rewrite decide_True by by right.
    + rewrite decide_False; [done|]. rewrite elem_of_cons. naive_solver.
Qed.

(** The journal step on a journal with room: the stream it leaves on the device. *)
Lemma journal_step_ok txid pages imgs n t c l (w : W) :
  lm_wf l -> @st_wf _ _ PL w -> lm_space (SS := PL) n l w -> 2 * zlen imgs + 2 <= n ->
  images c pages imgs -> Forall (fun im => zlen im.2 = 4096) imgs ->
  exists c' l' w' prev strm pad,
    journal_step (LG := LG) txid pages (mkTx t c (Some l) w) = (Ok tt, mkTx t c' (Some l') w') /\ same_view c c' /\
    @st_wf _ _ PL w' /\ zlen pad < 8192 /\
    logged txid (lm_prev_record_offset l) (log_stream (SS := PL) l w) imgs prev strm /\
    on_device (SS := PL) l' w' (strm ++ pad ++ lrd_flat (commit_lrd txid prev)) /\
    lm_wf l' /\ lm_space (SS := PL) (n - 2 * zlen imgs - 2) l' w' /\ log_frame (SS := PL) l w l' w'.
Proof.
  intros Hl HwL Hsp Hn Hi H4096.
  destruct (log_blocks_ok (SS := PL) (SR := RL) n txid imgs l w Hl HwL Hsp ltac:(lia) H4096) as (l2 & w2 & Hrun2 & Hl2 & HwL2 & Hsp2 & Hlogged & Hfr2).
  destruct (commit_transaction_ok (SS := PL) (SR := RL) _ txid l2 w2 Hl2 HwL2 Hsp2) as
    (l3 & w3 & pad & Hrun3 & Hl3 & HwL3 & Hsp3 & Hpad & Hst & Hdev & _ & _ & Hfr3); [lia|].
  destruct (journal_loop_ok pages txid pages imgs (mkTx t c (Some l) w) l l2 w2 eq_refl Hi Hrun2) as (c2 & Hloop & Hv2).
  exists c2, l3, w3, (lm_prev_record_offset l2), (log_stream (SS := PL) l2 w2), pad.
  split_and!; [|exact Hv2|exact HwL3|exact (proj1 Hpad)|exact Hlogged|rewrite <- Hst; exact Hdev|exact Hl3|exact Hsp3|
    eapply log_frame_trans; [apply Hl|exact Hfr2|exact Hfr3]].
  unfold journal_step at 1. cbn [st_log]. rewrite (sbind_ok _ _ _ _ _ Hloop).
  unfold or_abort, on_journal. cbn [st_log st_dev st_mgr st_cache]. by rewrite Hrun3.
Qed.

(** C1: a commit that returns success is durable: with distinct devices that do
    not fail and room in the log, [commit] returns the number of dirty pages that
    are cached; the file system holds their contents; the log holds a record for
    each of them and then the commit record; the dirty pages left the cache, no other
    page changed, and no transaction is active. *)
Theorem commit_durable (s : TxState W) a l n imgs
  (Ha : tm_active (st_mgr s) = Some a) (Hlog : st_log s = Some l) (Hl : lm_wf l)
  (HwL : @st_wf _ _ PL (st_dev s)) (HwF : @st_wf _ _ PF (st_dev s))
  (Hsp : lm_space (SS := PL) n l (st_dev s)) (Hn : 2 * zlen imgs + 2 <= n)
  (Hi : images (st_cache s) (tx_dirty_pages a) imgs)
  (Hf : Forall (fun im => 0 <= im.1 /\ zlen im.2 = BLOCK_SIZE /\ im.1 * BLOCK_SIZE + BLOCK_SIZE <= zlen (fsc (st_dev s))) imgs) :
  exists s' l' prev strm pad,
    commit (LG := LG) (FS := FS) s = (Ok (mkCommitResult (zlen imgs) (tx_txid a)), s') /\
    fsc (st_dev s') = apply_writes imgs (fsc (st_dev s)) /\
    st_log s' = Some l' /\
    logged (tx_txid a) (lm_prev_record_offset l) (log_stream (SS := PL) l (st_dev s)) imgs prev strm /\
    on_device (SS := PL) l' (st_dev s') (strm ++ pad ++ lrd_flat (commit_lrd (tx_txid a) prev)) /\ zlen pad < 8192 /\
    tm_active (st_mgr s') = None /\ tm_last_committed (st_mgr s') = tx_txid a /\
    forall k, pc_peek k.1 k.2 (st_cache s') = if decide (k ∈ tx_dirty_pages a) then None else pc_peek k.1 k.2 (st_cache s).
Proof.
  pose (s0 := tx_with_mgr (fun t => tm_with_active t None) s).
  pose proof (st_flush_data_ok (st_dev s) HwF) as Hfd. destruct (st_flush_data (st_dev s) HwF) as [HwF1 HcF1].
  destruct (sep_flush_data (SeparateDevices := SepL) (st_dev s)) as [HcL1 HwL1]. specialize (HwL1 HwL).
  destruct (flush_data (Storage := FS) (st_dev s)) as [o w1] eqn:E1. cbn [fst snd] in *. subst o.
  assert (Hstep1 : or_abort (tx_dirty_pages a) (on_dev (flush_data (Storage := FS))) s0 = (Ok tt, mkTx (st_mgr s0) (st_cache s) (st_log s) w1)).
  { unfold or_abort, on_dev. cbn [s0 tx_with_mgr st_dev st_mgr st_cache st_log]. by rewrite E1. }
  assert (Hsp1 : lm_space (SS := PL) n l w1) by (unfold lm_space in *; by rewrite HcL1).
  assert (H4096 : Forall (fun b : Z * list byte => zlen b.2 = 4096) imgs) by (eapply Forall_impl; [exact Hf|]; intros im Him; apply Him).
  rewrite Hlog in Hstep1.
  destruct (journal_step_ok (tx_txid a) (tx_dirty_pages a) imgs n (st_mgr s0) (st_cache s) l w1 Hl HwL1 Hsp1 Hn Hi H4096)
    as (c2 & l3 & w3 & prev & strm & pad & Hstep2 & Hv2 & HwL3 & Hpad & Hlogged & Hdev & _).
  set (s3 := mkTx (st_mgr s0) c2 (Some l3) w3) in *.
  destruct (journal_step_fs (tx_txid a) (tx_dirty_pages a) (fsc (st_dev s)) (mkTx (st_mgr s0) (st_cache s) (Some l) w1)) as [HwF3 HcF3];
    [split; [exact HwF1|exact HcF1]|]. rewrite Hstep2 in HwF3, HcF3. cbn [snd s3 st_dev] in HwF3, HcF3.
  destruct (write_step_ok (tx_dirty_pages a) (tx_dirty_pages a) imgs 0 s3) as (c4 & w4 & Hrun4 & Hv4 & HwF4 & HwL4 & HcF4 & HcL4);
    [exact (images_view _ _ _ _ Hv2 Hi)|exact HwF3|exact HwL3|cbn [s3 st_dev]; by rewrite HcF3|].
  pose proof (st_flush_metadata_ok w4 HwF4) as Hfm. destruct (st_flush_metadata w4 HwF4) as [_ HcF5].
  destruct (sep_flush_metadata (SeparateDevices := SepL) w4) as [HcL5 _].
  destruct (flush_metadata (Storage := FS) w4) as [o w5] eqn:E5. cbn [fst snd] in *. subst o.
  eexists _, l3, prev, strm, pad. split_and!.
  - unfold commit. rewrite Ha. fold s0. rewrite (sbind_ok _ _ _ _ _ Hstep1), (sbind_ok _ _ _ _ _ Hstep2), (sbind_ok _ _ _ _ _ Hrun4).
    unfold sbind, or_abort, on_dev. cbn [st_dev st_mgr st_cache st_log]. rewrite E5. reflexivity.
  - cbn [tx_with_mgr tx_with_cache st_dev]. rewrite HcF5, HcF4. cbn [s3 st_dev]. by rewrite HcF3.
  - reflexivity.
  - replace (log_stream l (st_dev s)) with (log_stream (SS := PL) l w1); [exact Hlogged|]. unfold log_stream. by rewrite HcL1.
  - cbn [tx_with_mgr tx_with_cache st_dev]. unfold on_device in *. rewrite HcL5, HcL4. exact Hdev.
  - exact Hpad.
  - reflexivity.
  - reflexivity.
  - intros k. cbn [tx_with_mgr tx_with_cache st_cache]. rewrite release_pages_view. case_decide; [done|]. rewrite Hv4. apply Hv2.
Qed.
End commit_facts.

(** ** Witnesses *)

Definition wpage : CachedPage := mkPage 0 (replicate (Z.to_nat 4096) Byte.x07) true (Some 3) 0 1 1.
Definition wtxn : ActiveTxn := mkTxn 1 [(3, 0)] [] [].
Definition wmgr : TransactionManager := mkTm 2 (Some wtxn) 0.
Definition wfs : MemoryStorage := mkMem (replicate (Z.to_nat 8192) Byte.x00) 8192.
Definition wstate : TxState (MemoryStorage * MemoryStorage) := mkTx wmgr (one_page 3 wpage) (Some witness_log) (witness_device, wfs).

Lemma one_page_keyed : block_keyed (one_page 3 wpage).
Proof. intros [i b] p H. cbn [fst snd] in *. by apply one_page_peek in H as (-> & -> & ->). Qed.

Lemma one_page_present : pc_peek 3 0 (one_page 3 wpage) = Some wpage.
Proof. reflexivity. Qed.

Lemma abort_keeps_modified_data_witness :
  exists p', pc_peek 3 0 (tm_abort (wmgr, one_page 3 wpage)).2 = Some p' /\ cp_data p' = cp_data wpage /\ cp_dirty p' = false.
Proof.
  destruct (abort_keeps_modified_data wmgr (one_page 3 wpage) wtxn (3, 0) wpage eq_refl one_page_keyed one_page_present)
    as (_ & p' & H1 & H2 & H3 & _).
  exists p'. split_and!; [exact H1|exact H2|]. apply H3. by apply list_elem_of_singleton.
Defined.

Lemma txids_consecutive_witness :
  exists s', tx_steps (LE := le_codec) (LG := left_device _) (FS := right_device _) (tx_with_mgr (fun _ => tm_new) wstate) [1; 2] s' /\ tm_next_txid (st_mgr s') = 3.
Proof.
  set (s0 := tx_with_mgr (fun _ => tm_new) wstate).
  set (s1 := tx_with_mgr (fun _ => (tm_begin tm_new).2) s0).
  set (tc := tm_abort (st_mgr s1, st_cache s1)).
  set (s2 := mkTx tc.1 tc.2 (st_log s1) (st_dev s1)).
  set (s3 := tx_with_mgr (fun _ => (tm_begin (st_mgr s2)).2) s2).
  assert (Hs : tx_steps (LE := le_codec) (LG := left_device _) (FS := right_device _) s0 [1; 2] s3).
  { apply (steps_begin _ 1 s1); [apply step_begin; reflexivity|]. apply (steps_other _ s2); [apply step_abort|].
    apply (steps_begin _ 2 s3); [apply step_begin; reflexivity|]. apply steps_nil. }
  exists s3. split; [exact Hs|].
  apply (txids_consecutive (LE := le_codec) s0 [1; 2] s3 Hs); vm_compute; [discriminate|reflexivity].
Defined.

Lemma wstate_fs_wf : @st_wf _ _ (right_spec (A := MemoryStorage) memory_storage memory_spec) (st_dev wstate).
Proof. split; [apply zlen_replicate|reflexivity]. Qed.

Lemma commit_durable_witness :
  exists s', commit (LE := le_codec) (LG := left_device _) (FS := right_device _) wstate = (Ok (mkCommitResult 1 1), s') /\
    ms_data (st_dev s').2 = apply_writes [(0, cp_data wpage)] (ms_data wfs).
Proof.
  pose proof le_codec_spec.
  destruct (commit_durable (LE := le_codec) (LG := left_device _) (FS := right_device _)
    (PL := left_spec _ _) (PF := right_spec _ _) (RL := left_reliable _ _ _) (RF := right_reliable _ _ _)
    (SepL := left_right_separate _ _ _ _) (SepF := right_left_separate _ _ _ _) wstate wtxn witness_log 4 [(0, cp_data wpage)])
    as (s' & l' & prev & strm & pad & H1 & H2 & _).
  - reflexivity.
  - reflexivity.
  - apply witness_log_wf.
  - apply witness_device_wf.
  - apply wstate_fs_wf.
  - split; [apply witness_room; vm_compute; discriminate|vm_compute; reflexivity].
  - vm_compute. discriminate.
  - vm_compute. reflexivity.
  - apply Forall_singleton. split; [|split]; vm_compute; [discriminate|reflexivity|discriminate].
  - exists s'. exact (conj H1 H2).
Defined.

Lemma commit_writes_ahead_witness :
  exists s1 s2, journal_step (LE := le_codec) (LG := left_device (B := MemoryStorage) memory_storage) 1 [(3, 0)] s1 = (Ok tt, s2) /\ ms_data (st_dev s2).2 = ms_data wfs.
Proof.
  pose proof le_codec_spec.
  destruct (commit_writes_ahead (LE := le_codec) (LG := left_device _) (FS := right_device _) (PL := left_spec _ _) (PF := right_spec _ _)
    (SepF := right_left_separate _ _ _ _) wstate wtxn) as (s1 & s2 & _ & H2 & H3).
  - reflexivity.
  - apply wstate_fs_wf.
  - vm_compute. discriminate.
  - exists s1, s2. exact (conj H2 H3).
Defined.
