(* ===== verification/Inode.v ===== *)
(** * Inodes ([src/src/inode.rs], [src/src/alloc/imap.rs])

    Inode numbers are resolved by scanning the inode table from the extent
    [s_ait2] of the superblock. The parts of the volume that the scan reads are
    its arguments: that extent, the size of the aggregate, the page cache and
    the device. *)

From S2P Require Import Prelude Types Storage PageCache Devices.
From Stdlib Require Import ZArith Lia.

Section inode.
Context {LE : LittleEndian} {L : Lru PageKey CachedPage} {W : Type} {FS : Storage W}.

Record Inode := mkInode { in_dinode : Dinode; in_ino : Z; in_page_block : Z; in_page_offset : Z }.

(** The fields of the volume that inode lookup reads. *)
Record TableView := mkTable { tv_ait2 : Pxd; tv_agg_size : Z; tv_cache : PageCache }.

(** The fileset and number of a VFS inode number. *)
Definition inode_target (ino : Z) : Z * Z :=
  if FILESYSTEM_I <=? ino then (FILESYSTEM_I, ino - FILESYSTEM_I) else (1, ino).

(** The slots of one page: the offset of the first with the target. *)
Fixpoint scan_page (data : list byte) (target : Z * Z) (slots : list Z) : result (option Z) :=
  match slots with
  | [] => Ok None
  | i :: slots =>
      let off := i * DISIZE in
      let! dinode_bytes := slice data off (off + DISIZE) in
      let fs := read_u32 (zslice dinode_bytes 4 8) in
      let num := read_u32 (zslice dinode_bytes 8 12) in
      if (fs =? target.1) && (num =? target.2) then Ok (Some off) else scan_page data target slots
  end.

(** The page of a table block: from the cache under any inode, else the device. *)
Definition table_page (v : TableView) (block_num : Z) : ST W StorageError (list byte) :=
  match pc_peek_block block_num (tv_cache v) with
  | Some page => sret (cp_data page)
  | None => read_block block_num
  end.

Fixpoint scan_table (v : TableView) (target : Z * Z) (blocks : list Z) : ST W StorageError (option (Z * Z)) :=
  match blocks with
  | [] => sret None
  | block_num :: blocks =>
      if tv_agg_size v <=? block_num then scan_table v target blocks else
      let* data := table_page v block_num in
      let* found := slift (scan_page data target (range 0 INOSPERPAGE)) in
      match found with
      | Some off => sret (Some (block_num, off))
      | None => scan_table v target blocks
      end
  end.

Definition inode_not_found : StorageError := Other "inode {} (fileset={}, number={}) not found in inode table".

(** The blocks scanned: the extent and 32 blocks after it. *)
Definition table_blocks (v : TableView) : list Z :=
  let table_start := pxd_address (tv_ait2 v) in
  let max_scan := pxd_length (tv_ait2 v) + 32 in
  range table_start (table_start + max_scan).

Definition find_inode_page (v : TableView) (ino : Z) : ST W StorageError (Z * Z) :=
  let* found := scan_table v (inode_target ino) (table_blocks v) in
  match found with
  | Some loc => sret loc
  | None => sfail inode_not_found
  end.

(** [parse_dinode] has the statements of [Dinode::parse] with another error type. *)
Definition parse_dinode (data : list byte) : result Dinode :=
  match dinode_parse data with
  | Ok d => Ok d
  | Err msg => Err (Other msg)
  | Panic => Panic
  end.

Definition inode_read (v : TableView) (ino : Z) : ST W StorageError Inode :=
  let* (block, offset) := find_inode_page v ino in
  let* data := match pc_peek ino block (tv_cache v) with
               | Some page => sret (cp_data page)
               | None => read_block block
               end in
  let* dinode_bytes := slift (slice data offset (offset + 512)) in
  let* dinode := slift (parse_dinode dinode_bytes) in
  sret (mkInode dinode ino block offset).

Definition fast_symlink (i : Inode) : option (list byte) :=
  if negb (dinode_is_symlink (in_dinode i)) then None
  else if 192 + 128 <=? zlen (di_u (in_dinode i)) then Some (zslice (di_u (in_dinode i)) 192 (192 + 128)) else None.

(** ** [InodeAllocMap] *)

Definition ino_to_iag (ino : Z) : Z := Z.shiftr ino 12.

(** A zero block size is a division by zero. *)
Definition iag_block (block_size iag_num : Z) : result Z :=
  if block_size =? 0 then Panic else Ok ((AGGR_INODE_TABLE_START + iag_num * 4096) / block_size).

Definition read_iag (block_size iag_num : Z) : ST W StorageError (list byte) :=
  let* block := slift (iag_block block_size iag_num) in read_block block.
End inode.

(** * Properties *)

Section lookup.
Context {LE : LittleEndian} {LES : LittleEndianSpec} {L : Lru PageKey CachedPage}.
Context {W : Type} {FS : Storage W} {SS : StorageSpec W} {SR : StorageReliable W}.

(** What the table holds: the contents of its blocks as the scan sees them. *)
Definition page_view (v : TableView) (w : W) (block : Z) : list byte :=
  match pc_peek_block block (tv_cache v) with
  | Some page => cp_data page
  | None => block_at (contents w) block
  end.

(** The slot of the table at a location. *)
Definition slot_bytes (v : TableView) (w : W) (loc : Z * Z) : list byte :=
  zslice (page_view v w loc.1) loc.2 (loc.2 + DISIZE).

Definition slot_matches (v : TableView) (w : W) (target : Z * Z) (loc : Z * Z) : bool :=
  (read_u32 (zslice (slot_bytes v w loc) 4 8) =? target.1) && (read_u32 (zslice (slot_bytes v w loc) 8 12) =? target.2).

(** The slots of the table in the order of the scan. *)
Definition table_slots (v : TableView) : list (Z * Z) :=
  flat_map (fun b => (fun i => (b, i * DISIZE)) <$> range 0 INOSPERPAGE)
    (List.filter (fun b => negb (tv_agg_size v <=? b)) (table_blocks v)).

(** Every block of the table is whole. *)
Definition table_ok (v : TableView) (w : W) : Prop :=
  0 <= pxd_address (tv_ait2 v) /\
  forall b, b ∈ table_blocks v -> b < tv_agg_size v ->
    zlen (page_view v w b) = BLOCK_SIZE /\ b * BLOCK_SIZE + BLOCK_SIZE <= zlen (contents w).

Lemma scan_page_find v w target b slots :
  zlen (page_view v w b) = BLOCK_SIZE -> Forall (fun i => 0 <= i < INOSPERPAGE) slots ->
  scan_page (page_view v w b) target slots =
  Ok (snd <$> List.find (slot_matches v w target) ((fun i => (b, i * DISIZE)) <$> slots)).
Proof.
  intros Hl Hs. induction Hs as [|i slots Hi Hs IH]; [done|]. cbn [scan_page fmap list_fmap List.find].
  unfold BLOCK_SIZE, PSIZE, DISIZE, INOSPERPAGE in *. rewrite slice_ok by lia. cbn [obind].
  change (zslice (page_view v w b) (i * 512) (i * 512 + 512)) with (slot_bytes v w (b, i * 512)).
  fold (slot_matches v w target (b, i * 512)). destruct (slot_matches v w target (b, i * 512)); [done|]. apply IH.
Qed.

Lemma table_page_run v (w : W) b :
  st_wf w -> 0 <= b -> b * BLOCK_SIZE + BLOCK_SIZE <= zlen (contents w) ->
  exists w', table_page v b w = (Ok (page_view v w b), w') /\ st_wf w' /\ contents w' = contents w.
Proof.
  intros Hw Hb Hr. unfold table_page, page_view. destruct (pc_peek_block b (tv_cache v)); [by exists w|].
  pose proof (st_read_block_ok b w Hw Hb Hr) as Hok. destruct (st_read_block b w Hw Hb) as (Hw' & Hc & _).
  destruct (read_block b w) as [o w']. cbn [fst snd] in *. subst o. by exists w'.
Qed.

Lemma find_app {A} (f : A -> bool) l k :
  List.find f (l ++ k) = match List.find f l with Some x => Some x | None => List.find f k end.
Proof. induction l as [|x l IH]; cbn [app List.find]; [done|]. by destruct (f x). Qed.

Lemma find_slot_block v w target b slots loc :
  List.find (slot_matches v w target) ((fun i => (b, i * DISIZE)) <$> slots) = Some loc -> loc.1 = b.
Proof.
  intros [Hin _]%find_some. apply in_map_iff in Hin as (i & <- & _). done.
Qed.

(** The scan of the table finds the first matching slot in order. *)
Lemma scan_table_find v target blocks (w0 w : W) :
  st_wf w -> contents w = contents w0 ->
  Forall (fun b => 0 <= b /\ (b < tv_agg_size v ->
    zlen (page_view v w0 b) = BLOCK_SIZE /\ b * BLOCK_SIZE + BLOCK_SIZE <= zlen (contents w0))) blocks ->
  exists w', scan_table v target blocks w =
    (Ok (List.find (slot_matches v w0 target) (flat_map (fun b => (fun i => (b, i * DISIZE)) <$> range 0 INOSPERPAGE)
       (List.filter (fun b => negb (tv_agg_size v <=? b)) blocks))), w') /\ st_wf w' /\ contents w' = contents w0.
Proof.
  intros Hw Hc Hb. revert w Hw Hc. induction Hb as [|b blocks [Hb0 Hb] Hbs IH]; intros w Hw Hc; cbn [scan_table List.filter].
  { by exists w. }
  destruct (tv_agg_size v <=? b) eqn:E; cbn [negb flat_map]; [by apply IH|]. destruct Hb as [Hl Hr]; [lia|].
  assert (Hv : page_view v w b = page_view v w0 b) by (unfold page_view; by rewrite Hc).
  destruct (table_page_run v w b Hw Hb0) as (w1 & Hrun & Hw1 & Hc1); [by rewrite Hc|]. rewrite Hv in Hrun.
  rewrite (sbind_ok _ _ _ _ _ Hrun). rewrite (scan_page_find v w0 target b _ Hl).
  2: { apply Forall_forall. intros i Hi. by apply elem_of_range in Hi. }
  unfold sbind, slift. rewrite find_app.
  destruct (List.find _ ((fun i => (b, i * DISIZE)) <$> range 0 INOSPERPAGE)) as [loc|] eqn:Ef; cbn [fmap option_fmap option_map].
  - exists w1. apply find_slot_block in Ef. split_and!; [|done|congruence]. destruct loc as [b' off]. cbn [fst snd] in *. by subst b'.
  - apply IH; [done|congruence].
Qed.

Lemma table_forall v (w : W) :
  table_ok v w -> Forall (fun b => 0 <= b /\ (b < tv_agg_size v ->
    zlen (page_view v w b) = BLOCK_SIZE /\ b * BLOCK_SIZE + BLOCK_SIZE <= zlen (contents w))) (table_blocks v).
Proof.
  intros [H0 Ht]. apply Forall_forall. intros b Hb. split; [|by apply Ht]. apply elem_of_range in Hb. lia.
Qed.

Lemma find_inode_page_spec v ino (w : W) :
  st_wf w -> table_ok v w ->
  exists w', find_inode_page v ino w =
    (match List.find (slot_matches v w (inode_target ino)) (table_slots v) with
     | Some loc => Ok loc
     | None => Err inode_not_found
     end, w') /\ st_wf w' /\ contents w' = contents w.
Proof.
  intros Hw Ht. destruct (scan_table_find v (inode_target ino) (table_blocks v) w w Hw eq_refl (table_forall v w Ht)) as (w' & Hrun & Hw' & Hc).
  exists w'. split; [|done]. unfold find_inode_page. rewrite (sbind_ok _ _ _ _ _ Hrun). unfold table_slots. by destruct (List.find _ _).
Qed.

Lemma inode_read_run v ino (w : W)
  (Hw : st_wf w) (Ht : table_ok v w)
  (Hk : forall b, b ∈ table_blocks v -> pc_peek ino b (tv_cache v) = pc_peek_block b (tv_cache v)) :
  match List.find (slot_matches v w (inode_target ino)) (table_slots v) with
  | Some loc => exists d w', inode_read v ino w = (Ok (mkInode d ino loc.1 loc.2), w') /\
      dinode_parse (slot_bytes v w loc) = Ok d /\ dinode_bytes d = slot_bytes v w loc /\ st_wf w' /\ contents w' = contents w
  | None => (inode_read v ino w).1 = Err inode_not_found
  end.
Proof.
  destruct (find_inode_page_spec v ino w Hw Ht) as (w1 & Hfind & Hw1 & Hc1).
  destruct (List.find _ (table_slots v)) as [[b off]|] eqn:Ef.
  - apply find_some in Ef as [Hin _]. apply in_flat_map in Hin as (b' & Hb' & Hin). apply in_map_iff in Hin as (i & [= <- <-] & Hi).
    apply List.filter_In in Hb' as [Hb' Hag]. apply list_elem_of_In in Hb', Hi. apply elem_of_range in Hi.
    destruct Ht as [H0 Ht]. destruct (Ht b' Hb') as [Hl Hr]; [destruct (tv_agg_size v <=? b') eqn:E; [done|lia]|].
    assert (Hb0 : 0 <= b') by (apply elem_of_range in Hb'; lia).
    assert (Hv : page_view v w1 b' = page_view v w b') by (unfold page_view; by rewrite Hc1).
    destruct (table_page_run v w1 b' Hw1 Hb0) as (w2 & Hpage & Hw2 & Hc2); [by rewrite Hc1|]. rewrite Hv in Hpage.
    unfold BLOCK_SIZE, PSIZE, DISIZE, INOSPERPAGE in *.
    destruct (dinode_parse_bytes (slot_bytes v w (b', i * 512))) as (d & Hd & Hbytes).
    { unfold slot_bytes, DISIZE. cbn [fst snd]. rewrite zlen_zslice; lia. }
    exists d, w2. split_and!; [|done|done|done|congruence]. unfold inode_read. rewrite (sbind_ok _ _ _ _ _ Hfind).
    rewrite (Hk b' Hb'). fold (table_page v b'). rewrite (sbind_ok _ _ _ _ _ Hpage).
    unfold sbind, slift. rewrite slice_ok by lia. unfold slot_bytes, DISIZE in Hd. cbn [fst snd] in Hd. unfold parse_dinode. by rewrite Hd.
  - unfold inode_read, sbind. by rewrite Hfind.
Qed.

(** Looking an inode up: on a device that does not fail, [Inode::read] finds
    the first slot of the inode table that carries the fileset and the number of
    the inode, and returns the inode whose 512 bytes are that slot, when the
    block is cached under this inode or not at all; when no slot carries them
    it reports that the inode does not exist. *)
Theorem inode_read_correct v ino (w : W)
  (Hw : st_wf w) (Ht : table_ok v w)
  (Hk : forall b, b ∈ table_blocks v -> pc_peek ino b (tv_cache v) = pc_peek_block b (tv_cache v)) :
  match List.find (slot_matches v w (inode_target ino)) (table_slots v) with
  | Some loc => exists d w', inode_read v ino w = (Ok (mkInode d ino loc.1 loc.2), w') /\
      dinode_bytes d = slot_bytes v w loc /\ contents w' = contents w
  | None => (inode_read v ino w).1 = Err inode_not_found
  end.
Proof.
  pose proof (inode_read_run v ino w Hw Ht Hk) as H. destruct (List.find _ (table_slots v)); [|done].
  destruct H as (d & w' & H1 & _ & H2 & _ & H3). by exists d, w'.
Qed.
End lookup.

(** ** Witness *)

(** A table of one block with inode 2 of the file system in its second slot. *)
Definition wtable : TableView := mkTable (mkPxd (le_bytes 4 1) (le_bytes 4 0)) 1 (pc_new 4).
Definition wtable_device : MemoryStorage :=
  mkMem (zeros 512 ++ zeros 4 ++ le_bytes 4 16 ++ le_bytes 4 2 ++ zeros (Z.to_nat 3572)) 4096.

Lemma wtable_ok : table_ok (LE := le_codec) wtable wtable_device.
Proof.
  split; [vm_compute; discriminate|]. intros b Hb Ha. apply elem_of_range in Hb as [Hb _].
  change (pxd_address (LE := le_codec) (tv_ait2 wtable)) with 0 in Hb. change (tv_agg_size wtable) with 1 in Ha.
  replace b with 0 by lia. split; vm_compute; [reflexivity|discriminate].
Qed.

Lemma inode_read_correct_witness :
  exists d w', inode_read (LE := le_codec) wtable 18 wtable_device = (Ok (mkInode d 18 0 512), w') /\
    dinode_bytes d = zslice (ms_data wtable_device) 512 1024.
Proof.
  pose proof le_codec_spec as Hle.
  pose proof (inode_read_correct (LE := le_codec) wtable 18 wtable_device) as H.
  replace (List.find _ _) with (Some (0, 512)) in H by (vm_compute; reflexivity).
  destruct H as (d & w' & H1 & H2 & _).
  - split; vm_compute; reflexivity.
  - apply wtable_ok.
  - intros b _. reflexivity.
  - exists d, w'. split; [exact H1|]. rewrite H2. vm_compute. reflexivity.
Defined.
