(* ===== verification/Geometry.v ===== *)
(** * Device geometry ([src/src/storage/geometry.rs], [src/src/storage/device_size.rs])

    Capacity and sector size of an open file or device, and the check of a
    superblock against them. What the operating system answers about a handle
    (its metadata and the [ioctl] calls) is the record [Handle]; the three
    [cfg(target_os)] variants of the detection are the values of [Platform]. *)

From S2P Require Import Prelude Types Storage.
From Stdlib Require Import ZArith Lia.

Inductive FileKind := RegularFile | BlockDevice | CharDevice | OtherFile.

#[global] Instance FileKind_eq_dec : EqDecision FileKind.
Proof. solve_decision. Defined.

Record Metadata := mkMeta { meta_kind : FileKind; meta_len : Z }.

(** An open handle: [metadata()], and the calls for the size and the sector
    size of a device, each a value or the error of the system. *)
Record Handle := mkHandle {
  h_metadata : outcome string Metadata; h_media_size : outcome string Z; h_sector_size : outcome string Z }.

Inductive Platform := Linux | FreeBSD | OtherOs.

Record StorageGeometry := mkGeometry { g_media_size : Z; g_num_sectors : Z; g_sector_size : Z }.

(** [?] on an [io::Result]. *)
Definition io_result {A} (m : outcome string A) : result A :=
  match m with Ok a => Ok a | Err msg => Err (Io msg) | Panic => Panic end.

(** The answer of the sector size call, or 512 when it fails, at least 1. *)
Definition device_sector (h : Handle) : Z :=
  Z.max (match h_sector_size h with Ok n => n | _ => 512 end) 1.

Definition stat_geometry (len : Z) : StorageGeometry := mkGeometry len (if 0 <? len then len / 512 else 0) 512.

Definition from_device_linux (h : Handle) : result StorageGeometry :=
  let! meta := io_result (h_metadata h) in
  if bool_decide (meta_kind meta = BlockDevice) then
    let! size := io_result (h_media_size h) in
    let sector_size := device_sector h in
    Ok (mkGeometry size (size / sector_size) sector_size)
  else
    let size :=
      if bool_decide (meta_kind meta = CharDevice) then
        match h_media_size h with
        | Ok size_val => if 0 <? size_val then size_val else meta_len meta
        | _ => meta_len meta
        end
      else meta_len meta in
    Ok (stat_geometry size).

(** [size] is an [off_t]; [size as u64] wraps. *)
Definition from_device_freebsd (h : Handle) : result StorageGeometry :=
  let! meta := io_result (h_metadata h) in
  if bool_decide (meta_kind meta = CharDevice) then
    let! size := io_result (h_media_size h) in
    let sector_size := device_sector h in
    Ok (mkGeometry (as_u64 size) (as_u64 size / sector_size) sector_size)
  else Ok (stat_geometry (meta_len meta)).

Definition from_device_other (h : Handle) : result StorageGeometry :=
  let! meta := io_result (h_metadata h) in Ok (stat_geometry (meta_len meta)).

Definition from_device (p : Platform) (h : Handle) : result StorageGeometry :=
  match p with
  | Linux => from_device_linux h
  | FreeBSD => from_device_freebsd h
  | OtherOs => from_device_other h
  end.

Definition from_file (p : Platform) (h : Handle) : result StorageGeometry :=
  let! meta := io_result (h_metadata h) in
  if bool_decide (meta_kind meta = RegularFile)
  then Ok (mkGeometry (meta_len meta) (meta_len meta / 512) 512)
  else match from_device p h with
       | Err _ => Ok (stat_geometry (meta_len meta))
       | r => r
       end.

(** [device_size::get_storage_size]. *)
Definition get_storage_size (h : Handle) : result Z :=
  let! meta := io_result (h_metadata h) in
  if bool_decide (meta_kind meta = RegularFile) then Ok (meta_len meta) else io_result (h_media_size h).

Definition num_fs_blocks (g : StorageGeometry) : Z := g_media_size g / PSIZE.
Definition as_parts (g : StorageGeometry) : Z * Z * Z := (g_media_size g, PSIZE, g_sector_size g).

(** [u32::is_power_of_two]. *)
Definition is_power_of_two (n : Z) : bool := (0 <? n) && (Z.land n (n - 1) =? 0).

Definition is_valid_sector_size (n : Z) : bool := negb (n =? 0) && is_power_of_two n && (n <=? 4096).

(** A zero sector size is a division by zero. *)
Definition sector_size_compatible (g : StorageGeometry) : result bool :=
  if g_sector_size g =? 0 then Panic else Ok (PSIZE mod g_sector_size g =? 0).

Section against_super.
Context {LE : LittleEndian}.

Definition validate_against_superblock (sb : JfsSuperblock) (g : StorageGeometry) : result unit :=
  if negb (is_valid_sector_size (g_sector_size g)) then Err (Other "invalid sector size: {}") else
  let! compatible := sector_size_compatible g in
  if negb compatible then Err (Other "filesystem block size {} is not a multiple of sector size {}") else
  if g_media_size g <? SUPER1_OFF + PSIZE then Err (Other "device too small to hold JFS superblock") else
  let! fs_declared_size := mul_u64 (sb_aggregate_size sb) (sb_block_size sb) in
  if g_media_size g <? fs_declared_size then Err (Other "device media size {} is smaller than filesystem declared size {}")
  else Ok tt.
End against_super.

(** * Properties *)

(** The powers of two that a sector size may be. *)
Lemma valid_sector_sizes n :
  is_valid_sector_size n = true <-> n ∈ [1; 2; 4; 8; 16; 32; 64; 128; 256; 512; 1024; 2048; 4096].
Proof.
  split.
  - unfold is_valid_sector_size, is_power_of_two. intros H.
    assert (Hn : 0 < n <= 4096) by lia.
    assert (Hall : forallb (fun n => implb (Z.land n (n - 1) =? 0)
      (bool_decide (n ∈ [1; 2; 4; 8; 16; 32; 64; 128; 256; 512; 1024; 2048; 4096]))) (range 1 4097) = true) by (vm_compute; reflexivity).
    rewrite forallb_forall in Hall. specialize (Hall n ltac:(apply list_elem_of_In, elem_of_range; lia)).
    destruct (Z.land n (n - 1) =? 0); [|rewrite ?andb_false_r in H; lia]. by apply bool_decide_eq_true in Hall.
  - intros H. repeat (apply elem_of_cons in H as [->|H]; [reflexivity|]). by apply not_elem_of_nil in H.
Qed.

(** Every sector size that is accepted divides the block: the compatibility
    check never refuses after the first one. *)
Lemma valid_sector_compatible g :
  is_valid_sector_size (g_sector_size g) = true -> sector_size_compatible g = Ok true.
Proof.
  intros H%valid_sector_sizes. unfold sector_size_compatible.
  repeat (apply elem_of_cons in H as [->|H]; [reflexivity|]). by apply not_elem_of_nil in H.
Qed.

(** Detection never reports a sector size of zero, nor panics by itself. *)
Lemma from_file_sector p h g : from_file p h = Ok g -> 0 < g_sector_size g.
Proof.
  unfold from_file, from_device, from_device_linux, from_device_freebsd, from_device_other, io_result, stat_geometry, device_sector, obind.
  intros H. repeat (case_match; simplify_eq; cbn [g_sector_size]; try lia).
Qed.

Section geometry_facts.
Context {LE : LittleEndian}.

(** The superblock check accepts exactly the volumes whose declared size
    fits the device, with an admissible sector size and room for the
    superblock, as long as the declared size is a u64. *)
Theorem validate_against_superblock_iff sb g :
  sb_aggregate_size sb * sb_block_size sb < 2 ^ 64 ->
  validate_against_superblock sb g = Ok tt <->
  (g_sector_size g ∈ [1; 2; 4; 8; 16; 32; 64; 128; 256; 512; 1024; 2048; 4096] /\
   SUPER1_OFF + PSIZE <= g_media_size g /\ sb_aggregate_size sb * sb_block_size sb <= g_media_size g).
Proof.
  intros Hs. rewrite <- valid_sector_sizes. unfold validate_against_superblock.
  destruct (is_valid_sector_size (g_sector_size g)) eqn:E; cbn [negb]; [|by split; [|intros []]].
  rewrite (valid_sector_compatible g E). cbn [obind negb].
  destruct (Z.ltb_spec (g_media_size g) (SUPER1_OFF + PSIZE)); [split; [done|lia]|].
  rewrite mul_u64_ok by done. cbn [obind].
  destruct (Z.ltb_spec (g_media_size g) (sb_aggregate_size sb * sb_block_size sb)); split; (done || lia).
Qed.

(** A superblock whose declared size is not a u64 stops the process. *)
Lemma validate_against_superblock_overflow sb g :
  is_valid_sector_size (g_sector_size g) = true -> SUPER1_OFF + PSIZE <= g_media_size g ->
  2 ^ 64 <= sb_aggregate_size sb * sb_block_size sb -> validate_against_superblock sb g = Panic.
Proof.
  intros E Hm Hs. unfold validate_against_superblock. rewrite E. cbn [negb]. rewrite (valid_sector_compatible g E). cbn [obind negb].
  destruct (Z.ltb_spec (g_media_size g) (SUPER1_OFF + PSIZE)); [lia|]. unfold mul_u64.
  destruct (Z.ltb_spec (sb_aggregate_size sb * sb_block_size sb) (2 ^ 64)); [lia|done].
Qed.
End geometry_facts.

(** A volume of ten blocks on a device with 512-byte sectors. *)
Definition ten_blocks : JfsSuperblock :=
  mkSuper [] [] (le_bytes 8 10) (le_bytes 4 4096) [] [] [] [] [] [] [] [] [] pxd_default pxd_default [] [] pxd_default pxd_default
    timestruc_default [] Byte.x00 [] [] pxd_default pxd_default [] [] [].

Lemma validate_against_superblock_iff_witness : validate_against_superblock (LE := le_codec) ten_blocks (mkGeometry 40960 80 512) = Ok tt.
Proof.
  apply (validate_against_superblock_iff (LE := le_codec)).
  - vm_compute. reflexivity.
  - split; [|split]; vm_compute; [repeat (left; reflexivity) || right|discriminate|discriminate].
Defined.
