(* ===== verification/Utf.v ===== *)
(** * Rust strings

    A [&str] is the list of its Unicode scalar values. The volume turns names
    into UTF-16 units ([encode_utf16]) and into UTF-8 bytes ([as_bytes]) and
    back with the lossy decoders of the standard library. *)

From S2P Require Import Prelude.
From Stdlib Require Import ZArith Lia.

(** [char]: a Unicode scalar value. *)
Definition scalar (c : Z) : Prop := 0 <= c < 0xD800 \/ 0xE000 <= c < 0x110000.

Definition REPLACEMENT_CHARACTER : Z := 0xFFFD.

(** ** UTF-16 *)

Definition utf16_units (c : Z) : list Z :=
  if c <? 0x10000 then [c] else [0xD800 + (c - 0x10000) / 1024; 0xDC00 + (c - 0x10000) mod 1024].

Definition encode_utf16 (s : list Z) : list Z := concat (utf16_units <$> s).

Definition high_surrogate (u : Z) : bool := (0xD800 <=? u) && (u <? 0xDC00).
Definition low_surrogate (u : Z) : bool := (0xDC00 <=? u) && (u <? 0xE000).

(** An unpaired surrogate decodes to the replacement character. *)
Fixpoint from_utf16_lossy (us : list Z) : list Z :=
  match us with
  | [] => []
  | u :: us' =>
      if high_surrogate u then
        match us' with
        | u2 :: us'' =>
            if low_surrogate u2 then (0x10000 + (u - 0xD800) * 1024 + (u2 - 0xDC00)) :: from_utf16_lossy us''
            else REPLACEMENT_CHARACTER :: from_utf16_lossy us'
        | [] => [REPLACEMENT_CHARACTER]
        end
      else if low_surrogate u then REPLACEMENT_CHARACTER :: from_utf16_lossy us'
      else u :: from_utf16_lossy us'
  end.

(** ** UTF-8 *)

Definition utf8_bytes (c : Z) : list byte :=
  bof <$>
  (if c <? 0x80 then [c]
   else if c <? 0x800 then [0xC0 + c / 64; 0x80 + c mod 64]
   else if c <? 0x10000 then [0xE0 + c / 4096; 0x80 + c / 64 mod 64; 0x80 + c mod 64]
   else [0xF0 + c / 262144; 0x80 + c / 4096 mod 64; 0x80 + c / 64 mod 64; 0x80 + c mod 64]).

Definition as_bytes (s : list Z) : list byte := concat (utf8_bytes <$> s).

Definition between (a b x : Z) : bool := (a <=? x) && (x <=? b).
Definition continuation (b : byte) : bool := between 0x80 0xBF (bval b).
(** The second bytes that may follow the first of a sequence of three or four. *)
Definition second_of_three (b0 b1 : byte) : bool :=
  if bval b0 =? 0xE0 then between 0xA0 0xBF (bval b1)
  else if bval b0 =? 0xED then between 0x80 0x9F (bval b1) else continuation b1.
Definition second_of_four (b0 b1 : byte) : bool :=
  if bval b0 =? 0xF0 then between 0x90 0xBF (bval b1)
  else if bval b0 =? 0xF4 then between 0x80 0x8F (bval b1) else continuation b1.

(** Each maximal invalid prefix decodes to one replacement character. *)
Fixpoint from_utf8_lossy (bs : list byte) : list Z :=
  match bs with
  | [] => []
  | b0 :: t0 =>
      let bad := REPLACEMENT_CHARACTER in
      if bval b0 <? 0x80 then bval b0 :: from_utf8_lossy t0
      else if between 0xC2 0xDF (bval b0) then
        match t0 with
        | b1 :: t1 => if continuation b1 then ((bval b0 - 0xC0) * 64 + (bval b1 - 0x80)) :: from_utf8_lossy t1
                      else bad :: from_utf8_lossy t0
        | [] => [bad]
        end
      else if between 0xE0 0xEF (bval b0) then
        match t0 with
        | b1 :: t1 =>
            if second_of_three b0 b1 then
              match t1 with
              | b2 :: t2 =>
                  if continuation b2
                  then ((bval b0 - 0xE0) * 4096 + (bval b1 - 0x80) * 64 + (bval b2 - 0x80)) :: from_utf8_lossy t2
                  else bad :: from_utf8_lossy t1
              | [] => [bad]
              end
            else bad :: from_utf8_lossy t0
        | [] => [bad]
        end
      else if between 0xF0 0xF4 (bval b0) then
        match t0 with
        | b1 :: t1 =>
            if second_of_four b0 b1 then
              match t1 with
              | b2 :: t2 =>
                  if continuation b2 then
                    match t2 with
                    | b3 :: t3 =>
                        if continuation b3
                        then ((bval b0 - 0xF0) * 262144 + (bval b1 - 0x80) * 4096 + (bval b2 - 0x80) * 64 + (bval b3 - 0x80))
                               :: from_utf8_lossy t3
                        else bad :: from_utf8_lossy t2
                    | [] => [bad]
                    end
                  else bad :: from_utf8_lossy t1
              | [] => [bad]
              end
            else bad :: from_utf8_lossy t0
        | [] => [bad]
        end
      else bad :: from_utf8_lossy t0
  end.

(** * Facts *)

(** The decoders test ranges of concrete bounds: reduce the tests that hold. *)
Ltac ranges :=
  repeat match goal with
  | |- context [?a <? ?b] => first [ rewrite (proj2 (Z.ltb_lt a b)) by lia | rewrite (proj2 (Z.ltb_ge a b)) by lia ]
  | |- context [?a <=? ?b] => first [ rewrite (proj2 (Z.leb_le a b)) by lia | rewrite (proj2 (Z.leb_gt a b)) by lia ]
  end; cbn [andb].

Lemma from_utf16_lossy_char c us : scalar c -> from_utf16_lossy (utf16_units c ++ us) = c :: from_utf16_lossy us.
Proof.
  intros Hc. unfold utf16_units. destruct (Z.ltb_spec c 0x10000); cbn [app from_utf16_lossy]; unfold high_surrogate, low_surrogate.
  - destruct Hc; ranges; done.
  - destruct Hc as [|Hc]; [lia|]. assert (Hd := Z.div_mod (c - 0x10000) 1024 ltac:(lia)).
    assert (Hm := Z.mod_pos_bound (c - 0x10000) 1024 ltac:(lia)). ranges. f_equal. lia.
Qed.

Lemma from_utf16_lossy_encode s : Forall scalar s -> from_utf16_lossy (encode_utf16 s) = s.
Proof.
  unfold encode_utf16. induction 1 as [|c s Hc Hs IH]; cbn [fmap list_fmap concat]; [done|].
  rewrite from_utf16_lossy_char by done. by rewrite IH.
Qed.

(** A name has at least one unit per character. *)
Lemma encode_utf16_nil s : encode_utf16 s = [] -> s = [].
Proof. destruct s as [|c s]; [done|]. cbn. unfold utf16_units. by case_match. Qed.

Lemma encode_utf16_inj s1 s2 : Forall scalar s1 -> Forall scalar s2 -> encode_utf16 s1 = encode_utf16 s2 -> s1 = s2.
Proof. intros H1 H2 He. by rewrite <- (from_utf16_lossy_encode s1), He, from_utf16_lossy_encode. Qed.

Lemma encode_utf16_range s : Forall scalar s -> Forall (fun u => 0 <= u < 2 ^ 16) (encode_utf16 s).
Proof.
  unfold encode_utf16. induction 1 as [|c s Hc Hs IH]; cbn [fmap list_fmap concat]; [done|]. apply Forall_app. split; [|done].
  unfold utf16_units. destruct Hc; destruct (Z.ltb_spec c 0x10000); repeat constructor; try lia; Z.div_mod_to_equations; lia.
Qed.

(** The digits of a character in base 64. *)
Lemma digits64 c n : 0 < n -> 0 <= c -> exists q r, c / n = q /\ c mod n = r /\ c = n * q + r /\ 0 <= r < n /\ 0 <= q.
Proof.
  intros Hn Hc. exists (c / n), (c mod n). pose proof (Z.div_mod c n ltac:(lia)). pose proof (Z.mod_pos_bound c n Hn).
  pose proof (Z.div_pos c n Hc Hn). done.
Qed.

(** Sequences of two, three and four bytes that pass their tests. *)
Lemma utf8_two b0 b1 t :
  (bval b0 <? 0x80) = false -> between 0xC2 0xDF (bval b0) = true -> continuation b1 = true ->
  from_utf8_lossy (b0 :: b1 :: t) = ((bval b0 - 0xC0) * 64 + (bval b1 - 0x80)) :: from_utf8_lossy t.
Proof. intros H1 H2 H3. remember (b1 :: t) as t0 eqn:Ht. cbn [from_utf8_lossy]. rewrite H1, H2, Ht, H3. done. Qed.

Lemma utf8_three b0 b1 b2 t :
  (bval b0 <? 0x80) = false -> between 0xC2 0xDF (bval b0) = false -> between 0xE0 0xEF (bval b0) = true ->
  second_of_three b0 b1 = true -> continuation b2 = true ->
  from_utf8_lossy (b0 :: b1 :: b2 :: t) =
  ((bval b0 - 0xE0) * 4096 + (bval b1 - 0x80) * 64 + (bval b2 - 0x80)) :: from_utf8_lossy t.
Proof. intros H1 H2 H3 H4 H5. remember (b1 :: b2 :: t) as t0 eqn:Ht. cbn [from_utf8_lossy]. rewrite H1, H2, H3, Ht, H4, H5. done. Qed.

Lemma utf8_four b0 b1 b2 b3 t :
  (bval b0 <? 0x80) = false -> between 0xC2 0xDF (bval b0) = false -> between 0xE0 0xEF (bval b0) = false ->
  between 0xF0 0xF4 (bval b0) = true -> second_of_four b0 b1 = true -> continuation b2 = true -> continuation b3 = true ->
  from_utf8_lossy (b0 :: b1 :: b2 :: b3 :: t) =
  ((bval b0 - 0xF0) * 262144 + (bval b1 - 0x80) * 4096 + (bval b2 - 0x80) * 64 + (bval b3 - 0x80)) :: from_utf8_lossy t.
Proof.
  intros H1 H2 H3 H4 H5 H6 H7. remember (b1 :: b2 :: b3 :: t) as t0 eqn:Ht. cbn [from_utf8_lossy].
  rewrite H1, H2, H3, H4, Ht, H5, H6, H7. done.
Qed.

Lemma from_utf8_lossy_char c bs : scalar c -> from_utf8_lossy (utf8_bytes c ++ bs) = c :: from_utf8_lossy bs.
Proof.
  intros Hc. assert (Hc' : 0 <= c < 0x110000) by (unfold scalar in Hc; lia). unfold utf8_bytes.
  replace (c / 262144) with (c / 64 / 64 / 64) by (rewrite !Z.div_div by lia; done).
  replace (c / 4096) with (c / 64 / 64) by (rewrite Z.div_div by lia; done).
  destruct (digits64 c 64) as (q0 & r0 & -> & -> & H0 & H0r & H0q); [lia..|].
  destruct (digits64 q0 64) as (q1 & r1 & -> & -> & H1 & H1r & H1q); [lia..|].
  destruct (digits64 q1 64) as (q2 & r2 & -> & -> & H2 & H2r & H2q); [lia..|].
  destruct (Z.ltb_spec c 0x80); [|destruct (Z.ltb_spec c 0x800); [|destruct (Z.ltb_spec c 0x10000)]]; cbn [fmap list_fmap app].
  - cbn [from_utf8_lossy]. rewrite bval_bof, Z.mod_small by lia. ranges. done.
  - rewrite utf8_two; unfold continuation, between; rewrite ?bval_bof, ?Z.mod_small by lia; [f_equal; lia|lia..].
  - rewrite utf8_three; unfold second_of_three, continuation, between; rewrite ?bval_bof, ?Z.mod_small by lia; [f_equal; lia|try lia..].
    destruct (Z.eqb_spec (0xE0 + q1) 0xE0); [lia|]. destruct (Z.eqb_spec (0xE0 + q1) 0xED); destruct Hc; lia.
  - rewrite utf8_four; unfold second_of_four, continuation, between; rewrite ?bval_bof, ?Z.mod_small by lia; [f_equal; lia|try lia..].
    destruct (Z.eqb_spec (0xF0 + q2) 0xF0); [lia|]. destruct (Z.eqb_spec (0xF0 + q2) 0xF4); lia.
Qed.

Lemma from_utf8_lossy_bytes s : Forall scalar s -> from_utf8_lossy (as_bytes s) = s.
Proof.
  unfold as_bytes. induction 1 as [|c s Hc Hs IH]; cbn [fmap list_fmap concat]; [done|].
  rewrite from_utf8_lossy_char by done. by rewrite IH.
Qed.

Lemma as_bytes_inj s1 s2 : Forall scalar s1 -> Forall scalar s2 -> as_bytes s1 = as_bytes s2 -> s1 = s2.
Proof. intros H1 H2 He. by rewrite <- (from_utf8_lossy_bytes s1), He, from_utf8_lossy_bytes. Qed.
