(* ===== verification/Volume.v ===== *)
(** * The mounted volume ([src/src/volume.rs])

    The state of a mounted volume, the mount sequence and the transaction
    calls. The journal of a volume is inline: [log_storage] is a clone of the
    [Arc] of the file system's device, or absent, and the allocator holds
    another clone. The device therefore occurs once in the state ([v_storage]):
    the allocator is kept without it ([BlockAllocMap unit]) and is handed the
    device when it runs, and the journal runs on the same [Storage] instance. *)

From stdpp Require Import gmap.
From Stdlib Require Import ZArith Lia.
From S2P Require Import Prelude Types Storage PageCache Dmap LogMgr Devices Recovery Transaction Dtree Inode Geometry.

(** The order in which a [HashSet] is iterated. *)
Class HashOrder := { hash_order : gset Z -> list Z }.

(** [storage.as_any().downcast_ref::<FileStorage>()]: the geometry when the
    device is a [FileStorage]. *)
Class AsAny (W : Type) := { as_file : W -> option StorageGeometry }.

#[export] Instance memory_as_any : AsAny MemoryStorage := {| as_file _ := None |}.

(** ** The superblock *)

Section super.
Context {LE : LittleEndian}.

Definition super_default : JfsSuperblock :=
  mkSuper (zeros 4) (zeros 4) (zeros 8) (zeros 4) (zeros 2) (zeros 2) (zeros 4) (zeros 2) (zeros 2) (zeros 4)
    (zeros 4) (zeros 4) (zeros 4) pxd_default pxd_default (zeros 4) (zeros 4) pxd_default pxd_default
    timestruc_default (zeros 4) Byte.x00 (zeros 11) (zeros 8) pxd_default pxd_default (zeros 16) (zeros 16) (zeros 16).

Definition sb_inline_log_pxd (sb : JfsSuperblock) : Pxd := s_logpxd sb.

Definition sb_with_state (state : list byte) (sb : JfsSuperblock) : JfsSuperblock :=
  mkSuper (s_magic sb) (s_version sb) (s_size sb) (s_bsize sb) (s_l2bsize sb) (s_l2bfactor sb) (s_pbsize sb)
    (s_l2pbsize sb) (s_pad sb) (s_agsize sb) (s_flag sb) state (s_compress sb) (s_ait2 sb) (s_aim2 sb)
    (s_logdev sb) (s_logserial sb) (s_logpxd sb) (s_fsckpxd sb) (s_time sb) (s_fsckloglen sb) (s_fscklog sb)
    (s_fpack sb) (s_xsize sb) (s_xfsckpxd sb) (s_xlogpxd sb) (s_uuid sb) (s_label sb) (s_loguuid sb).

(** [if data.len() >= b { field = Pxd::from_bytes(&data[a..b]) }]. *)
Definition super_pxd (data : list byte) (a b : Z) : Pxd :=
  if b <=? zlen data then pxd_from_bytes (zslice data a b) else pxd_default.

(** The fields [read_super] fills, the others stay at their default; two
    fields are read under the bound of the field that follows them. *)
Definition parse_super (data : list byte) : JfsSuperblock :=
  let d := super_default in
  mkSuper (super_field data 0 4 4) (super_field data 4 8 4) (super_field data 8 16 8) (super_field data 16 20 4)
    (if 24 <=? zlen data then zslice data 20 22 else zeros 2) (super_field data 22 24 2)
    (if 32 <=? zlen data then zslice data 24 28 else zeros 4) (if 32 <=? zlen data then zslice data 28 30 else zeros 2)
    (super_field data 30 32 2) (super_field data 32 36 4) (super_field data 36 40 4) (super_field data 40 44 4)
    (super_field data 44 48 4) (super_pxd data 48 56) (super_pxd data 56 64) (s_logdev d) (s_logserial d)
    (super_pxd data 72 80) (s_fsckpxd d) (s_time d) (s_fsckloglen d) (s_fscklog d) (s_fpack d) (s_xsize d)
    (s_xfsckpxd d) (s_xlogpxd d) (s_uuid d) (s_label d) (s_loguuid d).

Definition vol_read_super {W} `{Storage W} : ST W StorageError JfsSuperblock :=
  let* data := read_bytes SUPER1_OFF PSIZE in sret (parse_super data).

Definition validate_super (sb : JfsSuperblock) : result unit :=
  if negb (sb_is_valid_magic sb) then Err InvalidSuperblock else
  if (sb_version sb <? 1) || (2 <? sb_version sb) then Err (Other "unsupported JFS version: {}") else
  Ok tt.
End super.

(** ** State *)

Section volume.
Context {LE : LittleEndian} {L : Lru PageKey CachedPage} {IOK : IoKind} {HO : HashOrder}.
Context {W : Type} {FS : Storage W} {AA : AsAny W}.

Record Volume := mkVolume {
  v_sb : JfsSuperblock;
  v_log : option LogManager;
  v_tx_mgr : TransactionManager;
  v_storage : W;
  v_log_storage : bool;
  v_page_cache : PageCache;
  v_block_size : Z;
  v_l2bsize : Z;
  v_agg_size : Z;
  v_ag_size : Z;
  v_num_ag : Z;
  v_root_ino : Z;
  v_bmap : option (BlockAllocMap unit);
  v_open_handles : gmap Z Z }.

Abbreviation VM := (ST Volume StorageError).

(** The fields that the operations change. *)
Definition v_set (v : Volume) (sb : JfsSuperblock) (log : option LogManager) (t : TransactionManager) (w : W)
  (c : PageCache) (b : option (BlockAllocMap unit)) (h : gmap Z Z) : Volume :=
  mkVolume sb log t w (v_log_storage v) c (v_block_size v) (v_l2bsize v) (v_agg_size v) (v_ag_size v) (v_num_ag v)
    (v_root_ino v) b h.

Definition v_with_sb (sb : JfsSuperblock) (v : Volume) : Volume :=
  v_set v sb (v_log v) (v_tx_mgr v) (v_storage v) (v_page_cache v) (v_bmap v) (v_open_handles v).
Definition v_with_log (log : option LogManager) (w : W) (v : Volume) : Volume :=
  v_set v (v_sb v) log (v_tx_mgr v) w (v_page_cache v) (v_bmap v) (v_open_handles v).
Definition v_with_dev (w : W) (v : Volume) : Volume :=
  v_set v (v_sb v) (v_log v) (v_tx_mgr v) w (v_page_cache v) (v_bmap v) (v_open_handles v).
Definition v_with_cache (c : PageCache) (w : W) (v : Volume) : Volume :=
  v_set v (v_sb v) (v_log v) (v_tx_mgr v) w c (v_bmap v) (v_open_handles v).
Definition v_with_tx (t : TransactionManager) (c : PageCache) (v : Volume) : Volume :=
  v_set v (v_sb v) (v_log v) t (v_storage v) c (v_bmap v) (v_open_handles v).
Definition v_with_bmap (b : option (BlockAllocMap unit)) (w : W) (v : Volume) : Volume :=
  v_set v (v_sb v) (v_log v) (v_tx_mgr v) w (v_page_cache v) b (v_open_handles v).
Definition v_with_handles (h : gmap Z Z) (v : Volume) : Volume :=
  v_set v (v_sb v) (v_log v) (v_tx_mgr v) (v_storage v) (v_page_cache v) (v_bmap v) h.

(** Calls on the parts of the volume. *)
Definition on_storage {A} (io : ST W StorageError A) : VM A := fun v =>
  let (r, w) := io (v_storage v) in (r, v_with_dev w v).

Definition on_cache {A} (io : ST (PageCache * W) StorageError A) : VM A := fun v =>
  let '(r, (c, w)) := io (v_page_cache v, v_storage v) in (r, v_with_cache c w v).

(** [if let Some(log) = &mut self.log { ...? }]. *)
Definition on_vlog (io : ST (LogManager * W) StorageError unit) : VM unit := fun v =>
  match v_log v with
  | None => (Ok tt, v)
  | Some l => let '(r, (l, w)) := io (l, v_storage v) in (r, v_with_log (Some l) w v)
  end.

(** The allocator with the device it shares. *)
Definition bam_with_device {D D'} (d : D') (b : BlockAllocMap D) : BlockAllocMap D' :=
  mkBam d (bam_mapsize b) (bam_nfree b) (bam_free_map b) (bam_ndmap b) (bam_dmap_start b) (bam_dmap_len b)
    (bam_allocated b) (bam_freed b) (bam_dirty_pages b).

(** [if let Some(bmap) = self.bmap.as_mut() { ... }], [none] without one. *)
Definition on_bmap {A} (none : A) (io : ST (BlockAllocMap W) StorageError A) : VM A := fun v =>
  match v_bmap v with
  | None => (Ok none, v)
  | Some b => let (r, b) := io (bam_with_device (v_storage v) b) in
      (r, v_with_bmap (Some (bam_with_device tt b)) (bam_storage b) v)
  end.

(** [self.tx_mgr.commit(&*self.storage, &mut self.page_cache, self.log.as_mut())]. *)
Definition on_commit {A} (io : ST (TxState W) StorageError A) : VM A := fun v =>
  let (r, s) := io (mkTx (v_tx_mgr v) (v_page_cache v) (v_log v) (v_storage v)) in
  (r, v_set v (v_sb v) (st_log s) (st_mgr s) (st_dev s) (st_cache s) (v_bmap v) (v_open_handles v)).

(** What inode lookup reads of the volume. *)
Definition table_view (v : Volume) : TableView := mkTable (s_ait2 (v_sb v)) (v_agg_size v) (v_page_cache v).

(** [Inode::read(self, ino)]. *)
Definition vol_inode_read (ino : Z) : VM Inode := fun v => on_storage (inode_read (table_view v) ino) v.

(** ** Transactions *)

Definition begin_transaction : VM Z := fun v =>
  let (r, t) := tm_begin (v_tx_mgr v) in (r, v_with_tx t (v_page_cache v) v).

Definition vol_commit_transaction : VM CommitResult :=
  let* result := on_commit (commit (LG := FS) (FS := FS)) in
  let* _ := on_bmap tt (bam_commit hash_order) in
  sret result.

Definition bam_do_rollback : ST (BlockAllocMap W) StorageError unit := fun b =>
  match bam_rollback b with
  | Ok b' => (Ok tt, b')
  | Err e => (Err e, b)
  | Panic => (Panic, b)
  end.

Definition abort_transaction : VM unit :=
  let* _ := on_bmap tt bam_do_rollback in
  smod (fun v => let (t, c) := tm_abort (v_tx_mgr v, v_page_cache v) in v_with_tx t c v).

Definition mark_page_dirty (ino block : Z) : VM unit := fun v =>
  let '(r, (t, c)) := tm_mark_dirty ino block (v_tx_mgr v, v_page_cache v) in (r, v_with_tx t c v).

Definition vol_sync : VM unit :=
  let* _ := on_cache pc_flush_all in
  let* _ := fun v => if tm_has_active (v_tx_mgr v) then (let* _ := vol_commit_transaction in sret tt) v else (Ok tt, v) in
  let* _ := on_vlog (fun s => let (r, w) := sync s.2 in (r, (s.1, w))) in
  let* _ := on_bmap tt (bam_commit hash_order) in
  on_storage sync.

(** [self.abort_transaction(); return Err(e)]. *)
Definition abort_with {A} (e : StorageError) : VM A := let* _ := abort_transaction in sfail e.

(** ** Inode pages *)

Definition dinode_size : Z := 512.

(** [update(&mut page.data[page_offset..end])] when the slot is in the page. *)
Definition page_update (page_offset : Z) (update : list byte -> result (list byte)) (p : CachedPage) : result CachedPage :=
  let end_ := page_offset + dinode_size in
  if end_ <=? zlen (cp_data p) then
    let! bytes := update (zslice (cp_data p) page_offset end_) in
    Ok (mkPage (cp_block p) (zsplice (cp_data p) page_offset bytes) (cp_dirty p) (cp_inode p) (cp_index p) (cp_pin_count p)
          (cp_txid p))
  else Ok p.

(** The closure runs on the page through the reference of [get_mut_for_write];
    whether it panics is seen on the page the reference points to. *)
Definition update_inode_page (ino page_block page_offset : Z) (update : list byte -> result (list byte)) : VM unit :=
  let* _ := on_cache (pc_get_or_load ino page_block 0) in
  let* v := sget in
  let outcome := page_update page_offset update <$> pc_peek ino page_block (v_page_cache v) in
  let* _ := on_cache (fun cd =>
    let (r, c) := pc_get_mut_for_write ino page_block
      (fun p => match page_update page_offset update p with Ok p' => p' | _ => p end) cd.1 in
    (match r with Ok _ => Ok tt | Err _ => Err PageNotFound | Panic => Panic end, (c, cd.2))) in
  match outcome with
  | Some Panic => spanic
  | _ => smod (fun v => v_with_cache (pc_unpin_page ino page_block (v_page_cache v)) (v_storage v) v)
  end.

(** The first free slot of a page that may be used: its index. *)
Fixpoint free_slot (data : list byte) (block_offset : Z) (slots : list Z) : option Z :=
  match slots with
  | [] => None
  | i :: slots =>
      let off := i * DISIZE in
      if zlen data <? off + DISIZE then None else
      let mode := read_u32 (zslice data (off + 52) (off + 56)) in
      let ino := FILESYSTEM_I + as_u32 (block_offset * INOSPERPAGE + i) in
      if (mode =? 0) && negb (ino =? FILESYSTEM_I + ROOT_I) then Some i else free_slot data block_offset slots
  end.

(** The blocks of the table, by their offset from its start. *)
Fixpoint scan_free (v : TableView) (table_start : Z) (offsets : list Z) : ST W StorageError (option (Z * Z * Z)) :=
  match offsets with
  | [] => sret None
  | block_offset :: offsets =>
      let block_num := table_start + block_offset in
      if tv_agg_size v <=? block_num then scan_free v table_start offsets else
      let* data := table_page v block_num in
      match free_slot data block_offset (range 0 INOSPERPAGE) with
      | Some i => sret (Some (FILESYSTEM_I + as_u32 (block_offset * INOSPERPAGE + i), block_num, i * DISIZE))
      | None => scan_free v table_start offsets
      end
  end.

Definition allocate_inode : VM (Z * Z * Z) := fun v =>
  let pxd := s_ait2 (v_sb v) in
  let max_scan := pxd_length pxd + 32 in
  (let* found := on_storage (scan_free (table_view v) (pxd_address pxd) (range 0 max_scan)) in
   match found with
   | Some (ino, block, off) =>
       let* _ := smod (fun v => v_with_tx (tm_record_allocation block (v_tx_mgr v)).2 (v_page_cache v) v) in
       sret (ino, block, off)
   | None => sfail NoFreeInode
   end) v.

(** ** Reports *)

Definition vol_free_blocks (v : Volume) : Z := match v_bmap v with Some b => bam_nfree b | None => 0 end.
Definition vol_total_allocated_blocks (v : Volume) : Z := match v_bmap v with Some b => bam_mapsize b | None => 0 end.
Definition vol_total_inodes (v : Volume) : result Z :=
  let! total_bytes := mul_u64 (v_agg_size v) (v_block_size v) in Ok (total_bytes / (dinode_size * 4)).

Definition vol_read_page (block : Z) : VM (list byte) := on_storage (read_block block).
Definition root_inode : VM Inode := fun v => vol_inode_read (v_root_ino v) v.

(** ** Mounting *)

Definition set_fs_state (state : Z) : VM unit :=
  let* sb_bytes := on_storage (read_bytes SUPER1_OFF PSIZE) in
  let* buf := slift (splice sb_bytes 40 (write_u32 state)) in
  let* _ := on_storage (write_bytes SUPER1_OFF buf) in
  let* _ := on_storage flush_metadata in
  smod (fun v => v_with_sb (sb_with_state (zslice buf 40 44) (v_sb v)) v).

Definition umount : VM unit :=
  let* _ := on_cache pc_flush_all in
  let* _ := on_vlog (fun s => let (r, w) := sync s.2 in (r, (s.1, w))) in
  let* _ := on_bmap tt (bam_commit hash_order) in
  set_fs_state FM_CLEAN.

Definition init_log : VM unit := fun v =>
  (if v_log_storage v then
     let* log_base := if sb_has_inline_log (v_sb v)
                      then slift (mul_u64 (pxd_address (sb_inline_log_pxd (v_sb v))) BLOCK_SIZE) else sret 0 in
     let* logsuper := on_storage (read_super log_base) in
     if negb (ls_magic_val logsuper =? LOGMAGIC) then sfail (Other "invalid log superblock magic") else
     if negb (ls_get_version logsuper =? LOGVERSION) then sfail (Other "unsupported log version: {}") else
     smod (fun v => v_with_log (Some (lm_new logsuper log_base)) (v_storage v) v)
   else sret tt) v.

Definition recover_journal : VM unit := fun v =>
  match v_log v with
  | None => (Ok tt, v)
  | Some log =>
      let logsuper := lm_logsuper log in
      if ls_get_state logsuper =? LOGREDONE then (Ok tt, v) else
      if v_log_storage v then
        (let* start := slift (lm_data_start log) in
         let* recovery := on_storage (fun w =>
           let '(r, (j, w)) := replay FS FS start (jr_new logsuper, w) in (let! _ := r in Ok j, w)) in
         let new_super := (finalize recovery).1 in
         let* _ := on_storage (write_super new_super log) in
         on_storage sync) v
      else (Ok tt, v)
  end.

(** [BlockAllocMap::new(volume.storage.clone())], kept without the device. *)
Definition load_bmap : VM unit := fun v =>
  let (r, w) := bam_new (v_storage v) in
  match r with
  | Ok b => (Ok tt, v_with_bmap (Some (bam_with_device tt b)) w v)
  | Err e => (Err e, v_with_dev w v)
  | Panic => (Panic, v_with_dev w v)
  end.

(** The value built before the journal is read. *)
Definition fresh_volume (sb : JfsSuperblock) (w : W) : Volume :=
  let agg_size := sb_aggregate_size sb in
  let ag_size := sb_agsize sb in
  mkVolume sb None tm_new w (sb_has_inline_log sb) (pc_new 256) (sb_block_size sb) (sb_l2bsize sb) agg_size ag_size
    (if 0 <? ag_size then as_u32 (agg_size / ag_size) else 1) (FILESYSTEM_I + ROOT_I) None ∅.

Definition check_geometry (sb : JfsSuperblock) (w : W) : result unit :=
  match as_file w with
  | Some g => validate_against_superblock sb g
  | None => Ok tt
  end.

(** A failed mount returns the error; the device keeps what was done to it. *)
Definition open_from_storage : ST W StorageError Volume := fun w =>
  (let* sb := vol_read_super in
   let* _ := slift (validate_super sb) in
   if negb (sb_block_size sb =? PSIZE) then sfail (UnsupportedBlockSize (sb_block_size sb)) else
   let* w := sget in
   let* _ := slift (check_geometry sb w) in
   fun w =>
     match (let* _ := init_log in let* _ := recover_journal in load_bmap) (fresh_volume sb w) with
     | (Ok _, v) => (Ok v, v_storage v)
     | (Err e, v) => (Err e, v_storage v)
     | (Panic, v) => (Panic, v_storage v)
     end) w.

Definition mount_from_storage : ST W StorageError Volume := fun w =>
  match open_from_storage w with
  | (Err e, w) => (Err e, w)
  | (Panic, w) => (Panic, w)
  | (Ok v, _) =>
      match (let* root := vol_inode_read (v_root_ino v) in
             if negb (dinode_is_dir (in_dinode root)) then sfail (Other "root inode is not a directory") else
             let* _ := slift (dt_from_inode_data (dinode_dtroot_bytes (in_dinode root))) in
             set_fs_state FM_DIRTY) v with
      | (Ok _, v) => (Ok v, v_storage v)
      | (Err e, v) => (Err e, v_storage v)
      | (Panic, v) => (Panic, v_storage v)
      end
  end.
End volume.
Arguments Volume {L} W.
