(* ===== verification/VolumeData.v ===== *)
(** * File data and attributes ([src/src/volume.rs])

    [write_at], [truncate], [fallocate], [copy_file_range_extent], [setattr] and
    [fsync]. Each runs in its own transaction: it reads the inode, changes the
    extent tree and the blocks, updates the inode page in the cache and
    commits. [check k] is the answer of the [k]-th [token.check()], [true] when
    the request was cancelled; a call without a token never is. *)

From stdpp Require Import gmap.
From Stdlib Require Import ZArith Lia.
From S2P Require Import Prelude Types Storage PageCache Dmap Xtree LogMgr Devices Recovery Transaction Inode Volume.

(** [XadFlag::from_bits_truncate], generated by the bitflags crate. *)
Class XadFlags := { from_bits_truncate : Z -> Z }.

Section data.
Context {LE : LittleEndian} {L : Lru PageKey CachedPage} {HO : HashOrder} {XF : XadFlags} {W : Type} {FS : Storage W}.
Abbreviation VM := (ST (Volume W) StorageError).

Definition inode_xtree (inode : Inode) : VM XtRoot := slift (xt_from_inode_data (dinode_xtroot_bytes (in_dinode inode))).
Definition inode_size (inode : Inode) : Z := dinode_size_val (in_dinode inode).

(** [xtree.iter_extents().map(|e| e.length as u64).sum()]: at most sixteen
    24-bit lengths. *)
Definition total_blocks (xtree : XtRoot) : Z := foldr Z.add 0 (e_length <$> iter_extents from_bits_truncate xtree).

Definition compute_nblocks (xtree : XtRoot) (fallback : Z) : Z :=
  let total := total_blocks xtree in if 0 <? total then total else fallback.

(** Parts of the closures that update a dinode. *)
Definition put_u64 (off val : Z) (d : list byte) : result (list byte) := splice d off (write_u64 val).
Definition put_u32 (off val : Z) (d : list byte) : result (list byte) := splice d off (write_u32 val).
Definition put_root (root_bytes : list byte) (d : list byte) : result (list byte) :=
  splice d (dinode_size - zlen root_bytes) root_bytes.

(** Freeing a list of extents; the errors of the allocator are dropped. *)
Definition free_blocks (freed : list (Z * Z)) : VM unit :=
  on_bmap tt (sfor freed (fun '(addr, len) b =>
    match free_extent (pxd_set_address (pxd_set_length pxd_default len) addr) b with
    | (Err _, b) => (Ok tt, b)
    | r => r
    end)).

(** ** Writing *)

(** The variables of the loops of [write_at_with_interrupt]. *)
Record WriteState := mkWrite {
  ws_written : Z; ws_pos : Z; ws_remaining : Z; ws_boff : Z; ws_logical : Z;
  ws_xtree : XtRoot; ws_modified : bool; ws_checks : nat }.

Context (check : nat -> bool) (data : list byte).

Definition checked (st : WriteState) : VM WriteState :=
  if check (ws_checks st) then sfail Interrupted
  else sret (mkWrite (ws_written st) (ws_pos st) (ws_remaining st) (ws_boff st) (ws_logical st) (ws_xtree st)
               (ws_modified st) (S (ws_checks st))).

(** [n] bytes of the data are done, the next block starts at its beginning. *)
Definition ws_advance (n : Z) (st : WriteState) : WriteState :=
  mkWrite (ws_written st + n) (ws_pos st + n) (ws_remaining st - n) 0 (ws_logical st) (ws_xtree st) (ws_modified st)
    (ws_checks st).

(** [for blk in 0..new_len]: the blocks allocated for a hole. *)
Fixpoint write_new (addr : Z) (blks : list Z) (st : WriteState) : VM WriteState :=
  match blks with
  | [] => sret st
  | blk :: blks =>
      let* st := checked st in
      if ws_remaining st =? 0 then sret st else
      let to_copy := Z.min (BLOCK_SIZE - ws_boff st) (ws_remaining st) in
      let block_data := zeros (Z.to_nat BLOCK_SIZE) in
      let* block_data :=
        if ws_pos st + to_copy <=? zlen data
        then slift (splice block_data (ws_boff st) (zslice data (ws_pos st) (ws_pos st + to_copy)))
        else sret block_data in
      let* _ := on_storage (write_block (addr + blk) block_data) in
      write_new addr blks (ws_advance to_copy st)
  end.

(** [for blk in 0..block_count]: the blocks of an extent. *)
Fixpoint write_existing (addr : Z) (blks : list Z) (st : WriteState) : VM WriteState :=
  match blks with
  | [] => sret st
  | blk :: blks =>
      let* st := checked st in
      if ws_remaining st =? 0 then sret st else
      let* block_data := on_storage (read_block (addr + blk)) in
      let to_copy := Z.min (BLOCK_SIZE - ws_boff st) (ws_remaining st) in
      let* part := slift (slice data (ws_pos st) (ws_pos st + to_copy)) in
      let* block_data := slift (splice block_data (ws_boff st) part) in
      let* _ := on_storage (write_block (addr + blk) block_data) in
      write_existing addr blks (ws_advance to_copy st)
  end.

(** A hole with an allocator: the blocks, the data, the extent. The offset in
    the block is not reset: a hole is the last run of [map_blocks]. *)
Definition write_hole (pxd : Pxd) (st : WriteState) : VM WriteState :=
  let new_addr := pxd_address pxd in
  let new_len := pxd_length pxd in
  let boff := ws_boff st in
  let* st := write_new new_addr (range 0 new_len) st in
  let* (inserted, xtree) := slift (insert_extent (as_i64 (ws_logical st)) (as_u32 new_len) new_addr (ws_xtree st)) in
  sret (mkWrite (ws_written st) (ws_pos st) (ws_remaining st) boff (ws_logical st + new_len) xtree
          (inserted || ws_modified st) (ws_checks st)).

(** The run of an extent, then the next logical block. *)
Definition write_mapped (addr count : Z) (st : WriteState) : VM WriteState :=
  let* st := write_existing addr (range 0 count) st in
  sret (mkWrite (ws_written st) (ws_pos st) (ws_remaining st) (ws_boff st) (ws_logical st + count) (ws_xtree st)
          (ws_modified st) (ws_checks st)).

(** Without an allocator a hole is skipped and the code goes on to the blocks
    from address 0. *)
Definition write_run (run : Z * Z) (st : WriteState) : VM WriteState :=
  let '(block_addr, block_count) := run in
  if block_addr =? 0 then
    let* pxd := on_bmap None (alloc_extent block_count (ws_logical st)) in
    match pxd with
    | Some pxd => write_hole pxd st
    | None =>
        let* room := slift (sub_u64 (block_count * BLOCK_SIZE) (ws_boff st)) in
        write_mapped block_addr block_count (ws_advance (Z.min room (ws_remaining st)) st)
    end
  else write_mapped block_addr block_count st.

Fixpoint write_runs (extents : list (Z * Z)) (st : WriteState) : VM WriteState :=
  match extents with
  | [] => sret st
  | run :: extents =>
      let* st := checked st in
      if ws_remaining st =? 0 then sret st else
      let* st := write_run run st in
      write_runs extents st
  end.

(** The tree and the number of blocks, written when the tree changed. *)
Definition store_xtree (ino : Z) (inode : Inode) (xtree : XtRoot) : VM unit :=
  let* xt_bytes := slift (xt_to_bytes xtree) in
  update_inode_page ino (in_page_block inode) (in_page_offset inode) (fun d =>
    let! d := put_root xt_bytes d in put_u64 32 (total_blocks xtree) d).

Definition write_at_with_interrupt (ino offset : Z) : VM Z :=
  let* _ := begin_transaction in
  let* inode := vol_inode_read ino in
  let size := inode_size inode in
  let* xtree := inode_xtree inode in
  let byte_offset := offset mod BLOCK_SIZE in
  let fsb_offset := offset / BLOCK_SIZE in
  let fsb_count := as_u32 ((zlen data + byte_offset + BLOCK_SIZE - 1) / BLOCK_SIZE) in
  let* extents := slift (map_blocks from_bits_truncate fsb_offset fsb_count xtree) in
  let* st := write_runs extents (mkWrite 0 0 (zlen data) byte_offset fsb_offset xtree false 0) in
  let* st := checked st in
  let* _ := on_storage flush_data in
  let* new_end := slift (add_u64 offset (ws_written st)) in
  let* _ := if size <? new_end
            then update_inode_page ino (in_page_block inode) (in_page_offset inode) (put_u64 24 new_end)
            else sret tt in
  let* _ := if ws_modified st then store_xtree ino inode (ws_xtree st) else sret tt in
  let* _ := mark_page_dirty ino (in_page_block inode) in
  fun v => match vol_commit_transaction v with
           | (Ok _, v) => (Ok (ws_written st), v)
           | (Err e, v) => abort_with e v
           | (Panic, v) => (Panic, v)
           end.
End data.

Section attributes.
Context {LE : LittleEndian} {L : Lru PageKey CachedPage} {HO : HashOrder} {XF : XadFlags} {W : Type} {FS : Storage W}.
Abbreviation VM := (ST (Volume W) StorageError).

(** [write_at]: no token. *)
Definition write_at (ino offset : Z) (data : list byte) : VM Z :=
  write_at_with_interrupt (fun _ => false) data ino offset.

(** [mark_page_dirty], [commit_transaction], and the result. *)
Definition finish {A} (ino page_block : Z) (a : A) : VM A :=
  let* _ := mark_page_dirty ino page_block in
  let* _ := vol_commit_transaction in
  sret a.

(** ** Truncating *)

(** The bytes after the old end in its block, set to zero. *)
Definition zero_tail (old_size : Z) (xtree : XtRoot) : VM unit :=
  let old_byte_offset := old_size mod BLOCK_SIZE in
  if 0 <? old_byte_offset then
    let* extents := slift (map_blocks from_bits_truncate (old_size / BLOCK_SIZE) 1 xtree) in
    sfor extents (fun '(block_addr, block_count) =>
      if negb (block_addr =? 0) && (0 <? block_count) then
        let* block_data := on_storage (read_block block_addr) in
        let* block_data := slift (splice block_data old_byte_offset (zeros (Z.to_nat (BLOCK_SIZE - old_byte_offset)))) in
        on_storage (write_block block_addr block_data)
      else sret tt)
  else sret tt.

Definition truncate (ino new_size : Z) : VM unit :=
  let* _ := begin_transaction in
  let* inode := vol_inode_read ino in
  let* xtree := inode_xtree inode in
  let* n := slift (add_u64 new_size BLOCK_SIZE) in
  let new_eof_fsb := (n - 1) / BLOCK_SIZE in
  let* n := slift (add_u64 (inode_size inode) BLOCK_SIZE) in
  let current_eof_fsb := (n - 1) / BLOCK_SIZE in
  let update := update_inode_page ino (in_page_block inode) (in_page_offset inode) in
  let* _ :=
    if new_eof_fsb <? current_eof_fsb then
      let* (freed, xtree) := slift (truncate_extents (as_i64 new_eof_fsb) xtree) in
      let* _ := free_blocks freed in
      let new_nblocks := compute_nblocks xtree (dinode_nblocks (in_dinode inode)) in
      update (fun d =>
        let! xt_bytes := xt_to_bytes xtree in
        let! d := put_root xt_bytes d in
        let! d := put_u64 24 new_size d in
        put_u64 32 new_nblocks d)
    else if current_eof_fsb <? new_eof_fsb then
      let* _ := zero_tail (inode_size inode) xtree in
      update (put_u64 24 new_size)
    else update (put_u64 24 new_size) in
  finish ino (in_page_block inode) tt.

(** ** [fallocate] *)

Definition FALLOC_FL_KEEP_SIZE : Z := 0x01.
Definition FALLOC_FL_PUNCH_HOLE : Z := 0x02.
Definition FALLOC_FL_UNSUPPORTED : Z := Z.lor (Z.lor 0x08 0x10) (Z.lor 0x20 0x40).

(** One block for every unmapped block of the range, zero-filled. *)
Fixpoint fill_holes (fsbs : list Z) (xtree : XtRoot) (modified : bool) : VM (XtRoot * bool) :=
  match fsbs with
  | [] => sret (xtree, modified)
  | fsb :: fsbs =>
      match xt_lookup from_bits_truncate fsb xtree with
      | Ok (Some _) => fill_holes fsbs xtree modified
      | _ =>
          let* pxd := on_bmap None (alloc_extent 1 fsb) in
          match pxd with
          | Some pxd =>
              let new_addr := pxd_address pxd in
              let* _ := on_storage (write_block new_addr (zeros (Z.to_nat BLOCK_SIZE))) in
              let* (inserted, xtree) := slift (insert_extent (as_i64 fsb) 1 new_addr xtree) in
              fill_holes fsbs xtree (inserted || modified)
          | None => fill_holes fsbs xtree modified
          end
      end
  end.

Definition fallocate (ino offset len mode : Z) : VM unit :=
  if negb (Z.land mode FALLOC_FL_UNSUPPORTED =? 0) then sfail (Other "fallocate mode {:#x} is not supported") else
  let* _ := begin_transaction in
  let* inode := vol_inode_read ino in
  let* xtree := inode_xtree inode in
  let start_fsb := offset / BLOCK_SIZE in
  let* range_end := slift (add_u64 offset len) in
  let* n := slift (add_u64 range_end BLOCK_SIZE) in
  let end_fsb := (n - 1) / BLOCK_SIZE in
  let* block_count := slift (sub_u64 end_fsb start_fsb) in
  let both := Z.lor FALLOC_FL_KEEP_SIZE FALLOC_FL_PUNCH_HOLE in
  let is_punch := Z.land mode both =? both in
  let* (xtree, modified) :=
    if is_punch && (0 <? block_count) then
      let* (freed, xtree) := slift (punch_extents (as_i64 start_fsb) (as_i64 end_fsb) xtree) in
      let* _ := free_blocks freed in
      sret (xtree, true)
    else if 0 <? block_count then
      fun v => match v_bmap v with
               | Some _ => fill_holes (range start_fsb end_fsb) xtree false v
               | None => (Ok (xtree, false), v)
               end
    else sret (xtree, false) in
  let* _ :=
    if is_punch then sret tt else
    let new_size := if (Z.land mode FALLOC_FL_KEEP_SIZE =? 0) && (inode_size inode <? range_end)
                    then range_end else inode_size inode in
    if negb (new_size =? inode_size inode)
    then update_inode_page ino (in_page_block inode) (in_page_offset inode) (put_u64 24 new_size) else sret tt in
  let* _ := if modified : bool then store_xtree ino inode xtree else sret tt in
  let* _ := mark_page_dirty ino (in_page_block inode) in
  let* _ := on_storage flush_data in
  let* _ := vol_commit_transaction in
  sret tt.

(** ** [copy_file_range_extent] *)

(** The extents taken from the source, inserted at the destination; [None]
    when the root is full. *)
Fixpoint insert_all (dst_start src_start : Z) (taken : list (Z * Z * Z)) (xtree : XtRoot) : result (option XtRoot) :=
  match taken with
  | [] => Ok (Some xtree)
  | (src_logical, length, addr) :: taken =>
      let! dst_logical := i64_checked (dst_start + (src_logical - src_start)) in
      let! (inserted, xtree) := insert_taken_extent dst_logical length addr xtree in
      if inserted : bool then insert_all dst_start src_start taken xtree else Ok None
  end.

Definition copy_file_range_extent (src_ino src_offset dst_ino dst_offset len : Z) : VM (option Z) :=
  let bs := BLOCK_SIZE in
  if negb (src_offset mod bs =? 0) || negb (dst_offset mod bs =? 0) || negb (len mod bs =? 0) || (len =? 0)
  then sret None else
  let src_fsb_start := src_offset / bs in
  let src_fsb_end := src_fsb_start + len / bs in
  let dst_fsb_start := dst_offset / bs in
  let* _ := begin_transaction in
  let* src_inode := vol_inode_read src_ino in
  let* src_xtree := inode_xtree src_inode in
  let* (taken, src_xtree) := slift (take_extents (as_i64 src_fsb_start) (as_i64 src_fsb_end) src_xtree) in
  if bool_decide (taken = []) then let* _ := abort_transaction in sret None else
  let* xt_bytes := slift (xt_to_bytes src_xtree) in
  let new_src_nblocks := compute_nblocks src_xtree (dinode_nblocks (in_dinode src_inode)) in
  let* _ := update_inode_page src_ino (in_page_block src_inode) (in_page_offset src_inode) (fun d =>
    let! d := put_root xt_bytes d in put_u64 32 new_src_nblocks d) in
  let* _ := mark_page_dirty src_ino (in_page_block src_inode) in
  let* dst_inode := vol_inode_read dst_ino in
  let* dst_xtree := inode_xtree dst_inode in
  let dst_fsb_end := dst_fsb_start + len / bs in
  let* (freed, dst_xtree) := slift (punch_extents (as_i64 dst_fsb_start) (as_i64 dst_fsb_end) dst_xtree) in
  let* _ := free_blocks freed in
  let* inserted := slift (insert_all (as_i64 dst_fsb_start) (as_i64 src_fsb_start) taken dst_xtree) in
  match inserted with
  | None => let* _ := abort_transaction in sret None
  | Some dst_xtree =>
      let* dst_end := slift (add_u64 dst_offset len) in
      let new_dst_size := Z.max (inode_size dst_inode) dst_end in
      let new_dst_nblocks := compute_nblocks dst_xtree (dinode_nblocks (in_dinode dst_inode)) in
      let* xt_bytes := slift (xt_to_bytes dst_xtree) in
      let* _ := update_inode_page dst_ino (in_page_block dst_inode) (in_page_offset dst_inode) (fun d =>
        let! d := put_root xt_bytes d in
        let! d := put_u64 24 new_dst_size d in
        put_u64 32 new_dst_nblocks d) in
      finish dst_ino (in_page_block dst_inode) (Some len)
  end.

(** ** Attributes *)

Definition when {A} (o : option A) (f : A -> list byte -> result (list byte)) (d : list byte) : result (list byte) :=
  match o with Some a => f a d | None => Ok d end.

Definition put_mode (m : Z) (d : list byte) : result (list byte) :=
  let! old := slice d 52 56 in
  let type_bits := Z.land (read_u32 old) 0xf000 in
  put_u32 52 (Z.lor (Z.land m 0x0fff) type_bits) d.

(** Seconds cut to 32 bits, and no fraction. *)
Definition put_time (off ts : Z) (d : list byte) : result (list byte) :=
  let! d := put_u32 off (as_u32 ts) d in put_u32 (off + 4) 0 d.

Definition setattr_update (mode uid gid atime mtime : option Z) (d : list byte) : result (list byte) :=
  let! d := when mode put_mode d in
  let! d := when uid (put_u32 44) d in
  let! d := when gid (put_u32 48) d in
  let! d := when atime (put_time 56) d in
  when mtime (put_time 72) d.

Definition setattr (ino : Z) (mode uid gid atime mtime : option Z) : VM unit :=
  let* _ := begin_transaction in
  let* inode := vol_inode_read ino in
  let* _ := update_inode_page ino (in_page_block inode) (in_page_offset inode) (setattr_update mode uid gid atime mtime) in
  finish ino (in_page_block inode) tt.

Definition fsync (ino : Z) : VM unit :=
  let* _ := begin_transaction in
  let* inode := vol_inode_read ino in
  let* _ := on_storage flush_metadata in
  finish ino (in_page_block inode) tt.
End attributes.
