(* ===== verification/VolumeDir.v ===== *)
(** * Directories and inodes ([src/src/volume.rs])

    Creating, linking, renaming and removing entries, and the open handles that
    keep an unlinked inode alive. Every operation runs in a transaction; an
    error found by the operation itself aborts it, an error of a call made with
    [?] returns at once. *)

From stdpp Require Import gmap.
From Stdlib Require Import ZArith Lia.
From S2P Require Import Prelude Types Storage PageCache Dmap Xtree Dtree LogMgr Devices Recovery Transaction Inode Utf Volume VolumeData.

Section directories.
Context {LE : LittleEndian} {L : Lru PageKey CachedPage} {HO : HashOrder} {W : Type} {FS : Storage W}.
Abbreviation VM := (ST (Volume W) StorageError).

Definition inode_dtree (inode : Inode) : VM Dtree := slift (dt_from_inode_data (dinode_dtroot_bytes (in_dinode inode))).

Definition insert_dir_entry (parent_ino : Z) (name : list Z) (child_ino index : Z) : VM bool :=
  let* inode := vol_inode_read parent_ino in
  let* dtree := inode_dtree inode in
  let* (inserted, dtree) := slift (dt_insert name child_ino index dtree) in
  let* _ := if inserted : bool
            then update_inode_page parent_ino (in_page_block inode) (in_page_offset inode) (put_root (dt_to_bytes dtree))
            else sret tt in
  sret inserted.

Definition remove_dir_entry (parent_ino : Z) (name : list Z) : VM (option Z) :=
  let* inode := vol_inode_read parent_ino in
  let* dtree := inode_dtree inode in
  let* (removed, dtree) := slift (dt_remove name dtree) in
  let* _ := match removed with
            | Some _ => update_inode_page parent_ino (in_page_block inode) (in_page_offset inode) (put_root (dt_to_bytes dtree))
            | None => sret tt
            end in
  sret removed.

(** [entries().map(|e| e.len() as u32).unwrap_or(0)]. *)
Definition entry_count (dtree : Dtree) : result Z :=
  match dt_entries dtree with
  | Ok e => Ok (as_u32 (zlen e))
  | Err _ => Ok 0
  | Panic => Panic
  end.

Definition next_dir_index (ino : Z) : VM Z :=
  let* parent := vol_inode_read ino in
  let* dtree := inode_dtree parent in
  slift (entry_count dtree).

(** [name_u16.is_empty() || name_u16.len() > 11]. *)
Definition bad_name (name : list Z) : bool := bool_decide (name = []) || (11 <? zlen name).

(** ** Creating *)

(** The fields every new inode gets; [child_ino - FILESYSTEM_I] cannot
    underflow for a number of [allocate_inode]. *)
Definition new_dinode (mode size nlink child_ino : Z) (d : list byte) : result (list byte) :=
  let! d := put_u32 52 mode d in
  let! d := put_u64 24 size d in
  let! d := put_u64 32 0 d in
  let! d := put_u32 40 nlink d in
  let! d := put_u32 4 FILESYSTEM_I d in
  let! number := sub_u32 child_ino FILESYSTEM_I in
  put_u32 8 number d.

(** The entry of a new child in its parent; the transaction is aborted when the name is taken. *)
Definition enter_child (parent_ino : Z) (name : list Z) (child_ino : Z) : VM unit :=
  let* index := next_dir_index parent_ino in
  let* inserted := insert_dir_entry parent_ino name child_ino index in
  if negb inserted then abort_with AlreadyExists else sret tt.

(** The parent's page is marked and the transaction committed. *)
Definition finish_parent {A} (parent_ino : Z) (a : A) : VM A :=
  let* parent := vol_inode_read parent_ino in
  finish parent_ino (in_page_block parent) a.

Definition create_file (parent_ino : Z) (name : list Z) : VM Z :=
  let* _ := begin_transaction in
  let* (child_ino, child_block, child_off) := allocate_inode in
  let name_u16 := encode_utf16 name in
  if bad_name name_u16 then abort_with InvalidName else
  let* _ := update_inode_page child_ino child_block child_off (new_dinode 0x81a4 0 1 child_ino) in
  let* _ := mark_page_dirty child_ino child_block in
  let* _ := enter_child parent_ino name_u16 child_ino in
  finish_parent parent_ino child_ino.

(** The directory root of a new directory, with its entries [.] and [..]. *)
Definition new_dtroot (parent_ino child_ino : Z) (d : list byte) : result (list byte) :=
  let! d := set d (224 + 16) (bof 0x83) in
  let! d := set d (224 + 17) (bof 2) in
  let! d := set d (224 + 18) (bof 0) in
  let! d := set d (224 + 19) (bof 0) in
  let! d := put_u32 (224 + 20) parent_ino d in
  let! d := set d (224 + 24) (bof 1) in
  let! d := set d (224 + 25) (bof 2) in
  let! d := put_u32 (224 + 32) child_ino d in
  let! d := set d (224 + 32 + 5) (bof 1) in
  let! d := splice d (224 + 32 + 6) (write_u16 0x2E) in
  let! d := put_u32 (224 + 32 + 28) 0 d in
  let! d := put_u32 (224 + 64) parent_ino d in
  let! d := set d (224 + 64 + 5) (bof 2) in
  let! d := splice d (224 + 64 + 6) (write_u16 0x2E) in
  let! d := splice d (224 + 64 + 8) (write_u16 0x2E) in
  put_u32 (224 + 64 + 28) 1 d.

(** [nlink + 1] and [nlink - 1] overflow. *)
Definition add_link (d : list byte) : result (list byte) :=
  let! n := slice d 40 44 in let! n := add_u32 (read_u32 n) 1 in put_u32 40 n d.
Definition drop_link (d : list byte) : result (list byte) :=
  let! n := slice d 40 44 in let! n := sub_u32 (read_u32 n) 1 in put_u32 40 n d.

(** Updating the inode of a directory and marking its page. *)
Definition update_and_mark (ino : Z) (update : list byte -> result (list byte)) : VM unit :=
  let* inode := vol_inode_read ino in
  let* _ := update_inode_page ino (in_page_block inode) (in_page_offset inode) update in
  mark_page_dirty ino (in_page_block inode).

Definition mkdir (parent_ino : Z) (name : list Z) : VM Z :=
  let* _ := begin_transaction in
  let* (child_ino, child_block, child_off) := allocate_inode in
  let name_u16 := encode_utf16 name in
  if bad_name name_u16 then abort_with InvalidName else
  let* _ := update_inode_page child_ino child_block child_off (fun d =>
    let! d := new_dinode 0x41ED 0 2 child_ino d in new_dtroot parent_ino child_ino d) in
  let* _ := mark_page_dirty child_ino child_block in
  let* _ := enter_child parent_ino name_u16 child_ino in
  let* _ := update_and_mark parent_ino add_link in
  let* _ := vol_commit_transaction in
  sret child_ino.

Definition special_type (file_type : Z) : bool :=
  (file_type =? 0x1000) || (file_type =? 0x2000) || (file_type =? 0x6000) || (file_type =? 0xC000).

Definition mknod (parent_ino : Z) (name : list Z) (mode rdev : Z) : VM Z :=
  let* _ := begin_transaction in
  let name_u16 := encode_utf16 name in
  if bad_name name_u16 then abort_with InvalidName else
  let file_type := Z.land mode 0xf000 in
  if negb (special_type file_type) then abort_with InvalidFileType else
  let* (child_ino, child_block, child_off) := allocate_inode in
  let* _ := update_inode_page child_ino child_block child_off (fun d =>
    let! d := new_dinode mode 0 1 child_ino d in
    if (file_type =? 0x2000) || (file_type =? 0x6000) then put_u64 16 rdev d else Ok d) in
  let* _ := mark_page_dirty child_ino child_block in
  let* _ := enter_child parent_ino name_u16 child_ino in
  finish_parent parent_ino child_ino.

(** The target is a [&str]; it is stored from offset 128 of the dinode. *)
Definition symlink (parent_ino : Z) (name target : list Z) : VM Z :=
  let* _ := begin_transaction in
  let* (child_ino, child_block, child_off) := allocate_inode in
  let name_u16 := encode_utf16 name in
  if bad_name name_u16 then abort_with InvalidName else
  let target_bytes := as_bytes target in
  if negb (zlen target_bytes <? 128) then abort_with NotSupported else
  let* _ := update_inode_page child_ino child_block child_off (fun d =>
    let! d := new_dinode 0xA1FF (zlen target_bytes) 1 child_ino d in
    if 128 + zlen target_bytes <=? zlen d then splice d 128 target_bytes else Ok d) in
  let* _ := mark_page_dirty child_ino child_block in
  let* _ := enter_child parent_ino name_u16 child_ino in
  finish_parent parent_ino child_ino.

Definition read_symlink (ino : Z) : VM (list byte) :=
  let* inode := vol_inode_read ino in
  if negb (dinode_is_symlink (in_dinode inode)) then sfail (Other "not a symbolic link") else
  let size := inode_size inode in
  if (0 <? size) && (size <? 128)
  then let u := di_u (in_dinode inode) in slift (slice u 0 (Z.min size (zlen u)))
  else sfail (Other "symlink target not available").

Definition link_file (parent_ino : Z) (name : list Z) (target_ino : Z) : VM Z :=
  let* _ := begin_transaction in
  let* target := vol_inode_read target_ino in
  if dinode_is_dir (in_dinode target) then abort_with CannotLinkDir else
  let name_u16 := encode_utf16 name in
  if bad_name name_u16 then abort_with InvalidName else
  let* _ := enter_child parent_ino name_u16 target_ino in
  let* new_nlink := slift (add_u32 (dinode_nlink (in_dinode target)) 1) in
  let* _ := update_inode_page target_ino (in_page_block target) (in_page_offset target) (put_u32 40 new_nlink) in
  let* _ := mark_page_dirty target_ino (in_page_block target) in
  finish_parent parent_ino target_ino.

(** ** Removing *)

(** The dinode of a freed inode: no mode, no size, no links. *)
Definition clear_dinode (d : list byte) : result (list byte) :=
  let! d := put_u32 52 0 d in let! d := put_u64 24 0 d in put_u32 40 0 d.

Definition rmdir (parent_ino : Z) (name : list Z) : VM bool :=
  let* _ := begin_transaction in
  let* child_ino := remove_dir_entry parent_ino (encode_utf16 name) in
  match child_ino with
  | None => let* _ := abort_transaction in sret false
  | Some child_ino =>
      let* child := vol_inode_read child_ino in
      if negb (dinode_is_dir (in_dinode child)) then abort_with NotADirectory else
      let* dtree := inode_dtree child in
      let* num_entries := slift (dt_len_entries dtree) in
      if 2 <? num_entries then abort_with DirectoryNotEmpty else
      let* _ := update_inode_page child_ino (in_page_block child) (in_page_offset child) clear_dinode in
      let* _ := mark_page_dirty child_ino (in_page_block child) in
      let* _ := update_and_mark parent_ino drop_link in
      let* _ := vol_commit_transaction in
      sret true
  end.

Definition has_open_handles (page_block : Z) (v : Volume W) : bool := 0 <? default 0 (v_open_handles v !! page_block).

(** The blocks of a regular file; none when the tree does not parse. *)
Definition file_extents (inode : Inode) : result (list (Z * Z)) :=
  if dinode_is_regular (in_dinode inode) then
    match xt_from_inode_data (dinode_xtroot_bytes (in_dinode inode)) with
    | Ok xt => let! (freed, _) := truncate_extents 0 xt in Ok freed
    | Err _ => Ok []
    | Panic => Panic
    end
  else Ok [].

Definition unlink_file (parent_ino : Z) (name : list Z) : VM bool :=
  let* _ := begin_transaction in
  let* child_ino := remove_dir_entry parent_ino (encode_utf16 name) in
  match child_ino with
  | None => let* _ := abort_transaction in sret false
  | Some child_ino =>
      let* child := vol_inode_read child_ino in
      if dinode_is_dir (in_dinode child) then abort_with InvalidFileType else
      let new_nlink := saturating_sub (dinode_nlink (in_dinode child)) 1 in
      let* v := sget in
      let should_free := (new_nlink =? 0) && negb (has_open_handles (in_page_block child) v) in
      let* _ :=
        if should_free then
          let* freed := slift (file_extents child) in
          let* _ := update_inode_page child_ino (in_page_block child) (in_page_offset child) clear_dinode in
          free_blocks freed
        else update_inode_page child_ino (in_page_block child) (in_page_offset child) (put_u32 40 new_nlink) in
      let* _ := mark_page_dirty child_ino (in_page_block child) in
      finish_parent parent_ino true
  end.

Definition open_file (ino : Z) : VM unit :=
  let* inode := vol_inode_read ino in
  let* v := sget in
  let* count := slift (add_u32 (default 0 (v_open_handles v !! in_page_block inode)) 1) in
  smod (fun v => v_with_handles (<[in_page_block inode := count]> (v_open_handles v)) v).

Definition release_file (ino : Z) : VM unit :=
  let* inode := vol_inode_read ino in
  let block := in_page_block inode in
  let* _ := smod (fun v => v_with_handles (alter (fun count => saturating_sub count 1) block (v_open_handles v)) v) in
  let* _ := begin_transaction in
  let* v := sget in
  let* _ :=
    if (dinode_nlink (in_dinode inode) =? 0) && negb (has_open_handles block v) then
      let* freed := slift (file_extents inode) in
      let* _ := free_blocks freed in
      let* _ := update_inode_page ino block (in_page_offset inode) (put_u32 52 0) in
      mark_page_dirty ino block
    else sret tt in
  let* _ := vol_commit_transaction in
  sret tt.

(** ** Renaming *)

(** The checks on an existing destination: [Ok] to go on, the error to abort
    with otherwise. *)
Definition check_dest (child_is_dir : bool) (dest : Inode) : result (option StorageError) :=
  let dest_is_dir := dinode_is_dir (in_dinode dest) in
  if dest_is_dir && negb child_is_dir then Ok (Some (Other "cannot rename file over directory")) else
  if child_is_dir && negb dest_is_dir then Ok (Some (Other "cannot rename directory over file")) else
  if child_is_dir && dest_is_dir then
    let! dtree := dt_from_inode_data (dinode_dtroot_bytes (in_dinode dest)) in
    let! entries := dt_entries dtree in
    Ok (if bool_decide (entries = []) then None else Some (Other "destination directory not empty"))
  else Ok None.

Definition refuse_dest (child_is_dir : bool) (dest : Inode) : VM unit :=
  let* refused := slift (check_dest child_is_dir dest) in
  match refused with Some e => abort_with e | None => sret tt end.

(** [LittleEndian::write_u32] of the parent at [dt_start + 20]. *)
Definition put_dotdot (parent : Z) (d : list byte) : result (list byte) :=
  let parent_off := dinode_size - 288 + 20 in
  if parent_off + 4 <=? zlen d then put_u32 parent_off parent d else Ok d.

(** [nlink.saturating_sub(1)]. *)
Definition drop_link_sat (d : list byte) : result (list byte) :=
  let! n := slice d 40 44 in put_u32 40 (saturating_sub (read_u32 n) 1) d.

Definition mark_inode (ino : Z) : VM unit :=
  let* inode := vol_inode_read ino in mark_page_dirty ino (in_page_block inode).

Definition rename_across (old_parent new_parent : Z) (old_name new_name : list Z) (child_ino : Z) (child_is_dir : bool) : VM unit :=
  let* dest_ino := remove_dir_entry new_parent new_name in
  let* _ := match dest_ino with
            | Some dest_ino =>
                let* dest := vol_inode_read dest_ino in
                let* _ := refuse_dest child_is_dir dest in
                mark_page_dirty new_parent (in_page_block dest)
            | None => sret tt
            end in
  let* num_entries := next_dir_index new_parent in
  let* inserted := insert_dir_entry new_parent new_name child_ino num_entries in
  if negb inserted then abort_with (Other "failed to insert directory entry") else
  let* _ := mark_inode new_parent in
  let* _ := remove_dir_entry old_parent old_name in
  let* _ := mark_inode old_parent in
  if child_is_dir then
    let* _ := update_and_mark child_ino (put_dotdot new_parent) in
    let* _ := update_and_mark old_parent drop_link_sat in
    update_and_mark new_parent add_link
  else sret tt.

Definition rename_within (parent_ino : Z) (old_name new_name : list Z) (child_ino : Z) (child_is_dir : bool) : VM unit :=
  let* parent := vol_inode_read parent_ino in
  let* dtree := inode_dtree parent in
  let* dest_entry := slift (dt_lookup new_name dtree) in
  let* _ := match dest_entry with
            | Some e => let* dest := vol_inode_read (de_inumber e) in refuse_dest child_is_dir dest
            | None => sret tt
            end in
  let* new_num_entries := slift (entry_count dtree) in
  let* parent := vol_inode_read parent_ino in
  let* dtree := inode_dtree parent in
  let* dtree := if bool_decide (old_name = new_name) then sret dtree
                else let* (_, dtree) := slift (dt_remove old_name dtree) in sret dtree in
  let* (_, dtree) := slift (dt_remove new_name dtree) in
  let* (_, dtree) := slift (dt_insert new_name child_ino new_num_entries dtree) in
  let* _ := update_inode_page parent_ino (in_page_block parent) (in_page_offset parent) (put_root (dt_to_bytes dtree)) in
  mark_page_dirty parent_ino (in_page_block parent).

Definition rename (old_parent : Z) (old_name : list Z) (new_parent : Z) (new_name : list Z) : VM bool :=
  let* _ := begin_transaction in
  let old_name_u16 := encode_utf16 old_name in
  let new_name_u16 := encode_utf16 new_name in
  if bad_name old_name_u16 then abort_with (Other "invalid source filename length") else
  if bad_name new_name_u16 then abort_with (Other "invalid destination filename length") else
  let* parent := vol_inode_read old_parent in
  let* dtree := inode_dtree parent in
  let* entry := slift (dt_lookup old_name_u16 dtree) in
  match entry with
  | None => abort_with NotFound
  | Some e =>
      let* child := vol_inode_read (de_inumber e) in
      let child_is_dir := dinode_is_dir (in_dinode child) in
      let* _ := if negb (old_parent =? new_parent)
                then rename_across old_parent new_parent old_name_u16 new_name_u16 (de_inumber e) child_is_dir
                else rename_within old_parent old_name_u16 new_name_u16 (de_inumber e) child_is_dir in
      let* _ := vol_commit_transaction in
      sret true
  end.
End directories.
