(* ===== verification/Xattr.v ===== *)
(** * Extended attributes ([src/src/volume.rs])

    Attributes are kept inline in the first bytes of an inode's union area as a
    list of entries: two lengths, the name and the value. [setxattr],
    [getxattr], [listxattr] and [removexattr] parse the list, work on it and
    write it back; the specification is a finite map from names to values. *)

From stdpp Require Import gmap.
From Stdlib Require Import ZArith Lia.
From S2P Require Import Prelude Types Storage PageCache LogMgr Recovery Transaction Inode Utf Volume.

Definition IXATTRSIZE : Z := 128.
Definition INLINEEA : Z := 0x00040000.
(** [DxdFlag::DXD_INLINE.bits()]. *)
Definition DXD_INLINE : Z := 0x40.

Section codec.
Context {LE : LittleEndian}.

(** The loop of [parse_xattr_list] from a position. *)
Fixpoint parse_from (fuel : nat) (data : list byte) (pos : Z) : list (list byte * list byte) :=
  match fuel with
  | O => []
  | S fuel =>
      if pos + 4 <=? zlen data then
        let name_len := read_u16 (zslice data pos (pos + 2)) in
        let val_len := read_u16 (zslice data (pos + 2) (pos + 4)) in
        let pos := pos + 4 in
        if zlen data <? pos + name_len + val_len then []
        else (zslice data pos (pos + name_len), zslice data (pos + name_len) (pos + name_len + val_len))
               :: parse_from fuel data (pos + name_len + val_len)
      else []
  end.

(** An entry has at least four bytes. *)
Definition parse_xattr_list (data : list byte) : list (list byte * list byte) := parse_from (length data) data 0.

(** [as u16] of lengths capped at 255 and 65535; [to_le_bytes]. *)
Definition xattr_entry (name value : list byte) : list byte :=
  let name_len := Z.min (zlen name) 255 in
  let val_len := Z.min (zlen value) 65535 in
  le_bytes 2 name_len ++ le_bytes 2 val_len ++ zslice name 0 name_len ++ value.

Definition write_xattr_entry (buf name value : list byte) : list byte := buf ++ xattr_entry name value.

Definition write_list (l : list (list byte * list byte)) : list byte :=
  fold_left (fun buf e => write_xattr_entry buf e.1 e.2) l [].

Definition has_name (name : list byte) (l : list (list byte * list byte)) : bool :=
  existsb (fun e => bool_decide (e.1 = name)) l.

(** The list [setxattr] writes: the entry replaced, or appended. *)
Definition set_list (name value : list byte) (parsed : list (list byte * list byte)) : list byte :=
  let new_list := fold_left (fun buf e =>
    write_xattr_entry buf e.1 (if bool_decide (e.1 = name) then value else e.2)) parsed [] in
  if has_name name parsed then new_list else write_xattr_entry new_list name value.

(** The list [removexattr] writes. *)
Definition remove_list (name : list byte) (parsed : list (list byte * list byte)) : list byte :=
  fold_left (fun buf e => if bool_decide (e.1 = name) then buf else write_xattr_entry buf e.1 e.2) parsed [].

Definition find_value (name : list byte) (parsed : list (list byte * list byte)) : option (list byte) :=
  snd <$> List.find (fun e => bool_decide (e.1 = name)) parsed.

Definition read_inline_xattr_data (inode : Inode) : list byte :=
  let ea := di_ea (in_dinode inode) in
  if Z.land (bval (dxd_flag ea)) DXD_INLINE =? 0 then [] else
  let ea_size := dxd_length ea in
  if ea_size =? 0 then [] else
  let end_ := Z.min ea_size (zlen (di_u (in_dinode inode))) in
  zslice (di_u (in_dinode inode)) 0 end_.

(** What both updates do to the dinode: clear the area, store the list, and
    write the descriptor and the mode. *)
Definition put_xattrs (flag : Z) (new_mode : Z -> Z) (new_list : list byte) (d : list byte) : result (list byte) :=
  let! d := splice d 128 (zeros (Z.to_nat IXATTRSIZE)) in
  let! d := if 128 + zlen new_list <=? zlen d then splice d 128 new_list else Ok d in
  let! d := set d 104 (bof flag) in
  let! d := splice d 108 (write_u32 (as_u32 (zlen new_list))) in
  let! d := splice d 112 (zeros 8) in
  let! mode := slice d 52 56 in
  splice d 52 (write_u32 (new_mode (read_u32 mode))).

Definition set_update (new_list : list byte) : list byte -> result (list byte) :=
  put_xattrs DXD_INLINE (fun mode => Z.lor mode INLINEEA) new_list.

Definition remove_update (new_list : list byte) : list byte -> result (list byte) :=
  let empty := bool_decide (new_list = []) in
  put_xattrs (if empty then 0 else DXD_INLINE)
    (fun mode => if empty then Z.land mode (not_u32 INLINEEA) else Z.lor mode INLINEEA) new_list.

(** ** The list is a map *)

Context {LES : LittleEndianSpec}.

Definition entry_ok (e : list byte * list byte) : Prop := zlen e.1 <= 255 /\ zlen e.2 <= 65535.

Definition set_entries (name value : list byte) (l : list (list byte * list byte)) : list (list byte * list byte) :=
  let l' := map (fun e => (e.1, if bool_decide (e.1 = name) then value else e.2)) l in
  if has_name name l then l' else l' ++ [(name, value)].

Definition remove_entries (name : list byte) (l : list (list byte * list byte)) : list (list byte * list byte) :=
  List.filter (fun e => negb (bool_decide (e.1 = name))) l.

Lemma write_list_flat l : write_list l = flat_map (fun e => xattr_entry e.1 e.2) l.
Proof.
  unfold write_list, write_xattr_entry.
  enough (forall acc, fold_left (fun buf (e : list byte * list byte) => buf ++ xattr_entry e.1 e.2) l acc = acc ++ flat_map (fun e => xattr_entry e.1 e.2) l) as -> by done.
  induction l as [|e l IH]; intros acc; cbn [fold_left flat_map]; [by rewrite app_nil_r|]. by rewrite IH, app_assoc.
Qed.

Lemma write_list_snoc l n v : write_list (l ++ [(n, v)]) = write_xattr_entry (write_list l) n v.
Proof. rewrite !write_list_flat, flat_map_app. cbn. by rewrite app_nil_r. Qed.

Lemma set_list_entries name value l : set_list name value l = write_list (set_entries name value l).
Proof.
  unfold set_list, set_entries. cbn zeta.
  assert (H : fold_left (fun buf (e : list byte * list byte) => write_xattr_entry buf e.1 (if bool_decide (e.1 = name) then value else e.2)) l [] =
    write_list (map (fun e => (e.1, if bool_decide (e.1 = name) then value else e.2)) l)).
  { unfold write_list. generalize (@nil byte). induction l as [|e l IH]; intros acc; [done|]. cbn [fold_left map fst snd]. apply IH. }
  rewrite H. destruct (has_name name l); [done|]. by rewrite write_list_snoc.
Qed.

Lemma remove_list_entries name l : remove_list name l = write_list (remove_entries name l).
Proof.
  unfold remove_list, write_list, remove_entries. generalize (@nil byte). induction l as [|e l IH]; intros acc; [done|].
  cbn [fold_left List.filter]. destruct (bool_decide (e.1 = name)); cbn [negb fold_left]; apply IH.
Qed.

Lemma zlen_xattr_entry n v : zlen (xattr_entry n v) = 4 + Z.min (zlen n) 255 + zlen v.
Proof.
  unfold xattr_entry. rewrite !zlen_app, zlen_zslice by (pose proof (zlen_nonneg n); lia).
  assert (H2 : forall z, zlen (le_bytes 2 z) = 2) by (intros; by apply (zlen_of_length _ 2), length_le_bytes). rewrite !H2. lia.
Qed.

(** A list that fits in the inline area has only entries that fit. *)
Lemma write_list_small l : zlen (write_list l) <= 255 -> Forall entry_ok l.
Proof.
  rewrite write_list_flat. induction l as [|[n v] l IH]; [constructor|]. cbn [flat_map fst snd]. rewrite zlen_app, zlen_xattr_entry. intros H.
  pose proof (zlen_nonneg n). pose proof (zlen_nonneg v). pose proof (zlen_nonneg (flat_map (fun e => xattr_entry e.1 e.2) l)).
  constructor; [split; cbn; lia|]. apply IH. lia.
Qed.

Lemma zslice_middle (l m k : list byte) a b : a = zlen l -> b = a + zlen m -> zslice (l ++ m ++ k) a b = m.
Proof.
  intros -> ->. rewrite zslice_app_r, zslice_app_l by lia. apply zslice_whole; lia.
Qed.

(** Parsing one entry. *)
Lemma parse_from_entry fuel pre n v rest :
  entry_ok (n, v) ->
  parse_from (S fuel) (pre ++ xattr_entry n v ++ rest) (zlen pre) =
  (n, v) :: parse_from fuel ((pre ++ xattr_entry n v) ++ rest) (zlen (pre ++ xattr_entry n v)).
Proof.
  intros [Hn Hv]. cbn [fst snd] in Hn, Hv. pose proof (zlen_nonneg n). pose proof (zlen_nonneg v). pose proof (zlen_nonneg rest).
  assert (He : xattr_entry n v = le_bytes 2 (zlen n) ++ le_bytes 2 (zlen v) ++ n ++ v).
  { unfold xattr_entry. rewrite !Z.min_l by lia. by rewrite zslice_all. }
  assert (H2 : forall z, zlen (le_bytes 2 z) = 2) by (intros; by apply (zlen_of_length _ 2), length_le_bytes).
  rewrite <- (app_assoc pre), He, <- !app_assoc. cbn [parse_from].
  set (data := pre ++ _).
  assert (Hz : zlen data = zlen pre + 4 + zlen n + zlen v + zlen rest) by (unfold data; rewrite !zlen_app, !H2; lia).
  assert (H16 : forall z, 0 <= z <= 65535 -> read_u16 (le_bytes 2 z) = z).
  { intros z Hr. rewrite read_u16_spec by apply length_le_bytes. apply le_val_bytes. cbn; lia. }
  destruct (Z.leb_spec (zlen pre + 4) (zlen data)); [|lia].
  assert (Hs1 : zslice data (zlen pre) (zlen pre + 2) = le_bytes 2 (zlen n)) by (apply zslice_middle; rewrite ?H2; lia).
  assert (Hd2 : data = (pre ++ le_bytes 2 (zlen n)) ++ le_bytes 2 (zlen v) ++ n ++ v ++ rest) by (unfold data; by rewrite <- !app_assoc).
  assert (Hd3 : data = (pre ++ le_bytes 2 (zlen n) ++ le_bytes 2 (zlen v)) ++ n ++ v ++ rest) by (unfold data; by rewrite <- !app_assoc).
  assert (Hd4 : data = (pre ++ le_bytes 2 (zlen n) ++ le_bytes 2 (zlen v) ++ n) ++ v ++ rest) by (unfold data; by rewrite <- !app_assoc).
  assert (Hs2 : zslice data (zlen pre + 2) (zlen pre + 4) = le_bytes 2 (zlen v)) by (rewrite Hd2; apply zslice_middle; rewrite ?zlen_app, ?H2; lia).
  rewrite Hs1, Hs2, !H16 by lia.
  destruct (Z.ltb_spec (zlen data) (zlen pre + 4 + zlen n + zlen v)); [lia|]. f_equal; [f_equal|].
  - rewrite Hd3. apply zslice_middle; rewrite ?zlen_app, ?H2; lia.
  - rewrite Hd4. apply zslice_middle; rewrite ?zlen_app, ?H2; lia.
  - f_equal. rewrite !zlen_app, !H2. lia.
Qed.

Lemma parse_from_flat l : forall fuel pre, Forall entry_ok l -> (length l <= fuel)%nat ->
  parse_from fuel (pre ++ flat_map (fun e => xattr_entry e.1 e.2) l) (zlen pre) = l.
Proof.
  induction l as [|[n v] l IH]; intros fuel pre Hok Hf.
  - cbn [flat_map]. rewrite app_nil_r. destruct fuel; [done|]. cbn [parse_from]. destruct (Z.leb_spec (zlen pre + 4) (zlen pre)); [lia|done].
  - destruct fuel as [|fuel]; [cbn in Hf; lia|]. apply Forall_cons in Hok as [He Hok]. cbn [flat_map fst snd].
    rewrite parse_from_entry by done. f_equal. apply IH; [done|]. cbn in Hf. lia.
Qed.

Lemma length_write_list l : (length l <= length (write_list l))%nat.
Proof.
  rewrite write_list_flat. induction l as [|[n v] l IH]; [done|]. cbn [flat_map length fst snd]. rewrite length_app.
  pose proof (zlen_xattr_entry n v) as Hz. pose proof (zlen_nonneg n). pose proof (zlen_nonneg v). unfold zlen in *. lia.
Qed.

(** What was written is parsed back. *)
Lemma parse_write_list l : Forall entry_ok l -> parse_xattr_list (write_list l) = l.
Proof.
  intros Hok. unfold parse_xattr_list. pose proof (length_write_list l) as Hl. revert Hl. rewrite write_list_flat. intros Hl.
  by apply (parse_from_flat l _ []).
Qed.

Lemma find_value_cons m e l : find_value m (e :: l) = if bool_decide (e.1 = m) then Some e.2 else find_value m l.
Proof. unfold find_value. cbn [List.find]. by destruct (bool_decide (e.1 = m)). Qed.

Lemma find_value_has m l : is_Some (find_value m l) <-> has_name m l = true.
Proof.
  induction l as [|e l IH]; [split; [by intros []|done]|]. rewrite find_value_cons. cbn [has_name existsb].
  destruct (bool_decide (e.1 = m)); cbn [orb]; [by split|exact IH].
Qed.

(** Setting one name. *)
Lemma find_value_set name value l m :
  find_value m (set_entries name value l) = if decide (m = name) then Some value else find_value m l.
Proof.
  unfold set_entries. cbn zeta. destruct (has_name name l) eqn:Eh.
  - apply find_value_has in Eh as [old Ho]. revert Ho. induction l as [|[n v] l IH]; [done|]. cbn [map fst snd]. rewrite !find_value_cons. cbn [fst snd].
    destruct (decide (m = name)) as [->|Hm].
    + destruct (bool_decide (n = name)); [done|]. exact IH.
    + destruct (bool_decide_reflect (n = name)) as [->|Hn]; [|destruct (bool_decide (n = m)); [done|exact IH]].
      intros _. rewrite bool_decide_false by done. clear IH. induction l as [|[n' v'] l IH]; [done|]. cbn [map fst snd]. rewrite !find_value_cons. cbn [fst snd].
      destruct (bool_decide_reflect (n' = m)) as [->|]; [by rewrite bool_decide_false|exact IH].
  - induction l as [|[n v] l IH]; cbn [map app fst snd]; rewrite !find_value_cons; cbn [fst snd].
    + case_bool_decide; case_decide; congruence.
    + cbn [has_name existsb fst] in Eh. apply orb_false_iff in Eh as [Hn Eh]. rewrite Hn. apply bool_decide_eq_false in Hn.
      destruct (bool_decide_reflect (n = m)) as [->|]; [by rewrite decide_False|by apply IH].
Qed.

(** Removing one name. *)
Lemma find_value_remove name l m :
  find_value m (remove_entries name l) = if decide (m = name) then None else find_value m l.
Proof.
  induction l as [|[n v] l IH]; [by destruct (decide (m = name))|]. unfold remove_entries in *. cbn [List.filter fst]. rewrite find_value_cons. cbn [fst snd].
  destruct (bool_decide_reflect (n = name)) as [->|Hn]; cbn [negb].
  - rewrite IH. destruct (decide (m = name)); [done|]. by rewrite bool_decide_false.
  - rewrite find_value_cons. cbn [fst snd]. rewrite IH. destruct (bool_decide_reflect (n = m)) as [->|]; [by rewrite decide_False|done].
Qed.
End codec.

(** ** The operations *)

Section operations.
Context {LE : LittleEndian} {L : Lru PageKey CachedPage} {HO : HashOrder} {W : Type} {FS : Storage W}.
Abbreviation VM := (ST (Volume W) StorageError).

Definition XATTR_CREATE : Z := 1.
Definition XATTR_REPLACE : Z := 2.

Definition setxattr (ino : Z) (name : list Z) (value : list byte) (flags : Z) : VM unit :=
  let* _ := begin_transaction in
  let* inode := vol_inode_read ino in
  let name_bytes := as_bytes name in
  if 255 <? zlen name_bytes then abort_with XattrNameTooLong else
  if IXATTRSIZE <? zlen value then abort_with XattrValueTooLarge else
  let parsed := parse_xattr_list (read_inline_xattr_data inode) in
  let exists_ := has_name name_bytes parsed in
  if negb (Z.land flags XATTR_CREATE =? 0) && exists_ then abort_with XattrAlreadyExists else
  if negb (Z.land flags XATTR_REPLACE =? 0) && negb exists_ then abort_with XattrNotFound else
  let new_list := set_list name_bytes value parsed in
  if IXATTRSIZE <? zlen new_list then abort_with XattrDataTooLarge else
  let* _ := update_inode_page ino (in_page_block inode) (in_page_offset inode) (set_update new_list) in
  let* _ := mark_page_dirty ino (in_page_block inode) in
  let* _ := vol_commit_transaction in
  sret tt.

Definition getxattr (ino : Z) (name : list Z) : VM (option (list byte)) :=
  let* inode := vol_inode_read ino in
  sret (find_value (as_bytes name) (parse_xattr_list (read_inline_xattr_data inode))).

Definition listxattr (ino : Z) : VM (list (list Z)) :=
  let* inode := vol_inode_read ino in
  sret ((fun e => from_utf8_lossy e.1) <$> parse_xattr_list (read_inline_xattr_data inode)).

Definition removexattr (ino : Z) (name : list Z) : VM bool :=
  let* _ := begin_transaction in
  let* inode := vol_inode_read ino in
  let parsed := parse_xattr_list (read_inline_xattr_data inode) in
  if negb (has_name (as_bytes name) parsed) then let* _ := abort_transaction in sret false else
  let new_list := remove_list (as_bytes name) parsed in
  let* _ := update_inode_page ino (in_page_block inode) (in_page_offset inode) (remove_update new_list) in
  let* _ := mark_page_dirty ino (in_page_block inode) in
  let* _ := vol_commit_transaction in
  sret true.
End operations.
