(* ===== verification/VolumeOps.v ===== *)
(** * The calls of a mounted volume

    The modifying calls of [Volume] as one type, so that properties of all of
    them can be stated at once: who may run, what state the transaction
    manager is left in, and how [sync] ends a transaction that was left open. *)

From stdpp Require Import gmap.
From Stdlib Require Import ZArith Lia.
From S2P Require Import Prelude Types Storage PageCache Dmap Xtree Dtree LogMgr Devices Recovery Transaction Inode Utf Volume VolumeData VolumeDir Xattr.

Inductive VolCall :=
| CWrite (check : nat -> bool) (ino offset : Z) (data : list byte)
| CTruncate (ino new_size : Z)
| CFallocate (ino offset len mode : Z)
| CCopyRange (src_ino src_offset dst_ino dst_offset len : Z)
| CSetattr (ino : Z) (mode uid gid atime mtime : option Z)
| CFsync (ino : Z)
| CCreate (parent : Z) (name : list Z)
| CMkdir (parent : Z) (name : list Z)
| CMknod (parent : Z) (name : list Z) (mode rdev : Z)
| CSymlink (parent : Z) (name target : list Z)
| CLink (parent : Z) (name : list Z) (target : Z)
| CRmdir (parent : Z) (name : list Z)
| CUnlink (parent : Z) (name : list Z)
| CRename (old_parent : Z) (old_name : list Z) (new_parent : Z) (new_name : list Z)
| CSetxattr (ino : Z) (name : list Z) (value : list byte) (flags : Z)
| CRemovexattr (ino : Z) (name : list Z)
| CRelease (ino : Z).

Section calls.
Context {LE : LittleEndian} {L : Lru PageKey CachedPage} {HO : HashOrder} {XF : XadFlags} {W : Type} {FS : Storage W}.
Abbreviation VM := (ST (Volume W) StorageError).

(** A call with its result dropped. *)
Definition drop {A} (m : VM A) : VM unit := let* _ := m in sret tt.

Definition run_call (c : VolCall) : VM unit :=
  match c with
  | CWrite check ino offset data => drop (write_at_with_interrupt check data ino offset)
  | CTruncate ino new_size => truncate ino new_size
  | CFallocate ino offset len mode => fallocate ino offset len mode
  | CCopyRange si so di do_ len => drop (copy_file_range_extent si so di do_ len)
  | CSetattr ino mode uid gid atime mtime => setattr ino mode uid gid atime mtime
  | CFsync ino => fsync ino
  | CCreate p name => drop (create_file p name)
  | CMkdir p name => drop (mkdir p name)
  | CMknod p name mode rdev => drop (mknod p name mode rdev)
  | CSymlink p name target => drop (symlink p name target)
  | CLink p name target => drop (link_file p name target)
  | CRmdir p name => drop (rmdir p name)
  | CUnlink p name => drop (unlink_file p name)
  | CRename op on np nn => drop (rename op on np nn)
  | CSetxattr ino name value flags => setxattr ino name value flags
  | CRemovexattr ino name => drop (removexattr ino name)
  | CRelease ino => release_file ino
  end.

(** The inode a call reads first, right after it has begun its transaction. *)
Definition first_inode (c : VolCall) : option Z :=
  match c with
  | CWrite _ ino _ _ | CTruncate ino _ | CSetattr ino _ _ _ _ _ | CFsync ino | CSetxattr ino _ _ _ | CRemovexattr ino _ => Some ino
  | CFallocate ino _ _ mode => if Z.land mode FALLOC_FL_UNSUPPORTED =? 0 then Some ino else None
  | CCopyRange si so _ do_ len =>
      if (so mod BLOCK_SIZE =? 0) && (do_ mod BLOCK_SIZE =? 0) && (len mod BLOCK_SIZE =? 0) && negb (len =? 0) then Some si else None
  | CLink _ _ target => Some target
  | CRmdir p _ | CUnlink p _ => Some p
  | CRename p on _ nn => if bad_name (encode_utf16 on) || bad_name (encode_utf16 nn) then None else Some p
  | CCreate _ _ | CMkdir _ _ | CMknod _ _ _ _ | CSymlink _ _ _ | CRelease _ => None
  end.

Definition in_progress : StorageError := Other "transaction already in progress".

Definition idle (v : Volume W) : Prop := tm_active (v_tx_mgr v) = None.

Lemma sbind_err {A B} (m : VM A) (k : A -> VM B) v e v' : m v = (Err e, v') -> sbind m k v = (Err e, v').
Proof. unfold sbind. by intros ->. Qed.

(** ** Running while a transaction is active *)

Lemma begin_active v : ~ idle v -> begin_transaction v = (Err in_progress, v).
Proof. unfold idle, begin_transaction, tm_begin. intros Hi. destruct (tm_active (v_tx_mgr v)) eqn:E; [|done]. by destruct v. Qed.

Lemma begin_idle v : idle v -> exists v1,
  begin_transaction v = (Ok (tm_next_txid (v_tx_mgr v)), v1) /\ ~ idle v1 /\ v_storage v1 = v_storage v /\
  table_view v1 = table_view v /\ v_bmap v1 = v_bmap v /\ v_log v1 = v_log v /\
  tm_active (v_tx_mgr v1) = Some (mkTxn (tm_next_txid (v_tx_mgr v)) [] [] []).
Proof.
  unfold idle, begin_transaction, tm_begin. intros ->. eexists. split; [reflexivity|]. by destruct v.
Qed.

(** The calls that start with [begin_transaction], possibly after a check of
    their arguments. *)
Lemma bind_begin_active {A} (k : Z -> VM A) v : ~ idle v -> sbind begin_transaction k v = (Err in_progress, v).
Proof. intros Hi. unfold sbind. by rewrite begin_active. Qed.

(** ** Leaving no transaction behind *)

(** When [m] succeeds no transaction is active. *)
Definition ends_idle {A} (m : VM A) : Prop := forall v a v', m v = (Ok a, v') -> idle v'.
(** [m] does not start or end a transaction when it succeeds. *)
Definition stays_idle {A} (m : VM A) : Prop := forall v a v', m v = (Ok a, v') -> idle v -> idle v'.

Lemma ends_idle_bind {A B} (m : VM A) (k : A -> VM B) : (forall a, ends_idle (k a)) -> ends_idle (sbind m k).
Proof. intros Hk v b v' H. apply sbind_inv in H as (a & v1 & _ & H). by eapply Hk. Qed.
Lemma ends_idle_first {A B} (m : VM A) (k : A -> VM B) : ends_idle m -> (forall a, stays_idle (k a)) -> ends_idle (sbind m k).
Proof. intros Hm Hk v b v' H. apply sbind_inv in H as (a & v1 & H1 & H). eapply Hk; [done|]. by eapply Hm. Qed.
Lemma ends_idle_if {A} (b : bool) (m1 m2 : VM A) : ends_idle m1 -> ends_idle m2 -> ends_idle (if b then m1 else m2).
Proof. by destruct b. Qed.
Lemma ends_idle_fail {A} e : ends_idle (sfail (A := A) e).
Proof. by intros v a v' [=]. Qed.
Lemma stays_idle_ret {A} (a : A) : stays_idle (sret a).
Proof. intros v b v' [= <- <-]. done. Qed.

Lemma vol_commit_idle v : idle (vol_commit_transaction v).2.
Proof.
  unfold vol_commit_transaction, sbind at 1.
  assert (H : idle (on_commit (commit (LG := FS) (FS := FS)) v).2).
  { unfold on_commit, idle. pose proof (commit_mgr (LG := FS) (FS := FS) (mkTx (v_tx_mgr v) (v_page_cache v) (v_log v) (v_storage v))) as [_ H].
    by destruct (commit _) as [r s]. }
  destruct (on_commit _ v) as [[res| |] v1]; [|done..]. cbn [snd] in H. unfold sbind, on_bmap.
  destruct (v_bmap v1) as [b|]; [|done]. by destruct (bam_commit hash_order _) as [[]].
Qed.

Lemma ends_idle_commit {A} (a : A) : ends_idle (let* _ := vol_commit_transaction in sret a).
Proof. apply ends_idle_first; [|intros; apply stays_idle_ret]. intros v r v' H. pose proof (vol_commit_idle v). by rewrite H in *. Qed.

Lemma ends_idle_abort : ends_idle abort_transaction.
Proof.
  intros v a v' H. apply sbind_inv in H as (u & v1 & _ & H). revert H. unfold smod, idle, tm_abort. intros [= _ <-].
  by destruct (tm_active (v_tx_mgr v1)) eqn:E.
Qed.

Lemma ends_idle_abort_ret {A} (a : A) : ends_idle (let* _ := abort_transaction in sret a).
Proof. apply ends_idle_first; [apply ends_idle_abort|intros; apply stays_idle_ret]. Qed.

Lemma ends_idle_abort_with {A} e : ends_idle (abort_with (A := A) e).
Proof. apply ends_idle_bind. intros. apply ends_idle_fail. Qed.

Lemma ends_idle_finish {A} ino block (a : A) : ends_idle (finish ino block a).
Proof. apply ends_idle_bind. intros. apply ends_idle_commit. Qed.

Lemma ends_idle_finish_parent {A} ino (a : A) : ends_idle (finish_parent ino a).
Proof. apply ends_idle_bind. intros. apply ends_idle_finish. Qed.

Lemma ends_idle_drop {A} (m : VM A) : ends_idle m -> ends_idle (drop m).
Proof. intros Hm. apply ends_idle_first; [done|intros; apply stays_idle_ret]. Qed.

Lemma ends_idle_write check data ino offset : ends_idle (write_at_with_interrupt check data ino offset).
Proof.
  unfold write_at_with_interrupt. cbn zeta. repeat (apply ends_idle_bind; intros ?). intros v r v' H.
  pose proof (vol_commit_idle v) as Hi. destruct (vol_commit_transaction v) as [[res|e|] v1]; [|exact (ends_idle_abort_with e _ _ _ H)|done].
  by simplify_eq.
Qed.

Ltac ends_idle :=
  repeat match goal with
  | |- ends_idle (let* _ := vol_commit_transaction in sret _) => apply ends_idle_commit
  | |- ends_idle (let* _ := abort_transaction in sret _) => apply ends_idle_abort_ret
  | |- ends_idle (abort_with _) => apply ends_idle_abort_with
  | |- ends_idle (finish _ _ _) => apply ends_idle_finish
  | |- ends_idle (finish_parent _ _) => apply ends_idle_finish_parent
  | |- ends_idle (sfail _) => apply ends_idle_fail
  | |- ends_idle (drop _) => apply ends_idle_drop
  | |- ends_idle (sbind _ _) => apply ends_idle_bind; intros ?
  | |- ends_idle (let _ := _ in _) => cbn zeta
  | |- ends_idle (if _ then _ else _) => apply ends_idle_if
  | |- ends_idle (match ?x with _ => _ end) => destruct x
  end.

Lemma copy_idle si so di do_ len v a v' : idle v -> copy_file_range_extent si so di do_ len v = (Ok a, v') -> idle v'.
Proof.
  unfold copy_file_range_extent. cbn zeta. intros Hi. destruct (_ || _); [intros [= <- <-]; done|]. intros Hc.
  match type of Hc with ?m v = _ => enough (He : ends_idle m) by exact (He _ _ _ Hc) end. ends_idle.
Qed.

(** C29: a call that succeeds leaves no transaction behind, so the next call
    can begin its own. *)
Theorem successful_call_ends_idle c v v' (Hi : idle v) (Hc : run_call c v = (Ok tt, v')) : idle v'.
Proof.
  destruct c; cbn [run_call] in Hc;
    lazymatch type of Hc with
    | drop (copy_file_range_extent _ _ _ _ _) v = _ =>
        apply sbind_inv in Hc as (a & v1 & Hc & [= <-]); by eapply copy_idle
    | ?m v = _ => enough (He : ends_idle m) by exact (He _ _ _ Hc)
    end.
  1: apply ends_idle_drop, ends_idle_write.
  all: unfold truncate, fallocate, setattr, fsync, create_file, mkdir, mknod, symlink, link_file, rmdir, unlink_file, rename,
    setxattr, removexattr, release_file; ends_idle.
Qed.

(** ** A failed call blocks the volume *)

(** The calls that begin a transaction before anything else. *)
Definition begins (c : VolCall) : bool :=
  match c with
  | CFallocate _ _ _ mode => Z.land mode FALLOC_FL_UNSUPPORTED =? 0
  | CCopyRange _ so _ do_ len => (so mod BLOCK_SIZE =? 0) && (do_ mod BLOCK_SIZE =? 0) && (len mod BLOCK_SIZE =? 0) && negb (len =? 0)
  | CRelease _ => false
  | _ => true
  end.

Lemma call_active c v : begins c = true -> ~ idle v -> run_call c v = (Err in_progress, v).
Proof.
  intros Hb Hi. destruct c; cbn [run_call begins] in *; try done; try (unfold drop; rewrite (sbind_err _ _ _ in_progress v); [done|]); try by apply bind_begin_active.
  - unfold fallocate. rewrite Hb. by apply bind_begin_active.
  - unfold copy_file_range_extent. cbn zeta. replace (_ || _) with false by (destruct (_ mod _ =? 0), (_ mod _ =? 0), (_ mod _ =? 0), (len =? 0); done).
    by apply bind_begin_active.
Qed.
Lemma vol_inode_read_err v ino e :
  (inode_read (table_view v) ino (v_storage v)).1 = Err e ->
  exists w, vol_inode_read ino v = (Err e, v_with_dev w v).
Proof. unfold vol_inode_read, on_storage. destruct (inode_read _ _ _) as [r w]. cbn [fst]. intros ->. by exists w. Qed.

Lemma call_read_fails c ino v e :
  idle v -> first_inode c = Some ino -> (inode_read (table_view v) ino (v_storage v)).1 = Err e ->
  exists v', run_call c v = (Err e, v') /\ ~ idle v'.
Proof.
  intros Hi Hf He. destruct (begin_idle v Hi) as (v1 & Hb & Hi1 & Hs & Ht & _).
  rewrite <- Hs, <- Ht in He. destruct (vol_inode_read_err v1 ino e He) as [w Hr].
  exists (v_with_dev w v1). split; [|done].
  destruct c; cbn [run_call first_inode] in *; try discriminate;
    try (lazymatch goal with |- drop _ _ = _ => apply sbind_err end);
    unfold truncate, fallocate, setattr, fsync, link_file, rmdir, unlink_file, rename, setxattr, removexattr, write_at_with_interrupt,
      copy_file_range_extent; cbn zeta; simplify_eq; try (rewrite (sbind_ok _ _ _ _ _ Hb); by apply sbind_err).
  - destruct (Z.land mode FALLOC_FL_UNSUPPORTED =? 0) eqn:E; [|done]. simplify_eq. cbn [negb].
    rewrite (sbind_ok _ _ _ _ _ Hb). by apply sbind_err.
  - replace (_ || _) with false; [|by destruct (src_offset mod _ =? 0), (dst_offset mod _ =? 0), (len mod _ =? 0), (len =? 0)].
    rewrite (sbind_ok _ _ _ _ _ Hb). destruct (_ && _) in Hf; [|done]. simplify_eq. by apply sbind_err.
  - rewrite (sbind_ok _ _ _ _ _ Hb). apply sbind_err. unfold remove_dir_entry. by apply sbind_err.
  - rewrite (sbind_ok _ _ _ _ _ Hb). apply sbind_err. unfold remove_dir_entry. by apply sbind_err.
  - rewrite (sbind_ok _ _ _ _ _ Hb). destruct (bad_name (encode_utf16 old_name)); [done|]. destruct (bad_name (encode_utf16 new_name)); [done|].
    cbn [orb] in Hf. simplify_eq. by apply sbind_err.
Qed.

(** Calls in sequence, each with its outcome. *)
Fixpoint run_calls (cs : list VolCall) (v : Volume W) : list (result unit) * Volume W :=
  match cs with
  | [] => ([], v)
  | c :: cs => let (r, v) := run_call c v in let (rs, v) := run_calls cs v in (r :: rs, v)
  end.

(** No call ends a transaction that it did not begin. *)
Lemma call_keeps_active c v : ~ idle v -> ~ idle (run_call c v).2.
Proof.
  intros Hi. destruct (begins c) eqn:Hb; [by rewrite call_active|]. destruct c; cbn [begins run_call] in *; try done.
  - unfold fallocate. by rewrite Hb.
  - unfold drop, sbind, copy_file_range_extent. cbn zeta.
    replace (_ || _) with true by (destruct (_ mod _ =? 0), (_ mod _ =? 0), (_ mod _ =? 0), (len =? 0); done). done.
  - unfold release_file, sbind at 1, vol_inode_read, on_storage. destruct (inode_read _ _ _) as [[inode|e|] w]; cbn [snd]; try done.
    cbn zeta. unfold sbind at 1, smod. by rewrite bind_begin_active.
Qed.

Lemma calls_keep_active cs : forall v, ~ idle v ->
  ~ idle (run_calls cs v).2 /\ Forall2 (fun c r => begins c = true -> r = Err in_progress) cs (run_calls cs v).1 /\
  (Forall (fun c => begins c = true) cs -> (run_calls cs v).2 = v).
Proof.
  induction cs as [|c cs IH]; intros v Hi; cbn [run_calls]; [by split_and!; [|constructor|]|].
  pose proof (call_keeps_active c v Hi) as Hk. pose proof (call_active c v) as Ha. destruct (run_call c v) as [r v1] eqn:E. cbn [snd] in Hk.
  destruct (IH v1 Hk) as (I1 & I2 & I3). destruct (run_calls cs v1) as [rs v2]. cbn [fst snd] in *. split_and!; [done| |].
  - constructor; [|done]. intros Hb. specialize (Ha Hb Hi). congruence.
  - intros [Hb Hcs]%Forall_cons. specialize (Ha Hb Hi). simplify_eq. by apply I3.
Qed.

(** [sync] commits whatever transaction is open. *)
Lemma sync_ends_idle v v' : vol_sync v = (Ok tt, v') -> idle v'.
Proof.
  unfold vol_sync. intros ([] & v1 & _ & H)%sbind_inv. apply sbind_inv in H as ([] & v2 & Hc & H).
  assert (Hi : idle v2).
  { unfold tm_has_active in Hc. destruct (tm_active (v_tx_mgr v1)) eqn:E.
    - by apply (ends_idle_commit tt) in Hc.
    - by injection Hc as <-. }
  apply sbind_inv in H as ([] & v3 & Hl & H). apply sbind_inv in H as ([] & v4 & Hb & H). unfold idle in *.
  assert (v_tx_mgr v3 = v_tx_mgr v2) as H3.
  { revert Hl. unfold on_vlog. repeat case_match; intros; by simplify_eq. }
  assert (v_tx_mgr v4 = v_tx_mgr v3) as H4.
  { revert Hb. unfold on_bmap. repeat case_match; intros; by simplify_eq. }
  assert (v_tx_mgr v' = v_tx_mgr v4) as H5.
  { revert H. unfold on_storage. repeat case_match; intros; by simplify_eq. }
  by rewrite H5, H4, H3.
Qed.

(** C30: a call that fails to read its inode returns the error and leaves its
    transaction open. It stays open through any sequence of further calls: each
    one that begins a transaction of its own is refused as long as no [sync]
    runs, and a sequence of such calls changes nothing. A [sync] that succeeds
    commits the transaction that was left, and the next call can begin. *)
Theorem failed_call_blocks_volume c ino v e
  (Hi : idle v) (Hf : first_inode c = Some ino) (He : (inode_read (table_view v) ino (v_storage v)).1 = Err e) :
  exists v', run_call c v = (Err e, v') /\
    forall cs, let blocked := (run_calls cs v').2 in
      ~ idle blocked /\ Forall2 (fun c r => begins c = true -> r = Err in_progress) cs (run_calls cs v').1 /\
      (Forall (fun c => begins c = true) cs -> blocked = v') /\
      forall synced, vol_sync blocked = (Ok tt, synced) -> idle synced /\ exists txid, (begin_transaction synced).1 = Ok txid.
Proof.
  destruct (call_read_fails c ino v e Hi Hf He) as (v' & Hc & Hi'). exists v'. split; [done|]. intros cs blocked.
  destruct (calls_keep_active cs v' Hi') as (H1 & H2 & H3). split_and!; [done..|]. intros synced Hs%sync_ends_idle. split; [done|].
  destruct (begin_idle synced Hs) as (v1 & -> & _). by eexists.
Qed.
End calls.
