(* ===== verification/VolumeTx.v ===== *)
(** * Transactions of a volume, run on a device that answers

    What [commit_transaction] of the volume does when the journal, if there is
    one, lies on the same device: the pages of the transaction reach their
    blocks, the journal changes its own area only, and the allocator rewrites
    its pages. [vol_ok] is the state between two calls; a transaction that
    updates one inode page takes it to itself. *)

From stdpp Require Import gmap.
From Stdlib Require Import ZArith Lia.
From S2P Require Import Prelude Types Storage PageCache Dmap LogMgr Devices Recovery Transaction Inode Volume VolumeData.

(** Iteration visits every element of the set once. *)
Class HashOrderSpec `{HO : HashOrder} : Prop := { hash_order_elements s : hash_order s ≡ₚ elements s }.

Section one_device.
Context {LE : LittleEndian} {LES : LittleEndianSpec} {L : Lru PageKey CachedPage} {LS : LruSpec PageKey CachedPage}.
Context {HO : HashOrder} {HOS : HashOrderSpec} {W : Type} {FS : Storage W} {SS : StorageSpec W} {SR : StorageReliable W}.
Abbreviation VM := (ST (Volume W) StorageError).

(** Room for [n] segments in the journal. *)
Definition journal_ready (n : Z) (log : option LogManager) (w : W) : Prop :=
  match log with None => True | Some l => lm_wf l /\ lm_space n l w end.

(** The block lies before the area that the journal writes. *)
Definition before_log (log : option LogManager) (b : Z) : Prop :=
  match log with None => True | Some l => b * BLOCK_SIZE <= lm_log_base l end.

(** A whole block of the device before the journal. *)
Definition fs_block (log : option LogManager) (c : list byte) (b : Z) : Prop :=
  0 <= b /\ b * BLOCK_SIZE + BLOCK_SIZE <= zlen c /\ before_log log b.

Lemma journal_step_one txid pages imgs n t c log (w : W) :
  journal_ready n log w -> st_wf w -> 2 * zlen imgs + 2 <= n -> images c pages imgs ->
  Forall (fun im => zlen im.2 = 4096) imgs ->
  exists c' log' w', journal_step (LG := FS) txid pages (mkTx t c log w) = (Ok tt, mkTx t c' log' w') /\ same_view c c' /\
    st_wf w' /\ zlen (contents w') = zlen (contents w) /\ journal_ready (n - 2 * zlen imgs - 2) log' w' /\
    (forall b, before_log log' b <-> before_log log b) /\
    (forall b, 0 <= b -> before_log log b -> block_at (contents w') b = block_at (contents w) b).
Proof.
  intros Hj Hw Hn Hi Hd. destruct log as [l|]; [|by exists c, None, w].
  destruct Hj as [Hl Hsp].
  destruct (journal_step_ok (LG := FS) (PL := SS) (RL := SR) txid pages imgs n t c l w Hl Hw Hsp Hn Hi Hd)
    as (c' & l' & w' & prev & strm & pad & Hrun & Hv & Hw' & _ & _ & _ & Hl' & Hsp' & Hfr).
  destruct Hfr as (Hbase & Hoff & Hsame).
  exists c', (Some l'), w'. split_and!; try done.
  - by destruct Hsame.
  - intros b. unfold before_log. by rewrite Hbase.
  - intros b Hb Hbl. unfold before_log, block_at, BLOCK_SIZE, PSIZE in *. apply (same_outside_zslice _ _ _ _ _ _ Hsame); lia.
Qed.

(** What is written to the blocks of the images is what [apply_writes] writes. *)
Lemma block_at_apply_writes_frame ws c1 c2 b :
  0 <= b -> zlen c1 = zlen c2 ->
  Forall (fun w => 0 <= w.1 /\ zlen w.2 = BLOCK_SIZE /\ w.1 * BLOCK_SIZE + BLOCK_SIZE <= zlen c1) ws ->
  block_at c1 b = block_at c2 b -> block_at (apply_writes ws c1) b = block_at (apply_writes ws c2) b.
Proof.
  intros Hb Hl Hws. revert c1 c2 Hl Hws. induction ws as [|[b1 d1] ws IH]; intros c1 c2 Hl Hws Heq; cbn [apply_writes fold_left]; [done|].
  apply Forall_cons in Hws as [(H1 & H2 & H3) Hws]. cbn [fst snd] in *.
  assert (Hz1 : zlen (zsplice c1 (b1 * BLOCK_SIZE) d1) = zlen c1) by (unfold BLOCK_SIZE, PSIZE in *; apply zlen_zsplice; lia).
  assert (Hz2 : zlen (zsplice c2 (b1 * BLOCK_SIZE) d1) = zlen c2) by (unfold BLOCK_SIZE, PSIZE in *; apply zlen_zsplice; lia).
  apply IH; [lia|by rewrite Hz1|]. rewrite !block_at_zsplice by lia. by case_decide.
Qed.

Lemma zlen_apply_writes ws c :
  Forall (fun w => 0 <= w.1 /\ zlen w.2 = BLOCK_SIZE /\ w.1 * BLOCK_SIZE + BLOCK_SIZE <= zlen c) ws -> zlen (apply_writes ws c) = zlen c.
Proof.
  revert c. induction ws as [|[b d] ws IH]; intros c Hws; [done|]. apply Forall_cons in Hws as [(H1 & H2 & H3) Hws]. cbn [fst snd] in *.
  cbn [apply_writes fold_left fst snd]. fold (apply_writes ws (zsplice c (b * BLOCK_SIZE) d)).
  assert (Hz : zlen (zsplice c (b * BLOCK_SIZE) d) = zlen c) by (unfold BLOCK_SIZE, PSIZE in *; apply zlen_zsplice; lia).
  rewrite IH; rewrite Hz; done.
Qed.

(** [TransactionManager::commit] with the journal on the same device. *)
Lemma commit_one t c log (w : W) a imgs n :
  tm_active t = Some a -> st_wf w -> journal_ready n log w -> 2 * zlen imgs + 2 <= n -> images c (tx_dirty_pages a) imgs ->
  Forall (fun im => zlen im.2 = BLOCK_SIZE /\ fs_block log (contents w) im.1) imgs ->
  exists c' log' w',
    commit (LG := FS) (FS := FS) (mkTx t c log w) =
      (Ok (mkCommitResult (zlen imgs) (tx_txid a)), mkTx (mkTm (tm_next_txid t) None (tx_txid a)) c' log' w') /\
    st_wf w' /\ zlen (contents w') = zlen (contents w) /\ journal_ready (n - 2 * zlen imgs - 2) log' w' /\
    (forall b, before_log log' b <-> before_log log b) /\
    (forall b, 0 <= b -> before_log log b -> block_at (contents w') b = block_at (apply_writes imgs (contents w)) b) /\
    forall k, pc_peek k.1 k.2 c' = if decide (k ∈ tx_dirty_pages a) then None else pc_peek k.1 k.2 c.
Proof.
  intros Ha Hw Hj Hn Hi Hf. pose (t0 := tm_with_active t None).
  pose proof (st_flush_data_ok w Hw) as Hfd. destruct (st_flush_data w Hw) as [Hw1 Hc1].
  destruct (flush_data w) as [o w1] eqn:E1. cbn [fst snd] in *. subst o.
  assert (Hrun1 : or_abort (tx_dirty_pages a) (on_dev (flush_data (Storage := FS))) (mkTx t0 c log w) = (Ok tt, mkTx t0 c log w1)).
  { unfold or_abort, on_dev. cbn [st_dev st_mgr st_cache st_log]. by rewrite E1. }
  assert (Hj1 : journal_ready n log w1) by (unfold journal_ready, lm_space in *; destruct log; [by rewrite Hc1|done]).
  destruct (journal_step_one (tx_txid a) (tx_dirty_pages a) imgs n t0 c log w1 Hj1 Hw1 Hn Hi) as (c2 & log2 & w2 & Hrun2 & Hv2 & Hw2 & Hz2 & Hj2 & Hb2 & Hk2).
  { eapply Forall_impl; [exact Hf|]. intros im Him. apply Him. }
  assert (Hf2 : Forall (fun im : Z * list byte => 0 <= im.1 /\ zlen im.2 = BLOCK_SIZE /\ im.1 * BLOCK_SIZE + BLOCK_SIZE <= zlen (contents w2)) imgs).
  { eapply Forall_impl; [exact Hf|]. intros im (H1 & H2 & H3 & _). rewrite Hz2, Hc1. done. }
  destruct (write_step_fs (FS := FS) (PF := SS) (RF := SR) (tx_dirty_pages a) (tx_dirty_pages a) imgs 0 (mkTx t0 c2 log2 w2))
    as (c3 & w3 & Hrun3 & Hv3 & Hw3 & Hc3); [exact (images_view _ _ _ _ Hv2 Hi)|done|done|].
  pose proof (st_flush_metadata_ok w3 Hw3) as Hfm. destruct (st_flush_metadata w3 Hw3) as [Hw4 Hc4].
  destruct (flush_metadata w3) as [o w4] eqn:E4. cbn [fst snd] in *. subst o. cbn [st_mgr st_log st_cache st_dev] in *.
  exists (release_pages (tx_dirty_pages a) c3), log2, w4.
  assert (Hz : zlen (contents w4) = zlen (contents w2)) by (rewrite Hc4, Hc3; by apply zlen_apply_writes).
  split_and!.
  - unfold commit. cbn [st_mgr]. rewrite Ha. change (tx_with_mgr _ _) with (mkTx t0 c log w).
    rewrite (sbind_ok _ _ _ _ _ Hrun1), (sbind_ok _ _ _ _ _ Hrun2), (sbind_ok _ _ _ _ _ Hrun3).
    unfold sbind, or_abort, on_dev. cbn [st_dev st_mgr st_cache st_log]. rewrite E4. reflexivity.
  - exact Hw4.
  - rewrite Hz, Hz2. by rewrite Hc1.
  - unfold journal_ready, lm_space in *. destruct log2 as [l2|]; [|done]. by rewrite Hz.
  - exact Hb2.
  - intros b Hb Hbl. rewrite Hc4, Hc3. rewrite <- Hc1. apply block_at_apply_writes_frame; [done|by rewrite Hz2|done|by apply Hk2].
  - intros k. rewrite release_pages_view. case_decide; [done|]. rewrite Hv3. apply Hv2.
Qed.
(** ** The allocator *)

(** A block that holds the allocation map. *)
Definition map_block (o : option (BlockAllocMap unit)) (blk : Z) : Prop :=
  match o with None => False | Some b => blk = bam_dmap_start b \/ blk - bam_dmap_start b ∈ bam_dirty_pages b end.

Definition bmap_ready (log : option LogManager) (c : list byte) (o : option (BlockAllocMap unit)) : Prop :=
  match o with
  | None => True
  | Some b => zlen (bam_free_map b) = bam_mapsize b /\ 0 <= bam_nfree b < 2 ^ 64 /\ fs_block log c (bam_dmap_start b) /\
      forall p, p ∈ bam_dirty_pages b -> 1 <= p /\ fs_block log c (bam_dmap_start b + p)
  end.

(** The allocator after its commit. *)
Definition bmap_clean (o : option (BlockAllocMap unit)) : option (BlockAllocMap unit) :=
  (fun b => bam_update b (bam_nfree b) (bam_free_map b) [] [] ∅) <$> o.

Lemma on_bmap_commit v log :
  st_wf (v_storage v) -> bmap_ready log (contents (v_storage v)) (v_bmap v) ->
  exists w', on_bmap tt (bam_commit hash_order) v = (Ok tt, v_with_bmap (bmap_clean (v_bmap v)) w' v) /\ st_wf w' /\
    zlen (contents w') = zlen (contents (v_storage v)) /\
    forall blk, 0 <= blk -> ~ map_block (v_bmap v) blk -> block_at (contents w') blk = block_at (contents (v_storage v)) blk.
Proof.
  intros Hw Hb. unfold on_bmap. destruct (v_bmap v) as [b|] eqn:Eb.
  2: { exists (v_storage v). split_and!; try done. destruct v; cbn in *; by subst. }
  destruct Hb as (Hm & Hn & (Hd0 & Hd1 & _) & Hp).
  destruct (bam_commit_run hash_order (bam_with_device (v_storage v) b)) as (w' & Hrun & Hw' & Hz & Hblk); try done.
  { apply hash_order_elements. }
  { intros p Hpd. destruct (Hp p Hpd) as (H1 & H2 & H3 & _). done. }
  exists w'. rewrite Hrun. split_and!; try done; [by destruct b as [[]]|]. intros blk H0 Hnot. rewrite Hblk by done. cbn [bam_with_device bam_dmap_start bam_dirty_pages bam_storage].
  rewrite !decide_False; [done|..]; intros H; apply Hnot; cbn; auto.
Qed.

(** ** Commit *)

(** The fields no transaction changes. *)
Definition v_static (v : Volume W) := (v_sb v, v_log_storage v, v_block_size v, v_agg_size v, v_root_ino v, v_open_handles v).

Lemma fs_block_len log (c c' : list byte) b : zlen c' = zlen c -> fs_block log c b -> fs_block log c' b.
Proof. unfold fs_block. by intros ->. Qed.

Lemma bmap_ready_len log log' (c c' : list byte) o :
  zlen c' = zlen c -> (forall b, before_log log' b <-> before_log log b) -> bmap_ready log c o -> bmap_ready log' c' o.
Proof.
  intros Hz Hl. destruct o as [b|]; [|done]. unfold bmap_ready, fs_block. rewrite Hz.
  intros (H1 & H2 & (H5 & H6 & H7) & H4). split; [done|]. split; [done|]. rewrite Hl. split; [done|]. intros p. rewrite Hl. apply H4.
Qed.

Lemma bmap_clean_ready log (c : list byte) o : bmap_ready log c o -> bmap_ready log c (bmap_clean o).
Proof. destruct o as [b|]; [|done]. intros (H1 & H2 & H3 & _). split; [done|]. split; [done|]. split; [done|]. intros p Hp. by apply not_elem_of_empty in Hp. Qed.

Lemma vol_commit_one v a imgs n :
  tm_active (v_tx_mgr v) = Some a -> st_wf (v_storage v) -> journal_ready n (v_log v) (v_storage v) -> 2 * zlen imgs + 2 <= n ->
  images (v_page_cache v) (tx_dirty_pages a) imgs ->
  Forall (fun im => zlen im.2 = BLOCK_SIZE /\ fs_block (v_log v) (contents (v_storage v)) im.1) imgs ->
  bmap_ready (v_log v) (contents (v_storage v)) (v_bmap v) ->
  exists v', vol_commit_transaction v = (Ok (mkCommitResult (zlen imgs) (tx_txid a)), v') /\
    v_static v' = v_static v /\ v_bmap v' = bmap_clean (v_bmap v) /\ tm_active (v_tx_mgr v') = None /\
    tm_next_txid (v_tx_mgr v') = tm_next_txid (v_tx_mgr v) /\
    st_wf (v_storage v') /\ zlen (contents (v_storage v')) = zlen (contents (v_storage v)) /\
    journal_ready (n - 2 * zlen imgs - 2) (v_log v') (v_storage v') /\ (forall b, before_log (v_log v') b <-> before_log (v_log v) b) /\
    (forall b, 0 <= b -> before_log (v_log v) b -> ~ map_block (v_bmap v) b ->
       block_at (contents (v_storage v')) b = block_at (apply_writes imgs (contents (v_storage v))) b) /\
    forall k, pc_peek k.1 k.2 (v_page_cache v') = if decide (k ∈ tx_dirty_pages a) then None else pc_peek k.1 k.2 (v_page_cache v).
Proof.
  intros Ha Hw Hj Hn Hi Hf Hb.
  destruct (commit_one (v_tx_mgr v) (v_page_cache v) (v_log v) (v_storage v) a imgs n Ha Hw Hj Hn Hi Hf)
    as (c1 & log1 & w1 & Hrun & Hw1 & Hz1 & Hj1 & Hl1 & Hblk1 & Hc1).
  pose (v1 := v_set v (v_sb v) log1 (mkTm (tm_next_txid (v_tx_mgr v)) None (tx_txid a)) w1 c1 (v_bmap v) (v_open_handles v)).
  assert (Hrun1 : on_commit (commit (LG := FS) (FS := FS)) v = (Ok (mkCommitResult (zlen imgs) (tx_txid a)), v1)).
  { unfold on_commit. by rewrite Hrun. }
  destruct (on_bmap_commit v1 log1) as (w2 & Hrun2 & Hw2 & Hz2 & Hblk2); [done|by eapply bmap_ready_len|].
  exists (v_with_bmap (bmap_clean (v_bmap v)) w2 v1). split_and!; try done.
  - unfold vol_commit_transaction. rewrite (sbind_ok _ _ _ _ _ Hrun1), (sbind_ok _ _ _ _ _ Hrun2). done.
  - cbn. rewrite Hz2. done.
  - cbn. unfold journal_ready, lm_space in *. destruct log1; [|done]. rewrite Hz2. done.
  - intros b H0 Hbl Hnm. change (block_at (contents w2) b = block_at (apply_writes imgs (contents (v_storage v))) b).
    rewrite Hblk2 by done. by apply Hblk1.
Qed.
(** ** The capacity of the cache *)

Definition cap (v : Volume W) : Z := lru_cap (pc_cache (v_page_cache v)).

(** A step of the commit that keeps it. *)
Definition keeps_cap {A} (m : ST (TxState W) StorageError A) : Prop :=
  forall s, lru_cap (pc_cache (st_cache (m s).2)) = lru_cap (pc_cache (st_cache s)).

Lemma pc_put_cap i p c : lru_cap (pc_cache (pc_put i p c).2) = lru_cap (pc_cache c).
Proof. unfold pc_put. destruct (pc_victim_busy _ _); cbn [snd]; [done|]. apply lru_put_cap. Qed.

Lemma abort_pages_cap l : forall c, lru_cap (pc_cache (abort_pages l c)) = lru_cap (pc_cache c).
Proof.
  unfold abort_pages. induction l as [|[i b] l IH]; intros c; cbn [fold_left]; [done|]. rewrite IH. unfold abort_page, pc_get, pc_unpin_page.
  destruct (lru_get (i, b) (pc_cache c)) as [[q|] m] eqn:E; pose proof (lru_get_cap (i, b) (pc_cache c)) as Hc; rewrite E in Hc; cbn [snd fst] in *;
    cbn [pc_with pc_cache]; rewrite lru_get_mut_cap; [by rewrite pc_put_cap|done].
Qed.

Lemma release_pages_cap l : forall c, lru_cap (pc_cache (release_pages l c)) = lru_cap (pc_cache c).
Proof.
  unfold release_pages. induction l as [|[i b] l IH]; intros c; cbn [fold_left]; [done|]. rewrite IH.
  unfold pc_release, pc_unpin_page. cbn [pc_with pc_cache]. by rewrite lru_pop_cap, lru_get_mut_cap.
Qed.

Lemma keeps_cap_bind {A B} (m : ST (TxState W) StorageError A) (k : A -> ST (TxState W) StorageError B) :
  keeps_cap m -> (forall a, keeps_cap (k a)) -> keeps_cap (sbind m k).
Proof. intros Hm Hk s. unfold sbind. specialize (Hm s). destruct (m s) as [[a| |] s']; [|done..]. by rewrite Hk. Qed.

Lemma keeps_cap_or_abort {A} l (m : ST (TxState W) StorageError A) : keeps_cap m -> keeps_cap (or_abort l m).
Proof.
  intros Hm s. unfold or_abort. specialize (Hm s). destruct (m s) as [[a|e|] s']; [done| |done]. cbn [snd] in *.
  unfold tx_with_cache. cbn [st_cache]. by rewrite abort_pages_cap.
Qed.

Lemma keeps_cap_dev {A} (io : ST W StorageError A) : keeps_cap (on_dev io).
Proof. intros s. unfold on_dev. by destruct (io (st_dev s)). Qed.

Lemma keeps_cap_journal io : keeps_cap (on_journal (W := W) io).
Proof. intros s. unfold on_journal. destruct (st_log s) as [l|]; [|done]. by destruct (io (l, st_dev s)) as [? []]. Qed.

Lemma keeps_cap_get key : keeps_cap (cache_get (W := W) key).
Proof.
  intros s. unfold cache_get, pc_get. pose proof (lru_get_cap (key.1, key.2) (pc_cache (st_cache s))) as H.
  by destruct (lru_get _ (pc_cache (st_cache s))).
Qed.

Lemma keeps_cap_write all l : forall k, keeps_cap (write_step (FS := FS) all l k).
Proof.
  induction l as [|key l IH]; intros k; cbn [write_step]; [by intros s|]. apply keeps_cap_bind; [apply keeps_cap_get|]. intros [q|]; [|apply IH].
  apply keeps_cap_bind; [apply keeps_cap_or_abort, keeps_cap_dev|intros; apply IH].
Qed.

Lemma keeps_cap_sfor {B} (l : list B) (f : B -> ST (TxState W) StorageError unit) : (forall b, keeps_cap (f b)) -> keeps_cap (sfor l f).
Proof. intros Hf. induction l as [|b l IH]; cbn [sfor]; [by intros s|]. apply keeps_cap_bind; [apply Hf|by intros]. Qed.

Lemma commit_cap : keeps_cap (commit (LG := FS) (FS := FS)).
Proof.
  intros s. unfold commit. destruct (tm_active (st_mgr s)) as [a|]; [|done].
  match goal with |- lru_cap (pc_cache (st_cache (?m ?s0).2)) = _ => enough (H : keeps_cap m) by (by rewrite H) end.
  apply keeps_cap_bind; [apply keeps_cap_or_abort, keeps_cap_dev|intros _]. apply keeps_cap_bind; [|intros _].
  { intros s1. unfold journal_step. destruct (st_log s1); [|done].
    match goal with |- lru_cap (pc_cache (st_cache (?m ?s0).2)) = _ => enough (H : keeps_cap m) by (by rewrite H) end.
    apply keeps_cap_bind; [|intros _; apply keeps_cap_or_abort, keeps_cap_journal]. apply keeps_cap_sfor. intros key.
    apply keeps_cap_bind; [apply keeps_cap_get|]. intros [q|]; [apply keeps_cap_or_abort, keeps_cap_journal|by intros s2]. }
  apply keeps_cap_bind; [apply keeps_cap_write|intros n]. apply keeps_cap_bind; [apply keeps_cap_or_abort, keeps_cap_dev|intros _].
  intros s1. cbn. apply release_pages_cap.
Qed.

Lemma vol_commit_cap v : cap (vol_commit_transaction v).2 = cap v.
Proof.
  unfold vol_commit_transaction, sbind at 1, on_commit. pose proof (commit_cap (mkTx (v_tx_mgr v) (v_page_cache v) (v_log v) (v_storage v))) as H.
  destruct (commit _) as [[r| |] s]; cbn [snd st_cache] in *; [|exact H..]. unfold sbind, on_bmap. cbn [v_bmap v_set].
  destruct (v_bmap v) as [b|]; [|exact H]. by destruct (bam_commit hash_order _) as [[]].
Qed.

(** ** Updating the page of an inode *)

(** The entries of the page cache, and the data they hold. *)
Definition cached (v : Volume W) : list (PageKey * CachedPage) := lru_iter (pc_cache (v_page_cache v)).

Definition datas (l : list (PageKey * CachedPage)) : list (PageKey * list byte) := (fun e => (e.1, cp_data e.2)) <$> l.
Definition unpinned (l : list (PageKey * CachedPage)) : Prop := Forall (fun e => cp_pin_count e.2 = 0) l.

Lemma cached_peek v i b : pc_peek i b (v_page_cache v) = assoc (i, b) (cached v).
Proof. apply pc_peek_assoc. Qed.

Lemma assoc_all_None {V} (l : list (PageKey * V)) : (forall k, assoc k l = None) -> l = [].
Proof. destruct l as [|[k p] l]; [done|]. intros H. specialize (H k). cbn [assoc] in H. by rewrite decide_True in H. Qed.

Lemma unassoc_none {V} k (l : list (PageKey * V)) : assoc k l = None -> unassoc k l = l.
Proof. induction l as [|[k' p] l IH]; [done|]. cbn [assoc unassoc]. destruct (decide (k = k')); [done|]. intros H. by rewrite IH. Qed.

Lemma assoc_datas k l : assoc k (datas l) = cp_data <$> assoc k l.
Proof. induction l as [|[k' p] l IH]; [done|]. cbn [datas fmap list_fmap assoc fst snd]. by destruct (decide (k = k')). Qed.
Lemma unassoc_datas k l : unassoc k (datas l) = datas (unassoc k l).
Proof. induction l as [|[k' p] l IH]; [done|]. cbn [datas fmap list_fmap unassoc fst snd]. destruct (decide (k = k')); [done|]. cbn. by f_equal. Qed.
Lemma find_datas (f : PageKey -> bool) l :
  List.find (fun e => f e.1) (datas l) = (fun e => (e.1, cp_data e.2)) <$> List.find (fun e => f e.1) l.
Proof. induction l as [|[k p] l IH]; [done|]. cbn [datas fmap list_fmap List.find fst snd]. by destruct (f k). Qed.
Lemma assoc_unpinned k l p : unpinned l -> assoc k l = Some p -> cp_pin_count p = 0.
Proof. induction 1 as [|[k' q] l Hq _ IH]; [done|]. cbn [assoc]. destruct (decide (k = k')); [by intros [= <-]|done]. Qed.
Lemma unassoc_unpinned k l : unpinned l -> unpinned (unassoc k l).
Proof. induction 1 as [|[k' q] l Hq _ IH]; [constructor|]. cbn [unassoc]. destruct (decide (k = k')); [done|by constructor]. Qed.

(** What [get_or_load] gives the inode: its own page, else a copy of the page
    of another inode, else the block of the device. *)
Definition page_for (l : list (PageKey * list byte)) (c : list byte) (ino b : Z) : list byte :=
  match assoc (ino, b) l with
  | Some d => d
  | None => match List.find (fun e => (e.1.2 =? b) && negb (e.1.1 =? ino)) l with Some e => e.2 | None => block_at c b end
  end.

Lemma load_page v ino b :
  st_wf (v_storage v) -> 0 <= b -> b * BLOCK_SIZE + BLOCK_SIZE <= zlen (contents (v_storage v)) -> unpinned (cached v) -> zlen (cached v) < cap v ->
  exists p c' w', on_cache (pc_get_or_load ino b 0) v = (Ok p, v_with_cache c' w' v) /\
    cp_data p = page_for (datas (cached v)) (contents (v_storage v)) ino b /\ cp_pin_count p = 0 /\
    lru_iter (pc_cache c') = ((ino, b), p) :: unassoc (ino, b) (cached v) /\ lru_cap (pc_cache c') = cap v /\
    st_wf w' /\ contents w' = contents (v_storage v).
Proof.
  intros Hw Hb Hr Hpin Hcap. unfold on_cache, pc_get_or_load, page_for, cap in *. rewrite assoc_datas.
  pose proof (lru_get_value (ino, b) (pc_cache (v_page_cache v))) as Hv. pose proof (lru_get_iter (ino, b) (pc_cache (v_page_cache v))) as Hi.
  pose proof (lru_get_cap (ino, b) (pc_cache (v_page_cache v))) as Hcp.
  destruct (lru_get (ino, b) (pc_cache (v_page_cache v))) as [o m]. cbn [fst snd] in *. change (lru_iter (pc_cache (v_page_cache v))) with (cached v) in *.
  unfold promote in Hi. rewrite <- Hv in Hi |- *. symmetry in Hv. destruct o as [p|]; cbn [fmap option_fmap option_map].
  - exists p, (pc_with (v_page_cache v) m), (v_storage v). split_and!; try done. by eapply assoc_unpinned.
  - rewrite Hi. rewrite (find_datas (fun k => (k.2 =? b) && negb (k.1 =? ino))).
    assert (Hput : forall p, lru_iter (lru_put (ino, b) p m) = ((ino, b), p) :: unassoc (ino, b) (cached v)).
    { intros p. rewrite lru_put_iter, Hi, Hcp. unfold lru_insert. rewrite Hv, unassoc_none by done.
      by destruct (Z.leb_spec (lru_cap (pc_cache (v_page_cache v))) (zlen (cached v))); [lia|]. }
    destruct (List.find _ (cached v)) as [[k p]|] eqn:Ef; cbn [fmap option_fmap option_map fst snd].
    + eexists _, _, (v_storage v). split; [reflexivity|]. cbn [cp_data cp_pin_count pc_with pc_cache]. by rewrite Hput, lru_put_cap.
    + pose proof (st_read_block_ok b (v_storage v) Hw Hb Hr) as Hok. destruct (st_read_block b (v_storage v) Hw Hb) as (Hw' & Hc & _).
      destruct (read_block b (v_storage v)) as [o w']. cbn [fst snd] in *. subst o.
      eexists _, _, w'. split; [reflexivity|]. cbn [cp_data cp_pin_count pc_with pc_cache]. by rewrite Hput, lru_put_cap.
Qed.

(** The page after an update of one slot. *)
Definition slot_written (p : CachedPage) (off : Z) (bytes : list byte) : CachedPage :=
  mkPage (cp_block p) (zsplice (cp_data p) off bytes) (cp_dirty p) (cp_inode p) (cp_index p) (cp_pin_count p) (cp_txid p).

Lemma update_inode_page_ok v ino b off upd bytes :
  let d := page_for (datas (cached v)) (contents (v_storage v)) ino b in
  st_wf (v_storage v) -> 0 <= b -> b * BLOCK_SIZE + BLOCK_SIZE <= zlen (contents (v_storage v)) -> unpinned (cached v) -> zlen (cached v) < cap v ->
  0 <= off -> off + 512 <= zlen d -> upd (zslice d off (off + 512)) = Ok bytes ->
  exists c' w', update_inode_page ino b off upd v = (Ok tt, v_with_cache c' w' v) /\
    datas (lru_iter (pc_cache c')) = ((ino, b), zsplice d off bytes) :: unassoc (ino, b) (datas (cached v)) /\
    unpinned (lru_iter (pc_cache c')) /\ lru_cap (pc_cache c') = cap v /\ st_wf w' /\ contents w' = contents (v_storage v).
Proof.
  intros d Hw Hb Hr Hpin Hcap Ho Hl Hu. destruct (load_page v ino b Hw Hb Hr Hpin Hcap) as (p & c1 & w1 & Hload & Hd & Hpin0 & Hi1 & Hcap1 & Hw1 & Hc1).
  fold d in Hd. unfold update_inode_page. rewrite (sbind_ok _ _ _ _ _ Hload).
  set (v1 := v_with_cache c1 w1 v). unfold sbind at 1, sget.
  assert (Hpu : forall q, cp_data q = cp_data p -> page_update off upd q = Ok (slot_written q off bytes)).
  { intros q Hq. unfold page_update, dinode_size. rewrite Hq, Hd, Hu. destruct (Z.leb_spec (off + 512) (zlen d)); [|lia]. cbn [obind]. by unfold slot_written; rewrite Hq, Hd. }
  set (f := fun q => match page_update off upd q with Ok p' => p' | _ => q end).
  assert (Hmut : on_cache (fun cd : PageCache * W =>
      let (r, c) := pc_get_mut_for_write ino b f cd.1 in
      (match r with Ok _ => Ok tt | Err _ => Err PageNotFound | Panic => Panic end, (c, cd.2))) v1
    = (Ok tt, v_with_cache (pc_with c1 (lru_get_mut (ino, b) (fun q => f (cp_pin q)) (pc_cache c1)).2) w1 v)).
  { unfold on_cache, pc_get_mut_for_write. cbn [fst snd v1 v_with_cache v_set v_page_cache v_storage].
    pose proof (lru_get_mut_value (ino, b) (fun q => f (cp_pin q)) (pc_cache c1)) as Hv. rewrite Hi1 in Hv. cbn [assoc] in Hv. rewrite decide_True in Hv by done.
    destruct (lru_get_mut _ _ (pc_cache c1)) as [o m]. cbn [fst snd] in *. by subst o. }
  rewrite (sbind_ok _ _ _ _ _ Hmut). rewrite cached_peek. unfold cached at 1, v1. cbn [v_with_cache v_set v_page_cache]. rewrite Hi1.
  cbn [assoc]. rewrite decide_True by done. cbn [fmap option_fmap option_map]. rewrite Hpu by done.
  eexists _, w1. split; [reflexivity|]. unfold pc_unpin_page. cbn [pc_with pc_cache v_page_cache v_with_cache v_set].
  rewrite !lru_get_mut_cap, Hcap1, !lru_get_mut_iter, Hi1. cbn [assoc unassoc]. rewrite decide_True by done. cbn [assoc unassoc]. rewrite !decide_True by done.
  assert (Hun : forall l : list (PageKey * CachedPage), unassoc (ino, b) (unassoc (ino, b) l) = unassoc (ino, b) l).
  { intros l. apply unassoc_none. rewrite assoc_unassoc. by rewrite decide_True. }
  rewrite !Hun. cbn [datas fmap list_fmap fst snd]. fold (datas (unassoc (ino, b) (cached v))). rewrite <- unassoc_datas.
  unfold f. rewrite Hpu by done. unfold cp_unpin, slot_written, saturating_sub. cbn [cp_pin cp_block cp_data cp_dirty cp_inode cp_index cp_pin_count cp_txid].
  rewrite Hd, Hpin0. split_and!; try done. constructor; [done|]. by apply unassoc_unpinned.
Qed.
End one_device.
