(* ===== verification/CrashRecovery.v ===== *)
(** * From the journal of a run to the recovery after it

    [LogMgr] says which bytes a sequence of transactions leaves in the log, and
    [Recovery] what a replay makes of a log that begins with given records. Here
    both are put together, on the device of a volume with its inline log: from
    the start of the log, as after a mount, transactions are journalled and blocks
    are written in place, in any order; the machine stops; the next mount reads the
    superblock of the log and replays it ([init_log], [recover_journal]). *)

From stdpp Require Import gmap.
From Stdlib Require Import ZArith Lia.
From S2P Require Import Prelude Types Storage PageCache LogMgr Devices Recovery Transaction Volume VolumeTx.

Section crash.
Context {LE : LittleEndian} {LES : LittleEndianSpec} {W : Type} {FS : Storage W} {SS : StorageSpec W} {SR : StorageReliable W}.

(** A transaction: its identifier and the images of its blocks. *)
Definition Txn : Type := Z * list (Z * list byte).

Definition log_transaction (t : Txn) : ST (LogManager * W) StorageError unit :=
  let* _ := log_blocks t.1 t.2 in commit_transaction t.1.

(** What reaches the device while a volume is in use: the journal step of a
    commit, and the write of a block in place. *)
Inductive DiskStep : Type :=
| Journal (t : Txn)
| Place (b : Z) (d : list byte).

Definition disk_step (s : DiskStep) : ST (LogManager * W) StorageError unit :=
  match s with
  | Journal t => log_transaction t
  | Place b d => on_log (fun _ => write_block b d)
  end.

Definition disk_steps (steps : list DiskStep) : ST (LogManager * W) StorageError unit := sfor steps disk_step.

Definition journals (steps : list DiskStep) : list Txn := omap (fun s => match s with Journal t => Some t | Place _ _ => None end) steps.
Definition places (steps : list DiskStep) : list (Z * list byte) := omap (fun s => match s with Journal _ => None | Place b d => Some (b, d) end) steps.

(** ** The stream of the log *)

Lemma logged_prefix txid prev s blocks prev' s' : logged txid prev s blocks prev' s' -> exists e, s' = s ++ e.
Proof.
  induction 1 as [|prev s pad b blocks prev' s' _ _ [e ->]]; [exists []; by rewrite app_nil_r|].
  exists (pad ++ redo_record txid prev b ++ e). by rewrite <- !app_assoc.
Qed.

(** The state of the log between transactions. *)
Record log_idle (n : Z) (l : LogManager) (w : W) : Prop := {
  li_wf : lm_wf l;
  li_dev : st_wf w;
  li_space : lm_space n l w;
  li_held : on_device l w (log_stream l w);
  li_end : ls_end (lm_logsuper l) = write_u32 (lm_write_offset l) }.

(** A transaction of at least one block: the stream grows by padding, the record
    of the first block, and more. *)
Lemma log_transaction_ok n txid b bs l (w : W) :
  lm_wf l -> st_wf w -> lm_space n l w -> 2 * zlen bs + 4 <= n -> Forall (fun b => zlen b.2 = 4096) (b :: bs) ->
  exists l' w' pad e, log_transaction (txid, b :: bs) (l, w) = (Ok tt, (l', w')) /\ log_idle (n - 2 * zlen bs - 4) l' w' /\ log_frame l w l' w' /\
    padding l 4132 pad /\ log_stream l' w' = log_stream l w ++ pad ++ redo_record txid (lm_prev_record_offset l) b ++ e.
Proof.
  intros Hl Hw Hsp Hn [Hd Hbs]%Forall_cons. pose proof (zlen_nonneg bs).
  destruct (append_log_record_ok n txid b.1 b.2 l w) as (l1 & w1 & pad & R1 & Hl1 & Hw1 & Hsp1 & Hpad & Hst1 & _ & Hf1); [done|done|done|lia|done|].
  destruct (log_blocks_ok (n - 2) txid bs l1 w1) as (l2 & w2 & R2 & Hl2 & Hw2 & Hsp2 & Hlog & Hf2); [done|done|done|lia|done|].
  destruct (commit_transaction_ok (n - 2 - 2 * zlen bs) txid l2 w2) as (l3 & w3 & pad3 & R3 & Hl3 & Hw3 & Hsp3 & _ & Hst3 & Hdev & Hend & _ & Hf3); [done|done|done|lia|].
  destruct (logged_prefix _ _ _ _ _ _ Hlog) as [e He].
  exists l3, w3, pad, (e ++ pad3 ++ lrd_flat (commit_lrd txid (lm_prev_record_offset l2))). split_and!.
  - unfold log_transaction, log_blocks. cbn [fst snd sfor]. rewrite (sbind_ok _ _ _ tt (l2, w2)); [done|]. by rewrite (sbind_ok _ _ _ _ _ R1).
  - split; try done. by replace (n - 2 * zlen bs - 4) with (n - 2 - 2 * zlen bs - 2) by lia.
  - eapply log_frame_trans; [apply Hl|done|]. eapply log_frame_trans; [apply Hl1|done|done].
  - done.
  - rewrite Hst3, He, Hst1, <- !app_assoc. by destruct b.
Qed.

(** ** What the reader can see *)

(** The records of the first segment of a log, by its first transaction. *)
Definition first_records (prev : Z) (t : Txn) : list (Lrd * list byte) :=
  match t.2 with
  | [] => []
  | [b] => [(redopage_lrd t.1 prev b.1 (zlen b.2), b.2); (commit_lrd t.1 0, [])]
  | b :: _ => [(redopage_lrd t.1 prev b.1 (zlen b.2), b.2)]
  end.

(** The stream begins with [records]; it ends there, inside the second page of
    the first segment, or goes on with zeros. *)
Definition begins (records : list (Lrd * list byte)) (s : list byte) : Prop :=
  exists rest, s = concat (record_bytes <$> records) ++ rest /\
    (rest = [] /\ zlen s = 4168 \/ exists more, rest = zeros 4 ++ more).

(** The padding of a segment that holds data in both pages. *)
Lemma begins_padded n records s e : n <= 8188 -> s = concat (record_bytes <$> records) -> begins records (s ++ blank n ++ e).
Proof.
  intros Hn ->. exists (blank n ++ e). split; [done|]. right. exists (zeros (Z.to_nat (8188 - n)) ++ e).
  unfold blank, zeros. rewrite app_assoc, <- replicate_add. do 2 f_equal. lia.
Qed.

Lemma zlen_redo txid prev b : zlen b.2 = 4096 -> zlen (redo_record txid prev b) = 4132.
Proof. intros Hb. unfold redo_record. rewrite zlen_app. destruct (lrd_bytes_ok _ (wf_redopage_lrd txid prev b.1 (zlen b.2))) as [_ ->]. lia. Qed.

(** The log manager of a mount, before the first record. *)
Definition at_start (l : LogManager) : Prop := lm_wf l /\ lm_write_offset l = 0.

Lemma stream_start l (w : W) : at_start l -> log_stream l w = [].
Proof. intros [Hl Ho]. unfold log_stream, buffer_start. rewrite Ho. change (0 mod 8192) with 0. rewrite Z.add_0_r. unfold zslice. by rewrite !Z.sub_diag. Qed.

(** The first transaction of a log. *)
Lemma first_transaction_ok n t l (w : W) :
  at_start l -> st_wf w -> lm_space n l w -> 2 * zlen t.2 + 2 <= n -> t.2 <> [] -> Forall (fun b => zlen b.2 = 4096) t.2 ->
  exists l' w', log_transaction t (l, w) = (Ok tt, (l', w')) /\ log_idle (n - 2 * zlen t.2 - 2) l' w' /\ log_frame l w l' w' /\
    begins (first_records (lm_prev_record_offset l) t) (log_stream l' w').
Proof.
  intros Hst Hw Hsp Hn Hne Hall. destruct t as [txid [|b [|b2 bs]]]; [done|..]; cbn [fst snd] in *; clear Hne.
  - change (zlen [b]) with 1 in *. apply Forall_cons in Hall as [Hb _]. pose proof (stream_start l w Hst) as Hs0. destruct Hst as [Hl Ho].
    destruct (append_log_record_ok n txid b.1 b.2 l w) as (l1 & w1 & pad & R1 & Hl1 & Hw1 & Hsp1 & (_ & Hpad & _) & Hst1 & Hprev & Hf1); [done|done|done|lia|done|].
    rewrite Hpad in Hst1, Hprev by (rewrite Ho; done). rewrite Hs0 in Hst1, Hprev. cbn [app] in Hst1, Hprev. change (zlen (@nil byte)) with 0 in Hprev.
    assert (Ho1 : lm_write_offset l1 = 4132). { rewrite <- (zlen_log_stream l1 w1 Hl1), Hst1; [by apply zlen_redo|]. apply (lm_space_room (n - 2)); [lia|done]. }
    destruct (commit_transaction_ok (n - 2) txid l1 w1) as (l2 & w2 & pad2 & R2 & Hl2 & Hw2 & Hsp2 & (_ & Hpad2 & _) & Hst2 & Hdev & Hend & _ & Hf2); [done|done|done|lia|].
    rewrite Hpad2, Hprev in Hst2 by (rewrite Ho1; done). exists l2, w2. split_and!.
    + unfold log_transaction, log_blocks. cbn [fst snd sfor]. rewrite (sbind_ok _ _ _ tt (l1, w1)); [done|]. by rewrite (sbind_ok _ _ _ _ _ R1).
    + by split.
    + eapply log_frame_trans; [apply Hl|done|done].
    + exists []. rewrite Hst2, Hst1. split; [unfold first_records, record_bytes, redo_record; cbn; by rewrite !app_nil_r|]. left. split; [done|].
      rewrite zlen_app, zlen_redo by done. destruct (lrd_bytes_ok _ (wf_commit_lrd txid 0)) as [_ Hc]. cbn [app]. lia.
  - apply Forall_cons in Hall as [Hb Hall]. pose proof (stream_start l w Hst) as Hs0. destruct Hst as [Hl Ho]. rewrite !zlen_cons in *. pose proof (zlen_nonneg bs).
    destruct (append_log_record_ok n txid b.1 b.2 l w) as (l1 & w1 & pad & R1 & Hl1 & Hw1 & Hsp1 & (_ & Hpad & _) & Hst1 & Hprev & Hf1); [done|done|done|lia|done|].
    rewrite Hpad in Hst1 by (rewrite Ho; done). rewrite Hs0 in Hst1. cbn [app] in Hst1.
    assert (Ho1 : lm_write_offset l1 = 4132). { rewrite <- (zlen_log_stream l1 w1 Hl1), Hst1; [by apply zlen_redo|]. apply (lm_space_room (n - 2)); [lia|done]. }
    destruct (log_transaction_ok (n - 2) txid b2 bs l1 w1) as (l2 & w2 & pad2 & e & R2 & Hi & Hf2 & (_ & _ & Hpad2) & Hst2); [done|done|done|lia|done|].
    rewrite Hpad2, Ho1 in Hst2 by (rewrite Ho1; done). exists l2, w2. split_and!.
    + unfold log_transaction, log_blocks in *. cbn [fst snd] in *. apply sbind_inv in R2 as ([] & s2 & R2 & R3).
      cbn [sfor]. rewrite (sbind_ok _ _ _ tt s2); [done|]. by rewrite (sbind_ok _ _ _ _ _ R1).
    + by replace (n - 2 * (1 + (1 + zlen bs)) - 2) with (n - 2 - 2 * zlen bs - 4) by lia.
    + eapply log_frame_trans; [apply Hl|done|done].
    + rewrite Hst2, Hst1. apply (begins_padded 4132); [done|]. cbn. by rewrite app_nil_r.
Qed.

(** Every later transaction leaves the first segment as it is. *)
Lemma later_transaction_ok n t l (w : W) records :
  log_idle n l w -> begins records (log_stream l w) -> 2 * zlen t.2 + 2 <= n -> t.2 <> [] -> Forall (fun b => zlen b.2 = 4096) t.2 ->
  exists l' w', log_transaction t (l, w) = (Ok tt, (l', w')) /\ log_idle (n - 2 * zlen t.2 - 2) l' w' /\ log_frame l w l' w' /\ begins records (log_stream l' w').
Proof.
  intros [Hl Hw Hsp _ _] Hbeg Hn Hne Hall. destruct t as [txid [|b bs]]; [done|]; cbn [fst snd] in *; clear Hne. rewrite zlen_cons in *. pose proof (zlen_nonneg bs).
  destruct (log_transaction_ok n txid b bs l w) as (l' & w' & pad & e & R & Hi & Hf & (_ & _ & Hpad) & Hst); [done|done|done|lia|done|].
  exists l', w'. split_and!; [done| |done|].
  - by replace (n - 2 * (1 + zlen bs) - 2) with (n - 2 * zlen bs - 4) by lia.
  - rewrite Hst. destruct Hbeg as (rest & Hs & [[-> Hz]|(more & ->)]).
    + rewrite zlen_log_stream in Hz by (done || (apply (lm_space_room n); [lia|done])). rewrite app_nil_r in Hs.
      rewrite Hpad, Hz by (rewrite Hz; done). by apply (begins_padded 4168).
    + rewrite Hs. eexists. rewrite <- app_assoc. split; [done|]. right. eexists. by rewrite <- app_assoc.
Qed.

(** The segments that a sequence of transactions may take. *)
Definition segments (ts : list Txn) : Z := foldr (fun t n => 2 * zlen t.2 + 2 + n) 0 ts.

Lemma segments_nonneg ts : 0 <= segments ts.
Proof. induction ts as [|t ts IH]; cbn [segments foldr]; [done|]. fold (segments ts). pose proof (zlen_nonneg t.2). lia. Qed.

(** A transaction with an identifier that fits its field and is not zero, and images
    of whole blocks of the file system. *)
Definition txn_ok (l : LogManager) (c : list byte) (t : Txn) : Prop :=
  0 < t.1 < 2 ^ 32 /\ t.2 <> [] /\ Forall (fun b => b.1 < 2 ^ 40 /\ zlen b.2 = 4096 /\ fs_block (Some l) c b.1) t.2.

Definition step_ok (l : LogManager) (c : list byte) (s : DiskStep) : Prop :=
  match s with
  | Journal t => txn_ok l c t
  | Place b d => zlen d = BLOCK_SIZE /\ fs_block (Some l) c b
  end.

Lemma txn_ok_blocks l c t : txn_ok l c t -> Forall (fun b => zlen b.2 = 4096) t.2.
Proof. intros (_ & _ & Hb). eapply Forall_impl; [exact Hb|]. by intros b (_ & H & _). Qed.

Lemma fs_block_same l l' c c' b : lm_log_base l' = lm_log_base l -> zlen c' = zlen c -> fs_block (Some l) c b -> fs_block (Some l') c' b.
Proof. unfold fs_block, before_log. intros -> ->. done. Qed.

Lemma step_ok_same l l' c c' s : lm_log_base l' = lm_log_base l -> zlen c' = zlen c -> step_ok l c s -> step_ok l' c' s.
Proof.
  intros Hb Hc. destruct s as [t|b d]; cbn.
  - intros (H1 & H2 & H3). split; [done|]. split; [done|]. eapply Forall_impl; [exact H3|]. intros x (X1 & X2 & X3). split; [done|]. split; [done|]. by eapply fs_block_same.
  - intros [H1 H2]. split; [done|by eapply fs_block_same].
Qed.

(** The blocks of the file system on the device are those of [c]. *)
Definition holds_fs (l : LogManager) (w : W) (c : list byte) : Prop :=
  zlen c = zlen (contents w) /\ forall b, fs_block (Some l) c b -> block_at (contents w) b = block_at c b.

(** What an operation of the log writes lies behind the file system. *)
Lemma log_frame_fs l (w : W) l' (w' : W) c : log_frame l w l' w' -> holds_fs l w c -> holds_fs l' w' c.
Proof.
  intros (Hb & _ & Hs) [H1 H2]. pose proof (proj1 Hs) as Hlen. split; [congruence|]. intros b Hf.
  assert (Hf' : fs_block (Some l) c b) by (revert Hf; by apply fs_block_same). rewrite <- (H2 b Hf'). destruct Hf' as (F1 & F2 & F3).
  unfold before_log, block_at, BLOCK_SIZE, PSIZE in *. apply (same_outside_zslice _ _ _ _ _ _ Hs); lia.
Qed.

(** A block written in place: the log is as it was. *)
Lemma place_ok n l (w : W) b d c records :
  log_idle n l w -> begins records (log_stream l w) -> holds_fs l w c -> step_ok l (contents w) (Place b d) ->
  exists w', disk_step (Place b d) (l, w) = (Ok tt, (l, w')) /\ log_idle n l w' /\ begins records (log_stream l w') /\ holds_fs l w' (zsplice c (b * BLOCK_SIZE) d) /\
    zlen (contents w') = zlen (contents w).
Proof.
  intros [Hl Hw Hsp (D1 & D2 & D3) Hend] Hbeg [Hz Hfs] [Hd (B1 & B2 & B3)]. destruct (write_block_run b d w Hw B1 Hd B2) as (w' & Hrun & Hw' & Hc).
  assert (Hlen : zlen (contents w') = zlen (contents w)) by (rewrite Hc; unfold BLOCK_SIZE, PSIZE in *; apply zlen_zsplice; lia).
  pose proof Hl as (_ & _ & Hb & Ho & _). destruct (buffer_start_facts l Ho) as (Hbs & Hmod & Hlt & _).
  assert (Hsame : forall x y, lm_log_base l + 4096 <= x -> zslice (contents w') x y = zslice (contents w) x y).
  { intros x y Hx. rewrite Hc. unfold before_log, BLOCK_SIZE, PSIZE in *. apply zslice_zsplice_disjoint; lia. }
  assert (Hst : log_stream l w' = log_stream l w) by (unfold log_stream; rewrite Hsame; [done|unfold log_data; lia]).
  exists w'. rewrite Hst. split_and!; try done.
  - cbn [disk_step]. unfold on_log. cbn [fst snd]. by rewrite Hrun.
  - split; try done; [unfold lm_space in *; by rewrite Hlen|]. rewrite Hst. unfold on_device, log_data in *. rewrite !Hsame by lia. done.
  - split; [rewrite Hlen, <- Hz; unfold BLOCK_SIZE, PSIZE in *; apply zlen_zsplice; lia|]. intros a Ha. assert (Ha' : fs_block (Some l) c a) by (revert Ha; apply fs_block_same; [done|unfold BLOCK_SIZE, PSIZE in *; symmetry; apply zlen_zsplice; lia]).
    rewrite Hc, !block_at_zsplice by (unfold BLOCK_SIZE, PSIZE in *; (done || apply Ha' || lia)). case_decide; [done|]. by apply Hfs.
Qed.

(** Any steps after the first transaction. *)
Lemma later_steps_ok steps : forall n l (w : W) c records,
  log_idle n l w -> begins records (log_stream l w) -> holds_fs l w c -> segments (journals steps) <= n -> Forall (step_ok l (contents w)) steps ->
  exists l' w', disk_steps steps (l, w) = (Ok tt, (l', w')) /\ log_idle (n - segments (journals steps)) l' w' /\ begins records (log_stream l' w') /\
    holds_fs l' w' (apply_writes (places steps) c) /\ lm_log_base l' = lm_log_base l /\ zlen (contents w') = zlen (contents w).
Proof.
  induction steps as [|s steps IH]; intros n l w c records Hi Hb Hfs Hn Hok.
  { exists l, w. cbn [journals omap segments foldr]. by rewrite Z.sub_0_r. }
  apply Forall_cons in Hok as [Hs Hok]. unfold disk_steps. cbn [sfor]. destruct s as [t|b d].
  - change (segments (journals (Journal t :: steps))) with (2 * zlen t.2 + 2 + segments (journals steps)) in *. pose proof (segments_nonneg (journals steps)).
    destruct (later_transaction_ok n t l w records) as (l1 & w1 & R1 & Hi1 & Hf1 & Hb1); [done|done|lia|apply Hs|by eapply txn_ok_blocks|].
    pose proof (log_frame_fs _ _ _ _ c Hf1 Hfs) as Hfs1. destruct Hf1 as (F1 & _ & [F2 _]).
    destruct (IH (n - 2 * zlen t.2 - 2) l1 w1 c records) as (l2 & w2 & R2 & Hi2 & Hb2 & Hfs2 & F3 & F4);
      [done|done|done|lia|eapply Forall_impl; [exact Hok|]; intros x; by apply step_ok_same|].
    exists l2, w2. cbn [disk_step]. rewrite (sbind_ok _ _ _ _ _ R1). split_and!; try done; [|congruence|congruence].
    by replace (n - (2 * zlen t.2 + 2 + segments (journals steps))) with (n - 2 * zlen t.2 - 2 - segments (journals steps)) by lia.
  - change (segments (journals (Place b d :: steps))) with (segments (journals steps)) in *.
    destruct (place_ok n l w b d c records Hi Hb Hfs Hs) as (w1 & R1 & Hi1 & Hb1 & Hfs1 & F1).
    destruct (IH n l w1 (zsplice c (b * BLOCK_SIZE) d) records) as (l2 & w2 & R2 & Hi2 & Hb2 & Hfs2 & F3 & F4);
      [done|done|done|done|eapply Forall_impl; [exact Hok|]; intros x; by apply step_ok_same|].
    exists l2, w2. rewrite (sbind_ok _ _ _ _ _ R1). split_and!; try done. congruence.
Qed.

(** The steps of a run from the start of the log. *)
Lemma steps_ok n t steps l (w : W) :
  at_start l -> st_wf w -> lm_space n l w -> segments (t :: journals steps) <= n -> Forall (step_ok l (contents w)) (Journal t :: steps) ->
  exists l' w', disk_steps (Journal t :: steps) (l, w) = (Ok tt, (l', w')) /\ log_idle (n - segments (t :: journals steps)) l' w' /\
    begins (first_records (lm_prev_record_offset l) t) (log_stream l' w') /\
    holds_fs l' w' (apply_writes (places steps) (contents w)) /\ lm_log_base l' = lm_log_base l /\ zlen (contents w') = zlen (contents w).
Proof.
  intros Hst Hw Hsp Hn [Ht Hok]%Forall_cons. change (segments (t :: journals steps)) with (2 * zlen t.2 + 2 + segments (journals steps)) in *.
  pose proof (segments_nonneg (journals steps)). destruct (first_transaction_ok n t l w) as (l1 & w1 & R1 & Hi1 & Hf1 & Hb1); [done|done|done|lia|apply Ht|by eapply txn_ok_blocks|].
  assert (Hfs : holds_fs l1 w1 (contents w)) by (by apply (log_frame_fs l w)). destruct Hf1 as (F1 & _ & [F2 _]).
  destruct (later_steps_ok steps (n - 2 * zlen t.2 - 2) l1 w1 (contents w) (first_records (lm_prev_record_offset l) t)) as (l2 & w2 & R2 & Hi2 & Hb2 & Hfs2 & F3 & F4);
    [done|done|done|lia|eapply Forall_impl; [exact Hok|]; intros x; by apply step_ok_same|].
  exists l2, w2. split_and!; try done; [| |congruence|congruence].
  - unfold disk_steps. cbn [sfor disk_step]. by rewrite (sbind_ok _ _ _ _ _ R1).
  - by replace (n - (2 * zlen t.2 + 2 + segments (journals steps))) with (n - 2 * zlen t.2 - 2 - segments (journals steps)) by lia.
Qed.

(** ** What logging leaves alone *)

(** The superblock of the log but for its end. *)
Definition same_super (u : LogSuper) (s : LogManager * W) : Prop := ls_set_end (lm_logsuper s.1) 0 = u.

Lemma set_log_super u f : (forall l, ls_set_end (lm_logsuper (f l)) 0 = ls_set_end (lm_logsuper l) 0) -> keeps (same_super u) (set_log f).
Proof. intros Hf [l w] Hs. unfold same_super in *. cbn in *. by rewrite Hf. Qed.

Lemma on_log_super u {A} (io : LogManager -> ST W StorageError A) : keeps (same_super u) (on_log io).
Proof. intros [l w] Hs. unfold on_log. by destruct (io _ _). Qed.

Lemma flush_journal_super u : keeps (same_super u) (flush_journal).
Proof.
  intros s Hs. unfold flush_journal. generalize (s.1) as l0. intros l0. revert s Hs. refine (keeps_bind (same_super u) _ _ _ _); [|intros _; keeps].
  - apply keeps_if; [|apply keeps_ret]. cbn zeta. intros s1 Hs1. apply (sfor_invariant (same_super u)); [|done]. intros i s2 _. clear Hs1. revert s2.
    intros s2 Hs2. unfold flush_page. generalize (s2.1) as l1. intros l1. revert s2 Hs2. refine (keeps_bind (same_super u) _ _ _ _); [apply keeps_lift|intros page]. keeps. apply on_log_super.
  - apply on_log_super.
  - apply on_log_super.
  - by apply set_log_super.
  - intros s1. apply (on_log_super u (write_super (lm_logsuper s1.1))).
Qed.

Lemma next_segment_super u n : keeps (same_super u) (next_segment n).
Proof.
  intros s Hs. unfold next_segment. destruct (_ <? _); [|done]. revert s Hs. refine (keeps_bind (same_super u) _ _ _ _); [apply flush_journal_super|].
  intros _. by apply set_log_super.
Qed.

Lemma store_record_super u r data : keeps (same_super u) (store_record (W := W) r data).
Proof. intros s Hs. unfold store_record. by destruct (let! _ := _ in _). Qed.

Lemma log_transaction_super u t : keeps (same_super u) (log_transaction t).
Proof.
  unfold log_transaction. refine (keeps_bind (same_super u) _ _ _ _); [|intros _].
  - intros s Hs. apply (sfor_invariant (same_super u)); [|done]. clear s Hs. intros b s _ Hs. revert s Hs. refine (keeps_bind (same_super u) _ _ _ _); [apply next_segment_super|intros _].
    intros s. generalize (lm_prev_record_offset s.1) as prev. intros prev. revert s. refine (keeps_bind (same_super u) _ _ _ _); [apply store_record_super|intros _]. by apply set_log_super.
  - unfold commit_transaction. apply keeps_bind; [apply next_segment_super|intros _]. intros s. generalize (lm_prev_record_offset s.1) as prev. intros prev. revert s.
    refine (keeps_bind (same_super u) _ _ _ _); [apply store_record_super|intros _]. keeps; [by apply set_log_super|apply flush_journal_super|by apply set_log_super].
Qed.

Lemma disk_steps_super u steps : keeps (same_super u) (disk_steps steps).
Proof.
  intros s Hs. apply (sfor_invariant (same_super u)); [|done]. intros [t|b d] s1 _; [apply log_transaction_super|apply on_log_super].
Qed.

(** ** Recovery *)

Lemma zero_word_u32 t : 0 < t < 2 ^ 32 -> zero_word (write_u32 t) = false.
Proof.
  intros Ht. pose proof (length_write_u32 t ltac:(lia)) as Hl. unfold zero_word. rewrite (zlen_of_length _ 4 Hl). change (4 <? 4) with false. cbn [orb].
  rewrite take_ge by lia. destruct (forallb _ _) eqn:Hf; [|done]. assert (Hz : write_u32 t = zeros 4).
  { symmetry. apply replicate_as_elem_of. split; [done|]. intros x Hx. rewrite forallb_forall in Hf. specialize (Hf x (proj1 (list_elem_of_In _ _) Hx)).
    apply Z.eqb_eq in Hf. rewrite <- (bof_bval x), Hf. done. }
  pose proof (read_write_u32 t ltac:(lia)) as Hr. rewrite Hz, read_u32_spec in Hr by done. change (le_val (zeros 4)) with 0 in Hr. lia.
Qed.

Lemma redo_log_record txid prev b : 0 < txid < 2 ^ 32 -> zlen b.2 = 4096 -> log_record (redopage_lrd txid prev b.1 (zlen b.2), b.2).
Proof.
  intros Ht Hb. split_and!; cbn [fst snd].
  - apply wf_redopage_lrd.
  - unfold lrd_length. cbn [redopage_lrd lrd_f_length]. rewrite Hb. by apply read_write_u16.
  - by rewrite Hb.
  - cbn [redopage_lrd lrd_f_logtid]. rewrite as_u32_small by lia. by apply zero_word_u32.
Qed.

Lemma commit_log_record txid prev : 0 < txid < 2 ^ 32 -> log_record (commit_lrd txid prev, []).
Proof.
  intros Ht. split_and!; cbn [fst snd].
  - apply wf_commit_lrd.
  - unfold lrd_length. cbn [commit_lrd lrd_f_length]. by apply read_write_u16.
  - done.
  - cbn [commit_lrd lrd_f_logtid]. rewrite as_u32_small by lia. by apply zero_word_u32.
Qed.

(** The records of the first segment, and what a replay makes of them. *)
Lemma first_records_ok l c prev t :
  txn_ok l c t ->
  Forall log_record (first_records prev t) /\ Forall (image_record (zlen c)) (first_records prev t) /\ first_records prev t <> [] /\
  zlen (concat (record_bytes <$> first_records prev t)) <= 4168 /\
  committed_redo ∅ (rev (first_records prev t)) = match t.2 with [b] => [b] | _ => [] end.
Proof.
  intros (Ht & Hne & Hb). destruct t as [txid [|b bs]]; [done|]; cbn [fst snd] in *; clear Hne. apply Forall_cons in Hb as [(B1' & B2 & B0 & B3 & _) _]. assert (B1 : 0 <= b.1 < 2 ^ 40) by lia.
  pose proof (redo_log_record txid prev b Ht B2) as R1. pose proof (commit_log_record txid 0 Ht) as R2.
  pose proof (redopage_image (zlen c) txid prev b.1 b.2 ltac:(lia) B1 B2 B3) as I1. pose proof (commit_image (zlen c) txid 0 ltac:(lia)) as I2.
  destruct (redopage_fields txid prev b.1 (zlen b.2) ltac:(lia) B1) as (A1 & A2 & _ & _ & A5 & _ & A7). destruct (commit_fields txid 0 ltac:(lia)) as (C1 & C2 & _).
  pose proof (zlen_record_bytes _ R1) as L1. pose proof (zlen_record_bytes _ R2) as L2. cbn [snd] in L1, L2. change (zlen (@nil byte)) with 0 in L2.
  destruct bs as [|b2 bs]; unfold first_records; cbn [fst snd]; split_and!; try done.
  - by repeat apply Forall_cons_2.
  - by repeat apply Forall_cons_2.
  - cbn [fmap list_fmap concat]. rewrite app_nil_r, zlen_app. lia.
  - cbn [rev app committed_redo]. rewrite C2, A2, A5, C1, A1, A7, bool_decide_eq_true_2 by set_solver. by destruct b.
  - by apply Forall_singleton.
  - by apply Forall_singleton.
  - cbn [fmap list_fmap concat]. rewrite app_nil_r. lia.
  - cbn [rev app committed_redo]. by rewrite A2, A1, bool_decide_eq_false_2 by set_solver.
Qed.

(** The log between transactions is a log of the records it begins with. *)
Lemma idle_holds n l (w : W) super records :
  log_idle n l w -> 0 <= n -> begins records (log_stream l w) -> Forall log_record records -> zlen (concat (record_bytes <$> records)) <= 4168 ->
  wf_logsuper super -> ls_end super = ls_end (lm_logsuper l) -> 2 <= ls_page_size super -> log_data l + ls_page_size super * LOGPSIZE <= zlen (contents w) ->
  log_holds super (log_data l) records w.
Proof.
  intros [Hl Hw Hsp (Hd1 & _ & Hd3) Hend] Hn Hbeg Hrec Hlen Hsup He Hsz Hdev. pose proof (zlen_log_stream l w Hl (lm_space_room n l w Hn Hsp)) as Hz.
  pose proof (st_bound w Hw) as Hbound. destruct Hsp as [Hs1 Hs2]. destruct Hl as (_ & _ & Hb & Ho & _). destruct (buffer_start_facts l Ho) as (Hbs & Hmod & Hlt & _).
  set (total := zlen (concat (record_bytes <$> records))) in *. pose proof (zlen_nonneg (concat (record_bytes <$> records))) as Hnn. fold total in Hnn.
  assert (Hge : ls_get_end super = lm_write_offset l) by (unfold ls_get_end; rewrite He, Hend; apply read_write_u32; lia).
  assert (Hpart : forall x y, 0 <= x <= y -> y <= lm_write_offset l -> zslice (contents w) (log_data l + x) (log_data l + y) = zslice (log_stream l w) x y).
  { intros x y Hx Hy. rewrite <- Hd1 at 1. rewrite zslice_zslice by (unfold log_data in *; lia). done. }
  destruct Hbeg as (rest & Hs & Hrest). assert (Hle : total <= lm_write_offset l) by (rewrite <- Hz, Hs, zlen_app; fold total; pose proof (zlen_nonneg rest); lia).
  split_and!; try done; [by rewrite Hge|unfold log_data in *; lia| |unfold LOGPSIZE in *; lia|].
  - rewrite <- (Z.add_0_r (log_data l)) at 1. rewrite Hpart by lia. rewrite Hs, zslice_app_l by (fold total; lia). by apply zslice_whole.
  - fold total. destruct Hrest as [[-> H4168]|(more & ->)].
    + assert (Hoff : lm_write_offset l = 4168) by lia. assert (Ht : total = 4168) by (rewrite <- H4168, Hs, app_nil_r; done).
      rewrite Hoff in *. change (4168 mod 8192) with 4168 in *. rewrite Ht.
      rewrite <- (Z.add_0_r (log_data l + 4168)) at 1. rewrite <- (zslice_zslice _ _ (log_data l + buffer_start l + 8192)) by (unfold log_data in *; lia).
      rewrite Hd3 by done. unfold zslice, blank, zeros. by rewrite drop_replicate, take_replicate.
    + assert (Hfit : total + 4 <= lm_write_offset l) by (rewrite <- Hz, Hs, !zlen_app; fold total; change (zlen (zeros 4)) with 4; pose proof (zlen_nonneg more); lia).
      rewrite <- Z.add_assoc, Hpart by lia. rewrite Hs, zslice_app_r by (fold total; lia). fold total. rewrite zslice_app_l by (change (zlen (zeros 4)) with 4; lia).
      apply zslice_whole; change (zlen (zeros 4)) with 4; lia.
Qed.

(** The superblock that a mount reads: the table of active volumes is not read. *)
Definition read_back (s : LogSuper) : LogSuper :=
  mkLogSuper (ls_magic s) (ls_version s) (ls_serial s) (ls_size s) (ls_bsize s) (ls_l2bsize s) (ls_flag s) (ls_state s) (ls_end s) (ls_uuid s) (ls_label s)
    (ls_active logsuper_default).

Lemma read_back_wf s : wf_logsuper s -> wf_logsuper (read_back s).
Proof.
  intros (? & ? & ? & ? & ? & ? & ? & ? & ? & ? & ? & _ & _). split_and!; try done. by apply Forall_replicate.
Qed.

Lemma read_super_idle n l (w : W) :
  log_idle n l w -> 0 <= n -> exists w', read_super (lm_log_base l) w = (Ok (read_back (lm_logsuper l)), w') /\ st_wf w' /\ contents w' = contents w.
Proof.
  intros [Hl Hw Hsp (_ & Hd & _) _] Hn. pose proof (lm_space_room n l w Hn Hsp) as [Hr _]. unfold log_data in Hr. destruct Hl as (_ & Hs & Hb & Ho & _).
  destruct (buffer_start_facts l Ho) as (Hbs & _). pose proof (st_bound w Hw) as Hbound.
  pose proof (read_super_run (lm_logsuper l) (lm_log_base l) w _ Hs Hw Hb ltac:(lia) eq_refl Hd) as Hrun.
  unfold read_super, sbind, slift in *. rewrite add_u64_ok in * by (unfold BLOCK_SIZE, PSIZE; lia).
  destruct (read_bytes_run (lm_log_base l + BLOCK_SIZE) BLOCK_SIZE w) as (w' & Hr1 & Hw1 & Hc1); [done|unfold BLOCK_SIZE, PSIZE; lia..|].
  rewrite Hr1 in *. cbn [fst snd] in *. exists w'. split_and!; try done. unfold sret in *. cbn [fst] in Hrun. by rewrite Hrun.
Qed.
End crash.

Section mount.
Context {LE : LittleEndian} {LES : LittleEndianSpec} {L : Lru PageKey CachedPage} {IOK : IoKind} {W : Type} {FS : Storage W} {SS : StorageSpec W} {SR : StorageReliable W}.

(** The superblock of the log is one that a mount accepts, and the device holds
    the pages it counts. *)
Record log_valid (l : LogManager) (c : list byte) : Prop := {
  lv_magic : ls_magic_val (lm_logsuper l) = LOGMAGIC;
  lv_version : ls_get_version (lm_logsuper l) = LOGVERSION;
  lv_size : 2 <= ls_page_size (lm_logsuper l);
  lv_room : log_data l + ls_page_size (lm_logsuper l) * LOGPSIZE <= zlen c }.

(** A volume whose superblock places the inline log at [base]. *)
Definition log_at (v : Volume W) (base : Z) : Prop :=
  v_log_storage v = true /\ sb_has_inline_log (v_sb v) = true /\ pxd_address (sb_inline_log_pxd (v_sb v)) * BLOCK_SIZE = base.

(** The file system after a recovery: the image of a first transaction of one
    block, unless the log was in the state [LOGREDONE]. *)
Definition restored (state : Z) (ts : list Txn) (c : list byte) : list byte :=
  if state =? LOGREDONE then c
  else match ts with (_, [b]) :: _ => zsplice c (b.1 * BLOCK_SIZE) b.2 | _ => c end.

(** The mount finds the log. *)
Lemma init_log_run (v : Volume W) base super (w' : W) :
  log_at v base -> base < 2 ^ 64 -> read_super base (v_storage v) = (Ok super, w') -> ls_magic_val super = LOGMAGIC -> ls_get_version super = LOGVERSION ->
  init_log v = (Ok tt, v_with_log (Some (lm_new super base)) w' v).
Proof.
  intros (H1 & H2 & H3) Hb Hr Hm Hv. unfold init_log. rewrite H1, H2.
  rewrite (sbind_ok _ _ v base v) by (unfold slift, mul_u64; rewrite H3; by destruct (Z.ltb_spec base (2 ^ 64)); [|lia]).
  rewrite (sbind_ok _ _ v super (v_with_dev w' v)) by (unfold on_storage; by rewrite Hr). by rewrite Hm, Hv.
Qed.

(** The mount replays the log: the blocks before it. *)
Lemma recover_run super base (v : Volume W) records :
  log_holds super (base + 8192) records (v_storage v) -> st_wf (v_storage v) -> 0 <= base -> records <> [] -> ls_get_state super <> LOGREDONE ->
  Forall (image_record (zlen (contents (v_storage v)))) records -> v_log v = Some (lm_new super base) -> v_log_storage v = true ->
  exists v', recover_journal v = (Ok tt, v') /\
    forall b, 0 <= b -> b * BLOCK_SIZE <= base ->
      block_at (contents (v_storage v')) b = block_at (apply_writes (committed_redo ∅ (rev records)) (contents (v_storage v))) b.
Proof.
  intros Hholds Hw Hb Hne Hst Himg Hlog Hls. pose proof Hholds as (_ & Hsup & _ & _ & Hlt & Hdev & _). pose proof (zlen_nonneg (concat (record_bytes <$> records))) as Hnn.
  destruct (replay_inline super (base + 8192) records (v_storage v) Hholds Hw Hst Hne) as (j & w2 & R2 & Hj & Hw2 & Hc2 & Hz2); [unfold BLOCK_SIZE, PSIZE; lia|done|].
  pose proof (st_bound _ Hw) as Hbound. pose proof (zlen_super_tail super Hsup) as Htail. unfold LOGPSIZE in *.
  destruct (write_super_run (redone (redone super)) (lm_new super base) w2) as (w3 & buf & R3 & Hw3 & Hc3 & Hz3 & _);
    [by do 2 apply redone_wf|done|done|cbn; lia|]. cbn [lm_new lm_log_base] in Hc3.
  destruct (st_sync w3 Hw3) as [_ Hc4]. pose proof (st_sync_ok w3 Hw3) as Hs4. destruct (sync w3) as [o w4] eqn:E4. cbn [fst snd] in *. subst o.
  assert (Hrep : on_storage (fun w => let '(r, (j, w)) := replay FS FS (base + 8192) (jr_new super, w) in (let! _ := r in Ok j, w)) v = (Ok j, v_with_dev w2 v))
    by (unfold on_storage; by rewrite R2).
  exists (v_with_dev w4 (v_with_dev w3 (v_with_dev w2 v))). split.
  - unfold recover_journal. rewrite Hlog. cbn beta iota zeta. change (lm_logsuper (lm_new super base)) with super.
    destruct (Z.eqb_spec (ls_get_state super) LOGREDONE); [done|]. rewrite Hls.
    rewrite (sbind_ok _ _ v (base + 8192) v) by (unfold slift, lm_data_start; cbn [lm_new lm_log_base]; by rewrite add_u64_ok by (unfold BLOCK_SIZE, PSIZE; lia)).
    rewrite (sbind_ok _ _ _ _ _ Hrep). unfold finalize. cbn [fst]. rewrite Hj. fold (redone (redone super)).
    rewrite (sbind_ok _ _ (v_with_dev w2 v) tt (v_with_dev w3 (v_with_dev w2 v))) by (unfold on_storage; cbn [v_storage v_with_dev v_set]; by rewrite R3).
    unfold on_storage. cbn [v_storage v_with_dev v_set]. by rewrite E4.
  - intros b H0 Hbl. cbn [v_storage v_with_dev v_set]. rewrite Hc4, Hc3, Hc2. unfold block_at, BLOCK_SIZE, PSIZE in *.
    assert (Hza : zlen (apply_writes (committed_redo ∅ (rev records)) (contents (v_storage v))) = zlen (contents (v_storage v)))
      by (apply zlen_apply_writes, committed_redo_images; by apply Forall_rev).
    rewrite zslice_zsplice_disjoint by (rewrite ?zlen_zsplice; lia). by rewrite zslice_zsplice_disjoint by lia.
Qed.

End mount.

(** ** Witness *)

(** A device with three blocks before its log of eight pages, and the volume of
    its superblock. *)
Definition crash_device : MemoryStorage := mkMem (fill 131072 Byte.x00) 131072.
Definition crash_log : LogManager := lm_new (LE := le_codec) (wsuper 0) 8192.
Definition crash_super : JfsSuperblock :=
  mkSuper (zeros 4) (zeros 4) (zeros 8) (zeros 4) (zeros 2) (zeros 2) (zeros 4) (zeros 2) (zeros 2) (zeros 4)
    (le_bytes 4 0x800) (zeros 4) (zeros 4) pxd_default pxd_default (zeros 4) (zeros 4)
    (pxd_set_address (LE := le_codec) pxd_default 2) pxd_default
    timestruc_default (zeros 4) Byte.x00 (zeros 11) (zeros 8) pxd_default pxd_default (zeros 16) (zeros 16) (zeros 16).
Definition crash_volume : Volume MemoryStorage := mkVolume crash_super None tm_new crash_device true (pc_new 256) 4096 12 1 1 1 18 None ∅.

(** Block 0 is committed and written twice. *)
Definition old_image : list byte := fill 4096 Byte.x07.
Definition new_image : list byte := fill 4096 Byte.x08.
Definition two_commits : list DiskStep := [Place 0 old_image; Journal (2, [(0, new_image)]); Place 0 new_image].

Lemma crash_log_start : at_start crash_log.
Proof.
  split; [|done]. unfold lm_wf, crash_log, lm_new. cbn [lm_log_buffer lm_logsuper lm_log_base lm_write_offset lm_buffer_dirty].
  split_and!; try done; try apply zlen_replicate.
  - split_and!; try done. by apply Forall_replicate.
  - by exists 0, 0.
Qed.

Lemma zlen_crash_device : zlen (contents crash_device) = 131072.
Proof. apply zlen_replicate. Qed.

Lemma crash_block b : 0 <= b <= 2 -> fs_block (Some crash_log) (contents crash_device) b.
Proof. intros Hb. unfold fs_block, before_log. rewrite zlen_crash_device. cbn [crash_log lm_new lm_log_base]. unfold BLOCK_SIZE, PSIZE. lia. Qed.

Lemma crash_txn txid b d : 0 < txid < 2 ^ 32 -> 0 <= b <= 2 -> zlen d = 4096 -> step_ok crash_log (contents crash_device) (Journal (txid, [(b, d)])).
Proof.
  intros Ht Hb Hd. split; [exact Ht|]. split; [discriminate|]. apply Forall_singleton. split; [cbn [fst]; lia|]. split; [exact Hd|]. exact (crash_block b Hb).
Qed.

Lemma crash_place b d : 0 <= b <= 2 -> zlen d = 4096 -> step_ok crash_log (contents crash_device) (Place b d).
Proof. intros Hb Hd. split; [exact Hd|exact (crash_block b Hb)]. Qed.

Lemma crash_steps : Forall (step_ok crash_log (contents crash_device)) (Journal (1, [(0, old_image)]) :: two_commits).
Proof.
  repeat apply Forall_cons_2; [..|apply Forall_nil_2]; (apply crash_txn || apply crash_place); try lia; apply zlen_replicate.
Qed.

