(* ===== verification/DinodeEdit.v ===== *)
(** * Edits of a dinode

    The closures that update an inode write fields one after the other into its
    512 bytes. [edits d off n bs d'] says that [d'] is [d] with the [n] bytes
    [bs] at [off]; the tactic [edit] runs the next write of a closure, and
    [frames] reads a field of the result back through the writes. *)

From Stdlib Require Import ZArith Lia.
From S2P Require Import Prelude Types Storage LogMgr Volume VolumeData VolumeDir.

Record edits (d : list byte) (off n : Z) (bs d' : list byte) : Prop := {
  ed_size : zlen d' = 512;
  ed_here : zslice d' off (off + n) = bs;
  ed_frame : forall x y, 0 <= x -> y <= 512 -> y <= off \/ off + n <= x -> zslice d' x y = zslice d x y }.

Lemma splice_edits {E} d off n bs :
  zlen d = 512 -> zlen bs = n -> 0 <= off -> off + n <= 512 -> exists d', @splice E _ d off bs = Ok d' /\ edits d off n bs d'.
Proof.
  intros Hd <- Ho Hl. exists (zsplice d off bs). split; [apply splice_ok; lia|]. split.
  - rewrite zlen_zsplice; lia.
  - apply zslice_zsplice_same; lia.
  - intros x y Hx Hy Hdis. apply zslice_zsplice_disjoint; lia.
Qed.

Lemma set_edits {E} d off b :
  zlen d = 512 -> 0 <= off < 512 -> exists d', @set E _ d off b = Ok d' /\ edits d off 1 [b] d'.
Proof.
  intros Hd Ho. rewrite set_splice by lia. destruct (@splice_edits E d off 1 [b]) as (d' & H & He); [done|done|lia|lia|].
  exists d'. by rewrite splice_ok in H by (change (zlen [b]) with 1; lia).
Qed.

Section words.
Context {LE : LittleEndian} {LES : LittleEndianSpec}.

Lemma zlen_write_u16 z : 0 <= z < 2 ^ 16 -> zlen (write_u16 z) = 2.
Proof. intros. unfold zlen. by rewrite length_write_u16. Qed.
Lemma zlen_write_u32 z : 0 <= z < 2 ^ 32 -> zlen (write_u32 z) = 4.
Proof. intros. unfold zlen. by rewrite length_write_u32. Qed.
Lemma zlen_write_u64 z : 0 <= z < 2 ^ 64 -> zlen (write_u64 z) = 8.
Proof. intros. unfold zlen. by rewrite length_write_u64. Qed.

Lemma put_u32_edits d off val :
  zlen d = 512 -> 0 <= off -> off + 4 <= 512 -> 0 <= val < 2 ^ 32 ->
  exists d', put_u32 off val d = Ok d' /\ edits d off 4 (write_u32 val) d'.
Proof. intros. apply splice_edits; rewrite ?zlen_write_u32 by done; lia. Qed.

Lemma put_u64_edits d off val :
  zlen d = 512 -> 0 <= off -> off + 8 <= 512 -> 0 <= val < 2 ^ 64 ->
  exists d', put_u64 off val d = Ok d' /\ edits d off 8 (write_u64 val) d'.
Proof. intros. apply splice_edits; rewrite ?zlen_write_u64 by done; lia. Qed.

Lemma put_u16_edits {E} d off val :
  zlen d = 512 -> 0 <= off -> off + 2 <= 512 -> 0 <= val < 2 ^ 16 ->
  exists d', @splice E _ d off (write_u16 val) = Ok d' /\ edits d off 2 (write_u16 val) d'.
Proof. intros. apply splice_edits; rewrite ?zlen_write_u16 by done; lia. Qed.
End words.

(** The size of a dinode that was edited. *)
Ltac edit_size :=
  match goal with
  | H : edits _ _ _ _ ?d |- zlen ?d = 512 => exact (ed_size _ _ _ _ _ H)
  | H : zlen ?d = 512 |- zlen ?d = 512 => exact H
  end.

(** The next write in the goal. *)
Ltac edit :=
  match goal with
  | |- context [put_u32 ?off ?val ?d] =>
      let d' := fresh "d" in let Hr := fresh in let He := fresh "He" in
      destruct (put_u32_edits d off val) as (d' & Hr & He); [edit_size|lia|lia|try lia|rewrite Hr; clear Hr; cbn [obind]]
  | |- context [put_u64 ?off ?val ?d] =>
      let d' := fresh "d" in let Hr := fresh in let He := fresh "He" in
      destruct (put_u64_edits d off val) as (d' & Hr & He); [edit_size|lia|lia|try lia|rewrite Hr; clear Hr; cbn [obind]]
  | |- context [@splice ?E _ ?d ?off (write_u16 ?val)] =>
      let d' := fresh "d" in let Hr := fresh in let He := fresh "He" in
      destruct (@put_u16_edits _ _ E d off val) as (d' & Hr & He); [edit_size|lia|lia|try lia|rewrite Hr; clear Hr; cbn [obind]]
  | |- context [@set ?E _ ?d ?off ?b] =>
      let d' := fresh "d" in let Hr := fresh in let He := fresh "He" in
      destruct (@set_edits E d off b) as (d' & Hr & He); [edit_size|lia|rewrite Hr; clear Hr; cbn [obind]]
  | |- context [@slice ?E _ ?d ?x ?y] => rewrite (@slice_ok E _ d x y) by (replace (zlen d) with 512 by (symmetry; edit_size); lia); cbn [obind]
  end.

(** Reading a field of the result. *)
Ltac frames :=
  repeat match goal with
  | H : edits ?d ?off ?n ?bs ?d' |- context [zslice ?d' ?x ?y] =>
      first [ rewrite (ed_frame d off n bs d' H x y) by lia
            | rewrite (ed_here d off n bs d' H : zslice d' x y = bs) ]
  end.

(** ** [setattr] *)

Section setattr.
Context {LE : LittleEndian} {LES : LittleEndianSpec}.

Definition u32_opt (o : option Z) : Prop := match o with Some z => 0 <= z < 2 ^ 32 | None => True end.
Definition u64_opt (o : option Z) : Prop := match o with Some z => 0 <= z < 2 ^ 64 | None => True end.

(** A time field: the seconds in 32 bits and no nanoseconds, or the old bytes. *)
Definition time_field (o : option Z) (old : list byte) : list byte :=
  match o with Some ts => write_u32 (as_u32 ts) ++ write_u32 0 | None => old end.

(** The new mode: the given permission bits under the old type. *)
Definition chmod (o : option Z) (old : Z) : Z :=
  match o with Some m => Z.lor (Z.land m 0xfff) (Z.land old 0xf000) | None => old end.

Lemma chmod_range o old : u32_opt o -> 0 <= old < 2 ^ 32 -> 0 <= chmod o old < 2 ^ 32.
Proof. destruct o as [m|]; [|done]. intros Hm Ho. apply lor_range; [lia|by apply land_range..]. Qed.

Lemma edits_refl d off n : zlen d = 512 -> edits d off n (zslice d off (off + n)) d.
Proof. by split. Qed.

Lemma when_u32_edits o off d :
  zlen d = 512 -> 0 <= off -> off + 4 <= 512 -> u32_opt o ->
  exists d', when o (put_u32 off) d = Ok d' /\ edits d off 4 (match o with Some u => write_u32 u | None => zslice d off (off + 4) end) d'.
Proof. intros Hd Ho Hl Hu. destruct o as [u|]; [by apply put_u32_edits|]. exists d. split; [done|]. by apply edits_refl. Qed.

Lemma when_time_edits o off d :
  zlen d = 512 -> 0 <= off -> off + 8 <= 512 ->
  exists d', when o (put_time off) d = Ok d' /\ edits d off 8 (time_field o (zslice d off (off + 8))) d'.
Proof.
  intros Hd Ho Hl. destruct o as [ts|]; [|exists d; split; [done|by apply edits_refl]]. cbn [when time_field]. unfold put_time.
  edit; [apply as_u32_range|]. edit. eexists. split; [done|]. split; [edit_size| |].
  - rewrite <- (zslice_cat _ off (off + 4) (off + 8)) by (rewrite ?(ed_size _ _ _ _ _ He0); lia). replace (off + 8) with (off + 4 + 4) by lia.
    by frames.
  - intros x y Hx Hy Hdis. by frames.
Qed.

(** What [setattr] makes of a dinode: the given fields, the type of the mode
    kept, and every other byte as before. *)
Lemma setattr_update_spec mode uid gid atime mtime old :
  zlen old = 512 -> u32_opt mode -> u32_opt uid -> u32_opt gid ->
  exists new, setattr_update mode uid gid atime mtime old = Ok new /\ zlen new = 512 /\
    zslice new 0 44 = zslice old 0 44 /\
    zslice new 44 48 = match uid with Some u => write_u32 u | None => zslice old 44 48 end /\
    zslice new 48 52 = match gid with Some g => write_u32 g | None => zslice old 48 52 end /\
    zslice new 52 56 = match mode with Some _ => write_u32 (chmod mode (read_u32 (zslice old 52 56))) | None => zslice old 52 56 end /\
    zslice new 56 64 = time_field atime (zslice old 56 64) /\ zslice new 64 72 = zslice old 64 72 /\
    zslice new 72 80 = time_field mtime (zslice old 72 80) /\ zslice new 80 512 = zslice old 80 512.
Proof.
  intros Hd Hm Hu Hg. unfold setattr_update.
  assert (exists d1, when mode put_mode old = Ok d1 /\
    edits old 52 4 (match mode with Some _ => write_u32 (chmod mode (read_u32 (zslice old 52 56))) | None => zslice old 52 56 end) d1) as (d1 & -> & He1).
  { destruct mode as [m|]; [|exists old; split; [done|by apply edits_refl]]. cbn [when]. unfold put_mode. edit.
    apply put_u32_edits; [done|lia|lia|]. apply (chmod_range (Some m)); [done|]. apply read_u32_range. by rewrite length_zslice by lia. }
  destruct (when_u32_edits uid 44 d1) as (d2 & H2 & He2); [edit_size|lia|lia|done|].
  destruct (when_u32_edits gid 48 d2) as (d3 & H3 & He3); [edit_size|lia|lia|done|].
  destruct (when_time_edits atime 56 d3) as (d4 & H4 & He4); [edit_size|lia|lia|].
  destruct (when_time_edits mtime 72 d4) as (d5 & H5 & He5); [edit_size|lia|lia|].
  exists d5. cbn [obind]. rewrite H2. cbn [obind]. rewrite H3. cbn [obind]. rewrite H4. cbn [obind]. split; [exact H5|]. split; [edit_size|].
  split_and!; frames; [done|destruct uid; by frames|destruct gid; by frames|done|by frames|done|by frames|done].
Qed.
End setattr.

(** ** New inodes and tree roots *)

Section created.
Context {LE : LittleEndian} {LES : LittleEndianSpec}.

Lemma put_root_edits root d : zlen d = 512 -> zlen root = 288 -> exists d', put_root root d = Ok d' /\ edits d 224 288 root d'.
Proof. intros Hd Hr. unfold put_root. rewrite Hr. change (dinode_size - 288) with 224. apply splice_edits; [done|done|lia|lia]. Qed.

(** The fields of a new inode; the union area is the one of the slot. *)
Lemma new_dinode_spec mode size nlink child d :
  zlen d = 512 -> 0 <= mode < 2 ^ 32 -> 0 <= size < 2 ^ 64 -> 0 <= nlink < 2 ^ 32 -> FILESYSTEM_I <= child < 2 ^ 32 ->
  exists d', new_dinode mode size nlink child d = Ok d' /\ zlen d' = 512 /\
    zslice d' 4 8 = write_u32 FILESYSTEM_I /\ zslice d' 8 12 = write_u32 (child - FILESYSTEM_I) /\ zslice d' 24 32 = write_u64 size /\
    zslice d' 32 40 = write_u64 0 /\ zslice d' 40 44 = write_u32 nlink /\ zslice d' 52 56 = write_u32 mode /\ zslice d' 56 512 = zslice d 56 512 /\
    zslice d' 0 4 = zslice d 0 4 /\ zslice d' 12 24 = zslice d 12 24 /\ zslice d' 44 52 = zslice d 44 52.
Proof.
  intros Hd Hm Hs Hl Hc. unfold new_dinode, FILESYSTEM_I in *. do 5 edit. rewrite sub_u32_ok by lia. cbn [obind]. edit.
  eexists. split; [reflexivity|]. split; [edit_size|]. split_and!; by frames.
Qed.

(** Freeing an inode clears its mode, size and links. *)
Lemma clear_dinode_spec d : zlen d = 512 -> exists d', clear_dinode d = Ok d' /\ zlen d' = 512 /\ zslice d' 4 12 = zslice d 4 12 /\
  zslice d' 24 32 = write_u64 0 /\ zslice d' 40 44 = write_u32 0 /\ zslice d' 52 56 = write_u32 0 /\ zslice d' 56 512 = zslice d 56 512.
Proof.
  intros Hd. unfold clear_dinode. do 2 edit. destruct (put_u32_edits d1 40 0) as (d2 & Hr & He2); [edit_size|lia..|]. exists d2. split; [exact Hr|]. split; [edit_size|]. split_and!; by frames.
Qed.
End created.
