(* ===== verification/InodeTable.v ===== *)
(** * The inode table of a volume as a map

    Between two calls a volume that works has no page in the cache, no open
    transaction and room in its journal ([vol_ok]). Its inode table then is a
    map from inode numbers to dinodes ([inode_bytes]). Inside a transaction
    ([txn]) the cache holds the pages the transaction has touched; their slots
    and those of the device make up the table that the transaction sees
    ([txn_slot]). The commit makes that table the one of the volume and gives
    [vol_ok] back, so that calls compose. *)

From stdpp Require Import gmap.
From Stdlib Require Import ZArith Lia.
From S2P Require Import Prelude Types Storage PageCache Dmap LogMgr Devices Recovery Transaction Inode Volume VolumeData VolumeTx VolumeOps.

(** [find] with a predicate that agrees on the list. *)
Lemma find_ext {A} (f g : A -> bool) l : (forall x, x ∈ l -> f x = g x) -> List.find f l = List.find g l.
Proof.
  induction l as [|x l IH]; intros H; cbn [List.find]; [done|]. rewrite (H x) by apply list_elem_of_here.
  destruct (g x); [done|]. apply IH. intros y Hy. apply H. by right.
Qed.

(** [find] when the predicate changes at one element only. *)
Lemma find_drop `{EqDecision A} (f g : A -> bool) x l :
  (forall y, y <> x -> g y = f y) -> g x = false -> List.find f l <> Some x -> List.find g l = List.find f l.
Proof.
  intros Ho Hx. induction l as [|y l IH]; [done|]. cbn [List.find]. intros Hf. destruct (decide (y = x)) as [->|Hne].
  - rewrite Hx. destruct (f x); [done|by apply IH].
  - rewrite Ho by done. destruct (f y); [done|by apply IH].
Qed.

Lemma find_put `{EqDecision A} (f g : A -> bool) x l :
  (forall y, y <> x -> g y = f y) -> g x = true -> x ∈ l -> (List.find f l = None \/ List.find f l = Some x) -> List.find g l = Some x.
Proof.
  intros Ho Hx. induction l as [|y l IH]; [by intros ?%elem_of_nil|]. intros Hin Hf. cbn [List.find] in *. destruct (decide (y = x)) as [->|Hne].
  - by rewrite Hx.
  - rewrite Ho by done. apply elem_of_cons in Hin as [->|Hin]; [done|]. destruct (f y); [destruct Hf; congruence|by apply IH].
Qed.

Section table.
Context {LE : LittleEndian} {LES : LittleEndianSpec} {L : Lru PageKey CachedPage} {LS : LruSpec PageKey CachedPage}.
Context {HO : HashOrder} {HOS : HashOrderSpec} {W : Type} {FS : Storage W} {SS : StorageSpec W} {SR : StorageReliable W}.
Abbreviation VM := (ST (Volume W) StorageError).

(** A block that neither the journal nor the allocation map uses. *)
Definition meta_block (v : Volume W) (b : Z) : Prop :=
  fs_block (v_log v) (contents (v_storage v)) b /\ ~ map_block (v_bmap v) b.

(** A volume with no open transaction, an empty cache and [n] segments left in
    its journal; its allocation map may have changes that are not committed. *)
Record vol_base (n : Z) (v : Volume W) : Prop := {
  ok_idle : idle v;
  ok_wf : st_wf (v_storage v);
  ok_journal : journal_ready n (v_log v) (v_storage v);
  ok_bmap : bmap_ready (v_log v) (contents (v_storage v)) (v_bmap v);
  ok_cache : cached v = [];
  ok_cap : 4 <= cap v;
  ok_start : 0 <= pxd_address (s_ait2 (v_sb v));
  ok_blocks : forall b, b ∈ table_blocks (table_view v) -> b < v_agg_size v -> meta_block v b }.

(** A volume between two calls. *)
Record vol_ok (n : Z) (v : Volume W) : Prop := {
  ok_base :> vol_base n v;
  ok_clean : bmap_clean (v_bmap v) = v_bmap v }.

#[local] Hint Extern 0 (vol_base _ _) => apply ok_base; assumption : core.

Definition slot_at (v : Volume W) (ino : Z) : option (Z * Z) :=
  List.find (slot_matches (table_view v) (v_storage v) (inode_target ino)) (table_slots (table_view v)).

(** The 512 bytes of an inode. *)
Definition inode_bytes (v : Volume W) (ino : Z) : option (list byte) :=
  slot_bytes (table_view v) (v_storage v) <$> slot_at v ino.

(** ** Facts of a quiet volume *)

Lemma cache_empty_peek_block (v : Volume W) b : cached v = [] -> pc_peek_block b (v_page_cache v) = None.
Proof. unfold cached, pc_peek_block. intros Hc. by rewrite Hc. Qed.

Lemma page_view_device (v : Volume W) b : cached v = [] -> page_view (table_view v) (v_storage v) b = block_at (contents (v_storage v)) b.
Proof. intros Hc. unfold page_view, table_view. cbn [tv_cache]. by rewrite cache_empty_peek_block. Qed.

Lemma vol_table_ok n (v : Volume W) : vol_base n v -> table_ok (table_view v) (v_storage v).
Proof.
  intros Hv. split; [apply (ok_start n v Hv)|]. intros b Hb Ha. destruct (ok_blocks n v Hv b Hb Ha) as [(H0 & Hr & _) _].
  rewrite page_view_device by apply Hv. split; [|done]. by apply block_at_len.
Qed.

(** A slot that is found lies in a block of the table. *)
Lemma slot_at_location n (v : Volume W) ino b off :
  vol_base n v -> slot_at v ino = Some (b, off) ->
  b ∈ table_blocks (table_view v) /\ b < v_agg_size v /\ meta_block v b /\ exists i, 0 <= i < INOSPERPAGE /\ off = i * DISIZE.
Proof.
  intros Hv Hs. apply find_some in Hs as [Hin _]. apply in_flat_map in Hin as (b' & Hb' & Hin).
  apply in_map_iff in Hin as (i & [= <- <-] & Hi). apply List.filter_In in Hb' as [Hb' Ha]. apply list_elem_of_In in Hb', Hi.
  apply elem_of_range in Hi. cbn [table_view tv_agg_size] in Ha. assert (b' < v_agg_size v) by (destruct (v_agg_size v <=? b') eqn:E; [done|lia]).
  split_and!; try done. { by apply (ok_blocks n). } by exists i.
Qed.

Lemma inode_bytes_slot (v : Volume W) ino b off :
  cached v = [] -> slot_at v ino = Some (b, off) ->
  inode_bytes v ino = Some (zslice (block_at (contents (v_storage v)) b) off (off + DISIZE)).
Proof. intros Hc Hs. unfold inode_bytes. rewrite Hs. cbn. unfold slot_bytes. cbn [fst snd]. by rewrite page_view_device. Qed.

Lemma inode_target_inj i j : inode_target i = inode_target j -> i = j.
Proof.
  unfold inode_target. intros H. destruct (Z.leb_spec FILESYSTEM_I i), (Z.leb_spec FILESYSTEM_I j); injection H as ?; unfold FILESYSTEM_I in *; lia.
Qed.

(** No slot belongs to two inodes. *)
Lemma slot_at_inj (v : Volume W) i j loc : slot_at v i = Some loc -> slot_at v j = Some loc -> i = j.
Proof.
  unfold slot_at. intros [_ H1]%find_some [_ H2]%find_some. apply inode_target_inj. unfold slot_matches in *.
  destruct (inode_target i), (inode_target j). cbn [fst snd] in *. f_equal; lia.
Qed.

(** ** Inside a transaction *)

(** The volume [v1] of a call that began on [v0]: nothing but the cache has
    changed. [l] are the pages of the cache with their data, most recent
    first, and [dirty] the pages marked so far. *)
Record txn (v0 v1 : Volume W) (l : list (PageKey * list byte)) (dirty : list PageKey) : Prop := {
  tn_static : v_static v1 = v_static v0;
  tn_log : v_log v1 = v_log v0;
  tn_bmap : v_bmap v1 = v_bmap v0;
  tn_cap : cap v1 = cap v0;
  tn_wf : st_wf (v_storage v1);
  tn_contents : contents (v_storage v1) = contents (v_storage v0);
  tn_pages : datas (cached v1) = l;
  tn_pins : unpinned (cached v1);
  tn_active : exists a, tm_active (v_tx_mgr v1) = Some a /\ tx_dirty_pages a = dirty }.

Lemma begin_ok n (v : Volume W) : vol_base n v -> exists t v1, begin_transaction v = (Ok t, v1) /\ txn v v1 [] [].
Proof.
  intros Hv. destruct (begin_idle v (ok_idle n v Hv)) as (v1 & Hb & _ & Hs & Ht & Hbm & Hl & Ha).
  eexists _, v1. split; [exact Hb|]. unfold begin_transaction, tm_begin in Hb. rewrite (ok_idle n v Hv) in Hb. injection Hb as <-.
  pose proof (ok_cache n v Hv) as Hc. unfold cached in Hc.
  split; try done; [apply Hv| | |by eexists]; unfold cached; cbn [v_with_tx v_set v_page_cache]; rewrite Hc; [done|constructor].
Qed.

Lemma txn_dev (v0 v1 : Volume W) l dirty w' :
  txn v0 v1 l dirty -> st_wf w' -> contents w' = contents (v_storage v0) -> txn v0 (v_with_dev w' v1) l dirty.
Proof. intros []; by split. Qed.

(** *** The table that a transaction sees *)

(** Scanning reads the most recent page of a block, reading an inode its own. *)
Definition view_block (l : list (PageKey * list byte)) (c : list byte) (b : Z) : list byte :=
  match List.find (fun e => e.1.2 =? b) l with Some e => e.2 | None => block_at c b end.
Definition own_block (l : list (PageKey * list byte)) (c : list byte) (ino b : Z) : list byte :=
  default (block_at c b) (assoc (ino, b) l).

Definition slot_of (l : list (PageKey * list byte)) (c : list byte) (loc : Z * Z) : list byte :=
  zslice (view_block l c loc.1) loc.2 (loc.2 + DISIZE).

Definition key_matches (target : Z * Z) (bytes : list byte) : bool :=
  (read_u32 (zslice bytes 4 8) =? target.1) && (read_u32 (zslice bytes 8 12) =? target.2).

(** The slot of an inode in a table given slot by slot. *)
Definition find_slot (table : Z * Z -> list byte) (slots : list (Z * Z)) (ino : Z) : option (Z * Z) :=
  List.find (fun loc => key_matches (inode_target ino) (table loc)) slots.

Definition txn_slot (v0 : Volume W) (l : list (PageKey * list byte)) (ino : Z) : option (Z * Z) :=
  find_slot (slot_of l (contents (v_storage v0))) (table_slots (table_view v0)) ino.

Lemma slot_at_find (v : Volume W) ino : slot_at v ino = find_slot (slot_bytes (table_view v) (v_storage v)) (table_slots (table_view v)) ino.
Proof. done. Qed.

Lemma slot_bytes_device (v : Volume W) loc : cached v = [] -> slot_bytes (table_view v) (v_storage v) loc = slot_of [] (contents (v_storage v)) loc.
Proof. intros Hc. unfold slot_bytes. by rewrite page_view_device. Qed.

Lemma page_view_txn (v0 v1 : Volume W) l dirty b :
  txn v0 v1 l dirty -> page_view (table_view v1) (v_storage v1) b = view_block l (contents (v_storage v0)) b.
Proof.
  intros Ht. unfold page_view, view_block, pc_peek_block. cbn [table_view tv_cache]. rewrite <- (tn_pages _ _ _ _ Ht), (tn_contents _ _ _ _ Ht).
  rewrite (find_datas (fun k => k.2 =? b)). unfold cached. by destruct (List.find _ _) as [[]|].
Qed.

Lemma table_view_static (v v' : Volume W) :
  v_static v' = v_static v -> table_blocks (table_view v') = table_blocks (table_view v) /\ v_agg_size v' = v_agg_size v.
Proof. intros [= E1 _ _ E4 _ _]. unfold table_blocks, table_view. cbn [tv_ait2]. by rewrite E1. Qed.

Lemma table_slots_static (v v' : Volume W) : v_static v' = v_static v -> table_slots (table_view v') = table_slots (table_view v).
Proof. intros H. unfold table_slots. destruct (table_view_static v v' H) as [-> Ha]. cbn [table_view tv_agg_size]. by rewrite Ha. Qed.

Definition pages_ok (l : list (PageKey * list byte)) : Prop := Forall (fun e => zlen e.2 = BLOCK_SIZE) l.

Lemma find_pages_ok f l e : pages_ok l -> List.find f l = Some e -> zlen e.2 = BLOCK_SIZE.
Proof. intros Hl [Hin _]%find_some. unfold pages_ok in Hl. rewrite Forall_forall in Hl. apply Hl. by apply list_elem_of_In. Qed.
Lemma assoc_pages_ok k l d : pages_ok l -> assoc k l = Some d -> zlen d = BLOCK_SIZE.
Proof. induction 1 as [|[k' d'] l H _ IH]; [done|]. cbn [assoc]. destruct (decide (k = k')); [by intros [= <-]|done]. Qed.

Lemma view_block_len l (c : list byte) b : pages_ok l -> 0 <= b -> b * BLOCK_SIZE + BLOCK_SIZE <= zlen c -> zlen (view_block l c b) = BLOCK_SIZE.
Proof. intros Hl Hb Hr. unfold view_block. destruct (List.find _ l) eqn:E; [by eapply find_pages_ok|by apply block_at_len]. Qed.
Lemma own_block_len l (c : list byte) i b : pages_ok l -> 0 <= b -> b * BLOCK_SIZE + BLOCK_SIZE <= zlen c -> zlen (own_block l c i b) = BLOCK_SIZE.
Proof. intros Hl Hb Hr. unfold own_block. destruct (assoc (i, b) l) eqn:E; [by eapply assoc_pages_ok|by apply block_at_len]. Qed.

(** The locations of the table. *)
Lemma table_slots_elem n (v : Volume W) loc :
  vol_base n v -> loc ∈ table_slots (table_view v) -> meta_block v loc.1 /\ exists i, 0 <= i < INOSPERPAGE /\ loc.2 = i * DISIZE.
Proof.
  intros Hv Hin%list_elem_of_In. apply in_flat_map in Hin as (b' & Hb' & Hin). apply in_map_iff in Hin as (i & <- & Hi).
  apply List.filter_In in Hb' as [Hb' Ha]. apply list_elem_of_In in Hb', Hi. apply elem_of_range in Hi. cbn [table_view tv_agg_size] in Ha.
  split; [|by exists i]. apply (ok_blocks n v Hv b' Hb'). destruct (v_agg_size v <=? b') eqn:E; [done|lia].
Qed.

Lemma find_slot_elem table slots ino loc : find_slot table slots ino = Some loc -> loc ∈ slots.
Proof. intros [Hin _]%find_some. by apply list_elem_of_In. Qed.

(** *** Reading an inode inside a transaction *)

Lemma txn_table_ok n (v0 v1 : Volume W) l dirty : vol_base n v0 -> txn v0 v1 l dirty -> pages_ok l -> table_ok (table_view v1) (v_storage v1).
Proof.
  intros Hv Ht Hl. pose proof (tn_static _ _ _ _ Ht) as Hst. destruct (table_view_static v0 v1 Hst) as [Htb Hag].
  split; [cbn [table_view tv_ait2]; injection Hst as -> _ _ _ _ _; apply (ok_start n v0 Hv)|]. intros b' Hb' Ha.
  rewrite Htb in Hb'. cbn [table_view tv_agg_size] in Ha. rewrite Hag in Ha. destruct (ok_blocks n v0 Hv b' Hb' Ha) as [(? & ? & _) _].
  rewrite (page_view_txn v0 v1 l dirty) by done. rewrite (tn_contents _ _ _ _ Ht). split; [|done]. by apply view_block_len.
Qed.

Lemma read_txn n (v0 v1 : Volume W) l dirty ino b off :
  vol_base n v0 -> txn v0 v1 l dirty -> pages_ok l -> txn_slot v0 l ino = Some (b, off) ->
  exists d v2, vol_inode_read ino v1 = (Ok (mkInode d ino b off), v2) /\ txn v0 v2 l dirty /\
    dinode_parse (zslice (own_block l (contents (v_storage v0)) ino b) off (off + 512)) = Ok d.
Proof.
  intros Hv Ht Hl Hs. pose proof (tn_static _ _ _ _ Ht) as Hst. pose proof (tn_contents _ _ _ _ Ht) as Hc.
  destruct (table_slots_elem n v0 (b, off) Hv (find_slot_elem _ _ _ _ Hs)) as [[(H0 & Hr & _) _] (i & Hi & Ho)]. cbn [fst snd] in H0, Hr, Ho. subst off.
  destruct (find_inode_page_spec (table_view v1) ino (v_storage v1) (tn_wf _ _ _ _ Ht)) as (w1 & Hfind & Hw1 & Hc1).
  { by apply (txn_table_ok n v0 v1 l dirty). }
  replace (List.find _ _) with (Some (b, i * DISIZE)) in Hfind.
  2: { rewrite <- Hs. unfold txn_slot, find_slot. rewrite (table_slots_static v0 v1) by done. apply find_ext. intros loc _.
       unfold slot_matches, key_matches, slot_bytes, slot_of. by rewrite (page_view_txn v0 v1 l dirty). }
  pose proof (own_block_len l (contents (v_storage v0)) ino b Hl H0 Hr) as Hz.
  assert (Hread : exists w2, (match pc_peek ino b (v_page_cache v1) with Some page => sret (cp_data page) | None => read_block b end) w1 =
    (Ok (own_block l (contents (v_storage v0)) ino b), w2) /\ st_wf w2 /\ contents w2 = contents (v_storage v0)).
  { rewrite cached_peek. unfold own_block. rewrite <- (tn_pages _ _ _ _ Ht), assoc_datas. destruct (assoc (ino, b) (cached v1)) as [q|] eqn:Eq; cbn.
    - exists w1. by rewrite <- Hc, <- Hc1.
    - pose proof (st_read_block_ok b w1 Hw1 H0) as Hok. rewrite Hc1, Hc in Hok. specialize (Hok Hr). destruct (st_read_block b w1 Hw1 H0) as (Hw2 & Hc2 & _).
      destruct (read_block b w1) as [o w2]. cbn [fst snd] in *. subst o. exists w2. rewrite Hc2, Hc1. done. }
  destruct Hread as (w2 & Hread & Hw2 & Hc2). unfold DISIZE, INOSPERPAGE, BLOCK_SIZE, PSIZE in *.
  destruct (dinode_parse_bytes (zslice (own_block l (contents (v_storage v0)) ino b) (i * 512) (i * 512 + 512))) as (d & Hd & _); [rewrite zlen_zslice; lia|].
  exists d, (v_with_dev w2 v1). split_and!; [|by apply txn_dev|done]. unfold vol_inode_read, on_storage, inode_read.
  rewrite (sbind_ok _ _ _ _ _ Hfind). cbn [table_view tv_cache]. rewrite (sbind_ok _ _ _ _ _ Hread).
  unfold sbind, slift. rewrite slice_ok by lia. unfold parse_dinode. by rewrite Hd.
Qed.

Lemma read_missing n (v0 v1 : Volume W) l dirty ino :
  vol_base n v0 -> txn v0 v1 l dirty -> pages_ok l -> txn_slot v0 l ino = None -> exists v2, vol_inode_read ino v1 = (Err inode_not_found, v2).
Proof.
  intros Hv Ht Hl Hs. pose proof (tn_static _ _ _ _ Ht) as Hst. pose proof (tn_contents _ _ _ _ Ht) as Hc.
  destruct (find_inode_page_spec (table_view v1) ino (v_storage v1) (tn_wf _ _ _ _ Ht)) as (w1 & Hfind & _).
  { by apply (txn_table_ok n v0 v1 l dirty). }
  replace (List.find _ _) with (@None (Z * Z)) in Hfind.
  2: { rewrite <- Hs. unfold txn_slot, find_slot. rewrite (table_slots_static v0 v1) by done. apply find_ext. intros loc _.
       unfold slot_matches, key_matches, slot_bytes, slot_of. by rewrite (page_view_txn v0 v1 l dirty). }
  eexists. unfold vol_inode_read, on_storage, inode_read, sbind. by rewrite Hfind.
Qed.
(** *** Updating, marking, giving up *)

Lemma zlen_datas (l : list (PageKey * CachedPage)) : zlen (datas l) = zlen l.
Proof. apply zlen_fmap. Qed.

Lemma txn_len (v0 v1 : Volume W) l dirty : txn v0 v1 l dirty -> zlen (cached v1) = zlen l.
Proof. intros Ht. by rewrite <- (tn_pages _ _ _ _ Ht), zlen_datas. Qed.

Lemma update_txn (v0 v1 : Volume W) l dirty ino b off upd bytes :
  let d := page_for l (contents (v_storage v0)) ino b in
  txn v0 v1 l dirty -> zlen l < cap v0 -> 0 <= b -> b * BLOCK_SIZE + BLOCK_SIZE <= zlen (contents (v_storage v0)) ->
  0 <= off -> off + 512 <= zlen d -> upd (zslice d off (off + 512)) = Ok bytes ->
  exists v2, update_inode_page ino b off upd v1 = (Ok tt, v2) /\ txn v0 v2 (((ino, b), zsplice d off bytes) :: unassoc (ino, b) l) dirty.
Proof.
  intros d Ht Hcap Hb Hr Ho Hl Hu. pose proof (txn_len _ _ _ _ Ht) as Hlen. pose proof (tn_pages _ _ _ _ Ht) as Hp. pose proof (tn_contents _ _ _ _ Ht) as Hc.
  destruct (update_inode_page_ok v1 ino b off upd bytes) as (c' & w' & Hrun & Hd & Hpin & Hcap' & Hw' & Hc'); rewrite ?Hp, ?Hc; try done; try apply Ht.
  { rewrite Hlen, (tn_cap _ _ _ _ Ht). done. }
  rewrite Hp, Hc in Hd. exists (v_with_cache c' w' v1). split; [done|]. split; try apply Ht; try done.
  - rewrite <- (tn_cap _ _ _ _ Ht). exact Hcap'.
  - rewrite <- Hc. exact Hc'.
Qed.

(** Where a page is marked it becomes the most recent one. *)
Lemma mark_txn (v0 v1 : Volume W) l dirty ino b :
  txn v0 v1 l dirty -> exists v2, mark_page_dirty ino b v1 = (Ok tt, v2) /\
    txn v0 v2 (promote (ino, b) l) (if bool_decide ((ino, b) ∈ dirty) then dirty else dirty ++ [(ino, b)]).
Proof.
  intros Ht. destruct (tn_active _ _ _ _ Ht) as (a & Ha & Had). unfold mark_page_dirty, tm_mark_dirty. rewrite Ha, Had.
  eexists. split; [reflexivity|]. split; try apply Ht.
  - unfold cap, pc_mark_dirty_txn. cbn [v_with_tx v_set v_page_cache pc_with pc_cache]. rewrite lru_get_mut_cap. apply Ht.
  - rewrite <- (tn_pages _ _ _ _ Ht). unfold promote. rewrite assoc_datas. unfold cached at 1, pc_mark_dirty_txn. cbn [v_with_tx v_set v_page_cache pc_with pc_cache].
    rewrite lru_get_mut_iter. fold (cached v1). destruct (assoc (ino, b) (cached v1)) as [q|]; cbn; [|done]. f_equal. by rewrite unassoc_datas.
  - unfold cached, pc_mark_dirty_txn. cbn [v_with_tx v_set v_page_cache pc_with pc_cache]. rewrite lru_get_mut_iter. fold (cached v1).
    destruct (assoc (ino, b) (cached v1)) as [q|] eqn:Eq; [|apply Ht]. constructor; [|apply unassoc_unpinned, Ht]. cbn [snd].
    unfold cp_mark_dirty_txn. cbn [cp_pin_count]. eapply assoc_unpinned; [apply Ht|exact Eq].
  - by eexists.
Qed.

(** A volume that differs from a quiet one in nothing that counts. *)
Lemma vol_ok_same n (v v' : Volume W) :
  vol_ok n v -> idle v' -> v_static v' = v_static v -> v_log v' = v_log v -> v_bmap v' = v_bmap v -> cap v' = cap v -> cached v' = [] ->
  st_wf (v_storage v') -> contents (v_storage v') = contents (v_storage v) ->
  vol_ok n v' /\ (forall i, slot_at v' i = slot_at v i) /\ forall i, inode_bytes v' i = inode_bytes v i.
Proof.
  intros Hv Hi Hs Hl Hb Hcap Hc Hw Hcon. destruct (table_view_static v v' Hs) as [Ht Hag]. pose proof (table_slots_static v v' Hs) as Hts. injection Hs as E1 E2 E3 E4 E5 E6.
  assert (Hsb : forall loc, slot_bytes (table_view v') (v_storage v') loc = slot_bytes (table_view v) (v_storage v) loc).
  { intros loc. by rewrite !slot_bytes_device, Hcon by (done || apply Hv). }
  assert (Hf : forall i, slot_at v' i = slot_at v i).
  { intros i. rewrite !slot_at_find, Hts. unfold find_slot. apply find_ext. intros loc _. by rewrite Hsb. }
  split_and!; [|done|].
  - split; [|rewrite Hb; apply Hv]. split; try done; rewrite ?Hl, ?Hb, ?Hcon, ?E1, ?Hcap; try apply Hv.
    + pose proof (ok_journal n v Hv) as Hj. unfold journal_ready, lm_space in *. destruct (v_log v); [by rewrite Hcon|done].
    + intros b. rewrite Ht, Hag. unfold meta_block. rewrite Hl, Hb, Hcon. apply Hv.
  - intros i. unfold inode_bytes. rewrite Hf. by destruct (slot_at v i) as [loc|]; cbn; rewrite ?Hsb.
Qed.

(** Giving up before any page was touched. *)
Lemma abort_txn n (v v2 : Volume W) : vol_ok n v -> txn v v2 [] [] ->
  exists v', abort_transaction v2 = (Ok tt, v') /\ vol_ok n v' /\
    (forall i, slot_at v' i = slot_at v i) /\ forall i, inode_bytes v' i = inode_bytes v i.
Proof.
  intros Hv Ht. pose proof (tn_bmap _ _ _ _ Ht) as Hbm. pose proof (ok_clean n v Hv) as Hcl. rewrite <- Hbm in Hcl. destruct (tn_active _ _ _ _ Ht) as (a & Ha & Had).
  assert (Hrb : on_bmap tt bam_do_rollback v2 = (Ok tt, v2)).
  { unfold on_bmap. clear -Hcl. destruct v2 as [? ? ? w2 ? ? ? ? ? ? ? ? [b|] ?]; cbn [v_bmap v_storage] in *; [|done].
    unfold bmap_clean in Hcl. cbn [fmap option_fmap option_map] in Hcl. destruct b as [[] ? ? ? ? ? ? ? ? ?].
    unfold bam_update in Hcl. cbn in Hcl. injection Hcl as <- <- <-. done. }
  pose proof (txn_len _ _ _ _ Ht) as Hlen.
  assert (Hc2 : cached v2 = []) by (destruct (cached v2) as [|e l2]; [done|]; rewrite zlen_cons in Hlen; pose proof (zlen_nonneg l2); change (zlen []) with 0 in Hlen; lia).
  eexists. unfold abort_transaction. rewrite (sbind_ok _ _ _ _ _ Hrb). unfold smod, tm_abort. rewrite Ha, Had.
  split; [reflexivity|]. apply vol_ok_same; try done; apply Ht.
Qed.

Lemma abort_with_txn n (v v2 : Volume W) {A} e : vol_ok n v -> txn v v2 [] [] ->
  exists v', abort_with (A := A) e v2 = (Err e, v') /\ vol_ok n v' /\
    (forall i, slot_at v' i = slot_at v i) /\ forall i, inode_bytes v' i = inode_bytes v i.
Proof.
  intros Hv Ht. destruct (abort_txn n v v2 Hv Ht) as (v' & Hr & H). exists v'. split; [|done].
  unfold abort_with. by rewrite (sbind_ok _ _ _ _ _ Hr).
Qed.

(** *** Committing *)

(** The volume after a commit: quiet again, with the table the transaction saw. *)
Record committed (n : Z) (v v' : Volume W) (l : list (PageKey * list byte)) : Prop := {
  cm_ok : vol_ok n v';
  cm_static : v_static v' = v_static v;
  cm_bmap : v_bmap v' = bmap_clean (v_bmap v);
  cm_log : forall b, before_log (v_log v') b <-> before_log (v_log v) b;
  cm_len : zlen (contents (v_storage v')) = zlen (contents (v_storage v));
  cm_blocks : forall b, meta_block v b -> block_at (contents (v_storage v')) b = view_block l (contents (v_storage v)) b;
  cm_table : forall loc, loc ∈ table_slots (table_view v) ->
    slot_bytes (table_view v') (v_storage v') loc = slot_of l (contents (v_storage v)) loc }.

Lemma meta_block_same (v v' : Volume W) b :
  (map_block (v_bmap v') b -> map_block (v_bmap v) b) -> (forall blk, before_log (v_log v') blk <-> before_log (v_log v) blk) ->
  zlen (contents (v_storage v')) = zlen (contents (v_storage v)) -> meta_block v b -> meta_block v' b.
Proof. intros Hb Hl Hz [(H1 & H2 & H3) H4]. split; [|naive_solver]. split_and!; [done|by rewrite Hz|by apply Hl]. Qed.

Lemma map_block_clean o b : map_block (bmap_clean o) b -> map_block o b.
Proof. destruct o as [m|]; [|done]. cbn. intros [->|[]%not_elem_of_empty]. by left. Qed.

(** The blocks a transaction writes, in the order of its dirty pages. *)
Definition writes_of (l : list (PageKey * list byte)) (dirty : list PageKey) : list (Z * list byte) :=
  omap (fun k => (fun d => (k.2, d)) <$> assoc k l) dirty.

Lemma writes_images (v0 v1 : Volume W) l dirty keys : txn v0 v1 l dirty -> images (v_page_cache v1) keys (writes_of l keys).
Proof.
  intros Ht. unfold images, writes_of. apply list_omap_ext. apply Forall_Forall2_diag, Forall_true. intros [i b].
  rewrite <- (tn_pages _ _ _ _ Ht), assoc_datas, cached_peek. cbn [fst snd]. by destruct (assoc (i, b) (cached v1)).
Qed.

Lemma writes_of_elem l keys w : w ∈ writes_of l keys -> exists k, k ∈ keys /\ k.2 = w.1 /\ assoc k l = Some w.2.
Proof. intros (k & Hk & (d & Hd & ->)%fmap_Some)%list_elem_of_omap. by exists k. Qed.

Lemma zlen_writes_of l keys : zlen (writes_of l keys) <= zlen keys.
Proof.
  induction keys as [|k keys IH]; [done|]. unfold writes_of in *. cbn [omap list_omap]. rewrite !zlen_cons. destruct (assoc k l); cbn; rewrite ?zlen_cons; lia.
Qed.

Lemma journal_ready_le n m log (w : W) : m <= n -> journal_ready n log w -> journal_ready m log w.
Proof. intros Hm. destruct log as [l|]; [|done]. intros [Hl [H1 H2]]. split; [done|]. unfold lm_space. lia. Qed.

Lemma commit_txn n (v v1 : Volume W) l dirty :
  vol_base n v -> txn v v1 l dirty -> pages_ok l -> 2 * zlen dirty + 2 <= n -> (forall k, is_Some (assoc k l) -> k ∈ dirty) ->
  (forall k, k ∈ dirty -> meta_block v k.2) ->
  (forall blk, meta_block v blk -> block_at (apply_writes (writes_of l dirty) (contents (v_storage v))) blk = view_block l (contents (v_storage v)) blk) ->
  exists r v', vol_commit_transaction v1 = (Ok r, v') /\ committed (n - 2 * zlen dirty - 2) v v' l.
Proof.
  intros Hv Ht Hl Hn Hd Hm Hw. destruct (tn_active _ _ _ _ Ht) as (a & Ha & Had).
  pose proof (tn_contents _ _ _ _ Ht) as Hc. pose proof (tn_log _ _ _ _ Ht) as Hlog. pose proof (tn_bmap _ _ _ _ Ht) as Hbm.
  pose proof (zlen_writes_of l dirty) as Hzi.
  destruct (vol_commit_one v1 a (writes_of l dirty) n Ha) as (v' & Hrun & Hst & Hb' & Hi & _ & Hw' & Hz' & Hj & Hl' & Hblk & Hcv).
  { apply Ht. } { rewrite Hlog. pose proof (ok_journal n v Hv) as Hj. unfold journal_ready, lm_space in *. destruct (v_log v); [by rewrite Hc|done]. }
  { lia. } { rewrite Had. apply (writes_images v v1 l dirty dirty Ht). }
  { apply Forall_forall. intros w (k & Hk & <- & Ha')%writes_of_elem. destruct (Hm k Hk) as [Hfs _]. rewrite Hlog, Hc. split; [|done]. by eapply assoc_pages_ok. }
  { rewrite Hlog, Hc, Hbm. apply Hv. }
  apply (journal_ready_le _ (n - 2 * zlen dirty - 2)) in Hj; [|lia]. assert (Hstat : v_static v' = v_static v) by (rewrite Hst; apply Ht).
  assert (Hbm' : v_bmap v' = bmap_clean (v_bmap v)) by (by rewrite Hb', Hbm).
  assert (Hlen : zlen (contents (v_storage v')) = zlen (contents (v_storage v))) by (by rewrite Hz', Hc).
  assert (Hlog' : forall blk, before_log (v_log v') blk <-> before_log (v_log v) blk) by (intros; rewrite Hl', Hlog; done).
  assert (Hcache : cached v' = []).
  { apply assoc_all_None. intros [k1 k2]. rewrite <- cached_peek. specialize (Hcv (k1, k2)). cbn [fst snd] in Hcv. rewrite Hcv, Had.
    destruct (decide ((k1, k2) ∈ dirty)) as [_|Hk]; [reflexivity|]. rewrite cached_peek. destruct (assoc (k1, k2) (cached v1)) as [q|] eqn:Eq; [|done].
    exfalso. apply Hk, Hd. rewrite <- (tn_pages _ _ _ _ Ht), assoc_datas, Eq. by eexists. }
  assert (Hcap : cap v' = cap v) by (pose proof (vol_commit_cap v1) as Hcp; rewrite Hrun in Hcp; cbn [snd] in Hcp; rewrite Hcp; apply Ht).
  assert (Hblocks : forall b, meta_block v b -> block_at (contents (v_storage v')) b = view_block l (contents (v_storage v)) b).
  { intros b Hmb. rewrite <- Hw by done. destruct Hmb as [(H0 & Hr & Hbl) Hnm]. rewrite Hblk by (done || by rewrite ?Hlog, ?Hbm). by rewrite Hc. }
  destruct (table_view_static v v' Hstat) as [Htb Hag]. eexists _, v'. split; [exact Hrun|]. split; try done.
  - injection Hstat as E1 E2 E3 E4 E5 E6. split; [|rewrite Hbm'; by destruct (v_bmap v)]. split; try done; rewrite ?Hbm', ?E1, ?Hcap; try apply Hv.
    + eapply bmap_ready_len; [exact Hlen|exact Hlog'|]. apply bmap_clean_ready, Hv.
    + rewrite Htb, Hag. intros blk Hb Hba. eapply meta_block_same; [rewrite Hbm'; apply map_block_clean|done|done|by apply (ok_blocks n v Hv)].
  - intros loc Hin. rewrite slot_bytes_device by done. destruct (table_slots_elem n v loc Hv Hin) as [Hmb _]. unfold slot_of. f_equal. by apply Hblocks.
Qed.

(** The volume after a call that changed inodes only: quiet, with the same map
    and layout, and with its data blocks unchanged. *)
Record next_ok (n : Z) (v v' : Volume W) : Prop := {
  nx_ok :> vol_ok n v';
  nx_static : v_static v' = v_static v;
  nx_bmap : v_bmap v' = v_bmap v;
  nx_log : forall blk, before_log (v_log v') blk <-> before_log (v_log v) blk;
  nx_len : zlen (contents (v_storage v')) = zlen (contents (v_storage v));
  nx_data : forall a, meta_block v a -> (a ∈ table_blocks (table_view v) -> v_agg_size v <= a) -> block_at (contents (v_storage v')) a = block_at (contents (v_storage v)) a }.

(** The block of a slot is a block of the table. *)
Lemma slot_block (v : Volume W) b off : (b, off) ∈ table_slots (table_view v) -> b ∈ table_blocks (table_view v) /\ b < v_agg_size v.
Proof.
  intros Hin%list_elem_of_In. apply in_flat_map in Hin as (b' & [Hb' Ha]%List.filter_In & Hin). apply in_map_iff in Hin as (i & [= -> _] & _).
  cbn [table_view tv_agg_size] in Ha. split; [by apply list_elem_of_In|]. destruct (v_agg_size v <=? b) eqn:E; [done|lia].
Qed.

Lemma committed_next n m (v v' : Volume W) l :
  vol_ok n v -> committed m v v' l -> Forall (fun e => exists off, (e.1.2, off) ∈ table_slots (table_view v)) l -> next_ok m v v'.
Proof.
  intros Hv Hc Hl. split; try apply Hc; [by rewrite (cm_bmap _ _ _ _ Hc), (ok_clean n v Hv)|]. intros a Hm Ht. rewrite (cm_blocks _ _ _ _ Hc a Hm). unfold view_block.
  destruct (List.find _ l) as [e|] eqn:E; [|done]. apply find_some in E as [He Heq]. rewrite Forall_forall in Hl. apply list_elem_of_In in He. destruct (Hl e He) as (off & Hin).
  assert (Hea : e.1.2 = a) by lia. rewrite Hea in Hin. destruct (slot_block v a off Hin) as [H1 H2]. specialize (Ht H1). lia.
Qed.

(** *** One slot changed *)

(** The table is the old one except for one slot. *)
Definition slot_update (loc0 : Z * Z) (new : list byte) (table : Z * Z -> list byte) (loc : Z * Z) : list byte :=
  if decide (loc = loc0) then new else table loc.

Lemma view_block_unassoc l (c : list byte) ino b b' : b' <> b -> view_block (unassoc (ino, b) l) c b' = view_block l c b'.
Proof.
  intros Hne. unfold view_block. replace (List.find _ (unassoc (ino, b) l)) with (List.find (fun e : PageKey * list byte => e.1.2 =? b') l); [done|].
  induction l as [|[[i b1] d] l IH]; [done|]. cbn [List.find unassoc fst snd]. destruct (decide ((ino, b) = (i, b1))) as [[= -> ->]|Hk].
  - by destruct (Z.eqb_spec b1 b').
  - cbn [List.find fst snd]. by destruct (b1 =? b').
Qed.

(** A page made from the one in view changes the slot that is written, and no
    other slot of the table. *)
Lemma slot_of_update n (v : Volume W) l ino b k bytes loc :
  vol_base n v -> pages_ok l -> meta_block v b -> 0 <= k < INOSPERPAGE -> zlen bytes = DISIZE -> loc ∈ table_slots (table_view v) ->
  slot_of (((ino, b), zsplice (view_block l (contents (v_storage v)) b) (k * DISIZE) bytes) :: unassoc (ino, b) l) (contents (v_storage v)) loc =
  slot_update (b, k * DISIZE) bytes (slot_of l (contents (v_storage v))) loc.
Proof.
  intros Hv Hl [(H0 & Hr & _) _] Hk Hz Hin. destruct (table_slots_elem n v loc Hv Hin) as [_ (j & Hj & Hoff)].
  pose proof (view_block_len l (contents (v_storage v)) b Hl H0 Hr) as Hbl. unfold DISIZE, INOSPERPAGE, BLOCK_SIZE, PSIZE in *.
  destruct loc as [b' off]. cbn [fst snd] in *. subst off. unfold slot_update, slot_of. cbn [fst snd].
  destruct (decide (b' = b)) as [->|Hne].
  - unfold view_block at 1. cbn [List.find fst snd]. rewrite Z.eqb_refl. cbn [snd]. unfold DISIZE. destruct (decide (j = k)) as [->|Hne].
    + rewrite decide_True by done. apply zslice_zsplice_same; lia.
    + rewrite decide_False by (intros [=]; lia). apply zslice_zsplice_disjoint; lia.
  - rewrite decide_False by (intros [=]; done). f_equal. rewrite <- (view_block_unassoc l _ ino b b') by done.
    unfold view_block. cbn [List.find fst snd]. by destruct (Z.eqb_spec b b'); [congruence|].
Qed.

(** *** What a changed slot means for the table *)

Lemma find_slot_ext t t' slots ino : (forall loc, loc ∈ slots -> t loc = t' loc) -> find_slot t slots ino = find_slot t' slots ino.
Proof. intros H. apply find_ext. intros loc Hin. by rewrite H. Qed.

Lemma find_slot_inj t slots i j loc : find_slot t slots i = Some loc -> find_slot t slots j = Some loc -> i = j.
Proof.
  unfold find_slot. intros [_ H1]%find_some [_ H2]%find_some. apply inode_target_inj. unfold key_matches in *.
  destruct (inode_target i), (inode_target j). cbn [fst snd] in *. f_equal; lia.
Qed.

(** A slot that keeps its fileset and number. *)
Lemma find_slot_same_key t slots loc0 new ino :
  zslice new 4 12 = zslice (t loc0) 4 12 -> find_slot (slot_update loc0 new t) slots ino = find_slot t slots ino.
Proof.
  intros Hk. apply find_ext. intros loc _. unfold slot_update. destruct (decide (loc = loc0)) as [->|]; [|done]. unfold key_matches.
  replace (zslice new 4 8) with (zslice (zslice new 4 12) 0 4) by (rewrite zslice_zslice by lia; done).
  replace (zslice new 8 12) with (zslice (zslice new 4 12) 4 8) by (rewrite zslice_zslice by lia; done).
  rewrite Hk, !zslice_zslice by lia. done.
Qed.

Lemma key_matches_inj i j bytes : key_matches (inode_target i) bytes = true -> key_matches (inode_target j) bytes = true -> i = j.
Proof.
  unfold key_matches. intros H1 H2. apply inode_target_inj. destruct (inode_target i), (inode_target j). cbn [fst snd] in *. f_equal; lia.
Qed.

(** A slot that becomes the one of inode [ino]. *)
Lemma find_slot_new_key t slots loc0 new ino i :
  loc0 ∈ slots -> key_matches (inode_target ino) new = true ->
  (find_slot t slots ino = None \/ find_slot t slots ino = Some loc0) -> (i <> ino -> find_slot t slots i <> Some loc0) ->
  find_slot (slot_update loc0 new t) slots i = if decide (i = ino) then Some loc0 else find_slot t slots i.
Proof.
  intros Hin Hnew Hold Hother. unfold find_slot, slot_update in *. destruct (decide (i = ino)) as [->|Hne].
  - eapply find_put; [|by rewrite decide_True|done|exact Hold]. intros y Hy. by rewrite decide_False.
  - eapply (find_drop _ _ loc0); [| |by apply Hother]; [intros y Hy; by rewrite decide_False|]. rewrite decide_True by done.
    destruct (key_matches (inode_target i) new) eqn:E; [|done]. exfalso. by eapply Hne, key_matches_inj.
Qed.

Lemma slot_of_nil (v : Volume W) loc : cached v = [] -> slot_of [] (contents (v_storage v)) loc = slot_bytes (table_view v) (v_storage v) loc.
Proof. intros Hc. by rewrite slot_bytes_device. Qed.

(** The table of the volume after the commit. *)
Lemma committed_inodes n (v v' : Volume W) l ino :
  committed n v v' l -> slot_at v' ino = txn_slot v l ino /\ inode_bytes v' ino = slot_of l (contents (v_storage v)) <$> txn_slot v l ino.
Proof.
  intros Hc. assert (Hs : slot_at v' ino = txn_slot v l ino).
  { rewrite slot_at_find, (table_slots_static v v') by apply Hc. apply find_slot_ext. apply Hc. }
  split; [done|]. unfold inode_bytes. rewrite Hs. destruct (txn_slot v l ino) as [loc|] eqn:E; [|done]. cbn. f_equal. apply Hc. by eapply find_slot_elem.
Qed.

Lemma txn_slot_nil n (v : Volume W) ino : vol_base n v -> txn_slot v [] ino = slot_at v ino.
Proof. intros Hv. rewrite slot_at_find. apply find_slot_ext. intros loc _. apply slot_of_nil, Hv. Qed.

Lemma inode_bytes_nil n (v : Volume W) ino : vol_base n v -> inode_bytes v ino = slot_of [] (contents (v_storage v)) <$> slot_at v ino.
Proof. intros Hv. unfold inode_bytes. destruct (slot_at v ino) as [loc|]; [|done]. cbn. by rewrite slot_of_nil by apply Hv. Qed.

(** Where an inode is, and what its slot holds. *)
Lemma inode_bytes_some n (v : Volume W) ino old :
  vol_base n v -> inode_bytes v ino = Some old ->
  exists b k, slot_at v ino = Some (b, k * DISIZE) /\ meta_block v b /\ 0 <= k < INOSPERPAGE /\ (b, k * DISIZE) ∈ table_slots (table_view v) /\
    old = slot_of [] (contents (v_storage v)) (b, k * DISIZE) /\ zlen old = 512.
Proof.
  intros Hv Hi. rewrite (inode_bytes_nil n) in Hi by done. apply fmap_Some in Hi as ([b off] & Hs & ->).
  pose proof (find_slot_elem _ _ _ _ Hs) as Hin. destruct (table_slots_elem n v _ Hv Hin) as [Hm (k & Hk & Ho)]. cbn [fst snd] in *. subst off.
  exists b, k. split; [done|]. split; [done|]. split; [done|]. split; [done|]. split; [done|]. pose proof Hm as [(H0 & Hr & _) _].
  pose proof (block_at_len _ _ H0 Hr) as Hz. unfold slot_of, view_block, DISIZE, INOSPERPAGE, BLOCK_SIZE, PSIZE in *. cbn [List.find fst snd]. rewrite zlen_zslice; lia.
Qed.

(** Reading an inode on a quiet volume and right after [begin]. *)
Lemma begin_read_ok n (v : Volume W) ino old :
  vol_base n v -> inode_bytes v ino = Some old ->
  exists t v1 v2 d b off, begin_transaction v = (Ok t, v1) /\ vol_inode_read ino v1 = (Ok (mkInode d ino b off), v2) /\
    slot_at v ino = Some (b, off) /\ txn v v2 [] [] /\ dinode_parse old = Ok d.
Proof.
  intros Hv Hi. destruct (inode_bytes_some n v ino old Hv Hi) as (b & k & Hs & Hm & Hk & Hin & -> & Hz).
  destruct (begin_ok n v Hv) as (t & v1 & Hb & Ht). destruct (read_txn n v v1 [] [] ino b (k * DISIZE) Hv Ht) as (d & v2 & Hr & Ht2 & Hd).
  { constructor. } { by rewrite (txn_slot_nil n). }
  exists t, v1, v2, d, b, (k * DISIZE). split_and!; done.
Qed.

(** A reader outside of a transaction sees what it sees inside. *)
Lemma vol_inode_read_tx ino (v : Volume W) t : (vol_inode_read ino (v_with_tx t (v_page_cache v) v)).1 = (vol_inode_read ino v).1.
Proof. unfold vol_inode_read, on_storage, table_view. cbn [v_with_tx v_set v_sb v_agg_size v_page_cache v_storage]. by destruct (inode_read _ _ _). Qed.

Lemma read_inode_ok n (v : Volume W) ino :
  vol_base n v -> match inode_bytes v ino with
  | Some old => exists d b off, (vol_inode_read ino v).1 = Ok (mkInode d ino b off) /\ dinode_parse old = Ok d /\ zlen old = 512
  | None => (vol_inode_read ino v).1 = Err inode_not_found
  end.
Proof.
  intros Hv. assert (Hbegin : forall t v1, begin_transaction v = (Ok t, v1) -> (vol_inode_read ino v1).1 = (vol_inode_read ino v).1).
  { intros t v1. unfold begin_transaction, tm_begin. rewrite (ok_idle n v Hv). intros [= _ <-]. apply vol_inode_read_tx. }
  destruct (inode_bytes v ino) as [old|] eqn:E.
  - destruct (begin_read_ok n v ino old Hv E) as (t & v1 & v2 & d & b & off & Hb & Hr & _ & _ & Hd). exists d, b, off. rewrite <- (Hbegin t v1), Hr by done.
    destruct (inode_bytes_some n v ino old Hv E) as (_ & _ & _ & _ & _ & _ & _ & Hz). done.
  - destruct (begin_ok n v Hv) as (t & v1 & Hb & Ht). destruct (read_missing n v v1 [] [] ino Hv Ht) as (v2 & Hr); [constructor| |by rewrite <- (Hbegin t v1), Hr].
    rewrite (txn_slot_nil n) by done. unfold inode_bytes in E. by destruct (slot_at v ino).
Qed.

(** *** A transaction on one inode *)

Lemma writes_of_one key d (c : list byte) blk :
  0 <= key.2 -> zlen d = BLOCK_SIZE -> key.2 * BLOCK_SIZE + BLOCK_SIZE <= zlen c -> 0 <= blk ->
  block_at (apply_writes (writes_of [(key, d)] [key]) c) blk = view_block [(key, d)] c blk.
Proof.
  intros Hk Hd Hr Hb. unfold writes_of, view_block. cbn [omap list_omap assoc List.find fst snd]. rewrite decide_True by done.
  cbn [fmap option_fmap option_map apply_writes fold_left fst snd]. rewrite block_at_zsplice by done. destruct (Z.eqb_spec key.2 blk); by case_decide.
Qed.

(** What a commit that changed one inode leaves: the other inodes, and every
    block but the one of the inode. *)
Record slot_committed (n : Z) (v v' : Volume W) (ino b : Z) (new : list byte) : Prop := {
  sc_ok : vol_ok n v';
  sc_static : v_static v' = v_static v;
  sc_bmap : v_bmap v' = bmap_clean (v_bmap v);
  sc_log : forall blk, before_log (v_log v') blk <-> before_log (v_log v) blk;
  sc_len : zlen (contents (v_storage v')) = zlen (contents (v_storage v));
  sc_inodes : forall i, inode_bytes v' i = if decide (i = ino) then Some new else inode_bytes v i;
  sc_meta : forall blk, meta_block v blk -> meta_block v' blk;
  sc_blocks : forall blk, meta_block v blk -> blk <> b -> block_at (contents (v_storage v')) blk = block_at (contents (v_storage v)) blk }.

Lemma committed_meta n (v v' : Volume W) l blk : committed n v v' l -> meta_block v blk -> meta_block v' blk.
Proof. intros Hc. apply meta_block_same; [rewrite (cm_bmap _ _ _ _ Hc); apply map_block_clean|apply Hc..]. Qed.

(** Marking the updated page of an inode, whose fileset and number are kept,
    and committing. *)
Lemma mark_commit_ok n (v v3 : Volume W) ino b k old new :
  vol_base n v -> 4 <= n -> slot_at v ino = Some (b, k * DISIZE) -> meta_block v b -> 0 <= k < INOSPERPAGE ->
  old = slot_of [] (contents (v_storage v)) (b, k * DISIZE) -> zlen new = 512 -> zslice new 4 12 = zslice old 4 12 ->
  txn v v3 [((ino, b), zsplice (block_at (contents (v_storage v)) b) (k * DISIZE) new)] [] ->
  exists v4 r v', mark_page_dirty ino b v3 = (Ok tt, v4) /\ vol_commit_transaction v4 = (Ok r, v') /\ slot_committed (n - 4) v v' ino b new.
Proof.
  intros Hv Hn Hs Hm Hkr Hold Hz Hkey Ht3. set (c := contents (v_storage v)) in *. set (new_page := zsplice _ _ _) in *.
  pose proof Hm as [(H0 & Hr & _) _]. pose proof (block_at_len _ _ H0 Hr) as Hbl. fold c in Hbl.
  assert (Hzn : zlen new_page = BLOCK_SIZE) by (unfold new_page, DISIZE, INOSPERPAGE, BLOCK_SIZE, PSIZE in *; rewrite zlen_zsplice; lia).
  destruct (mark_txn v v3 _ _ ino b Ht3) as (v4 & Hrun4 & Ht4). rewrite bool_decide_eq_false_2 in Ht4 by apply not_elem_of_nil.
  unfold promote in Ht4. cbn [assoc unassoc app] in Ht4. rewrite !decide_True in Ht4 by done.
  assert (Hp : pages_ok [((ino, b), new_page)]) by (by repeat constructor).
  destruct (commit_txn n v v4 _ _ Hv Ht4 Hp) as (r & v' & Hrun5 & Hcm); [change (zlen [(ino, b)]) with 1; lia| | | |].
  { intros k'. cbn [assoc]. rewrite list_elem_of_singleton. destruct (decide (k' = (ino, b))); [done|]. by intros [? ?]. }
  { by intros k' ->%list_elem_of_singleton. }
  { intros blk [(? & _) _]. by apply (writes_of_one (ino, b) new_page). }
  exists v4, r, v'. split_and!; [done..|]. change (zlen [(ino, b)]) with 1 in Hcm. split.
  - replace (n - 4) with (n - 2 * 1 - 2) by lia. apply Hcm.
  - apply Hcm.
  - apply Hcm.
  - apply Hcm.
  - apply Hcm.
  - intros i. destruct (committed_inodes _ _ _ _ i Hcm) as [_ ->]. rewrite (inode_bytes_nil n) by done.
    assert (Hslot : forall loc, loc ∈ table_slots (table_view v) -> slot_of [((ino, b), new_page)] c loc = slot_update (b, k * DISIZE) new (slot_of [] c) loc).
    { intros loc Hl. apply (slot_of_update n v [] ino b k new loc); try done. constructor. }
    assert (Hts : txn_slot v [((ino, b), new_page)] i = slot_at v i).
    { rewrite <- (txn_slot_nil n) by done. unfold txn_slot. fold c. rewrite (find_slot_ext _ _ _ _ Hslot). apply find_slot_same_key. by rewrite <- Hold. }
    rewrite Hts. destruct (slot_at v i) as [loc|] eqn:Ei; cbn.
    + rewrite Hslot by (by eapply find_slot_elem). unfold slot_update. destruct (decide (loc = (b, k * DISIZE))) as [->|Hne].
      * assert (i = ino) as -> by (by eapply (find_slot_inj _ _ i ino)). by rewrite decide_True.
      * rewrite decide_False; [done|]. intros ->. congruence.
    + rewrite decide_False; [done|]. intros ->. congruence.
  - intros blk. by apply (committed_meta _ _ _ _ _ Hcm).
  - intros blk Hb Hne. rewrite (cm_blocks _ _ _ _ Hcm blk Hb). unfold view_block. cbn [List.find fst snd]. by destruct (Z.eqb_spec b blk).
Qed.

(** The same when the page was not touched. *)
Lemma mark_commit_clean n (v v3 : Volume W) ino b old :
  vol_base n v -> 4 <= n -> meta_block v b -> txn v v3 [] [] -> inode_bytes v ino = Some old ->
  exists v4 r v', mark_page_dirty ino b v3 = (Ok tt, v4) /\ vol_commit_transaction v4 = (Ok r, v') /\ slot_committed (n - 4) v v' ino b old.
Proof.
  intros Hv Hn Hm Ht3 Hold. destruct (mark_txn v v3 _ _ ino b Ht3) as (v4 & Hrun4 & Ht4). rewrite bool_decide_eq_false_2 in Ht4 by apply not_elem_of_nil.
  destruct (commit_txn n v v4 _ _ Hv Ht4) as (r & v' & Hrun5 & Hcm); [constructor|change (zlen ([] ++ [(ino, b)])) with 1; lia|by intros k' [? ?]|by intros k' ->%list_elem_of_singleton|done|].
  exists v4, r, v'. split_and!; [done..|]. change (zlen ([] ++ [(ino, b)])) with 1 in Hcm. split.
  - replace (n - 4) with (n - 2 * 1 - 2) by lia. apply Hcm.
  - apply Hcm.
  - apply Hcm.
  - apply Hcm.
  - apply Hcm.
  - intros i. destruct (committed_inodes _ _ _ _ i Hcm) as [_ ->]. change (promote (ino, b) []) with (@nil (PageKey * list byte)).
    rewrite (txn_slot_nil n), <- (inode_bytes_nil n) by done. by destruct (decide (i = ino)) as [->|].
  - intros blk. by apply (committed_meta _ _ _ _ _ Hcm).
  - intros blk Hb _. by rewrite (cm_blocks _ _ _ _ Hcm blk Hb).
Qed.

(** Updating the slot of an inode, keeping its fileset and number. *)
Lemma update_slot_ok n (v v2 : Volume W) ino b k upd old new :
  vol_base n v -> txn v v2 [] [] -> meta_block v b -> 0 <= k < INOSPERPAGE -> old = slot_of [] (contents (v_storage v)) (b, k * DISIZE) -> upd old = Ok new ->
  exists v3, update_inode_page ino b (k * DISIZE) upd v2 = (Ok tt, v3) /\
    txn v v3 [((ino, b), zsplice (block_at (contents (v_storage v)) b) (k * DISIZE) new)] [].
Proof.
  intros Hv Ht Hm Hkr Hold Hu. pose proof Hm as [(H0 & Hr & _) _]. pose proof (block_at_len _ _ H0 Hr) as Hbl. pose proof (ok_cap n v Hv).
  destruct (update_txn v v2 [] [] ino b (k * DISIZE) upd new Ht) as (v3 & Hrun3 & Ht3); try done; [|unfold DISIZE; lia| | |by exists v3].
  { change (zlen []) with 0. lia. }
  { unfold page_for. cbn [assoc List.find]. rewrite Hbl. unfold DISIZE, INOSPERPAGE, BLOCK_SIZE, PSIZE in *. lia. }
  { unfold page_for. cbn [assoc List.find]. rewrite <- Hu, Hold. done. }
Qed.

Lemma update_finish_ok n (v v2 : Volume W) ino b off upd old new {A} (res : A) :
  vol_base n v -> 4 <= n -> txn v v2 [] [] -> slot_at v ino = Some (b, off) -> inode_bytes v ino = Some old -> upd old = Ok new -> zlen new = 512 ->
  zslice new 4 12 = zslice old 4 12 ->
  exists v', (let* _ := update_inode_page ino b off upd in finish ino b res) v2 = (Ok res, v') /\ vol_ok (n - 4) v' /\
    forall i, inode_bytes v' i = if decide (i = ino) then Some new else inode_bytes v i.
Proof.
  intros Hv Hn Ht Hs Hi Hu Hz Hkey. destruct (inode_bytes_some n v ino old Hv Hi) as (b' & k & Hs' & Hm & Hk & _ & Hold & _).
  rewrite Hs in Hs'. injection Hs' as <- ->. destruct (update_slot_ok n v v2 ino b k upd old new) as (v3 & Hrun3 & Ht3); try done.
  destruct (mark_commit_ok n v v3 ino b k old new) as (v4 & r & v' & Hrun4 & Hrun5 & Hc); try done.
  exists v'. split_and!; [|apply Hc|apply Hc]. unfold finish. by rewrite (sbind_ok _ _ _ _ _ Hrun3), (sbind_ok _ _ _ _ _ Hrun4), (sbind_ok _ _ _ _ _ Hrun5).
Qed.
End table.

#[export] Hint Extern 0 (vol_base _ _) => apply ok_base; assumption : core.
#[export] Hint Extern 0 (vol_ok _ _) => eapply nx_ok; eassumption : core.
