(* ===== verification/Sample.v ===== *)
(** * A small volume to run the operations on

    One block on a memory device: the inode table with the root directory
    (inode 18, empty, with its [.] and [..]) in its first slot. It has neither
    journal nor allocation map. *)

From stdpp Require Import gmap.
From Stdlib Require Import ZArith Lia.
From S2P Require Import Prelude Types Storage PageCache Dmap LogMgr Devices Recovery Transaction Inode Volume VolumeData VolumeDir VolumeOps VolumeTx InodeTable.

Definition sample_order : HashOrder := {| hash_order := elements |}.
Definition sample_flags : XadFlags := {| from_bits_truncate z := z |}.

Lemma sample_order_spec : HashOrderSpec (HO := sample_order).
Proof. by split. Qed.

(** A dinode with the fields that the operations read. *)
Definition sample_dinode (number mode nlink size : Z) (u : list byte) : list byte :=
  zeros 4 ++ le_bytes 4 16 ++ le_bytes 4 number ++ zeros 12 ++ le_bytes 8 size ++ zeros 8 ++ le_bytes 4 nlink ++ zeros 8 ++
  le_bytes 4 mode ++ zeros 72 ++ u ++ zeros (384 - length u).

(** A directory root with the given entries. *)
Definition sample_root : list byte :=
  match new_dtroot (LE := le_codec) 18 18 (sample_dinode 2 0x41ed 2 0 []) with Ok d => d | _ => [] end.

Definition sample_device : MemoryStorage := mkMem (sample_root ++ zeros (Z.to_nat 3584)) 4096.

(** The table starts at block 0 and the aggregate has one block. *)
Definition volume_on (dev : MemoryStorage) : Volume MemoryStorage :=
  mkVolume super_default None tm_new dev false (pc_new 256) 4096 12 1 1 1 18 None ∅.

Definition sample_volume : Volume MemoryStorage := volume_on sample_device.

Lemma volume_on_ok n dev : mem_wf dev -> 4096 <= ms_size dev -> vol_ok (LE := le_codec) n (volume_on dev).
Proof.
  intros Hw Hs. split; [|done]. split; try done.
  intros b Hb Ha. apply elem_of_range in Hb as [Hb _]. change (pxd_address (LE := le_codec) _) with 0 in Hb. change (v_agg_size _) with 1 in Ha.
  replace b with 0 by lia. split; [|tauto]. split_and!; [done| |done]. change (contents (v_storage (volume_on dev))) with (ms_data dev).
  destruct Hw as [-> _]. done.
Qed.

Lemma sample_ok n : vol_ok (LE := le_codec) n sample_volume.
Proof. apply volume_on_ok; [split|]; vm_compute; reflexivity || discriminate. Qed.

Lemma sample_inode : inode_bytes (LE := le_codec) sample_volume 18 = Some sample_root.
Proof. vm_compute. reflexivity. Qed.

(** ** Witnesses of the calls *)

Section witnesses.
#[local] Existing Instance le_codec.
#[local] Existing Instance sample_order.
#[local] Existing Instance sample_flags.

Definition sample_next : Volume MemoryStorage := (run_call (CSetattr 18 (Some 0x1c0) None None None None) sample_volume).2.

Lemma successful_call_ends_idle_witness : idle sample_next.
Proof.
  apply (successful_call_ends_idle (CSetattr 18 (Some 0x1c0) None None None None) sample_volume sample_next).
  - reflexivity.
  - unfold sample_next. rewrite (surjective_pairing (run_call _ _)) at 1. f_equal.
Defined.

(** Truncating an inode that does not exist; a sync afterwards. *)
Definition sample_failed : Volume MemoryStorage := (run_call (CTruncate 99 0) sample_volume).2.
Definition sample_synced : Volume MemoryStorage := (vol_sync sample_failed).2.

Lemma failed_call_blocks_volume_witness :
  (run_calls [CCreate 18 [97]; CFsync 18] sample_failed).1 = [Err in_progress; Err in_progress] /\
  (exists txid, (begin_transaction sample_synced).1 = Ok txid) /\ (run_call (CFsync 18) sample_synced).1 = Ok tt.
Proof.
  destruct (failed_call_blocks_volume (CTruncate 99 0) 99 sample_volume inode_not_found) as (v' & H1 & H2); [vm_compute; reflexivity..|].
  assert (Hv : sample_failed = v') by (unfold sample_failed; rewrite H1; reflexivity).
  split; [|split].
  - destruct (H2 [CCreate 18 [97]; CFsync 18]) as (_ & H & _). rewrite Hv.
    destruct (Forall2_cons_inv_l _ _ _ _ H) as (r1 & l1 & Hr1 & H' & ->). destruct (Forall2_cons_inv_l _ _ _ _ H') as (r2 & l2 & Hr2 & H'' & ->).
    rewrite (Forall2_nil_inv_l _ _ H''), Hr1, Hr2 by reflexivity. reflexivity.
  - destruct (H2 []) as (_ & _ & _ & H). apply (H sample_synced). change (run_calls [] v').2 with v'. rewrite <- Hv. unfold sample_synced.
    rewrite (surjective_pairing (vol_sync sample_failed)) at 1. f_equal.
  - vm_compute. reflexivity.
Defined.
End witnesses.
