(* ===== verification/Attributes.v ===== *)
(** * Attributes of an inode

    The operations that change nothing but the dinode of one inode, run on a
    quiet volume ([vol_ok]): [setattr] refines the update of the inode table at
    one key with a dinode given field by field ([setattr_spec]), and the
    extended attributes of an inode are a map that [setxattr] and
    [removexattr] update and [getxattr] reads. *)

From stdpp Require Import gmap.
From Stdlib Require Import ZArith Lia.
From S2P Require Import Prelude Types Storage PageCache Dmap Xtree Dtree LogMgr Devices Recovery Transaction Inode Utf Volume VolumeData Xattr VolumeOps VolumeTx DinodeEdit InodeTable Sample.

(** ** The dinode after [setattr] *)

Section dinode.
Context {LE : LittleEndian} {LES : LittleEndianSpec}.

(** The number in four bytes of a dinode. *)
Abbreviation at_u32 d off := (le_val (zslice d off (off + 4))).

(** What [setattr] makes of the bytes of an inode, field by field. The mode
    is given bit by bit: a new mode sets the twelve permission bits, the four
    type bits stay, and the upper half, where JFS keeps its own flags
    ([INLINEEA] is bit 18), is cleared. A time is cut to 32 bits of seconds. *)
Record setattr_spec (mode uid gid atime mtime : option Z) (old new : list byte) : Prop := {
  sa_mode : forall i, 0 <= i < 32 ->
    Z.testbit (at_u32 new 52) i =
      match mode with
      | Some m => if decide (i < 12) then Z.testbit m i else if decide (i < 16) then Z.testbit (at_u32 old 52) i else false
      | None => Z.testbit (at_u32 old 52) i
      end;
  sa_uid : at_u32 new 44 = default (at_u32 old 44) uid;
  sa_gid : at_u32 new 48 = default (at_u32 old 48) gid;
  sa_atime : (at_u32 new 56, at_u32 new 60) = match atime with Some t => (t mod 2 ^ 32, 0) | None => (at_u32 old 56, at_u32 old 60) end;
  sa_mtime : (at_u32 new 72, at_u32 new 76) = match mtime with Some t => (t mod 2 ^ 32, 0) | None => (at_u32 old 72, at_u32 old 76) end;
  sa_rest : zlen new = 512 /\ zslice new 0 44 = zslice old 0 44 /\ zslice new 64 72 = zslice old 64 72 /\ zslice new 80 512 = zslice old 80 512 }.

Lemma le_val_write_u32 z : 0 <= z < 2 ^ 32 -> le_val (write_u32 z) = z.
Proof. intros Hz. by rewrite write_u32_spec, le_val_bytes. Qed.

(** The bits of a mode that [chmod] made. *)
Lemma chmod_bits m old i : 0 <= i ->
  Z.testbit (chmod (Some m) old) i = if decide (i < 12) then Z.testbit m i else if decide (i < 16) then Z.testbit old i else false.
Proof.
  intros Hi. unfold chmod. change 0xfff with (Z.ones 12). change 0xf000 with (Z.shiftl (Z.ones 4) 12).
  rewrite Z.lor_spec, !Z.land_spec, Z.shiftl_spec by done.
  destruct (decide (i < 12)).
  - rewrite Z.ones_spec_low, (Z.testbit_neg_r (Z.ones 4)) by lia. by rewrite andb_true_r, andb_false_r, orb_false_r.
  - rewrite Z.ones_spec_high, andb_false_r by lia. cbn [orb]. destruct (decide (i < 16)).
    + by rewrite Z.ones_spec_low, andb_true_r by lia.
    + by rewrite Z.ones_spec_high, andb_false_r by lia.
Qed.

Lemma time_field_spec o d d' off :
  0 <= off -> off + 8 <= zlen d -> off + 8 <= zlen d' -> zslice d' off (off + 8) = time_field o (zslice d off (off + 8)) ->
  (at_u32 d' off, at_u32 d' (off + 4)) = match o with Some t => (t mod 2 ^ 32, 0) | None => (at_u32 d off, at_u32 d (off + 4)) end.
Proof.
  intros Ho Hd Hd' Hf.
  assert (Hsub : forall (l : list byte) a b, 0 <= a <= b -> b <= 8 -> zslice l (off + a) (off + b) = zslice (zslice l off (off + 8)) a b)
    by (intros l a b Ha Hb; rewrite zslice_zslice by lia; done).
  pose proof (fun l => Hsub l 0 4 ltac:(lia) ltac:(lia)) as Hlo. pose proof (fun l => Hsub l 4 8 ltac:(lia) ltac:(lia)) as Hhi.
  rewrite Z.add_0_r in Hlo. replace (off + 4 + 4) with (off + 8) by lia. rewrite (Hlo d'), (Hhi d'), Hf.
  destruct o as [t|]; cbn [time_field]; [|by rewrite (Hlo d), (Hhi d)].
  pose proof (as_u32_range t) as Ht.
  assert (Hl : forall z, 0 <= z < 2 ^ 32 -> zlen (write_u32 z) = 4) by (intros z Hz; unfold zlen; by rewrite length_write_u32).
  rewrite zslice_app_l, zslice_app_r by (rewrite ?Hl by done; lia). rewrite !Hl by done. rewrite !zslice_whole by (rewrite ?Hl by done; lia).
  by rewrite !le_val_write_u32.
Qed.

Lemma setattr_update_ok mode uid gid atime mtime old :
  zlen old = 512 -> u32_opt mode -> u32_opt uid -> u32_opt gid ->
  exists new, setattr_update mode uid gid atime mtime old = Ok new /\ setattr_spec mode uid gid atime mtime old new /\
    zlen new = 512 /\ zslice new 4 12 = zslice old 4 12.
Proof.
  intros Hd Hm Hu Hg. destruct (setattr_update_spec mode uid gid atime mtime old Hd Hm Hu Hg) as (new & Hr & Hz & H0 & H1 & H2 & H3 & H4 & H5 & H6 & H7).
  assert (Hrd : 0 <= read_u32 (zslice old 52 56) < 2 ^ 32) by (apply read_u32_range; by rewrite length_zslice by lia).
  exists new. split_and!; [done| |done|].
  - split; [| | | | |by split_and!].
    + intros i Hi. change (52 + 4) with 56. rewrite H3. destruct mode as [m|]; [|done]. rewrite le_val_write_u32 by by apply chmod_range.
      rewrite chmod_bits by lia. by rewrite read_u32_spec by (by rewrite length_zslice by lia).
    + change (44 + 4) with 48. rewrite H1. destruct uid; cbn; [by rewrite le_val_write_u32|done].
    + change (48 + 4) with 52. rewrite H2. destruct gid; cbn; [by rewrite le_val_write_u32|done].
    + apply (time_field_spec atime old new 56); [lia..|exact H4].
    + apply (time_field_spec mtime old new 72); [lia..|exact H6].
  - replace (zslice new 4 12) with (zslice (zslice new 0 44) 4 12) by (rewrite zslice_zslice by lia; done).
    by rewrite H0, zslice_zslice by lia.
Qed.

(** ** The dinode after the attributes were written *)

Lemma put_xattrs_spec flag new_mode l d :
  zlen d = 512 -> zlen l <= 384 -> 0 <= flag < 256 -> (forall m, 0 <= m < 2 ^ 32 -> 0 <= new_mode m < 2 ^ 32) ->
  exists d', put_xattrs flag new_mode l d = Ok d' /\ zlen d' = 512 /\
    zslice d' 0 52 = zslice d 0 52 /\ zslice d' 52 56 = write_u32 (new_mode (read_u32 (zslice d 52 56))) /\ zslice d' 56 104 = zslice d 56 104 /\
    d' !!! 104%nat = bof flag /\ zslice d' 108 112 = write_u32 (zlen l) /\
    zslice d' 128 (128 + zlen l) = l /\ (zlen l <= 128 -> zslice d' (128 + zlen l) 256 = zeros (Z.to_nat (128 - zlen l)) /\ zslice d' 256 512 = zslice d 256 512).
Proof.
  intros Hd Hl Hf Hm. pose proof (zlen_nonneg l) as Hl0. unfold put_xattrs, IXATTRSIZE.
  destruct (@splice_edits StorageError d 128 128 (zeros (Z.to_nat 128))) as (d1 & -> & He1); [done|done|lia|lia|]. cbn [obind].
  rewrite (ed_size _ _ _ _ _ He1). destruct (Z.leb_spec (128 + zlen l) 512); [|lia].
  destruct (@splice_edits StorageError d1 128 (zlen l) l) as (d2 & -> & He2); [edit_size|done|lia|lia|]. cbn [obind].
  edit. replace (as_u32 (zlen l)) with (zlen l) by (unfold as_u32; rewrite Z.mod_small; lia).
  destruct (put_u32_edits d0 108 (zlen l)) as (d3 & H3 & He3); [edit_size|lia|lia|lia|]. unfold put_u32 in H3. rewrite H3. cbn [obind].
  destruct (@splice_edits StorageError d3 112 8 (zeros 8)) as (d4 & -> & He4); [edit_size|done|lia|lia|]. cbn [obind].
  edit. set (m := new_mode _).
  destruct (put_u32_edits d4 52 m) as (d5 & H5 & He5); [edit_size|lia|lia| |].
  { apply Hm. apply read_u32_range. by rewrite length_zslice by (rewrite ?(ed_size _ _ _ _ _ He4); lia). }
  unfold put_u32 in H5. exists d5. split; [exact H5|]. split; [edit_size|].
  assert (Hmd : m = new_mode (read_u32 (zslice d 52 56))) by (unfold m; by frames).
  split_and!; try by frames.
  - frames. by rewrite Hmd.
  - assert (Hb : zslice d5 104 105 = [bof flag]) by (by frames). apply (f_equal (fun l => l !! 0%nat)) in Hb. rewrite lookup_zslice in Hb by lia.
    rewrite decide_True in Hb by lia. apply list_lookup_total_correct. exact Hb.
  - intros Hl2. split; frames; [|done].
    replace (zslice d1 (128 + zlen l) 256) with (zslice (zslice d1 128 (128 + 128)) (zlen l) 128) by (rewrite zslice_zslice by lia; done).
    rewrite (ed_here _ _ _ _ _ He1). unfold zslice, zeros. rewrite drop_replicate, take_replicate. f_equal. lia.
Qed.

(** The attributes in the bytes of a dinode. *)
Definition attrs_of (bytes : list byte) : list (list byte * list byte) :=
  match dinode_parse bytes with
  | Ok d => parse_xattr_list (read_inline_xattr_data (mkInode d 0 0 0))
  | _ => []
  end.

Lemma attrs_of_parse bytes d ino b off :
  dinode_parse bytes = Ok d -> parse_xattr_list (read_inline_xattr_data (mkInode d ino b off)) = attrs_of bytes.
Proof. unfold attrs_of. by intros ->. Qed.

Lemma attrs_of_written flag l d' :
  zlen d' = 512 -> zlen l <= 384 -> d' !!! 104%nat = bof flag -> zslice d' 108 112 = write_u32 (zlen l) -> zslice d' 128 (128 + zlen l) = l ->
  flag = DXD_INLINE \/ l = [] -> attrs_of d' = parse_xattr_list l.
Proof.
  intros Hz Hl Hf Hs Hu Hor. pose proof (zlen_nonneg l). unfold attrs_of. destruct (dinode_parse_bytes d' Hz) as (d & Hp & _). rewrite Hp.
  destruct (dinode_parse_fields d' d Hz Hp) as (_ & _ & _ & _ & Hfl & Hsz & Hdu).
  f_equal. unfold read_inline_xattr_data. cbn [in_dinode]. rewrite Hfl, Hf. unfold dxd_length. rewrite Hsz, Hs, read_write_u32 by lia. rewrite Hdu.
  rewrite zlen_zslice by lia.
  assert (Hres : zslice (zslice d' 128 512) 0 (Z.min (zlen l) (512 - 128)) = l) by (rewrite zslice_zslice by lia; rewrite Z.min_l by lia; exact Hu).
  destruct Hor as [->|Hnil].
  - change (Z.land (bval (bof DXD_INLINE)) DXD_INLINE =? 0) with false. destruct (Z.eqb_spec (zlen l) 0) as [E|]; [|done].
    destruct l; [done|]. rewrite zlen_cons in E. pose proof (zlen_nonneg l). lia.
  - rewrite Hnil. by destruct (_ =? 0).
Qed.
End dinode.

Section attributes.
Context {LE : LittleEndian} {LES : LittleEndianSpec} {L : Lru PageKey CachedPage} {LS : LruSpec PageKey CachedPage}.
Context {HO : HashOrder} {HOS : HashOrderSpec} {W : Type} {FS : Storage W} {SS : StorageSpec W} {SR : StorageReliable W}.
Abbreviation VM := (ST (Volume W) StorageError).

(** C17: on a quiet volume [setattr] succeeds and refines the update of the
    inode table at one inode. The owner, the group and the times that were
    given are stored, the times as 32-bit seconds without a fraction; a given
    mode sets the permission bits 0 to 11, leaves the type bits 12 to 15 and
    clears the bits 16 to 31, so that a chmod also drops [INLINEEA]. Every
    field that was not given and every other byte of the inode, the change
    time included, is as before; no other inode changes, and the volume is
    quiet again with four journal segments less. *)
Theorem setattr_refines n (v : Volume W) ino mode uid gid atime mtime old
  (Hv : vol_ok n v) (Hn : 4 <= n) (Hold : inode_bytes v ino = Some old)
  (Hm : u32_opt mode) (Hu : u32_opt uid) (Hg : u32_opt gid) :
  exists v' new, setattr ino mode uid gid atime mtime v = (Ok tt, v') /\ vol_ok (n - 4) v' /\
    setattr_spec mode uid gid atime mtime old new /\
    forall i, inode_bytes v' i = if decide (i = ino) then Some new else inode_bytes v i.
Proof.
  destruct (inode_bytes_some n v ino old Hv Hold) as (_ & _ & _ & _ & _ & _ & _ & Hz).
  destruct (begin_read_ok n v ino old Hv Hold) as (t & v1 & v2 & d & b & off & Hb & Hr & Hs & Ht & _).
  destruct (setattr_update_ok mode uid gid atime mtime old Hz Hm Hu Hg) as (new & Hup & Hspec & Hz' & Hk).
  destruct (update_finish_ok n v v2 ino b off _ old _ tt Hv Hn Ht Hs Hold Hup Hz' Hk) as (v' & Hrun & Hok & Hby).
  exists v', new. split_and!; [|done..]. unfold setattr. rewrite (sbind_ok _ _ _ _ _ Hb), (sbind_ok _ _ _ _ _ Hr). exact Hrun.
Qed.

(** ** Extended attributes *)

(** The attributes of an inode. *)
Definition attrs (v : Volume W) (ino : Z) : option (list (list byte * list byte)) := attrs_of <$> inode_bytes v ino.

(** [getxattr] reads them. *)
Lemma getxattr_attrs n (v : Volume W) ino name :
  vol_ok n v -> (getxattr ino name v).1 = match attrs v ino with Some l => Ok (find_value (as_bytes name) l) | None => Err inode_not_found end.
Proof.
  intros Hv. unfold getxattr, attrs. pose proof (read_inode_ok n v ino Hv) as Hr. unfold sbind. destruct (vol_inode_read ino v) as [r v']. cbn [fst] in Hr.
  destruct (inode_bytes v ino) as [old|]; [|by rewrite Hr]. destruct Hr as (d & b & off & -> & Hp & _). cbn. by rewrite (attrs_of_parse old).
Qed.

(** Storing a list of attributes in an inode. *)
Lemma put_xattrs_finish n (v v2 : Volume W) ino b off old flag new_mode l {A} (res : A) :
  vol_ok n v -> 4 <= n -> txn v v2 [] [] -> slot_at v ino = Some (b, off) -> inode_bytes v ino = Some old -> zlen old = 512 ->
  zlen l <= 384 -> 0 <= flag < 256 -> (forall m, 0 <= m < 2 ^ 32 -> 0 <= new_mode m < 2 ^ 32) -> flag = DXD_INLINE \/ l = [] ->
  exists v' new, (let* _ := update_inode_page ino b off (put_xattrs flag new_mode l) in finish ino b res) v2 = (Ok res, v') /\ vol_ok (n - 4) v' /\
    put_xattrs flag new_mode l old = Ok new /\
    (forall i, inode_bytes v' i = if decide (i = ino) then Some new else inode_bytes v i) /\
    forall i, attrs v' i = if decide (i = ino) then Some (parse_xattr_list l) else attrs v i.
Proof.
  intros Hv Hn Ht Hs Hby Hz Hl Hf Hm Hor.
  destruct (put_xattrs_spec flag new_mode l old Hz Hl Hf Hm) as (new & Hup & Hz' & H1 & _ & _ & H4 & H5 & H6 & _).
  assert (Hk : zslice new 4 12 = zslice old 4 12).
  { replace (zslice new 4 12) with (zslice (zslice new 0 52) 4 12) by (rewrite zslice_zslice by lia; done). by rewrite H1, zslice_zslice by lia. }
  destruct (update_finish_ok n v v2 ino b off _ old new res Hv Hn Ht Hs Hby Hup Hz' Hk) as (v' & Hrun & Hok & Htab).
  exists v', new. split_and!; [done..|]. intros i. unfold attrs. rewrite Htab. destruct (decide (i = ino)); [|done].
  cbn. f_equal. by apply (attrs_of_written flag).
Qed.

(** Why [setxattr] refuses, in the order of its checks. *)
Definition set_refused (name value : list byte) (flags : Z) (l : list (list byte * list byte)) : option StorageError :=
  if 255 <? zlen name then Some XattrNameTooLong
  else if IXATTRSIZE <? zlen value then Some XattrValueTooLarge
  else if negb (Z.land flags XATTR_CREATE =? 0) && has_name name l then Some XattrAlreadyExists
  else if negb (Z.land flags XATTR_REPLACE =? 0) && negb (has_name name l) then Some XattrNotFound
  else if IXATTRSIZE <? zlen (set_list name value l) then Some XattrDataTooLarge
  else None.

Lemma set_list_small name value flags l :
  set_refused name value flags l = None -> zlen (set_list name value l) <= 128 /\ parse_xattr_list (set_list name value l) = set_entries name value l.
Proof.
  unfold set_refused. destruct (255 <? _); [done|]. destruct (_ <? zlen value); [done|]. do 2 (destruct (_ && _); [done|]).
  destruct (Z.ltb_spec IXATTRSIZE (zlen (set_list name value l))) as [|Hs]; [done|]. intros _. unfold IXATTRSIZE in Hs. split; [done|].
  rewrite set_list_entries in *. apply parse_write_list, write_list_small. lia.
Qed.

Lemma set_mode_range m : 0 <= m < 2 ^ 32 -> 0 <= Z.lor m INLINEEA < 2 ^ 32.
Proof. intros. by apply lor_range. Qed.

(** The whole of [setxattr] on a quiet volume. *)
Lemma setxattr_run n (v : Volume W) ino name value flags l :
  vol_ok n v -> 4 <= n -> attrs v ino = Some l ->
  match set_refused (as_bytes name) value flags l with
  | Some e => exists v', setxattr ino name value flags v = (Err e, v') /\ vol_ok n v' /\ forall i, inode_bytes v' i = inode_bytes v i
  | None => exists v' old new, setxattr ino name value flags v = (Ok tt, v') /\ vol_ok (n - 4) v' /\
      inode_bytes v ino = Some old /\ zlen old = 512 /\ set_update (set_list (as_bytes name) value l) old = Ok new /\
      (forall i, inode_bytes v' i = if decide (i = ino) then Some new else inode_bytes v i) /\
      forall i, attrs v' i = if decide (i = ino) then Some (set_entries (as_bytes name) value l) else attrs v i
  end.
Proof.
  intros Hv Hn Ha. unfold attrs in Ha. apply fmap_Some in Ha as (old & Hold & Hl).
  destruct (inode_bytes_some n v ino old Hv Hold) as (_ & _ & _ & _ & _ & _ & _ & Hz).
  destruct (begin_read_ok n v ino old Hv Hold) as (t & v1 & v2 & d & b & off & Hb & Hr & Hs & Ht & Hp).
  pose proof (fun e => abort_with_txn n v v2 (A := unit) e Hv Ht) as Habort.
  assert (Hbody : setxattr ino name value flags v = match set_refused (as_bytes name) value flags l with
    | Some e => abort_with e v2
    | None => (let* _ := update_inode_page ino b off (set_update (set_list (as_bytes name) value l)) in finish ino b tt) v2 end).
  { unfold setxattr. rewrite (sbind_ok _ _ _ _ _ Hb), (sbind_ok _ _ _ _ _ Hr). cbn zeta.
    rewrite (attrs_of_parse old d ino b off Hp), <- Hl. unfold set_refused.
    destruct (255 <? _); [done|]. destruct (_ <? zlen value); [done|]. do 2 (destruct (_ && _); [done|]). by destruct (_ <? zlen (set_list _ _ _)). }
  rewrite Hbody. destruct (set_refused (as_bytes name) value flags l) as [e|] eqn:Er.
  - destruct (Habort e) as (v' & Hrun & Hok & _ & Hby). by exists v'.
  - destruct (set_list_small _ _ _ _ Er) as [Hsm Hpar].
    destruct (put_xattrs_finish n v v2 ino b off old DXD_INLINE (fun m => Z.lor m INLINEEA) (set_list (as_bytes name) value l) tt)
      as (v' & new & Hrun & Hok & Hup & Htab & Hat); try done; [lia|apply set_mode_range|by left|].
    rewrite Hpar in Hat. by exists v', old, new.
Qed.

(** C16: an attribute that [setxattr] accepts is read back by [getxattr], and
    every other attribute of every inode reads as before. *)
Theorem setxattr_getxattr n (v : Volume W) ino name value flags l
  (Hv : vol_ok n v) (Hn : 4 <= n) (Ha : attrs v ino = Some l) (Hr : set_refused (as_bytes name) value flags l = None) :
  exists v', setxattr ino name value flags v = (Ok tt, v') /\ vol_ok (n - 4) v' /\
    forall i m, (getxattr i m v').1 = if decide (i = ino /\ as_bytes m = as_bytes name) then Ok (Some value) else (getxattr i m v).1.
Proof.
  pose proof (setxattr_run n v ino name value flags l Hv Hn Ha) as H. rewrite Hr in H.
  destruct H as (v' & old & new & Hrun & Hok & _ & _ & _ & _ & Hat). exists v'. split_and!; [done..|]. intros i m.
  rewrite (getxattr_attrs (n - 4)), (getxattr_attrs n), Hat by done. destruct (decide (i = ino)) as [->|Hne].
  - rewrite Ha, find_value_set. repeat case_decide; naive_solver.
  - by rewrite decide_False by naive_solver.
Qed.

(** [setxattr] refuses for the documented reasons only, in the order name
    too long, value too large, [XATTR_CREATE] on an attribute that exists,
    [XATTR_REPLACE] on one that does not, no room; a refusal ends the
    transaction and changes no inode. *)
Theorem setxattr_refusals n (v : Volume W) ino name value flags l e
  (Hv : vol_ok n v) (Hn : 4 <= n) (Ha : attrs v ino = Some l) (Hr : set_refused (as_bytes name) value flags l = Some e) :
  exists v', setxattr ino name value flags v = (Err e, v') /\ vol_ok n v' /\ forall i, inode_bytes v' i = inode_bytes v i.
Proof. pose proof (setxattr_run n v ino name value flags l Hv Hn Ha) as H. by rewrite Hr in H. Qed.

(** Removing: the list gets shorter. *)
Lemma parse_from_size fuel : forall data pos, 0 <= pos -> zlen (write_list (parse_from fuel data pos)) <= Z.max 0 (zlen data - pos).
Proof.
  induction fuel as [|fuel IH]; intros data pos Hp; cbn [parse_from]; [change (zlen (write_list [])) with 0; lia|].
  destruct (Z.leb_spec (pos + 4) (zlen data)); [|change (zlen (write_list [])) with 0; lia].
  set (nl := read_u16 _). set (vl := read_u16 _).
  assert (0 <= nl /\ 0 <= vl) as [Hnl Hvl] by (split; apply read_u16_range; rewrite length_zslice; lia).
  destruct (Z.ltb_spec (zlen data) (pos + 4 + nl + vl)); [change (zlen (write_list [])) with 0; lia|]. specialize (IH data (pos + 4 + nl + vl)).
  rewrite write_list_flat in *. cbn [flat_map fst snd]. rewrite zlen_app, zlen_xattr_entry, !zlen_zslice by lia. lia.
Qed.

Lemma attrs_of_size bytes : zlen bytes = 512 -> zlen (write_list (attrs_of bytes)) <= 384.
Proof.
  intros Hz. unfold attrs_of. destruct (dinode_parse_bytes bytes Hz) as (d & Hp & _). rewrite Hp.
  destruct (dinode_parse_fields bytes d Hz Hp) as (_ & _ & _ & _ & _ & _ & Hdu).
  etrans; [apply parse_from_size; lia|]. unfold read_inline_xattr_data. cbn [in_dinode]. rewrite Hdu, zlen_zslice by lia.
  do 2 (destruct (_ =? 0); [by change (zlen (@nil byte)) with 0|]). unfold zslice, zlen. rewrite length_take. lia.
Qed.

Lemma remove_entries_size name l : zlen (write_list (remove_entries name l)) <= zlen (write_list l).
Proof.
  rewrite !write_list_flat. induction l as [|[n v] l IH]; [done|]. unfold remove_entries in *. cbn [List.filter flat_map fst snd].
  pose proof (zlen_nonneg (xattr_entry n v)). rewrite zlen_app. destruct (bool_decide (n = name)); cbn [negb flat_map fst snd]; rewrite ?zlen_app; lia.
Qed.

Lemma remove_mode_range (e : bool) m : 0 <= m < 2 ^ 32 -> 0 <= (if e then Z.land m (not_u32 INLINEEA) else Z.lor m INLINEEA) < 2 ^ 32.
Proof. intros. destruct e; [by apply land_range|by apply set_mode_range]. Qed.

(** [removexattr] says whether the attribute was there; afterwards
    [getxattr] does not find it, and every other attribute of every inode
    reads as before. *)
Theorem removexattr_getxattr n (v : Volume W) ino name l
  (Hv : vol_ok n v) (Hn : 4 <= n) (Ha : attrs v ino = Some l) (Hl : Forall entry_ok l) :
  exists v' n', removexattr ino name v = (Ok (has_name (as_bytes name) l), v') /\ n - 4 <= n' /\ vol_ok n' v' /\
    forall i m, (getxattr i m v').1 = if decide (i = ino /\ as_bytes m = as_bytes name) then Ok None else (getxattr i m v).1.
Proof.
  pose proof Ha as Ha'. unfold attrs in Ha. apply fmap_Some in Ha as (old & Hold & ->).
  destruct (inode_bytes_some n v ino old Hv Hold) as (_ & _ & _ & _ & _ & _ & _ & Hz).
  destruct (begin_read_ok n v ino old Hv Hold) as (t & v1 & v2 & d & b & off & Hb & Hr & Hs & Ht & Hp).
  unfold removexattr. rewrite (sbind_ok _ _ _ _ _ Hb), (sbind_ok _ _ _ _ _ Hr). cbn zeta. rewrite (attrs_of_parse old d ino b off Hp).
  destruct (has_name (as_bytes name) (attrs_of old)) eqn:Eh; cbn [negb].
  - assert (Hok : Forall entry_ok (remove_entries (as_bytes name) (attrs_of old))) by (apply List.incl_Forall with (attrs_of old); [apply List.incl_filter|done]).
    destruct (put_xattrs_finish n v v2 ino b off old (if bool_decide (remove_list (as_bytes name) (attrs_of old) = []) then 0 else DXD_INLINE)
      (fun m => if bool_decide (remove_list (as_bytes name) (attrs_of old) = []) then Z.land m (not_u32 INLINEEA) else Z.lor m INLINEEA)
      (remove_list (as_bytes name) (attrs_of old)) true) as (v' & new & Hrun & Hok' & _ & _ & Hat); try done.
    { rewrite remove_list_entries. etrans; [apply remove_entries_size|by apply attrs_of_size]. }
    { by destruct (bool_decide _). } { intros m. apply remove_mode_range. } { case_bool_decide; auto. }
    exists v', (n - 4). split_and!; [exact Hrun|lia|done|]. intros i m. rewrite (getxattr_attrs (n - 4)), (getxattr_attrs n), Hat by done.
    destruct (decide (i = ino)) as [->|Hne]; [|by rewrite decide_False by naive_solver].
    rewrite Ha', remove_list_entries, parse_write_list, find_value_remove by done. repeat case_decide; naive_solver.
  - destruct (abort_txn n v v2 Hv Ht) as (v' & Hrun & Hok & _ & Hby). rewrite (sbind_ok _ _ _ _ _ Hrun). exists v', n. split_and!; [done|lia|done|].
    intros i m. rewrite !(getxattr_attrs n) by done. unfold attrs. rewrite Hby. destruct (decide _) as [[-> Hm]|]; [|done]. rewrite Hold. cbn. rewrite Hm.
    destruct (find_value _ _) eqn:Ef; [|done]. exfalso. eapply eq_true_false_abs; [apply find_value_has; by eexists|exact Eh].
Qed.

(** ** The attributes and the tree root share bytes *)

(** What the root of an extent tree and of a directory tree say when their
    header is zero. *)
Lemma cleared_root_empty (from_bits : Z -> Z) root :
  zlen root = 288 -> zslice root 0 32 = zeros 32 ->
  (exists r, xt_from_inode_data root = Ok r /\ iter_extents from_bits r = []) /\
  (exists t, dt_from_inode_data root = Ok t /\ dt_entries t = Ok []).
Proof.
  intros Hz H0. assert (Hsub : forall a b, 0 <= a <= b -> b <= 32 -> zslice root a b = zeros (Z.to_nat (b - a))).
  { intros a b Ha Hb. replace (zslice root a b) with (zslice (zslice root 0 32) a b) by (rewrite zslice_zslice by lia; f_equal; lia).
    rewrite H0. unfold zslice, zeros. rewrite drop_replicate, take_replicate. f_equal. lia. }
  split.
  - unfold xt_from_inode_data, parse_xtroot. rewrite Hz. cbn [Z.ltb Z.compare Pos.compare Pos.compare_cont].
    rewrite !field_ok, !get_ok, slice_ok by (rewrite ?Hz; done). cbn [obind]. change (saturating_sub XTROOTMAXSLOT XTENTRYSTART) with 16.
    destruct (parse_xads_ok root 0 (xt_xad xtroot_default)) as (xads & -> & _); [done|lia|done|by apply Forall_replicate|].
    eexists. split; [reflexivity|]. unfold iter_extents, xt_slots, xtroot_next_index. cbn [xt_header xt_xad].
    unfold xth_get_nextindex. cbn [xth_nextindex]. rewrite (Hsub 18 20) by lia. rewrite read_u16_spec by done. done.
  - unfold dt_from_inode_data, DTROOT_ENTRY_BASE. rewrite Hz. eexists. split; [reflexivity|].
    assert (Hb : root !!! 17%nat = Byte.x00).
    { apply list_lookup_total_correct. pose proof (Hsub 17 18 ltac:(lia) ltac:(lia)) as Hb. apply (f_equal (fun l => l !! 0%nat)) in Hb.
      rewrite lookup_zslice in Hb by lia. rewrite decide_True in Hb by lia. exact Hb. }
    unfold dt_entries, dt_next_index, DTROOT_NEXTINDEX. cbn [dt_data]. rewrite Hz. cbn [Z.leb Z.compare Pos.compare Pos.compare_cont].
    rewrite get_ok by (rewrite Hz; done). change (Z.to_nat 17) with 17%nat. by rewrite Hb.
Qed.

(** [setxattr] clears the 128 bytes of the union area it owns, but the
    last 32 of them are the header of the tree root: whatever the inode held,
    after an accepted attribute list of at most 96 bytes the inode is an empty
    directory, or a file without extents. *)
Theorem setxattr_empties_inode (from_bits : Z -> Z) n (v : Volume W) ino name value flags l
  (Hv : vol_ok n v) (Hn : 4 <= n) (Ha : attrs v ino = Some l) (Hr : set_refused (as_bytes name) value flags l = None)
  (Hs : zlen (set_list (as_bytes name) value l) <= 96) :
  exists v' new d, setxattr ino name value flags v = (Ok tt, v') /\ inode_bytes v' ino = Some new /\ dinode_parse new = Ok d /\
    (exists r, xt_from_inode_data (dinode_xtroot_bytes d) = Ok r /\ iter_extents from_bits r = []) /\
    exists t, dt_from_inode_data (dinode_dtroot_bytes d) = Ok t /\ dt_entries t = Ok [].
Proof.
  pose proof (setxattr_run n v ino name value flags l Hv Hn Ha) as H. rewrite Hr in H.
  destruct H as (v' & old & new & Hrun & Hok & Hold & Hzo & Hup & Hby & _). set (nl := set_list _ _ _) in *. pose proof (zlen_nonneg nl).
  destruct (put_xattrs_spec DXD_INLINE (fun m => Z.lor m INLINEEA) nl old Hzo) as (new' & Hup' & Hz & _ & _ & _ & _ & _ & _ & Hrest); [lia|done|apply set_mode_range|].
  unfold set_update in Hup. rewrite Hup in Hup'. injection Hup' as <-. destruct Hrest as [Hzero _]; [lia|].
  destruct (dinode_parse_bytes new Hz) as (d & Hp & _). destruct (dinode_parse_fields new d Hz Hp) as (_ & _ & _ & _ & _ & _ & Hdu).
  specialize (Hby ino). rewrite decide_True in Hby by done.
  exists v', new, d. split_and!; try done; eapply (cleared_root_empty from_bits); unfold dinode_xtroot_bytes, dinode_dtroot_bytes; rewrite Hdu.
  1, 3: rewrite !zlen_zslice; rewrite ?zlen_zslice; lia.
  all: rewrite !zslice_zslice by lia; replace (zslice new _ _) with (zslice (zslice new (128 + zlen nl) 256) (96 - zlen nl) (128 - zlen nl)) by (rewrite zslice_zslice by lia; f_equal; lia);
    rewrite Hzero; unfold zslice, zeros; rewrite drop_replicate, take_replicate; f_equal; lia.
Qed.
End attributes.

(** ** Witnesses *)

Section witnesses.
#[local] Existing Instance le_codec.
#[local] Existing Instance le_codec_spec.
#[local] Existing Instance sample_order.
#[local] Existing Instance sample_order_spec.

Lemma setattr_refines_witness :
  exists v' new, setattr 18 (Some 0x1c0) None (Some 100) None (Some 7) sample_volume = (Ok tt, v') /\
    setattr_spec (Some 0x1c0) None (Some 100) None (Some 7) sample_root new /\
    forall i, inode_bytes v' i = if decide (i = 18) then Some new else inode_bytes sample_volume i.
Proof.
  destruct (setattr_refines 4 sample_volume 18 (Some 0x1c0) None (Some 100) None (Some 7) sample_root) as (v' & new & H1 & _ & H2 & H3);
    [apply sample_ok|lia|apply sample_inode|vm_compute; split; [discriminate|reflexivity]|exact I|vm_compute; split; [discriminate|reflexivity]|].
  exists v', new. exact (conj H1 (conj H2 H3)).
Defined.

(** "user.k" *)
Definition wname : list Z := [117; 115; 101; 114; 46; 107].
Definition wvalue : list byte := [Byte.x01; Byte.x02].

Lemma sample_attrs : attrs sample_volume 18 = Some [].
Proof. unfold attrs. rewrite sample_inode. vm_compute. reflexivity. Qed.

Lemma setxattr_getxattr_witness :
  exists v', setxattr 18 wname wvalue 0 sample_volume = (Ok tt, v') /\ (getxattr 18 wname v').1 = Ok (Some wvalue).
Proof.
  destruct (setxattr_getxattr 4 sample_volume 18 wname wvalue 0 []) as (v' & H1 & _ & H2);
    [apply sample_ok|lia|apply sample_attrs|reflexivity|]. exists v'. split; [exact H1|]. rewrite H2. apply decide_True. split; reflexivity.
Defined.

Lemma setxattr_refusals_witness :
  exists v', setxattr 18 wname wvalue 2 sample_volume = (Err XattrNotFound, v') /\ forall i, inode_bytes v' i = inode_bytes sample_volume i.
Proof.
  destruct (setxattr_refusals 4 sample_volume 18 wname wvalue 2 [] XattrNotFound) as (v' & H1 & _ & H2);
    [apply sample_ok|lia|apply sample_attrs|reflexivity|]. exists v'. exact (conj H1 H2).
Defined.

Lemma removexattr_getxattr_witness :
  exists v', removexattr 18 wname sample_volume = (Ok false, v') /\ (getxattr 18 wname v').1 = Ok None.
Proof.
  destruct (removexattr_getxattr 4 sample_volume 18 wname []) as (v' & n' & H1 & _ & _ & H2);
    [apply sample_ok|lia|apply sample_attrs|constructor|]. exists v'. split; [exact H1|]. rewrite H2. apply decide_True. split; reflexivity.
Defined.

(** The root directory has two entries before, and none afterwards. *)
Lemma setxattr_empties_inode_witness :
  (let! d := match dinode_parse sample_root with Ok d => Ok d | _ => Panic end in
   let! t := dt_from_inode_data (dinode_dtroot_bytes d) in let! es := dt_entries t in Ok (zlen es)) = Ok 2 /\
  exists v' new d t, setxattr 18 wname wvalue 0 sample_volume = (Ok tt, v') /\ inode_bytes v' 18 = Some new /\ dinode_parse new = Ok d /\
    dt_from_inode_data (dinode_dtroot_bytes d) = Ok t /\ dt_entries t = Ok [].
Proof.
  split; [vm_compute; reflexivity|].
  destruct (setxattr_empties_inode (fun z => z) 4 sample_volume 18 wname wvalue 0 []) as (v' & new & d & H1 & H2 & H3 & _ & t & H4 & H5);
    [apply sample_ok|lia|apply sample_attrs|reflexivity|vm_compute; discriminate|]. exists v', new, d, t. split_and!; assumption.
Defined.
End witnesses.
