(* ===== verification/Entries.v ===== *)
(** * Directory entries

    The operations that touch two inodes in one transaction, run on a quiet
    volume: a new inode and the directory that names it ([create_file],
    [symlink], [mknod]); the steps of the removal of a name, which [Unlink] puts
    together; and [rename] inside a directory. *)

From stdpp Require Import gmap.
From Stdlib Require Import ZArith Lia.
From S2P Require Import Prelude Types Storage PageCache Dmap Xtree Dtree LogMgr Devices Recovery Transaction Inode Utf Volume VolumeData VolumeDir VolumeOps VolumeTx DinodeEdit InodeTable Sample.

Section entries.
Context {LE : LittleEndian} {LES : LittleEndianSpec} {L : Lru PageKey CachedPage} {LS : LruSpec PageKey CachedPage}.
Context {HO : HashOrder} {HOS : HashOrderSpec} {W : Type} {FS : Storage W} {SS : StorageSpec W} {SR : StorageReliable W}.
Abbreviation VM := (ST (Volume W) StorageError).

(** ** Finding a free slot *)

(** The number of the inode that lives in a slot, by its position. *)
Definition slot_number (v : Volume W) (loc : Z * Z) : Z :=
  FILESYSTEM_I + as_u32 ((loc.1 - pxd_address (s_ait2 (v_sb v))) * INOSPERPAGE + loc.2 / DISIZE).

Definition slot_free (v : Volume W) (bytes : list byte) (loc : Z * Z) : bool :=
  (read_u32 (zslice bytes 52 56) =? 0) && negb (slot_number v loc =? FILESYSTEM_I + ROOT_I).

(** The first free slot of the table in the order of the blocks. *)
Definition first_free (v : Volume W) (l : list (PageKey * list byte)) : option (Z * Z) :=
  List.find (fun loc => slot_free v (slot_of l (contents (v_storage v)) loc) loc) (table_slots (table_view v)).

Lemma free_slot_find (v : Volume W) data off b slots :
  zlen data = BLOCK_SIZE -> Forall (fun i => 0 <= i < INOSPERPAGE) slots -> b = pxd_address (s_ait2 (v_sb v)) + off ->
  free_slot data off slots =
  (fun loc => loc.2 / DISIZE) <$> List.find (fun loc => slot_free v (zslice data loc.2 (loc.2 + DISIZE)) loc) ((fun i => (b, i * DISIZE)) <$> slots).
Proof.
  intros Hz Hs ->. induction Hs as [|i slots Hi Hs IH]; [done|]. cbn [free_slot fmap list_fmap List.find snd].
  unfold BLOCK_SIZE, PSIZE, DISIZE, INOSPERPAGE in *. destruct (Z.ltb_spec (zlen data) (i * 512 + 512)); [lia|].
  unfold slot_free at 1, slot_number, DISIZE. cbn [fst snd]. rewrite zslice_zslice by lia. rewrite Z.add_simpl_l, Z.div_mul by lia. unfold INOSPERPAGE.
  destruct (_ && _); cbn [fmap option_fmap option_map snd]; [by rewrite Z.div_mul|exact IH].
Qed.

(** The scan for a free inode inside a transaction. *)
Lemma scan_free_find n (v0 v1 : Volume W) l dirty offs : forall w,
  vol_ok n v0 -> txn v0 v1 l dirty -> pages_ok l -> st_wf w -> contents w = contents (v_storage v0) ->
  Forall (fun o => pxd_address (s_ait2 (v_sb v0)) + o ∈ table_blocks (table_view v0)) offs ->
  exists w', scan_free (table_view v1) (pxd_address (s_ait2 (v_sb v0))) offs w =
    (Ok ((fun loc => (slot_number v0 loc, loc.1, loc.2)) <$> List.find (fun loc => slot_free v0 (slot_of l (contents (v_storage v0)) loc) loc)
       (flat_map (fun b => (fun i => (b, i * DISIZE)) <$> range 0 INOSPERPAGE)
          (List.filter (fun b => negb (v_agg_size v0 <=? b)) (Z.add (pxd_address (s_ait2 (v_sb v0))) <$> offs)))), w') /\
    st_wf w' /\ contents w' = contents (v_storage v0).
Proof.
  intros w Hv Ht Hl Hw Hc Ho. set (start := pxd_address (s_ait2 (v_sb v0))) in *. destruct (table_view_static v0 v1 (tn_static _ _ _ _ Ht)) as [_ Hag].
  revert w Hw Hc. induction Ho as [|o offs Ho Hos IH]; intros w Hw Hc; cbn [scan_free fmap list_fmap List.filter flat_map]; [by exists w|].
  cbn [table_view tv_agg_size]. rewrite Hag. destruct (Z.leb_spec (v_agg_size v0) (start + o)) as [Hge|Hlt]; cbn [negb flat_map]; [by apply IH|].
  destruct (ok_blocks n v0 Hv (start + o) Ho Hlt) as [(H0 & Hr & _) _].
  assert (Hpage : exists w1, table_page (table_view v1) (start + o) w = (Ok (view_block l (contents (v_storage v0)) (start + o)), w1) /\ st_wf w1 /\ contents w1 = contents (v_storage v0)).
  { destruct (table_page_run (table_view v1) w (start + o) Hw H0) as (w1 & Hp & Hw1 & Hc1); [by rewrite Hc|]. exists w1. rewrite Hp. split_and!; [|done|congruence].
    rewrite <- (page_view_txn v0 v1 l dirty) by done. unfold page_view. by rewrite Hc, (tn_contents _ _ _ _ Ht). }
  destruct Hpage as (w1 & Hp & Hw1 & Hc1). rewrite (sbind_ok _ _ _ _ _ Hp).
  pose proof (view_block_len l (contents (v_storage v0)) (start + o) Hl H0 Hr) as Hz.
  rewrite (free_slot_find v0 _ o (start + o) (range 0 INOSPERPAGE) Hz); [|apply Forall_forall; intros i Hi; by apply elem_of_range in Hi|done].
  rewrite find_app.
  assert (Hext : List.find (fun loc => slot_free v0 (slot_of l (contents (v_storage v0)) loc) loc) ((fun i => (start + o, i * DISIZE)) <$> range 0 INOSPERPAGE) =
    List.find (fun loc => slot_free v0 (zslice (view_block l (contents (v_storage v0)) (start + o)) loc.2 (loc.2 + DISIZE)) loc) ((fun i => (start + o, i * DISIZE)) <$> range 0 INOSPERPAGE)).
  { apply find_ext. intros loc Hin. apply list_elem_of_fmap in Hin as (i & -> & _). done. }
  rewrite Hext. destruct (List.find _ ((fun i => (start + o, i * DISIZE)) <$> range 0 INOSPERPAGE)) as [loc|] eqn:Ef; cbn [fmap option_fmap option_map]; [|by apply IH].
  apply find_some in Ef as [Hin _]. apply list_elem_of_In, list_elem_of_fmap in Hin as (i & -> & Hi). cbn [fst snd]. exists w1. split_and!; try done.
  unfold sret, slot_number. cbn [fst snd]. fold start. rewrite Z.add_simpl_l. unfold DISIZE. rewrite Z.div_mul by lia. done.
Qed.

Lemma allocate_txn n (v0 v1 : Volume W) l dirty :
  vol_ok n v0 -> txn v0 v1 l dirty -> pages_ok l ->
  exists v2, allocate_inode v1 = (match first_free v0 l with Some loc => Ok (slot_number v0 loc, loc.1, loc.2) | None => Err NoFreeInode end, v2) /\
    txn v0 v2 l dirty.
Proof.
  intros Hv Ht Hl. pose proof (tn_static _ _ _ _ Ht) as Hst. injection Hst as E1 _ _ _ _ _.
  destruct (scan_free_find n v0 v1 l dirty (range 0 (pxd_length (s_ait2 (v_sb v0)) + 32)) (v_storage v1) Hv Ht Hl) as (w' & Hrun & Hw' & Hc').
  { apply Ht. } { apply Ht. }
  { apply Forall_forall. intros o Ho%elem_of_range. unfold table_blocks. cbn [table_view tv_ait2]. apply elem_of_range. lia. }
  replace (flat_map _ _) with (table_slots (table_view v0)) in Hrun.
  2: { unfold table_slots, table_blocks. cbn [table_view tv_ait2 tv_agg_size]. f_equal. f_equal. rewrite fmap_add_range. f_equal; lia. }
  fold (first_free v0 l) in Hrun. unfold allocate_inode. rewrite E1. unfold sbind at 1, on_storage. rewrite Hrun.
  destruct (first_free v0 l) as [loc|]; cbn [fmap option_fmap option_map].
  - eexists. split; [reflexivity|]. destruct (tn_active _ _ _ _ Ht) as (a & Ha & Had).
    assert (Ht' : txn v0 (v_with_dev w' v1) l dirty) by (by apply txn_dev). destruct Ht'. split; try done.
    eexists. unfold tm_record_allocation. cbn [v_with_dev v_set v_tx_mgr v_with_tx]. rewrite Ha. cbn. done.
  - eexists. split; [reflexivity|]. by apply txn_dev.
Qed.

(** [allocate_inode] is the search for the first free slot of the inode
    table: it returns the number that belongs to the position of that slot,
    with its block and offset, and fails exactly when no slot is free. *)
Theorem allocate_inode_first_free n (v v1 : Volume W) t (Hv : vol_ok n v) (Hb : begin_transaction v = (Ok t, v1)) :
  (allocate_inode v1).1 = match first_free v [] with Some loc => Ok (slot_number v loc, loc.1, loc.2) | None => Err NoFreeInode end.
Proof.
  destruct (begin_ok n v Hv) as (t' & v1' & Hb' & Ht). rewrite Hb in Hb'. injection Hb' as <- <-.
  destruct (allocate_txn n v v1 [] [] Hv Ht) as (v2 & Hr & _); [constructor|]. by rewrite Hr.
Qed.

(** ** A new inode and its name *)

Lemma assoc_none_find (l : list (PageKey * list byte)) i b e : assoc (i, b) l = None -> e ∈ l -> e.1 <> (i, b).
Proof.
  intros Ha Hin. induction l as [|[k d] l IH]; [by apply elem_of_nil in Hin|]. cbn [assoc] in Ha. destruct (decide ((i, b) = k)) as [|Hne]; [done|].
  apply elem_of_cons in Hin as [->|Hin]; [by intros Heq; apply Hne|by apply IH].
Qed.

(** An inode without a page of its own gets the one in view. *)
Lemma page_for_view l (c : list byte) i b : assoc (i, b) l = None -> page_for l c i b = view_block l c b.
Proof.
  intros Ha. unfold page_for, view_block. rewrite Ha. erewrite find_ext; [done|]. intros [[i' b'] d] Hin. pose proof (assoc_none_find l i b _ Ha Hin) as Hne.
  cbn [fst snd] in *. destruct (Z.eqb_spec b' b) as [->|]; [|done]. destruct (Z.eqb_spec i' i) as [->|]; [done|]. done.
Qed.

(** Two pages written one after the other: the second decides where they are
    the same block. *)
Lemma writes_of_two k1 k2 d1 d2 (c : list byte) blk :
  k1 <> k2 -> 0 <= k1.2 -> 0 <= k2.2 -> zlen d1 = BLOCK_SIZE -> zlen d2 = BLOCK_SIZE ->
  k1.2 * BLOCK_SIZE + BLOCK_SIZE <= zlen c -> k2.2 * BLOCK_SIZE + BLOCK_SIZE <= zlen c -> 0 <= blk ->
  block_at (apply_writes (writes_of [(k2, d2); (k1, d1)] [k1; k2]) c) blk = view_block [(k2, d2); (k1, d1)] c blk.
Proof.
  intros Hne H1 H2 Hz1 Hz2 Hr1 Hr2 Hb. unfold writes_of, view_block. cbn [omap list_omap assoc List.find fst snd].
  rewrite decide_False, !decide_True by done. cbn [fmap option_fmap option_map apply_writes fold_left fst snd].
  assert (Hz : zlen (zsplice c (k1.2 * BLOCK_SIZE) d1) = zlen c) by (apply zlen_zsplice; unfold BLOCK_SIZE, PSIZE in *; lia).
  rewrite (block_at_zsplice _ d2 k2.2 blk) by (rewrite ?Hz; done). rewrite block_at_zsplice by done.
  destruct (Z.eqb_spec k2.2 blk), (Z.eqb_spec k1.2 blk); repeat case_decide; done.
Qed.

(** The tree root of a directory. *)
Definition dir_tree (bytes : list byte) : result Dtree :=
  match dinode_parse bytes with Ok d => dt_from_inode_data (dinode_dtroot_bytes d) | Err msg => Err (Other msg) | Panic => Panic end.

(** A directory that has room for one more name. *)
Record dir_room (bytes : list byte) (name : list Z) (t : Dtree) (es : list DirEntry) : Prop := {
  dr_tree : dir_tree bytes = Ok t;
  dr_wf : dt_wf t;
  dr_entries : dt_entries t = Ok es;
  dr_new : Forall (fun e => de_name e <> name) es;
  dr_count : dt_count t < 8;
  dr_slot : dt_count t + 1 ∉ dt_stbl t;
  dr_name : u16_units name /\ zlen name <= 11 }.

(** A slot that may become the one of inode [child]. *)
Record fresh_slot (v : Volume W) (child b k : Z) : Prop := {
  fr_in : (b, k * DISIZE) ∈ table_slots (table_view v);
  fr_meta : meta_block v b;
  fr_k : 0 <= k < INOSPERPAGE;
  fr_child : slot_at v child = None \/ slot_at v child = Some (b, k * DISIZE);
  fr_others : forall i, i <> child -> slot_at v i <> Some (b, k * DISIZE) }.

(** The page of the new inode. *)
Definition new_page (v : Volume W) (b k : Z) (new : list byte) : list byte := zsplice (block_at (contents (v_storage v)) b) (k * DISIZE) new.

Lemma new_page_len (v : Volume W) b k new : meta_block v b -> 0 <= k < INOSPERPAGE -> zlen new = 512 -> zlen (new_page v b k new) = BLOCK_SIZE.
Proof.
  intros [(H0 & Hr & _) _] Hk Hz. pose proof (block_at_len _ _ H0 Hr). unfold new_page, DISIZE, INOSPERPAGE, BLOCK_SIZE, PSIZE in *. rewrite zlen_zsplice; lia.
Qed.

Lemma child_page_ok n (v v1 : Volume W) child b k upd new :
  vol_ok n v -> txn v v1 [] [] -> meta_block v b -> 0 <= k < INOSPERPAGE ->
  upd (slot_of [] (contents (v_storage v)) (b, k * DISIZE)) = Ok new -> zlen new = 512 ->
  exists v3, (let* _ := update_inode_page child b (k * DISIZE) upd in mark_page_dirty child b) v1 = (Ok tt, v3) /\
    txn v v3 [((child, b), new_page v b k new)] [(child, b)].
Proof.
  intros Hv Ht Hm Hk Hu Hz. pose proof Hm as [(H0 & Hr & _) _]. pose proof (block_at_len _ _ H0 Hr) as Hbl. pose proof (ok_cap n v Hv).
  destruct (update_txn v v1 [] [] child b (k * DISIZE) upd new Ht) as (v2 & Hrun2 & Ht2); try done.
  { change (zlen []) with 0. lia. } { unfold DISIZE; lia. } { unfold page_for. cbn [assoc List.find]. rewrite Hbl. unfold DISIZE, INOSPERPAGE, BLOCK_SIZE, PSIZE in *. lia. }
  destruct (mark_txn v v2 _ _ child b Ht2) as (v3 & Hrun3 & Ht3). rewrite bool_decide_eq_false_2 in Ht3 by apply not_elem_of_nil.
  unfold promote in Ht3. cbn [assoc unassoc app] in Ht3. rewrite !decide_True in Ht3 by done.
  exists v3. by rewrite (sbind_ok _ _ _ _ _ Hrun2).
Qed.

(** The table with the new inode in it. *)
Lemma child_slots n (v : Volume W) child b k new loc :
  vol_base n v -> meta_block v b -> 0 <= k < INOSPERPAGE -> zlen new = 512 -> loc ∈ table_slots (table_view v) ->
  slot_of [((child, b), new_page v b k new)] (contents (v_storage v)) loc =
  slot_update (b, k * DISIZE) new (slot_of [] (contents (v_storage v))) loc.
Proof. intros Hv Hm Hk Hz Hin. apply (slot_of_update n v [] child b k new loc); try done. constructor. Qed.

Lemma child_table n (v : Volume W) child b k new i :
  vol_ok n v -> fresh_slot v child b k -> zlen new = 512 -> key_matches (inode_target child) new = true ->
  find_slot (slot_update (b, k * DISIZE) new (slot_of [] (contents (v_storage v)))) (table_slots (table_view v)) i =
  if decide (i = child) then Some (b, k * DISIZE) else slot_at v i.
Proof.
  intros Hv Hf Hz Hk. rewrite <- (txn_slot_nil n v i Hv). apply find_slot_new_key; [apply Hf|done|..]; fold (txn_slot v [] child); fold (txn_slot v [] i);
    rewrite (txn_slot_nil n) by done; apply Hf.
Qed.

(** ** Two pages in one transaction *)

(** The page of a second inode, made from the one in view. *)
Definition over_page (v : Volume W) (l : list (PageKey * list byte)) (pb pk : Z) (new : list byte) : list byte :=
  zsplice (view_block l (contents (v_storage v)) pb) (pk * DISIZE) new.

(** The pages of the transaction before its commit, and the table they make. *)
Definition two_pages (v : Volume W) (i1 b1 k1 : Z) (new1 : list byte) (i2 b2 k2 : Z) (new2 : list byte) : list (PageKey * list byte) :=
  [((i2, b2), over_page v [((i1, b1), new_page v b1 k1 new1)] b2 k2 new2); ((i1, b1), new_page v b1 k1 new1)].

Lemma two_pages_ok n (v : Volume W) i1 b1 k1 new1 i2 b2 k2 new2 :
  vol_base n v -> meta_block v b1 -> 0 <= k1 < INOSPERPAGE -> zlen new1 = 512 -> meta_block v b2 -> 0 <= k2 < INOSPERPAGE -> zlen new2 = 512 ->
  pages_ok (two_pages v i1 b1 k1 new1 i2 b2 k2 new2).
Proof.
  intros Hv Hm Hk Hz Hmp Hpk Hzw. pose proof (new_page_len v b1 k1 new1 Hm Hk Hz) as H1.
  destruct Hmp as [(H0 & Hr & _) _]. assert (Hl1 : pages_ok [((i1, b1), new_page v b1 k1 new1)]) by (by constructor).
  pose proof (view_block_len _ (contents (v_storage v)) b2 Hl1 H0 Hr) as Hvz. constructor; [|done]. cbn [snd]. unfold over_page.
  unfold DISIZE, INOSPERPAGE, BLOCK_SIZE, PSIZE in *. rewrite zlen_zsplice; lia.
Qed.

Lemma two_slots n (v : Volume W) i1 b1 k1 new1 i2 b2 k2 new2 loc :
  vol_base n v -> meta_block v b1 -> 0 <= k1 < INOSPERPAGE -> zlen new1 = 512 -> i2 <> i1 -> meta_block v b2 -> 0 <= k2 < INOSPERPAGE -> zlen new2 = 512 ->
  loc ∈ table_slots (table_view v) ->
  slot_of (two_pages v i1 b1 k1 new1 i2 b2 k2 new2) (contents (v_storage v)) loc =
  slot_update (b2, k2 * DISIZE) new2 (slot_update (b1, k1 * DISIZE) new1 (slot_of [] (contents (v_storage v)))) loc.
Proof.
  intros Hv Hm Hk Hz Hne Hmp Hpk Hzw Hin.
  pose proof (slot_of_update n v [((i1, b1), new_page v b1 k1 new1)] i2 b2 k2 new2 loc) as H. cbn [unassoc] in H.
  rewrite decide_False in H by (by intros [=]). unfold two_pages, over_page. rewrite H; [|done|constructor; [by apply new_page_len|constructor]|done..].
  unfold slot_update at 1 2. destruct (decide (loc = _)); [done|]. by apply (child_slots n).
Qed.

(** A table in which one slot has new contents under its old key. *)
Lemma same_key_slots n (v : Volume W) i1 b1 k1 new1 i :
  vol_base n v -> meta_block v b1 -> 0 <= k1 < INOSPERPAGE -> zlen new1 = 512 ->
  zslice new1 4 12 = zslice (slot_of [] (contents (v_storage v)) (b1, k1 * DISIZE)) 4 12 ->
  txn_slot v [((i1, b1), new_page v b1 k1 new1)] i = slot_at v i.
Proof.
  intros Hv Hm Hk Hz Hkey. unfold txn_slot. erewrite find_slot_ext; [|intros loc Hin; by apply (child_slots n)].
  rewrite find_slot_same_key by done. by apply (txn_slot_nil n).
Qed.

(** Reading another inode while the page of the first one is cached. *)
Lemma read_other n (v v3 : Volume W) dirty i1 b1 k1 new1 i2 b2 k2 :
  vol_base n v -> meta_block v b1 -> 0 <= k1 < INOSPERPAGE -> zlen new1 = 512 ->
  zslice new1 4 12 = zslice (slot_of [] (contents (v_storage v)) (b1, k1 * DISIZE)) 4 12 -> i2 <> i1 ->
  txn v v3 [((i1, b1), new_page v b1 k1 new1)] dirty -> slot_at v i2 = Some (b2, k2 * DISIZE) ->
  exists d v4, vol_inode_read i2 v3 = (Ok (mkInode d i2 b2 (k2 * DISIZE)), v4) /\
    txn v v4 [((i1, b1), new_page v b1 k1 new1)] dirty /\ dinode_parse (slot_of [] (contents (v_storage v)) (b2, k2 * DISIZE)) = Ok d.
Proof.
  intros Hv Hm Hk Hz Hkey Hne Ht Hs. destruct (read_txn n v v3 _ dirty i2 b2 (k2 * DISIZE) Hv Ht) as (d & v4 & Hr & Ht4 & Hd).
  - constructor; [|constructor]. by apply new_page_len.
  - by rewrite (same_key_slots n).
  - exists d, v4. split; [exact Hr|]. split; [exact Ht4|]. revert Hd. unfold own_block. cbn [assoc]. rewrite decide_False by (intros [=]; done). exact id.
Qed.

(** Updating another inode while the page of the first one is cached. *)
Lemma update_other n (v v3 : Volume W) dirty i1 b1 k1 new1 i2 b2 k2 upd new2 :
  vol_base n v -> meta_block v b1 -> 0 <= k1 < INOSPERPAGE -> zlen new1 = 512 -> i2 <> i1 ->
  txn v v3 [((i1, b1), new_page v b1 k1 new1)] dirty -> meta_block v b2 -> 0 <= k2 < INOSPERPAGE -> (b2, k2 * DISIZE) ∈ table_slots (table_view v) ->
  (b2, k2 * DISIZE) <> (b1, k1 * DISIZE) -> upd (slot_of [] (contents (v_storage v)) (b2, k2 * DISIZE)) = Ok new2 ->
  exists v4, update_inode_page i2 b2 (k2 * DISIZE) upd v3 = (Ok tt, v4) /\ txn v v4 (two_pages v i1 b1 k1 new1 i2 b2 k2 new2) dirty.
Proof.
  intros Hv Hm Hk Hz Hne Ht Hm2 Hk2 Hin Hloc Hu. set (l1 := [((i1, b1), new_page v b1 k1 new1)]) in *. pose proof (ok_cap n v Hv) as Hcap. pose proof Hm2 as [(H0 & Hr & _) _].
  assert (Hl1 : pages_ok l1) by (constructor; [by apply new_page_len|constructor]).
  assert (Hpf : page_for l1 (contents (v_storage v)) i2 b2 = view_block l1 (contents (v_storage v)) b2).
  { apply page_for_view. unfold l1. cbn [assoc]. rewrite decide_False; [done|]. by intros [=]. }
  pose proof (view_block_len l1 (contents (v_storage v)) b2 Hl1 H0 Hr) as Hvz.
  assert (Hslot : zslice (view_block l1 (contents (v_storage v)) b2) (k2 * DISIZE) (k2 * DISIZE + 512) = slot_of [] (contents (v_storage v)) (b2, k2 * DISIZE)).
  { change (slot_of l1 (contents (v_storage v)) (b2, k2 * DISIZE) = slot_of [] (contents (v_storage v)) (b2, k2 * DISIZE)). unfold l1. rewrite (child_slots n) by done.
    unfold slot_update. by rewrite decide_False. }
  destruct (update_txn v v3 l1 dirty i2 b2 (k2 * DISIZE) upd new2 Ht) as (v4 & Hrun & Ht4); try done.
  { change (zlen l1) with 1. lia. } { unfold DISIZE; lia. } { rewrite Hpf, Hvz. unfold DISIZE, INOSPERPAGE, BLOCK_SIZE, PSIZE in *. lia. } { by rewrite Hpf, Hslot. }
  rewrite Hpf in Ht4. unfold l1 at 2 in Ht4. cbn [unassoc] in Ht4. rewrite decide_False in Ht4 by (by intros [=]). by exists v4.
Qed.
(** ** The directory of the new name *)

(** The dinode of the directory with another tree root. *)
Definition with_root (old : list byte) (root : list byte) : list byte := zslice old 0 224 ++ root.

Lemma put_root_ok old root : zlen old = 512 -> zlen root = 288 -> put_root root old = Ok (with_root old root) /\ zlen (with_root old root) = 512.
Proof.
  intros Ho Hr. assert (Hz : zlen (with_root old root) = 512) by (unfold with_root; rewrite zlen_app, zlen_zslice; lia). split; [|done].
  destruct (put_root_edits root old Ho Hr) as (d & Hp & He). rewrite Hp. f_equal. unfold with_root.
  rewrite <- (ed_frame _ _ _ _ _ He 0 224) by lia. rewrite <- (ed_here _ _ _ _ _ He). rewrite zslice_cat by (rewrite ?(ed_size _ _ _ _ _ He); lia).
  symmetry. apply zslice_all. by rewrite (ed_size _ _ _ _ _ He).
Qed.

Lemma with_root_key old root : zlen old = 512 -> zlen root = 288 -> zslice (with_root old root) 4 12 = zslice old 4 12.
Proof. intros Ho Hr. unfold with_root. rewrite zslice_app_l by (rewrite ?zlen_zslice; lia). by rewrite zslice_zslice by lia. Qed.

(** Reading the directory while the new inode is cached. *)
Lemma parent_read n (v v3 : Volume W) dirty child b k new parent pb pk old :
  vol_ok n v -> fresh_slot v child b k -> zlen new = 512 -> key_matches (inode_target child) new = true -> parent <> child ->
  txn v v3 [((child, b), new_page v b k new)] dirty ->
  slot_at v parent = Some (pb, pk * DISIZE) -> old = slot_of [] (contents (v_storage v)) (pb, pk * DISIZE) ->
  exists d v4, vol_inode_read parent v3 = (Ok (mkInode d parent pb (pk * DISIZE)), v4) /\
    txn v v4 [((child, b), new_page v b k new)] dirty /\ dinode_parse old = Ok d.
Proof.
  intros Hv Hf Hz Hk Hne Ht Hs ->. pose proof (fr_meta _ _ _ _ Hf) as Hm. pose proof (fr_k _ _ _ _ Hf) as Hkr.
  destruct (read_txn n v v3 _ dirty parent pb (pk * DISIZE) Hv Ht) as (d & v4 & Hr & Ht4 & Hd).
  - constructor; [|constructor]. by apply new_page_len.
  - unfold txn_slot. erewrite find_slot_ext; [|intros loc Hin; by apply (child_slots n)]. rewrite (child_table n v child) by done. by rewrite decide_False.
  - exists d, v4. split; [exact Hr|]. split; [exact Ht4|]. revert Hd. unfold own_block. cbn [assoc]. rewrite decide_False by (intros [=]; done). exact id.
Qed.

Lemma dir_tree_parse old d t : dir_tree old = Ok t -> dinode_parse old = Ok d -> dt_from_inode_data (dinode_dtroot_bytes d) = Ok t.
Proof. unfold dir_tree. intros Ht Hd. by rewrite Hd in Ht. Qed.

(** Entering the name of the new inode. *)
Lemma enter_ok n (v v3 : Volume W) dirty child b k new parent pb pk old name t es :
  vol_ok n v -> fresh_slot v child b k -> zlen new = 512 -> key_matches (inode_target child) new = true -> parent <> child -> u32_range child ->
  txn v v3 [((child, b), new_page v b k new)] dirty ->
  slot_at v parent = Some (pb, pk * DISIZE) -> meta_block v pb -> 0 <= pk < INOSPERPAGE -> zlen old = 512 ->
  old = slot_of [] (contents (v_storage v)) (pb, pk * DISIZE) -> dir_room old name t es ->
  exists v5 t', enter_child parent name child v3 = (Ok tt, v5) /\ dt_wf t' /\ dt_entries t' = Ok (es ++ [mkDirEntry child name (as_u32 (zlen es))]) /\
    txn v v5 [((parent, pb), over_page v [((child, b), new_page v b k new)] pb pk (with_root old (dt_data t'))); ((child, b), new_page v b k new)] dirty.
Proof.
  intros Hv Hf Hz Hk Hne Hcr Ht Hs Hm Hpk Hzo Hold Hroom. set (l1 := [((child, b), new_page v b k new)]) in *.
  destruct (parent_read n v v3 dirty child b k new parent pb pk old) as (d & v4 & Hr4 & Ht4 & Hd); try done.
  pose proof (dir_tree_parse old d t (dr_tree _ _ _ _ Hroom) Hd) as Htree. destruct (dr_name _ _ _ _ Hroom) as [Hu16 Hnl].
  destruct (parent_read n v v4 dirty child b k new parent pb pk old) as (d' & v4' & Hr4' & Ht4' & Hd'); try done. rewrite Hd in Hd'. injection Hd' as <-.
  destruct (dt_insert_fresh t name child (as_u32 (zlen es)) es) as (t' & Hins & Hwf' & Hes'); try apply Hroom; try done; [apply as_u32_range|].
  destruct (Hwf') as (Hzt & _). destruct (put_root_ok old (dt_data t') Hzo Hzt) as [Hput _].
  assert (Hnp : (pb, pk * DISIZE) <> (b, k * DISIZE)) by (intros Heq; apply (fr_others _ _ _ _ Hf parent Hne); by rewrite <- Heq).
  destruct (update_other n v v4' dirty child b k new parent pb pk (put_root (dt_data t')) (with_root old (dt_data t'))) as (v5 & Hrun5 & Ht5); try done;
    [apply Hf..|by eapply find_slot_elem|by rewrite <- Hold|].
  exists v5, t'. split_and!; try done. unfold enter_child, next_dir_index, insert_dir_entry.
  rewrite (sbind_ok _ _ _ (as_u32 (zlen es)) v4).
  - unfold sbind at 1. rewrite (sbind_ok _ _ _ _ _ Hr4'). unfold sbind, slift, inode_dtree. cbn [in_dinode in_page_block in_page_offset]. unfold slift. rewrite Htree, Hins.
    cbn [obind]. unfold dt_to_bytes. by rewrite Hrun5.
  - rewrite (sbind_ok _ _ _ _ _ Hr4). unfold sbind, slift, inode_dtree. cbn [in_dinode]. unfold slift. rewrite Htree. unfold entry_count. by rewrite (dr_entries _ _ _ _ Hroom).
Qed.

(** The table with the new inode and the directory. *)
Lemma two_slots_at n (v : Volume W) child b k new parent pb pk pnew i :
  vol_ok n v -> fresh_slot v child b k -> zlen new = 512 -> key_matches (inode_target child) new = true -> parent <> child ->
  slot_at v parent = Some (pb, pk * DISIZE) -> meta_block v pb -> 0 <= pk < INOSPERPAGE -> zlen pnew = 512 ->
  zslice pnew 4 12 = zslice (slot_of [] (contents (v_storage v)) (pb, pk * DISIZE)) 4 12 ->
  txn_slot v (two_pages v child b k new parent pb pk pnew) i = if decide (i = child) then Some (b, k * DISIZE) else slot_at v i.
Proof.
  intros Hv Hf Hz Hk Hne Hs Hm Hpk Hzw Hkey. pose proof (fr_meta _ _ _ _ Hf) as Hmc. pose proof (fr_k _ _ _ _ Hf) as Hkr.
  assert (Hnp : (b, k * DISIZE) <> (pb, pk * DISIZE)) by (intros Heq; apply (fr_others _ _ _ _ Hf parent Hne); by rewrite Heq).
  unfold txn_slot. erewrite find_slot_ext; [|intros loc Hin; by apply (two_slots n)].
  rewrite find_slot_same_key; [by apply (child_table n)|]. rewrite Hkey. unfold slot_update. by rewrite decide_False by done.
Qed.

(** Marking the directory and committing. *)
Lemma commit_child_ok n (v v6 : Volume W) child b k new parent pb pk pnew :
  vol_ok n v -> 6 <= n -> fresh_slot v child b k -> zlen new = 512 -> key_matches (inode_target child) new = true -> parent <> child ->
  slot_at v parent = Some (pb, pk * DISIZE) -> meta_block v pb -> 0 <= pk < INOSPERPAGE -> zlen pnew = 512 ->
  zslice pnew 4 12 = zslice (slot_of [] (contents (v_storage v)) (pb, pk * DISIZE)) 4 12 ->
  txn v v6 (two_pages v child b k new parent pb pk pnew) [(child, b)] ->
  exists v7 r v', mark_page_dirty parent pb v6 = (Ok tt, v7) /\ vol_commit_transaction v7 = (Ok r, v') /\ next_ok (n - 6) v v' /\
    forall i, inode_bytes v' i = if decide (i = child) then Some new else if decide (i = parent) then Some pnew else inode_bytes v i.
Proof.
  intros Hv Hn Hf Hz Hk Hne Hs Hm Hpk Hzw Hkey Ht. pose proof (fun i => two_slots_at n v child b k new parent pb pk pnew i Hv Hf Hz Hk Hne Hs Hm Hpk Hzw Hkey) as Hslots.
  set (l2 := two_pages v child b k new parent pb pk pnew) in *. pose proof (fr_meta _ _ _ _ Hf) as Hmc. pose proof (fr_k _ _ _ _ Hf) as Hkr.
  assert (Hl2 : pages_ok l2) by (by apply (two_pages_ok n)).
  assert (Hnp : (b, k * DISIZE) <> (pb, pk * DISIZE)) by (intros Heq; apply (fr_others _ _ _ _ Hf parent Hne); by rewrite Heq).
  destruct (mark_txn v v6 l2 [(child, b)] parent pb Ht) as (v7 & Hr7 & Ht7).
  rewrite bool_decide_eq_false_2 in Ht7 by (intros Hin%list_elem_of_singleton; by injection Hin).
  assert (Hkk : (child, b) <> (parent, pb)) by (by intros [=]).
  assert (Hpr : promote (parent, pb) l2 = l2).
  { unfold promote, l2, two_pages. cbn [assoc unassoc]. rewrite !decide_True, decide_False by done. done. }
  rewrite Hpr in Ht7. cbn [app] in Ht7.
  destruct (commit_txn n v v7 l2 [(child, b); (parent, pb)] Hv Ht7 Hl2) as (r & v' & Hr8 & Hcm); [change (zlen [(child, b); (parent, pb)]) with 2; lia| | | |].
  { intros key. unfold l2, two_pages. cbn [assoc]. rewrite !elem_of_cons, elem_of_nil. destruct (decide (key = (parent, pb))), (decide (key = (child, b))); naive_solver. }
  { intros key [->|[->|[]%elem_of_nil]%elem_of_cons]%elem_of_cons; done. }
  { intros blk [(Hb0 & _) _]. unfold pages_ok in Hl2. apply Forall_cons in Hl2 as [Hz2 Hl2]. apply Forall_cons in Hl2 as [Hz1 _].
    destruct Hm as [(? & ? & _) _], Hmc as [(? & ? & _) _]. by apply writes_of_two. }
  exists v7, r, v'. split_and!; [done|done| |].
  - change (zlen [(child, b); (parent, pb)]) with 2 in Hcm. replace (n - 6) with (n - 2 * 2 - 2) by lia. apply (committed_next n _ v v' l2 Hv Hcm).
    repeat constructor; [exists (pk * DISIZE); by eapply find_slot_elem|exists (k * DISIZE); apply Hf].
  - intros i. destruct (committed_inodes _ _ _ _ i Hcm) as [_ ->]. rewrite Hslots, (inode_bytes_nil n) by done. destruct (decide (i = child)) as [->|Hic].
    + cbn. unfold l2. rewrite (two_slots n) by (done || apply Hf). unfold slot_update. by rewrite decide_False, decide_True.
    + destruct (slot_at v i) as [loc|] eqn:Ei; cbn.
      * unfold l2. rewrite (two_slots n) by (done || by eapply find_slot_elem). unfold slot_update.
        destruct (decide (loc = (pb, pk * DISIZE))) as [->|Hl].
        -- assert (i = parent) as -> by (by eapply (find_slot_inj _ _ i parent)). by rewrite decide_True.
        -- rewrite decide_False; [|intros ->; by apply (fr_others _ _ _ _ Hf i Hic)]. rewrite decide_False; [done|]. intros ->. congruence.
      * rewrite decide_False; [done|]. intros ->. congruence.
Qed.

(** Reading the directory with both pages cached. *)
Lemma read_parent_again n (v v5 : Volume W) dirty child b k new parent pb pk pnew :
  vol_ok n v -> fresh_slot v child b k -> zlen new = 512 -> key_matches (inode_target child) new = true -> parent <> child ->
  slot_at v parent = Some (pb, pk * DISIZE) -> meta_block v pb -> 0 <= pk < INOSPERPAGE -> zlen pnew = 512 ->
  zslice pnew 4 12 = zslice (slot_of [] (contents (v_storage v)) (pb, pk * DISIZE)) 4 12 ->
  txn v v5 (two_pages v child b k new parent pb pk pnew) dirty ->
  exists d v6, vol_inode_read parent v5 = (Ok (mkInode d parent pb (pk * DISIZE)), v6) /\ txn v v6 (two_pages v child b k new parent pb pk pnew) dirty.
Proof.
  intros Hv Hf Hz Hk Hne Hs Hm Hpk Hzw Hkey Ht. pose proof (fr_meta _ _ _ _ Hf) as Hmc. pose proof (fr_k _ _ _ _ Hf) as Hkr.
  destruct (read_txn n v v5 _ dirty parent pb (pk * DISIZE) Hv Ht) as (d & v6 & Hr6 & Ht6 & _); [by apply (two_pages_ok n)|by rewrite (two_slots_at n), decide_False by done|].
  by exists d, v6.
Qed.

(** Reading, marking and committing the directory. *)
Lemma finish_parent_ok n (v v5 : Volume W) child b k new parent pb pk old root {A} (res : A) :
  vol_ok n v -> 6 <= n -> fresh_slot v child b k -> zlen new = 512 -> key_matches (inode_target child) new = true -> parent <> child ->
  slot_at v parent = Some (pb, pk * DISIZE) -> meta_block v pb -> 0 <= pk < INOSPERPAGE -> zlen old = 512 -> zlen root = 288 ->
  old = slot_of [] (contents (v_storage v)) (pb, pk * DISIZE) ->
  txn v v5 (two_pages v child b k new parent pb pk (with_root old root)) [(child, b)] ->
  exists v', finish_parent parent res v5 = (Ok res, v') /\ next_ok (n - 6) v v' /\
    forall i, inode_bytes v' i = if decide (i = child) then Some new else if decide (i = parent) then Some (with_root old root) else inode_bytes v i.
Proof.
  intros Hv Hn Hf Hz Hk Hne Hs Hm Hpk Hzo Hzr Hold Ht. destruct (put_root_ok old root Hzo Hzr) as [_ Hzw]. pose proof (with_root_key old root Hzo Hzr) as Hkey. rewrite Hold in Hkey at 2.
  destruct (read_parent_again n v v5 [(child, b)] child b k new parent pb pk (with_root old root)) as (d & v6 & Hr6 & Ht6); try done.
  destruct (commit_child_ok n v v6 child b k new parent pb pk (with_root old root)) as (v7 & r & v' & Hr7 & Hr8 & Hok & Hby); try done.
  exists v'. split; [|done]. unfold finish_parent, finish. rewrite (sbind_ok _ _ _ _ _ Hr6). cbn [in_page_block]. by rewrite (sbind_ok _ _ _ _ _ Hr7), (sbind_ok _ _ _ _ _ Hr8).
Qed.

(** ** Creating *)

(** Writing the new inode, entering its name and committing. *)
Lemma make_entry_ok n (v v1 : Volume W) child b k upd new parent old name t es {A} (res : A) :
  vol_ok n v -> 6 <= n -> txn v v1 [] [] -> fresh_slot v child b k -> u32_range child ->
  upd (slot_of [] (contents (v_storage v)) (b, k * DISIZE)) = Ok new -> zlen new = 512 -> key_matches (inode_target child) new = true ->
  inode_bytes v parent = Some old -> parent <> child -> dir_room old name t es ->
  exists v' t', (let* _ := update_inode_page child b (k * DISIZE) upd in let* _ := mark_page_dirty child b in
      let* _ := enter_child parent name child in finish_parent parent res) v1 = (Ok res, v') /\ next_ok (n - 6) v v' /\
    dt_wf t' /\ dt_entries t' = Ok (es ++ [mkDirEntry child name (as_u32 (zlen es))]) /\
    forall i, inode_bytes v' i = if decide (i = child) then Some new else if decide (i = parent) then Some (with_root old (dt_data t')) else inode_bytes v i.
Proof.
  intros Hv Hn Ht Hf Hcr Hu Hz Hk Hp Hne Hroom. destruct (inode_bytes_some n v parent old Hv Hp) as (pb & pk & Hs & Hmp & Hpk & _ & Hold & Hzo).
  destruct (child_page_ok n v v1 child b k upd new Hv Ht (fr_meta _ _ _ _ Hf) (fr_k _ _ _ _ Hf) Hu Hz) as (v3 & Hr3 & Ht3).
  destruct (enter_ok n v v3 [(child, b)] child b k new parent pb pk old name t es) as (v5 & t' & Hr5 & Hwf & Hes & Ht5); try done.
  destruct (Hwf) as (Hzt & _).
  destruct (finish_parent_ok n v v5 child b k new parent pb pk old (dt_data t') res) as (v' & Hr8 & Hok & Hby); try done.
  exists v', t'. split_and!; try done. apply sbind_inv in Hr3 as ([] & v2 & Hr2 & Hr3).
  by rewrite (sbind_ok _ _ _ _ _ Hr2), (sbind_ok _ _ _ _ _ Hr3), (sbind_ok _ _ _ _ _ Hr5).
Qed.

(** The entries of a directory, read from the bytes of its dinode. *)
Definition dir_entries (bytes : list byte) : result (list DirEntry) := let! t := dir_tree bytes in dt_entries t.

Lemma dir_entries_root old t es :
  zlen old = 512 -> dt_wf t -> dt_entries t = Ok es -> dir_entries (with_root old (dt_data t)) = Ok es.
Proof.
  intros Ho Hwf Hes. destruct (Hwf) as (Hz & _). destruct (put_root_ok old (dt_data t) Ho Hz) as [_ Hzw].
  unfold dir_entries, dir_tree. destruct (dinode_parse_bytes _ Hzw) as (d & Hp & _). rewrite Hp.
  destruct (dinode_parse_fields _ d Hzw Hp) as (_ & _ & _ & _ & _ & _ & Hu). unfold dinode_dtroot_bytes. rewrite Hu, zslice_zslice by lia.
  unfold with_root at 1. rewrite zslice_app_r by (rewrite zlen_zslice; lia). rewrite zlen_zslice by lia. rewrite zslice_all by (rewrite Hz; done).
  unfold dt_from_inode_data. rewrite Hz. change (288 <? DTROOT_ENTRY_BASE) with false. cbn [obind].
  rewrite dt_entries_ok in Hes by done. rewrite dt_entries_ok; [exact Hes|]. exact Hwf.
Qed.

(** Positions are far below the limit of inode numbers. *)
Lemma slot_number_range n (v : Volume W) loc : vol_ok n v -> loc ∈ table_slots (table_view v) -> FILESYSTEM_I <= slot_number v loc < 2 ^ 32.
Proof.
  intros Hv Hin. pose proof Hin as Hin'. apply list_elem_of_In, in_flat_map in Hin' as (b & Hb & Hl). apply List.filter_In in Hb as [Hb _].
  apply list_elem_of_In, elem_of_range in Hb. apply in_map_iff in Hl as (i & <- & Hi). apply list_elem_of_In, elem_of_range in Hi. cbn [table_view tv_ait2] in Hb.
  assert (Hlen : 0 <= pxd_length (s_ait2 (v_sb v)) < 2 ^ 24) by apply pxd_length_range.
  unfold slot_number, FILESYSTEM_I, INOSPERPAGE, DISIZE in *. cbn [fst snd]. rewrite Z.div_mul by lia. rewrite as_u32_small; lia.
Qed.

(** What a volume needs to take a new name: the directory has room for it and
    the first free slot of the table belongs to nobody else. *)
Record can_create (v : Volume W) (parent : Z) (name : list Z) (old : list byte) (t : Dtree) (es : list DirEntry) (b k : Z) : Prop := {
  cc_parent : inode_bytes v parent = Some old;
  cc_room : dir_room old (encode_utf16 name) t es;
  cc_name : encode_utf16 name <> [];
  cc_free : first_free v [] = Some (b, k * DISIZE);
  cc_slot : 0 <= k < INOSPERPAGE;
  cc_other : parent <> slot_number v (b, k * DISIZE);
  cc_child : slot_at v (slot_number v (b, k * DISIZE)) = None \/ slot_at v (slot_number v (b, k * DISIZE)) = Some (b, k * DISIZE);
  cc_others : forall i, i <> slot_number v (b, k * DISIZE) -> slot_at v i <> Some (b, k * DISIZE) }.

Lemma first_free_elem (v : Volume W) l loc : first_free v l = Some loc -> loc ∈ table_slots (table_view v).
Proof. intros [Hin _]%find_some. by apply list_elem_of_In. Qed.

Lemma can_create_fresh n (v : Volume W) parent name old t es b k :
  vol_ok n v -> can_create v parent name old t es b k -> fresh_slot v (slot_number v (b, k * DISIZE)) b k.
Proof.
  intros Hv Hc. pose proof (first_free_elem _ _ _ (cc_free _ _ _ _ _ _ _ _ Hc)) as Hin. destruct (table_slots_elem n v _ Hv Hin) as [Hm _]. split; try apply Hc; done.
Qed.

Lemma slot_of_len n (v : Volume W) loc : vol_ok n v -> loc ∈ table_slots (table_view v) -> zlen (slot_of [] (contents (v_storage v)) loc) = 512.
Proof.
  intros Hv Hin. destruct (table_slots_elem n v loc Hv Hin) as [[(H0 & Hr & _) _] (k & Hk & Ho)]. unfold slot_of, view_block. cbn [List.find]. rewrite Ho.
  pose proof (block_at_len _ _ H0 Hr). unfold DISIZE, INOSPERPAGE, BLOCK_SIZE, PSIZE in *. rewrite zlen_zslice; lia.
Qed.

Lemma good_name name : zlen name <= 11 -> name <> [] -> bad_name name = false.
Proof. intros Hl Hn. unfold bad_name. rewrite bool_decide_eq_false_2 by done. destruct (Z.ltb_spec 11 (zlen name)); [lia|done]. Qed.

Lemma new_dinode_key child d : zslice d 4 8 = write_u32 FILESYSTEM_I -> zslice d 8 12 = write_u32 (child - FILESYSTEM_I) ->
  FILESYSTEM_I <= child < 2 ^ 32 -> key_matches (inode_target child) d = true.
Proof.
  intros H1 H2 Hc. unfold key_matches, inode_target. rewrite H1, H2. unfold FILESYSTEM_I in *. destruct (Z.leb_spec 16 child); [|lia]. cbn [fst snd].
  rewrite !read_write_u32 by lia. by rewrite !Z.eqb_refl.
Qed.

(** A slot whose fileset number is zero belongs to no inode. *)
Lemma unkeyed_slot n (v : Volume W) loc i :
  vol_ok n v -> read_u32 (zslice (slot_of [] (contents (v_storage v)) loc) 4 8) = 0 -> slot_at v i <> Some loc.
Proof.
  intros Hv Hz Hs. rewrite <- (txn_slot_nil n v i Hv) in Hs. apply find_some in Hs as [_ Hk]. unfold key_matches in Hk. rewrite Hz in Hk.
  revert Hk. unfold inode_target, FILESYSTEM_I. by destruct (Z.leb_spec 16 i).
Qed.

(** The whole of an operation that makes an inode: [upd] writes its slot. *)
Lemma create_run n (v : Volume W) parent name old t es b k upd new :
  vol_ok n v -> 6 <= n -> can_create v parent name old t es b k ->
  upd (slot_of [] (contents (v_storage v)) (b, k * DISIZE)) = Ok new -> zlen new = 512 ->
  key_matches (inode_target (slot_number v (b, k * DISIZE))) new = true ->
  exists tx v0 v1 v' root, begin_transaction v = (Ok tx, v0) /\ allocate_inode v0 = (Ok (slot_number v (b, k * DISIZE), b, k * DISIZE), v1) /\
    (let* _ := update_inode_page (slot_number v (b, k * DISIZE)) b (k * DISIZE) upd in let* _ := mark_page_dirty (slot_number v (b, k * DISIZE)) b in
     let* _ := enter_child parent (encode_utf16 name) (slot_number v (b, k * DISIZE)) in finish_parent parent (slot_number v (b, k * DISIZE))) v1 =
      (Ok (slot_number v (b, k * DISIZE)), v') /\ next_ok (n - 6) v v' /\
    (forall i, inode_bytes v' i = if decide (i = slot_number v (b, k * DISIZE)) then Some new else if decide (i = parent) then Some (with_root old root) else inode_bytes v i) /\
    dir_entries (with_root old root) = Ok (es ++ [mkDirEntry (slot_number v (b, k * DISIZE)) (encode_utf16 name) (as_u32 (zlen es))]).
Proof.
  intros Hv Hn Hc Hu Hz Hk. pose proof (can_create_fresh n v parent name old t es b k Hv Hc) as Hf. pose proof (fr_in _ _ _ _ Hf) as Hin.
  pose proof (slot_number_range n v _ Hv Hin) as Hcr. set (child := slot_number v (b, k * DISIZE)) in *.
  destruct (begin_ok n v Hv) as (tx & v0 & Hb & Ht0). destruct (allocate_txn n v v0 [] [] Hv Ht0) as (v1 & Ha & Ht1); [constructor|].
  rewrite (cc_free _ _ _ _ _ _ _ _ Hc) in Ha. fold child in Ha. cbn [fst snd] in Ha.
  destruct (make_entry_ok n v v1 child b k upd new parent old (encode_utf16 name) t es child) as (v' & t' & Hrun & Hok & Hwf & Hes & Hby);
    try done; try apply Hc; [unfold u32_range, FILESYSTEM_I in *; lia|].
  destruct (inode_bytes_some n v parent old Hv (cc_parent _ _ _ _ _ _ _ _ Hc)) as (_ & _ & _ & _ & _ & _ & _ & Hzo).
  exists tx, v0, v1, v', (dt_data t'). split_and!; try done. by apply dir_entries_root.
Qed.

Lemma can_create_name (v : Volume W) parent name old t es b k : can_create v parent name old t es b k -> bad_name (encode_utf16 name) = false.
Proof. intros Hc. apply good_name; [apply (dr_name _ _ _ _ (cc_room _ _ _ _ _ _ _ _ Hc))|apply Hc]. Qed.

(** The bytes of a new regular file in a slot: number [child] of the file
    system inodes, no bytes, no blocks, one link, mode 0100644; the rest of
    the slot, with the extent tree in its last 288 bytes, as it was. *)
Definition file_bytes (child : Z) (slot : list byte) : list byte :=
  zslice slot 0 4 ++ le_bytes 4 16 ++ le_bytes 4 (child - 16) ++ zslice slot 12 24 ++ le_bytes 8 0 ++ le_bytes 8 0 ++
  le_bytes 4 1 ++ zslice slot 44 52 ++ le_bytes 4 0x81a4 ++ zslice slot 56 512.

Lemma create_file_run n (v : Volume W) parent name old t es b k :
  vol_ok n v -> 6 <= n -> can_create v parent name old t es b k ->
  let child := slot_number v (b, k * DISIZE) in
  exists v' new d root, create_file parent name v = (Ok child, v') /\ next_ok (n - 6) v v' /\
    (forall i, inode_bytes v' i = if decide (i = child) then Some new else if decide (i = parent) then Some (with_root old root) else inode_bytes v i) /\
    dinode_parse new = Ok d /\ dinode_is_regular d = true /\ dinode_size_val d = 0 /\ dinode_nlink d = 1 /\
    dir_entries (with_root old root) = Ok (es ++ [mkDirEntry child (encode_utf16 name) (as_u32 (zlen es))]) /\
    dinode_xtroot_bytes d = zslice (slot_of [] (contents (v_storage v)) (b, k * DISIZE)) 224 512 /\
    new = file_bytes child (slot_of [] (contents (v_storage v)) (b, k * DISIZE)).
Proof.
  intros Hv Hn Hc child. pose proof (fr_in _ _ _ _ (can_create_fresh n v parent name old t es b k Hv Hc)) as Hin. pose proof (slot_number_range n v _ Hv Hin) as Hcr. fold child in Hcr.
  destruct (new_dinode_spec 0x81a4 0 1 child _ (slot_of_len n v _ Hv Hin)) as (new & Hnew & Hz & H4 & H8 & H24 & H32 & H40 & H52 & H56 & H0 & H12 & H44); [lia..|].
  destruct (create_run n v parent name old t es b k (new_dinode 0x81a4 0 1 child) new) as (tx & v0 & v1 & v' & root & Hb & Ha & Hrun & Hok & Hby & Hes); try done; [by apply new_dinode_key|].
  fold child in Ha, Hrun, Hby, Hes. destruct (dinode_parse_bytes new Hz) as (d & Hd & _). destruct (dinode_parse_fields new d Hz Hd) as (Hsz & _ & Hnl & Hmd & _ & _ & Hdu).
  exists v', new, d, root. split_and!; try done.
  - unfold create_file. rewrite (sbind_ok _ _ _ _ _ Hb), (sbind_ok _ _ _ _ _ Ha). cbn zeta. rewrite (can_create_name v parent name old t es b k Hc). exact Hrun.
  - unfold dinode_is_regular, dinode_mode. rewrite Hmd, H52, read_write_u32 by lia. done.
  - unfold dinode_size_val. rewrite Hsz, H24, read_write_u64 by lia. done.
  - unfold dinode_nlink. rewrite Hnl, H40, read_write_u32 by lia. done.
  - unfold dinode_xtroot_bytes. rewrite Hdu, zslice_zslice by lia. replace (zslice new _ _) with (zslice (zslice new 56 512) 168 456) by (rewrite zslice_zslice by lia; done).
    rewrite H56, zslice_zslice by lia. done.
  - unfold file_bytes. rewrite <- H0, <- H12, <- H44, <- H56, <- !write_u32_spec, <- !write_u64_spec by (unfold FILESYSTEM_I in *; lia).
    change 16 with FILESYSTEM_I. rewrite <- H4, <- H8, <- H40, <- H52. rewrite <- H24 at 1. rewrite <- H32.
    rewrite !zslice_cat by lia. symmetry. by apply zslice_whole.
Qed.

(** C14: creating a file on a quiet volume refines the update of two inodes,
    and no other inode changes. The first free slot becomes, under the number
    of its position, a regular file of size zero with one link: exactly the
    fileset, the number, the size, the block count, the links and the mode of
    the slot are written, and every other byte is the one the slot had, its
    extent tree included, which is the tree of a file deleted there and not an
    empty one. The directory lists the new name after its old entries; the
    bytes of its inode in front of the tree, its link count and times among
    them, are as before. The volume is quiet again. *)
Theorem create_file_correct n (v : Volume W) parent name old t es b k
  (Hv : vol_ok n v) (Hn : 6 <= n) (Hc : can_create v parent name old t es b k) :
  let child := slot_number v (b, k * DISIZE) in
  let slot := zslice (block_at (contents (v_storage v)) b) (k * DISIZE) (k * DISIZE + DISIZE) in
  exists v' d root, create_file parent name v = (Ok child, v') /\ vol_ok (n - 6) v' /\
    (forall i, inode_bytes v' i =
       if decide (i = child) then Some (file_bytes child slot) else if decide (i = parent) then Some (with_root old root) else inode_bytes v i) /\
    dinode_parse (file_bytes child slot) = Ok d /\ dinode_is_regular d = true /\ dinode_size_val d = 0 /\ dinode_nlink d = 1 /\
    dir_entries (with_root old root) = Ok (es ++ [mkDirEntry child (encode_utf16 name) (as_u32 (zlen es))]).
Proof.
  destruct (create_file_run n v parent name old t es b k Hv Hn Hc) as (v' & new & d & root & H1 & H2 & H3 & H4 & H5 & H6 & H7 & H8 & _ & H10). subst new.
  exists v', d, root. unfold slot_of, view_block in *. cbn [List.find fst snd] in *. by split_and!.
Qed.

(** The extent tree of a new file is whatever the slot held before: the
    blocks of the file that was deleted there are mapped again. *)
Theorem create_file_inherits_tree n (v : Volume W) parent name old t es b k
  (Hv : vol_ok n v) (Hn : 6 <= n) (Hc : can_create v parent name old t es b k) :
  exists v' new d, create_file parent name v = (Ok (slot_number v (b, k * DISIZE)), v') /\
    inode_bytes v' (slot_number v (b, k * DISIZE)) = Some new /\ dinode_parse new = Ok d /\
    dinode_xtroot_bytes d = zslice (block_at (contents (v_storage v)) b) (k * DISIZE + 224) (k * DISIZE + 512).
Proof.
  destruct (create_file_run n v parent name old t es b k Hv Hn Hc) as (v' & new & d & root & H1 & _ & H3 & H4 & _ & _ & _ & _ & H9 & _).
  exists v', new, d. split_and!; try done; [by rewrite H3, decide_True|]. rewrite H9. unfold slot_of, view_block. cbn [List.find fst snd].
  destruct (cc_slot _ _ _ _ _ _ _ _ Hc). unfold DISIZE. by rewrite zslice_zslice by lia.
Qed.

(** A symbolic link with a target of 1 to 127 bytes is created under the
    first free number and reads back as its target. *)
Theorem symlink_roundtrip n (v : Volume W) parent name target old t es b k
  (Hv : vol_ok n v) (Hn : 6 <= n) (Hc : can_create v parent name old t es b k) (Ht : 0 < zlen (as_bytes target) < 128) :
  exists v', symlink parent name target v = (Ok (slot_number v (b, k * DISIZE)), v') /\ vol_ok (n - 6) v' /\
    (read_symlink (slot_number v (b, k * DISIZE)) v').1 = Ok (as_bytes target) /\
    forall i, i <> slot_number v (b, k * DISIZE) -> i <> parent -> inode_bytes v' i = inode_bytes v i.
Proof.
  pose proof (fr_in _ _ _ _ (can_create_fresh n v parent name old t es b k Hv Hc)) as Hin. pose proof (slot_number_range n v _ Hv Hin) as Hcr.
  set (child := slot_number v (b, k * DISIZE)) in *. set (tb := as_bytes target) in *.
  destruct (new_dinode_spec 0xA1FF (zlen tb) 1 child _ (slot_of_len n v _ Hv Hin)) as (d1 & Hnew & Hz1 & H4 & H8 & H24 & _ & H40 & H52 & _); [lia..|].
  destruct (@splice_edits StorageError d1 128 (zlen tb) tb) as (new & Hsp & He); [done|done|lia|lia|].
  pose (upd := fun d => let! d := new_dinode 0xA1FF (zlen tb) 1 child d in if 128 + zlen tb <=? zlen d then splice d 128 tb else Ok d).
  assert (Hupd : upd (slot_of [] (contents (v_storage v)) (b, k * DISIZE)) = Ok new).
  { unfold upd. rewrite Hnew. cbn [obind]. rewrite Hz1. destruct (Z.leb_spec (128 + zlen tb) 512); [done|lia]. }
  pose proof (ed_size _ _ _ _ _ He) as Hz. assert (Hkey : key_matches (inode_target child) new = true) by (apply new_dinode_key; [by rewrite (ed_frame _ _ _ _ _ He) by lia..|done]).
  destruct (create_run n v parent name old t es b k upd new) as (tx & v0 & v1 & v' & root & Hb & Ha & Hrun & Hok & Hby & _); try done. fold child in Ha, Hrun, Hby.
  exists v'. split_and!; [|done| |intros i Hi Hp; rewrite Hby; by rewrite !decide_False].
  - unfold symlink. rewrite (sbind_ok _ _ _ _ _ Hb), (sbind_ok _ _ _ _ _ Ha). cbn zeta. rewrite (can_create_name v parent name old t es b k Hc). fold tb.
    destruct (Z.ltb_spec (zlen tb) 128); [|lia]. exact Hrun.
  - pose proof (read_inode_ok (n - 6) v' child Hok) as Hr. rewrite Hby, decide_True in Hr by done. destruct Hr as (d & b' & off & Hr & Hd & _).
    destruct (dinode_parse_fields new d Hz Hd) as (Hsz & _ & _ & Hmd & _ & _ & Hdu). unfold read_symlink, sbind. destruct (vol_inode_read child v') as [r v2]. cbn [fst] in Hr. subst r. cbn [in_dinode].
    unfold dinode_is_symlink, dinode_mode, inode_size, dinode_size_val. cbn [in_dinode]. rewrite Hmd, Hsz.
    rewrite (ed_frame _ _ _ _ _ He 52 56), (ed_frame _ _ _ _ _ He 24 32), H52, H24, read_write_u32, read_write_u64 by lia.
    change (Z.land 0xA1FF 0xf000 =? 0xa000) with true. cbn [negb]. destruct (Z.ltb_spec 0 (zlen tb)); [|lia]. destruct (Z.ltb_spec (zlen tb) 128); [|lia]. cbn [andb].
    rewrite Hdu, zlen_zslice by lia. rewrite Z.min_l by lia. unfold slift. rewrite slice_ok by (rewrite ?zlen_zslice; lia). cbn [fst]. rewrite zslice_zslice by lia.
    f_equal. exact (ed_here _ _ _ _ _ He).
Qed.

(** ** Removing a name *)

(** The entries without the first one of that name. *)
Fixpoint drop_name (name : list Z) (es : list DirEntry) : list DirEntry :=
  match es with
  | [] => []
  | e :: es => if bool_decide (de_name e = name) then es else e :: drop_name name es
  end.

Lemma drop_name_first name before e after :
  Forall (fun e => de_name e <> name) before -> de_name e = name ->
  drop_name name (before ++ e :: after) = before ++ after /\ List.find (fun e => bool_decide (de_name e = name)) (before ++ e :: after) = Some e.
Proof.
  intros Hb He. induction Hb as [|e' before Hn _ IH]; cbn [app drop_name List.find].
  - by rewrite bool_decide_eq_true_2.
  - rewrite bool_decide_eq_false_2 by done. destruct IH as [-> ->]. done.
Qed.

Lemma remove_dir_entry_ok n (v v0 : Volume W) parent name old t es e pb pk :
  vol_ok n v -> txn v v0 [] [] -> inode_bytes v parent = Some old -> slot_at v parent = Some (pb, pk * DISIZE) -> meta_block v pb -> 0 <= pk < INOSPERPAGE ->
  dir_tree old = Ok t -> dt_wf t -> dt_entries t = Ok es -> List.find (fun e => bool_decide (de_name e = name)) es = Some e ->
  exists v1 root, remove_dir_entry parent name v0 = (Ok (Some (de_inumber e)), v1) /\ zlen root = 288 /\
    dir_entries (with_root old root) = Ok (drop_name name es) /\ txn v v1 [((parent, pb), new_page v pb pk (with_root old root))] [].
Proof.
  intros Hv Ht Hp Hs Hm Hk Htree Hwf Hes Hfind.
  destruct (inode_bytes_some n v parent old Hv Hp) as (pb' & pk' & Hs' & _ & _ & _ & Hold & Hzo). rewrite Hs in Hs'. injection Hs' as <- Hkk.
  assert (pk' = pk) as -> by (unfold DISIZE in Hkk; lia).
  destruct (read_txn n v v0 [] [] parent pb (pk * DISIZE) Hv Ht) as (d & v1 & Hr & Ht1 & Hd); [constructor|by rewrite (txn_slot_nil n)|].
  assert (Hd' : dinode_parse old = Ok d) by (by rewrite Hold). pose proof (dir_tree_parse old d t Htree Hd') as Htree'.
  destruct (dt_remove_first t name es Hwf Hes) as [[Hno _]|(t' & before & e' & after & -> & He' & Hb & Hrem & Hwf' & Hes')].
  { apply find_some in Hfind as [Hin Hn%bool_decide_eq_true]. rewrite Forall_forall in Hno. exfalso. apply (Hno e); [by apply list_elem_of_In|done]. }
  destruct (drop_name_first name before e' after Hb He') as [Hdrop Hfind']. rewrite Hfind in Hfind'. injection Hfind' as <-.
  destruct (Hwf') as (Hzt & _). destruct (put_root_ok old (dt_data t') Hzo Hzt) as [Hput Hzw]. pose proof Hm as [(H0 & Hrr & _) _].
  pose proof (block_at_len _ _ H0 Hrr) as Hbl. pose proof (ok_cap n v Hv).
  destruct (update_txn v v1 [] [] parent pb (pk * DISIZE) (put_root (dt_data t')) (with_root old (dt_data t')) Ht1) as (v2 & Hrun2 & Ht2); try done.
  { change (zlen []) with 0. lia. } { unfold DISIZE; lia. } { unfold page_for. cbn [assoc List.find]. rewrite Hbl. unfold DISIZE, INOSPERPAGE, BLOCK_SIZE, PSIZE in *. lia. }
  { unfold page_for. cbn [assoc List.find]. rewrite <- Hput, Hold. done. }
  exists v2, (dt_data t'). split_and!; try done; [|by rewrite Hdrop; apply dir_entries_root].
  unfold remove_dir_entry. rewrite (sbind_ok _ _ _ _ _ Hr). unfold sbind, slift, inode_dtree. cbn [in_dinode in_page_block in_page_offset]. unfold slift. rewrite Htree', Hrem.
  unfold dt_to_bytes. by rewrite Hrun2.
Qed.

(** The pages of a removal with the directory on top: in a shared block its
    page hides the one of the child, which it does not contain. The page of
    the child was made when the directory was [pold]. *)
Lemma hidden_slots n (v : Volume W) child cb ck cnew parent pb pk pold pnew loc :
  vol_base n v -> child <> parent -> meta_block v cb -> 0 <= ck < INOSPERPAGE -> zlen cnew = 512 -> meta_block v pb -> 0 <= pk < INOSPERPAGE -> zlen pnew = 512 ->
  loc ∈ table_slots (table_view v) ->
  slot_of [((parent, pb), new_page v pb pk pnew); ((child, cb), over_page v [((parent, pb), new_page v pb pk pold)] cb ck cnew)] (contents (v_storage v)) loc =
  slot_update (pb, pk * DISIZE) pnew
    (if decide (cb = pb) then slot_of [] (contents (v_storage v)) else slot_update (cb, ck * DISIZE) cnew (slot_of [] (contents (v_storage v)))) loc.
Proof.
  intros Hv Hne Hmc Hck Hzc Hmp Hpk Hzp Hin. destruct (decide (cb = pb)) as [->|Hcp].
  - rewrite <- (child_slots n v parent pb pk pnew loc) by done. unfold slot_of. f_equal. unfold view_block. cbn [List.find fst snd]. by destruct (pb =? loc.1).
  - rewrite <- (two_slots n v child cb ck cnew parent pb pk pnew loc) by done. f_equal. unfold two_pages, over_page, new_page, view_block. cbn [List.find fst snd].
    destruct (Z.eqb_spec pb cb), (Z.eqb_spec cb pb); try done; congruence.
Qed.

(** Both pages can be found under their own numbers. *)
Lemma hidden_table n (v : Volume W) child cb ck cnew parent pb pk pold pnew i :
  vol_base n v -> child <> parent -> slot_at v child = Some (cb, ck * DISIZE) -> slot_at v parent = Some (pb, pk * DISIZE) ->
  meta_block v cb -> 0 <= ck < INOSPERPAGE -> zlen cnew = 512 -> meta_block v pb -> 0 <= pk < INOSPERPAGE -> zlen pnew = 512 ->
  zslice cnew 4 12 = zslice (slot_of [] (contents (v_storage v)) (cb, ck * DISIZE)) 4 12 ->
  zslice pnew 4 12 = zslice (slot_of [] (contents (v_storage v)) (pb, pk * DISIZE)) 4 12 ->
  txn_slot v [((parent, pb), new_page v pb pk pnew); ((child, cb), over_page v [((parent, pb), new_page v pb pk pold)] cb ck cnew)] i = slot_at v i.
Proof.
  intros Hv Hne Hsc Hsp Hmc Hck Hzc Hmp Hpk Hzp Hkc Hkp.
  assert (Hloc : (cb, ck * DISIZE) <> (pb, pk * DISIZE)) by (intros Heq; rewrite Heq in Hsc; apply Hne; by eapply (find_slot_inj _ _ child parent)).
  unfold txn_slot. erewrite find_slot_ext; [|intros loc Hin; by apply (hidden_slots n)]. rewrite find_slot_same_key.
  - destruct (decide (cb = pb)); [by apply (txn_slot_nil n)|]. rewrite find_slot_same_key by done. by apply (txn_slot_nil n).
  - rewrite Hkp. destruct (decide (cb = pb)); [done|]. unfold slot_update. by rewrite decide_False.
Qed.

(** What a commit that changed inodes leaves when the map may have changed in
    the same call: the map is stored, the data blocks are as before. *)
Record moved (n : Z) (v v' : Volume W) : Prop := {
  mv_ok :> vol_ok n v';
  mv_bmap : v_bmap v' = bmap_clean (v_bmap v);
  mv_data : forall a, meta_block v a -> (a ∈ table_blocks (table_view v) -> v_agg_size v <= a) -> block_at (contents (v_storage v')) a = block_at (contents (v_storage v)) a }.

Lemma committed_moved m (v v' : Volume W) l :
  committed m v v' l -> Forall (fun e => exists off, (e.1.2, off) ∈ table_slots (table_view v)) l -> moved m v v'.
Proof.
  intros Hc Hl. split; try apply Hc. intros a Hm Ht. rewrite (cm_blocks _ _ _ _ Hc a Hm). unfold view_block.
  destruct (List.find _ l) as [e|] eqn:E; [|done]. apply find_some in E as [He Heq]. rewrite Forall_forall in Hl. apply list_elem_of_In in He. destruct (Hl e He) as (off & Hin).
  assert (Hea : e.1.2 = a) by lia. rewrite Hea in Hin. destruct (slot_block v a off Hin) as [H1 H2]. specialize (Ht H1). lia.
Qed.

(** Committing both pages, the directory last: in a shared block its page wins. *)
Lemma commit_hidden_ok n (v v7 : Volume W) child cb ck cnew parent pb pk pold pnew :
  vol_base n v -> 6 <= n -> child <> parent -> slot_at v child = Some (cb, ck * DISIZE) -> slot_at v parent = Some (pb, pk * DISIZE) ->
  meta_block v cb -> 0 <= ck < INOSPERPAGE -> zlen cnew = 512 -> meta_block v pb -> 0 <= pk < INOSPERPAGE -> zlen pold = 512 -> zlen pnew = 512 ->
  zslice cnew 4 12 = zslice (slot_of [] (contents (v_storage v)) (cb, ck * DISIZE)) 4 12 ->
  zslice pnew 4 12 = zslice (slot_of [] (contents (v_storage v)) (pb, pk * DISIZE)) 4 12 ->
  txn v v7 [((parent, pb), new_page v pb pk pnew); ((child, cb), over_page v [((parent, pb), new_page v pb pk pold)] cb ck cnew)] [(child, cb); (parent, pb)] ->
  exists r v', vol_commit_transaction v7 = (Ok r, v') /\ moved (n - 6) v v' /\
    forall i, inode_bytes v' i = if decide (i = parent) then Some pnew else
      if decide (i = child) then (if decide (cb = pb) then inode_bytes v child else Some cnew) else inode_bytes v i.
Proof.
  intros Hv Hn Hne Hsc Hsp Hmc Hck Hzc Hmp Hpk Hzo Hzp Hkc Hkp Ht7. assert (Hkk : (child, cb) <> (parent, pb)) by (by intros [=]).
  pose proof (hidden_table n v child cb ck cnew parent pb pk pold pnew) as Htab.
  pose proof (two_pages_ok n v parent pb pk pold child cb ck cnew Hv Hmp Hpk Hzo Hmc Hck Hzc) as Hl. apply Forall_cons in Hl as [Hz1 _]. cbn [snd] in Hz1.
  pose proof (new_page_len v pb pk pnew Hmp Hpk Hzp) as Hz2.
  set (Dc := over_page v [((parent, pb), new_page v pb pk pold)] cb ck cnew) in *. set (Dp := new_page v pb pk pnew) in *.
  destruct (commit_txn n v v7 _ [(child, cb); (parent, pb)] Hv Ht7) as (r & v' & Hr8 & Hcm); [by repeat constructor|change (zlen [(child, cb); (parent, pb)]) with 2; lia| | | |].
  { intros key. cbn [assoc]. rewrite !elem_of_cons, elem_of_nil. destruct (decide (key = (parent, pb))), (decide (key = (child, cb))); naive_solver. }
  { intros key [->|[->|[]%elem_of_nil]%elem_of_cons]%elem_of_cons; done. }
  { intros blk [(Hb0 & _) _]. destruct Hmp as [(? & ? & _) _], Hmc as [(? & ? & _) _]. by apply writes_of_two. }
  exists r, v'. split; [done|]. split.
  - change (zlen [(child, cb); (parent, pb)]) with 2 in Hcm. replace (n - 6) with (n - 2 * 2 - 2) by lia. eapply (committed_moved _ v v' _ Hcm).
    repeat constructor; eexists; by eapply find_slot_elem.
  - intros i. destruct (committed_inodes _ _ _ _ i Hcm) as [_ ->]. rewrite (Htab i) by done.
    rewrite !(inode_bytes_nil n) by done. destruct (slot_at v i) as [loc|] eqn:Ei; cbn.
    + unfold Dp, Dc. rewrite (hidden_slots n) by (done || by eapply find_slot_elem). unfold slot_update. destruct (decide (loc = (pb, pk * DISIZE))) as [->|Hlp].
      * assert (i = parent) as -> by (by eapply (find_slot_inj _ _ i parent)). by rewrite decide_True.
      * destruct (decide (i = parent)) as [->|]; [congruence|]. destruct (decide (i = child)) as [->|Hic].
        -- rewrite Hsc in Ei |- *. injection Ei as <-. destruct (decide (cb = pb)); [done|]. by rewrite decide_True.
        -- destruct (decide (cb = pb)); [done|]. rewrite decide_False; [done|]. intros ->. apply Hic. by eapply (find_slot_inj _ _ i child).
    + rewrite !decide_False by (intros ->; congruence). done.
Qed.

(** The table while the page of the child is the most recent one. *)
Lemma two_slots_same n (v : Volume W) child cb ck cnew parent pb pk pnew i :
  vol_base n v -> child <> parent -> slot_at v child = Some (cb, ck * DISIZE) -> slot_at v parent = Some (pb, pk * DISIZE) ->
  meta_block v cb -> 0 <= ck < INOSPERPAGE -> zlen cnew = 512 -> meta_block v pb -> 0 <= pk < INOSPERPAGE -> zlen pnew = 512 ->
  zslice cnew 4 12 = zslice (slot_of [] (contents (v_storage v)) (cb, ck * DISIZE)) 4 12 ->
  zslice pnew 4 12 = zslice (slot_of [] (contents (v_storage v)) (pb, pk * DISIZE)) 4 12 ->
  txn_slot v (two_pages v parent pb pk pnew child cb ck cnew) i = slot_at v i.
Proof.
  intros Hv Hne Hsc Hsp Hmc Hck Hzc Hmp Hpk Hzp Hkc Hkp.
  assert (Hloc : (cb, ck * DISIZE) <> (pb, pk * DISIZE)) by (intros Heq; rewrite Heq in Hsc; apply Hne; by eapply (find_slot_inj _ _ child parent)).
  unfold txn_slot. erewrite find_slot_ext; [|intros loc Hin; by apply (two_slots n)].
  rewrite find_slot_same_key; [rewrite find_slot_same_key by done; by apply (txn_slot_nil n)|]. rewrite Hkc. unfold slot_update. by rewrite decide_False.
Qed.

(** Marking the page of the child and reading the directory. *)
Lemma mark_child_ok n (v v4 : Volume W) child cb ck cnew parent pb pk pnew :
  vol_base n v -> child <> parent -> slot_at v child = Some (cb, ck * DISIZE) -> slot_at v parent = Some (pb, pk * DISIZE) ->
  meta_block v cb -> 0 <= ck < INOSPERPAGE -> zlen cnew = 512 -> meta_block v pb -> 0 <= pk < INOSPERPAGE -> zlen pnew = 512 ->
  zslice cnew 4 12 = zslice (slot_of [] (contents (v_storage v)) (cb, ck * DISIZE)) 4 12 ->
  zslice pnew 4 12 = zslice (slot_of [] (contents (v_storage v)) (pb, pk * DISIZE)) 4 12 ->
  txn v v4 (two_pages v parent pb pk pnew child cb ck cnew) [] ->
  exists d v5 v6, mark_page_dirty child cb v4 = (Ok tt, v5) /\ vol_inode_read parent v5 = (Ok (mkInode d parent pb (pk * DISIZE)), v6) /\
    txn v v6 (two_pages v parent pb pk pnew child cb ck cnew) [(child, cb)].
Proof.
  intros Hv Hne Hsc Hsp Hmc Hck Hzc Hmp Hpk Hzp Hkc Hkp Ht. set (l2 := two_pages v parent pb pk pnew child cb ck cnew) in *.
  assert (Hl2 : pages_ok l2) by (by apply (two_pages_ok n)). assert (Hkk : (child, cb) <> (parent, pb)) by (by intros [=]).
  destruct (mark_txn v v4 l2 [] child cb Ht) as (v5 & Hr5 & Ht5). rewrite bool_decide_eq_false_2 in Ht5 by apply not_elem_of_nil.
  assert (Hpr : promote (child, cb) l2 = l2) by (unfold promote, l2, two_pages; cbn [assoc unassoc]; by rewrite !decide_True, decide_False by done).
  rewrite Hpr in Ht5. cbn [app] in Ht5.
  destruct (read_txn n v v5 l2 [(child, cb)] parent pb (pk * DISIZE) Hv Ht5 Hl2) as (d & v6 & Hr6 & Ht6 & _); [by unfold l2; rewrite (two_slots_same n)|].
  by exists d, v5, v6.
Qed.

(** Marking both pages, the directory last, and committing. *)
Lemma finish_both_ok n (v v4 : Volume W) child cb ck cnew parent pb pk pnew {A} (res : A) :
  vol_base n v -> 6 <= n -> child <> parent -> slot_at v child = Some (cb, ck * DISIZE) -> slot_at v parent = Some (pb, pk * DISIZE) ->
  meta_block v cb -> 0 <= ck < INOSPERPAGE -> zlen cnew = 512 -> meta_block v pb -> 0 <= pk < INOSPERPAGE -> zlen pnew = 512 ->
  zslice cnew 4 12 = zslice (slot_of [] (contents (v_storage v)) (cb, ck * DISIZE)) 4 12 ->
  zslice pnew 4 12 = zslice (slot_of [] (contents (v_storage v)) (pb, pk * DISIZE)) 4 12 ->
  txn v v4 (two_pages v parent pb pk pnew child cb ck cnew) [] ->
  exists v', (let* _ := mark_page_dirty child cb in finish_parent parent res) v4 = (Ok res, v') /\ moved (n - 6) v v' /\
    forall i, inode_bytes v' i = if decide (i = parent) then Some pnew else
      if decide (i = child) then (if decide (cb = pb) then inode_bytes v child else Some cnew) else inode_bytes v i.
Proof.
  intros Hv Hn Hne Hsc Hsp Hmc Hck Hzc Hmp Hpk Hzp Hkc Hkp Ht. assert (Hkk : (child, cb) <> (parent, pb)) by (by intros [=]).
  destruct (mark_child_ok n v v4 child cb ck cnew parent pb pk pnew) as (d & v5 & v6 & Hr5 & Hr6 & Ht6); try done.
  destruct (mark_txn v v6 _ [(child, cb)] parent pb Ht6) as (v7 & Hr7 & Ht7).
  rewrite bool_decide_eq_false_2 in Ht7 by (intros Hin%list_elem_of_singleton; by injection Hin).
  assert (Hkk' : (parent, pb) <> (child, cb)) by done. unfold promote, two_pages in Ht7. cbn [assoc unassoc] in Ht7. rewrite !(decide_False _ _ Hkk'), !decide_True in Ht7 by done.
  destruct (commit_hidden_ok n v v7 child cb ck cnew parent pb pk pnew pnew) as (r & v' & Hr8 & Hok & Hby); try done.
  exists v'. split; [|done]. rewrite (sbind_ok _ _ _ _ _ Hr5). unfold finish_parent, finish. rewrite (sbind_ok _ _ _ _ _ Hr6). cbn [in_page_block].
  by rewrite (sbind_ok _ _ _ _ _ Hr7), (sbind_ok _ _ _ _ _ Hr8).
Qed.
End entries.

#[export] Hint Extern 0 (vol_ok _ _) => eapply mv_ok; eassumption : core.


(** ** Witnesses *)

Section witnesses.
#[local] Existing Instance le_codec.
#[local] Existing Instance le_codec_spec.
#[local] Existing Instance sample_order.
#[local] Existing Instance sample_order_spec.
#[local] Existing Instance sample_flags.

Definition sample_tree : Dtree := match dir_tree sample_root with Ok t => t | _ => mkDtree [] 0 end.
Definition sample_entries : list DirEntry := match dt_entries sample_tree with Ok es => es | _ => [] end.

(** The root directory takes a new name, in the second slot of the table. *)
Lemma sample_can_create : can_create sample_volume 18 [97] sample_root sample_tree sample_entries 0 1.
Proof.
  split.
  - exact sample_inode.
  - split.
    + vm_compute. reflexivity.
    + apply (bool_decide_unpack _). vm_compute. exact I.
    + vm_compute. reflexivity.
    + vm_compute. repeat constructor; discriminate.
    + vm_compute. reflexivity.
    + apply (bool_decide_unpack _). vm_compute. exact I.
    + split; [apply (bool_decide_unpack _); vm_compute; exact I|vm_compute; discriminate].
  - vm_compute. discriminate.
  - vm_compute. reflexivity.
  - unfold INOSPERPAGE; lia.
  - vm_compute. discriminate.
  - left. vm_compute. reflexivity.
  - intros i _. apply (unkeyed_slot 100 sample_volume _ i (sample_ok 100)). vm_compute. reflexivity.
Qed.

Lemma sample_first_free : first_free sample_volume [] = Some (0, 512).
Proof. vm_compute. reflexivity. Qed.

Definition sample_begun : Volume MemoryStorage := (begin_transaction sample_volume).2.

Lemma sample_begin : begin_transaction sample_volume = (Ok 1, sample_begun).
Proof.
  assert (H : (begin_transaction sample_volume).1 = Ok 1) by (vm_compute; reflexivity).
  rewrite (surjective_pairing (begin_transaction sample_volume)). by rewrite H.
Qed.

Lemma allocate_inode_first_free_witness : (allocate_inode sample_begun).1 = Ok (slot_number sample_volume (0, 512), 0, 512).
Proof.
  pose proof (allocate_inode_first_free 100 sample_volume sample_begun 1 (sample_ok 100) sample_begin) as H. rewrite sample_first_free in H. exact H.
Defined.

(** Creating the file [a] in the root directory. *)
Lemma create_file_correct_witness :
  exists v' root, create_file 18 [97] sample_volume = (Ok 17, v') /\ inode_bytes v' 18 = Some (with_root sample_root root) /\ dir_entries (with_root sample_root root) = Ok (sample_entries ++ [mkDirEntry 17 [97] 2]).
Proof.
  destruct (create_file_correct 100 sample_volume 18 [97] sample_root sample_tree sample_entries 0 1 (sample_ok 100)) as (v' & d & root & H1 & _ & H3 & _ & _ & _ & _ & H8).
  - lia.
  - exact sample_can_create.
  - exists v', root. change (slot_number sample_volume (0, 1 * DISIZE)) with 17 in *. split; [exact H1|]. split; [rewrite H3; reflexivity|exact H8].
Defined.

Lemma create_file_inherits_tree_witness :
  exists v' new d, create_file 18 [97] sample_volume = (Ok 17, v') /\ inode_bytes v' 17 = Some new /\ dinode_parse new = Ok d /\ dinode_xtroot_bytes d = zslice (block_at (ms_data sample_device) 0) 736 1024.
Proof.
  apply (create_file_inherits_tree 100 sample_volume 18 [97] sample_root sample_tree sample_entries 0 1 (sample_ok 100)).
  - lia.
  - exact sample_can_create.
Defined.

(** The link [a] to [b/c]. *)
Lemma symlink_roundtrip_witness :
  exists v', symlink 18 [97] [98; 47; 99] sample_volume = (Ok 17, v') /\ (read_symlink 17 v').1 = Ok (as_bytes [98; 47; 99]).
Proof.
  destruct (symlink_roundtrip 100 sample_volume 18 [97] [98; 47; 99] sample_root sample_tree sample_entries 0 1 (sample_ok 100)) as (v' & H1 & _ & H3 & _).
  - lia.
  - exact sample_can_create.
  - vm_compute. split; reflexivity.
  - exists v'. split; [exact H1|exact H3].
Defined.

(** The volume on which [a] was created. *)
Definition one_file : Volume MemoryStorage := volume_on (v_storage (create_file 18 [97] sample_volume).2).
Definition one_file_root : list byte := default [] (inode_bytes one_file 18).
Definition one_file_tree : Dtree := match dir_tree one_file_root with Ok t => t | _ => mkDtree [] 0 end.
Definition one_file_child : list byte := default [] (inode_bytes one_file 17).
Definition one_file_dinode : Dinode := match dinode_parse one_file_child with Ok d => d | _ => dinode_default end.

(** The names of the root directory. *)
Definition root_names (v : Volume MemoryStorage) : list (list Z * Z) :=
  match inode_bytes v 18 with
  | Some bytes => match dir_entries bytes with Ok es => (fun e => (de_name e, de_inumber e)) <$> es | _ => [] end
  | None => []
  end.

Definition two_files : Volume MemoryStorage := (create_file 18 [98] (create_file 18 [97] sample_volume).2).2.

(** Renaming a file inside its directory destroys another name: with the
    files [a] (inode 17) and [b] (inode 19) in the root directory, renaming [a]
    to [c] succeeds and the directory then lists [c] twice and [b] no more. The
    removal of [a] leaves slot 3 free, but the insertion takes the slot after
    the number of entries, which is the one of [b]. *)
Theorem rename_loses_file :
  root_names two_files = [([46], 18); ([46; 46], 18); ([97], 17); ([98], 19)] /\
  (rename 18 [97] 18 [99] two_files).1 = Ok true /\
  root_names (rename 18 [97] 18 [99] two_files).2 = [([46], 18); ([46; 46], 18); ([99], 17); ([99], 17)].
Proof. vm_compute. split; [reflexivity|]. split; reflexivity. Qed.
End witnesses.
