(* ===== verification/DirMake.v ===== *)
(** * Making directories

    The root that [mkdir] writes into a new inode is a well-formed directory
    with the entries [.] and [..], whatever the slot held before, and the whole
    call adds such a directory to its parent. *)

From stdpp Require Import gmap.
From Stdlib Require Import ZArith Lia.
From S2P Require Import Prelude Types Storage PageCache Dmap Dtree LogMgr Devices Recovery Transaction Inode Utf Volume VolumeData VolumeDir VolumeOps VolumeTx DinodeEdit InodeTable Sample Entries.

Section root.
Context {LE : LittleEndian} {LES : LittleEndianSpec}.

Lemma byte_of_slice data i x : 0 <= i -> zslice data i (i + 1) = [x] -> byte_at data i = bval x.
Proof.
  intros Hi Hs. unfold byte_at. rewrite list_lookup_total_alt. replace (data !! Z.to_nat i) with (Some x); [done|].
  pose proof (lookup_zslice data i (i + 1) 0 Hi) as Hl. rewrite Hs, decide_True in Hl by lia. by rewrite Nat.add_0_r in Hl.
Qed.

(** A field of the root, which starts at byte 224 of the dinode. *)
Ltac here := match goal with root := zslice _ 224 512 |- _ => unfold root; rewrite zslice_zslice by lia; frames; done end.

(** The entries of a directory that has just been made. *)
Definition dot_entries (parent child : Z) : list DirEntry := [mkDirEntry child [46] 0; mkDirEntry parent [46; 46] 1].

Lemma new_dtroot_ok parent child d :
  zlen d = 512 -> u32_range parent -> u32_range child ->
  exists d', new_dtroot parent child d = Ok d' /\ zlen d' = 512 /\ (forall x y, 0 <= x -> y <= 240 -> zslice d' x y = zslice d x y) /\
    let root := zslice d' 224 512 in dt_wf (mkDtree root 0) /\ dt_entries (mkDtree root 0) = Ok (dot_entries parent child).
Proof.
  intros Hz Hp Hc. unfold u32_range in *. unfold new_dtroot. repeat edit. eexists. split; [reflexivity|]. split; [edit_size|].
  split; [intros x y Hx Hy; frames; done|]. match goal with |- context [mkDtree (zslice ?d' _ _) _] => set (root := zslice d' 224 512); assert (Hd' : zlen d' = 512) by edit_size end.
  assert (Hzr : zlen root = 288) by (unfold root; rewrite zlen_zslice; lia).
  assert (Hb : forall i x, 0 <= i < 288 -> zslice root i (i + 1) = [x] -> byte_at root i = bval x) by (intros; apply byte_of_slice; [lia|done]).
  assert (H17 : byte_at root 17 = 2) by (apply (Hb _ (bof 2)); [lia|here]).
  assert (H18 : byte_at root 18 = 0) by (apply (Hb _ (bof 0)); [lia|here]).
  assert (H24 : byte_at root 24 = 1) by (apply (Hb _ (bof 1)); [lia|here]).
  assert (H25 : byte_at root 25 = 2) by (apply (Hb _ (bof 2)); [lia|here]).
  assert (H37 : byte_at root 37 = 1) by (apply (Hb _ (bof 1)); [lia|here]).
  assert (H69 : byte_at root 69 = 2) by (apply (Hb _ (bof 2)); [lia|here]).
  assert (Hst : dt_stbl (mkDtree root 0) = [1; 2]).
  { unfold dt_stbl, dt_count. cbn [dt_data]. rewrite H17. change (range 0 2) with [0; 1]. cbn [fmap list_fmap]. change (24 + 0) with 24. change (24 + 1) with 25. by rewrite H24, H25. }
  assert (Hwf : dt_wf (mkDtree root 0)).
  { unfold dt_wf. rewrite Hst. unfold dt_count. cbn [dt_data]. rewrite H17. split_and!; [done|lia|done|apply (bool_decide_unpack _); vm_compute; exact I|].
    repeat constructor; try lia; [change (1 * 32 + 5) with 37; lia|change (2 * 32 + 5) with 69; lia]. }
  split; [done|]. rewrite dt_entries_ok by done. rewrite Hst. cbn [fmap list_fmap dt_data]. unfold slot_entry, DTSLOTSIZE, dot_entries.
  change (1 * 32 + 5) with 37. change (2 * 32 + 5) with 69. rewrite H37, H69.
  assert (E1 : zslice root 32 36 = write_u32 child) by here. assert (E2 : zslice root 38 40 = write_u16 46) by here. assert (E3 : zslice root 60 64 = write_u32 0) by here.
  assert (E4 : zslice root 64 68 = write_u32 parent) by here. assert (E6 : zslice root 92 96 = write_u32 1) by here.
  assert (E5 : zslice root 70 74 = write_u16 46 ++ write_u16 46).
  { rewrite <- (zslice_cat root 70 72 74) by lia. f_equal; here. }
  change (1 * 32 + 4) with 36. change (1 * 32 + 6 + 1 * 2) with 40. change (1 * 32 + 6) with 38. change (1 * 32 + 28) with 60. change (1 * 32 + 32) with 64.
  change (2 * 32 + 4) with 68. change (2 * 32 + 6 + 2 * 2) with 74. change (2 * 32 + 6) with 70. change (2 * 32 + 28) with 92. change (2 * 32 + 32) with 96.
  change (1 * 32) with 32. change (2 * 32) with 64. rewrite E1, E2, E3, E4, E5, E6, !read_write_u32 by lia. rewrite bytes_to_u16_app by (apply length_write_u16; lia).
  pose proof (bytes_to_u16_names [46]) as Hn1. cbn [fmap list_fmap concat] in Hn1. rewrite app_nil_r in Hn1. rewrite Hn1 by (repeat constructor; lia).
  rewrite read_write_u16 by lia. done.
Qed.
End root.

Section mkdir.
Context {LE : LittleEndian} {LES : LittleEndianSpec} {L : Lru PageKey CachedPage} {LS : LruSpec PageKey CachedPage}.
Context {HO : HashOrder} {HOS : HashOrderSpec} {W : Type} {FS : Storage W} {SS : StorageSpec W} {SR : StorageReliable W}.
Abbreviation VM := (ST (Volume W) StorageError).

(** A second update of the page of the directory. *)
Lemma update_parent_again n (v v5 : Volume W) dirty child b k new parent pb pk pnew upd pnew' :
  vol_ok n v -> meta_block v b -> 0 <= k < INOSPERPAGE -> zlen new = 512 -> meta_block v pb -> 0 <= pk < INOSPERPAGE -> zlen pnew = 512 -> zlen pnew' = 512 -> parent <> child ->
  upd pnew = Ok pnew' -> txn v v5 (two_pages v child b k new parent pb pk pnew) dirty ->
  exists v6, update_inode_page parent pb (pk * DISIZE) upd v5 = (Ok tt, v6) /\ txn v v6 (two_pages v child b k new parent pb pk pnew') dirty.
Proof.
  intros Hv Hm Hk Hz Hmp Hpk Hzp Hzp' Hne Hu Ht. pose proof (ok_cap n v Hv) as Hcap. pose proof (two_pages_ok n v child b k new parent pb pk pnew Hv Hm Hk Hz Hmp Hpk Hzp) as Hl.
  pose proof Hmp as [(H0 & Hr & _) _]. apply Forall_cons in Hl as [Hzl _]. cbn [snd] in Hzl. unfold over_page in Hzl.
  assert (Hvz : zlen (view_block [((child, b), new_page v b k new)] (contents (v_storage v)) pb) = BLOCK_SIZE).
  { apply view_block_len; [constructor; [by apply new_page_len|constructor]|done|done]. }
  assert (Hpf : page_for (two_pages v child b k new parent pb pk pnew) (contents (v_storage v)) parent pb = over_page v [((child, b), new_page v b k new)] pb pk pnew).
  { unfold page_for, two_pages. cbn [assoc]. by rewrite decide_True. }
  unfold DISIZE, INOSPERPAGE, BLOCK_SIZE, PSIZE in *.
  destruct (update_txn v v5 _ dirty parent pb (pk * 512) upd pnew' Ht) as (v6 & Hrun & Ht6); try done; rewrite ?Hpf; unfold over_page, DISIZE.
  { change (zlen (two_pages _ _ _ _ _ _ _ _ _)) with 2. lia. } { lia. } { rewrite Hzl. lia. } { rewrite zslice_zsplice_same by lia. done. }
  exists v6. split; [exact Hrun|]. rewrite Hpf in Ht6. unfold over_page, DISIZE in Ht6. rewrite zsplice_over in Ht6 by lia.
  unfold two_pages at 1 in Ht6. cbn [unassoc] in Ht6. rewrite decide_True in Ht6 by done. cbn [unassoc] in Ht6. rewrite decide_False in Ht6 by (intros [=]; done). exact Ht6.
Qed.

Lemma add_link_ok d : zlen d = 512 -> read_u32 (zslice d 40 44) + 1 < 2 ^ 32 ->
  exists d', add_link d = Ok d' /\ edits d 40 4 (write_u32 (read_u32 (zslice d 40 44) + 1)) d'.
Proof.
  intros Hz Hl. assert (Hr : 0 <= read_u32 (zslice d 40 44)) by (rewrite read_u32_spec by (apply length_zslice; lia); apply le_val_range).
  unfold add_link. rewrite slice_ok by lia. cbn [obind]. unfold add_u32. destruct (Z.ltb_spec (read_u32 (zslice d 40 44) + 1) (2 ^ 32)); [|lia]. cbn [obind]. apply put_u32_edits; lia.
Qed.

(** The inode of a new directory. *)
Lemma new_directory_ok parent child d :
  zlen d = 512 -> u32_range parent -> FILESYSTEM_I <= child < 2 ^ 32 ->
  exists new dn, (let! d := new_dinode 0x41ED 0 2 child d in new_dtroot parent child d) = Ok new /\ zlen new = 512 /\
    key_matches (inode_target child) new = true /\ dinode_parse new = Ok dn /\ dinode_is_dir dn = true /\ dinode_nlink dn = 2 /\
    dir_entries new = Ok (dot_entries parent child) /\ dinode_size_val dn = 0.
Proof.
  intros Hz Hp Hc. destruct (new_dinode_spec 0x41ED 0 2 child d Hz) as (d1 & Hnew & Hz1 & H4 & H8 & H24 & _ & H40 & H52 & _); [unfold FILESYSTEM_I in *; lia..|].
  destruct (new_dtroot_ok parent child d1 Hz1 Hp) as (new & Hroot & Hzn & Hk & Hwf & Hes); [unfold u32_range, FILESYSTEM_I in *; lia|].
  destruct (dinode_parse_bytes new Hzn) as (dn & Hdn & _). destruct (dinode_parse_fields new dn Hzn Hdn) as (Hsz & _ & Hnl & Hmd & _ & _ & Hu).
  exists new, dn. rewrite Hnew. cbn [obind]. split_and!; try done.
  - apply new_dinode_key; [by rewrite Hk by lia..|done].
  - unfold dinode_is_dir, dinode_mode. rewrite Hmd, Hk, H52, read_write_u32 by lia. done.
  - unfold dinode_nlink. rewrite Hnl, Hk, H40, read_write_u32 by lia. done.
  - unfold dir_entries, dir_tree. rewrite Hdn. unfold dinode_dtroot_bytes. rewrite Hu, zslice_zslice by lia. change (128 + 96) with 224. change (128 + 384) with 512.
    unfold dt_from_inode_data. rewrite zlen_zslice by lia. exact Hes.
  - unfold dinode_size_val. rewrite Hsz, Hk, H24, read_write_u64 by lia. done.
Qed.

(** The directory that [mkdir] writes into a slot is well formed and lists
    exactly [.] and [..], whatever the slot held before, and leaves the inode
    fields before it alone. *)
Theorem new_dtroot_wf parent child d (Hz : zlen d = 512) (Hp : u32_range parent) (Hc : u32_range child) :
  exists d', new_dtroot parent child d = Ok d' /\ zlen d' = 512 /\ (forall x y, 0 <= x -> y <= 240 -> zslice d' x y = zslice d x y) /\
    let root := zslice d' 224 512 in dt_wf (mkDtree root 0) /\ dt_entries (mkDtree root 0) = Ok (dot_entries parent child).
Proof. by apply new_dtroot_ok. Qed.

Lemma mkdir_run n (v : Volume W) parent name old d0 t es b k
  (Hv : vol_ok n v) (Hn : 6 <= n) (Hc : can_create v parent name old t es b k) (Hp : u32_range parent)
  (Hd0 : dinode_parse old = Ok d0) (Hlink : dinode_nlink d0 + 1 < 2 ^ 32) :
  let child := slot_number v (b, k * DISIZE) in
  exists v' new dn pnew dp, mkdir parent name v = (Ok child, v') /\ vol_ok (n - 6) v' /\
    (forall i, inode_bytes v' i = if decide (i = child) then Some new else if decide (i = parent) then Some pnew else inode_bytes v i) /\
    dinode_parse new = Ok dn /\ dinode_is_dir dn = true /\ dinode_nlink dn = 2 /\ dir_entries new = Ok (dot_entries parent child) /\
    dinode_parse pnew = Ok dp /\ dinode_nlink dp = dinode_nlink d0 + 1 /\
    dir_entries pnew = Ok (es ++ [mkDirEntry child (encode_utf16 name) (as_u32 (zlen es))]) /\ dinode_mode dp = dinode_mode d0 /\
    dinode_size_val dn = 0 /\ zslice pnew 0 40 = zslice old 0 40 /\ zslice pnew 44 224 = zslice old 44 224.
Proof.
  intros child. pose proof (can_create_fresh n v parent name old t es b k Hv Hc) as Hf. pose proof (fr_in _ _ _ _ Hf) as Hin.
  pose proof (slot_number_range n v _ Hv Hin) as Hcr. fold child in Hf, Hcr. pose proof (fr_meta _ _ _ _ Hf) as Hmc. pose proof (fr_k _ _ _ _ Hf) as Hkr.
  destruct (new_directory_ok parent child _ (slot_of_len n v _ Hv Hin) Hp Hcr) as (new & dn & Hupd & Hz & Hkey & Hdn & Hisd & Hnl2 & Hdots & Hsz0).
  destruct (inode_bytes_some n v parent old Hv (cc_parent _ _ _ _ _ _ _ _ Hc)) as (pb & pk & Hs & Hmp & Hpk & _ & Hold & Hzo).
  pose proof (cc_other _ _ _ _ _ _ _ _ Hc) as Hne. fold child in Hne.
  destruct (begin_ok n v Hv) as (tx & v0 & Hb & Ht0). destruct (allocate_txn n v v0 [] [] Hv Ht0) as (v1 & Ha & Ht1); [constructor|].
  rewrite (cc_free _ _ _ _ _ _ _ _ Hc) in Ha. fold child in Ha. cbn [fst snd] in Ha.
  destruct (child_page_ok n v v1 child b k (fun d => let! d := new_dinode 0x41ED 0 2 child d in new_dtroot parent child d) new Hv Ht1 Hmc Hkr Hupd Hz) as (v3 & Hr3 & Ht3). apply sbind_inv in Hr3 as ([] & v2 & Hr2 & Hr3).
  destruct (enter_ok n v v3 [(child, b)] child b k new parent pb pk old (encode_utf16 name) t es) as (v5 & t' & Hr5 & Hwf & Hes & Ht5);
    try done; [unfold u32_range, FILESYSTEM_I in *; lia|apply Hc|].
  destruct (Hwf) as (Hzt & _). destruct (put_root_ok old (dt_data t') Hzo Hzt) as [_ Hzw]. set (w := with_root old (dt_data t')) in *.
  pose proof (with_root_key old (dt_data t') Hzo Hzt) as Hkw. fold w in Hkw. rewrite Hold in Hkw.
  assert (H40 : zslice w 40 44 = zslice old 40 44) by (unfold w, with_root; rewrite zslice_app_l by (rewrite ?zlen_zslice; lia); by rewrite zslice_zslice by lia).
  destruct (dinode_parse_fields old d0 Hzo Hd0) as (_ & _ & Hnl0 & _). unfold dinode_nlink in Hlink. rewrite Hnl0 in Hlink.
  destruct (add_link_ok w Hzw ltac:(by rewrite H40)) as (pnew & Hadd & He). pose proof (ed_size _ _ _ _ _ He) as Hzn.
  destruct (read_parent_again n v v5 [(child, b)] child b k new parent pb pk w) as (d5 & v6 & Hr6 & Ht6); try done.
  destruct (update_parent_again n v v6 [(child, b)] child b k new parent pb pk w add_link pnew) as (v7 & Hr7 & Ht7); try done.
  destruct (commit_child_ok n v v7 child b k new parent pb pk pnew) as (v8 & r & v' & Hr8 & Hr9 & Hok & Hby); try done; [by rewrite (ed_frame _ _ _ _ _ He) by lia|].
  destruct (dinode_parse_bytes pnew Hzn) as (dp & Hdp & _). destruct (dinode_parse_fields pnew dp Hzn Hdp) as (_ & _ & Hnlp & _ & _ & _ & Hup).
  exists v', new, dn, pnew, dp. split_and!; try done.
  - unfold mkdir. rewrite (sbind_ok _ _ _ _ _ Hb), (sbind_ok _ _ _ _ _ Ha). cbn zeta. rewrite (can_create_name v parent name old t es b k Hc).
    rewrite (sbind_ok _ _ _ _ _ Hr2), (sbind_ok _ _ _ _ _ Hr3), (sbind_ok _ _ _ _ _ Hr5). unfold update_and_mark. unfold sbind at 1. rewrite (sbind_ok _ _ _ _ _ Hr6). cbn [in_page_block in_page_offset].
    rewrite (sbind_ok _ _ _ _ _ Hr7), Hr8. by rewrite (sbind_ok _ _ _ _ _ Hr9).
  - unfold dinode_nlink. rewrite Hnlp, Hnl0. change 44 with (40 + 4) at 1. rewrite (ed_here _ _ _ _ _ He), H40, read_write_u32; [done|].
    rewrite read_u32_spec in * by (apply length_zslice; lia). pose proof (le_val_range (zslice old 40 44)). lia.
  - pose proof (dir_entries_root old t' _ Hzo Hwf Hes) as Hde. fold w in Hde. unfold dir_entries, dir_tree in *. rewrite Hdp. destruct (dinode_parse_bytes w Hzw) as (dw & Hdw & _).
    rewrite Hdw in Hde. destruct (dinode_parse_fields w dw Hzw Hdw) as (_ & _ & _ & _ & _ & _ & Huw). unfold dinode_dtroot_bytes in *. rewrite Hup, (ed_frame _ _ _ _ _ He), <- Huw by lia. exact Hde.
  - destruct (dinode_parse_fields old d0 Hzo Hd0) as (_ & _ & _ & Hm0 & _). destruct (dinode_parse_fields pnew dp Hzn Hdp) as (_ & _ & _ & Hmp' & _).
    unfold dinode_mode. rewrite Hmp', Hm0, (ed_frame _ _ _ _ _ He) by lia. unfold w, with_root. rewrite zslice_app_l by (rewrite ?zlen_zslice; lia). by rewrite zslice_zslice by lia.
  - rewrite (ed_frame _ _ _ _ _ He) by lia. unfold w, with_root. rewrite zslice_app_l by (rewrite ?zlen_zslice; lia). by rewrite zslice_zslice by lia.
  - rewrite (ed_frame _ _ _ _ _ He) by lia. unfold w, with_root. rewrite zslice_app_l by (rewrite ?zlen_zslice; lia). by rewrite zslice_zslice by lia.
Qed.

(** C15: making a directory on a quiet volume adds a directory of size zero
    with two links under the number of the first free slot; it stores the two
    entries [.] and [..], for itself and its parent, and no other. The parent
    lists the name after its old entries and has one link more; the bytes of
    its inode in front of the tree are otherwise as before. No other inode
    changes and the volume is quiet again. *)
Theorem mkdir_correct n (v : Volume W) parent name old d0 t es b k
  (Hv : vol_ok n v) (Hn : 6 <= n) (Hc : can_create v parent name old t es b k) (Hp : u32_range parent)
  (Hd0 : dinode_parse old = Ok d0) (Hlink : dinode_nlink d0 + 1 < 2 ^ 32) :
  let child := slot_number v (b, k * DISIZE) in
  exists v' new dn pnew dp, mkdir parent name v = (Ok child, v') /\ vol_ok (n - 6) v' /\
    (forall i, inode_bytes v' i = if decide (i = child) then Some new else if decide (i = parent) then Some pnew else inode_bytes v i) /\
    dinode_parse new = Ok dn /\ dinode_is_dir dn = true /\ dinode_nlink dn = 2 /\ dir_entries new = Ok (dot_entries parent child) /\ dinode_size_val dn = 0 /\
    dinode_parse pnew = Ok dp /\ dinode_nlink dp = dinode_nlink d0 + 1 /\
    dir_entries pnew = Ok (es ++ [mkDirEntry child (encode_utf16 name) (as_u32 (zlen es))]) /\
    zslice pnew 0 40 = zslice old 0 40 /\ zslice pnew 44 224 = zslice old 44 224.
Proof.
  intros child. destruct (mkdir_run n v parent name old d0 t es b k Hv Hn Hc Hp Hd0 Hlink) as (v' & new & dn & pnew & dp & Hrun). fold child in Hrun.
  exists v', new, dn, pnew, dp. tauto.
Qed.
End mkdir.

(** ** Witnesses *)

Section witnesses.
#[local] Existing Instance le_codec.
#[local] Existing Instance le_codec_spec.
#[local] Existing Instance sample_order.
#[local] Existing Instance sample_order_spec.
#[local] Existing Instance sample_flags.

Lemma new_dtroot_wf_witness : exists d', new_dtroot 18 17 (zeros 512) = Ok d' /\ dt_entries (mkDtree (zslice d' 224 512) 0) = Ok (dot_entries 18 17).
Proof.
  destruct (new_dtroot_wf 18 17 (zeros 512)) as (d' & H1 & _ & _ & _ & H5).
  - vm_compute. reflexivity.
  - split; [discriminate|reflexivity].
  - split; [discriminate|reflexivity].
  - exists d'. exact (conj H1 H5).
Defined.

Definition sample_root_dinode : Dinode := match dinode_parse sample_root with Ok d => d | _ => dinode_default end.

(** The directory [a]. *)
Lemma mkdir_correct_witness : exists v' new, mkdir 18 [97] sample_volume = (Ok 17, v') /\ dir_entries new = Ok (dot_entries 18 17) /\ inode_bytes v' 17 = Some new.
Proof.
  destruct (mkdir_correct 100 sample_volume 18 [97] sample_root sample_root_dinode sample_tree sample_entries 0 1 (sample_ok 100)) as (v' & new & dn & pnew & dp & H1 & _ & H3 & _ & _ & _ & H7 & _).
  - lia.
  - exact sample_can_create.
  - split; [discriminate|reflexivity].
  - vm_compute. reflexivity.
  - vm_compute. reflexivity.
  - exists v', new. change (slot_number sample_volume (0, 1 * DISIZE)) with 17 in *. split; [exact H1|]. split; [exact H7|]. rewrite H3. reflexivity.
Defined.
End witnesses.
