(* ===== verification/DirLink.v ===== *)
(** * Further links, and removing directories

    [link_file] and [rmdir] change two inodes, a directory and the inode of the
    name. Both update the page of the directory first and mark it last, so that
    in a shared block of the table the page of the directory wins: the theorems
    say what each call leaves in both cases. *)

From stdpp Require Import gmap.
From Stdlib Require Import ZArith Lia.
From S2P Require Import Prelude Types Storage PageCache Dmap Dtree LogMgr Devices Recovery Transaction Inode Utf Volume VolumeData VolumeDir VolumeOps VolumeTx DinodeEdit InodeTable Sample Entries DirMake.

Section link.
Context {LE : LittleEndian} {LES : LittleEndianSpec} {L : Lru PageKey CachedPage} {LS : LruSpec PageKey CachedPage}.
Context {HO : HashOrder} {HOS : HashOrderSpec} {W : Type} {FS : Storage W} {SS : StorageSpec W} {SR : StorageReliable W}.

(** ** Links *)

(** Entering a name when no page is cached. *)
Lemma enter_first_ok n (v v1 : Volume W) parent pb pk old name target t es :
  vol_ok n v -> txn v v1 [] [] -> slot_at v parent = Some (pb, pk * DISIZE) -> meta_block v pb -> 0 <= pk < INOSPERPAGE ->
  old = slot_of [] (contents (v_storage v)) (pb, pk * DISIZE) -> zlen old = 512 -> dir_room old name t es -> u32_range target ->
  exists v2 root, enter_child parent name target v1 = (Ok tt, v2) /\ zlen root = 288 /\
    dir_entries (with_root old root) = Ok (es ++ [mkDirEntry target name (as_u32 (zlen es))]) /\ txn v v2 [((parent, pb), new_page v pb pk (with_root old root))] [].
Proof.
  intros Hv Ht Hs Hm Hk Hold Hz Hroom Hcr. assert (Hslot : txn_slot v [] parent = Some (pb, pk * DISIZE)) by (by rewrite (txn_slot_nil n)).
  destruct (read_txn n v v1 [] [] parent pb (pk * DISIZE) Hv Ht) as (d & v2 & Hr2 & Ht2 & Hd); [constructor|done|].
  destruct (read_txn n v v2 [] [] parent pb (pk * DISIZE) Hv Ht2) as (d' & v3 & Hr3 & Ht3 & Hd'); [constructor|done|].
  assert (Hdo : dinode_parse old = Ok d) by (by rewrite Hold). assert (Hdo' : dinode_parse old = Ok d') by (by rewrite Hold). rewrite Hdo in Hdo'. injection Hdo' as <-.
  pose proof (dir_tree_parse old d t (dr_tree _ _ _ _ Hroom) Hdo) as Htree. destruct (dr_name _ _ _ _ Hroom) as [Hu16 Hnl].
  destruct (dt_insert_fresh t name target (as_u32 (zlen es)) es) as (t' & Hins & Hwf' & Hes'); try apply Hroom; try done; [apply as_u32_range|].
  destruct (Hwf') as (Hzt & _). destruct (put_root_ok old (dt_data t') Hz Hzt) as [Hput _].
  destruct (update_slot_ok n v v3 parent pb pk (put_root (dt_data t')) old (with_root old (dt_data t'))) as (v4 & Hr4 & Ht4); try done.
  exists v4, (dt_data t'). split_and!; try done; [|by apply dir_entries_root]. unfold enter_child, next_dir_index, insert_dir_entry.
  rewrite (sbind_ok _ _ _ (as_u32 (zlen es)) v2).
  - unfold sbind at 1. rewrite (sbind_ok _ _ _ _ _ Hr3). unfold sbind, slift, inode_dtree. cbn [in_dinode in_page_block in_page_offset]. unfold slift. rewrite Htree, Hins.
    cbn [obind]. unfold dt_to_bytes. by rewrite Hr4.
  - rewrite (sbind_ok _ _ _ _ _ Hr2). unfold sbind, slift, inode_dtree. cbn [in_dinode]. unfold slift. rewrite Htree. unfold entry_count. by rewrite (dr_entries _ _ _ _ Hroom).
Qed.

(** A file that can get another name in a directory. *)
Record can_link (v : Volume W) (parent : Z) (name : list Z) (target : Z) (old : list byte) (t : Dtree) (es : list DirEntry) (told : list byte) (td : Dinode) : Prop := {
  cl_parent : inode_bytes v parent = Some old;
  cl_room : dir_room old (encode_utf16 name) t es;
  cl_name : encode_utf16 name <> [];
  cl_target : inode_bytes v target = Some told;
  cl_other : target <> parent;
  cl_number : u32_range target;
  cl_dinode : dinode_parse told = Ok td;
  cl_file : dinode_is_dir td = false;
  cl_links : dinode_nlink td + 1 < 2 ^ 32 }.

(** Linking appends the name to the directory; the file gets one link more when
    its inode and the directory lie in different blocks of the table, and keeps
    its number of links when they share one. No other inode changes. *)
Theorem link_file_effect n (v : Volume W) parent name target old t es told td
  (Hv : vol_ok n v) (Hn : 6 <= n) (Hc : can_link v parent name target old t es told td) :
  exists v' root tnew td' tb toff pb poff,
    slot_at v target = Some (tb, toff) /\ slot_at v parent = Some (pb, poff) /\
    link_file parent name target v = (Ok target, v') /\ vol_ok (n - 6) v' /\
    dir_entries (with_root old root) = Ok (es ++ [mkDirEntry target (encode_utf16 name) (as_u32 (zlen es))]) /\
    dinode_parse tnew = Ok td' /\ dinode_nlink td' = dinode_nlink td + 1 /\ dinode_mode td' = dinode_mode td /\ dinode_size_val td' = dinode_size_val td /\
    forall i, inode_bytes v' i = if decide (i = parent) then Some (with_root old root) else
      if decide (i = target) then (if decide (tb = pb) then Some told else Some tnew) else inode_bytes v i.
Proof.
  destruct Hc as [Hp Hroom Hne1 Htg Hne Hcr Hd Hfile Hlinks].
  destruct (inode_bytes_some n v parent old Hv Hp) as (pb & pk & Hsp & Hmp & Hpk & Hinp & Hold & Hzo).
  destruct (begin_read_ok n v target told Hv Htg) as (tx & v0 & v1 & d' & tb & off & Hb & Hr1 & Hst & Ht1 & Hd'). rewrite Hd in Hd'. injection Hd' as <-.
  destruct (inode_bytes_some n v target told Hv Htg) as (tb' & tk & Hst' & Hmt & Htk & Hint & Htold & Hzt). rewrite Hst in Hst'. injection Hst' as <- ->.
  destruct (enter_first_ok n v v1 parent pb pk old (encode_utf16 name) target t es) as (v2 & root & Hr2 & Hzr & Hdir & Ht2); try done.
  destruct (put_root_ok old root Hzo Hzr) as [_ Hzw]. pose proof (with_root_key old root Hzo Hzr) as Hkw. rewrite Hold in Hkw at 2.
  assert (Hloc : (tb, tk * DISIZE) <> (pb, pk * DISIZE)) by (intros Heq; rewrite Heq in Hst; apply Hne; by eapply (find_slot_inj _ _ target parent)).
  destruct (dinode_parse_fields told td Hzt Hd) as (Hsz0 & _ & Hnl0 & Hmo0 & _).
  assert (Hnr : 0 <= dinode_nlink td) by (unfold dinode_nlink; rewrite Hnl0, read_u32_spec by (apply length_zslice; lia); apply le_val_range).
  destruct (put_u32_edits told 40 (dinode_nlink td + 1)) as (tnew & Hput & He); [done|lia|lia|lia|]. pose proof (ed_size _ _ _ _ _ He) as Hzn.
  destruct (update_other n v v2 [] parent pb pk (with_root old root) target tb tk (put_u32 40 (dinode_nlink td + 1)) tnew) as (v3 & Hr3 & Ht3); try done; [by rewrite <- Htold|].
  destruct (finish_both_ok n v v3 target tb tk tnew parent pb pk (with_root old root) target) as (v' & Hr4 & Hok & Hby); try done; [rewrite <- Htold; by frames|].
  destruct (dinode_parse_bytes tnew Hzn) as (td' & Htd' & _). destruct (dinode_parse_fields tnew td' Hzn Htd') as (Hsz1 & _ & Hnl1 & Hmo1 & _).
  exists v', root, tnew, td', tb, (tk * DISIZE), pb, (pk * DISIZE). split_and!; try done.
  - unfold link_file. rewrite (sbind_ok _ _ _ _ _ Hb), (sbind_ok _ _ _ _ _ Hr1). cbn [in_dinode in_page_block in_page_offset]. rewrite Hfile. cbn zeta.
    rewrite good_name by (done || apply Hroom). rewrite (sbind_ok _ _ _ _ _ Hr2). unfold sbind at 1, slift. rewrite add_u32_ok by done.
    rewrite (sbind_ok _ _ _ _ _ Hr3). exact Hr4.
  - unfold dinode_nlink at 1. rewrite Hnl1. change 44 with (40 + 4). rewrite (ed_here _ _ _ _ _ He). apply read_write_u32. lia.
  - unfold dinode_mode. rewrite Hmo1, Hmo0. by frames.
  - unfold dinode_size_val. rewrite Hsz1, Hsz0. by frames.
  - intros i. rewrite Hby. by repeat case_decide.
Qed.

(** ** Removing a directory *)

(** A directory that can be removed: no entries but [.] and [..]. *)
Record can_rmdir (v : Volume W) (parent : Z) (name : list Z) (old : list byte) (d0 : Dinode) (t : Dtree) (es : list DirEntry) (e : DirEntry)
  (cold : list byte) (d : Dinode) (ct : Dtree) (num : Z) : Prop := {
  cr_parent : inode_bytes v parent = Some old;
  cr_tree : dir_tree old = Ok t;
  cr_wf : dt_wf t;
  cr_entries : dt_entries t = Ok es;
  cr_entry : List.find (fun e => bool_decide (de_name e = encode_utf16 name)) es = Some e;
  cr_child : inode_bytes v (de_inumber e) = Some cold;
  cr_other : de_inumber e <> parent;
  cr_dinode : dinode_parse cold = Ok d;
  cr_dir : dinode_is_dir d = true;
  cr_child_tree : dt_from_inode_data (dinode_dtroot_bytes d) = Ok ct;
  cr_count : dt_len_entries ct = Ok num;
  cr_empty : num <= 2;
  cr_parent_dinode : dinode_parse old = Ok d0;
  cr_links : 1 <= dinode_nlink d0 }.

Lemma drop_link_ok d : zlen d = 512 -> 1 <= read_u32 (zslice d 40 44) ->
  exists d', drop_link d = Ok d' /\ edits d 40 4 (write_u32 (read_u32 (zslice d 40 44) - 1)) d'.
Proof.
  intros Hz Hl. assert (Hr : read_u32 (zslice d 40 44) < 2 ^ 32) by (apply read_u32_range, length_zslice; lia).
  unfold drop_link. rewrite slice_ok by lia. cbn [obind]. rewrite sub_u32_ok by lia. cbn [obind]. apply put_u32_edits; lia.
Qed.

(** A second update of the page of the directory, under the one of the child. *)
Lemma update_hidden n (v v6 : Volume W) dirty child cb ck cnew parent pb pk pnew upd pnew' :
  vol_ok n v -> child <> parent -> meta_block v pb -> 0 <= pk < INOSPERPAGE -> zlen pnew = 512 -> zlen pnew' = 512 -> upd pnew = Ok pnew' ->
  txn v v6 (two_pages v parent pb pk pnew child cb ck cnew) dirty ->
  exists v7, update_inode_page parent pb (pk * DISIZE) upd v6 = (Ok tt, v7) /\
    txn v v7 [((parent, pb), new_page v pb pk pnew'); ((child, cb), over_page v [((parent, pb), new_page v pb pk pnew)] cb ck cnew)] dirty.
Proof.
  intros Hv Hne Hm Hk Hz Hz' Hu Ht. pose proof (ok_cap n v Hv) as Hcap. pose proof Hm as [(H0 & Hr & _) _]. pose proof (new_page_len v pb pk pnew Hm Hk Hz) as Hzp.
  pose proof (block_at_len _ _ H0 Hr) as Hbl. assert (Hkk : (parent, pb) <> (child, cb)) by (intros [=]; done).
  assert (Hpf : page_for (two_pages v parent pb pk pnew child cb ck cnew) (contents (v_storage v)) parent pb = new_page v pb pk pnew).
  { unfold page_for, two_pages. cbn [assoc]. by rewrite (decide_False _ _ Hkk), decide_True. }
  destruct (update_txn v v6 _ dirty parent pb (pk * DISIZE) upd pnew' Ht) as (v7 & Hrun & Ht7); try done; rewrite ?Hpf, ?Hzp; unfold DISIZE, INOSPERPAGE, BLOCK_SIZE, PSIZE in *.
  { change (zlen (two_pages _ _ _ _ _ _ _ _ _)) with 2. lia. } { lia. } { lia. } { unfold new_page, DISIZE. by rewrite zslice_zsplice_same by lia. }
  exists v7. split; [exact Hrun|]. rewrite Hpf in Ht7. unfold new_page at 1, DISIZE in Ht7. rewrite zsplice_over in Ht7 by lia.
  unfold two_pages in Ht7. cbn [unassoc] in Ht7. rewrite (decide_False _ _ Hkk), decide_True in Ht7 by done. exact Ht7.
Qed.

(** Removing an empty directory takes its name out of the parent, which loses a
    link, and frees the inode of the directory when the two lie in different
    blocks of the table; in a shared block the inode stays as it was. *)
Theorem rmdir_effect n (v : Volume W) parent name old d0 t es e cold d ct num
  (Hv : vol_ok n v) (Hn : 6 <= n) (Hc : can_rmdir v parent name old d0 t es e cold d ct num) :
  exists v' pnew dp cleared cb coff pb poff,
    slot_at v (de_inumber e) = Some (cb, coff) /\ slot_at v parent = Some (pb, poff) /\ clear_dinode cold = Ok cleared /\
    rmdir parent name v = (Ok true, v') /\ vol_ok (n - 6) v' /\
    dir_entries pnew = Ok (drop_name (encode_utf16 name) es) /\ dinode_parse pnew = Ok dp /\ dinode_nlink dp = dinode_nlink d0 - 1 /\
    forall i, inode_bytes v' i = if decide (i = parent) then Some pnew else
      if decide (i = de_inumber e) then (if decide (cb = pb) then Some cold else Some cleared) else inode_bytes v i.
Proof.
  destruct Hc as [Hp Htree Hwf Hes He Hch Hne Hd Hdir Hct Hnum Hle Hd0 Hlk]. set (child := de_inumber e) in *.
  destruct (inode_bytes_some n v parent old Hv Hp) as (pb & pk & Hsp & Hmp & Hpk & Hinp & Hold & Hzo).
  destruct (inode_bytes_some n v child cold Hv Hch) as (cb & ck & Hsc & Hmc & Hck & Hinc & Hcold & Hzc).
  destruct (begin_ok n v Hv) as (tx & v0 & Hb & Ht0).
  destruct (remove_dir_entry_ok n v v0 parent (encode_utf16 name) old t es e pb pk) as (v1 & root & Hr1 & Hzr & Hdent & Ht1); try done. fold child in Hr1.
  destruct (put_root_ok old root Hzo Hzr) as [_ Hzw]. pose proof (with_root_key old root Hzo Hzr) as Hkw. rewrite Hold in Hkw at 2. set (w := with_root old root) in *.
  assert (Hloc : (cb, ck * DISIZE) <> (pb, pk * DISIZE)) by (intros Heq; rewrite Heq in Hsc; apply Hne; by eapply (find_slot_inj _ _ child parent)).
  destruct (read_other n v v1 [] parent pb pk w child cb ck) as (d' & v2 & Hr2 & Ht2 & Hd'); try done. rewrite <- Hcold, Hd in Hd'. injection Hd' as <-.
  destruct (clear_dinode_spec cold Hzc) as (cleared & Hcl & Hzcl & Hkcl & _).
  destruct (update_other n v v2 [] parent pb pk w child cb ck clear_dinode cleared) as (v4 & Hr4 & Ht4); try done; [by rewrite <- Hcold|].
  destruct (mark_child_ok n v v4 child cb ck cleared parent pb pk w) as (dd & v5 & v6 & Hr5 & Hr6 & Ht6); try done; [by rewrite <- Hcold|].
  assert (H40 : zslice w 40 44 = zslice old 40 44) by (unfold w, with_root; rewrite zslice_app_l by (rewrite ?zlen_zslice; lia); by rewrite zslice_zslice by lia).
  destruct (dinode_parse_fields old d0 Hzo Hd0) as (_ & _ & Hnl0 & _). unfold dinode_nlink in Hlk. rewrite Hnl0 in Hlk.
  destruct (drop_link_ok w Hzw ltac:(by rewrite H40)) as (pnew & Hdrop & Hed). pose proof (ed_size _ _ _ _ _ Hed) as Hzn.
  destruct (update_hidden n v v6 [(child, cb)] child cb ck cleared parent pb pk w drop_link pnew) as (v7 & Hr7 & Ht7); try done.
  destruct (mark_txn v v7 _ [(child, cb)] parent pb Ht7) as (v8 & Hr8 & Ht8).
  rewrite bool_decide_eq_false_2 in Ht8 by (intros Hin%list_elem_of_singleton; injection Hin as ? ?; congruence).
  unfold promote in Ht8. cbn [assoc unassoc] in Ht8. rewrite decide_True in Ht8 by done. assert (Hkk : (parent, pb) <> (child, cb)) by (intros [=]; congruence).
  rewrite (decide_False _ _ Hkk) in Ht8. rewrite decide_True in Ht8 by done.
  destruct (commit_hidden_ok n v v8 child cb ck cleared parent pb pk w pnew) as (res & v' & Hr9 & Hok & Hby); try done; [by rewrite <- Hcold|rewrite <- Hkw; by frames|].
  destruct (dinode_parse_bytes pnew Hzn) as (dp & Hdp & _). destruct (dinode_parse_fields pnew dp Hzn Hdp) as (_ & _ & Hnlp & _ & _ & _ & Hup).
  exists v', pnew, dp, cleared, cb, (ck * DISIZE), pb, (pk * DISIZE). split_and!; try done.
  - unfold rmdir. rewrite (sbind_ok _ _ _ _ _ Hb), (sbind_ok _ _ _ _ _ Hr1), (sbind_ok _ _ _ _ _ Hr2). cbn [in_dinode in_page_block in_page_offset]. rewrite Hdir. cbn [negb].
    unfold sbind at 1, inode_dtree, slift. cbn [in_dinode]. rewrite Hct. unfold sbind at 1. rewrite Hnum. destruct (Z.ltb_spec 2 num); [lia|].
    rewrite (sbind_ok _ _ _ _ _ Hr4), (sbind_ok _ _ _ _ _ Hr5). unfold update_and_mark. unfold sbind at 1. rewrite (sbind_ok _ _ _ _ _ Hr6). cbn [in_page_block in_page_offset].
    rewrite (sbind_ok _ _ _ _ _ Hr7), Hr8. by rewrite (sbind_ok _ _ _ _ _ Hr9).
  - unfold dir_entries, dir_tree in *. rewrite Hdp. destruct (dinode_parse_bytes w Hzw) as (dw & Hdw & _).
    rewrite Hdw in Hdent. destruct (dinode_parse_fields w dw Hzw Hdw) as (_ & _ & _ & _ & _ & _ & Huw). unfold dinode_dtroot_bytes in *.
    rewrite Hup, (ed_frame _ _ _ _ _ Hed), <- Huw by lia. exact Hdent.
  - unfold dinode_nlink. rewrite Hnlp, Hnl0. change 44 with (40 + 4) at 1. rewrite (ed_here _ _ _ _ _ Hed), H40, read_write_u32; [done|].
    assert (read_u32 (zslice old 40 44) < 2 ^ 32) by (apply read_u32_range, length_zslice; lia). lia.
  - intros i. rewrite Hby. by repeat case_decide.
Qed.
End link.

(** ** Witnesses *)

Section witnesses.
#[local] Existing Instance le_codec.
#[local] Existing Instance le_codec_spec.
#[local] Existing Instance sample_order.
#[local] Existing Instance sample_order_spec.
#[local] Existing Instance sample_flags.

Lemma one_file_can_link : can_link one_file 18 [98] 17 one_file_root one_file_tree (sample_entries ++ [mkDirEntry 17 [97] 2]) one_file_child one_file_dinode.
Proof.
  split.
  - vm_compute. reflexivity.
  - split.
    + vm_compute. reflexivity.
    + apply (bool_decide_unpack _). vm_compute. exact I.
    + vm_compute. reflexivity.
    + vm_compute. repeat constructor; discriminate.
    + vm_compute. reflexivity.
    + apply (bool_decide_unpack _). vm_compute. exact I.
    + split; [apply (bool_decide_unpack _); vm_compute; exact I|vm_compute; discriminate].
  - discriminate.
  - vm_compute. reflexivity.
  - discriminate.
  - split; [discriminate|reflexivity].
  - vm_compute. reflexivity.
  - vm_compute. reflexivity.
  - vm_compute. reflexivity.
Qed.

(** The second name of the file [a]; file and directory share a block. *)
Lemma link_file_effect_witness :
  exists v', link_file 18 [98] 17 one_file = (Ok 17, v') /\ inode_bytes v' 17 = Some one_file_child.
Proof.
  destruct (link_file_effect 100 one_file 18 [98] 17 one_file_root one_file_tree (sample_entries ++ [mkDirEntry 17 [97] 2]) one_file_child one_file_dinode)
    as (v' & root & tnew & td' & tb & toff & pb & poff & Ht & Hp & Hr & _ & _ & _ & _ & _ & _ & Hby).
  - apply volume_on_ok; [split|]; vm_compute; reflexivity || discriminate.
  - lia.
  - exact one_file_can_link.
  - exists v'. split; [exact Hr|]. rewrite Hby.
    assert (Hsame : slot_at one_file 17 = Some (0, 512) /\ slot_at one_file 18 = Some (0, 0)) by (split; vm_compute; reflexivity).
    destruct Hsame as [H17 H18]. rewrite H17 in Ht. rewrite H18 in Hp. injection Ht as <- _. injection Hp as <- _. reflexivity.
Defined.

Definition one_dir : Volume MemoryStorage := volume_on (v_storage (mkdir 18 [97] sample_volume).2).
Definition one_dir_root : list byte := default [] (inode_bytes one_dir 18).
Definition one_dir_root_dinode : Dinode := match dinode_parse one_dir_root with Ok d => d | _ => dinode_default end.
Definition one_dir_tree : Dtree := match dir_tree one_dir_root with Ok t => t | _ => mkDtree [] 0 end.
Definition one_dir_child : list byte := default [] (inode_bytes one_dir 17).
Definition one_dir_dinode : Dinode := match dinode_parse one_dir_child with Ok d => d | _ => dinode_default end.
Definition one_dir_child_tree : Dtree := match dir_tree one_dir_child with Ok t => t | _ => mkDtree [] 0 end.

Lemma one_dir_can_rmdir :
  can_rmdir one_dir 18 [97] one_dir_root one_dir_root_dinode one_dir_tree (sample_entries ++ [mkDirEntry 17 [97] 2]) (mkDirEntry 17 [97] 2)
    one_dir_child one_dir_dinode one_dir_child_tree 2.
Proof. split; try (vm_compute; reflexivity || discriminate). apply (bool_decide_unpack _). vm_compute. exact I. Qed.

(** The directory [a] shares the block of the root: its name goes, its inode stays. *)
Lemma rmdir_effect_witness :
  exists v', rmdir 18 [97] one_dir = (Ok true, v') /\ inode_bytes v' 17 = Some one_dir_child.
Proof.
  destruct (rmdir_effect 100 one_dir 18 [97] one_dir_root one_dir_root_dinode one_dir_tree (sample_entries ++ [mkDirEntry 17 [97] 2]) (mkDirEntry 17 [97] 2)
    one_dir_child one_dir_dinode one_dir_child_tree 2) as (v' & pnew & dp & cleared & cb & coff & pb & poff & Hc & Hp & _ & Hr & _ & _ & _ & _ & Hby).
  - apply volume_on_ok; [split|]; vm_compute; reflexivity || discriminate.
  - lia.
  - exact one_dir_can_rmdir.
  - exists v'. split; [exact Hr|]. rewrite Hby. cbn [de_inumber] in *.
    assert (Hsame : slot_at one_dir 17 = Some (0, 512) /\ slot_at one_dir 18 = Some (0, 0)) by (split; vm_compute; reflexivity).
    destruct Hsame as [H17 H18]. rewrite H17 in Hc. rewrite H18 in Hp. injection Hc as <- _. injection Hp as <- _. reflexivity.
Defined.
End witnesses.
