(* ===== verification/FileData.v ===== *)
(** * The data of a file

    [write_at] on blocks that the extent tree maps: the loops of the write as a
    fold over the device blocks ([put_block]), what the fold leaves in the
    blocks, and the whole call, which changes the data, the size of the inode
    and nothing else. *)

From stdpp Require Import gmap.
From Stdlib Require Import ZArith Lia.
From S2P Require Import Prelude Types Storage PageCache Dmap Xtree LogMgr Devices Recovery Transaction Inode Volume VolumeData VolumeOps VolumeTx DinodeEdit InodeTable Sample.

(** ** The blocks of a write *)

(** The device, the offset in the next block and the bytes left: what one
    block of the file takes. *)
Definition put_block (st : list byte * Z * list byte) (a : Z) : list byte * Z * list byte :=
  let '(c, boff, rest) := st in
  if zlen rest =? 0 then st else
  let n := Z.min (BLOCK_SIZE - boff) (zlen rest) in
  (zsplice c (a * BLOCK_SIZE) (zsplice (block_at c a) boff (zslice rest 0 n)), 0, zslice rest n (zlen rest)).

Definition on_device (c : list byte) (a : Z) : Prop := 0 <= a /\ a * BLOCK_SIZE + BLOCK_SIZE <= zlen c.

Lemma put_block_done c boff addrs : fold_left put_block addrs (c, boff, []) = (c, boff, []).
Proof. by induction addrs. Qed.

Lemma new_block_len (c : list byte) a boff (rest : list byte) n :
  on_device c a -> 0 <= boff < BLOCK_SIZE -> n = Z.min (BLOCK_SIZE - boff) (zlen rest) ->
  zlen (zsplice (block_at c a) boff (zslice rest 0 n)) = BLOCK_SIZE.
Proof.
  intros [H0 Hr] Hb ->. pose proof (block_at_len c a H0 Hr). pose proof (zlen_nonneg rest). unfold BLOCK_SIZE, PSIZE in *.
  rewrite zlen_zsplice; rewrite ?zlen_zslice; lia.
Qed.

Lemma put_block_len c a boff rest c' boff' rest' :
  on_device c a -> 0 <= boff < BLOCK_SIZE -> put_block (c, boff, rest) a = (c', boff', rest') ->
  zlen c' = zlen c /\ 0 <= boff' < BLOCK_SIZE /\ forall b, 0 <= b -> b <> a -> block_at c' b = block_at c b.
Proof.
  intros Hd Hb. unfold put_block. destruct (zlen rest =? 0); [by intros [= <- <- <-]|]. intros [= <- <- <-].
  pose proof (new_block_len c a boff rest _ Hd Hb eq_refl) as Hn. destruct Hd as [H0 Hr].
  split_and!; [rewrite zlen_zsplice; unfold BLOCK_SIZE, PSIZE in *; lia|done|done|]. intros b Hb0 Hne. rewrite block_at_zsplice by done. by rewrite decide_False.
Qed.

(** The blocks that are not written keep their contents. *)
Lemma put_blocks_frame addrs : forall c boff rest c' boff' rest',
  Forall (on_device c) addrs -> 0 <= boff < BLOCK_SIZE -> fold_left put_block addrs (c, boff, rest) = (c', boff', rest') ->
  zlen c' = zlen c /\ 0 <= boff' < BLOCK_SIZE /\ forall b, 0 <= b -> b ∉ addrs -> block_at c' b = block_at c b.
Proof.
  induction addrs as [|a addrs IH]; intros c boff rest c' boff' rest' Hd Hb Hf; cbn [fold_left] in Hf.
  - injection Hf as <- <- <-. done.
  - apply Forall_cons in Hd as [Ha Hd]. destruct (put_block (c, boff, rest) a) as [[c1 boff1] rest1] eqn:E.
    destruct (put_block_len _ _ _ _ _ _ _ Ha Hb E) as (Hz & Hb1 & Hk).
    destruct (IH c1 boff1 rest1 c' boff' rest') as (Hz' & Hb' & Hk'); [|done|done|].
    { eapply Forall_impl; [exact Hd|]. unfold on_device. by rewrite Hz. }
    split_and!; [congruence|apply Hb'..|]. intros b Hb0 [Hne Hin]%not_elem_of_cons. rewrite Hk' by done. by apply Hk.
Qed.

Lemma zsplice_app_both {A} (l1 l2 d1 d2 : list A) a :
  0 <= a -> a + zlen d1 = zlen l1 -> zlen d2 <= zlen l2 -> zsplice (l1 ++ l2) a (d1 ++ d2) = zsplice l1 a d1 ++ zsplice l2 0 d2.
Proof.
  intros Ha H1 H2. pose proof (zlen_nonneg l1). pose proof (zlen_nonneg l2). pose proof (zlen_nonneg d1). pose proof (zlen_nonneg d2).
  rewrite (zsplice_split _ (d1 ++ d2) a (zlen l1 + zlen d2)), (zsplice_split l1 d1 a (zlen l1)), (zsplice_split l2 d2 0 (zlen d2)) by (rewrite ?zlen_app; lia).
  rewrite zslice_app_l, zslice_app_r, zlen_app by lia. replace (zslice l1 (zlen l1) (zlen l1)) with (@nil A) by (unfold zslice; by rewrite Z.sub_diag).
  replace (zslice l2 0 0) with (@nil A) by done. rewrite app_nil_r, !Z.add_simpl_l, <- !app_assoc. done.
Qed.

Lemma zsplice_app_first {A} (l1 l2 d : list A) a :
  0 <= a -> a + zlen d <= zlen l1 -> zsplice (l1 ++ l2) a d = zsplice l1 a d ++ l2.
Proof. intros Ha H1. unfold zsplice, zlen in *. rewrite take_app_le, drop_app_le by lia. by rewrite <- !app_assoc. Qed.

Lemma blocks_len (c : list byte) addrs : Forall (on_device c) addrs -> zlen (concat (block_at c <$> addrs)) = zlen addrs * BLOCK_SIZE.
Proof.
  induction 1 as [|a addrs [H0 Hr] _ IH]; [done|]. cbn [fmap list_fmap concat]. rewrite zlen_app, zlen_cons, IH, block_at_len by done. unfold BLOCK_SIZE, PSIZE. lia.
Qed.

(** A write puts its bytes into the blocks, in order. *)
Lemma put_blocks_file addrs : forall c boff rest,
  Forall (on_device c) addrs -> NoDup addrs -> 0 <= boff < BLOCK_SIZE -> boff + zlen rest <= zlen addrs * BLOCK_SIZE ->
  exists c' boff', fold_left put_block addrs (c, boff, rest) = (c', boff', []) /\
    concat (block_at c' <$> addrs) = zsplice (concat (block_at c <$> addrs)) boff rest.
Proof.
  induction addrs as [|a addrs IH]; intros c boff rest Hd Hnd Hb Hl; cbn [fold_left fmap list_fmap concat].
  { assert (rest = []) as -> by (destruct rest; [done|]; rewrite zlen_cons in Hl; change (zlen (@nil Z)) with 0 in Hl; pose proof (zlen_nonneg rest); lia).
    exists c, boff. by rewrite zsplice_nil. }
  destruct (decide (rest = [])) as [->|Hne].
  { exists c, boff. change (put_block (c, boff, []) a) with (c, boff, @nil byte). rewrite put_block_done. split; [done|]. by rewrite zsplice_nil. }
  apply Forall_cons in Hd as [Ha Hd]. apply NoDup_cons in Hnd as [Hin Hnd]. rewrite zlen_cons in Hl.
  assert (Hr0 : 0 < zlen rest) by (destruct rest; [done|]; rewrite zlen_cons; pose proof (zlen_nonneg rest); lia).
  cbn [put_block]. destruct (Z.eqb_spec (zlen rest) 0) as [|_]; [lia|]. set (n := Z.min (BLOCK_SIZE - boff) (zlen rest)).
  set (blk := zsplice (block_at c a) boff (zslice rest 0 n)). set (c1 := zsplice c (a * BLOCK_SIZE) blk).
  assert (Hblk : zlen blk = BLOCK_SIZE) by (by apply new_block_len). pose proof Ha as [H0 Hr].
  assert (Hz1 : zlen c1 = zlen c) by (unfold c1; rewrite zlen_zsplice; unfold BLOCK_SIZE, PSIZE in *; lia).
  assert (Hd1 : Forall (on_device c1) addrs) by (eapply Forall_impl; [exact Hd|]; unfold on_device; by rewrite Hz1).
  assert (Hzr : zlen (zslice rest n (zlen rest)) = zlen rest - n) by (apply zlen_zslice; unfold n, BLOCK_SIZE, PSIZE in *; lia).
  destruct (IH c1 0 (zslice rest n (zlen rest)) Hd1 Hnd) as (c' & boff' & Hf & Hfile); [done| |].
  { rewrite Hzr. pose proof (zlen_nonneg addrs). unfold n, BLOCK_SIZE, PSIZE in *. lia. }
  exists c', boff'. split; [exact Hf|]. destruct (put_blocks_frame addrs c1 0 _ _ _ _ Hd1 ltac:(done) Hf) as (_ & _ & Hk).
  rewrite Hfile, (Hk a H0 Hin). unfold c1 at 1. rewrite block_at_zsplice, decide_True by done.
  assert (Hsame : block_at c1 <$> addrs = block_at c <$> addrs).
  { apply list_fmap_ext. intros i b Hi. rewrite Forall_forall in Hd. apply list_elem_of_lookup_2 in Hi as Hbi. destruct (Hd b Hbi) as [Hb0 _].
    unfold c1. rewrite block_at_zsplice by done. rewrite decide_False; [done|]. by intros ->. }
  rewrite Hsame. unfold blk. pose proof (block_at_len c a H0 Hr) as Hbl. pose proof (blocks_len c addrs Hd) as Hbz. pose proof (zlen_nonneg addrs).
  assert (Hsplit : rest = zslice rest 0 n ++ zslice rest n (zlen rest)) by (rewrite zslice_cat by (unfold n, BLOCK_SIZE, PSIZE in *; lia); by rewrite zslice_all).
  assert (Hzn : zlen (zslice rest 0 n) = n) by (rewrite zlen_zslice; unfold n, BLOCK_SIZE, PSIZE in *; lia).
  destruct (Z.leb_spec (zlen rest) (BLOCK_SIZE - boff)) as [Hle|Hgt].
  - assert (n = zlen rest) as Hn by (unfold n; lia). rewrite Hn. rewrite (zslice_all rest) by done.
    replace (zslice rest (zlen rest) (zlen rest)) with (@nil byte) by (unfold zslice; by rewrite Z.sub_diag). rewrite zsplice_nil.
    rewrite zsplice_app_first by (unfold BLOCK_SIZE, PSIZE in *; lia). done.
  - transitivity (zsplice (block_at c a ++ concat (block_at c <$> addrs)) boff (zslice rest 0 n ++ zslice rest n (zlen rest))); [|by rewrite <- Hsplit].
    rewrite zsplice_app_both; [done|lia|unfold n, BLOCK_SIZE, PSIZE in *; lia|]. rewrite Hzr, Hbz. unfold n, BLOCK_SIZE, PSIZE in *. lia.
Qed.

Section file_data.
Context {LE : LittleEndian} {LES : LittleEndianSpec} {L : Lru PageKey CachedPage} {LS : LruSpec PageKey CachedPage} {XF : XadFlags}.
Context {HO : HashOrder} {HOS : HashOrderSpec} {W : Type} {FS : Storage W} {SS : StorageSpec W} {SR : StorageReliable W}.
Abbreviation VM := (ST (Volume W) StorageError).

(** ** The loops *)

Section loops.
Context (data : list byte).

(** The variables of the loops while nothing but data is written. *)
Record writing (xtree : XtRoot) (st : WriteState) (boff : Z) (rest : list byte) : Prop := {
  wr_boff : ws_boff st = boff;
  wr_pos : 0 <= ws_pos st <= zlen data;
  wr_rest : rest = zslice data (ws_pos st) (zlen data);
  wr_remaining : ws_remaining st = zlen data - ws_pos st;
  wr_written : ws_written st = ws_pos st;
  wr_tree : ws_xtree st = xtree;
  wr_same : ws_modified st = false }.

Lemma writing_len xtree st boff rest : writing xtree st boff rest -> zlen rest = ws_remaining st.
Proof. intros Hw. rewrite (wr_rest _ _ _ _ Hw), (wr_remaining _ _ _ _ Hw). destruct (wr_pos _ _ _ _ Hw). apply zlen_zslice; lia. Qed.

Lemma writing_checked xtree st boff rest (v : Volume W) :
  writing xtree st boff rest -> exists st', checked (fun _ => false) st v = (Ok st', v) /\ writing xtree st' boff rest.
Proof. intros Hw. eexists. split; [reflexivity|]. destruct Hw. by split. Qed.

Lemma read_block_run b (w : W) :
  st_wf w -> on_device (contents w) b -> exists w', read_block b w = (Ok (block_at (contents w) b), w') /\ st_wf w' /\ contents w' = contents w.
Proof.
  intros Hw [H0 Hr]. pose proof (st_read_block_ok b w Hw H0 Hr) as Hok. destruct (st_read_block b w Hw H0) as (Hw' & Hc & _).
  destruct (read_block b w) as [o w']. cbn [fst snd] in *. subst o. by exists w'.
Qed.

Lemma write_existing_ok xtree addr blks : forall st boff rest (v : Volume W) w,
  writing xtree st boff rest -> st_wf w -> 0 <= boff < BLOCK_SIZE -> Forall (fun i => on_device (contents w) (addr + i)) blks ->
  exists st' boff' rest' w', write_existing (fun _ => false) data addr blks st (v_with_dev w v) = (Ok st', v_with_dev w' v) /\ st_wf w' /\
    fold_left put_block (Z.add addr <$> blks) (contents w, boff, rest) = (contents w', boff', rest') /\ writing xtree st' boff' rest'.
Proof.
  induction blks as [|i blks IH]; intros st boff rest v w Hwr Hw Hb Hd; [by exists st, boff, rest, w|]. cbn [write_existing fmap list_fmap fold_left].
  apply Forall_cons in Hd as [Hi Hd]. destruct (writing_checked _ _ _ _ (v_with_dev w v) Hwr) as (st1 & Hc & Hwr1). rewrite (sbind_ok _ _ _ _ _ Hc).
  pose proof (writing_len _ _ _ _ Hwr1) as Hlen. unfold put_block at 2. rewrite Hlen. destruct (Z.eqb_spec (ws_remaining st1) 0) as [Hz|Hnz].
  { assert (rest = []) as -> by (destruct rest; [done|]; rewrite zlen_cons in Hlen; pose proof (zlen_nonneg rest); lia).
    exists st1, boff, [], w. by rewrite put_block_done. }
  destruct (read_block_run (addr + i) w Hw Hi) as (w1 & Hr & Hw1 & Hc1).
  assert (Hrv : on_storage (read_block (addr + i)) (v_with_dev w v) = (Ok (block_at (contents w) (addr + i)), v_with_dev w1 v)).
  { unfold on_storage. cbn [v_with_dev v_set v_storage]. by rewrite Hr. }
  rewrite (sbind_ok _ _ _ _ _ Hrv). destruct Hwr1 as [E1 E2 E3 E4 E5 E6 E7]. rewrite E1. set (n := Z.min (BLOCK_SIZE - boff) (ws_remaining st1)).
  assert (Hn : 0 < n <= ws_remaining st1) by (unfold n; lia). unfold sbind at 1, slift. rewrite slice_ok by lia.
  assert (Hpart : zslice data (ws_pos st1) (ws_pos st1 + n) = zslice rest 0 n) by (rewrite E3, zslice_zslice by lia; f_equal; lia).
  rewrite Hpart. pose proof Hi as [Hi0 Hir]. pose proof (block_at_len _ _ Hi0 Hir) as Hbl.
  assert (Hzp : zlen (zslice rest 0 n) = n) by (rewrite zlen_zslice; lia).
  assert (Hfit : boff + zlen (zslice rest 0 n) <= zlen (block_at (contents w) (addr + i))) by (rewrite Hzp, Hbl; unfold n, BLOCK_SIZE, PSIZE in *; lia).
  unfold sbind at 1. rewrite splice_ok by lia. set (blk := zsplice _ boff (zslice rest 0 n)).
  assert (Hblk : zlen blk = BLOCK_SIZE) by (apply new_block_len; [done|done|unfold n; congruence]).
  destruct (write_block_run (addr + i) blk w1 Hw1 Hi0 Hblk) as (w2 & Hwr2 & Hw2 & Hc2); [by rewrite Hc1|].
  assert (Hwv : on_storage (write_block (addr + i) blk) (v_with_dev w1 v) = (Ok tt, v_with_dev w2 v)).
  { unfold on_storage. cbn [v_with_dev v_set v_storage]. by rewrite Hwr2. }
  rewrite (sbind_ok _ _ _ _ _ Hwv). rewrite Hc1 in Hc2. rewrite <- Hc2. apply IH; [|done|done|].
  - split; cbn [ws_advance ws_boff ws_pos ws_remaining ws_written ws_xtree ws_modified]; try done; [lia| |lia|lia]. rewrite E3 at 1. rewrite <- Hlen, E3.
    rewrite (zlen_zslice data) by lia. rewrite zslice_zslice by lia. f_equal; lia.
  - eapply Forall_impl; [exact Hd|]. intros j. unfold on_device. rewrite Hc2, zlen_zsplice; [done|unfold BLOCK_SIZE, PSIZE in *; lia..].
Qed.

Lemma write_runs_ok xtree runs : forall st boff rest (v : Volume W) w,
  writing xtree st boff rest -> st_wf w -> 0 <= boff < BLOCK_SIZE -> Forall (fun e => 0 < e.1) runs -> Forall (on_device (contents w)) (run_blocks runs) ->
  exists st' boff' rest' w', write_runs (fun _ => false) data runs st (v_with_dev w v) = (Ok st', v_with_dev w' v) /\ st_wf w' /\
    fold_left put_block (run_blocks runs) (contents w, boff, rest) = (contents w', boff', rest') /\ writing xtree st' boff' rest'.
Proof.
  induction runs as [|[a n] runs IH]; intros st boff rest v w Hwr Hw Hb Hp Hd; [by exists st, boff, rest, w|]. cbn [write_runs].
  change (run_blocks ((a, n) :: runs)) with (seqZ a n ++ run_blocks runs) in *. rewrite fold_left_app. apply Forall_app in Hd as [Hd1 Hd2].
  apply Forall_cons in Hp as [Ha Hp]. cbn [fst] in Ha. destruct (writing_checked _ _ _ _ (v_with_dev w v) Hwr) as (st1 & Hc & Hwr1). rewrite (sbind_ok _ _ _ _ _ Hc).
  destruct (Z.eqb_spec (ws_remaining st1) 0) as [Hz|Hnz].
  { pose proof (writing_len _ _ _ _ Hwr1) as Hlen. assert (rest = []) as -> by (destruct rest; [done|]; rewrite zlen_cons in Hlen; pose proof (zlen_nonneg rest); lia).
    exists st1, boff, [], w. by rewrite !put_block_done. }
  assert (Hblk : Z.add a <$> range 0 n = seqZ a n) by (rewrite fmap_add_range; unfold range; f_equal; lia).
  destruct (write_existing_ok xtree a (range 0 n) st1 boff rest v w Hwr1 Hw Hb) as (st2 & boff2 & rest2 & w2 & Hrun & Hw2 & Hf2 & Hwr2).
  { rewrite <- Hblk in Hd1. by rewrite Forall_fmap in Hd1. }
  rewrite Hblk in Hf2. rewrite Hf2. destruct (put_blocks_frame _ _ _ _ _ _ _ Hd1 Hb Hf2) as (Hz2 & Hb2 & _).
  assert (Hm : write_run (fun _ => false) data (a, n) st1 (v_with_dev w v) =
    (Ok (mkWrite (ws_written st2) (ws_pos st2) (ws_remaining st2) (ws_boff st2) (ws_logical st2 + n) (ws_xtree st2) (ws_modified st2) (ws_checks st2)), v_with_dev w2 v)).
  { unfold write_run. destruct (Z.eqb_spec a 0); [lia|]. unfold write_mapped. by rewrite (sbind_ok _ _ _ _ _ Hrun). }
  rewrite (sbind_ok _ _ _ _ _ Hm). apply IH; try done; [by destruct Hwr2|]. eapply Forall_impl; [exact Hd2|]. unfold on_device. by rewrite Hz2.
Qed.
End loops.

(** ** The volume around the data *)

(** A block that the inode table, the journal and the allocation map do not
    use. *)
Definition data_block (v : Volume W) (a : Z) : Prop :=
  0 < a /\ meta_block v a /\ (a ∈ table_blocks (table_view v) -> v_agg_size v <= a).

Lemma data_not_slot (v : Volume W) a b off : data_block v a -> (b, off) ∈ table_slots (table_view v) -> a <> b.
Proof.
  intros (_ & _ & Hta) Hin ->. apply list_elem_of_In, in_flat_map in Hin as (b0 & [Hb0 Ha]%List.filter_In & Hin). apply in_map_iff in Hin as (i & [= -> _] & _).
  apply list_elem_of_In in Hb0. specialize (Hta Hb0). cbn in Ha. destruct (Z.leb_spec (v_agg_size v) b); [done|lia].
Qed.

(** Changing data blocks is changing the volume under the transaction. *)
Lemma vol_ok_data n (v : Volume W) w' :
  vol_ok n v -> st_wf w' -> zlen (contents w') = zlen (contents (v_storage v)) ->
  (forall b, b ∈ table_blocks (table_view v) -> b < v_agg_size v -> block_at (contents w') b = block_at (contents (v_storage v)) b) ->
  vol_ok n (v_with_dev w' v) /\ (forall i, slot_at (v_with_dev w' v) i = slot_at v i) /\ forall i, inode_bytes (v_with_dev w' v) i = inode_bytes v i.
Proof.
  intros Hv Hw Hz Hk. assert (Hok : vol_ok n (v_with_dev w' v)).
  { destruct Hv as [[H1 H2 H3 H4 H6 H7 H8 H9] H5]. split; [|done]. split; try done.
    - unfold journal_ready, lm_space in *. cbn [v_with_dev v_set v_log v_storage]. destruct (v_log v); [by rewrite Hz|done].
    - eapply bmap_ready_len; [exact Hz|done|exact H4].
    - intros b Hb Ha. apply (meta_block_same v); [done|done|exact Hz|by apply H9]. }
  assert (Hs : forall loc, loc ∈ table_slots (table_view v) -> slot_of [] (contents w') loc = slot_of [] (contents (v_storage v)) loc).
  { intros loc Hin%list_elem_of_In. apply in_flat_map in Hin as (b & [Hb Ha]%List.filter_In & Hin). apply in_map_iff in Hin as (i & <- & _).
    unfold slot_of, view_block. cbn [List.find fst snd]. rewrite Hk; [done|by apply list_elem_of_In|]. cbn [table_view tv_agg_size] in Ha. destruct (Z.leb_spec (v_agg_size v) b); [done|lia]. }
  assert (Hsl : forall i, slot_at (v_with_dev w' v) i = slot_at v i).
  { intros i. rewrite <- (txn_slot_nil n), <- (txn_slot_nil n v) by done. unfold txn_slot. by apply find_slot_ext. }
  split_and!; try done. intros i. rewrite !(inode_bytes_nil n) by done. rewrite Hsl. destruct (slot_at v i) as [loc|] eqn:E; [|done].
  cbn [fmap option_fmap option_map]. f_equal. apply Hs. rewrite <- (txn_slot_nil n v) in E by done. by eapply find_slot_elem.
Qed.

Lemma txn_data (v v1 : Volume W) l dirty w' :
  txn v v1 l dirty -> st_wf w' -> txn (v_with_dev w' v) (v_with_dev w' v1) l dirty.
Proof. intros [] Hw. by split. Qed.

(** ** Writing *)

(** A file: an inode with a valid extent tree. *)
Record file_at (v : Volume W) (ino : Z) (old : list byte) (d : Dinode) (r : XtRoot) : Prop := {
  fa_bytes : inode_bytes v ino = Some old;
  fa_dinode : dinode_parse old = Ok d;
  fa_tree : xt_from_inode_data (dinode_xtroot_bytes d) = Ok r;
  fa_valid : xt_validate r = Ok tt }.

Lemma file_tree n (v : Volume W) ino old d r : vol_ok n v -> file_at v ino old d r -> zlen old = 512 /\ wf_xtroot r /\ xt_to_bytes r = Ok (dinode_xtroot_bytes d).
Proof.
  intros Hv [Hb Hd Ht _]. destruct (inode_bytes_some n v ino old Hv Hb) as (_ & _ & _ & _ & _ & _ & _ & Hz). split; [done|].
  destruct (dinode_parse_fields old d Hz Hd) as (_ & _ & _ & _ & _ & _ & Hdu).
  destruct (xt_parse_print (dinode_xtroot_bytes d)) as (r' & Hr & Hwf & Hp); [unfold dinode_xtroot_bytes; rewrite Hdu, zlen_zslice; rewrite ?zlen_zslice; lia|].
  rewrite Hr in Ht. injection Ht as <-. done.
Qed.

(** The device blocks of the bytes [offset, offset + len) of a file. *)
Record range_at (v : Volume W) (r : XtRoot) (offset len : Z) (addrs : list Z) : Prop := {
  ra_offset : 0 <= offset;
  ra_fits : offset + len + 2 * BLOCK_SIZE < 2 ^ 64 /\ len + 2 * BLOCK_SIZE < 2 ^ 44;
  ra_addrs : Some <$> addrs = phys (xt_slots r) <$> seqZ (offset / BLOCK_SIZE) ((len + offset mod BLOCK_SIZE + BLOCK_SIZE - 1) / BLOCK_SIZE);
  ra_distinct : NoDup addrs;
  ra_data : Forall (data_block v) addrs }.

(** The bytes in the blocks. *)
Definition blocks_of (v : Volume W) (addrs : list Z) : list byte := concat (block_at (contents (v_storage v)) <$> addrs).

Lemma data_on_device (v : Volume W) addrs : Forall (data_block v) addrs -> Forall (on_device (contents (v_storage v))) addrs.
Proof. intros H. eapply Forall_impl; [exact H|]. intros a (_ & [(H0 & Hr & _) _] & _). done. Qed.

Lemma range_len (v : Volume W) r offset len addrs :
  range_at v r offset len addrs -> 0 <= len -> zlen addrs = (len + offset mod BLOCK_SIZE + BLOCK_SIZE - 1) / BLOCK_SIZE /\ offset mod BLOCK_SIZE + len <= zlen addrs * BLOCK_SIZE.
Proof.
  intros [H0 _ Ha _ _] Hl. pose proof (Z.mod_pos_bound offset BLOCK_SIZE ltac:(done)) as Hm. set (k := len + offset mod BLOCK_SIZE + BLOCK_SIZE - 1) in *.
  assert (Hk : 0 <= k / BLOCK_SIZE) by (apply Z.div_pos; unfold k, BLOCK_SIZE, PSIZE in *; lia).
  assert (Hz : zlen addrs = k / BLOCK_SIZE).
  { rewrite <- (zlen_fmap Some addrs), Ha, zlen_fmap. unfold zlen. rewrite length_seqZ. lia. }
  split; [done|]. rewrite Hz. unfold k, BLOCK_SIZE, PSIZE in *. pose proof (Z.div_mod (len + offset mod 4096 + 4096 - 1) 4096 ltac:(done)).
  pose proof (Z.mod_pos_bound (len + offset mod 4096 + 4096 - 1) 4096 ltac:(done)). lia.
Qed.

(** The data part of the call: the blocks are written, the tree is not. *)
Lemma write_data_ok n (v v2 : Volume W) r offset data addrs :
  vol_ok n v -> txn v v2 [] [] -> wf_xtroot r -> xt_validate r = Ok tt -> range_at v r offset (zlen data) addrs ->
  exists runs st w', map_blocks from_bits_truncate (offset / BLOCK_SIZE) (as_u32 ((zlen data + offset mod BLOCK_SIZE + BLOCK_SIZE - 1) / BLOCK_SIZE)) r = Ok runs /\
    write_runs (fun _ => false) data runs (mkWrite 0 0 (zlen data) (offset mod BLOCK_SIZE) (offset / BLOCK_SIZE) r false 0) v2 = (Ok st, v_with_dev w' v2) /\
    ws_written st = zlen data /\ ws_modified st = false /\ st_wf w' /\ zlen (contents w') = zlen (contents (v_storage v)) /\
    (forall b, 0 <= b -> b ∉ addrs -> block_at (contents w') b = block_at (contents (v_storage v)) b) /\
    concat (block_at (contents w') <$> addrs) = zsplice (blocks_of v addrs) (offset mod BLOCK_SIZE) data.
Proof.
  intros Hv Ht Hwf Hval Hra. pose proof (zlen_nonneg data) as Hl0. destruct (range_len v r offset (zlen data) addrs Hra Hl0) as [Hza Hfit].
  pose proof Hra as [H0 [Hf1 Hf2] Ha Hnd Hda]. pose proof (Z.mod_pos_bound offset BLOCK_SIZE ltac:(done)) as Hm.
  set (cnt := (zlen data + offset mod BLOCK_SIZE + BLOCK_SIZE - 1) / BLOCK_SIZE) in *.
  assert (Hcnt : 0 <= cnt < 2 ^ 32 /\ offset / BLOCK_SIZE + cnt < 2 ^ 64).
  { unfold cnt, BLOCK_SIZE, PSIZE in *. split; [split; [apply Z.div_pos; lia|apply Z.div_lt_upper_bound; lia]|].
    pose proof (Z.div_mod offset 4096 ltac:(done)). pose proof (Z.mul_div_le (zlen data + offset mod 4096 + 4096 - 1) 4096). lia. }
  rewrite as_u32_small by lia.
  destruct (map_blocks_mapped from_bits_truncate (offset / BLOCK_SIZE) cnt r addrs Hwf Hval) as (runs & Hmb & Hrb & Hfa); [apply Z.div_pos; [lia|done]|lia|lia|done|].
  assert (Hpos : Forall (fun e => 0 < e.1) runs).
  { rewrite <- Hrb in Hda. clear -Hfa Hda. induction Hfa as [|[a k] runs Hk Hfa IH]; [constructor|]. cbn [fst snd] in *.
    change (run_blocks ((a, k) :: runs)) with (seqZ a k ++ run_blocks runs) in Hda. apply Forall_app in Hda as [H1 H2]. constructor; [|by apply IH].
    cbn [fst]. rewrite Forall_seqZ in H1. destruct (H1 a ltac:(lia)) as [? _]. lia. }
  pose proof (data_on_device v addrs Hda) as Hod. pose proof (tn_contents _ _ _ _ Ht) as Hc.
  assert (Hself : v2 = v_with_dev (v_storage v2) v2) by (by destruct v2).
  destruct (write_runs_ok data r runs (mkWrite 0 0 (zlen data) (offset mod BLOCK_SIZE) (offset / BLOCK_SIZE) r false 0) (offset mod BLOCK_SIZE) data v2 (v_storage v2))
    as (st & boff' & rest' & w' & Hrun & Hw' & Hfold & Hwr); [|apply Ht|done|done|by rewrite Hc, Hrb|].
  { split; cbn; try done; [by rewrite zslice_all|lia]. }
  rewrite <- Hself in Hrun. rewrite Hrb, Hc in Hfold.
  destruct (put_blocks_file addrs (contents (v_storage v)) (offset mod BLOCK_SIZE) data Hod Hnd Hm Hfit) as (c' & boff2 & Hfold2 & Hfile).
  rewrite Hfold in Hfold2. injection Hfold2 as <- -> ->. destruct (put_blocks_frame _ _ _ _ _ _ _ Hod Hm Hfold) as (Hz & _ & Hk).
  exists runs, st, w'. pose proof (writing_len _ _ _ _ _ Hwr) as Hrem. change (zlen []) with 0 in Hrem. destruct Hwr as [_ Hp _ Hr2 Hwn _ Hmod].
  split_and!; try done; lia.
Qed.

(** The inode after a write that ends at [stop]. *)
Lemma grow_ok n (v v2 : Volume W) ino b k old d stop :
  vol_ok n v -> 4 <= n -> txn v v2 [] [] -> slot_at v ino = Some (b, k * DISIZE) -> meta_block v b -> 0 <= k < INOSPERPAGE ->
  old = slot_of [] (contents (v_storage v)) (b, k * DISIZE) -> inode_bytes v ino = Some old -> zlen old = 512 -> dinode_parse old = Ok d -> 0 <= stop < 2 ^ 64 ->
  exists v3 v4 res v' new d',
    (if dinode_size_val d <? stop then update_inode_page ino b (k * DISIZE) (put_u64 24 stop) else sret tt) v2 = (Ok tt, v3) /\
    mark_page_dirty ino b v3 = (Ok tt, v4) /\ vol_commit_transaction v4 = (Ok res, v') /\ slot_committed (n - 4) v v' ino b new /\
    dinode_parse new = Ok d' /\ dinode_size_val d' = Z.max (dinode_size_val d) stop /\ dinode_xtroot_bytes d' = dinode_xtroot_bytes d.
Proof.
  intros Hv Hn Ht Hs Hm Hk Hold Hby Hz Hd Hst. destruct (Z.ltb_spec (dinode_size_val d) stop) as [Hlt|Hge].
  - destruct (put_u64_edits old 24 stop Hz ltac:(lia) ltac:(lia) Hst) as (new & Hput & He). pose proof (ed_size _ _ _ _ _ He) as Hzn.
    destruct (update_slot_ok n v v2 ino b k (put_u64 24 stop) old new) as (v3 & Hr3 & Ht3); try done.
    destruct (mark_commit_ok n v v3 ino b k old new) as (v4 & res & v' & Hr4 & Hr5 & Hc); try done; [by apply (ed_frame _ _ _ _ _ He); lia|].
    destruct (dinode_parse_bytes new Hzn) as (d' & Hd' & _). exists v3, v4, res, v', new, d'. split_and!; try done.
    + destruct (dinode_parse_fields new d' Hzn Hd') as (Hsz & _). unfold dinode_size_val at 1. rewrite Hsz.
      change 32 with (24 + 8). rewrite (ed_here _ _ _ _ _ He), read_write_u64 by done. lia.
    + destruct (dinode_parse_fields new d' Hzn Hd') as (_ & _ & _ & _ & _ & _ & Hu'). destruct (dinode_parse_fields old d Hz Hd) as (_ & _ & _ & _ & _ & _ & Hu).
      unfold dinode_xtroot_bytes. by rewrite Hu', Hu, (ed_frame _ _ _ _ _ He) by lia.
  - destruct (mark_commit_clean n v v2 ino b old) as (v4 & res & v' & Hr4 & Hr5 & Hc); try done.
    exists v2, v4, res, v', old, d. split_and!; try done. lia.
Qed.

Lemma write_at_ok n (v : Volume W) ino offset data old d r addrs :
  vol_ok n v -> 4 <= n -> file_at v ino old d r -> range_at v r offset (zlen data) addrs ->
  exists v' new d', write_at ino offset data v = (Ok (zlen data), v') /\ vol_ok (n - 4) v' /\
    blocks_of v' addrs = zsplice (blocks_of v addrs) (offset mod BLOCK_SIZE) data /\
    (forall b, data_block v b -> data_block v' b /\ (b ∉ addrs -> block_at (contents (v_storage v')) b = block_at (contents (v_storage v)) b)) /\
    (forall i, inode_bytes v' i = if decide (i = ino) then Some new else inode_bytes v i) /\
    dinode_parse new = Ok d' /\ dinode_size_val d' = Z.max (dinode_size_val d) (offset + zlen data) /\ dinode_xtroot_bytes d' = dinode_xtroot_bytes d.
Proof.
  intros Hv Hn Hf Hra. destruct (file_tree n v ino old d r Hv Hf) as (Hz & Hwf & _). destruct Hf as [Hby Hd Htree Hval]. pose proof Hra as [H0 [Hf1 Hf2] _ _ Hda].
  destruct (begin_read_ok n v ino old Hv Hby) as (t & v1 & v2 & d0 & b & off & Hr1 & Hr2 & Hs & Ht & Hd0). rewrite Hd in Hd0. injection Hd0 as <-.
  destruct (write_data_ok n v v2 r offset data addrs Hv Ht Hwf Hval Hra) as (runs & st & w & Hmb & Hr3 & Hwn & Hmod & Hw & Hzw & Hk & Hfile).
  pose proof (st_flush_data_ok w Hw) as Hfd. destruct (st_flush_data w Hw) as [Hw5 Hc5]. destruct (flush_data w) as [o w5] eqn:E5. cbn [fst snd] in *. subst o.
  assert (Hntab : forall b0, b0 ∈ table_blocks (table_view v) -> b0 < v_agg_size v -> b0 ∉ addrs).
  { intros b0 Hb0 Ha Hin. rewrite Forall_forall in Hda. destruct (Hda b0 Hin) as (_ & _ & Hno). specialize (Hno Hb0). lia. }
  assert (Hktab : forall b0, b0 ∈ table_blocks (table_view v) -> b0 < v_agg_size v -> block_at (contents w5) b0 = block_at (contents (v_storage v)) b0).
  { intros b0 Hb0 Ha. rewrite Hc5. apply Hk; [|by apply Hntab]. destruct (ok_blocks n v Hv b0 Hb0 Ha) as [(? & _) _]. done. }
  destruct (vol_ok_data n v w5 Hv Hw5 ltac:(congruence) Hktab) as (Hv5 & Hsl & Hib). pose proof (txn_data v v2 [] [] w5 Ht Hw5) as Ht5.
  assert (Hby5 : inode_bytes (v_with_dev w5 v) ino = Some old) by (by rewrite Hib).
  destruct (inode_bytes_some n _ ino old Hv5 Hby5) as (b' & k & Hs5 & Hm5 & Hk5 & Hin5 & Hold5 & _). rewrite Hsl, Hs in Hs5. injection Hs5 as <- ->.
  pose proof (zlen_nonneg data) as Hl0.
  destruct (grow_ok n (v_with_dev w5 v) (v_with_dev w5 v2) ino b k old d (offset + zlen data)) as (v6 & v7 & res & v' & new & d' & Hr6 & Hr7 & Hr8 & Hsc & Hd' & Hsz & Hxt);
    try done; [by rewrite Hsl|unfold BLOCK_SIZE, PSIZE in *; lia|].
  assert (Hmeta : forall b0, meta_block v b0 -> meta_block (v_with_dev w5 v) b0).
  { intros b0. apply meta_block_same; [done|done|]. cbn. congruence. }
  pose proof (sc_static _ _ _ _ _ _ Hsc : v_static v' = v_static v) as Hst.
  destruct (table_view_static v v' Hst) as [Htb Hag].
  assert (Hblk : forall a, data_block v a -> block_at (contents (v_storage v')) a = block_at (contents w) a).
  { intros a (Ha0 & Hma & Hta). rewrite <- Hc5. apply (sc_blocks _ _ _ _ _ _ Hsc); [by apply Hmeta|].
    by apply (data_not_slot v a b (k * DISIZE) (conj Ha0 (conj Hma Hta))). }
  exists v', new, d'. split_and!; try done; [|apply Hsc| | |].
  - unfold write_at, write_at_with_interrupt. rewrite (sbind_ok _ _ _ _ _ Hr1), (sbind_ok _ _ _ _ _ Hr2). unfold inode_xtree. cbn [in_dinode in_page_block in_page_offset inode_size].
    unfold sbind at 1, slift. rewrite Htree. unfold sbind at 1. rewrite Hmb. rewrite (sbind_ok _ _ _ _ _ Hr3).
    unfold sbind at 1, checked. cbn match. unfold sret at 1. unfold sbind at 1, on_storage. cbn [v_with_dev v_set v_storage]. rewrite E5.
    unfold sbind at 1. cbn [ws_written ws_modified]. rewrite Hwn, Hmod, add_u64_ok by (unfold BLOCK_SIZE, PSIZE in *; lia).
    change (v_with_dev w5 (v_with_dev w v2)) with (v_with_dev w5 v2). unfold inode_size. cbn [in_dinode].
    rewrite (sbind_ok _ _ _ _ _ Hr6). unfold sbind at 1, sret at 1. rewrite (sbind_ok _ _ _ _ _ Hr7). by rewrite Hr8.
  - unfold blocks_of at 1. rewrite <- Hfile. f_equal. apply list_fmap_ext. intros i a Hi. apply Hblk. rewrite Forall_forall in Hda. apply Hda. by eapply list_elem_of_lookup_2.
  - intros a Ha. pose proof Ha as (Ha0 & Hma & Hta). split.
    + split; [done|]. split; [by apply (sc_meta _ _ _ _ _ _ Hsc), Hmeta|]. by rewrite Htb, Hag.
    + intros Hna. rewrite Hblk by done. apply Hk; [lia|done].
  - intros i. rewrite (sc_inodes _ _ _ _ _ _ Hsc). by rewrite Hib.
Qed.

(** C10: writing to a range of a file whose blocks are mapped refines the update
    of a byte string: the call returns the number of bytes, the blocks of the
    range hold the new bytes at the offset and the old ones around them, no
    other data block changes, and of all inodes only the size of the file may
    change, to the end of the write if that is larger. The volume is ready for
    the next call. *)
Theorem write_at_correct n (v : Volume W) ino offset data old d r addrs
  (Hv : vol_ok n v) (Hn : 4 <= n) (Hf : file_at v ino old d r) (Hr : range_at v r offset (zlen data) addrs) :
  exists v' new d', write_at ino offset data v = (Ok (zlen data), v') /\ vol_ok (n - 4) v' /\
    blocks_of v' addrs = zsplice (blocks_of v addrs) (offset mod BLOCK_SIZE) data /\
    (forall b, data_block v b -> b ∉ addrs -> block_at (contents (v_storage v')) b = block_at (contents (v_storage v)) b) /\
    (forall i, inode_bytes v' i = if decide (i = ino) then Some new else inode_bytes v i) /\
    dinode_parse new = Ok d' /\ dinode_size_val d' = Z.max (dinode_size_val d) (offset + zlen data) /\ dinode_xtroot_bytes d' = dinode_xtroot_bytes d.
Proof.
  destruct (write_at_ok n v ino offset data old d r addrs Hv Hn Hf Hr) as (v' & new & d' & H1 & H2 & H3 & H4 & H5 & H6).
  exists v', new, d'. split_and!; try done; [|apply H6..]. intros b Hb. apply H4, Hb.
Qed.

(** What is written is read: after the write, the tree of the inode is the
    one of before and [read_data] on it returns the bytes written. *)
Theorem write_read_roundtrip n (v : Volume W) ino offset data old d r addrs
  (Hv : vol_ok n v) (Hn : 4 <= n) (Hf : file_at v ino old d r) (Hr : range_at v r offset (zlen data) addrs) :
  exists v' new d', write_at ino offset data v = (Ok (zlen data), v') /\ file_at v' ino new d' r /\
    (read_data from_bits_truncate offset (zlen data) r (v_storage v')).1 = Ok data.
Proof.
  destruct (write_at_ok n v ino offset data old d r addrs Hv Hn Hf Hr) as (v' & new & d' & H1 & H2 & H3 & H4 & H5 & H6 & _ & H8).
  destruct (file_tree n v ino old d r Hv Hf) as (_ & Hwf & _). destruct Hf as [Hby Hd Htree Hval]. pose proof (zlen_nonneg data) as Hl0.
  destruct (range_len v r offset (zlen data) addrs Hr Hl0) as [_ Hfit]. destruct Hr as [H0 [Hf1 Hf2] Ha Hnd Hda].
  exists v', new, d'. split_and!; try done.
  { split; [by rewrite H5, decide_True|done|by rewrite H8|done]. }
  destruct (read_data_ok from_bits_truncate offset (zlen data) r addrs (v_storage v')) as (w' & Hrun & _); try done; [apply H2| |].
  { eapply Forall_impl; [exact Hda|]. intros a Hab. destruct (H4 a Hab) as [(Ha0 & [(_ & Hr & _) _] & _) _]. done. }
  rewrite Hrun. cbn [fst]. f_equal. fold (blocks_of v' addrs). rewrite H3. pose proof (Z.mod_pos_bound offset BLOCK_SIZE ltac:(done)).
  apply zslice_zsplice_same; [lia| |done]. unfold blocks_of. by rewrite blocks_len by (by apply data_on_device).
Qed.

(** ** Truncating inside a block *)

(** The number of blocks up to a size. *)
Definition blocks_to (size : Z) : Z := (size + BLOCK_SIZE - 1) / BLOCK_SIZE.

Lemma truncate_within_ok n (v : Volume W) ino new_size old d r :
  vol_ok n v -> 4 <= n -> file_at v ino old d r -> 0 <= new_size -> new_size + BLOCK_SIZE < 2 ^ 64 -> dinode_size_val d + BLOCK_SIZE < 2 ^ 64 ->
  blocks_to new_size = blocks_to (dinode_size_val d) ->
  exists v' new d', truncate ino new_size v = (Ok tt, v') /\ vol_ok (n - 4) v' /\ file_at v' ino new d' r /\ dinode_size_val d' = new_size /\
    (forall i, i <> ino -> inode_bytes v' i = inode_bytes v i) /\
    forall b, data_block v b -> data_block v' b /\ block_at (contents (v_storage v')) b = block_at (contents (v_storage v)) b.
Proof.
  intros Hv Hn Hf H0 Hns Hos Heq. destruct (file_tree n v ino old d r Hv Hf) as (Hz & _ & _). pose proof Hf as [Hby Hd Htree Hval].
  destruct (begin_read_ok n v ino old Hv Hby) as (t & v1 & v2 & d0 & b & off & Hr1 & Hr2 & Hs & Ht & Hd0). rewrite Hd in Hd0. injection Hd0 as <-.
  destruct (inode_bytes_some n v ino old Hv Hby) as (b' & k & Hs' & Hm & Hk & Hin & Hold & _). rewrite Hs in Hs'. injection Hs' as <- ->.
  destruct (put_u64_edits old 24 new_size Hz ltac:(lia) ltac:(lia) ltac:(unfold BLOCK_SIZE, PSIZE in *; lia)) as (new & Hput & He). pose proof (ed_size _ _ _ _ _ He) as Hzn.
  destruct (update_slot_ok n v v2 ino b k (put_u64 24 new_size) old new) as (v3 & Hr3 & Ht3); try done.
  destruct (mark_commit_ok n v v3 ino b k old new) as (v4 & res & v' & Hr4 & Hr5 & Hc); try done; [by apply (ed_frame _ _ _ _ _ He); lia|].
  destruct (dinode_parse_bytes new Hzn) as (d' & Hd' & _). destruct (table_view_static v v' (sc_static _ _ _ _ _ _ Hc)) as [Htb Hag].
  destruct (dinode_parse_fields new d' Hzn Hd') as (Hsz & _ & _ & _ & _ & _ & Hu'). destruct (dinode_parse_fields old d Hz Hd) as (Hsz0 & _ & _ & _ & _ & _ & Hu).
  assert (Hdsz : 0 <= dinode_size_val d).
  { unfold dinode_size_val. rewrite Hsz0, read_u64_spec by (apply length_zslice; lia). apply le_val_range. }
  exists v', new, d'. split_and!; try done; [|apply Hc| | | |].
  - unfold truncate. rewrite (sbind_ok _ _ _ _ _ Hr1), (sbind_ok _ _ _ _ _ Hr2). unfold inode_xtree. cbn [in_dinode in_page_block in_page_offset].
    unfold sbind at 1, slift. rewrite Htree. unfold sbind at 1. rewrite add_u64_ok by (unfold BLOCK_SIZE, PSIZE in *; lia). unfold sbind at 1, inode_size. cbn [in_dinode].
    rewrite add_u64_ok by (unfold BLOCK_SIZE, PSIZE in *; lia). fold (blocks_to new_size) (blocks_to (dinode_size_val d)).
    rewrite Heq, Z.ltb_irrefl. rewrite (sbind_ok _ _ _ _ _ Hr3). unfold finish. by rewrite (sbind_ok _ _ _ _ _ Hr4), (sbind_ok _ _ _ _ _ Hr5).
  - split; [by rewrite (sc_inodes _ _ _ _ _ _ Hc), decide_True|done| |done].
    unfold dinode_xtroot_bytes. rewrite Hu', (ed_frame _ _ _ _ _ He) by lia. unfold dinode_xtroot_bytes in Htree. by rewrite Hu in Htree.
  - unfold dinode_size_val. rewrite Hsz. change 32 with (24 + 8). rewrite (ed_here _ _ _ _ _ He), read_write_u64; [done|unfold BLOCK_SIZE, PSIZE in *; lia].
  - intros i Hi. rewrite (sc_inodes _ _ _ _ _ _ Hc). by rewrite decide_False.
  - intros a (Ha0 & Hma & Hta). split; [split; [done|]; split; [by apply (sc_meta _ _ _ _ _ _ Hc)|by rewrite Htb, Hag]|].
    apply (sc_blocks _ _ _ _ _ _ Hc); [done|]. by apply (data_not_slot v a _ _ (conj Ha0 (conj Hma Hta)) Hin).
Qed.

(** A file cut inside its last block and extended again to its old size is
    back as it was, data included: neither truncation touches a data block, so
    the bytes that were cut off are not zero but reappear. *)
Theorem truncate_reveals_old_data n (v : Volume W) ino new_size old d r
  (Hv : vol_ok n v) (Hn : 8 <= n) (Hf : file_at v ino old d r) (H0 : 0 <= new_size <= dinode_size_val d) (Hs : dinode_size_val d + BLOCK_SIZE < 2 ^ 64)
  (Hb : blocks_to new_size = blocks_to (dinode_size_val d)) :
  exists v1 v2 new d', truncate ino new_size v = (Ok tt, v1) /\ truncate ino (dinode_size_val d) v1 = (Ok tt, v2) /\ vol_ok (n - 8) v2 /\
    file_at v2 ino new d' r /\ dinode_size_val d' = dinode_size_val d /\
    forall b, data_block v b -> block_at (contents (v_storage v2)) b = block_at (contents (v_storage v)) b.
Proof.
  destruct (truncate_within_ok n v ino new_size old d r Hv ltac:(lia) Hf) as (v1 & new1 & d1 & Hr1 & Hv1 & Hf1 & Hs1 & _ & Hk1); [lia|lia|done|done|].
  destruct (truncate_within_ok (n - 4) v1 ino (dinode_size_val d) new1 d1 r Hv1 ltac:(lia) Hf1) as (v2 & new2 & d2 & Hr2 & Hv2 & Hf2 & Hs2 & _ & Hk2); [lia|lia|lia|congruence|].
  exists v1, v2, new2, d2. split_and!; try done; [by replace (n - 8) with (n - 4 - 4) by lia|].
  intros b Hb0. destruct (Hk1 b Hb0) as [Hb1 Hc1]. destruct (Hk2 b Hb1) as [_ Hc2]. congruence.
Qed.
End file_data.

(** ** Witnesses *)

Section witnesses.
#[local] Existing Instance le_codec.
#[local] Existing Instance le_codec_spec.
#[local] Existing Instance sample_order.
#[local] Existing Instance sample_order_spec.
#[local] Existing Instance sample_flags.

(** Inode 17 with 5000 bytes in the blocks 2 and 3 of a device of four. *)
Definition sample_xtree : XtRoot := match insert_extent 0 2 2 xtroot_default with Ok (_, r) => r | _ => xtroot_default end.
Definition sample_file : list byte :=
  sample_dinode 1 0x81a4 1 5000 (zeros 96 ++ match xt_to_bytes sample_xtree with Ok b => b | _ => [] end).
Definition file_volume : Volume MemoryStorage :=
  volume_on (mkMem (sample_root ++ sample_file ++ zeros (Z.to_nat 3072) ++ replicate (Z.to_nat 12288) Byte.x41) 16384).
Definition sample_file_dinode : Dinode := match dinode_parse sample_file with Ok d => d | _ => dinode_default end.
Definition sample_file_tree : XtRoot := match xt_from_inode_data (dinode_xtroot_bytes sample_file_dinode) with Ok r => r | _ => xtroot_default end.

Lemma file_volume_ok n : vol_ok n file_volume.
Proof. apply volume_on_ok; [split|]; vm_compute; reflexivity || discriminate. Qed.

Lemma file_volume_file : file_at file_volume 17 sample_file sample_file_dinode sample_file_tree.
Proof. split; vm_compute; reflexivity. Qed.

Lemma file_volume_data a : a ∈ [2; 3] -> data_block file_volume a.
Proof.
  intros Ha. assert (Hz : zlen (contents (v_storage file_volume)) = 16384) by (vm_compute; reflexivity).
  rewrite !elem_of_cons, elem_of_nil in Ha. unfold data_block, meta_block, fs_block. change (v_agg_size file_volume) with 1. change (v_log file_volume) with (@None LogManager).
  change (v_bmap file_volume) with (@None (BlockAllocMap unit)). rewrite Hz. unfold before_log, map_block, BLOCK_SIZE, PSIZE.
  split_and!; lia || tauto.
Qed.

(** The last bytes of the first block and the first of the second. *)
Lemma file_volume_range : range_at file_volume sample_file_tree 4095 3 [2; 3].
Proof.
  split; [lia|vm_compute; split; reflexivity|vm_compute; reflexivity|apply (bool_decide_unpack _); vm_compute; exact I|].
  apply Forall_forall. exact file_volume_data.
Qed.

Definition sample_bytes : list byte := [Byte.x01; Byte.x02; Byte.x03].

Lemma write_at_correct_witness :
  exists v', write_at 17 4095 sample_bytes file_volume = (Ok 3, v') /\ blocks_of v' [2; 3] = zsplice (blocks_of file_volume [2; 3]) 4095 sample_bytes.
Proof.
  destruct (write_at_correct 100 file_volume 17 4095 sample_bytes sample_file sample_file_dinode sample_file_tree [2; 3] (file_volume_ok 100) ltac:(lia) file_volume_file file_volume_range)
    as (v' & new & d' & H1 & _ & H3 & _).
  exists v'. exact (conj H1 H3).
Defined.

Lemma write_read_roundtrip_witness :
  exists v', write_at 17 4095 sample_bytes file_volume = (Ok 3, v') /\ (read_data from_bits_truncate 4095 3 sample_file_tree (v_storage v')).1 = Ok sample_bytes.
Proof.
  destruct (write_read_roundtrip 100 file_volume 17 4095 sample_bytes sample_file sample_file_dinode sample_file_tree [2; 3] (file_volume_ok 100) ltac:(lia) file_volume_file file_volume_range)
    as (v' & new & d' & H1 & _ & H3).
  exists v'. exact (conj H1 H3).
Defined.

Lemma truncate_reveals_old_data_witness :
  exists v1 v2, truncate 17 4097 file_volume = (Ok tt, v1) /\ truncate 17 5000 v1 = (Ok tt, v2) /\
    block_at (contents (v_storage v2)) 3 = block_at (contents (v_storage file_volume)) 3.
Proof.
  destruct (truncate_reveals_old_data 100 file_volume 17 4097 sample_file sample_file_dinode sample_file_tree (file_volume_ok 100) ltac:(lia) file_volume_file)
    as (v1 & v2 & new & d' & H1 & H2 & _ & _ & _ & H5).
  - vm_compute. split; discriminate.
  - vm_compute. reflexivity.
  - vm_compute. reflexivity.
  - exists v1, v2. split; [exact H1|]. split; [exact H2|]. apply H5, file_volume_data. apply list_elem_of_further, list_elem_of_here.
Defined.
End witnesses.
