(* ===== verification/FileGrow.v ===== *)
(** * Writing past the extents of a file

    [write_at] on blocks that the file does not have: the allocator gives a run of
    free blocks, the data goes into new blocks over zeros, the extent enters the
    tree of the inode, and the commit stores the map. The section on the printed
    tree shows that the inode that is read next has the tree that was stored. *)

From stdpp Require Import gmap.
From Stdlib Require Import ZArith Lia.
From S2P Require Import Types Storage PageCache Dmap Xtree LogMgr Devices Recovery Transaction Inode Volume VolumeData VolumeOps VolumeTx DinodeEdit InodeTable Sample FileData Prelude.

(** ** The printed tree *)

Section printed.
Context {LE : LittleEndian} {LES : LittleEndianSpec}.

Definition xtroot_bytes (r : XtRoot) : list byte := xth_bytes (xt_header r) ++ concat (xad_bytes <$> drop 2 (xt_xad r)).

Lemma xads_bytes_len xads : Forall wf_xad xads -> zlen (concat (xad_bytes <$> xads)) = 16 * zlen xads.
Proof. induction 1 as [|x xads Hx _ IH]; [done|]. cbn [fmap list_fmap concat]. rewrite zlen_app, zlen_cons, IH, zlen_xad_bytes by done. lia. Qed.

Lemma xads_bytes_slice xads : Forall wf_xad xads -> forall i x, xads !! i = Some x ->
  zslice (concat (xad_bytes <$> xads)) (Z.of_nat i * 16) (Z.of_nat i * 16 + 16) = xad_bytes x.
Proof.
  induction 1 as [|y xads Hy Hxs IH]; intros i x Hi; [done|]. cbn [fmap list_fmap concat]. pose proof (zlen_xad_bytes y Hy) as Hz. destruct i as [|i].
  - injection Hi as <-. rewrite zslice_app_l by lia. by apply zslice_all.
  - rewrite zslice_app_r by lia. rewrite Hz. rewrite <- (IH i x Hi). f_equal; lia.
Qed.

Lemma xt_to_bytes_ok r : wf_xtroot r -> xt_to_bytes r = Ok (xtroot_bytes r) /\ zlen (xtroot_bytes r) = 288.
Proof.
  intros (Hh & Hl & Hx). pose proof (zlen_xth_bytes _ Hh) as Hz. assert (Hd : Forall wf_xad (drop 2 (xt_xad r))) by (by apply Forall_drop).
  assert (Hn : zlen (xtroot_bytes r) = 288) by (unfold xtroot_bytes; rewrite zlen_app, xads_bytes_len, Hz by done; unfold zlen; rewrite length_drop; lia).
  split; [|done]. rewrite xt_to_bytes_header by done. assert (H0 : zlen (zeros 288) = 288) by apply zlen_replicate.
  apply put_xads_ok; [done|rewrite zlen_zsplice; lia|lia|done|done| |].
  - intros i Hi. destruct (lookup_lt_is_Some_2 (xt_xad r) (Z.to_nat (2 + i))) as [x Hlk]; [lia|]. exists x. split; [done|].
    unfold xtroot_bytes. rewrite zslice_app_r by lia. rewrite Hz, <- (xads_bytes_slice _ Hd (Z.to_nat i) x); [f_equal; lia|].
    rewrite lookup_drop, <- Hlk. f_equal. lia.
  - rewrite (zslice_zsplice_prefix _ _ 0 32) by lia. unfold xtroot_bytes. change (32 + 0 * 16) with 32. rewrite zslice_app_l by lia. symmetry. by apply zslice_all.
Qed.

Lemma xad_bytes_inj x y : wf_xad x -> wf_xad y -> xad_bytes x = xad_bytes y -> x = y.
Proof.
  destruct x as [f1 r1 o1 p1 [l1 a1]], y as [f2 r2 o2 p2 [l2 a2]]. intros (H1 & H2 & H3 & H4) (H5 & H6 & H7 & H8). cbn in *. unfold xad_bytes, pxd_into_bytes.
  cbn [xad_flag xad_rsvrd xad_off1 xad_off2 xad_loc len_addr addr2]. intros [= -> H]. apply app_inj_1 in H as [-> H]; [|congruence]. injection H as -> H.
  apply app_inj_1 in H as [-> H]; [|congruence]. apply app_inj_1 in H as [-> ->]; [done|congruence].
Qed.

Lemma xth_bytes_inj g h : wf_xth g -> wf_xth h -> xth_bytes g = xth_bytes h -> g = h.
Proof.
  destruct g as [n1 p1 f1 q1 i1 m1 r1 [l1 a1]], h as [n2 p2 f2 q2 i2 m2 r2 [l2 a2]]. intros (H1 & H2 & H3 & H4 & H5 & H6 & H7) (G1 & G2 & G3 & G4 & G5 & G6 & G7). cbn in *.
  unfold xth_bytes, pxd_into_bytes. cbn [xth_next xth_prev xth_flag xth_rsrvd1 xth_nextindex xth_maxentry xth_rsrvd2 xth_self_pxd len_addr addr2]. intros H.
  do 2 (apply app_inj_1 in H as [-> H]; [|congruence]). injection H as -> -> H. do 3 (apply app_inj_1 in H as [-> H]; [|congruence]).
  apply app_inj_1 in H as [-> ->]; [done|congruence].
Qed.

Lemma xads_bytes_inj xs : Forall wf_xad xs -> forall ys, Forall wf_xad ys -> length xs = length ys -> concat (xad_bytes <$> xs) = concat (xad_bytes <$> ys) -> xs = ys.
Proof.
  induction 1 as [|x xs Hx _ IH]; intros ys Hys Hl He; destruct Hys as [|y ys Hy Hys]; try done. cbn [fmap list_fmap concat] in He.
  apply app_inj_1 in He as [Hb He]; [|pose proof (zlen_xad_bytes x Hx); pose proof (zlen_xad_bytes y Hy); unfold zlen in *; lia].
  f_equal; [by apply xad_bytes_inj|]. apply IH; [done|by injection Hl|done].
Qed.

(** What is printed is parsed with the same slots. *)
Lemma xt_print_parse r : wf_xtroot r -> exists r', xt_from_inode_data (xtroot_bytes r) = Ok r' /\ wf_xtroot r' /\ xt_slots r' = xt_slots r /\ xtroot_next_index r' = xtroot_next_index r.
Proof.
  intros Hwf. destruct (xt_to_bytes_ok r Hwf) as [_ Hz]. destruct (xt_parse_print _ Hz) as (r' & Hp & Hwf' & Hb). exists r'. split; [done|]. split; [done|].
  destruct (xt_to_bytes_ok r' Hwf') as [Hb' _]. rewrite Hb' in Hb. injection Hb as Hb. destruct Hwf as (Hh & Hl & Hx), Hwf' as (Hh' & Hl' & Hx'). unfold xtroot_bytes in Hb.
  apply app_inj_1 in Hb as [Hb1 Hb2]; [|pose proof (zlen_xth_bytes _ Hh); pose proof (zlen_xth_bytes _ Hh'); unfold zlen in *; lia].
  apply xth_bytes_inj in Hb1; [|done..]. apply xads_bytes_inj in Hb2; [|by apply Forall_drop..|rewrite !length_drop; lia].
  unfold xt_slots, xtroot_next_index, zslice. rewrite Hb1. change (Z.to_nat XTENTRYSTART) with 2%nat. by rewrite Hb2.
Qed.
End printed.

(** The page of the map with the bit of block [s]. *)
Abbreviation page_of_run b s := (bam_dmap_start b + (1 + s / BLOCKS_PER_DMAP)).

Section file_grow.
Context {LE : LittleEndian} {LES : LittleEndianSpec} {L : Lru PageKey CachedPage} {LS : LruSpec PageKey CachedPage} {XF : XadFlags}.
Context {HO : HashOrder} {HOS : HashOrderSpec} {W : Type} {FS : Storage W} {SS : StorageSpec W} {SR : StorageReliable W}.

(** ** New blocks *)

Lemma zlen_zeros n : 0 <= n -> zlen (zeros (Z.to_nat n)) = n.
Proof. intros Hn. unfold zeros. rewrite zlen_replicate. lia. Qed.

Lemma zeros_split n m : 0 <= n -> 0 <= m -> zeros (Z.to_nat (n + m)) = zeros (Z.to_nat n) ++ zeros (Z.to_nat m).
Proof. intros Hn Hm. unfold zeros. rewrite <- replicate_add. f_equal. lia. Qed.

(** The blocks hold the data over zeros. *)
Lemma write_new_ok data xtree addr blks : forall st boff rest (v : Volume W) w,
  writing data xtree st boff rest -> st_wf w -> 0 <= boff < BLOCK_SIZE -> Forall (fun i => on_device (contents w) (addr + i)) blks -> NoDup (Z.add addr <$> blks) ->
  boff + zlen rest <= zlen blks * BLOCK_SIZE -> (blks = [] \/ (zlen blks - 1) * BLOCK_SIZE < boff + zlen rest) -> (blks = [] \/ 0 < zlen rest) ->
  exists st' boff' w', write_new (fun _ => false) data addr blks st (v_with_dev w v) = (Ok st', v_with_dev w' v) /\ st_wf w' /\ writing data xtree st' boff' [] /\
    ws_logical st' = ws_logical st /\ zlen (contents w') = zlen (contents w) /\
    (forall b, 0 <= b -> b ∉ Z.add addr <$> blks -> block_at (contents w') b = block_at (contents w) b) /\
    concat (block_at (contents w') <$> (Z.add addr <$> blks)) = zsplice (zeros (Z.to_nat (zlen blks * BLOCK_SIZE))) boff rest.
Proof.
  induction blks as [|i blks IH]; intros st boff rest v w Hwr Hw Hb Hd Hnd Hup Hlo Hne; cbn [write_new fmap list_fmap].
  { change (zlen []) with 0 in Hup. pose proof (zlen_nonneg rest). assert (rest = []) as -> by (destruct rest; [done|]; rewrite zlen_cons in *; pose proof (zlen_nonneg rest); lia).
    exists st, boff, w. split_and!; try done. cbn [fmap list_fmap concat]. by rewrite zsplice_nil. }
  destruct Hlo as [|Hlo]; [done|]. destruct Hne as [|Hne]; [done|]. rewrite zlen_cons in Hup, Hlo |- *. pose proof (zlen_nonneg blks) as Hb0.
  apply Forall_cons in Hd as [Hi Hd]. apply NoDup_cons in Hnd as [Hni Hnd]. destruct (writing_checked data _ _ _ _ (v_with_dev w v) Hwr) as (st1 & Hc & Hwr1). 
  assert (Hlog : ws_logical st1 = ws_logical st) by (unfold checked, sret in Hc; by injection Hc as <-).
  rewrite (sbind_ok _ _ _ _ _ Hc). pose proof (writing_len data _ _ _ _ Hwr1) as Hlen. destruct (Z.eqb_spec (ws_remaining st1) 0) as [Hz|Hnz]; [lia|].
  destruct Hwr1 as [E1 E2 E3 E4 E5 E6 E7]. rewrite E1. set (n := Z.min (BLOCK_SIZE - boff) (ws_remaining st1)). assert (Hn : 0 < n <= ws_remaining st1) by (unfold n; lia).
  destruct (Z.leb_spec (ws_pos st1 + n) (zlen data)); [|lia].
  assert (Hpart : zslice data (ws_pos st1) (ws_pos st1 + n) = zslice rest 0 n) by (rewrite E3, zslice_zslice by lia; f_equal; lia). rewrite Hpart.
  assert (Hzp : zlen (zslice rest 0 n) = n) by (rewrite zlen_zslice; lia). assert (Hz0 : zlen (zeros (Z.to_nat BLOCK_SIZE)) = BLOCK_SIZE) by (by apply zlen_zeros).
  assert (Hfit : boff + zlen (zslice rest 0 n) <= zlen (zeros (Z.to_nat BLOCK_SIZE))) by (rewrite Hzp, Hz0; unfold n; lia).
  unfold sbind at 1, slift at 1. rewrite splice_ok by lia. set (blk := zsplice (zeros _) boff (zslice rest 0 n)).
  assert (Hblk : zlen blk = BLOCK_SIZE) by (unfold blk; rewrite zlen_zsplice; lia). pose proof Hi as [Hi0 Hir].
  destruct (write_block_run (addr + i) blk w Hw Hi0 Hblk Hir) as (w2 & Hwr2 & Hw2 & Hc2).
  assert (Hwv : on_storage (write_block (addr + i) blk) (v_with_dev w v) = (Ok tt, v_with_dev w2 v)) by (unfold on_storage; cbn [v_with_dev v_set v_storage]; by rewrite Hwr2).
  rewrite (sbind_ok _ _ _ _ _ Hwv). assert (Hz2 : zlen (contents w2) = zlen (contents w)) by (rewrite Hc2, zlen_zsplice; [done|unfold BLOCK_SIZE, PSIZE in *; lia..]).
  set (rest' := zslice rest n (zlen rest)). assert (Hzr : zlen rest' = zlen rest - n) by (apply zlen_zslice; lia).
  destruct (IH (ws_advance n st1) 0 rest' v w2) as (st' & boff' & w' & Hrun & Hw' & Hwr' & Hlog' & Hz' & Hk & Hcat); try done.
  - split; cbn [ws_advance ws_boff ws_pos ws_remaining ws_written ws_xtree ws_modified]; try done; [lia| |lia|lia]. unfold rest'. rewrite E3, (zlen_zslice data) by lia. rewrite zslice_zslice by lia. f_equal; lia.
  - eapply Forall_impl; [exact Hd|]. unfold on_device. by rewrite Hz2.
  - rewrite Hzr. unfold n, BLOCK_SIZE, PSIZE in *. lia.
  - destruct blks as [|j blks]; [by left|right]. rewrite zlen_cons in *. rewrite Hzr. unfold n, BLOCK_SIZE, PSIZE in *. lia.
  - destruct blks as [|j blks]; [by left|right]. pose proof (zlen_nonneg blks). rewrite zlen_cons in *. rewrite Hzr. unfold n, BLOCK_SIZE, PSIZE in *. lia.
  - exists st', boff', w'. rewrite Hrun. split_and!; try done; [by rewrite Hlog', <- Hlog|congruence| |].
    + intros b Hb1 [Hb2 Hb3]%not_elem_of_cons. rewrite Hk by done. rewrite Hc2, block_at_zsplice by done. by rewrite decide_False.
    + cbn [concat]. rewrite Hcat, (Hk (addr + i)) by done. rewrite Hc2, block_at_zsplice, decide_True by done.
      replace ((1 + zlen blks) * BLOCK_SIZE) with (BLOCK_SIZE + zlen blks * BLOCK_SIZE) by lia. rewrite zeros_split by (unfold BLOCK_SIZE, PSIZE; lia).
      assert (Hsplit : rest = zslice rest 0 n ++ rest') by (unfold rest'; rewrite zslice_cat by lia; by rewrite zslice_all).
      destruct (Z.leb_spec (zlen rest) (BLOCK_SIZE - boff)) as [Hle|Hgt].
      * assert (n = zlen rest) as Hnn by (unfold n; lia). assert (rest' = []) as Hr0 by (unfold rest'; rewrite Hnn; unfold zslice; by rewrite Z.sub_diag).
        rewrite Hr0, zsplice_nil. unfold blk. rewrite Hnn, (zslice_all rest) by done. rewrite zsplice_app_first; [done|lia|lia].
      * rewrite Hsplit at 1. rewrite zsplice_app_both; [done|lia| |]; [rewrite Hzp, Hz0; unfold n; lia|]. rewrite Hzr, zlen_zeros by (unfold BLOCK_SIZE, PSIZE; lia). unfold n, BLOCK_SIZE, PSIZE in *. lia.
Qed.

(** ** Free blocks *)

(** The pages of the map that hold bits of free blocks. *)
Definition map_page (b : BlockAllocMap unit) (x : Z) : Prop :=
  exists a, 0 <= a /\ bam_free_map b !! Z.to_nat a = Some true /\ x = bam_dmap_start b + (1 + a / BLOCKS_PER_DMAP).

(** A map whose free blocks can take data, and whose pages can be written. *)
Record space_ok (v : Volume W) (b : BlockAllocMap unit) : Prop := {
  so_map : v_bmap v = Some b;
  so_size : bam_mapsize b <= 2 ^ 40;
  so_free : forall a, 0 <= a -> bam_free_map b !! Z.to_nat a = Some true -> data_block v a /\ ~ map_page b a;
  so_pages : forall x, map_page b x -> fs_block (v_log v) (contents (v_storage v)) x /\ (x ∈ table_blocks (table_view v) -> v_agg_size v <= x) }.

(** The map after [cnt] blocks from [s] on were given away. *)
Definition allocated (b : BlockAllocMap unit) (s cnt : Z) : BlockAllocMap unit :=
  bam_update b (saturating_sub (bam_nfree b) cnt) (mark_extent s cnt false (bam_free_map b)) (bam_allocated b ++ [(s, as_u32 cnt)]) (bam_freed b)
    ({[1 + s / BLOCKS_PER_DMAP]} ∪ bam_dirty_pages b).

Lemma on_bmap_alloc (v : Volume W) b cnt hint :
  v_bmap v = Some b -> zlen (bam_free_map b) = bam_mapsize b -> 0 < cnt <= bam_mapsize b -> 0 <= hint -> (exists s, 0 <= s /\ all_free (bam_free_map b) s cnt) ->
  exists s, 0 <= s /\ s + cnt <= bam_mapsize b /\ all_free (bam_free_map b) s cnt /\
    on_bmap None (alloc_extent cnt hint) v = (Ok (Some (pxd_set_length (pxd_set_address pxd_default s) (as_u32 cnt))), v_with_bmap (Some (allocated b s cnt)) (v_storage v) v).
Proof.
  intros Hb Hl Hn Hh (s0 & Hs0 & Hf0). unfold on_bmap. rewrite Hb. destruct b as [[] m nf fm nag ds dl al fr dp]. cbn [bam_free_map bam_mapsize] in *.
  destruct (alloc_extent_cases cnt hint (bam_with_device (v_storage v) (mkBam tt m nf fm nag ds dl al fr dp))) as [[[] _]|[(_ & Hno & _)|(_ & s & Hs & Hr & Hf & Ha)]];
    cbn [bam_with_device bam_free_map bam_mapsize] in *; try done; try lia.
  { by apply Hno in Hf0. }
  exists s. split_and!; try done. by rewrite Ha.
Qed.

Lemma run_page b s cnt : 0 <= s -> 0 < cnt -> all_free (bam_free_map b) s cnt -> map_page b (page_of_run b s).
Proof. intros Hs Hc Hf. exists s. split_and!; [done| |done]. apply Hf. lia. Qed.

(** The map that a call makes of [b]: its pages are those of [page]. *)
Record map_step (b b' : BlockAllocMap unit) (page : Z -> Prop) : Prop := {
  mp_start : bam_dmap_start b' = bam_dmap_start b;
  mp_size : zlen (bam_free_map b') = bam_mapsize b';
  mp_count : 0 <= bam_nfree b' < 2 ^ 64;
  mp_dirty : forall p, p ∈ bam_dirty_pages b' -> 1 <= p /\ page (bam_dmap_start b + p) }.

Lemma meta_map (v : Volume W) b b' page w' a :
  v_bmap v = Some b -> map_step b b' page -> zlen (contents w') = zlen (contents (v_storage v)) -> meta_block v a -> ~ page a ->
  meta_block (v_with_bmap (Some b') w' v) a.
Proof.
  intros Hb Hs Hz [(H1 & H2 & H3) H4] Hne. split; [split_and!; try done; cbn; by rewrite Hz|]. cbn [v_with_bmap v_set v_bmap map_block]. rewrite Hb in H4.
  rewrite (mp_start _ _ _ Hs). intros [->|[_ Hp]%(mp_dirty _ _ _ Hs)]; [by apply H4; left|]. apply Hne. by replace a with (bam_dmap_start b + (a - bam_dmap_start b)) by lia.
Qed.

(** The volume with its new map and data is a base for the rest of the call. *)
Lemma base_map n (v : Volume W) b b' (page : Z -> Prop) w' :
  vol_ok n v -> v_bmap v = Some b -> map_step b b' page ->
  (forall x, page x -> fs_block (v_log v) (contents (v_storage v)) x /\ (x ∈ table_blocks (table_view v) -> v_agg_size v <= x)) ->
  st_wf w' -> zlen (contents w') = zlen (contents (v_storage v)) ->
  (forall b, b ∈ table_blocks (table_view v) -> b < v_agg_size v -> block_at (contents w') b = block_at (contents (v_storage v)) b) ->
  let vb := v_with_bmap (Some b') w' v in
  vol_base n vb /\ (forall i, slot_at vb i = slot_at v i) /\ forall i, inode_bytes vb i = inode_bytes v i.
Proof.
  intros Hv Hb Hs Hpg Hw Hz Hk vb. destruct (vol_ok_data n v w' Hv Hw Hz Hk) as (Hd & Hsl & Hib). split; [|split; [exact Hsl|exact Hib]].
  pose proof (ok_bmap n v Hv) as Hm. rewrite Hb in Hm. destruct Hm as (_ & _ & M3 & _). destruct Hd as [[D1 D2 D3 D4 D6 D7 D8 D9] D5]. split; try done.
  - cbn [v_with_bmap v_set v_log v_storage v_bmap vb]. assert (Hfs : forall x, fs_block (v_log v) (contents (v_storage v)) x -> fs_block (v_log v) (contents w') x).
    { intros x (X1 & X2 & X3). split_and!; try done. by rewrite Hz. }
    split; [apply Hs|]. split; [apply Hs|]. rewrite (mp_start _ _ _ Hs). split; [apply Hfs, M3|].
    intros p [Hp1 Hp2]%(mp_dirty _ _ _ Hs). split; [done|]. by apply Hfs, Hpg.
  - intros x Hx Ha. apply (meta_map v b b' page); [done|done|done|by apply (ok_blocks n v Hv)|]. intros [_ Hpt]%Hpg. specialize (Hpt Hx). change (v_agg_size vb) with (v_agg_size v) in Ha. lia.
Qed.

Lemma clean_map n (v : Volume W) b : vol_ok n v -> v_bmap v = Some b -> bam_dirty_pages b = ∅ /\ bam_allocated b = [] /\ bam_freed b = [].
Proof. intros Hv Hb. pose proof (ok_clean n v Hv) as Hc. rewrite Hb in Hc. cbn in Hc. injection Hc as Hc. by rewrite <- Hc. Qed.

Lemma map_step_alloc n (v : Volume W) b s cnt :
  vol_ok n v -> v_bmap v = Some b -> 0 <= s -> 0 < cnt -> map_step b (allocated b s cnt) (fun x => x = page_of_run b s).
Proof.
  intros Hv Hb H0 Hc. pose proof (ok_bmap n v Hv) as Hm. rewrite Hb in Hm. destruct Hm as (M1 & M2 & _). destruct (clean_map n v b Hv Hb) as [Hd _]. split; [done| | |].
  - cbn. unfold zlen. rewrite length_mark_extent by done. exact M1.
  - cbn. unfold saturating_sub. lia.
  - change (bam_dirty_pages (allocated b s cnt)) with ({[1 + s / BLOCKS_PER_DMAP]} ∪ bam_dirty_pages b). rewrite Hd. pose proof (Z.div_pos s BLOCKS_PER_DMAP H0 ltac:(done)).
    intros p [->%elem_of_singleton|[]%not_elem_of_empty]%elem_of_union. lia.
Qed.

Lemma txn_map (v v2 : Volume W) l dirty m w' : txn v v2 l dirty -> st_wf w' -> txn (v_with_bmap m w' v) (v_with_bmap m w' v2) l dirty.
Proof. intros [] Hw. by split. Qed.

(** ** The inode *)

Lemma total_blocks_range r : wf_xtroot r -> 0 <= total_blocks r < 2 ^ 64.
Proof.
  intros Hwf. unfold total_blocks, iter_extents. assert (Hn : zlen (xt_slots r) <= 18).
  { destruct Hwf as (_ & Hl & _). unfold xt_slots, zslice, zlen. rewrite length_take, length_drop. lia. }
  assert (Hs : forall xs, 0 <= foldr Z.add 0 (e_length <$> omap (fun x => if xad_length x =? 0 then None
    else Some (mkExtent (xad_offset x) (xad_length x) (xad_address x) (from_bits_truncate (bval (xad_flag x))))) xs) <= zlen xs * 2 ^ 24).
  { induction xs as [|x xs IH]; [done|]. cbn [omap list_omap]. rewrite zlen_cons. pose proof (xad_length_range x).
    destruct (xad_length x =? 0); cbn [fmap list_fmap foldr e_length]; lia. }
  specialize (Hs (xt_slots r)). lia.
Qed.

(** A second update of the page of an inode. *)
Lemma update_slot_again n (v v3 : Volume W) ino b k upd new new' :
  vol_base n v -> meta_block v b -> 0 <= k < INOSPERPAGE -> zlen new = 512 -> zlen new' = 512 -> upd new = Ok new' ->
  txn v v3 [((ino, b), zsplice (block_at (contents (v_storage v)) b) (k * DISIZE) new)] [] ->
  exists v4, update_inode_page ino b (k * DISIZE) upd v3 = (Ok tt, v4) /\
    txn v v4 [((ino, b), zsplice (block_at (contents (v_storage v)) b) (k * DISIZE) new')] [].
Proof.
  intros Hv Hm Hk Hz Hz' Hu Ht. pose proof Hm as [(H0 & Hr & _) _]. pose proof (block_at_len _ _ H0 Hr) as Hbl. pose proof (ok_cap n v Hv).
  set (page := zsplice _ _ new) in *. unfold DISIZE, INOSPERPAGE, BLOCK_SIZE, PSIZE in *.
  assert (Hpf : page_for [((ino, b), page)] (contents (v_storage v)) ino b = page) by (unfold page_for; cbn [PageCache.assoc]; by rewrite decide_True).
  assert (Hzp : zlen page = 4096) by (unfold page; rewrite zlen_zsplice; lia).
  destruct (update_txn v v3 _ [] ino b (k * 512) upd new' Ht) as (v4 & Hrun & Ht4); try done; rewrite ?Hpf; [|lia|lia| |].
  { change (zlen [_]) with 1. lia. } { unfold page. by rewrite zslice_zsplice_same by lia. }
  exists v4. split; [exact Hrun|]. rewrite Hpf in Ht4. cbn [unassoc] in Ht4. rewrite decide_True in Ht4 by done. unfold page in Ht4. by rewrite zsplice_over in Ht4 by lia.
Qed.

(** The closure of [store_xtree]. *)
Lemma store_tree_edits r d : wf_xtroot r -> zlen d = 512 ->
  exists d', (let! d := put_root (xtroot_bytes r) d in put_u64 32 (total_blocks r) d) = Ok d' /\ zlen d' = 512 /\
    zslice d' 4 12 = zslice d 4 12 /\ zslice d' 24 32 = zslice d 24 32 /\ zslice d' 224 512 = xtroot_bytes r.
Proof.
  intros Hwf Hz. destruct (xt_to_bytes_ok r Hwf) as [_ Hzr]. pose proof (total_blocks_range r Hwf) as Ht.
  destruct (put_root_edits (xtroot_bytes r) d Hz Hzr) as (d1 & -> & He1). cbn [obind].
  destruct (put_u64_edits d1 32 (total_blocks r)) as (d2 & -> & He2); [edit_size|lia|lia|lia|]. exists d2. split; [done|]. split; [edit_size|].
  split_and!; by frames.
Qed.

(** The inode after the tree [r'] is stored by a write that ends at [stop]. *)
Lemma grow_tree_ok n (v v2 : Volume W) ino b k old d r' stop :
  vol_base n v -> 4 <= n -> txn v v2 [] [] -> slot_at v ino = Some (b, k * DISIZE) -> meta_block v b -> 0 <= k < INOSPERPAGE ->
  old = slot_of [] (contents (v_storage v)) (b, k * DISIZE) -> zlen old = 512 -> dinode_parse old = Ok d -> 0 <= stop < 2 ^ 64 -> wf_xtroot r' ->
  exists v3 v4 v5 res v' new d',
    (if dinode_size_val d <? stop then update_inode_page ino b (k * DISIZE) (put_u64 24 stop) else sret tt) v2 = (Ok tt, v3) /\
    store_xtree ino (mkInode d ino b (k * DISIZE)) r' v3 = (Ok tt, v4) /\
    mark_page_dirty ino b v4 = (Ok tt, v5) /\ vol_commit_transaction v5 = (Ok res, v') /\ slot_committed (n - 4) v v' ino b new /\
    dinode_parse new = Ok d' /\ dinode_size_val d' = Z.max (dinode_size_val d) stop /\ dinode_xtroot_bytes d' = xtroot_bytes r'.
Proof.
  intros Hv Hn Ht Hs Hm Hk Hold Hz Hd Hst Hwf. destruct (xt_to_bytes_ok r' Hwf) as [Hpr Hzr].
  assert (Hfin : forall v3 old1 d1, zlen old1 = 512 -> zslice old1 4 12 = zslice old 4 12 -> dinode_parse old1 = Ok d1 ->
    (forall new, (let! d := put_root (xtroot_bytes r') old1 in put_u64 32 (total_blocks r') d) = Ok new -> zlen new = 512 ->
       exists v4, store_xtree ino (mkInode d ino b (k * DISIZE)) r' v3 = (Ok tt, v4) /\
       txn v v4 [((ino, b), zsplice (block_at (contents (v_storage v)) b) (k * DISIZE) new)] []) ->
    exists v4 v5 res v' new d', store_xtree ino (mkInode d ino b (k * DISIZE)) r' v3 = (Ok tt, v4) /\
      mark_page_dirty ino b v4 = (Ok tt, v5) /\ vol_commit_transaction v5 = (Ok res, v') /\ slot_committed (n - 4) v v' ino b new /\
      dinode_parse new = Ok d' /\ dinode_size_val d' = dinode_size_val d1 /\ dinode_xtroot_bytes d' = xtroot_bytes r').
  { intros v3 old1 d1 Hz1 Hkey Hd1 Hstore. destruct (store_tree_edits r' old1 Hwf Hz1) as (new & Hnew & Hzn & Hk2 & Hsz & Hroot).
    destruct (Hstore new Hnew Hzn) as (v4 & Hr4 & Ht4). destruct (mark_commit_ok n v v4 ino b k old new) as (v5 & res & v' & Hr5 & Hr6 & Hc); try done; [congruence|].
    destruct (dinode_parse_bytes new Hzn) as (d' & Hd' & _). exists v4, v5, res, v', new, d'. split_and!; try done.
    - unfold dinode_size_val. destruct (dinode_parse_fields new d' Hzn Hd') as (-> & _). destruct (dinode_parse_fields old1 d1 Hz1 Hd1) as (-> & _). by rewrite Hsz.
    - unfold dinode_xtroot_bytes. destruct (dinode_parse_fields new d' Hzn Hd') as (_ & _ & _ & _ & _ & _ & ->). rewrite zslice_zslice by lia. exact Hroot. }
  assert (Hunf : forall v3, store_xtree ino (mkInode d ino b (k * DISIZE)) r' v3 =
    update_inode_page ino b (k * DISIZE) (fun d => let! d := put_root (xtroot_bytes r') d in put_u64 32 (total_blocks r') d) v3).
  { intros v3. unfold store_xtree, sbind, slift. by rewrite Hpr. }
  destruct (Z.ltb_spec (dinode_size_val d) stop) as [Hlt|Hge].
  - destruct (put_u64_edits old 24 stop Hz ltac:(lia) ltac:(lia) Hst) as (old1 & Hput & He). pose proof (ed_size _ _ _ _ _ He) as Hz1.
    destruct (update_slot_ok n v v2 ino b k (put_u64 24 stop) old old1) as (v3 & Hr3 & Ht3); try done. destruct (dinode_parse_bytes old1 Hz1) as (d1 & Hd1 & _).
    destruct (Hfin v3 old1 d1) as (v4 & v5 & res & v' & new & d' & H4 & H5 & H6 & Hc & Hd' & Hsz & Hx); try done; [by frames| |].
    { intros new Hnew Hzn. rewrite Hunf. by apply (update_slot_again n v v3 ino b k _ old1 new). }
    exists v3, v4, v5, res, v', new, d'. split_and!; try done. rewrite Hsz. unfold dinode_size_val at 1. destruct (dinode_parse_fields old1 d1 Hz1 Hd1) as (-> & _).
    change 32 with (24 + 8). rewrite (ed_here _ _ _ _ _ He), read_write_u64 by done. lia.
  - destruct (Hfin v2 old d) as (v4 & v5 & res & v' & new & d' & H4 & H5 & H6 & Hc & Hd' & Hsz & Hx); try done.
    { intros new Hnew Hzn. rewrite Hunf. by apply (update_slot_ok n v v2 ino b k _ old new). }
    exists v2, v4, v5, res, v', new, d'. split_and!; try done. lia.
Qed.

(** ** Writing *)

(** The number of blocks of [len] bytes from [offset] on. *)
Definition span (offset len : Z) : Z := (len + offset mod BLOCK_SIZE + BLOCK_SIZE - 1) / BLOCK_SIZE.

(** Bytes behind the extents of a file, with a free slot in its tree and a run
    of free blocks. *)
Record grows_at (b : BlockAllocMap unit) (r : XtRoot) (offset len : Z) : Prop := {
  ga_offset : 0 <= offset;
  ga_len : 0 < len;
  ga_fits : offset / BLOCK_SIZE + span offset len < 2 ^ 40;
  ga_slot : xtroot_next_index r < 18;
  ga_end : Forall (fun x => xad_offset x + xad_length x <= offset / BLOCK_SIZE /\ xad_length x + span offset len < 2 ^ 24) (xt_slots r);
  ga_count : span offset len < 2 ^ 24;
  ga_free : exists s, 0 <= s /\ all_free (bam_free_map b) s (span offset len) }.

Lemma span_bounds offset len : 0 <= offset -> 0 < len ->
  0 < span offset len /\ offset mod BLOCK_SIZE + len <= span offset len * BLOCK_SIZE /\ (span offset len - 1) * BLOCK_SIZE < offset mod BLOCK_SIZE + len.
Proof.
  intros Ho Hl. unfold span, BLOCK_SIZE, PSIZE. pose proof (Z.mod_pos_bound offset 4096 ltac:(done)). set (k := len + offset mod 4096 + 4096 - 1).
  pose proof (Z.div_mod k 4096 ltac:(done)). pose proof (Z.mod_pos_bound k 4096 ltac:(done)). lia.
Qed.

(** The extents of the range: one hole. *)
Lemma map_hole r q cnt :
  wf_xtroot r -> xt_validate r = Ok tt -> 0 <= q -> 0 < cnt -> q + cnt < 2 ^ 64 -> Forall (fun x => xad_offset x + xad_length x <= q) (xt_slots r) ->
  map_blocks from_bits_truncate q cnt r = Ok [(0, cnt)].
Proof.
  intros Hwf Hval Hq Hc Hf He. destruct (map_blocks_ok from_bits_truncate q cnt r) as (runs & k & Hk & Hruns & Hpos & Hcase); try done; [lia|].
  assert (k = 0) as ->.
  { destruct (decide (k = 0)) as [|Hne]; [done|]. assert (Hin : phys (xt_slots r) q ∈ phys (xt_slots r) <$> seqZ q k) by (apply list_elem_of_fmap_2, elem_of_seqZ; lia).
    rewrite <- Hruns, (phys_none_above _ q q He ltac:(lia)) in Hin. by apply list_elem_of_fmap in Hin as (? & ? & _). }
  assert (runs = []) as ->.
  { destruct runs as [|[a m] runs]; [done|]. apply Forall_cons in Hpos as [Hm _]. cbn [snd] in Hm. apply (f_equal length) in Hruns. change (run_blocks ((a, m) :: runs)) with (seqZ a m ++ run_blocks runs) in Hruns.
    rewrite !length_fmap, length_app, !length_seqZ in Hruns. lia. }
  destruct Hcase as [[? _]|(_ & _ & ->)]; [lia|]. cbn [app]. do 3 f_equal. lia.
Qed.

(** The run that [write_at] makes of the hole. *)
Lemma write_hole_ok n (v v2 : Volume W) b r offset data :
  vol_ok n v -> txn v v2 [] [] -> space_ok v b -> wf_xtroot r -> xt_validate r = Ok tt -> grows_at b r offset (zlen data) ->
  let cnt := span offset (zlen data) in let q := offset / BLOCK_SIZE in
  exists s st r' w', 0 <= s /\ s + cnt <= bam_mapsize b /\ all_free (bam_free_map b) s cnt /\
    write_runs (fun _ => false) data [(0, cnt)] (mkWrite 0 0 (zlen data) (offset mod BLOCK_SIZE) q r false 0) v2 =
      (Ok st, v_with_bmap (Some (allocated b s cnt)) w' v2) /\
    ws_written st = zlen data /\ ws_modified st = true /\ ws_xtree st = r' /\ wf_xtroot r' /\ xt_validate r' = Ok tt /\
    (forall x, phys (xt_slots r') x = if in_range q (q + cnt) x then Some (s + (x - q)) else phys (xt_slots r) x) /\
    st_wf w' /\ zlen (contents w') = zlen (contents (v_storage v)) /\
    (forall x, 0 <= x -> x ∉ seqZ s cnt -> block_at (contents w') x = block_at (contents (v_storage v)) x) /\
    concat (block_at (contents w') <$> seqZ s cnt) = zsplice (zeros (Z.to_nat (cnt * BLOCK_SIZE))) (offset mod BLOCK_SIZE) data.
Proof.
  intros Hv Ht Hsp Hwf Hval [G1 G2 G3 G4 G5 G6 G7] cnt q. fold cnt q in G3, G5, G6, G7. destruct (span_bounds offset (zlen data) G1 G2) as (B1 & B2 & B3). fold cnt in B1, B2, B3.
  pose proof (Z.div_pos offset BLOCK_SIZE G1 ltac:(done)) as Hq. fold q in Hq. pose proof (Z.mod_pos_bound offset BLOCK_SIZE ltac:(done)) as Hm.
  pose proof (ok_bmap n v Hv) as Hbm. rewrite (so_map v b Hsp) in Hbm. destruct Hbm as (M1 & _). pose proof (so_size v b Hsp) as Hsz.
  assert (Hb2 : v_bmap v2 = Some b) by (rewrite (tn_bmap _ _ _ _ Ht); apply Hsp). pose proof (tn_contents _ _ _ _ Ht) as Hc.
  assert (Hcm : cnt <= bam_mapsize b).
  { destruct G7 as (s0 & Hs0 & Hf0). pose proof (lookup_lt_Some _ _ _ (Hf0 (s0 + cnt - 1) ltac:(lia))). rewrite <- M1. unfold zlen. lia. }
  destruct (on_bmap_alloc v2 b cnt q Hb2 M1 ltac:(lia) Hq G7) as (s & Hs & Hr & Hf & Halloc). set (m := allocated b s cnt) in *.
  assert (Hcu : as_u32 cnt = cnt) by (apply as_u32_small; lia). rewrite Hcu in Halloc. destruct (pxd_set_both cnt s) as (Hpl & Hpa & _); [lia|lia|].
  set (st1 := mkWrite 0 0 (zlen data) (offset mod BLOCK_SIZE) q r false 1).
  assert (Hblk : Z.add s <$> range 0 cnt = seqZ s cnt) by (rewrite fmap_add_range; unfold range; f_equal; lia).
  assert (Hzr : zlen (range 0 cnt) = cnt) by (rewrite <- (zlen_fmap (Z.add s)), Hblk; unfold zlen; rewrite length_seqZ; lia).
  destruct (write_new_ok data r s (range 0 cnt) st1 (offset mod BLOCK_SIZE) data (v_with_bmap (Some m) (v_storage v2) v2) (v_storage v2))
    as (st2 & boff2 & w' & Hrun & Hw' & Hwr & Hlog & Hzw & Hk & Hfile).
  { split; cbn; try done; [lia|by rewrite zslice_all|lia]. }
  { apply Ht. } { done. }
  { change (Forall (on_device (contents (v_storage v2)) ∘ Z.add s) (range 0 cnt)). rewrite <- Forall_fmap, Hblk, Hc. apply Forall_seqZ. intros x Hx.
    destruct (so_free v b Hsp x ltac:(lia) (Hf x Hx)) as [(_ & [(X0 & X1 & _) _] & _) _]. done. }
  { rewrite Hblk. apply NoDup_seqZ. } { by rewrite Hzr. } { right. by rewrite Hzr. } { by right. }
  rewrite Hblk, Hc in *. rewrite Hzr in Hfile.
  destruct (insert_extent_ok q cnt s r Hwf Hval ltac:(lia) ltac:(lia) ltac:(lia) ltac:(lia) G5) as [[? _]|(r' & Hins & Hwf' & Hval' & Hph)]; [lia|].
  eexists s, _, r', w'. split; [done|]. split; [done|]. split; [done|]. split.
  { cbn [write_runs]. unfold sbind at 1, checked. cbn match. unfold sret at 1. cbn [ws_written ws_pos ws_remaining ws_boff ws_logical ws_xtree ws_modified ws_checks]. fold st1.
    destruct (Z.eqb_spec (zlen data) 0); [lia|]. unfold write_run. cbn [Z.eqb]. unfold sbind at 1. change (ws_logical st1) with q. rewrite (sbind_ok _ _ _ _ _ Halloc).
    unfold write_hole. rewrite Hpa, Hpl. rewrite (sbind_ok _ _ _ _ _ Hrun). rewrite Hlog, (wr_tree _ _ _ _ _ Hwr). change (ws_logical st1) with q.
    unfold sbind at 1, slift. rewrite Hcu, as_i64_small by lia. rewrite Hins. unfold sret. reflexivity. }
  cbn [ws_written ws_modified ws_xtree]. pose proof (writing_len data _ _ _ _ Hwr) as Hrem. change (zlen []) with 0 in Hrem. destruct Hwr as [_ Hp _ Hr2 Hwn _ _].
  split_and!; try done. lia.
Qed.

(** The map that the commit leaves. *)
Definition given (b : BlockAllocMap unit) (s cnt : Z) : BlockAllocMap unit :=
  bam_update b (saturating_sub (bam_nfree b) cnt) (mark_extent s cnt false (bam_free_map b)) [] [] ∅.

Lemma given_free b s cnt a : 0 <= s -> 0 <= a -> bam_free_map (given b s cnt) !! Z.to_nat a = Some true -> bam_free_map b !! Z.to_nat a = Some true /\ a ∉ seqZ s cnt.
Proof.
  intros Hs Ha. cbn [given bam_update bam_free_map]. rewrite lookup_mark_extent by done. rewrite elem_of_seqZ. destruct (decide _) as [|Hn]; [by destruct (bam_free_map b !! _)|].
  intros H. split; [done|]. lia.
Qed.

(** The space that is left can be used by the next call. *)
Lemma space_given n (v v' : Volume W) b s cnt ino pb new w' :
  vol_ok (n + 4) v -> space_ok v b -> 0 <= s -> 0 < cnt -> all_free (bam_free_map b) s cnt -> zlen (contents w') = zlen (contents (v_storage v)) ->
  slot_committed n (v_with_bmap (Some (allocated b s cnt)) w' v) v' ino pb new -> space_ok v' (given b s cnt).
Proof.
  intros Hv Hsp Hs Hc Hf Hz Hsc. pose proof (sc_static _ _ _ _ _ _ Hsc : v_static v' = v_static v) as Hst. destruct (table_view_static v v' Hst) as [Htb Hag].
  assert (Hmp : forall x, map_page (given b s cnt) x -> map_page b x) by (intros x (a & Ha & H & ->); destruct (given_free b s cnt a Hs Ha H); by exists a).
  split; [by rewrite (sc_bmap _ _ _ _ _ _ Hsc)|apply Hsp| |].
  - intros a Ha H. destruct (given_free b s cnt a Hs Ha H) as [H1 _]. destruct (so_free v b Hsp a Ha H1) as [(D1 & D2 & D3) D4]. split; [|by intros ?%Hmp].
    split; [done|]. rewrite Htb, Hag. split; [|done].
    apply (sc_meta _ _ _ _ _ _ Hsc), (meta_map v b _ (fun x => x = page_of_run b s)); [apply Hsp|apply (map_step_alloc (n + 4) v); [done|apply Hsp|done|done]|done|done|].
    intros ->. by apply D4, (run_page b s cnt).
  - intros x Hx%Hmp. destruct (so_pages v b Hsp x Hx) as [(X1 & X2 & X3) X4]. rewrite Htb, Hag. split; [|done]. split; [done|]. rewrite (sc_len _ _ _ _ _ _ Hsc).
    split; [cbn [v_with_bmap v_set v_storage]; by rewrite Hz|]. by apply (sc_log _ _ _ _ _ _ Hsc).
Qed.

(** What the layout of a volume is for the allocator. *)
Record same_layout (v v' : Volume W) : Prop := {
  sl_static : v_static v' = v_static v;
  sl_log : forall x, before_log (v_log v') x <-> before_log (v_log v) x;
  sl_len : zlen (contents (v_storage v')) = zlen (contents (v_storage v)) }.

Lemma write_grows_ok n (v : Volume W) ino offset data old d r b :
  vol_ok n v -> 4 <= n -> file_at v ino old d r -> space_ok v b -> grows_at b r offset (zlen data) ->
  let cnt := span offset (zlen data) in let q := offset / BLOCK_SIZE in
  exists v' new d' r' s, write_at ino offset data v = (Ok (zlen data), v') /\ vol_ok (n - 4) v' /\ all_free (bam_free_map b) s cnt /\ 0 <= s /\
    space_ok v' (given b s cnt) /\ file_at v' ino new d' r' /\ dinode_size_val d' = Z.max (dinode_size_val d) (offset + zlen data) /\
    (forall x, phys (xt_slots r') x = if in_range q (q + cnt) x then Some (s + (x - q)) else phys (xt_slots r) x) /\
    blocks_of v' (seqZ s cnt) = zsplice (zeros (Z.to_nat (cnt * BLOCK_SIZE))) (offset mod BLOCK_SIZE) data /\
    (forall a, data_block v a -> ~ map_page b a -> data_block v' a /\ (a ∉ seqZ s cnt -> block_at (contents (v_storage v')) a = block_at (contents (v_storage v)) a)) /\
    (forall i, i <> ino -> inode_bytes v' i = inode_bytes v i) /\ same_layout v v'.
Proof.
  intros Hv Hn Hf Hsp Hg cnt q. destruct (file_tree n v ino old d r Hv Hf) as (Hz & Hwf & _). pose proof Hf as [Hby Hd Htree Hval]. pose proof Hg as [G1 G2 G3 G4 G5 G6 G7].
  destruct (span_bounds offset (zlen data) G1 G2) as (B1 & B2 & B3). fold cnt q in G3, G5, G6, B1, B2, B3. pose proof (Z.div_pos offset BLOCK_SIZE G1 ltac:(done)) as Hq. fold q in Hq.
  assert (Hstop : offset + zlen data < 2 ^ 63).
  { pose proof (Z.div_mod offset BLOCK_SIZE ltac:(done)) as Hdm. fold q in Hdm. unfold BLOCK_SIZE, PSIZE in *. lia. }
  destruct (begin_read_ok n v ino old Hv Hby) as (t & v1 & v2 & d0 & pb & off & Hr1 & Hr2 & Hs & Ht & Hd0). rewrite Hd in Hd0. injection Hd0 as <-.
  destruct (write_hole_ok n v v2 b r offset data Hv Ht Hsp Hwf Hval Hg) as (s & st & r' & w & Hs0 & Hsr & Hfr & Hr3 & Hwn & Hmod & Hst & Hwf' & Hval' & Hph & Hw & Hzw & Hk & Hfile).
  fold cnt q in Hsr, Hfr, Hr3, Hph, Hk, Hfile. set (m := allocated b s cnt) in *.
  pose proof (st_flush_data_ok w Hw) as Hfd. destruct (st_flush_data w Hw) as [Hw5 Hc5]. destruct (flush_data w) as [o w5] eqn:E5. cbn [fst snd] in *. subst o.
  assert (Hfree : forall x, x ∈ seqZ s cnt -> data_block v x /\ ~ map_page b x).
  { intros x Hx%elem_of_seqZ. apply (so_free v b Hsp); [lia|]. apply Hfr. lia. }
  assert (Hktab : forall x, x ∈ table_blocks (table_view v) -> x < v_agg_size v -> block_at (contents w5) x = block_at (contents (v_storage v)) x).
  { intros x Hx Ha. rewrite Hc5. destruct (ok_blocks n v Hv x Hx Ha) as [(? & _) _]. apply Hk; [done|]. intros Hin. destruct (Hfree x Hin) as [(_ & _ & Hno) _]. specialize (Hno Hx). lia. }
  assert (Hz5 : zlen (contents w5) = zlen (contents (v_storage v))) by congruence.
  pose proof (map_step_alloc n v b s cnt Hv (so_map v b Hsp) Hs0 B1) as Hms. fold m in Hms.
  destruct (base_map n v b m _ w5 Hv (so_map v b Hsp) Hms) as (Hv5 & Hsl & Hib); try done; [by intros x ->; apply (so_pages v b Hsp), (run_page b s cnt)|].
  pose proof (txn_map v v2 [] [] (Some m) w5 Ht Hw5) as Ht5.
  set (vb := v_with_bmap (Some m) w5 v) in *. set (v5 := v_with_bmap (Some m) w5 v2) in *. assert (Hby5 : inode_bytes vb ino = Some old) by (by rewrite Hib).
  destruct (inode_bytes_some n _ ino old Hv5 Hby5) as (pb' & k & Hs5 & Hm5 & Hk5 & Hin5 & Hold5 & _). rewrite Hsl, Hs in Hs5. injection Hs5 as <- ->.
  destruct (grow_tree_ok n vb v5 ino pb k old d r' (offset + zlen data)) as (v6 & v7 & v8 & res & v' & new & d' & Hr6 & Hr7 & Hr8 & Hr9 & Hsc & Hd' & Hsz & Hxt);
    try done; [by rewrite Hsl|lia|].
  pose proof (sc_static _ _ _ _ _ _ Hsc : v_static v' = v_static v) as Hstat. destruct (table_view_static v v' Hstat) as [Htb Hag].
  assert (Hmeta : forall x, data_block v x -> ~ map_page b x -> meta_block vb x).
  { intros x (_ & Hx & _) Hnp. apply (meta_map v b m _ w5 x (so_map v b Hsp) Hms); [done|done|]. intros ->. by apply Hnp, (run_page b s cnt). }
  assert (Hblk : forall x, data_block v x -> ~ map_page b x -> block_at (contents (v_storage v')) x = block_at (contents w) x).
  { intros x Hx Hnp. rewrite <- Hc5. apply (sc_blocks _ _ _ _ _ _ Hsc); [by apply Hmeta|]. by apply (data_not_slot v x pb (k * DISIZE) Hx). }
  destruct (xt_print_parse r' Hwf') as (r2 & Hr2p & _ & Hslots & _). exists v', new, d', r2, s.
  split; [|split; [apply Hsc|]]; [|split_and!; try done].
  - unfold write_at, write_at_with_interrupt. rewrite (sbind_ok _ _ _ _ _ Hr1), (sbind_ok _ _ _ _ _ Hr2). unfold inode_xtree. cbn [in_dinode in_page_block in_page_offset inode_size].
    unfold sbind at 1, slift. rewrite Htree. unfold sbind at 1. fold (span offset (zlen data)). fold cnt q. rewrite as_u32_small by lia.
    rewrite map_hole; [|done|done|lia|lia|lia|by eapply Forall_impl; [exact G5|intros ? []]]. rewrite (sbind_ok _ _ _ _ _ Hr3).
    unfold sbind at 1, checked. cbn match. unfold sret at 1. unfold sbind at 1, on_storage. cbn [v_with_bmap v_set v_storage]. rewrite E5.
    unfold sbind at 1. cbn [ws_written ws_modified ws_xtree]. rewrite Hwn, Hmod, Hst, add_u64_ok by lia.
    change (v_with_dev w5 (v_with_bmap (Some m) w v2)) with v5. unfold inode_size. cbn [in_dinode].
    rewrite (sbind_ok _ _ _ _ _ Hr6), (sbind_ok _ _ _ _ _ Hr7), (sbind_ok _ _ _ _ _ Hr8). by rewrite Hr9.
  - apply (space_given (n - 4) v v' b s cnt ino pb new w5); try done. by replace (n - 4 + 4) with n by lia.
  - split; [by rewrite (sc_inodes _ _ _ _ _ _ Hsc), decide_True|done|by rewrite Hxt|]. unfold xt_validate. by rewrite Hslots.
  - intros x. by rewrite Hslots.
  - unfold blocks_of. rewrite <- Hfile. f_equal. apply list_fmap_ext. intros i a Hi%list_elem_of_lookup_2. destruct (Hfree a Hi). by apply Hblk.
  - intros a Ha Hnp. pose proof Ha as (Ha0 & Hma & Hta). split.
    + split; [done|]. split; [by apply (sc_meta _ _ _ _ _ _ Hsc), Hmeta|]. by rewrite Htb, Hag.
    + intros Hna. rewrite Hblk by done. apply Hk; [lia|done].
  - intros i Hi. rewrite (sc_inodes _ _ _ _ _ _ Hsc), decide_False by done. apply Hib.
  - split; [done|apply (sc_log _ _ _ _ _ _ Hsc)|]. by rewrite (sc_len _ _ _ _ _ _ Hsc).
Qed.

(** The run of the append as a range of the file. *)
Lemma grown_range (v v' : Volume W) b r r' s offset len :
  space_ok v b -> grows_at b r offset len -> 0 <= s -> all_free (bam_free_map b) s (span offset len) ->
  (forall x, phys (xt_slots r') x = if in_range (offset / BLOCK_SIZE) (offset / BLOCK_SIZE + span offset len) x then Some (s + (x - offset / BLOCK_SIZE)) else phys (xt_slots r) x) ->
  (forall a, data_block v a -> ~ map_page b a -> data_block v' a) -> range_at v' r' offset len (seqZ s (span offset len)).
Proof.
  intros Hs [G1 G2 G3 _ _ G6 _] H0 Hf Hph Hd. destruct (span_bounds offset len G1 G2) as (B1 & B2 & B3). pose proof (Z.div_mod offset BLOCK_SIZE ltac:(done)) as Hdm.
  pose proof (Z.mod_pos_bound offset BLOCK_SIZE ltac:(done)) as Hm. pose proof (Z.div_pos offset BLOCK_SIZE G1 ltac:(done)) as Hq. split; [done|unfold BLOCK_SIZE, PSIZE in *; lia| |apply NoDup_seqZ|].
  - fold (span offset len). apply list_eq. intros i. rewrite !list_lookup_fmap. destruct (decide (Z.of_nat i < span offset len)) as [Hi|Hi]; [|by rewrite !lookup_seqZ_ge by lia].
    rewrite !lookup_seqZ_lt by lia. cbn. rewrite Hph, in_range_spec, bool_decide_eq_true_2 by lia. do 2 f_equal. lia.
  - apply Forall_seqZ. intros x Hx. destruct (so_free v b Hs x ltac:(lia) (Hf x Hx)) as [D1 D2]. by apply Hd.
Qed.

(** C11: appending refines the byte string of the file: writing behind the extents
    of a file takes a run of free blocks and no other, the blocks hold the data
    over zeros, the tree maps the new blocks of the file to the run and the old
    ones as before, the size is at least the end of the write, the other
    inodes and data blocks keep their contents, and the bytes are read back.
    The volume and the free space that is left are ready for the next call. *)
Theorem write_at_allocates n (v : Volume W) ino offset data old d r b
  (Hv : vol_ok n v) (Hn : 4 <= n) (Hf : file_at v ino old d r) (Hs : space_ok v b) (Hg : grows_at b r offset (zlen data)) :
  let cnt := span offset (zlen data) in let q := offset / BLOCK_SIZE in
  exists v' new d' r' s, write_at ino offset data v = (Ok (zlen data), v') /\ vol_ok (n - 4) v' /\
    0 <= s /\ all_free (bam_free_map b) s cnt /\ space_ok v' (given b s cnt) /\
    file_at v' ino new d' r' /\ dinode_size_val d' = Z.max (dinode_size_val d) (offset + zlen data) /\
    (forall x, phys (xt_slots r') x = if in_range q (q + cnt) x then Some (s + (x - q)) else phys (xt_slots r) x) /\
    blocks_of v' (seqZ s cnt) = zsplice (zeros (Z.to_nat (cnt * BLOCK_SIZE))) (offset mod BLOCK_SIZE) data /\
    (forall a, data_block v a -> ~ map_page b a -> a ∉ seqZ s cnt -> block_at (contents (v_storage v')) a = block_at (contents (v_storage v)) a) /\
    (forall i, i <> ino -> inode_bytes v' i = inode_bytes v i) /\
    (read_data from_bits_truncate offset (zlen data) r' (v_storage v')).1 = Ok data.
Proof.
  intros cnt q. destruct (write_grows_ok n v ino offset data old d r b Hv Hn Hf Hs Hg) as (v' & new & d' & r' & s & H1 & H2 & H3 & H4 & H5 & H6 & H7 & H8 & H9 & H10 & H11 & _).
  destruct (grown_range v v' b r r' s offset (zlen data)) as [R1 [R2 _] R4 _ R6]; try done; [by intros a Ha Hp; apply H10|].
  exists v', new, d', r', s. split_and!; try done; [by intros a Ha Hp; apply H10|]. destruct (file_tree (n - 4) v' ino new d' r' H2 H6) as (_ & Hwf & _). destruct H6 as [_ _ _ Hval].
  pose proof (zlen_nonneg data). destruct (read_data_ok from_bits_truncate offset (zlen data) r' (seqZ s (span offset (zlen data))) (v_storage v')) as (w' & Hrun & _); try done; [apply H2| |].
  - eapply Forall_impl; [exact R6|]. intros a (E1 & [(_ & E2 & _) _] & _). done.
  - rewrite Hrun. cbn [fst]. f_equal. fold (blocks_of v' (seqZ s (span offset (zlen data)))). rewrite H9. destruct Hg as [G1 G2 _ _ _ _ _].
    destruct (span_bounds offset (zlen data) G1 G2) as (B1 & B2 & B3). pose proof (Z.mod_pos_bound offset BLOCK_SIZE ltac:(done)).
    apply zslice_zsplice_same; [lia| |done]. rewrite zlen_zeros by (unfold BLOCK_SIZE, PSIZE; lia). lia.
Qed.
End file_grow.

(** ** Witness *)

Section witness.
#[local] Existing Instance le_codec.
#[local] Existing Instance le_codec_spec.
#[local] Existing Instance sample_order.
#[local] Existing Instance sample_order_spec.
#[local] Existing Instance sample_flags.

(** A device of eight blocks with its map in the blocks 6 and 7 and the blocks
    4 and 5 free. *)
Definition grow_map : BlockAllocMap unit := mkBam tt 6 2 [false; false; false; false; true; true] 1 6 0 [] [] ∅.
Definition mapped_volume (dev : MemoryStorage) : Volume MemoryStorage := v_with_bmap (Some grow_map) dev (volume_on dev).

Section mapped.
Context (dev : MemoryStorage) (Hdev : mem_wf dev) (Hsize : ms_size dev = 32768).

Lemma mapped_block a : 0 <= a < 8 -> a <> 6 -> meta_block (mapped_volume dev) a.
Proof.
  intros Ha Hne. split; [|intros [E|[]%not_elem_of_empty]; exact (Hne E)]. split_and!; [lia| |exact I].
  change (contents (v_storage (mapped_volume dev))) with (ms_data dev). destruct Hdev as [-> _]. rewrite Hsize. unfold BLOCK_SIZE, PSIZE. lia.
Qed.

Lemma mapped_ok n : vol_ok n (mapped_volume dev).
Proof.
  split; [|reflexivity]. split; try (exact I || reflexivity || discriminate).
  - exact Hdev.
  - split; [reflexivity|]. split; [vm_compute; split; [discriminate|reflexivity]|]. split; [|intros p []%not_elem_of_empty]. split_and!; [discriminate| |exact I].
    change (contents (v_storage (mapped_volume dev))) with (ms_data dev). destruct Hdev as [-> _]. rewrite Hsize. discriminate.
  - intros b Hb Ha. apply elem_of_range in Hb as [Hb _]. change (pxd_address _) with 0 in Hb. change (v_agg_size _) with 1 in Ha. apply mapped_block; lia.
Qed.

Lemma grow_map_free a : 0 <= a -> bam_free_map grow_map !! Z.to_nat a = Some true -> a = 4 \/ a = 5.
Proof. intros Ha. cbn [grow_map bam_free_map]. destruct (Z.to_nat a) as [|[|[|[|[|[|]]]]]] eqn:E; cbn; try done; lia. Qed.

Lemma mapped_space : space_ok (mapped_volume dev) grow_map.
Proof.
  assert (Hp : forall x, map_page grow_map x -> x = 7) by (intros x (a & Ha & [->| ->]%grow_map_free & ->); done).
  split; [reflexivity|discriminate| |].
  - intros a Ha H. destruct (grow_map_free a Ha H) as [->| ->]; (split; [|intros ?%Hp; lia]); (split; [lia|]); (split; [apply mapped_block; lia|]); intros _; discriminate.
  - intros x ->%Hp. split; [exact (proj1 (mapped_block 7 ltac:(lia) ltac:(lia)))|]. intros _. discriminate.
Qed.
End mapped.

(** The file of two blocks on such a device. *)
Definition grow_device : MemoryStorage := mkMem (sample_root ++ sample_file ++ zeros (Z.to_nat 3072) ++ replicate (Z.to_nat 28672) Byte.x41) 32768.
Definition grow_volume : Volume MemoryStorage := mapped_volume grow_device.

Lemma grow_device_wf : mem_wf grow_device.
Proof. split; vm_compute; reflexivity || discriminate. Qed.

Lemma grow_volume_file : file_at grow_volume 17 sample_file sample_file_dinode sample_file_tree.
Proof. split; vm_compute; reflexivity. Qed.

Lemma grow_volume_room : grows_at grow_map sample_file_tree 12287 (zlen sample_bytes).
Proof.
  split; [lia|reflexivity|vm_compute; reflexivity|vm_compute; reflexivity|apply (bool_decide_unpack _); vm_compute; exact I|vm_compute; reflexivity|].
  exists 4. split; [lia|]. intros i Hi. change (span 12287 (zlen sample_bytes)) with 2 in Hi. assert (i = 4 \/ i = 5) as [->| ->] by lia; reflexivity.
Qed.

Lemma write_at_allocates_witness :
  exists v' r', write_at 17 12287 sample_bytes grow_volume = (Ok 3, v') /\ phys (xt_slots r') 3 = Some 5 /\
    (read_data from_bits_truncate 12287 3 r' (v_storage v')).1 = Ok sample_bytes.
Proof.
  destruct (write_at_allocates 100 grow_volume 17 12287 sample_bytes sample_file sample_file_dinode sample_file_tree grow_map
    (mapped_ok grow_device grow_device_wf eq_refl 100) ltac:(lia) grow_volume_file (mapped_space grow_device grow_device_wf eq_refl) grow_volume_room) as (v' & new & d' & r' & s & H1 & _ & H3 & H4 & _ & _ & _ & H8 & _ & _ & _ & H12).
  change (span 12287 (zlen sample_bytes)) with 2 in H4, H8. change (12287 / BLOCK_SIZE) with 2 in H8. exists v', r'. split; [exact H1|]. split; [|exact H12]. rewrite H8.
  destruct (grow_map_free s H3 (H4 s ltac:(lia))) as [->| ->]; [reflexivity|]. discriminate (H4 6 ltac:(lia)).
Defined.

(** The inode table is scanned 32 blocks past its extent. Where these blocks are
    free, as formatting leaves them, the data of a file is taken for an inode:
    the volume has no inode 40, and after a write of 512 bytes to inode 17 it
    has one that consists of the bytes written, with the mode of a set-uid
    program of the superuser. *)
Definition forged : list byte := sample_dinode 24 0x89ed 1 0 [].
Definition exposed_volume : Volume MemoryStorage :=
  mkVolume super_default None tm_new (v_storage grow_volume) false (pc_new 256) 4096 12 8 1 1 18 (Some grow_map) ∅.

Theorem file_data_becomes_inode :
  inode_bytes exposed_volume 40 = None /\ (write_at 17 8192 forged exposed_volume).1 = Ok 512 /\
  inode_bytes (write_at 17 8192 forged exposed_volume).2 40 = Some forged.
Proof. split_and!; vm_compute; reflexivity. Qed.
End witness.
