(* ===== verification/FileShrink.v ===== *)
(** * Shrinking a file

    [truncate] to fewer blocks: the tree loses the blocks behind the new end, the
    allocator gets exactly these back, and the commit stores the map. The first
    section adds to the theorems on [truncate_extents] that the tree stays valid and
    that every freed run is one the allocator accepts. *)

From stdpp Require Import gmap.
From Stdlib Require Import ZArith Lia.
From S2P Require Import Types Storage PageCache Dmap Xtree LogMgr Devices Recovery Transaction Inode Volume VolumeData VolumeOps VolumeTx DinodeEdit InodeTable Sample FileData FileGrow Prelude.

(** ** The tree *)

Section tree.
Context {LE : LittleEndian} {LES : LittleEndianSpec}.

(** What a step keeps is valid behind any end that the slot allows. *)
Definition stays_valid (s k : list Xad) : Prop :=
  forall p q, q <= p -> validate_slots s p = true -> validate_slots k q = true /\ validate_end k q <= validate_end s p.

Definition run_ok (e : Z * Z) : Prop := 0 <= e.1 /\ 0 < e.2 < 2 ^ 24 /\ e.1 + e.2 <= 2 ^ 40 + 2 ^ 24.

Lemma stays_valid_app x s k ks : stays_valid [x] k -> stays_valid s ks -> stays_valid (x :: s) (k ++ ks).
Proof.
  intros H1 H2 p q Hq. change (x :: s) with ([x] ++ s). rewrite !validate_app. intros [Hx Hs]%andb_true_iff. destruct (H1 p q Hq Hx) as [-> He].
  assert (Hend : forall l l' z, validate_end (l ++ l') z = validate_end l' (validate_end l z)) by (induction l as [|y l IH]; intros l' z; cbn [app validate_end]; done).
  rewrite !Hend. exact (H2 _ _ He Hs).
Qed.

(** Block [x] of the file is block [a] of the device. *)
Definition maps (slots : list Xad) (x a : Z) : Prop :=
  exists y, y ∈ slots /\ xad_offset y <= x < xad_offset y + xad_length y /\ a = xad_address y + (x - xad_offset y).

Lemma maps_cons y slots x a : maps (y :: slots) x a <-> (xad_offset y <= x < xad_offset y + xad_length y /\ a = xad_address y + (x - xad_offset y)) \/ maps slots x a.
Proof. unfold maps. setoid_rewrite elem_of_cons. naive_solver. Qed.

Lemma maps_one x z a : maps [x] z a <-> xad_offset x <= z < xad_offset x + xad_length x /\ a = xad_address x + (z - xad_offset x).
Proof. rewrite maps_cons. split; [intros [?|(? & ?%elem_of_nil & _)]; done|by left]. Qed.

Lemma maps_after slots : forall p x a, validate_slots slots p = true -> maps slots x a -> p <= x.
Proof.
  induction slots as [|y slots IH]; intros p x a; [by intros _ (? & ?%elem_of_nil & _)|]. cbn [validate_slots]. rewrite maps_cons.
  destruct (Z.eqb_spec (xad_length y) 0) as [Hz|Hz]; [intros Hv [[? _]|Hm]; [lia|by eapply IH]|].
  destruct (Z.ltb_spec (xad_offset y) p); [done|]. pose proof (xad_length_range y). intros Hv [[? _]|Hm]; [lia|]. pose proof (IH _ _ _ Hv Hm). lia.
Qed.

(** On a valid tree the lookup finds every block. *)
Lemma maps_phys slots : forall p x a, validate_slots slots p = true -> maps slots x a <-> phys slots x = Some a.
Proof.
  induction slots as [|y slots IH]; intros p x a; [intros _; split; [by intros (? & ?%elem_of_nil & _)|done]|]. cbn [validate_slots phys]. rewrite maps_cons.
  destruct (Z.eqb_spec (xad_length y) 0) as [Hz|Hz].
  { intros Hv. rewrite decide_False by lia. rewrite <- (IH p) by done. split; [intros [[? _]|]; [lia|done]|by right]. }
  destruct (Z.ltb_spec (xad_offset y) p); [done|]. intros Hv. destruct (decide (xad_offset y <= x < xad_offset y + xad_length y)) as [Hx|Hx].
  - split; [intros [[_ ->]|Hm]; [done|]|intros [= <-]; by left]. pose proof (maps_after _ _ _ _ Hv Hm). lia.
  - rewrite <- (IH _ x a Hv). split; [intros [[? _]|]; [lia|done]|by right].
Qed.

Lemma slot_blocks_maps slots a : a ∈ slot_blocks slots <-> exists x, maps slots x a.
Proof.
  induction slots as [|y slots IH]; [split; [by intros ?%elem_of_nil|by intros (x & y & ?%elem_of_nil & _)]|].
  change (slot_blocks (y :: slots)) with (seqZ (xad_address y) (xad_length y) ++ slot_blocks slots). rewrite elem_of_app, elem_of_seqZ, IH. setoid_rewrite maps_cons. split.
  - intros [Ha|(x & Hx)]; [exists (xad_offset y + (a - xad_address y)); left; lia|exists x; by right].
  - intros (x & [[Hx ->]|Hx]); [left; lia|right; by exists x].
Qed.

Lemma truncate_step_valid eof x : wf_xad x -> exists k t, truncate_step eof x = Ok (k, t) /\ stays_valid [x] k /\ Forall run_ok t /\ zlen t <= 1 /\
  forall a, a ∈ run_blocks t <-> exists z, eof <= z /\ maps [x] z a.
Proof.
  intros Hx. pose proof (xad_offset_range x Hx). pose proof (xad_length_range x). pose proof (xad_address_range x Hx).
  assert (Hrun : forall s n a, a ∈ run_blocks [(s, n)] <-> s <= a < s + n).
  { intros s n a. change (run_blocks [(s, n)]) with (seqZ s n ++ []). by rewrite app_nil_r, elem_of_seqZ. }
  setoid_rewrite maps_one. unfold truncate_step. destruct (Z.eqb_spec (xad_length x) 0) as [Hz|Hz].
  { exists [], []. split_and!; [done| |constructor|done|]. { intros p q Hq. cbn [validate_slots validate_end]. by rewrite Hz. }
    intros a. split; [by intros ?%elem_of_nil|]. intros (z & _ & ? & _). lia. }
  destruct (Z.leb_spec eof (xad_offset x)) as [He|He].
  { eexists _, _. split_and!; [done| |repeat constructor; cbn; lia|done|].
    - intros p q Hq. cbn [validate_slots validate_end]. destruct (Z.eqb_spec (xad_length x) 0); [done|]. destruct (Z.ltb_spec (xad_offset x) p); [done|]. intros _. split; [done|]. lia.
    - intros a. rewrite Hrun. split; [intros Ha; exists (xad_offset x + (a - xad_address x)); lia|]. intros (z & Hz1 & Hz2 & ->). lia. }
  destruct (Z.ltb_spec eof (xad_offset x + xad_length x)) as [He2|He2].
  - rewrite !as_u32_small by lia. eexists _, _. split_and!; [done| |repeat constructor; cbn [fst snd]; lia|done|].
    + intros p q Hq. cbn [validate_slots validate_end]. destruct (xad_edit_length x (eof - xad_offset x)) as (_ & -> & -> & _); [done|lia|].
      destruct (Z.eqb_spec (xad_length x) 0); [done|]. destruct (Z.ltb_spec (xad_offset x) p); [done|]. intros _.
      destruct (Z.eqb_spec (eof - xad_offset x) 0); [lia|]. destruct (Z.ltb_spec (xad_offset x) q); [lia|]. split; [done|]. lia.
    + intros a. rewrite Hrun. split; [intros Ha; exists (xad_offset x + (a - xad_address x)); lia|]. intros (z & Hz1 & Hz2 & ->). lia.
  - eexists _, _. split_and!; [done| |constructor|done|].
    + intros p q Hq. cbn [validate_slots validate_end].
      destruct (Z.eqb_spec (xad_length x) 0); [done|]. destruct (Z.ltb_spec (xad_offset x) p), (Z.ltb_spec (xad_offset x) q); try done; lia.
    + intros a. split; [by intros ?%elem_of_nil|]. intros (z & Hz1 & ? & _). lia.
Qed.

Lemma truncate_extents_ok eof r :
  wf_xtroot r -> xt_validate r = Ok tt ->
  exists freed r', truncate_extents eof r = Ok (freed, r') /\ wf_xtroot r' /\ xt_validate r' = Ok tt /\ Forall run_ok freed /\ zlen freed <= 16 /\
    (forall a, a ∈ run_blocks freed <-> exists z, eof <= z /\ phys (xt_slots r) z = Some a) /\
    (forall b, phys (xt_slots r') b = if b <? eof then phys (xt_slots r) b else None) /\
    slot_blocks (xt_slots r') ++ run_blocks freed ≡ₚ slot_blocks (xt_slots r).
Proof.
  intros Hwf Hval. destruct (truncate_extents_correct eof r Hwf) as (freed & r' & Ht & Hwf' & Hph & Hbl). exists freed, r'. split; [done|]. split; [done|].
  unfold xt_validate in Hval. destruct (validate_slots (xt_slots r) 0) eqn:Hvs; [|done]. pose proof (slots_bound r Hwf) as Hsb.
  pose proof (wf_slots r Hwf) as Hws. rewrite Forall_forall in Hws.
  destruct (slots_loop_rel (fun s k t => stays_valid s k /\ Forall run_ok t /\ zlen t <= zlen s /\
    forall a, a ∈ run_blocks t <-> exists z, eof <= z /\ maps s z a) (truncate_step eof) (xt_slots r)) as (ks & ts & Hl & Hst & Hfo & Hzt & Hru).
  - split_and!; [by intros p q Hq|constructor|done|]. intros a. split; [by intros ?%elem_of_nil|]. by intros (? & _ & ? & ?%elem_of_nil & _).
  - intros x s k ks t ts (V1 & F1 & Z1 & R1) (V2 & F2 & Z2 & R2). split_and!; [by apply stays_valid_app|by apply Forall_app| |].
    + rewrite zlen_app, zlen_cons in *. change (zlen []) with 0 in Z1. lia.
    + intros a. rewrite run_blocks_app, elem_of_app, R1, R2. setoid_rewrite (maps_cons x s). setoid_rewrite maps_one. naive_solver.
  - intros x Hx. destruct (truncate_step_valid eof x) as (k & t & H1 & H2 & H3 & H4 & H5); [by apply Hws|]. by exists k, t.
  - unfold truncate_extents, update_slots in Ht. rewrite Hl in Ht. cbn [obind] in Ht. injection Ht as <- <-.
    destruct (Hst 0 0 ltac:(lia) Hvs) as [Hv' _]. split_and!; try done; [|lia|by intros a; rewrite Hru; setoid_rewrite (maps_phys _ 0); [|done]]. unfold xt_validate.
    assert (Hks : xt_slots (write_kept ks r) = ks).
    { destruct (slots_loop_rel (fun s k _ => Forall wf_xad k /\ zlen k <= zlen s) (truncate_step eof) (xt_slots r)) as (ks' & ts' & Hl' & Hw & Hz).
      - done.
      - intros x s k ks' t ts' (F1 & Z1) (F2 & Z2). split; [by apply Forall_app|]. rewrite zlen_app, zlen_cons in *. change (zlen []) with 0 in Z1. lia.
      - intros x Hx. destruct (truncate_step_ok eof x) as (k & t & H1 & H2 & [H3 _] & _); [by apply Hws|]. by exists k, t.
      - rewrite Hl in Hl'. injection Hl' as <- <-. apply (write_kept_ok ks r Hwf Hw). lia. }
    by rewrite Hks, Hv'.
Qed.
End tree.

Section file_shrink.
Context {LE : LittleEndian} {LES : LittleEndianSpec} {L : Lru PageKey CachedPage} {LS : LruSpec PageKey CachedPage} {XF : XadFlags}.
Context {HO : HashOrder} {HOS : HashOrderSpec} {W : Type} {FS : Storage W} {SS : StorageSpec W} {SR : StorageReliable W}.

(** ** The allocator *)

(** The map after a run was given back. *)
Definition run_freed (b : BlockAllocMap unit) (e : Z * Z) : BlockAllocMap unit :=
  bam_update b (bam_nfree b + e.2) (mark_extent e.1 e.2 true (bam_free_map b)) (bam_allocated b) (bam_freed b ++ [e]) ({[1 + e.1 / BLOCKS_PER_DMAP]} ∪ bam_dirty_pages b).

Lemma free_blocks_ok freed : forall (v : Volume W) b,
  v_bmap v = Some b -> Forall (fun e => 0 <= e.1 /\ 0 < e.2 < 2 ^ 24 /\ e.1 + e.2 <= bam_mapsize b) freed -> bam_mapsize b <= 2 ^ 40 ->
  bam_nfree b + zlen freed * 2 ^ 24 < 2 ^ 64 ->
  free_blocks freed v = (Ok tt, v_with_bmap (Some (fold_left run_freed freed b)) (v_storage v) v).
Proof.
  induction freed as [|[a len] freed IH]; intros v b Hb Hf Hm Hn.
  - unfold free_blocks, on_bmap. rewrite Hb. destruct b as [[] ? ? ? ? ? ? ? ? ?]. done.
  - apply Forall_cons in Hf as [(H1 & H2 & H3) Hf]. cbn [fst snd] in H1, H2, H3. rewrite zlen_cons in Hn. pose proof (zlen_nonneg freed).
    set (v1 := v_with_bmap (Some (run_freed b (a, len))) (v_storage v) v).
    specialize (IH v1 (run_freed b (a, len)) eq_refl Hf Hm). cbn [run_freed bam_update bam_nfree fst snd] in IH. specialize (IH ltac:(lia)).
    change (fold_left run_freed ((a, len) :: freed) b) with (fold_left run_freed freed (run_freed b (a, len))).
    unfold free_blocks, on_bmap in *. rewrite Hb. cbn [v1 v_with_bmap v_set v_bmap v_storage] in IH. cbn [sfor].
    pose proof (wf_pxd_default) as Hw0. pose proof (wf_pxd_set_length pxd_default len Hw0) as Hw1.
    assert (Hfe : free_extent (pxd_set_address (pxd_set_length pxd_default len) a) (bam_with_device (v_storage v) b) = (Ok tt, bam_with_device (v_storage v) (run_freed b (a, len)))).
    { unfold free_extent. rewrite pxd_address_set_address, pxd_length_set_address, pxd_length_set_length, !Z.mod_small by (done || lia).
      destruct b as [[] ms nf fm nag ds dl al fr dp]. cbn [bam_with_device bam_mapsize bam_nfree bam_free_map] in *. destruct (Z.ltb_spec ms (a + len)); [lia|]. by rewrite add_u64_ok by lia. }
    unfold sbind at 1. rewrite Hfe. cbn [bam_with_device] in IH |- *. exact IH.
Qed.

Lemma elem_of_runs a e freed : a ∈ run_blocks (e :: freed) <-> e.1 <= a < e.1 + e.2 \/ a ∈ run_blocks freed.
Proof. destruct e as [s n]. change (run_blocks ((s, n) :: freed)) with (seqZ s n ++ run_blocks freed). by rewrite elem_of_app, elem_of_seqZ. Qed.

(** What giving back runs makes of the map. *)
Lemma runs_freed freed : forall b, Forall (fun e => 0 <= e.1 /\ 0 < e.2 /\ e.1 + e.2 <= zlen (bam_free_map b)) freed ->
  let b' := fold_left run_freed freed b in
  bam_mapsize b' = bam_mapsize b /\ bam_dmap_start b' = bam_dmap_start b /\ zlen (bam_free_map b') = zlen (bam_free_map b) /\
  bam_nfree b' = bam_nfree b + zlen (run_blocks freed) /\
  (forall a, 0 <= a -> bam_free_map b' !! Z.to_nat a = if decide (a ∈ run_blocks freed) then Some true else bam_free_map b !! Z.to_nat a) /\
  (forall p, p ∈ bam_dirty_pages b' -> p ∈ bam_dirty_pages b \/ exists a, a ∈ run_blocks freed /\ p = 1 + a / BLOCKS_PER_DMAP).
Proof.
  induction freed as [|e freed IH]; intros b Hf; cbn [fold_left].
  { split_and!; try done; [change (zlen (run_blocks [])) with 0; lia|by left]. }
  apply Forall_cons in Hf as [(H1 & H2 & H3) Hf]. assert (Hz : zlen (bam_free_map (run_freed b e)) = zlen (bam_free_map b)) by (cbn; unfold zlen; by rewrite length_mark_extent).
  destruct (IH (run_freed b e)) as (I1 & I2 & I3 & I4 & I5 & I6); [by rewrite Hz|]. split_and!; try done; [by rewrite I3| | |].
  - rewrite I4. destruct e as [s n]. change (run_blocks ((s, n) :: freed)) with (seqZ s n ++ run_blocks freed). rewrite zlen_app. cbn [run_freed bam_update bam_nfree fst snd] in *.
    assert (zlen (seqZ s n) = n) by (unfold zlen; rewrite length_seqZ; lia). lia.
  - intros a Ha. rewrite I5 by done. cbn [run_freed bam_update bam_free_map]. rewrite lookup_mark_extent by done. rewrite Z2Nat.id by done.
    destruct (decide (a ∈ run_blocks freed)) as [Hin|Hni]; [by rewrite decide_True by (apply elem_of_runs; by right)|].
    destruct (decide (e.1 <= a < e.1 + e.2)) as [Hr|Hr].
    + rewrite decide_True by (apply elem_of_runs; by left). destruct (lookup_lt_is_Some_2 (bam_free_map b) (Z.to_nat a)) as [x ->]; [unfold zlen in *; lia|done].
    + rewrite decide_False; [done|]. by rewrite elem_of_runs; intros [|].
  - intros p [Hp|(a & Ha & ->)]%I6; [|right; exists a; split; [apply elem_of_runs; by right|done]]. cbn [run_freed bam_update bam_dirty_pages] in Hp.
    apply elem_of_union in Hp as [->%elem_of_singleton|Hp]; [|by left]. right. exists e.1. split; [apply elem_of_runs; left; lia|done].
Qed.

Lemma run_blocks_len freed : Forall (fun e => 0 < e.2 < 2 ^ 24) freed -> zlen (run_blocks freed) <= zlen freed * 2 ^ 24.
Proof.
  induction 1 as [|[s n] freed Hn _ IH]; [done|]. change (run_blocks ((s, n) :: freed)) with (seqZ s n ++ run_blocks freed). rewrite zlen_app, zlen_cons.
  cbn [snd] in Hn. assert (zlen (seqZ s n) = n) by (unfold zlen; rewrite length_seqZ; lia). lia.
Qed.

(** A map that knows the blocks of a file, and whose pages for them can be
    written. *)
Record file_space (v : Volume W) (b : BlockAllocMap unit) (r : XtRoot) : Prop := {
  fs_map : v_bmap v = Some b;
  fs_size : bam_mapsize b <= 2 ^ 40;
  fs_count : bam_nfree b + 2 ^ 28 < 2 ^ 64;
  fs_owned : forall a, a ∈ slot_blocks (xt_slots r) -> 0 <= a < bam_mapsize b;
  fs_pages : forall a, a ∈ slot_blocks (xt_slots r) ->
    fs_block (v_log v) (contents (v_storage v)) (page_of_run b a) /\ (page_of_run b a ∈ table_blocks (table_view v) -> v_agg_size v <= page_of_run b a) }.

(** The map after the commit that gave back [freed]. *)
Definition returned (b : BlockAllocMap unit) (freed : list (Z * Z)) : BlockAllocMap unit :=
  let b' := fold_left run_freed freed b in bam_update b' (bam_nfree b') (bam_free_map b') [] [] ∅.

Lemma freed_in_range (v : Volume W) b r kept freed :
  file_space v b r -> Forall run_ok freed -> kept ++ run_blocks freed ≡ₚ slot_blocks (xt_slots r) ->
  Forall (fun e => 0 <= e.1 /\ 0 < e.2 < 2 ^ 24 /\ e.1 + e.2 <= bam_mapsize b) freed.
Proof.
  intros Hs Hok Hp. apply Forall_forall. intros e He. rewrite Forall_forall in Hok. destruct (Hok e He) as (H1 & H2 & _). split_and!; try done; try lia.
  assert (Hin : e.1 + e.2 - 1 ∈ run_blocks freed).
  { apply list_elem_of_split in He as (l1 & l2 & ->). rewrite run_blocks_app. apply elem_of_app. right. apply elem_of_runs. left. lia. }
  destruct (fs_owned v b r Hs (e.1 + e.2 - 1)); [|lia]. rewrite <- Hp. apply elem_of_app. by right.
Qed.

Lemma map_step_free n (v : Volume W) b r kept freed :
  vol_ok n v -> file_space v b r -> Forall run_ok freed -> zlen freed <= 16 -> kept ++ run_blocks freed ≡ₚ slot_blocks (xt_slots r) ->
  map_step b (fold_left run_freed freed b) (fun x => exists a, a ∈ run_blocks freed /\ x = page_of_run b a).
Proof.
  intros Hv Hs Hok H16 Hp. pose proof (ok_bmap n v Hv) as Hm. rewrite (fs_map v b r Hs) in Hm. destruct Hm as (M1 & M2 & _).
  destruct (clean_map n v b Hv (fs_map v b r Hs)) as [Hd _]. pose proof (freed_in_range v b r kept freed Hs Hok Hp) as Hr.
  destruct (runs_freed freed b) as (R1 & R2 & R3 & R4 & _ & R6); [rewrite M1; eapply Forall_impl; [exact Hr|]; intros e (? & ? & ?); lia|].
  pose proof (run_blocks_len freed) as Hl. pose proof (zlen_nonneg (run_blocks freed)). pose proof (fs_count v b r Hs).
  split; [done|congruence| |].
  - rewrite R4. assert (zlen (run_blocks freed) <= zlen freed * 2 ^ 24) by (apply Hl; eapply Forall_impl; [exact Hr|]; intros e (? & ? & ?); lia). lia.
  - intros p [Hp0|(a & Ha & ->)]%R6; [rewrite Hd in Hp0; by apply not_elem_of_empty in Hp0|]. split; [|by exists a].
    destruct (fs_owned v b r Hs a) as [Ha0 _]; [rewrite <- Hp; apply elem_of_app; by right|]. pose proof (Z.div_pos a BLOCKS_PER_DMAP Ha0 ltac:(done)). lia.
Qed.

(** ** Truncating *)

(** The closure of the update. *)
Lemma shrink_edits r new_size nb d : wf_xtroot r -> zlen d = 512 -> 0 <= new_size < 2 ^ 64 -> 0 <= nb < 2 ^ 64 ->
  exists d' di, (let! xt_bytes := xt_to_bytes r in let! d := put_root xt_bytes d in let! d := put_u64 24 new_size d in put_u64 32 nb d) = Ok d' /\ zlen d' = 512 /\
    zslice d' 4 12 = zslice d 4 12 /\ dinode_parse d' = Ok di /\ dinode_size_val di = new_size /\ dinode_xtroot_bytes di = xtroot_bytes r.
Proof.
  intros Hwf Hz Hs Hnb. destruct (xt_to_bytes_ok r Hwf) as [-> Hzr]. cbn [obind]. destruct (put_root_edits (xtroot_bytes r) d Hz Hzr) as (d1 & -> & He1). cbn [obind].
  destruct (put_u64_edits d1 24 new_size) as (d2 & -> & He2); [edit_size|lia|lia|lia|]. cbn [obind].
  destruct (put_u64_edits d2 32 nb) as (d3 & -> & He3); [edit_size|lia|lia|lia|]. pose proof (ed_size _ _ _ _ _ He3) as Hz3.
  destruct (dinode_parse_bytes d3 Hz3) as (di & Hdi & _). destruct (dinode_parse_fields d3 di Hz3 Hdi) as (Hsz & _ & _ & _ & _ & _ & Hu).
  exists d3, di. split; [done|]. split; [done|]. split; [by frames|]. split; [done|]. split.
  - unfold dinode_size_val. rewrite Hsz, (ed_frame _ _ _ _ _ He3) by lia. change 32 with (24 + 8). rewrite (ed_here _ _ _ _ _ He2). by apply read_write_u64.
  - unfold dinode_xtroot_bytes. rewrite Hu, zslice_zslice by lia. change (zslice d3 224 512 = xtroot_bytes r). by frames.
Qed.

Lemma truncate_frees_ok n (v : Volume W) ino new_size old d r b :
  vol_ok n v -> 4 <= n -> file_at v ino old d r -> file_space v b r -> 0 <= new_size -> dinode_size_val d + BLOCK_SIZE < 2 ^ 63 ->
  blocks_to new_size < blocks_to (dinode_size_val d) ->
  exists v' new d' r' freed, truncate ino new_size v = (Ok tt, v') /\ vol_ok (n - 4) v' /\ file_at v' ino new d' r' /\ dinode_size_val d' = new_size /\
    (forall x, phys (xt_slots r') x = if x <? blocks_to new_size then phys (xt_slots r) x else None) /\
    (forall a, a ∈ run_blocks freed <-> exists z, blocks_to new_size <= z /\ phys (xt_slots r) z = Some a) /\
    v_bmap v' = Some (returned b freed) /\ Forall (fun e => 0 <= e.1 /\ 0 < e.2 < 2 ^ 24 /\ e.1 + e.2 <= bam_mapsize b) freed /\
    (forall i, i <> ino -> inode_bytes v' i = inode_bytes v i) /\
    (forall a, data_block v a -> (forall x, x ∈ slot_blocks (xt_slots r) -> a <> page_of_run b x) ->
      data_block v' a /\ block_at (contents (v_storage v')) a = block_at (contents (v_storage v)) a).
Proof.
  intros Hv Hn Hf Hsp H0 Hos Hlt. destruct (file_tree n v ino old d r Hv Hf) as (Hz & Hwf & _). pose proof Hf as [Hby Hd Htree Hval].
  destruct (begin_read_ok n v ino old Hv Hby) as (t & v1 & v2 & d0 & pb & off & Hr1 & Hr2 & Hs & Ht & Hd0). rewrite Hd in Hd0. injection Hd0 as <-.
  assert (Hns : new_size + BLOCK_SIZE < 2 ^ 63).
  { unfold blocks_to, BLOCK_SIZE, PSIZE in *. pose proof (Z.div_mod (new_size + 4096 - 1) 4096 ltac:(done)). pose proof (Z.mod_pos_bound (new_size + 4096 - 1) 4096 ltac:(done)).
    pose proof (Z.mul_div_le (dinode_size_val d + 4096 - 1) 4096). lia. }
  assert (Hbt : 0 <= blocks_to new_size < 2 ^ 63).
  { unfold blocks_to, BLOCK_SIZE, PSIZE in *. split; [apply Z.div_pos; lia|apply Z.div_lt_upper_bound; lia]. }
  destruct (truncate_extents_ok (blocks_to new_size) r Hwf Hval) as (freed & r' & Htr & Hwf' & Hval' & Hok & H16 & Hru & Hph & Hperm).
  pose proof (freed_in_range v b r _ freed Hsp Hok Hperm) as Hrange. pose proof (map_step_free n v b r _ freed Hv Hsp Hok H16 Hperm) as Hms.
  set (m := fold_left run_freed freed b) in *. set (w := v_storage v2). pose proof (tn_contents _ _ _ _ Ht) as Hc. fold w in Hc. pose proof (tn_wf _ _ _ _ Ht) as Hw. fold w in Hw.
  destruct (base_map n v b m _ w Hv (fs_map v b r Hsp) Hms) as (Hv5 & Hsl & Hib); [|done|by rewrite Hc|by rewrite Hc|].
  { intros x (a & Ha & ->). apply (fs_pages v b r Hsp). rewrite <- Hperm. apply elem_of_app. by right. }
  pose proof (txn_map v v2 [] [] (Some m) w Ht Hw) as Ht5. set (vb := v_with_bmap (Some m) w v) in *. set (v5 := v_with_bmap (Some m) w v2) in *.
  assert (Hby5 : inode_bytes vb ino = Some old) by (by rewrite Hib).
  destruct (inode_bytes_some n _ ino old Hv5 Hby5) as (pb' & k & Hs5 & Hm5 & Hk5 & Hin5 & Hold5 & _). rewrite Hsl, Hs in Hs5. injection Hs5 as <- ->.
  set (nb := compute_nblocks r' (dinode_nblocks d)).
  assert (Hnb : 0 <= nb < 2 ^ 64).
  { unfold nb, compute_nblocks. pose proof (total_blocks_range r' Hwf'). destruct (0 <? total_blocks r'); [done|]. unfold dinode_nblocks.
    destruct (dinode_parse_fields old d Hz Hd) as (_ & -> & _). apply read_u64_range, length_zslice; lia. }
  destruct (shrink_edits r' new_size nb old Hwf' Hz) as (new & d' & Hupd & Hzn & Hkey & Hd' & Hsz & Hxt); [unfold BLOCK_SIZE, PSIZE in *; lia|done|].
  destruct (update_slot_ok n vb v5 ino pb k (fun d => let! xt_bytes := xt_to_bytes r' in let! d := put_root xt_bytes d in let! d := put_u64 24 new_size d in put_u64 32 nb d)
    old new Hv5 Ht5 Hm5 Hk5 Hold5 Hupd) as (v6 & Hr6 & Ht6).
  destruct (mark_commit_ok n vb v6 ino pb k old new) as (v7 & res & v' & Hr7 & Hr8 & Hsc); try done; [by rewrite Hsl|].
  pose proof (sc_static _ _ _ _ _ _ Hsc : v_static v' = v_static v) as Hstat. destruct (table_view_static v v' Hstat) as [Htb Hag].
  destruct (xt_print_parse r' Hwf') as (r2 & Hr2p & _ & Hslots & _). exists v', new, d', r2, freed. rewrite Hslots.
  split; [|split; [apply Hsc|]]; [|split_and!; try done].
  - unfold truncate. rewrite (sbind_ok _ _ _ _ _ Hr1), (sbind_ok _ _ _ _ _ Hr2). unfold inode_xtree. cbn [in_dinode in_page_block in_page_offset].
    unfold sbind at 1, slift. rewrite Htree. unfold sbind at 1. rewrite add_u64_ok by lia. unfold sbind at 1, inode_size. cbn [in_dinode].
    rewrite add_u64_ok by lia. fold (blocks_to new_size) (blocks_to (dinode_size_val d)). destruct (Z.ltb_spec (blocks_to new_size) (blocks_to (dinode_size_val d))); [|lia].
    rewrite as_i64_small by lia. unfold sbind at 2. rewrite Htr. unfold sbind at 1.
    assert (Hfb : free_blocks freed v2 = (Ok tt, v5)).
    { apply free_blocks_ok; [rewrite (tn_bmap _ _ _ _ Ht); apply Hsp|done|apply Hsp|]. pose proof (fs_count v b r Hsp). lia. }
    rewrite (sbind_ok _ _ _ _ _ Hfb). cbn zeta. fold nb. rewrite Hr6. unfold finish. by rewrite (sbind_ok _ _ _ _ _ Hr7), (sbind_ok _ _ _ _ _ Hr8).
  - split; [by rewrite (sc_inodes _ _ _ _ _ _ Hsc), decide_True|done|by rewrite Hxt|]. unfold xt_validate. by rewrite Hslots.
  - by rewrite (sc_bmap _ _ _ _ _ _ Hsc).
  - intros i Hi. rewrite (sc_inodes _ _ _ _ _ _ Hsc), decide_False by done. apply Hib.
  - intros a Ha Hnp. pose proof Ha as (Ha0 & Hma & Hta). assert (Hmb : meta_block vb a).
    { apply (meta_map v b m _ w a (fs_map v b r Hsp) Hms); [by rewrite Hc|done|]. intros (x & Hx & ->). apply (Hnp x); [|done]. rewrite <- Hperm. apply elem_of_app. by right. }
    split; [split; [done|]; split; [by apply (sc_meta _ _ _ _ _ _ Hsc)|by rewrite Htb, Hag]|]. rewrite (sc_blocks _ _ _ _ _ _ Hsc a Hmb); [cbn; by rewrite Hc|].
    by apply (data_not_slot v a pb (k * DISIZE) Ha).
Qed.

(** The free blocks of the map that the commit leaves. *)
Lemma returned_free b freed a :
  zlen (bam_free_map b) = bam_mapsize b -> Forall (fun e => 0 <= e.1 /\ 0 < e.2 < 2 ^ 24 /\ e.1 + e.2 <= bam_mapsize b) freed -> 0 <= a ->
  bam_free_map (returned b freed) !! Z.to_nat a = if decide (a ∈ run_blocks freed) then Some true else bam_free_map b !! Z.to_nat a.
Proof.
  intros Hz Hf Ha. cbn [returned bam_update bam_free_map]. destruct (runs_freed freed b) as (_ & _ & _ & _ & R5 & _); [rewrite Hz; eapply Forall_impl; [exact Hf|]; intros e (? & ? & ?); lia|].
  by apply R5.
Qed.

(** C12: truncating a file to fewer blocks: the tree keeps its blocks before the new
    end and no others, the allocator has exactly the blocks behind it as new free
    blocks, the size is the new one, and the other inodes and the data blocks keep
    their contents. The volume is ready for the next call. *)
Theorem truncate_frees n (v : Volume W) ino new_size old d r b
  (Hv : vol_ok n v) (Hn : 4 <= n) (Hf : file_at v ino old d r) (Hs : file_space v b r) (H0 : 0 <= new_size)
  (Hold : dinode_size_val d + BLOCK_SIZE < 2 ^ 63) (Hlt : blocks_to new_size < blocks_to (dinode_size_val d)) :
  exists v' new d' r' b', truncate ino new_size v = (Ok tt, v') /\ vol_ok (n - 4) v' /\ file_at v' ino new d' r' /\ dinode_size_val d' = new_size /\
    (forall x, phys (xt_slots r') x = if x <? blocks_to new_size then phys (xt_slots r) x else None) /\
    v_bmap v' = Some b' /\
    (forall a, 0 <= a -> bam_free_map b' !! Z.to_nat a = Some true <->
      bam_free_map b !! Z.to_nat a = Some true \/ exists x, blocks_to new_size <= x /\ phys (xt_slots r) x = Some a) /\
    (forall i, i <> ino -> inode_bytes v' i = inode_bytes v i) /\
    (forall a, data_block v a -> (forall x, x ∈ slot_blocks (xt_slots r) -> a <> page_of_run b x) ->
      block_at (contents (v_storage v')) a = block_at (contents (v_storage v)) a).
Proof.
  destruct (truncate_frees_ok n v ino new_size old d r b Hv Hn Hf Hs H0 Hold Hlt) as (v' & new & d' & r' & freed & H1 & H2 & H3 & H4 & H5 & H6 & H7 & H8 & H9 & H10).
  pose proof (ok_bmap n v Hv) as Hm. rewrite (fs_map v b r Hs) in Hm. destruct Hm as (M1 & _).
  exists v', new, d', r', (returned b freed). split_and!; try done; [|by intros a Ha Hp; apply H10]. intros a Ha. rewrite returned_free by done. rewrite <- H6.
  destruct (decide (a ∈ run_blocks freed)); tauto.
Qed.

(** ** Appending and cutting back *)

(** The file after the append knows its blocks. *)
Lemma grown_space (v v' : Volume W) b r r' s q cnt :
  space_ok v b -> file_space v b r -> space_ok v' (given b s cnt) -> same_layout v v' -> zlen (bam_free_map b) = bam_mapsize b ->
  0 <= s -> all_free (bam_free_map b) s cnt -> 0 <= cnt -> 0 <= bam_nfree b -> xt_validate r = Ok tt -> xt_validate r' = Ok tt ->
  (forall x, phys (xt_slots r') x = if in_range q (q + cnt) x then Some (s + (x - q)) else phys (xt_slots r) x) ->
  file_space v' (given b s cnt) r' /\ (forall a, a ∈ slot_blocks (xt_slots r') -> a ∈ seqZ s cnt \/ a ∈ slot_blocks (xt_slots r)).
Proof.
  intros Hsp Hfs Hsp' [L1 L2 L3] Hz Hs Hf Hc Hn Hval Hval' Hph. unfold xt_validate in Hval, Hval'. destruct (validate_slots (xt_slots r) 0) eqn:Hv; [|done].
  destruct (validate_slots (xt_slots r') 0) eqn:Hv'; [|done].
  assert (Hin : forall a, a ∈ slot_blocks (xt_slots r') -> a ∈ seqZ s cnt \/ a ∈ slot_blocks (xt_slots r)).
  { intros a (x & Hx)%slot_blocks_maps. rewrite (maps_phys _ 0), Hph, in_range_spec in Hx by done. case_bool_decide as Hb.
    - left. injection Hx as <-. apply elem_of_seqZ. lia.
    - right. apply slot_blocks_maps. exists x. by rewrite (maps_phys _ 0). }
  assert (Hpg : forall a, a ∈ slot_blocks (xt_slots r') -> fs_block (v_log v) (contents (v_storage v)) (page_of_run b a) /\
    (page_of_run b a ∈ table_blocks (table_view v) -> v_agg_size v <= page_of_run b a)).
  { intros a [Ha%elem_of_seqZ|Ha]%Hin; [|by apply (fs_pages v b r Hfs)]. apply (so_pages v b Hsp). exists a. split_and!; [lia|apply Hf; lia|done]. }
  destruct (table_view_static v v' L1) as [Htb Hag]. split; [|done]. split.
  - apply Hsp'.
  - apply Hfs.
  - pose proof (fs_count v b r Hfs). cbn [given bam_update bam_nfree]. unfold saturating_sub. lia.
  - intros a [Ha%elem_of_seqZ|Ha]%Hin; [|by apply (fs_owned v b r Hfs)]. pose proof (lookup_lt_Some _ _ _ (Hf a ltac:(lia))). cbn [given bam_update bam_mapsize]. unfold zlen in Hz. lia.
  - intros a Ha. cbn [given bam_update bam_dmap_start]. destruct (Hpg a Ha) as [(P1 & P2 & P3) P4]. rewrite Htb, Hag. split; [|done]. split; [done|]. rewrite L3. split; [done|]. by apply L2.
Qed.

Lemma blocks_to_mono x y : x <= y -> blocks_to x <= blocks_to y.
Proof. intros H. unfold blocks_to, BLOCK_SIZE, PSIZE. apply Z.div_le_mono; lia. Qed.

(** C13: cutting a file back after an append undoes it: the tree maps the blocks of
    before, the size is the old one, and the blocks of the append are free again,
    with no other change of the map, of the other inodes or of the data. *)
Theorem append_truncate_restores n (v : Volume W) ino offset data old d r b
  (Hv : vol_ok n v) (Hn : 8 <= n) (Hf : file_at v ino old d r) (Hs : space_ok v b) (Hg : grows_at b r offset (zlen data)) (Hfs : file_space v b r)
  (Hsize : blocks_to (dinode_size_val d) <= offset / BLOCK_SIZE)
  (Hend : Forall (fun x => xad_offset x + xad_length x <= blocks_to (dinode_size_val d)) (xt_slots r)) :
  exists v1 v2 new d2 r2 b2, write_at ino offset data v = (Ok (zlen data), v1) /\ truncate ino (dinode_size_val d) v1 = (Ok tt, v2) /\
    vol_ok (n - 8) v2 /\ file_at v2 ino new d2 r2 /\ dinode_size_val d2 = dinode_size_val d /\ (forall x, phys (xt_slots r2) x = phys (xt_slots r) x) /\
    v_bmap v2 = Some b2 /\ bam_free_map b2 = bam_free_map b /\
    (forall i, i <> ino -> inode_bytes v2 i = inode_bytes v i) /\
    (forall a, data_block v a -> bam_free_map b !! Z.to_nat a <> Some true -> ~ map_page b a -> (forall x, x ∈ slot_blocks (xt_slots r) -> a <> page_of_run b x) ->
      block_at (contents (v_storage v2)) a = block_at (contents (v_storage v)) a).
Proof.
  destruct (write_grows_ok n v ino offset data old d r b Hv ltac:(lia) Hf Hs Hg) as (v1 & new1 & d1 & r1 & s & W1 & W2 & W3 & W4 & W5 & W6 & W7 & W8 & W9 & W10 & W11 & W12).
  destruct (file_tree n v ino old d r Hv Hf) as (Hzo & _). pose proof Hg as [G1 G2 G3 _ _ _ _]. destruct (span_bounds offset (zlen data) G1 G2) as (B1 & B2 & B3).
  set (cnt := span offset (zlen data)) in *. set (q := offset / BLOCK_SIZE) in *. pose proof (ok_bmap n v Hv) as Hm. rewrite (so_map v b Hs) in Hm. destruct Hm as (M1 & M2 & _).
  destruct (grown_space v v1 b r r1 s q cnt) as [Hfs1 Hin1]; try done; [lia|lia|apply Hf|apply W6|].
  pose proof (Z.div_mod offset BLOCK_SIZE ltac:(done)) as Hdm. fold q in Hdm. pose proof (Z.mod_pos_bound offset BLOCK_SIZE ltac:(done)) as Hmo.
  assert (Hsz0 : 0 <= dinode_size_val d).
  { unfold dinode_size_val. destruct (dinode_parse_fields old d Hzo (fa_dinode _ _ _ _ _ Hf)) as (-> & _). rewrite read_u64_spec by (apply length_zslice; lia). apply le_val_range. }
  assert (Hle : dinode_size_val d <= offset).
  { unfold blocks_to, BLOCK_SIZE, PSIZE in *. pose proof (Z.div_mod (dinode_size_val d + 4096 - 1) 4096 ltac:(done)). pose proof (Z.mod_pos_bound (dinode_size_val d + 4096 - 1) 4096 ltac:(done)). lia. }
  assert (Hlt : blocks_to (dinode_size_val d) < blocks_to (dinode_size_val d1)).
  { rewrite W7, Z.max_r by lia. assert (Hq1 : blocks_to (q * BLOCK_SIZE + 1) <= blocks_to (offset + zlen data)) by (apply blocks_to_mono; unfold BLOCK_SIZE, PSIZE in *; lia).
    assert (blocks_to (q * BLOCK_SIZE + 1) = q + 1); [|lia]. unfold blocks_to, BLOCK_SIZE, PSIZE. symmetry. apply (Z.div_unique _ _ _ 0); lia. }
  destruct (truncate_frees_ok (n - 4) v1 ino (dinode_size_val d) new1 d1 r1 (given b s cnt) W2 ltac:(lia) W6 Hfs1 Hsz0) as (v2 & new2 & d2 & r2 & freed & T1 & T2 & T3 & T4 & T5 & T6 & T7 & T8 & T9 & T10);
    [rewrite W7, Z.max_r by lia; unfold BLOCK_SIZE, PSIZE in *; lia|done|].
  assert (Hfreed : forall a, a ∈ run_blocks freed <-> a ∈ seqZ s cnt).
  { intros a. rewrite T6, elem_of_seqZ. split.
    - intros (z & Hz & Hpz). rewrite W8, in_range_spec in Hpz. case_bool_decide as Hb; [injection Hpz as <-; lia|]. by rewrite (phys_none_above _ _ _ Hend Hz) in Hpz.
    - intros Ha. exists (q + (a - s)). split; [lia|]. rewrite W8, in_range_spec, bool_decide_eq_true_2 by lia. f_equal. lia. }
  exists v1, v2, new2, d2, r2, (returned (given b s cnt) freed). split_and!; try done; [by replace (n - 8) with (n - 4 - 4) by lia| | | |].
  - intros x. rewrite T5, W8, in_range_spec. destruct (Z.ltb_spec x (blocks_to (dinode_size_val d))) as [Hx|Hx]; [by rewrite bool_decide_eq_false_2 by lia|].
    symmetry. by apply (phys_none_above _ _ _ Hend).
  - apply list_eq. intros i. pose proof (returned_free (given b s cnt) freed (Z.of_nat i)) as Hr. rewrite Nat2Z.id in Hr. rewrite Hr; [|cbn; unfold zlen; rewrite length_mark_extent by done; exact M1|done|lia].
    pose proof (Hfreed (Z.of_nat i)) as Hfi. rewrite elem_of_seqZ in Hfi. cbn [given bam_update bam_free_map]. rewrite lookup_mark_extent by done.
    destruct (decide (Z.of_nat i ∈ run_blocks freed)) as [Hi|Hi].
    + symmetry. pose proof (W3 (Z.of_nat i) ltac:(apply Hfi, Hi)) as Hw. by rewrite Nat2Z.id in Hw.
    + rewrite decide_False; [done|]. intros Hr'. by apply Hi, Hfi.
  - intros i Hi. rewrite T9, W11 by done. done.
  - intros a Ha Hnf Hnp Hpo. destruct (W10 a Ha Hnp) as [Hd1 Hb1]. assert (Hns : a ∉ seqZ s cnt) by (intros Hin%elem_of_seqZ; apply Hnf, W3; lia).
    rewrite <- Hb1 by done. apply T10; [done|]. intros x [Hx%elem_of_seqZ|Hx]%Hin1; [|by apply Hpo]. intros ->. apply Hnp. exists x. split_and!; [lia|apply W3; lia|done].
Qed.
End file_shrink.

(** ** Witnesses *)

Section witness.
#[local] Existing Instance le_codec.
#[local] Existing Instance le_codec_spec.
#[local] Existing Instance sample_order.
#[local] Existing Instance sample_order_spec.
#[local] Existing Instance sample_flags.

Lemma grow_file_blocks : slot_blocks (xt_slots sample_file_tree) = [2; 3].
Proof. vm_compute. reflexivity. Qed.

Lemma grow_file_space : file_space grow_volume grow_map sample_file_tree.
Proof.
  assert (Hb : forall a, a ∈ slot_blocks (xt_slots sample_file_tree) -> a = 2 \/ a = 3).
  { intros a. rewrite grow_file_blocks, !elem_of_cons, elem_of_nil. tauto. }
  split; [reflexivity|vm_compute; discriminate|vm_compute; reflexivity| |].
  - intros a [->| ->]%Hb; (split; [discriminate|reflexivity]).
  - intros a Ha. assert (page_of_run grow_map a = 7) as -> by (apply Hb in Ha as [->| ->]; reflexivity).
    split; [exact (proj1 (mapped_block grow_device grow_device_wf eq_refl 7 ltac:(lia) ltac:(lia)))|]. intros _. vm_compute. discriminate.
Qed.

(** The second block of the file is given back. *)
Lemma truncate_frees_witness :
  exists v' b', truncate 17 100 grow_volume = (Ok tt, v') /\ v_bmap v' = Some b' /\ bam_free_map b' !! 3%nat = Some true.
Proof.
  destruct (truncate_frees 100 grow_volume 17 100 sample_file sample_file_dinode sample_file_tree grow_map (mapped_ok grow_device grow_device_wf eq_refl 100) ltac:(lia) grow_volume_file grow_file_space)
    as (v' & new & d' & r' & b' & H1 & _ & _ & _ & _ & H6 & H7 & _).
  - lia.
  - vm_compute. reflexivity.
  - vm_compute. reflexivity.
  - exists v', b'. split; [exact H1|]. split; [exact H6|]. apply (H7 3); [lia|]. right. exists 1. split; [vm_compute; discriminate|vm_compute; reflexivity].
Defined.

Lemma append_truncate_restores_witness :
  exists v1 v2 b2, write_at 17 12287 sample_bytes grow_volume = (Ok 3, v1) /\ truncate 17 5000 v1 = (Ok tt, v2) /\ v_bmap v2 = Some b2 /\ bam_free_map b2 = bam_free_map grow_map.
Proof.
  destruct (append_truncate_restores 100 grow_volume 17 12287 sample_bytes sample_file sample_file_dinode sample_file_tree grow_map (mapped_ok grow_device grow_device_wf eq_refl 100) ltac:(lia)
    grow_volume_file (mapped_space grow_device grow_device_wf eq_refl) grow_volume_room grow_file_space) as (v1 & v2 & new & d2 & r2 & b2 & H1 & H2 & _ & _ & _ & _ & H7 & H8 & _).
  - vm_compute. discriminate.
  - apply (bool_decide_unpack _). vm_compute. exact I.
  - exists v1, v2, b2. change (dinode_size_val sample_file_dinode) with 5000 in H2. exact (conj H1 (conj H2 (conj H7 H8))).
Defined.
End witness.
