(* ===== verification/Unlink.v ===== *)
(** * Removing a name

    [unlink_file] on a quiet volume: the name leaves the directory; the inode
    loses a link, or is cleared and its blocks given back when it was the last
    link and no handle is counted for the block the inode lies in. Both inodes
    are written by one commit, the page of the directory last. *)

From stdpp Require Import gmap.
From Stdlib Require Import ZArith Lia.
From S2P Require Import Types Storage PageCache Dmap Xtree Dtree LogMgr Devices Recovery Transaction Inode Utf Volume VolumeData VolumeDir VolumeOps VolumeTx DinodeEdit InodeTable Sample Entries FileData FileGrow FileShrink Prelude.

Section unlink.
Context {LE : LittleEndian} {LES : LittleEndianSpec} {L : Lru PageKey CachedPage} {LS : LruSpec PageKey CachedPage} {XF : XadFlags}.
Context {HO : HashOrder} {HOS : HashOrderSpec} {W : Type} {FS : Storage W} {SS : StorageSpec W} {SR : StorageReliable W}.

(** ** The blocks that are given back *)

(** Runs that the map of a volume takes back. *)
Record frees (v : Volume W) (b : BlockAllocMap unit) (freed : list (Z * Z)) : Prop := {
  fr_map : v_bmap v = Some b;
  fr_step : map_step b (fold_left run_freed freed b) (fun x => exists a, a ∈ run_blocks freed /\ x = page_of_run b a);
  fr_pages : forall a, a ∈ run_blocks freed ->
    fs_block (v_log v) (contents (v_storage v)) (page_of_run b a) /\ (page_of_run b a ∈ table_blocks (table_view v) -> v_agg_size v <= page_of_run b a);
  fr_range : Forall (fun e => 0 <= e.1 /\ 0 < e.2 < 2 ^ 24 /\ e.1 + e.2 <= bam_mapsize b) freed;
  fr_run : forall u : Volume W, v_bmap u = Some b ->
    free_blocks freed u = (Ok tt, v_with_bmap (Some (fold_left run_freed freed b)) (v_storage u) u) }.

Lemma frees_none n (v : Volume W) b : vol_ok n v -> v_bmap v = Some b -> frees v b [].
Proof.
  intros Hv Hb. pose proof (ok_bmap n v Hv) as Hm. rewrite Hb in Hm. destruct Hm as (M1 & M2 & _). destruct (clean_map n v b Hv Hb) as [Hd _].
  split; [done| |by intros a ?%elem_of_nil|constructor|].
  - split; [done..|]. intros p Hp. cbn [fold_left] in Hp. rewrite Hd in Hp. by apply not_elem_of_empty in Hp.
  - intros u Hu. unfold free_blocks, on_bmap. rewrite Hu. by destruct b as [[] ? ? ? ? ? ? ? ? ?].
Qed.

Lemma free_blocks_nil (u : Volume W) : free_blocks [] u = (Ok tt, u).
Proof. by destruct u as [? ? ? ? ? ? ? ? ? ? ? ? [[[]]|] ?]. Qed.

(** The extents of a regular file are the blocks its tree maps. *)
Lemma frees_file n (v : Volume W) ino cold d r b i blk off :
  vol_ok n v -> file_at v ino cold d r -> file_space v b r -> dinode_is_regular d = true ->
  exists freed, file_extents (mkInode d i blk off) = Ok freed /\ frees v b freed /\
    (forall a, a ∈ run_blocks freed <-> exists x, 0 <= x /\ phys (xt_slots r) x = Some a) /\
    forall a, a ∈ run_blocks freed -> a ∈ slot_blocks (xt_slots r).
Proof.
  intros Hv Hf Hs Hreg. destruct (file_tree n v ino cold d r Hv Hf) as (_ & Hwf & _). pose proof Hf as [_ _ Htree Hval].
  destruct (truncate_extents_ok 0 r Hwf Hval) as (freed & r' & Htr & _ & _ & Hok & H16 & Hru & _ & Hperm).
  pose proof (freed_in_range v b r _ freed Hs Hok Hperm) as Hrange.
  assert (Hin : forall a, a ∈ run_blocks freed -> a ∈ slot_blocks (xt_slots r)) by (intros a Ha; rewrite <- Hperm; apply elem_of_app; by right).
  exists freed. split_and!; [|split|done|done].
  - unfold file_extents. cbn [in_dinode]. by rewrite Hreg, Htree, Htr.
  - apply Hs.
  - exact (map_step_free n v b r _ freed Hv Hs Hok H16 Hperm).
  - intros a Ha. by apply (fs_pages v b r Hs), Hin.
  - done.
  - intros u Hu. apply free_blocks_ok; [done|done|apply Hs|]. pose proof (fs_count v b r Hs). lia.
Qed.

(** ** The inode *)

(** The last link goes and no handle is counted for the block of the inode. *)
Definition last_link (v : Volume W) (cb : Z) (d : Dinode) : bool :=
  (dinode_nlink d <=? 1) && (default 0 (v_open_handles v !! cb) <=? 0).

(** The bytes of the inode afterwards: size, links and mode cleared, or one
    link less. *)
Definition unlinked_bytes (gone : bool) (d : Dinode) (old : list byte) : list byte :=
  if gone then zslice old 0 24 ++ le_bytes 8 0 ++ zslice old 32 40 ++ le_bytes 4 0 ++ zslice old 44 52 ++ le_bytes 4 0 ++ zslice old 56 512
  else zslice old 0 40 ++ le_bytes 4 (Z.max 0 (dinode_nlink d - 1)) ++ zslice old 44 512.

Lemma unlinked_bytes_ok (gone : bool) d old :
  zlen old = 512 -> 0 <= dinode_nlink d < 2 ^ 32 ->
  (if gone then clear_dinode old else put_u32 40 (saturating_sub (dinode_nlink d) 1) old) = Ok (unlinked_bytes gone d old) /\
  zlen (unlinked_bytes gone d old) = 512 /\ zslice (unlinked_bytes gone d old) 4 12 = zslice old 4 12.
Proof.
  intros Hz Hd. destruct gone.
  - unfold clear_dinode. do 2 edit. destruct (put_u32_edits d1 40 0) as (d2 & Hr & He2); [edit_size|lia..|]. pose proof (ed_size _ _ _ _ _ He2) as Hz2.
    assert (unlinked_bytes true d old = d2) as ->; [|split_and!; [exact Hr|done|by frames]].
    cbn [unlinked_bytes]. rewrite <- !write_u32_spec, <- write_u64_spec by lia.
    replace (zslice old 0 24) with (zslice d2 0 24) by (by frames). replace (zslice old 32 40) with (zslice d2 32 40) by (by frames).
    replace (zslice old 44 52) with (zslice d2 44 52) by (by frames). replace (zslice old 56 512) with (zslice d2 56 512) by (by frames).
    replace (write_u64 0) with (zslice d2 24 32) by (by frames).
    rewrite <- (ed_here _ _ _ _ _ He2) at 1. replace (write_u32 0) with (zslice d2 52 56) by (by frames). change (40 + 4) with 44.
    rewrite !zslice_cat by lia. by apply zslice_whole.
  - destruct (put_u32_edits old 40 (saturating_sub (dinode_nlink d) 1)) as (d2 & Hr & He2); [done|lia|lia|unfold saturating_sub; lia|].
    pose proof (ed_size _ _ _ _ _ He2) as Hz2. assert (unlinked_bytes false d old = d2) as ->; [|split_and!; [exact Hr|done|by frames]].
    cbn [unlinked_bytes]. rewrite <- write_u32_spec by lia. change (Z.max 0 (dinode_nlink d - 1)) with (saturating_sub (dinode_nlink d) 1).
    rewrite <- (ed_here _ _ _ _ _ He2). replace (zslice old 0 40) with (zslice d2 0 40) by (by frames). replace (zslice old 44 512) with (zslice d2 44 512) by (by frames).
    change (40 + 4) with 44. rewrite !zslice_cat by lia. by apply zslice_whole.
Qed.
(** ** The call *)

(** A name that can be removed: an entry of the directory for an inode that is
    not a directory. *)
Record can_unlink (v : Volume W) (parent : Z) (name : list Z) (old : list byte) (t : Dtree) (es : list DirEntry) (e : DirEntry)
  (cold : list byte) (d : Dinode) : Prop := {
  cu_parent : inode_bytes v parent = Some old;
  cu_tree : dir_tree old = Ok t;
  cu_wf : dt_wf t;
  cu_entries : dt_entries t = Ok es;
  cu_entry : List.find (fun e => bool_decide (de_name e = encode_utf16 name)) es = Some e;
  cu_child : inode_bytes v (de_inumber e) = Some cold;
  cu_other : de_inumber e <> parent;
  cu_dinode : dinode_parse cold = Ok d;
  cu_file : dinode_is_dir d = false }.

(** The pages of a transaction depend on the device through its contents. *)
Lemma two_pages_same (v vb : Volume W) i1 b1 k1 new1 i2 b2 k2 new2 :
  contents (v_storage vb) = contents (v_storage v) -> two_pages v i1 b1 k1 new1 i2 b2 k2 new2 = two_pages vb i1 b1 k1 new1 i2 b2 k2 new2.
Proof. intros Hc. unfold two_pages, over_page, new_page. by rewrite Hc. Qed.

(** The second half of the call, from the page of the inode on: the runs go
    back to the map, both pages are marked and committed. *)
Lemma unlink_finish n (v v4 : Volume W) b freed child cb coff cold cnew parent pb poff old pnew :
  vol_ok n v -> 6 <= n -> frees v b freed -> child <> parent ->
  inode_bytes v child = Some cold -> slot_at v child = Some (cb, coff) -> inode_bytes v parent = Some old -> slot_at v parent = Some (pb, poff) ->
  zlen cnew = 512 -> zslice cnew 4 12 = zslice cold 4 12 -> zlen pnew = 512 -> zslice pnew 4 12 = zslice old 4 12 ->
  (forall pk ck, poff = pk * DISIZE -> coff = ck * DISIZE -> txn v v4 (two_pages v parent pb pk pnew child cb ck cnew) []) ->
  exists v5 v', free_blocks freed v4 = (Ok tt, v5) /\ (let* _ := mark_page_dirty child cb in finish_parent parent true) v5 = (Ok true, v') /\ vol_ok (n - 6) v' /\
    v_bmap v' = Some (returned b freed) /\
    (forall i, inode_bytes v' i = if decide (i = parent) then Some pnew else if decide (i = child) then Some (if decide (cb = pb) then cold else cnew) else inode_bytes v i) /\
    forall a, data_block v a -> (forall x, x ∈ run_blocks freed -> a <> page_of_run b x) -> block_at (contents (v_storage v')) a = block_at (contents (v_storage v)) a.
Proof.
  intros Hv Hn [Hb Hms Hpg Hrange Hrun] Hne Hcb Hcs Hpb Hps Hzc Hkc Hzp Hkp Ht.
  destruct (inode_bytes_some n v child cold Hv Hcb) as (cb1 & ck & Hcs1 & _). rewrite Hcs in Hcs1. injection Hcs1 as <- ->.
  destruct (inode_bytes_some n v parent old Hv Hpb) as (pb1 & pk & Hps1 & _). rewrite Hps in Hps1. injection Hps1 as <- ->.
  specialize (Ht pk ck eq_refl eq_refl). set (m := fold_left run_freed freed b) in *. set (w := v_storage v4).
  pose proof (tn_contents _ _ _ _ Ht) as Hc. fold w in Hc. pose proof (tn_wf _ _ _ _ Ht) as Hw. fold w in Hw.
  destruct (base_map n v b m _ w Hv Hb Hms) as (Hvb & Hsl & Hib); [|done|by rewrite Hc|by rewrite Hc|].
  { intros x (a & Ha & ->). by apply Hpg. }
  pose proof (txn_map v v4 _ [] (Some m) w Ht Hw) as Ht5. set (vb := v_with_bmap (Some m) w v) in *. set (v5 := v_with_bmap (Some m) w v4) in *.
  assert (Hcvb : contents (v_storage vb) = contents (v_storage v)) by exact Hc. rewrite (two_pages_same v vb) in Ht5 by done.
  assert (Hcb5 : inode_bytes vb child = Some cold) by (by rewrite Hib). assert (Hpb5 : inode_bytes vb parent = Some old) by (by rewrite Hib).
  destruct (inode_bytes_some n vb child cold Hvb Hcb5) as (cb1 & ck1 & Hs1 & Hm1 & Hk1 & _ & Hold1 & _). rewrite Hsl, Hcs in Hs1. injection Hs1 as <- E1.
  destruct (inode_bytes_some n vb parent old Hvb Hpb5) as (pb1 & pk1 & Hs2 & Hm2 & Hk2 & _ & Hold2 & _). rewrite Hsl, Hps in Hs2. injection Hs2 as <- E2.
  assert (ck1 = ck) as -> by (unfold DISIZE in E1; lia). assert (pk1 = pk) as -> by (unfold DISIZE in E2; lia).
  destruct (finish_both_ok n vb v5 child cb ck cnew parent pb pk pnew true) as (v' & Hr & Hmv & Hby); try done; [by rewrite Hsl..|by rewrite Hkc, Hold1|by rewrite Hkp, Hold2|].
  exists v5, v'. split_and!; [apply Hrun; rewrite (tn_bmap _ _ _ _ Ht); exact Hb|exact Hr|apply Hmv|by rewrite (mv_bmap _ _ _ Hmv)| |].
  - intros i. rewrite Hby, Hib, Hcb, Hib. repeat case_decide; done.
  - intros a (Ha0 & Hma & Hta) Hnp. rewrite (mv_data _ _ _ Hmv a); [by rewrite Hcvb| |exact Hta].
    apply (meta_map v b m _ w a Hb Hms); [by rewrite Hc|done|]. intros (x & Hx & ->). by apply (Hnp x).
Qed.

(** The runs of the call: the extents of a regular file whose last link goes,
    and none otherwise. *)
Lemma unlink_frees n (v : Volume W) child cold d r b cb coff :
  vol_ok n v -> v_bmap v = Some b ->
  (last_link v cb d = true -> dinode_is_regular d = true -> file_at v child cold d r /\ file_space v b r) ->
  exists freed, (last_link v cb d = true -> file_extents (mkInode d child cb coff) = Ok freed) /\ (last_link v cb d = false -> freed = []) /\ frees v b freed /\
    (forall a, a ∈ run_blocks freed <-> last_link v cb d = true /\ dinode_is_regular d = true /\ exists x, 0 <= x /\ phys (xt_slots r) x = Some a) /\
    forall a, a ∈ run_blocks freed -> a ∈ slot_blocks (xt_slots r).
Proof.
  intros Hv Hb Hblk. destruct (last_link v cb d && dinode_is_regular d) eqn:E.
  - apply andb_true_iff in E as [El Er]. destruct (Hblk El Er) as [Hf Hs]. destruct (frees_file n v child cold d r b child cb coff Hv Hf Hs Er) as (freed & F1 & F2 & F3 & F4).
    exists freed. split_and!; try done; [congruence|]. intros a. rewrite F3. naive_solver.
  - exists []. split_and!; [|done|by apply (frees_none n)| |by intros a ?%elem_of_nil].
    + intros El. rewrite El in E. cbn [andb] in E. unfold file_extents. cbn [in_dinode]. by rewrite E.
    + intros a. split; [by intros ?%elem_of_nil|]. intros (El & Er & _). by rewrite El, Er in E.
Qed.

(** The test of the code. *)
Lemma last_link_test (v v2 : Volume W) cb d :
  v_open_handles v2 = v_open_handles v -> 0 <= dinode_nlink d ->
  (saturating_sub (dinode_nlink d) 1 =? 0) && negb (has_open_handles cb v2) = last_link v cb d.
Proof.
  intros Ho Hn. unfold has_open_handles, last_link. rewrite Ho, <- Z.leb_antisym. f_equal. unfold saturating_sub.
  destruct (Z.eqb_spec (Z.max 0 (dinode_nlink d - 1)) 0), (Z.leb_spec (dinode_nlink d) 1); done || lia.
Qed.

(** C38: removing a name from a volume that has an allocation map. The entry
    leaves the directory. When the inode has
    no other link and no handle is counted for its block, its mode, size and
    links are cleared and, for a regular file, exactly the blocks its tree maps
    go back to the allocator; otherwise the inode loses one link and keeps
    everything else, blocks included. This change of the inode reaches the
    device only when the inode and the directory lie in different blocks of the
    table: when they share one, the page of the directory, loaded before, is
    written after the one of the inode, which keeps its old bytes, although its
    blocks are free. No other inode changes, and no block outside the inode
    table and the map. *)
Theorem unlink_file_effect n (v : Volume W) parent name old t es e cold d r b cb coff pb poff
  (Hv : vol_ok n v) (Hn : 6 <= n) (Hc : can_unlink v parent name old t es e cold d) (Hb : v_bmap v = Some b)
  (Hcs : slot_at v (de_inumber e) = Some (cb, coff)) (Hps : slot_at v parent = Some (pb, poff))
  (Hblk : last_link v cb d = true -> dinode_is_regular d = true -> file_at v (de_inumber e) cold d r /\ file_space v b r) :
  exists v' root b', unlink_file parent name v = (Ok true, v') /\ vol_ok (n - 6) v' /\
    dir_entries (with_root old root) = Ok (drop_name (encode_utf16 name) es) /\
    (forall i, inode_bytes v' i = if decide (i = parent) then Some (with_root old root) else
      if decide (i = de_inumber e) then Some (if decide (cb = pb) then cold else unlinked_bytes (last_link v cb d) d cold) else inode_bytes v i) /\
    v_bmap v' = Some b' /\
    (forall a, 0 <= a -> bam_free_map b' !! Z.to_nat a = Some true <->
      bam_free_map b !! Z.to_nat a = Some true \/
      (last_link v cb d = true /\ dinode_is_regular d = true /\ exists x, 0 <= x /\ phys (xt_slots r) x = Some a)) /\
    (forall a, data_block v a -> (forall x, x ∈ slot_blocks (xt_slots r) -> a <> page_of_run b x) ->
      block_at (contents (v_storage v')) a = block_at (contents (v_storage v)) a).
Proof.
  destruct Hc as [Hp Htree Hwf Hes He Hch Hne Hd Hfile]. set (child := de_inumber e) in *.
  destruct (inode_bytes_some n v parent old Hv Hp) as (pb1 & pk & Hsp & Hmp & Hpk & Hinp & Hold & Hzo). rewrite Hps in Hsp. injection Hsp as <- ->.
  destruct (inode_bytes_some n v child cold Hv Hch) as (cb1 & ck & Hsc & Hmc & Hck & Hinc & Hcold & Hzc). rewrite Hcs in Hsc. injection Hsc as <- ->.
  destruct (begin_ok n v Hv) as (tx & v0 & Hbg & Ht0).
  destruct (remove_dir_entry_ok n v v0 parent (encode_utf16 name) old t es e pb pk) as (v1 & root & Hr1 & Hzr & Hdir & Ht1); try done. fold child in Hr1.
  destruct (put_root_ok old root Hzo Hzr) as [_ Hzw]. pose proof (with_root_key old root Hzo Hzr) as Hkw.
  assert (Hloc : (cb, ck * DISIZE) <> (pb, pk * DISIZE)) by (intros Heq; rewrite Heq in Hcs; apply Hne; by eapply (find_slot_inj _ _ child parent)).
  destruct (read_other n v v1 [] parent pb pk (with_root old root) child cb ck) as (d' & v2 & Hr2 & Ht2 & Hd'); try done; [by rewrite <- Hold|].
  rewrite <- Hcold, Hd in Hd'. injection Hd' as <-.
  assert (Hnl : 0 <= dinode_nlink d < 2 ^ 32).
  { unfold dinode_nlink. destruct (dinode_parse_fields cold d Hzc Hd) as (_ & _ & -> & _). apply read_u32_range, length_zslice; lia. }
  destruct (unlinked_bytes_ok (last_link v cb d) d cold Hzc Hnl) as (Hupd & Hzn & Hkn). set (cnew := unlinked_bytes _ _ _) in *.
  assert (v_open_handles v2 = v_open_handles v) as Hopen by (pose proof (tn_static _ _ _ _ Ht2) as Hst; by injection Hst).
  destruct (unlink_frees n v child cold d r b cb (ck * DISIZE) Hv Hb Hblk) as (freed & Hext & Hno & Hfrees & Hblocks & Howned).
  destruct (update_other n v v2 [] parent pb pk (with_root old root) child cb ck
    (if last_link v cb d then clear_dinode else put_u32 40 (saturating_sub (dinode_nlink d) 1)) cnew) as (v4 & Hr4 & Ht4);
    try done; [rewrite <- Hcold, <- Hupd; by destruct (last_link v cb d)|].
  destruct (unlink_finish n v v4 b freed child cb (ck * DISIZE) cold cnew parent pb (pk * DISIZE) old (with_root old root)) as (v5 & v' & Hr5 & Hr6 & Hok & Hbm & Hby & Hdata); try done.
  { intros pk1 ck1 E1 E2. assert (pk1 = pk) as -> by (unfold DISIZE in E1; lia). assert (ck1 = ck) as -> by (unfold DISIZE in E2; lia). exact Ht4. }
  exists v', root, (returned b freed). split_and!; try done.
  - unfold unlink_file. rewrite (sbind_ok _ _ _ _ _ Hbg), (sbind_ok _ _ _ _ _ Hr1), (sbind_ok _ _ _ _ _ Hr2). cbn [in_dinode in_page_block in_page_offset]. rewrite Hfile.
    unfold sbind at 1, sget. rewrite (last_link_test v v2 cb d Hopen (proj1 Hnl)). destruct (last_link v cb d) eqn:El.
    + rewrite (Hext eq_refl). unfold sbind at 1 2, slift. unfold sbind at 1. rewrite Hr4, Hr5. exact Hr6.
    + rewrite (Hno eq_refl) in Hr5. destruct (frees_none n v b Hv Hb) as [_ _ _ _ Hrun0].
      assert (v5 = v4) as ->; [|unfold sbind at 1; rewrite Hr4; exact Hr6].
      pose proof (free_blocks_nil v4) as Hn0. congruence.
  - intros a Ha. pose proof (ok_bmap n v Hv) as Hm. rewrite Hb in Hm. destruct Hm as (M1 & _). rewrite returned_free by (done || apply Hfrees).
    rewrite <- Hblocks. destruct (decide (a ∈ run_blocks freed)); tauto.
  - intros a Ha Hnp. apply Hdata; [done|]. intros x Hx. by apply Hnp, Howned.
Qed.
End unlink.

(** ** Witness *)

Section witness.
#[local] Existing Instance le_codec.
#[local] Existing Instance le_codec_spec.
#[local] Existing Instance sample_order.
#[local] Existing Instance sample_order_spec.
#[local] Existing Instance sample_flags.

(** The root directory names [a], inode 17, which has the blocks 2 and 3. *)
Definition named_device : MemoryStorage := mkMem (one_file_root ++ sample_file ++ zeros (Z.to_nat 3072) ++ replicate (Z.to_nat 28672) Byte.x41) 32768.
Definition named_volume : Volume MemoryStorage := mapped_volume named_device.
Definition entry_a : DirEntry := mkDirEntry 17 [97] 2.

Lemma named_device_wf : mem_wf named_device.
Proof. split; vm_compute; reflexivity || discriminate. Qed.

Lemma named_can_unlink : can_unlink named_volume 18 [97] one_file_root one_file_tree (sample_entries ++ [entry_a]) entry_a sample_file sample_file_dinode.
Proof.
  split; try (vm_compute; reflexivity).
  - apply (bool_decide_unpack _). vm_compute. exact I.
  - discriminate.
Qed.

Lemma named_file : file_at named_volume 17 sample_file sample_file_dinode sample_file_tree /\ file_space named_volume grow_map sample_file_tree.
Proof.
  split; [split; vm_compute; reflexivity|].
  assert (Hb : forall a, a ∈ slot_blocks (xt_slots sample_file_tree) -> a = 2 \/ a = 3).
  { intros a. rewrite grow_file_blocks, !elem_of_cons, elem_of_nil. tauto. }
  split; [reflexivity|vm_compute; discriminate|vm_compute; reflexivity| |].
  - intros a [->| ->]%Hb; (split; [discriminate|reflexivity]).
  - intros a Ha. assert (page_of_run grow_map a = 7) as -> by (apply Hb in Ha as [->| ->]; reflexivity).
    split; [exact (proj1 (mapped_block named_device named_device_wf eq_refl 7 ltac:(lia) ltac:(lia)))|]. intros _. vm_compute. discriminate.
Qed.

(** The file shares the block of its directory: its name goes and its blocks
    are free, but its inode stays, with its link and its blocks. *)
Lemma unlink_file_effect_witness :
  exists v' b', unlink_file 18 [97] named_volume = (Ok true, v') /\ inode_bytes v' 17 = Some sample_file /\
    v_bmap v' = Some b' /\ bam_free_map b' !! 2%nat = Some true.
Proof.
  destruct (unlink_file_effect 100 named_volume 18 [97] one_file_root one_file_tree (sample_entries ++ [entry_a]) entry_a sample_file sample_file_dinode
    sample_file_tree grow_map 0 512 0 0 (mapped_ok named_device named_device_wf eq_refl 100)) as (v' & root & b' & H1 & _ & _ & H4 & H5 & H6 & _).
  - lia.
  - exact named_can_unlink.
  - reflexivity.
  - vm_compute. reflexivity.
  - vm_compute. reflexivity.
  - intros _ _. exact named_file.
  - exists v', b'. split; [exact H1|]. split; [rewrite H4; reflexivity|]. split; [exact H5|].
    apply (H6 2); [lia|]. right. split; [vm_compute; reflexivity|]. split; [vm_compute; reflexivity|]. exists 0. split; [lia|vm_compute; reflexivity].
Defined.
End witness.
