(* ===== verification/Check.v ===== *)
(** * Consistency check ([src/src/volume.rs], [check_consistent])

    The checker walks the root directory and reports what it finds; messages
    are kept as their format strings. *)

From stdpp Require Import gmap.
From Stdlib Require Import ZArith Lia.
From S2P Require Import Prelude Types Storage PageCache Xtree Dtree LogMgr Transaction Inode Utf Volume VolumeData VolumeDir Xattr.

Record CheckIssue := mkIssue { ci_level : Z; ci_message : string; ci_block : option Z; ci_ino : option Z }.

(** The field [is_clean] is never written: it keeps its default. *)
Record CheckReport := mkReport { cr_issues : list CheckIssue; cr_is_clean : bool }.

Definition report_default : CheckReport := mkReport [] false.
(** The method [is_clean]. *)
Definition is_clean (r : CheckReport) : bool := negb (existsb (fun i => 2 <=? ci_level i) (cr_issues r)).

Definition add_issue (i : CheckIssue) (r : CheckReport) : CheckReport := mkReport (cr_issues r ++ [i]) (cr_is_clean r).
Definition add_error (msg : string) : CheckReport -> CheckReport := add_issue (mkIssue 2 msg None None).
Definition add_warning (msg : string) : CheckReport -> CheckReport := add_issue (mkIssue 1 msg None None).
Definition add_error_block (msg : string) (block : Z) : CheckReport -> CheckReport := add_issue (mkIssue 2 msg (Some block) None).
Definition add_error_ino (msg : string) (ino : Z) : CheckReport -> CheckReport := add_issue (mkIssue 2 msg None (Some ino)).

Section check.
Context {LE : LittleEndian} {L : Lru PageKey CachedPage} {XF : XadFlags} {W : Type} {FS : Storage W}.
Abbreviation VM := (ST (Volume W) StorageError).

(** [String::from_utf16_lossy(&entry.name).trim_end_matches('\0')]. *)
Fixpoint trim_nul (s : list Z) : list Z :=
  match s with
  | [] => []
  | c :: s => match trim_nul s with
              | [] => if c =? 0 then [] else [c]
              | t => c :: t
              end
  end.
Definition name_str (e : DirEntry) : list Z := trim_nul (from_utf16_lossy (de_name e)).
Definition is_dot (e : DirEntry) : bool := bool_decide (name_str e = [46]) || bool_decide (name_str e = [46; 46]).

(** [match Inode::read(self, ino) { Ok(i) => ..., Err(_) => ... }]. *)
Definition try_inode (ino : Z) : VM (option Inode) := fun v =>
  match vol_inode_read ino v with
  | (Ok i, v) => (Ok (Some i), v)
  | (Err _, v) => (Ok None, v)
  | (Panic, v) => (Panic, v)
  end.

(** A loop over the entries of the directory other than [.] and [..]. *)
Fixpoint for_children (entries : list DirEntry) (body : Z -> option Inode -> CheckReport -> result CheckReport)
  (report : CheckReport) : VM CheckReport :=
  match entries with
  | [] => sret report
  | e :: entries =>
      if is_dot e then for_children entries body report else
      let* child := try_inode (de_inumber e) in
      let* report := slift (body (de_inumber e) child report) in
      for_children entries body report
  end.

Definition check_mode (ino : Z) (child : option Inode) (r : CheckReport) : result CheckReport :=
  Ok (match child with
      | Some inode => if Z.land (dinode_mode (in_dinode inode)) 0xf000 =? 0
                      then add_error_ino "inode has no type (mode=0)" ino r else r
      | None => add_error_ino "directory entry '{}' points to invalid inode" ino r
      end).

(** The extents of a regular file; a tree that does not parse is skipped. *)
Definition check_extents (agg_size : Z) (ino : Z) (child : option Inode) (r : CheckReport) : result CheckReport :=
  match child with
  | Some inode =>
      if dinode_is_regular (in_dinode inode) then
        match xt_from_inode_data (dinode_xtroot_bytes (in_dinode inode)) with
        | Ok xt =>
            let! r := match xt_validate xt with
                      | Ok _ => Ok r
                      | Err _ => Ok (add_error_ino "xtree validation failed: {}" ino r)
                      | Panic => Panic
                      end in
            Ok (fold_left (fun r e => if agg_size <=? e_address e
                  then add_error_block "extent address {} exceeds volume size" (e_address e) r else r)
                  (iter_extents from_bits_truncate xt) r)
        | Err _ => Ok r
        | Panic => Panic
        end
      else Ok r
  | None => Ok r
  end.

Definition check_xattr (ino : Z) (child : option Inode) (r : CheckReport) : result CheckReport :=
  Ok (match child with
      | Some inode =>
          let has_inline_ea := negb (Z.land (bval (dxd_flag (di_ea (in_dinode inode)))) DXD_INLINE =? 0) in
          let inline_ea_mode := negb (Z.land (dinode_mode (in_dinode inode)) INLINEEA =? 0) in
          if has_inline_ea && negb inline_ea_mode
          then add_error_ino "inode has inline EA descriptor but missing INLINEEA mode flag" ino r else r
      | None => r
      end).

(** The root directory and its children. *)
Definition check_root (root_ino agg_size : Z) (report : CheckReport) : VM CheckReport :=
  let* root := try_inode root_ino in
  match root with
  | None => sret (add_error_ino "root inode unreadable: {}" root_ino report)
  | Some root =>
      let report := if dinode_is_dir (in_dinode root) then report
                    else add_error_ino "root inode is not a directory" root_ino report in
      match dt_from_inode_data (dinode_dtroot_bytes (in_dinode root)) with
      | Err _ => sret (add_error_ino "root dtree invalid: {}" root_ino report)
      | Panic => spanic
      | Ok root_dtree =>
          let* entries := slift (dt_entries root_dtree) in
          let* report := for_children entries check_mode report in
          let* report := for_children entries (check_extents agg_size) report in
          for_children entries check_xattr report
      end
  end.

Definition check_consistent : VM CheckReport := fun v =>
  let report := report_default in
  let report := if sb_is_valid_magic (v_sb v) then report else add_error "invalid superblock magic" report in
  let report := match v_log v with
                | Some log => if ls_magic_val (lm_logsuper log) =? LOGMAGIC then report
                              else add_error "invalid log superblock magic" report
                | None => report
                end in
  check_root (v_root_ino v) (v_agg_size v) report v.
End check.
