(* ===== verification/Mkfs.v ===== *)
(** * Formatting ([src/src/mkfs.rs])

    The image written on a device: superblock, log superblock, inode table and
    allocation map. Every result of a write is dropped ([let _ = ...]): an
    image that does not fit is written in part. *)

From stdpp Require Import gmap.
From Stdlib Require Import ZArith Lia.
From S2P Require Import Prelude Types Storage PageCache Dmap Dtree LogMgr Devices Recovery Inode Geometry Volume VolumeData.

Section mkfs.
Context {LE : LittleEndian} {W : Type} {FS : Storage W}.
Abbreviation IO := (ST W StorageError).

Definition LOG_AREA_BLOCKS : Z := 256.
Definition DEFAULT_NUM_BLOCKS : Z := 4096.
Definition IFJOURNAL : Z := 0x00010000.
Definition LOGPAGES : Z := 16.

(** [let _ = ...]: the error is dropped. *)
Definition ignore (m : IO unit) : IO unit := fun w =>
  match m w with
  | (Err _, w) => (Ok tt, w)
  | r => r
  end.

Definition make_pxd (length address : Z) : Pxd := pxd_set_address (pxd_set_length pxd_default length) address.

(** The structures are packed: their bytes are their fields in order. *)
Definition sb_bytes (s : JfsSuperblock) : list byte :=
  s_magic s ++ s_version s ++ s_size s ++ s_bsize s ++ s_l2bsize s ++ s_l2bfactor s ++ s_pbsize s ++ s_l2pbsize s ++
  s_pad s ++ s_agsize s ++ s_flag s ++ s_state s ++ s_compress s ++ pxd_into_bytes (s_ait2 s) ++
  pxd_into_bytes (s_aim2 s) ++ s_logdev s ++ s_logserial s ++ pxd_into_bytes (s_logpxd s) ++
  pxd_into_bytes (s_fsckpxd s) ++ tv_sec (s_time s) ++ tv_nsec (s_time s) ++ s_fsckloglen s ++ [s_fscklog s] ++
  s_fpack s ++ s_xsize s ++ pxd_into_bytes (s_xfsckpxd s) ++ pxd_into_bytes (s_xlogpxd s) ++ s_uuid s ++ s_label s ++
  s_loguuid s.

Definition ls_bytes (l : LogSuper) : list byte :=
  ls_magic l ++ ls_version l ++ ls_serial l ++ ls_size l ++ ls_bsize l ++ ls_l2bsize l ++ ls_flag l ++ ls_state l ++
  ls_end l ++ ls_uuid l ++ ls_label l ++ concat (ls_active l).

Definition mkfs_super (num_blocks : Z) : JfsSuperblock :=
  let d := super_default in
  mkSuper JFS_MAGIC (write_u32 1) (write_u64 num_blocks) (write_u32 PSIZE) (write_u16 12) (write_u16 3) (write_u32 512)
    (write_u16 9) (s_pad d) (write_u32 8192) (write_u32 0x10200900) (write_u32 FM_CLEAN) (s_compress d) (make_pxd 4 24)
    (make_pxd 2 22) (s_logdev d) (s_logserial d) (make_pxd LOG_AREA_BLOCKS 3840) (s_fsckpxd d) (s_time d) (s_fsckloglen d)
    (s_fscklog d) (s_fpack d) (s_xsize d) (s_xfsckpxd d) (s_xlogpxd d) (s_uuid d) (s_label d) (s_loguuid d).

Definition build_superblock (num_blocks : Z) : IO unit := ignore (write_bytes SUPER1_OFF (sb_bytes (mkfs_super num_blocks))).

Definition mkfs_logsuper : LogSuper :=
  let d := logsuper_default in
  mkLogSuper (write_u32 LOGMAGIC) (write_u32 LOGVERSION) (write_u32 0) (write_u32 LOGPAGES) (write_u32 LOGPSIZE)
    (write_u32 12) (write_u32 0x10200900) (write_u32 LOGREDONE) (write_u32 0) (ls_uuid d) (ls_label d) (ls_active d).

Definition build_log_super : IO unit :=
  let log_base_block := 3840 in
  ignore (write_bytes (log_base_block * BLOCK_SIZE + BLOCK_SIZE) (ls_bytes mkfs_logsuper)).

(** ** The inodes *)

Definition build_root_inode_bytes : result (list byte) :=
  let d := zeros (Z.to_nat DISIZE) in
  let! d := put_u32 0 0 d in
  let! d := put_u32 4 FILESYSTEM_I d in
  let! d := put_u32 8 ROOT_I d in
  let! d := put_u32 12 1 d in
  let! d := splice d 16 (pxd_into_bytes (make_pxd 1 28)) in
  let! d := put_u64 24 256 d in
  let! d := put_u64 32 0 d in
  let! d := put_u32 40 2 d in
  let! d := put_u32 44 0 d in
  let! d := put_u32 48 0 d in
  let! d := put_u32 52 (Z.lor (Z.lor IFJOURNAL 0x4000) 0x1ED) d in
  let! d := set d (224 + 16) (bof 0x83) in
  let! d := set d (224 + 17) (bof 0) in
  let! d := set d (224 + 18) (bof 0) in
  let! d := set d (224 + 19) (bof 0) in
  put_u32 (224 + 20) 2 d.

Definition build_bmap_inode_bytes : result (list byte) :=
  let d := zeros (Z.to_nat DISIZE) in
  let! d := put_u32 4 1 d in
  let! d := put_u32 8 BMAP_I d in
  let! d := put_u32 12 1 d in
  let! d := put_u64 24 24576 d in
  let! d := put_u64 32 2 d in
  let! d := put_u32 40 1 d in
  let! d := put_u32 52 0x18000 d in
  let! d := set d (224 + 16) (bof 0x83) in
  let! d := splice d (224 + 18) (write_u16 3) in
  let! d := splice d (224 + 20) (write_u16 18) in
  let! d := set d (224 + 32) (bof 0) in
  let! d := put_u32 (224 + 32 + 4) 0 d in
  splice d (224 + 32 + 8) (pxd_into_bytes (make_pxd 2 17)).

Definition build_aggregate_inode_bytes : result (list byte) :=
  let d := zeros (Z.to_nat DISIZE) in
  let! d := put_u32 4 1 d in
  let! d := put_u32 8 FILESYSTEM_I d in
  let! d := put_u64 24 8192 d in
  let! d := put_u32 40 1 d in
  put_u32 52 0x18000 d.

(** A block of zeros with an inode in a slot. *)
Definition inode_block (slot : Z) (dinode : list byte) : result (list byte) :=
  splice (zeros (Z.to_nat BLOCK_SIZE)) (slot * DISIZE) dinode.

Definition build_aggregate_inode_table : IO unit :=
  let ait_start := 24 in
  let* bmap := slift (let! d := build_bmap_inode_bytes in inode_block 1 d) in
  let* _ := ignore (write_bytes (ait_start * BLOCK_SIZE) bmap) in
  let* agg := slift (let! d := build_aggregate_inode_bytes in inode_block 0 d) in
  let* _ := ignore (write_bytes ((ait_start + 2) * BLOCK_SIZE) agg) in
  let* root := slift (let! d := build_root_inode_bytes in inode_block 2 d) in
  ignore (write_bytes ((ait_start + 4) * BLOCK_SIZE) root).

Definition build_bmap_inode : IO unit :=
  let* block := slift (let! d := build_bmap_inode_bytes in inode_block 1 d) in
  ignore (write_bytes (24 * BLOCK_SIZE) block).

Definition build_root_inode : IO unit :=
  let* block := slift (let! d := build_root_inode_bytes in inode_block 2 d) in
  ignore (write_bytes (28 * BLOCK_SIZE) block).

(** ** The allocation map *)

Definition reserved : list (Z * Z) := [(0, 17); (17, 3); (22, 2); (24, 5); (3840, LOG_AREA_BLOCKS)].

Definition is_reserved (blk : Z) : bool := existsb (fun '(start, len) => (start <=? blk) && (blk <? start + len)) reserved.

(** [nfree -= len] for every reserved extent. *)
Fixpoint mkfs_nfree (nfree : Z) (l : list (Z * Z)) : result Z :=
  match l with
  | [] => Ok nfree
  | (_, len) :: l => let! nfree := sub_u64 nfree len in mkfs_nfree nfree l
  end.

(** The bit of a block in the persistent map of its page. *)
Definition set_free_bit (blk : Z) (dmap : list byte) : result (list byte) :=
  let pmap_off := 3072 + blk / 32 * 4 in
  let! word := slice dmap pmap_off (pmap_off + 4) in
  splice dmap pmap_off (write_u32 (Z.lor (read_u32 word) (Z.shiftl 1 (blk mod 32)))).

Fixpoint fill_dmap (mapsize start : Z) (blks : list Z) (dmap : list byte) : result (list byte) :=
  match blks with
  | [] => Ok dmap
  | blk :: blks =>
      let global_blk := start + blk in
      if (mapsize <=? global_blk) || is_reserved global_blk then fill_dmap mapsize start blks dmap else
      let! dmap := set_free_bit blk dmap in
      fill_dmap mapsize start blks dmap
  end.

Definition build_block_alloc_map (num_blocks : Z) : IO unit :=
  let mapsize := num_blocks in
  let* nfree := slift (mkfs_nfree num_blocks reserved) in
  let dmap_start := 17 in
  let* desc := slift (let! d := splice (zeros (Z.to_nat BLOCK_SIZE)) 0 (write_u64 mapsize) in splice d 8 (write_u64 nfree)) in
  let* _ := ignore (write_bytes (dmap_start * BLOCK_SIZE) desc) in
  sfor (range 0 2) (fun dmap_idx =>
    let* dmap := slift (fill_dmap mapsize (dmap_idx * 8192) (range 0 8192) (zeros (Z.to_nat BLOCK_SIZE))) in
    ignore (write_bytes ((dmap_start + 1 + dmap_idx) * BLOCK_SIZE) dmap)).

Definition build_filesystem (num_blocks : Z) : IO unit :=
  let* _ := build_superblock num_blocks in
  let* _ := build_log_super in
  let* _ := build_aggregate_inode_table in
  let* _ := build_block_alloc_map num_blocks in
  build_bmap_inode.
End mkfs.

(** [create_filesystem_with_blocks]: a fresh memory device, formatted. *)
Definition create_filesystem_with_blocks {LE : LittleEndian} (num_blocks : Z) : result MemoryStorage :=
  let! storage := mem_new num_blocks in
  let (r, storage) := build_filesystem num_blocks storage in
  let! _ := r in Ok storage.

Definition create_filesystem {LE : LittleEndian} : result MemoryStorage := create_filesystem_with_blocks DEFAULT_NUM_BLOCKS.

(** ** The superblock that a mount reads *)

Section readable.
Context {LE : LittleEndian} {LES : LittleEndianSpec} {W : Type} {FS : Storage W} {SS : StorageSpec W} {SR : StorageReliable W}.

(** The lengths of the fields up to the descriptor of the log. *)
Definition wf_super (s : JfsSuperblock) : Prop :=
  (length (s_magic s) = 4 /\ length (s_version s) = 4 /\ length (s_size s) = 8 /\ length (s_bsize s) = 4 /\ length (s_l2bsize s) = 2 /\ length (s_l2bfactor s) = 2 /\
   length (s_pbsize s) = 4 /\ length (s_l2pbsize s) = 2 /\ length (s_pad s) = 2 /\ length (s_agsize s) = 4 /\ length (s_flag s) = 4 /\ length (s_state s) = 4 /\
   length (s_compress s) = 4 /\ length (s_logdev s) = 4 /\ length (s_logserial s) = 4)%nat /\ wf_pxd (s_ait2 s) /\ wf_pxd (s_aim2 s) /\ wf_pxd (s_logpxd s).

(** What a mount keeps of a superblock: the fields after the log are not read. *)
Definition mounted_super (s : JfsSuperblock) : JfsSuperblock :=
  let d := super_default in
  mkSuper (s_magic s) (s_version s) (s_size s) (s_bsize s) (s_l2bsize s) (s_l2bfactor s) (s_pbsize s) (s_l2pbsize s) (s_pad s) (s_agsize s) (s_flag s) (s_state s)
    (s_compress s) (s_ait2 s) (s_aim2 s) (s_logdev d) (s_logserial d) (s_logpxd s) (s_fsckpxd d) (s_time d) (s_fsckloglen d) (s_fscklog d) (s_fpack d) (s_xsize d)
    (s_xfsckpxd d) (s_xlogpxd d) (s_uuid d) (s_label d) (s_loguuid d).

(** Lists of a known length, byte by byte. *)
Ltac explode := repeat match goal with H : length ?l = S _ |- _ => destruct l; [discriminate H|cbn [length] in H; apply Nat.succ_inj in H] | H : length ?l = 0%nat |- _ => destruct l; [clear H|discriminate H] end.

Lemma parse_super_bytes s rest : wf_super s -> zlen (sb_bytes s ++ rest) = PSIZE -> parse_super (sb_bytes s ++ rest) = mounted_super s.
Proof.
  intros ((H1 & H2 & H3 & H4 & H5 & H6 & H7 & H8 & H9 & H10 & H11 & H12 & H13 & H14 & H15) & [P1 P2] & [P3 P4] & [P5 P6]) Hz.
  unfold parse_super, super_field, super_pxd. rewrite Hz. destruct s as [f1 f2 f3 f4 f5 f6 f7 f8 f9 f10 f11 f12 f13 [l1 a1] [l2 a2] f14 f15 [l3 a3] ? ? ? ? ? ? ? ? ? ? ?].
  cbn [s_magic s_version s_size s_bsize s_l2bsize s_l2bfactor s_pbsize s_l2pbsize s_pad s_agsize s_flag s_state s_compress s_ait2 s_aim2 s_logdev s_logserial s_logpxd len_addr addr2] in *.
  explode. reflexivity.
Qed.

Lemma make_pxd_wf len addr : wf_pxd (make_pxd len addr).
Proof. unfold make_pxd. auto using wf_pxd_set_address, wf_pxd_set_length, wf_pxd_default. Qed.

Lemma make_pxd_fields len addr : 0 <= len < 2 ^ 24 -> 0 <= addr < 2 ^ 40 -> pxd_length (make_pxd len addr) = len /\ pxd_address (make_pxd len addr) = addr.
Proof.
  intros Hl Ha. unfold make_pxd. pose proof wf_pxd_default. rewrite pxd_length_set_address, pxd_address_set_address, pxd_length_set_length by auto using wf_pxd_set_length.
  by rewrite !Z.mod_small.
Qed.

Lemma mkfs_super_wf num_blocks : 0 <= num_blocks < 2 ^ 64 -> wf_super (mkfs_super num_blocks) /\ zlen (sb_bytes (mkfs_super num_blocks)) = 184.
Proof.
  intros Hn. assert (Hs : forall p, wf_pxd p -> zlen (pxd_into_bytes p) = 8).
  { intros p [H1 H2]. unfold pxd_into_bytes, zlen. rewrite length_app, H1, H2. done. }
  split.
  - unfold wf_super, mkfs_super. cbn [s_magic s_version s_size s_bsize s_l2bsize s_l2bfactor s_pbsize s_l2pbsize s_pad s_agsize s_flag s_state s_compress s_ait2 s_aim2 s_logdev s_logserial s_logpxd].
    split; [|auto using make_pxd_wf]. rewrite !length_write_u32, !length_write_u16, length_write_u64 by (done || (split; [done|reflexivity])). done.
  - unfold sb_bytes, mkfs_super. cbn [s_magic s_version s_size s_bsize s_l2bsize s_l2bfactor s_pbsize s_l2pbsize s_pad s_agsize s_flag s_state s_compress s_ait2 s_aim2 s_logdev s_logserial s_logpxd
      s_fsckpxd s_time s_fsckloglen s_fscklog s_fpack s_xsize s_xfsckpxd s_xlogpxd s_uuid s_label s_loguuid].
    rewrite !zlen_app, !Hs by auto using make_pxd_wf, wf_pxd_default. unfold zlen.
    rewrite !length_write_u32, !length_write_u16, length_write_u64 by (done || (split; [done|reflexivity])). done.
Qed.

(** What a mount reads off the superblock of a formatted volume. *)
Lemma mkfs_super_fields num_blocks : 0 <= num_blocks < 2 ^ 64 ->
  let sb := mounted_super (mkfs_super num_blocks) in
  validate_super sb = Ok tt /\ sb_aggregate_size sb = num_blocks /\ sb_block_size sb = PSIZE /\ sb_state sb = FM_CLEAN /\
    sb_has_inline_log sb = true /\ pxd_address (s_ait2 sb) = 24 /\ pxd_length (s_ait2 sb) = 4 /\ pxd_address (s_logpxd sb) = 3840.
Proof.
  intros Hn sb. unfold sb. split_and!.
  - unfold validate_super, sb_is_valid_magic, sb_version, mounted_super, mkfs_super. cbn [s_magic s_version]. rewrite read_write_u32 by lia. done.
  - unfold sb_aggregate_size, mounted_super, mkfs_super. cbn [s_size]. by apply read_write_u64.
  - unfold sb_block_size, mounted_super, mkfs_super. cbn [s_bsize]. by rewrite read_write_u32.
  - unfold sb_state, mounted_super, mkfs_super. cbn [s_state]. by rewrite read_write_u32.
  - unfold sb_has_inline_log, sb_flag, mounted_super, mkfs_super. cbn [s_flag]. by rewrite read_write_u32.
  - apply make_pxd_fields; lia.
  - apply make_pxd_fields; lia.
  - apply make_pxd_fields; unfold LOG_AREA_BLOCKS; lia.
Qed.

(** The superblock that formatting writes is the one that a mount reads:
    on a device that answers and holds it, [read_super] after
    [build_superblock] returns its fields, [validate_super] accepts them, and
    they give the size of the volume, the block size, the clean state, the
    inline log and the place of the inode table. *)
Theorem mkfs_super_readable num_blocks (w : W)
  (Hw : st_wf w) (Hr : SUPER1_OFF + PSIZE <= zlen (contents w)) (Hn : 0 <= num_blocks < 2 ^ 64) :
  exists w' sb, build_superblock num_blocks w = (Ok tt, w') /\ (vol_read_super w').1 = Ok sb /\ sb = mounted_super (mkfs_super num_blocks) /\
    validate_super sb = Ok tt /\ sb_aggregate_size sb = num_blocks /\ sb_block_size sb = PSIZE /\ sb_state sb = FM_CLEAN /\
    sb_has_inline_log sb = true /\ pxd_address (s_ait2 sb) = 24 /\ pxd_length (s_ait2 sb) = 4 /\ pxd_address (s_logpxd sb) = 3840.
Proof.
  destruct (mkfs_super_wf num_blocks Hn) as [Hwf Hz]. unfold SUPER1_OFF, PSIZE in Hr. set (bytes := sb_bytes (mkfs_super num_blocks)) in *.
  pose proof (st_write_bytes_ok SUPER1_OFF bytes w Hw ltac:(done) ltac:(unfold SUPER1_OFF; lia)) as Hok.
  destruct (st_write_bytes SUPER1_OFF bytes w Hw ltac:(done)) as (Hw' & _ & Hc). destruct (write_bytes SUPER1_OFF bytes w) as [o w'] eqn:E. cbn [fst snd] in *. subst o.
  destruct (Hc eq_refl) as [_ Hc']. assert (Hzc : zlen (contents w') = zlen (contents w)) by (rewrite Hc', zlen_zsplice; unfold SUPER1_OFF; lia).
  exists w', (mounted_super (mkfs_super num_blocks)).
  assert (Hdata : zslice (contents w') SUPER1_OFF (SUPER1_OFF + PSIZE) = bytes ++ zslice (contents w') (SUPER1_OFF + 184) (SUPER1_OFF + PSIZE)).
  { rewrite <- (zslice_cat _ SUPER1_OFF (SUPER1_OFF + 184)) by (rewrite ?Hzc; unfold SUPER1_OFF, PSIZE; lia). f_equal. rewrite Hc'. apply zslice_zsplice_same; unfold SUPER1_OFF; lia. }
  split; [unfold build_superblock, ignore; fold bytes; by rewrite E|]. split; [|split; [done|by apply mkfs_super_fields]].
  unfold vol_read_super, sbind. pose proof (st_read_bytes_ok SUPER1_OFF PSIZE w' Hw' ltac:(done) ltac:(done) ltac:(rewrite Hzc; unfold SUPER1_OFF, PSIZE; lia)) as Hrd.
    destruct (read_bytes SUPER1_OFF PSIZE w') as [o w2]. cbn [fst] in Hrd. subst o. cbn [fst sret]. f_equal. rewrite Hdata. apply parse_super_bytes; [done|].
    fold bytes. rewrite <- Hdata, zlen_zslice by (rewrite ?Hzc; unfold SUPER1_OFF, PSIZE; lia). lia.
Qed.
End readable.

(** ** The state of the superblock *)

(** A new state in the superblock leaves every other block. *)
Lemma state_written {LE : LittleEndian} {LES : LittleEndianSpec} (c : list byte) state :
  0 <= state < 2 ^ 32 -> SUPER1_OFF + PSIZE <= zlen c ->
  let c' := zsplice c SUPER1_OFF (zsplice (zslice c SUPER1_OFF (SUPER1_OFF + PSIZE)) 40 (write_u32 state)) in
  zlen c' = zlen c /\ (forall b, 0 <= b -> b <> 8 -> block_at c' b = block_at c b) /\ zslice c' (SUPER1_OFF + 40) (SUPER1_OFF + 44) = write_u32 state.
Proof.
  intros Hst Hs c'. assert (Hl : zlen (write_u32 state) = 4) by (unfold zlen; by rewrite length_write_u32).
  set (page := zslice c SUPER1_OFF (SUPER1_OFF + PSIZE)) in *. assert (Hp : zlen page = 4096) by (unfold page; rewrite zlen_zslice; unfold SUPER1_OFF, PSIZE in *; lia).
  assert (Hb : zlen (zsplice page 40 (write_u32 state)) = 4096) by (rewrite zlen_zsplice; lia). unfold SUPER1_OFF, PSIZE in *. split_and!.
  - unfold c'. rewrite zlen_zsplice; lia.
  - intros b H0 Hne. unfold c', block_at, BLOCK_SIZE, PSIZE. apply zslice_zsplice_disjoint; lia.
  - replace (zslice c' (32768 + 40) (32768 + 44)) with (zslice (zslice c' 32768 (32768 + 4096)) 40 44) by (rewrite zslice_zslice by lia; f_equal; lia).
    unfold c'. rewrite (zslice_zsplice_same c _ 32768 (32768 + 4096)) by lia. apply zslice_zsplice_same; lia.
Qed.

Section set_state.
Context {LE : LittleEndian} {LES : LittleEndianSpec} {L : Lru PageKey CachedPage} {W : Type} {FS : Storage W} {SS : StorageSpec W} {SR : StorageReliable W}.

Lemma set_fs_state_run state (v : Volume W) :
  0 <= state < 2 ^ 32 -> st_wf (v_storage v) -> SUPER1_OFF + PSIZE <= zlen (contents (v_storage v)) ->
  let old := contents (v_storage v) in
  exists w', set_fs_state state v = (Ok tt, v_with_sb (sb_with_state (write_u32 state) (v_sb v)) (v_with_dev w' v)) /\ st_wf w' /\
    contents w' = zsplice old SUPER1_OFF (zsplice (zslice old SUPER1_OFF (SUPER1_OFF + PSIZE)) 40 (write_u32 state)).
Proof.
  intros Hst Hw Hz old. assert (Hl : zlen (write_u32 state) = 4) by (unfold zlen; by rewrite length_write_u32).
  pose proof (st_read_bytes_ok SUPER1_OFF PSIZE (v_storage v) Hw ltac:(done) ltac:(done) Hz) as Hrd. destruct (st_read_bytes SUPER1_OFF PSIZE (v_storage v) Hw ltac:(done) ltac:(done)) as (Hw1 & Hc1 & _).
  destruct (read_bytes SUPER1_OFF PSIZE (v_storage v)) as [o w1] eqn:E1. cbn [fst snd] in *. subst o. fold old in E1, Hc1 |- *.
  set (page := zslice old SUPER1_OFF (SUPER1_OFF + PSIZE)). assert (Hp : zlen page = 4096) by (unfold page; rewrite zlen_zslice; unfold SUPER1_OFF, PSIZE, old in *; lia).
  set (buf := zsplice page 40 (write_u32 state)). assert (Hb : zlen buf = 4096) by (unfold buf; rewrite zlen_zsplice; lia).
  pose proof (st_write_bytes_ok SUPER1_OFF buf w1 Hw1 ltac:(done) ltac:(rewrite Hc1, Hb; exact Hz)) as Hwr. destruct (st_write_bytes SUPER1_OFF buf w1 Hw1 ltac:(done)) as (Hw2 & _ & Hc2).
  destruct (write_bytes SUPER1_OFF buf w1) as [o w2] eqn:E2. cbn [fst snd] in *. subst o. destruct (Hc2 eq_refl) as [_ Hc2'].
  pose proof (st_flush_metadata_ok w2 Hw2) as Hfl. destruct (st_flush_metadata w2 Hw2) as (Hw3 & Hc3). destruct (flush_metadata w2) as [o w3] eqn:E3. cbn [fst snd] in *. subst o.
  exists w3. split; [|split; [done|congruence]]. unfold set_fs_state, on_storage. unfold sbind at 1. rewrite E1. fold page.
  rewrite (sbind_ok _ _ (v_with_dev w1 v) buf (v_with_dev w1 v)); [|unfold slift; by rewrite splice_ok by lia]. unfold sbind at 1. cbn [v_storage v_with_dev v_set]. rewrite E2.
  unfold sbind at 1. cbn [v_storage v_with_dev v_set]. rewrite E3. unfold smod. do 2 f_equal. unfold buf. by rewrite zslice_zsplice_same by lia.
Qed.

End set_state.

Section witness.
#[local] Existing Instance le_codec.
#[local] Existing Instance le_codec_spec.

Lemma mkfs_super_readable_witness :
  exists w' sb, build_superblock 8192 (mkMem (zeros (Z.to_nat 40960)) 40960) = (Ok tt, w') /\ (vol_read_super w').1 = Ok sb /\ sb_aggregate_size sb = 8192.
Proof.
  destruct (mkfs_super_readable 8192 (mkMem (zeros (Z.to_nat 40960)) 40960)) as (w' & sb & H1 & H2 & _ & _ & H5 & _).
  - split; vm_compute; reflexivity.
  - vm_compute. discriminate.
  - lia.
  - exists w', sb. exact (conj H1 (conj H2 H5)).
Defined.
End witness.
