(* ===== verification/Interrupt.v ===== *)
(** * Interrupted requests ([fuse/interrupt.rs])

    A request that may take long polls a flag. The flag is an [AtomicBool] behind
    an [Arc]: the token of the request and the table of the manager hold the same
    cell. The cells are a store, a flag is the index of its cell; every call locks
    the table, so calls are atomic and an execution is a sequence of them. *)

From stdpp Require Import gmap.
From Stdlib Require Import ZArith Lia.
From S2P Require Import Prelude.

Abbreviation RequestId := Z (only parsing).

Abbreviation FlagStore := (list bool) (only parsing).
Abbreviation InterruptFlag := nat (only parsing).

Definition flag_new (h : FlagStore) : InterruptFlag * FlagStore := (length h, h ++ [false]).
Definition flag_set (f : InterruptFlag) (h : FlagStore) : FlagStore := <[f := true]> h.
Definition flag_is_set (f : InterruptFlag) (h : FlagStore) : bool := default false (h !! f).
Definition flag_check (f : InterruptFlag) (h : FlagStore) : result unit :=
  if flag_is_set f h then Err Interrupted else Ok tt.

Record InterruptToken := mkToken { tok_id : RequestId; tok_flag : InterruptFlag }.

Definition is_interrupted (t : InterruptToken) (h : FlagStore) : bool := flag_is_set (tok_flag t) h.
Definition token_check (t : InterruptToken) (h : FlagStore) : result unit := flag_check (tok_flag t) h.

(** The manager, with the store its flags live in. *)
Record InterruptManager := mkManager {
  im_next_id : Z;
  im_flags : gmap RequestId InterruptFlag;
  im_store : FlagStore }.

Definition manager_new : InterruptManager := mkManager 1 ∅ [].

(** [register_at]: insert a new flag under the identifier of the request. *)
Definition register_at (request_id : RequestId) (m : InterruptManager)
  : (RequestId * InterruptToken) * InterruptManager :=
  let (flag, h) := flag_new (im_store m) in
  ((request_id, mkToken request_id flag), mkManager (im_next_id m) (<[request_id := flag]> (im_flags m)) h).

(** [register]: [fetch_add] wraps around. *)
Definition register (m : InterruptManager) : (RequestId * InterruptToken) * InterruptManager :=
  let id := im_next_id m in
  let (flag, h) := flag_new (im_store m) in
  ((id, mkToken id flag), mkManager (as_u64 (id + 1)) (<[id := flag]> (im_flags m)) h).

Definition interrupt (id : RequestId) (m : InterruptManager) : bool * InterruptManager :=
  match im_flags m !! id with
  | Some flag => (true, mkManager (im_next_id m) (im_flags m) (flag_set flag (im_store m)))
  | None => (false, m)
  end.

Definition deregister (id : RequestId) (m : InterruptManager) : InterruptManager :=
  mkManager (im_next_id m) (delete id (im_flags m)) (im_store m).

Definition pending_count (m : InterruptManager) : Z := Z.of_nat (size (im_flags m)).

(** * Executions *)

Inductive IrqCall :=
| CRegister
| CRegisterAt (id : RequestId)
| CInterrupt (id : RequestId)
| CDeregister (id : RequestId).

Definition irq_step (m : InterruptManager) (c : IrqCall) : InterruptManager :=
  match c with
  | CRegister => (register m).2
  | CRegisterAt id => (register_at id m).2
  | CInterrupt id => (interrupt id m).2
  | CDeregister id => deregister id m
  end.

Definition irq_run (cs : list IrqCall) (m : InterruptManager) : InterruptManager := fold_left irq_step cs m.

(** What the manager promises: request [id] is signalled by the calls [cs] when an
    interrupt for it comes before it is deregistered or its identifier is taken
    over by another request. [next] is the identifier of the next [register]. *)
Fixpoint signalled (next id : Z) (cs : list IrqCall) : bool :=
  match cs with
  | [] => false
  | CRegister :: cs => if next =? id then false else signalled (as_u64 (next + 1)) id cs
  | CRegisterAt i :: cs => if i =? id then false else signalled next id cs
  | CInterrupt i :: cs => if i =? id then true else signalled next id cs
  | CDeregister i :: cs => if i =? id then false else signalled next id cs
  end.

(** Flags of the table are cells of the store, and no two requests share one. *)
Record irq_wf (m : InterruptManager) : Prop := mkIrqWf {
  iw_cells : map_Forall (fun _ f => (f < length (im_store m))%nat) (im_flags m);
  iw_separate : forall i j f, im_flags m !! i = Some f -> im_flags m !! j = Some f -> i = j }.

Lemma irq_wf_new : irq_wf manager_new.
Proof. split; [apply map_Forall_empty|]. intros i j f. unfold manager_new. cbn [im_flags]. by rewrite lookup_empty. Qed.

(** The two registrations change table and store in the same way. *)
Lemma irq_wf_insert next next' id fl h :
  irq_wf (mkManager next fl h) -> irq_wf (mkManager next' (<[id := length h]> fl) (h ++ [false])).
Proof.
  intros [Hc Hs]. cbn in *. split; cbn.
  - apply map_Forall_insert_2; [rewrite length_app; cbn; lia|].
    eapply map_Forall_impl; [exact Hc|]. intros i f Hf. cbn.
    rewrite length_app. cbn in *. lia.
  - intros i j f. rewrite !lookup_insert_Some. intros [[<- <-]|[Hi Hfi]] [[<- Hf]|[Hj Hfj]]; [done|..].
    + apply Hc in Hfj. cbn in Hfj. lia.
    + subst f. apply Hc in Hfi. cbn in Hfi. lia.
    + by eapply Hs.
Qed.

Lemma irq_wf_step m c : irq_wf m -> irq_wf (irq_step m c).
Proof.
  intros Hw. destruct m as [next fl h], c as [|id|id|id]; cbn.
  - by eapply irq_wf_insert.
  - by eapply irq_wf_insert.
  - unfold interrupt. cbn. destruct (fl !! id) as [f|]; [|done]. destruct Hw as [Hc Hs]. cbn in *. split; cbn; [|done].
    unfold flag_set. by rewrite length_insert.
  - destruct Hw as [Hc Hs]. cbn in *. split; cbn; [by apply map_Forall_delete|].
    intros i j f [_ Hi]%lookup_delete_Some [_ Hj]%lookup_delete_Some. by eapply Hs.
Qed.

Lemma irq_wf_run cs : forall m, irq_wf m -> irq_wf (irq_run cs m).
Proof. induction cs as [|c cs IH]; intros m Hm; [done|]. cbn. by apply IH, irq_wf_step. Qed.

Lemma flag_is_set_grow f h : (f < length h)%nat -> flag_is_set f (h ++ [false]) = flag_is_set f h.
Proof. intros Hf. unfold flag_is_set. by rewrite lookup_app_l. Qed.

Lemma flag_is_set_set f g h : f <> g -> flag_is_set f (flag_set g h) = flag_is_set f h.
Proof. intros Hf. unfold flag_is_set, flag_set. by rewrite list_lookup_insert_ne by done. Qed.

Lemma flag_set_set f h : (f < length h)%nat -> flag_is_set f (flag_set f h) = true.
Proof. intros Hf. unfold flag_is_set, flag_set. by rewrite list_lookup_insert_eq. Qed.

(** A cell that the table no longer holds is never written again. *)
Lemma dropped_flag f m c :
  irq_wf m -> (f < length (im_store m))%nat -> (forall i, im_flags m !! i <> Some f) ->
  let m' := irq_step m c in
  flag_is_set f (im_store m') = flag_is_set f (im_store m) /\ (f < length (im_store m'))%nat /\
  (forall i, im_flags m' !! i <> Some f).
Proof.
  intros Hw Hf Hn. destruct m as [next fl h], c as [|id|id|id]; cbn in *.
  1,2: split_and!; [by apply flag_is_set_grow|rewrite length_app; cbn; lia|];
       intros i [[_ Hl]|[_ Hl]]%lookup_insert_Some; [lia|by apply Hn in Hl].
  - unfold interrupt. cbn. destruct (fl !! id) as [g|] eqn:Hg; cbn; [|done].
    rewrite flag_is_set_set by (intros ->; by apply Hn in Hg). unfold flag_set. by rewrite length_insert.
  - split_and!; [done..|]. intros i [_ Hl]%lookup_delete_Some. by apply Hn in Hl.
Qed.

Lemma dropped_flag_run f cs : forall m,
  irq_wf m -> (f < length (im_store m))%nat -> (forall i, im_flags m !! i <> Some f) ->
  flag_is_set f (im_store (irq_run cs m)) = flag_is_set f (im_store m).
Proof.
  induction cs as [|c cs IH]; intros m Hw Hf Hn; [done|]. cbn.
  destruct (dropped_flag f m c Hw Hf Hn) as (He & Hf' & Hn'). rewrite IH by (done || by apply irq_wf_step). done.
Qed.

(** A cell that is set stays set. *)
Lemma set_flag_step f m c : flag_is_set f (im_store m) = true -> flag_is_set f (im_store (irq_step m c)) = true.
Proof.
  destruct m as [next fl h]. unfold flag_is_set. cbn. destruct (h !! f) as [b|] eqn:Hb; [|done]. cbn. intros ->.
  pose proof (lookup_lt_Some _ _ _ Hb). destruct c as [|id|id|id]; cbn; [by rewrite lookup_app_l, Hb by done..| |by rewrite Hb].
  unfold interrupt. cbn. destruct (fl !! id) as [g|]; cbn; [|by rewrite Hb]. unfold flag_set.
  destruct (decide (g = f)) as [->|]; [by rewrite list_lookup_insert_eq|by rewrite list_lookup_insert_ne, Hb].
Qed.

Lemma set_flag_run f cs : forall m,
  flag_is_set f (im_store m) = true -> flag_is_set f (im_store (irq_run cs m)) = true.
Proof. induction cs as [|c cs IH]; intros m Hm; [done|]. cbn. by apply IH, set_flag_step. Qed.

(** The old flag of an identifier that is taken over. *)
Lemma taken_over f id next next' fl h cs :
  irq_wf (mkManager next fl h) -> fl !! id = Some f -> flag_is_set f h = false ->
  flag_is_set f (im_store (irq_run cs (mkManager next' (<[id := length h]> fl) (h ++ [false])))) = false.
Proof.
  intros Hw Hl Hf. pose proof (iw_cells _ Hw _ _ Hl) as Hlt. cbn in Hlt.
  rewrite dropped_flag_run; [cbn; by rewrite flag_is_set_grow|by eapply irq_wf_insert|cbn; rewrite length_app; lia|].
  cbn. intros i [[_ Hx]|[Hi Hx]]%lookup_insert_Some; [lia|]. apply Hi. by eapply (iw_separate _ Hw).
Qed.

(** The flag of a registered request follows [signalled]. *)
Lemma live_flag_run f id cs : forall m,
  irq_wf m -> im_flags m !! id = Some f -> flag_is_set f (im_store m) = false ->
  flag_is_set f (im_store (irq_run cs m)) = signalled (im_next_id m) id cs.
Proof.
  induction cs as [|c cs IH]; intros m Hw Hl Hf; [exact Hf|].
  pose proof (irq_wf_step m c Hw) as Hw'. pose proof (iw_cells m Hw _ _ Hl) as Hlt. cbn in Hlt.
  change (irq_run (c :: cs) m) with (irq_run cs (irq_step m c)).
  destruct m as [next fl h], c as [|i|i|i]; cbn [signalled im_next_id] in *; cbn in Hl, Hf, Hlt.
  - destruct (Z.eqb_spec next id) as [->|Hne].
    + by eapply (taken_over _ _ _ _ _ _ _ Hw Hl Hf).
    + rewrite IH; [done|done|cbn; by rewrite lookup_insert_ne|cbn; by rewrite flag_is_set_grow].
  - destruct (Z.eqb_spec i id) as [->|Hne].
    + by eapply (taken_over _ _ _ _ _ _ _ Hw Hl Hf).
    + rewrite IH; [done|done|cbn; by rewrite lookup_insert_ne|cbn; by rewrite flag_is_set_grow].
  - cbn [irq_step] in *. unfold interrupt in *. cbn in *. destruct (Z.eqb_spec i id) as [->|Hne].
    + rewrite Hl in *. cbn. apply set_flag_run. cbn. by apply flag_set_set.
    + destruct (fl !! i) as [g|] eqn:Hg; cbn in *; [|by rewrite IH]. rewrite IH; [done|done|done|]. cbn.
      rewrite flag_is_set_set; [done|]. intros ->. apply Hne. by eapply (iw_separate _ Hw).
  - cbn [irq_step] in *. destruct (Z.eqb_spec i id) as [->|Hne].
    + rewrite dropped_flag_run; [done|done|done|]. cbn. intros j [Hj Hx]%lookup_delete_Some.
      apply Hj. by eapply (iw_separate _ Hw).
    + rewrite IH; [done|done|cbn; by rewrite lookup_delete_ne|done].
Qed.

(** C27: a request registered under an identifier is seen as interrupted by its
    token exactly when an interrupt for that identifier arrived while the request
    was registered: after any history [pre] and whatever calls [cs] of this and
    other requests follow, interrupts of other requests, late interrupts after
    deregistration, and interrupts for a later request with the same identifier
    do not reach it. *)
Theorem token_interrupted_iff (pre cs : list IrqCall) (id : RequestId) :
  let m := irq_run pre manager_new in
  let r := register_at id m in
  is_interrupted r.1.2 (im_store (irq_run cs r.2)) = signalled (im_next_id m) id cs.
Proof.
  intros m r. assert (Hw : irq_wf m) by apply irq_wf_run, irq_wf_new.
  apply (live_flag_run (length (im_store m)) id cs r.2); [by apply (irq_wf_step m (CRegisterAt id))|cbn; by rewrite lookup_insert_eq|].
  unfold flag_is_set. cbn. by rewrite lookup_app_r, Nat.sub_diag by lia.
Qed.

(** The token returned by [register] works in the same way. *)
Lemma register_token_iff (pre cs : list IrqCall) :
  let m := irq_run pre manager_new in
  let r := register m in
  is_interrupted r.1.2 (im_store (irq_run cs r.2)) = signalled (as_u64 (im_next_id m + 1)) (im_next_id m) cs.
Proof.
  intros m r. assert (Hw : irq_wf m) by apply irq_wf_run, irq_wf_new.
  apply (live_flag_run (length (im_store m)) (im_next_id m) cs r.2); [by apply (irq_wf_step m CRegister)|cbn; by rewrite lookup_insert_eq|].
  unfold flag_is_set. cbn. by rewrite lookup_app_r, Nat.sub_diag by lia.
Qed.
