(* ===== verification/FuseAbi.v ===== *)
(** * FUSE protocol constants, error numbers and attribute names

    The constants of [fuse/abi.rs]; from [fuse/mod.rs] the error numbers, the two
    ways a [StorageError] becomes one (by variant, [storage_error_to_errno], and
    by the text of the error, [to_string] with [contains]) and the names of
    extended attributes. *)

From stdpp Require Import pretty.
From Stdlib Require Import ZArith Lia Strings.String Strings.Ascii.
From S2P Require Import Prelude Utf.

(** ** Capability flags *)

Definition FUSE_ASYNC_READ : Z := Z.shiftl 1 0.
Definition FUSE_POSIX_LOCKS : Z := Z.shiftl 1 1.
Definition FUSE_FILE_OPS : Z := Z.shiftl 1 2.
Definition FUSE_ATOMIC_O_TRUNC : Z := Z.shiftl 1 3.
Definition FUSE_EXPORT_SUPPORT : Z := Z.shiftl 1 4.
Definition FUSE_BIG_WRITES : Z := Z.shiftl 1 5.
Definition FUSE_DONT_MASK : Z := Z.shiftl 1 6.
Definition FUSE_SPLICE_WRITE : Z := Z.shiftl 1 7.
Definition FUSE_SPLICE_MOVE : Z := Z.shiftl 1 8.
Definition FUSE_SPLICE_READ : Z := Z.shiftl 1 9.
Definition FUSE_FLOCK_LOCKS : Z := Z.shiftl 1 10.
Definition FUSE_HAS_IOCTL_DIR : Z := Z.shiftl 1 11.
Definition FUSE_AUTO_INVAL_DATA : Z := Z.shiftl 1 12.
Definition FUSE_DO_READDIRPLUS : Z := Z.shiftl 1 13.
Definition FUSE_READDIRPLUS_AUTO : Z := Z.shiftl 1 14.
Definition FUSE_ASYNC_DIO : Z := Z.shiftl 1 15.
Definition FUSE_BMAP_SUPPORT : Z := 0.
Definition FUSE_WRITEBACK_CACHE : Z := Z.shiftl 1 16.
Definition FUSE_PARALLEL_DIROPS : Z := Z.shiftl 1 18.
Definition FUSE_HANDLE_KILLPRIV : Z := Z.shiftl 1 27.
Definition FUSE_HANDLE_KILLPRIV_V2 : Z := Z.shiftl 1 28.
Definition FUSE_SECURITY_CTX : Z := Z.shiftl 1 32.
Definition FUSE_HAS_INODE_DAX : Z := Z.shiftl 1 33.

(** ** Opcodes *)

Definition FUSE_LOOKUP : Z := 1.
Definition FUSE_FORGET : Z := 2.
Definition FUSE_GETATTR : Z := 3.
Definition FUSE_SETATTR : Z := 4.
Definition FUSE_READLINK : Z := 5.
Definition FUSE_SYMLINK : Z := 6.
Definition FUSE_MKNOD : Z := 8.
Definition FUSE_MKDIR : Z := 9.
Definition FUSE_UNLINK : Z := 10.
Definition FUSE_RMDIR : Z := 11.
Definition FUSE_RENAME : Z := 12.
Definition FUSE_LINK : Z := 13.
Definition FUSE_OPEN : Z := 14.
Definition FUSE_READ : Z := 15.
Definition FUSE_WRITE : Z := 16.
Definition FUSE_STATFS : Z := 17.
Definition FUSE_RELEASE : Z := 18.
Definition FUSE_FSYNC : Z := 20.
Definition FUSE_SETXATTR : Z := 21.
Definition FUSE_GETXATTR : Z := 22.
Definition FUSE_LISTXATTR : Z := 23.
Definition FUSE_REMOVEXATTR : Z := 24.
Definition FUSE_FLUSH : Z := 25.
Definition FUSE_INIT : Z := 26.
Definition FUSE_OPENDIR : Z := 27.
Definition FUSE_READDIR : Z := 28.
Definition FUSE_RELEASEDIR : Z := 29.
Definition FUSE_FSYNCDIR : Z := 30.
Definition FUSE_GETLK : Z := 31.
Definition FUSE_SETLK : Z := 32.
Definition FUSE_SETLKW : Z := 33.
Definition FUSE_ACCESS : Z := 34.
Definition FUSE_CREATE : Z := 35.
Definition FUSE_INTERRUPT : Z := 36.
Definition FUSE_BMAP : Z := 37.
Definition FUSE_DESTROY : Z := 38.
Definition FUSE_IOCTL : Z := 39.
Definition FUSE_POLL : Z := 40.
Definition FUSE_NOTIFY_REPLY : Z := 41.
Definition FUSE_BATCH_FORGET : Z := 42.
Definition FUSE_FALLOCATE : Z := 43.
Definition FUSE_READDIRPLUS : Z := 44.
Definition FUSE_RENAME2 : Z := 45.
Definition FUSE_LSEEK : Z := 46.
Definition FUSE_COPY_FILE_RANGE : Z := 47.
Definition FUSE_SETUPMAPPING : Z := 48.
Definition FUSE_REMOVEMAPPING : Z := 49.
Definition FUSE_SYNCFS : Z := 50.
Definition FUSE_TMPFILE : Z := 51.
Definition FUSE_STATX : Z := 52.

(** ** Access masks *)

Definition F_OK : Z := 0.
Definition R_OK : Z := 4.
Definition W_OK : Z := 2.
Definition X_OK : Z := 1.

Definition fuse_capabilities : Z :=
  Z.lor (Z.lor (Z.lor (Z.lor FUSE_ASYNC_READ FUSE_BIG_WRITES) FUSE_PARALLEL_DIROPS) FUSE_DO_READDIRPLUS) FUSE_READDIRPLUS_AUTO.

(** ** Error numbers *)

Definition ENOENT : Z := 2.
Definition EEXIST : Z := 17.
Definition ENOTDIR : Z := 20.
Definition EISDIR : Z := 21.
Definition ENOTEMPTY : Z := 39.
Definition ENOSPC : Z := 28.
Definition EROFS : Z := 30.
Definition EINVAL : Z := 22.
Definition EACCES : Z := 13.
Definition EBUSY : Z := 16.
Definition EOPNOTSUPP : Z := 95.
Definition EIO : Z := 5.
Definition ENXIO : Z := 6.
Definition EPERM : Z := 1.
Definition EBADF : Z := 9.
Definition EAGAIN : Z := 11.
Definition EINTR : Z := 4.
Definition ERANGE : Z := 34.
Definition ENODATA : Z := 61.
Definition E2BIG : Z := 7.
Definition ENAMETOOLONG : Z := 36.

Definition storage_error_to_errno (e : StorageError) : Z :=
  match e with
  | XattrNotFound | NotFound => ENOENT
  | XattrAlreadyExists | AlreadyExists => EEXIST
  | XattrNameTooLong => ENAMETOOLONG
  | XattrValueTooLarge | XattrDataTooLarge => E2BIG
  | XattrBufferTooSmall _ => ERANGE
  | NoFreeInode => ENOSPC
  | InvalidName => EINVAL
  | NotADirectory => ENOTDIR
  | DirectoryNotEmpty => ENOTEMPTY
  | InvalidFileType | CannotLinkDir => EPERM
  | NotSupported => EOPNOTSUPP
  | Interrupted => EINTR
  | FaultInjection => EIO
  | _ => EIO
  end.

(** [Display for StorageError]; the texts of [Io] and [Other] are those of the model. *)
Definition to_string (e : StorageError) : string :=
  match e with
  | Io msg => "I/O error: " +:+ msg
  | InvalidSuperblock => "invalid superblock magic"
  | JournalNotReplayed => "journal not replayed (FM_DIRTY)"
  | UnsupportedBlockSize n => "unsupported block size: " +:+ pretty n
  | PageNotFound => "page not found in cache"
  | ReadOnly => "read-only storage: write rejected"
  | FaultInjection => "injected I/O failure"
  | BlockOutOfRange b n => "block number " +:+ pretty b +:+ " exceeds volume size of " +:+ pretty n +:+ " blocks"
  | ShortRead r a => "short read: requested " +:+ pretty r +:+ " bytes, got " +:+ pretty a
  | ShortWrite r a => "short write: requested " +:+ pretty r +:+ " bytes, wrote " +:+ pretty a
  | UnexpectedEof r a => "unexpected EOF reading " +:+ pretty r +:+ " bytes, got " +:+ pretty a
  | Interrupted => "operation interrupted by FUSE_INTERRUPT"
  | XattrNotFound => "xattr not found"
  | XattrAlreadyExists => "xattr already exists"
  | XattrNameTooLong => "xattr name too long"
  | XattrValueTooLarge => "xattr value too large"
  | XattrDataTooLarge => "xattr data too large for inline storage"
  | AlreadyExists => "directory entry already exists"
  | InvalidName => "invalid filename or name"
  | NoFreeInode => "no free inodes available"
  | NotADirectory => "not a directory"
  | DirectoryNotEmpty => "directory not empty"
  | NotFound => "not found"
  | InvalidFileType => "invalid file type for operation"
  | NotSupported => "operation not supported"
  | CannotLinkDir => "cannot hard-link a directory"
  | XattrBufferTooSmall n => "xattr buffer too small, needed " +:+ pretty n +:+ " bytes"
  | Other msg => msg
  end.

(** [str::contains]. *)
Definition contains (needle : string) (s : string) : bool :=
  match String.index 0 needle s with Some _ => true | None => false end.

(** The closures that turn the error of a call into a number. *)
Definition fallocate_errno (e : StorageError) : Z :=
  let msg := to_string e in
  if contains "not supported" msg then EOPNOTSUPP
  else if contains "no contiguous free blocks" msg || contains "no free" msg then ENOSPC
  else EIO.

Definition mkdir_errno (e : StorageError) : Z :=
  let msg := to_string e in
  if contains "already exists" msg then EEXIST
  else if contains "invalid filename" msg then EINVAL
  else if contains "no free inode" msg then ENOSPC
  else EIO.

Definition rmdir_errno (e : StorageError) : Z :=
  let msg := to_string e in
  if contains "not a directory" msg then ENOTDIR
  else if contains "not empty" msg then ENOTEMPTY
  else EIO.

Definition rename_errno (e : StorageError) : Z :=
  let msg := to_string e in
  if contains "not a directory" msg then ENOTDIR
  else if contains "not empty" msg then ENOTEMPTY
  else if contains "already exists" msg || contains "file exists" msg then EEXIST
  else if contains "directory entry already exists" msg then EEXIST
  else if contains "no such file" msg || contains "not found" msg then ENOENT
  else if contains "invalid" msg || contains "cannot" msg then EPERM
  else EIO.

Definition readlink_errno (e : StorageError) : Z :=
  if contains "not a symbolic link" (to_string e) then ENOENT else EIO.

(** ** Names of extended attributes *)

(** The scalar values of an ASCII literal. *)
Definition str (s : string) : list Z := (fun c => Z.of_N (N_of_ascii c)) <$> String.list_ascii_of_string s.

(** [str::strip_prefix] and [str::starts_with]. *)
Fixpoint strip_prefix (p s : list Z) : option (list Z) :=
  match p, s with
  | [], _ => Some s
  | a :: p, b :: s => if a =? b then strip_prefix p s else None
  | _ :: _, [] => None
  end.
Definition starts_with (p s : list Z) : bool := match strip_prefix p s with Some _ => true | None => false end.

Definition translate_xattr_name (name : list Z) : list Z :=
  match strip_prefix (str "user.") name with
  | Some rest => rest
  | None =>
      match strip_prefix (str "system.") name with
      | Some rest => str "system." ++ rest
      | None => if starts_with (str "system.") name || starts_with (str "user.") name then name else name
      end
  end.

Definition reverse_xattr_name (name : list Z) : list Z :=
  if starts_with (str "user.") name || starts_with (str "system.") name then name
  else str "user." ++ name.

(** * Properties *)

Lemma strip_prefix_spec p : forall s r, strip_prefix p s = Some r <-> s = p ++ r.
Proof.
  induction p as [|a p IH]; intros s r; cbn; [naive_solver|]. destruct s as [|b s]; [by split|].
  destruct (Z.eqb_spec a b) as [->|Hne]; [rewrite IH; naive_solver|naive_solver].
Qed.

Lemma strip_prefix_app p r : strip_prefix p (p ++ r) = Some r.
Proof. by apply strip_prefix_spec. Qed.

Lemma starts_with_spec p s : starts_with p s = true <-> exists r, s = p ++ r.
Proof.
  unfold starts_with. setoid_rewrite <- strip_prefix_spec. destruct (strip_prefix p s); naive_solver.
Qed.

(** A stored name: what [translate_xattr_name] makes of a name with its namespace. *)
Lemma translate_user r : translate_xattr_name (str "user." ++ r) = r.
Proof. unfold translate_xattr_name. by rewrite strip_prefix_app. Qed.

Lemma translate_system r : translate_xattr_name (str "system." ++ r) = str "system." ++ r.
Proof. unfold translate_xattr_name. rewrite strip_prefix_app. done. Qed.

Lemma translate_bare s : starts_with (str "user.") s = false -> translate_xattr_name s = s.
Proof.
  unfold translate_xattr_name, starts_with. destruct (strip_prefix (str "user.") s) as [|]; [done|]. intros _.
  destruct (strip_prefix (str "system.") s) as [r|] eqn:Hs; [by apply strip_prefix_spec in Hs as ->|].
  by destruct (_ || _).
Qed.

(** The name that [listxattr] prints for a stored name gives that stored name
    again, unless the stored name itself begins with [user.]. *)
Lemma translate_reverse s : starts_with (str "user.") s = false -> translate_xattr_name (reverse_xattr_name s) = s.
Proof.
  intros Hu. unfold reverse_xattr_name. rewrite Hu. destruct (starts_with (str "system.") s) eqn:Hs; cbn [orb].
  - by apply translate_bare.
  - apply translate_user.
Qed.

(** ... and for a stored name that begins with [user.] it does not. *)
Lemma translate_reverse_user r : translate_xattr_name (reverse_xattr_name (str "user." ++ r)) = r.
Proof.
  unfold reverse_xattr_name. replace (starts_with (str "user.") (str "user." ++ r)) with true; [apply translate_user|].
  symmetry. apply starts_with_spec. eauto.
Qed.

(** Two attributes of different namespaces are stored under one name. *)
Lemma user_system_collide r :
  translate_xattr_name (str "user." ++ str "system." ++ r) = translate_xattr_name (str "system." ++ r).
Proof. by rewrite translate_user, translate_system. Qed.
