(* ===== verification/FuseLocks.v ===== *)
(** * File locks ([fuse/mod.rs])

    The tables of POSIX byte-range locks and of [flock] locks: the records, the
    tests for conflicts and the updates of the tables. The calls that use them are
    in [Fuse]. A table maps an inode number to the list of locks on it. *)

From stdpp Require Import gmap.
From Stdlib Require Import ZArith Lia.
From S2P Require Import Prelude FuseAbi.

Definition F_RDLCK : Z := 0.
Definition F_WRLCK : Z := 1.
Definition F_UNLCK : Z := 2.

Definition LOCK_SH : Z := 1.
Definition LOCK_EX : Z := 2.
Definition LOCK_UN : Z := 8.
Definition LOCK_NB : Z := 4.

Definition SEEK_SET : Z := 0.
Definition SEEK_CUR : Z := 1.
Definition SEEK_END : Z := 2.

Definition U64_MAX : Z := 2 ^ 64 - 1.

Record Flock := mkFlock { l_type : Z; l_whence : Z; l_start : Z; l_len : Z; l_pid : Z }.

Record PosixLock := mkPosix { pl_type : Z; pl_start : Z; pl_end : Z; pl_owner : Z }.

Definition posix_new (l_type start end_ owner : Z) : PosixLock := mkPosix l_type start end_ owner.

Definition posix_conflicts_with (self other : PosixLock) : bool :=
  if pl_owner self =? pl_owner other then false
  else if (pl_end other <=? pl_start self) || (pl_end self <=? pl_start other) then false
  else (pl_type self =? F_WRLCK) || (pl_type other =? F_WRLCK).

Record FlockLock := mkFlockLock { fl_kind : Z; fl_owner : Z }.

Definition flock_conflicts_with (self other : FlockLock) : bool :=
  if fl_owner self =? fl_owner other then false
  else (fl_kind self =? LOCK_EX) || (fl_kind other =? LOCK_EX).

(** [l_start as u64] of a negative start is a large number. *)
Definition resolve_flock {E} (flock : Flock) (file_size : Z) : outcome E (Z * Z) :=
  let start := if l_whence flock =? SEEK_SET then as_u64 (l_start flock)
               else if l_whence flock =? SEEK_CUR then as_u64 (l_start flock)
               else if l_whence flock =? SEEK_END then Z.min U64_MAX (file_size + as_u64 (l_start flock))
               else as_u64 (l_start flock) in
  let! end_ := if l_len flock <=? 0 then Ok U64_MAX else add_u64 start (as_u64 (l_len flock)) in
  Ok (start, end_).

Fixpoint first_conflict (locks : list PosixLock) (start end_ l_type owner : Z) : option PosixLock :=
  match locks with
  | [] => None
  | existing :: locks =>
      if (end_ <=? pl_start existing) || (pl_end existing <=? start) then first_conflict locks start end_ l_type owner
      else if pl_owner existing =? owner then first_conflict locks start end_ l_type owner
      else if (l_type =? F_WRLCK) || (pl_type existing =? F_WRLCK) then Some existing
      else first_conflict locks start end_ l_type owner
  end.

Abbreviation LockTable := (gmap Z (list PosixLock)).
Abbreviation FlockTable := (gmap Z (list FlockLock)).

Definition check_lock_conflict (locks : LockTable) (ino start end_ l_type owner : Z) : option PosixLock :=
  match locks !! ino with
  | Some l => first_conflict l start end_ l_type owner
  | None => None
  end.

(** [lst.retain(|l| l.owner != owner)]. *)
Definition release_owner_locks (ino owner : Z) (locks : LockTable) : LockTable :=
  alter (List.filter (fun l => negb (pl_owner l =? owner))) ino locks.

(** The end of [do_setlk]: the locks of the owner that overlap the range go, the new one comes. *)
Definition place_lock (ino : Z) (new : PosixLock) (locks : LockTable) : LockTable :=
  <[ino := List.filter (fun l => negb (pl_owner l =? pl_owner new) || (pl_end l <=? pl_start new) || (pl_end new <=? pl_start l))
             (default [] (locks !! ino)) ++ [new]]> locks.

Definition release_flock_owner (ino owner : Z) (locks : FlockTable) : FlockTable :=
  alter (List.filter (fun l => negb (fl_owner l =? owner))) ino locks.

(** [flock] after its first check: the table that results, or the error. *)
Definition flock_table (ino operation owner : Z) (locks : FlockTable) : outcome Z FlockTable :=
  let kind := Z.land operation (not_u32 LOCK_NB) in
  if kind =? LOCK_UN then Ok (release_flock_owner ino owner locks)
  else if negb (kind =? LOCK_SH) && negb (kind =? LOCK_EX) then Err EINVAL
  else
    let conflict := match locks !! ino with
                    | Some existing =>
                        existsb (fun l => negb (fl_owner l =? owner) && flock_conflicts_with l (mkFlockLock kind owner)) existing
                    | None => false
                    end in
    if conflict then Err EAGAIN
    else
      let locks := release_flock_owner ino owner locks in
      Ok (<[ino := default [] (locks !! ino) ++ [mkFlockLock kind owner]]> locks).

(** * Properties *)

(** ** What a table grants *)

(** [owner] holds a lock of type [t] on byte [b] of a file with the locks [l]. *)
Definition holds (l : list PosixLock) (owner b t : Z) : Prop :=
  exists k, k ∈ l /\ pl_owner k = owner /\ pl_start k <= b < pl_end k /\ pl_type k = t.

(** No byte is locked by two owners of which one may write. *)
Definition exclusive (l : list PosixLock) : Prop :=
  forall o1 o2 b t1 t2, holds l o1 b t1 -> holds l o2 b t2 -> o1 <> o2 -> t1 <> F_WRLCK /\ t2 <> F_WRLCK.

(** The same for a whole table, and for [flock] locks; an owner has one of these. *)
Definition locks_ok (locks : LockTable) : Prop := map_Forall (fun _ l => exclusive l) locks.

Definition flock_excl (l : list FlockLock) : Prop :=
  forall a b, a ∈ l -> b ∈ l -> fl_owner a <> fl_owner b -> fl_kind a <> LOCK_EX /\ fl_kind b <> LOCK_EX.
Definition flock_ok (locks : FlockTable) : Prop :=
  map_Forall (fun _ l => flock_excl l /\ NoDup (fl_owner <$> l)) locks.

Lemma holds_app l k owner b t : holds (l ++ k) owner b t <-> holds l owner b t \/ holds k owner b t.
Proof. unfold holds. setoid_rewrite elem_of_app. naive_solver. Qed.

Lemma holds_one k owner b t : holds [k] owner b t <-> pl_owner k = owner /\ pl_start k <= b < pl_end k /\ pl_type k = t.
Proof. unfold holds. setoid_rewrite list_elem_of_singleton. naive_solver. Qed.

Lemma holds_filter (P : PosixLock -> bool) l owner b t : holds (List.filter P l) owner b t -> holds l owner b t.
Proof.
  intros (k & Hk & H). exists k. apply list_elem_of_In, filter_In in Hk as [Hk _]. by apply list_elem_of_In in Hk.
Qed.

Lemma holds_filter_other (P : PosixLock -> bool) l owner b t :
  (forall k, pl_owner k = owner -> P k = true) -> holds (List.filter P l) owner b t <-> holds l owner b t.
Proof.
  intros HP. split; [apply holds_filter|]. intros (k & Hk & Ho & H). exists k. split; [|done].
  apply list_elem_of_In, filter_In. split; [by apply list_elem_of_In|by apply HP].
Qed.

Lemma exclusive_filter (P : PosixLock -> bool) l : exclusive l -> exclusive (List.filter P l).
Proof. intros He o1 o2 b t1 t2 H1%holds_filter H2%holds_filter. by eapply He. Qed.

(** [check_lock_conflict] repeats [conflicts_with]: it returns the first lock in
    the list that conflicts with the wanted one. *)
Lemma first_conflict_find locks start end_ ty owner :
  first_conflict locks start end_ ty owner = List.find (posix_conflicts_with (mkPosix ty start end_ owner)) locks.
Proof.
  induction locks as [|e locks IH]; [done|]. cbn [first_conflict List.find]. unfold posix_conflicts_with at 1.
  cbn [pl_owner pl_start pl_end pl_type]. rewrite (Z.eqb_sym owner), (orb_comm (pl_end e <=? start) (end_ <=? pl_start e)), IH.
  destruct (pl_owner e =? owner), (end_ <=? pl_start e), (pl_end e <=? start), (ty =? F_WRLCK), (pl_type e =? F_WRLCK); done.
Qed.

(** No conflict is found exactly when every byte of the range is free for the
    owner: another owner holds at most a read lock there, and none when a write
    lock is wanted. *)
Lemma first_conflict_none l start end_ ty owner :
  start < end_ ->
  Forall (fun k => pl_start k < pl_end k) l ->
  first_conflict l start end_ ty owner = None <->
  (forall o b t, holds l o b t -> o <> owner -> start <= b < end_ -> ty <> F_WRLCK /\ t <> F_WRLCK).
Proof.
  intros Hr Hne. rewrite first_conflict_find. split.
  - intros Hf o b t (k & Hk & Ho & Hb & Ht) Hno Hin. subst.
    apply list_elem_of_In, (find_none _ _ Hf) in Hk. unfold posix_conflicts_with in Hk. cbn in Hk.
    destruct (Z.eqb_spec owner (pl_owner k)); [congruence|].
    destruct (Z.leb_spec (pl_end k) start), (Z.leb_spec end_ (pl_start k)); try lia. cbn in Hk.
    apply orb_false_iff in Hk as [H1%Z.eqb_neq H2%Z.eqb_neq]. done.
  - intros Hall. destruct (List.find _ l) as [k|] eqn:Hf; [|done]. apply find_some in Hf as [Hk%list_elem_of_In Hc].
    rewrite Forall_forall in Hne. specialize (Hne k Hk). unfold posix_conflicts_with in Hc. cbn in Hc.
    destruct (Z.eqb_spec owner (pl_owner k)) as [|Hno]; [done|].
    destruct (Z.leb_spec (pl_end k) start), (Z.leb_spec end_ (pl_start k)); try done. cbn in Hc.
    destruct (Hall (pl_owner k) (Z.max start (pl_start k)) (pl_type k)) as [H1 H2];
      [exists k; split_and!; (done || lia)|congruence|lia|].
    apply Z.eqb_neq in H1, H2. by rewrite H1, H2 in Hc.
Qed.

(** ** Updates keep the locks exclusive *)

Lemma release_owner_locks_ok ino owner locks : locks_ok locks -> locks_ok (release_owner_locks ino owner locks).
Proof.
  intros Hl i l Hi. unfold release_owner_locks in Hi. destruct (decide (i = ino)) as [->|Hne].
  - rewrite lookup_alter_eq in Hi. destruct (locks !! ino) as [l0|] eqn:E; [|done]. injection Hi as <-.
    by apply exclusive_filter, (Hl ino).
  - rewrite lookup_alter_ne in Hi by done. by apply (Hl i).
Qed.

(** What a lock that is placed changes: other owners keep what they had, the owner
    has the new lock on the range and at most what it had elsewhere. *)
Lemma place_lock_holds ino new locks owner b t :
  let l := default [] (locks !! ino) in
  let l' := default [] (place_lock ino new locks !! ino) in
  (owner <> pl_owner new -> holds l' owner b t <-> holds l owner b t) /\
  (owner = pl_owner new -> pl_start new <= b < pl_end new -> holds l' owner b t <-> t = pl_type new) /\
  (owner = pl_owner new -> ~ (pl_start new <= b < pl_end new) -> holds l' owner b t -> holds l owner b t).
Proof.
  intros l l'. unfold l', place_lock. rewrite lookup_insert_eq. cbn [default from_option id]. fold l. rewrite holds_app, holds_one. split_and!.
  - intros Ho. rewrite holds_filter_other; [naive_solver|]. intros k <-.
    by destruct (Z.eqb_spec (pl_owner k) (pl_owner new)).
  - intros -> Hb. split; [|naive_solver]. intros [(k & Hk & Ho & Hkb & Ht)|H]; [exfalso|naive_solver].
    apply list_elem_of_In, filter_In in Hk as [_ Hk]. rewrite Ho, Z.eqb_refl in Hk. cbn in Hk.
    destruct (Z.leb_spec (pl_end k) (pl_start new)); [lia|]. cbn in Hk. apply Z.leb_le in Hk. lia.
  - intros -> Hb [H%holds_filter|H]; [done|naive_solver].
Qed.

Lemma place_lock_other ino new locks i : i <> ino -> place_lock ino new locks !! i = locks !! i.
Proof. intros. unfold place_lock. by rewrite lookup_insert_ne. Qed.

Lemma exclusive_default locks ino : locks_ok locks -> exclusive (default [] (locks !! ino)).
Proof.
  intros Hl. destruct (locks !! ino) as [l|] eqn:E; cbn; [by apply (Hl ino)|].
  intros o1 o2 b t1 t2 (k & Hk & _). by apply not_elem_of_nil in Hk.
Qed.

Lemma place_lock_ok ino start end_ ty owner locks :
  locks_ok locks -> check_lock_conflict locks ino start end_ ty owner = None ->
  locks_ok (place_lock ino (mkPosix ty start end_ owner) locks).
Proof.
  intros Hl Hc i l Hi. destruct (decide (i = ino)) as [->|Hne]; [|rewrite place_lock_other in Hi by done; by apply (Hl i)].
  pose proof (exclusive_default locks ino Hl) as He.
  pose proof (fun o b t => place_lock_holds ino (mkPosix ty start end_ owner) locks o b t) as Hh. cbn zeta in Hh. rewrite Hi in Hh. cbn [default from_option id] in Hh.
  cbn [pl_owner pl_start pl_end pl_type] in Hh.
  (* a byte of another owner in the range does not conflict *)
  assert (Hno : forall o b t, holds (default [] (locks !! ino)) o b t -> o <> owner -> start <= b < end_ -> ty <> F_WRLCK /\ t <> F_WRLCK).
  { intros o b t (k & Hk & <- & Hb & <-) Ho Hin. unfold check_lock_conflict in Hc. destruct (locks !! ino) as [l0|]; cbn in Hk; [|by apply not_elem_of_nil in Hk].
    rewrite first_conflict_find in Hc. apply list_elem_of_In, (find_none _ _ Hc) in Hk. unfold posix_conflicts_with in Hk. cbn in Hk.
    destruct (Z.eqb_spec owner (pl_owner k)); [congruence|]. destruct (Z.leb_spec (pl_end k) start), (Z.leb_spec end_ (pl_start k)); try lia.
    cbn in Hk. by apply orb_false_iff in Hk as [?%Z.eqb_neq ?%Z.eqb_neq]. }
  assert (Hown : forall b t o2 t2, holds l owner b t -> holds (default [] (locks !! ino)) o2 b t2 -> o2 <> owner -> t <> F_WRLCK /\ t2 <> F_WRLCK).
  { intros b t o2 t2 H1 H2 Ho. destruct (Hh owner b t) as (_ & Hin & Hout).
    destruct (decide (start <= b < end_)) as [Hr|Hr].
    - apply (Hin eq_refl Hr) in H1 as ->. by eapply Hno.
    - apply (Hout eq_refl Hr) in H1. by eapply (He owner o2 b). }
  intros o1 o2 b t1 t2 H1 H2 Hne. destruct (decide (o1 = owner)) as [->|Ho1].
  - apply (proj1 (Hh o2 b t2) (not_eq_sym Hne)) in H2. by eapply Hown.
  - apply (proj1 (Hh o1 b t1) Ho1) in H1. destruct (decide (o2 = owner)) as [->|Ho2].
    + destruct (Hown b t2 o1 t1) as [? ?]; done.
    + apply (proj1 (Hh o2 b t2) Ho2) in H2. by eapply (He o1 o2 b).
Qed.

(** ** [flock] *)

Lemma flock_filter_ok (P : FlockLock -> bool) l :
  flock_excl l /\ NoDup (fl_owner <$> l) -> flock_excl (List.filter P l) /\ NoDup (fl_owner <$> List.filter P l).
Proof.
  intros [He Hn]. split.
  - intros a b Ha%list_elem_of_In%filter_In Hb%list_elem_of_In%filter_In. apply He; apply list_elem_of_In; naive_solver.
  - induction l as [|x l IH]; [done|]. cbn in Hn. apply NoDup_cons in Hn as [Hx Hn]. cbn.
    assert (He' : flock_excl l) by (intros a b ? ?; apply He; by right).
    destruct (P x); [cbn; apply NoDup_cons; split|]; [|by apply IH..].
    intros (y & Hxy & Hy)%list_elem_of_fmap. apply Hx. apply list_elem_of_fmap. exists y. split; [done|].
    apply list_elem_of_In, filter_In in Hy as [Hy _]. by apply list_elem_of_In.
Qed.

Lemma release_flock_owner_ok ino owner locks : flock_ok locks -> flock_ok (release_flock_owner ino owner locks).
Proof.
  intros Hl i l Hi. unfold release_flock_owner in Hi. destruct (decide (i = ino)) as [->|Hne].
  - rewrite lookup_alter_eq in Hi. destruct (locks !! ino) as [l0|] eqn:E; [|done]. injection Hi as <-.
    apply flock_filter_ok, (Hl ino _ E).
  - rewrite lookup_alter_ne in Hi by done. by apply (Hl i).
Qed.

Lemma release_flock_owner_lookup ino owner locks l :
  default [] (release_flock_owner ino owner locks !! ino) = l ->
  l = List.filter (fun k => negb (fl_owner k =? owner)) (default [] (locks !! ino)).
Proof. intros <-. unfold release_flock_owner. rewrite lookup_alter_eq. by destruct (locks !! ino). Qed.

Lemma flock_table_ok ino op owner locks locks' :
  flock_ok locks -> flock_table ino op owner locks = Ok locks' -> flock_ok locks'.
Proof.
  intros Hl. unfold flock_table. set (kind := Z.land _ _). destruct (Z.eqb_spec kind LOCK_UN).
  { intros [= <-]. by apply release_flock_owner_ok. }
  destruct (negb _ && negb _); [done|]. destruct (match _ with Some _ => _ | None => _ end) eqn:Hc; [done|]. intros [= <-].
  pose proof (release_flock_owner_ok ino owner locks Hl) as Hr.
  apply map_Forall_insert_2; [|done].
  rewrite (release_flock_owner_lookup ino owner locks _ eq_refl).
  set (old := default [] (locks !! ino)).
  assert (Hold : flock_excl old /\ NoDup (fl_owner <$> old)).
  { unfold old. destruct (locks !! ino) as [l|] eqn:E; cbn; [by apply (Hl ino)|]. split; [|by apply NoDup_nil].
    by intros a b Ha%not_elem_of_nil. }
  pose proof (flock_filter_ok (fun k => negb (fl_owner k =? owner)) old Hold) as [He Hn].
  assert (Hf : forall k, k ∈ List.filter (fun k => negb (fl_owner k =? owner)) old ->
             fl_owner k <> owner /\ fl_kind k <> LOCK_EX /\ kind <> LOCK_EX).
  { intros k [Hk Hno%negb_true_iff%Z.eqb_neq]%list_elem_of_In%filter_In. split; [done|].
    unfold old in Hk. destruct (locks !! ino) as [l|]; cbn in Hk; [|done].
    rewrite <- not_true_iff_false, existsb_exists in Hc.
    destruct (flock_conflicts_with k (mkFlockLock kind owner)) eqn:Hx.
    - exfalso. apply Hc. exists k. split; [done|]. rewrite Hx. apply Z.eqb_neq in Hno. by rewrite Hno.
    - unfold flock_conflicts_with in Hx. cbn in Hx. apply Z.eqb_neq in Hno. rewrite Hno in Hx.
      by apply orb_false_iff in Hx as [?%Z.eqb_neq ?%Z.eqb_neq]. }
  split.
  - intros a b [Ha|Ha%list_elem_of_singleton]%elem_of_app [Hb|Hb%list_elem_of_singleton]%elem_of_app Hab.
    + by apply He.
    + subst b. cbn. naive_solver.
    + subst a. cbn. naive_solver.
    + by subst.
  - rewrite fmap_app. apply NoDup_app. split_and!; [done| |apply NoDup_singleton].
    intros x (k & Hxk & Hk)%list_elem_of_fmap Hx%list_elem_of_singleton. apply Hf in Hk as [Hno _]. cbn in Hx. congruence.
Qed.
