(* ===== verification/Fuse.v ===== *)
(** * The file system behind FUSE ([fuse/mod.rs], [FuseFs])

    [FuseFs] holds the volume and the tables of the server: locks, lookup counts
    of nodes, open handles, pending requests. The operations are those of a build
    with the feature [writable] (the default). [FuseResult] is an outcome whose
    error is a number; an [Option] that a method returns is an outcome with the
    error [tt]. A method that takes a token is given the answers of its polls:
    [irq k] is what the [k]-th look at the flag says ([Interrupt] has the flags). *)

From stdpp Require Import gmap.
From Stdlib Require Import ZArith Lia.
From S2P Require Import Prelude Types Utf Storage PageCache Inode Xtree Dtree Volume VolumeData VolumeDir Xattr Check Interrupt FuseAbi FuseLocks.

(** ** State *)

(** The lookup references the kernel holds on a node. *)
Record NodeState := mkNode { lookup_count : Z }.
Definition node_new : NodeState := mkNode 1.
Definition node_increment {E} (n : Z) (s : NodeState) : outcome E NodeState :=
  let! c := add_u64 (lookup_count s) n in Ok (mkNode c).
Definition node_decrement (n : Z) (s : NodeState) : NodeState := mkNode (saturating_sub (lookup_count s) n).
Definition node_is_zero (s : NodeState) : bool := lookup_count s =? 0.

Record OpenHandle := mkHandle { oh_fh : Z; oh_ino : Z; oh_is_dir : bool }.

Record Statfs := mkStatfs {
  sf_blocks : Z; sf_bfree : Z; sf_bavail : Z; sf_files : Z; sf_ffree : Z;
  sf_bsize : Z; sf_blksize : Z; sf_ino_size : Z; sf_namelen : Z }.

(** [fuser::FileType] and [fuser::FileAttr]; times are nanoseconds after the epoch. *)
Inductive FileType := NamedPipe | CharDevice | BlockDevice | Directory | RegularFile | Symlink | Socket.

Record FileAttr := mkAttr {
  fa_ino : Z; fa_size : Z; fa_blocks : Z; fa_atime : Z; fa_mtime : Z; fa_ctime : Z; fa_crtime : Z;
  fa_kind : FileType; fa_perm : Z; fa_nlink : Z; fa_uid : Z; fa_gid : Z; fa_rdev : Z; fa_blksize : Z; fa_flags : Z }.

(** [match m { Ok(a) => ..., Err(e) => ... }], and the same for an [Option]. *)
Definition attempt {S E E' A} (m : ST S E A) : ST S E' (A + E) := fun s =>
  match m s with
  | (Ok a, s) => (Ok (inl a), s)
  | (Err e, s) => (Ok (inr e), s)
  | (Panic, s) => (Panic, s)
  end.

Section fuse.
Context {LE : LittleEndian} {L : Lru PageKey CachedPage} {HO : HashOrder} {XF : XadFlags} {W : Type} {FS : Storage W}.
Abbreviation VM := (ST (Volume W) StorageError).

Record FuseFs := mkFuse {
  f_volume : Volume W;
  f_writable : bool;
  f_locks : LockTable;
  f_flock_locks : FlockTable;
  f_node_states : gmap Z NodeState;
  f_handles : gmap Z OpenHandle;
  f_next_fh : Z;
  f_interrupt_mgr : InterruptManager }.

Definition f_with_volume (v : Volume W) (f : FuseFs) : FuseFs :=
  mkFuse v (f_writable f) (f_locks f) (f_flock_locks f) (f_node_states f) (f_handles f) (f_next_fh f) (f_interrupt_mgr f).
Definition f_with_locks (l : LockTable) (k : FlockTable) (f : FuseFs) : FuseFs :=
  mkFuse (f_volume f) (f_writable f) l k (f_node_states f) (f_handles f) (f_next_fh f) (f_interrupt_mgr f).
Definition f_with_nodes (n : gmap Z NodeState) (f : FuseFs) : FuseFs :=
  mkFuse (f_volume f) (f_writable f) (f_locks f) (f_flock_locks f) n (f_handles f) (f_next_fh f) (f_interrupt_mgr f).
Definition f_with_handles (h : gmap Z OpenHandle) (next : Z) (f : FuseFs) : FuseFs :=
  mkFuse (f_volume f) (f_writable f) (f_locks f) (f_flock_locks f) (f_node_states f) h next (f_interrupt_mgr f).
Definition f_with_requests (m : InterruptManager) (f : FuseFs) : FuseFs :=
  mkFuse (f_volume f) (f_writable f) (f_locks f) (f_flock_locks f) (f_node_states f) (f_handles f) (f_next_fh f) m.

Definition fuse_new (volume : Volume W) : FuseFs := mkFuse volume false ∅ ∅ ∅ ∅ 1 manager_new.

Definition enable_writable (f : FuseFs) : FuseFs :=
  mkFuse (f_volume f) true (f_locks f) (f_flock_locks f) (f_node_states f) (f_handles f) (f_next_fh f) (f_interrupt_mgr f).

Abbreviation FM := (ST FuseFs).

(** A call of the volume, with what becomes of its error. *)
Definition on_volume {E A} (err : StorageError -> E) (m : VM A) : FM E A := fun f =>
  let (r, v) := m (f_volume f) in
  (match r with Ok a => Ok a | Err e => Err (err e) | Panic => Panic end, f_with_volume v f).

(** [.map_err(|_| e)], and [.ok()] with [e := tt]. *)
Definition or_errno {E A} (e : E) (m : VM A) : FM E A := on_volume (fun _ => e) m.

Definition lift_or {E A} (e : E) (m : result A) : FM E A := or_errno e (slift m).

Definition read_inode {E} (e : E) (ino : Z) : FM E Inode := or_errno e (vol_inode_read ino).

(** [if !self.writable { return Err(e) }]. *)
Definition if_writable {E A} (e : E) (m : FM E A) : FM E A := fun f => if f_writable f then m f else (Err e, f).

(** ** Pending requests *)

Definition register_request_at {E} (request_id : Z) : FM E (Z * InterruptToken) := fun f =>
  let (r, m) := register_at request_id (f_interrupt_mgr f) in (Ok r, f_with_requests m f).
Definition register_request {E} : FM E (Z * InterruptToken) := fun f =>
  let (r, m) := register (f_interrupt_mgr f) in (Ok r, f_with_requests m f).
Definition handle_interrupt {E} (request_id : Z) : FM E bool := fun f =>
  let (r, m) := interrupt request_id (f_interrupt_mgr f) in (Ok r, f_with_requests m f).
Definition deregister_request {E} (request_id : Z) : FM E unit :=
  smod (fun f => f_with_requests (deregister request_id (f_interrupt_mgr f)) f).

(** ** Nodes *)

Definition add_node_state {E} (ino : Z) : FM E unit := fun f =>
  match f_node_states f !! ino with
  | Some s => match node_increment (E := E) 1 s with
              | Ok s => (Ok tt, f_with_nodes (<[ino := s]> (f_node_states f)) f)
              | Err e => (Err e, f)
              | Panic => (Panic, f)
              end
  | None => (Ok tt, f_with_nodes (<[ino := node_new]> (f_node_states f)) f)
  end.

Definition decrement_node_state {E} (ino nlookup : Z) : FM E bool := fun f =>
  match f_node_states f !! ino with
  | Some s =>
      let s := node_decrement nlookup s in
      let nodes := <[ino := s]> (f_node_states f) in
      if node_is_zero s then (Ok true, f_with_nodes (delete ino nodes) f) else (Ok false, f_with_nodes nodes f)
  | None => (Ok false, f)
  end.

Definition fuse_lookup_count (ino : Z) (f : FuseFs) : Z := from_option lookup_count 0 (f_node_states f !! ino).

Definition fuse_forget {E} (ino nlookup : Z) : FM E unit :=
  let* should_evict := decrement_node_state ino nlookup in
  if should_evict : bool then
    smod (fun f => f_with_volume (v_with_cache (pc_evict ino (v_page_cache (f_volume f))) (v_storage (f_volume f)) (f_volume f)) f)
  else sret tt.

Definition batch_forget {E} (entries : list (Z * Z)) : FM E unit := sfor entries (fun e => fuse_forget e.1 e.2).

(** ** Locks *)

Definition do_setlk (ino : Z) (flock : Flock) (owner : Z) : FM Z unit :=
  let* inode := read_inode ENOENT ino in
  let file_size := dinode_size_val (in_dinode inode) in
  let* (start, end_) := slift (resolve_flock flock file_size) in
  if l_type flock =? F_UNLCK then smod (fun f => f_with_locks (release_owner_locks ino owner (f_locks f)) (f_flock_locks f) f)
  else
    let* f := sget in
    match check_lock_conflict (f_locks f) ino start end_ (l_type flock) owner with
    | Some _ => sfail EAGAIN
    | None => smod (fun f => f_with_locks (place_lock ino (posix_new (l_type flock) start end_ owner) (f_locks f)) (f_flock_locks f) f)
    end.

Definition do_getlk (ino : Z) (flock : Flock) (owner : Z) : FM Z Flock :=
  let* inode := read_inode ENOENT ino in
  let file_size := dinode_size_val (in_dinode inode) in
  let* (start, end_) := slift (resolve_flock flock file_size) in
  let* f := sget in
  match check_lock_conflict (f_locks f) ino start end_ (l_type flock) owner with
  | Some conflict =>
      let* len := if pl_end conflict =? U64_MAX then sret 0
                  else let* n := slift (sub_u64 (pl_end conflict) (pl_start conflict)) in sret (as_i64 n) in
      sret (mkFlock (pl_type conflict) SEEK_SET (as_i64 (pl_start conflict)) len (pl_owner conflict))
  | None => sret (mkFlock F_UNLCK (l_whence flock) (l_start flock) (l_len flock) 0)
  end.

Definition fuse_getlk (ino : Z) (flock : Flock) (owner : Z) : FM Z Flock :=
  if_writable EROFS
    (if negb (l_type flock =? F_RDLCK) && negb (l_type flock =? F_WRLCK) then sfail EINVAL else do_getlk ino flock owner).

Definition fuse_setlk (ino : Z) (flock : Flock) (owner : Z) : FM Z unit :=
  if_writable EROFS
    (if negb (l_type flock =? F_UNLCK) && negb (l_type flock =? F_RDLCK) && negb (l_type flock =? F_WRLCK) then sfail EINVAL
     else do_setlk ino flock owner).

(** [setlkw] has the body of [setlk]. *)
Definition fuse_setlkw (ino : Z) (flock : Flock) (owner : Z) : FM Z unit :=
  if_writable EROFS
    (if negb (l_type flock =? F_UNLCK) && negb (l_type flock =? F_RDLCK) && negb (l_type flock =? F_WRLCK) then sfail EINVAL
     else do_setlk ino flock owner).

Definition release_locks {E} (ino owner : Z) : FM E unit :=
  smod (fun f => f_with_locks (release_owner_locks ino owner (f_locks f)) (release_flock_owner ino owner (f_flock_locks f)) f).

Definition fuse_flock (ino operation owner : Z) : FM Z unit :=
  if_writable EROFS (fun f =>
    match flock_table ino operation owner (f_flock_locks f) with
    | Ok k => (Ok tt, f_with_locks (f_locks f) k f)
    | Err e => (Err e, f)
    | Panic => (Panic, f)
    end).

(** ** Directories *)

Definition DOT : list Z := str ".".
Definition DOTDOT : list Z := str "..".

(** [u32::from_le_bytes(dtroot[20..24])]. *)
Definition dotdot_ino (dtroot : list byte) : option Z := if 24 <=? zlen dtroot then Some (le_val (zslice dtroot 20 24)) else None.

Definition fuse_lookup (parent_ino : Z) (name : list Z) : FM unit Z :=
  if bool_decide (name = DOT) then let* _ := add_node_state parent_ino in sret parent_ino
  else if bool_decide (name = DOTDOT) then
    let* parent := read_inode tt parent_ino in
    if negb (dinode_is_dir (in_dinode parent)) then sfail tt
    else match dotdot_ino (dinode_dtroot_bytes (in_dinode parent)) with
         | Some ino => let* _ := add_node_state ino in sret ino
         | None => sfail tt
         end
  else
    let* parent := read_inode tt parent_ino in
    if negb (dinode_is_dir (in_dinode parent)) then sfail tt
    else
      let* dtree := lift_or tt (dt_from_inode_data (dinode_dtroot_bytes (in_dinode parent))) in
      let* entry := lift_or tt (dt_lookup (encode_utf16 name) dtree) in
      match entry with
      | Some e => let* _ := add_node_state (de_inumber e) in sret (de_inumber e)
      | None => sfail tt
      end.

Definition fuse_getattr (ino : Z) : FM unit Dinode := let* i := read_inode tt ino in sret (in_dinode i).

Definition infer_file_type {E} (ino : Z) : FM E Z :=
  let* r := attempt (read_inode tt ino) in
  sret (match r with
        | inl inode => if dinode_is_symlink (in_dinode inode) then 0xA0
                       else if dinode_is_dir (in_dinode inode) then 0x04
                       else if dinode_is_regular (in_dinode inode) then 0x08
                       else 0x00
        | inr _ => 0x00
        end).

(** The entries of a directory; [None] when the tree or its entries do not parse. *)
Definition tree_entries {E} (inode : Inode) : outcome E (option (list DirEntry)) :=
  match dt_from_inode_data (dinode_dtroot_bytes (in_dinode inode)) with
  | Ok dtree => match dt_entries dtree with Ok es => Ok (Some es) | Err _ => Ok None | Panic => Panic end
  | Err _ => Ok None
  | Panic => Panic
  end.

(** An entry of a listing: name, inode, type, cookie. *)
Definition Listed : Type := list Z * Z * Z * Z.

(** The entries [.] and [..] that a listing begins with. *)
Definition listed_dots (ino : Z) (inode : Inode) (cursor : DirectoryCursor) : list Listed :=
  (if cursor_is_entry cursor then [] else [(DOT, ino, 0x04, DOT_OFFSET)]) ++
  match dotdot_ino (dinode_dtroot_bytes (in_dinode inode)) with
  | Some parent_ino => if cur_offset cursor <=? DOTDOT_OFFSET then [(DOTDOT, parent_ino, 0x04, DOTDOT_OFFSET)] else []
  | None => []
  end.

Fixpoint list_entries {E} (start_idx idx : Z) (entries : list DirEntry) : FM E (list Listed) :=
  match entries with
  | [] => sret []
  | e :: entries =>
      let* file_type := infer_file_type (de_inumber e) in
      let* cookie := slift (add_u64 (ENTRY_BASE + start_idx) idx) in
      let* rest := list_entries start_idx (idx + 1) entries in
      sret ((name_str e, de_inumber e, file_type, cookie) :: rest)
  end.

Definition fuse_readdir (ino offset : Z) : FM unit (list Listed) :=
  let* inode := read_inode tt ino in
  if negb (dinode_is_dir (in_dinode inode)) then sfail tt
  else
    let cursor := cursor_from_offset offset in
    let start_idx := default 0 (entry_index cursor) in
    let* entries := slift (tree_entries inode) in
    let* listed := list_entries start_idx 0 (drop (Z.to_nat start_idx) (default [] entries)) in
    sret (listed_dots ino inode cursor ++ listed).

(** [readdirplus]: an entry is left out when its inode cannot be read. *)
Definition ListedPlus : Type := list Z * Z * Z * Dinode * Z.

Definition plus_entry {E} (name : list Z) (ino file_type cookie : Z) : FM E (list ListedPlus) :=
  let* _ := add_node_state ino in
  let* attr := attempt (fuse_getattr ino) in
  sret (match attr with inl attr => [(name, ino, file_type, attr, cookie)] | inr _ => [] end).

Fixpoint list_plus {E} (start_idx idx : Z) (entries : list DirEntry) : FM E (list ListedPlus) :=
  match entries with
  | [] => sret []
  | e :: entries =>
      let* file_type := infer_file_type (de_inumber e) in
      let* cookie := slift (add_u64 (ENTRY_BASE + start_idx) idx) in
      let* entry := plus_entry (name_str e) (de_inumber e) file_type cookie in
      let* rest := list_plus start_idx (idx + 1) entries in
      sret (entry ++ rest)
  end.

Definition fuse_readdirplus (ino offset : Z) : FM unit (list ListedPlus) :=
  let* inode := read_inode tt ino in
  if negb (dinode_is_dir (in_dinode inode)) then sfail tt
  else
    let cursor := cursor_from_offset offset in
    let* dot := if cursor_is_entry cursor then sret [] else plus_entry DOT ino 0x04 DOT_OFFSET in
    let* dotdot := match dotdot_ino (dinode_dtroot_bytes (in_dinode inode)) with
                   | Some parent_ino => if cur_offset cursor <=? DOTDOT_OFFSET
                                        then plus_entry DOTDOT parent_ino 0x04 DOTDOT_OFFSET else sret []
                   | None => sret []
                   end in
    let start_idx := default 0 (entry_index cursor) in
    let* entries := slift (tree_entries inode) in
    let* listed := list_plus start_idx 0 (drop (Z.to_nat start_idx) (default [] entries)) in
    sret (dot ++ dotdot ++ listed).

(** The loop of [readdir_interruptible]; [i] is the index of the entry in the directory. *)
Fixpoint list_interruptible (irq : nat -> bool) (polls : nat) (start_idx i : Z) (entries : list DirEntry) : FM Z (list Listed) :=
  match entries with
  | [] => sret []
  | e :: entries =>
      if i <? start_idx then list_interruptible irq polls start_idx (i + 1) entries
      else if irq polls then sfail EINTR
      else
        let* file_type := infer_file_type (de_inumber e) in
        let* cookie := slift (add_u64 (ENTRY_BASE + start_idx) i) in
        let* rest := list_interruptible irq (S polls) start_idx (i + 1) entries in
        sret ((name_str e, de_inumber e, file_type, cookie) :: rest)
  end.

Definition readdir_interruptible (ino offset : Z) (irq : nat -> bool) : FM Z (list Listed) :=
  let* inode := read_inode ENOENT ino in
  if negb (dinode_is_dir (in_dinode inode)) then sfail ENOTDIR
  else
    let cursor := cursor_from_offset offset in
    let* entries := slift (tree_entries inode) in
    let start_idx := if cursor_is_entry cursor then default 0 (entry_index cursor) else 0 in
    let* listed := list_interruptible irq 0 start_idx 0 (default [] entries) in
    sret (listed_dots ino inode cursor ++ listed).
End fuse.

Arguments FuseFs : clear implicits.
Arguments FuseFs {L} W.
