(* ===== verification/FuseFiles.v ===== *)
(** * Files behind FUSE ([fuse/mod.rs], [FuseFs])

    The operations of [FuseFs] on files, names, attributes and handles: reading,
    seeking, the attributes a reply carries, the calls that change the volume, and
    the numbers their errors become. *)

From stdpp Require Import gmap.
From Stdlib Require Import ZArith Lia.
From S2P Require Import Prelude Types Utf Storage PageCache Inode Xtree Dtree Volume VolumeData VolumeDir Xattr Interrupt FuseAbi FuseLocks Fuse.

Section files.
Context {LE : LittleEndian} {L : Lru PageKey CachedPage} {HO : HashOrder} {XF : XadFlags} {W : Type} {FS : Storage W}.
Abbreviation FM := (ST (FuseFs W)).

(** ** Reading *)

Definition fuse_access (ino mask uid gid : Z) : FM Z unit :=
  let* r := attempt (fuse_getattr ino) in
  match r with
  | inr _ => sfail ENOENT
  | inl dinode =>
      let mode := dinode_mode dinode in
      if uid =? 0 then sret tt
      else if dinode_is_symlink dinode then sret tt
      else
        let perms := if uid =? dinode_uid dinode then Z.shiftr mode 6
                     else if gid =? dinode_gid dinode then Z.shiftr mode 3
                     else mode in
        if negb (Z.land mask R_OK =? 0) && (Z.land perms 4 =? 0) then sfail EACCES
        else if negb (Z.land mask W_OK =? 0) && (Z.land perms 2 =? 0) then sfail EACCES
        else if negb (Z.land mask X_OK =? 0) && (Z.land perms 1 =? 0) then sfail EACCES
        else sret tt
  end.

Definition fuse_read (ino offset length : Z) : FM unit (list byte) :=
  let* inode := read_inode tt ino in
  let size := dinode_size_val (in_dinode inode) in
  if size <=? offset then sret []
  else
    let max_read := Z.min length (size - offset) in
    let* xtree := lift_or tt (xt_from_inode_data (dinode_xtroot_bytes (in_dinode inode))) in
    or_errno tt (on_storage (read_data from_bits_truncate offset max_read xtree)).

Definition read_interruptible (ino offset length : Z) (irq : nat -> bool) : FM Z (list byte) :=
  let* inode := read_inode ENOENT ino in
  let size := dinode_size_val (in_dinode inode) in
  if size <=? offset then sret []
  else
    let max_read := Z.min length (size - offset) in
    let* xtree := lift_or EIO (xt_from_inode_data (dinode_xtroot_bytes (in_dinode inode))) in
    or_errno EINTR (on_storage (read_data_checked from_bits_truncate irq offset max_read xtree)).

Definition SEEK_DATA : Z := 3.
Definition SEEK_HOLE : Z := 4.

(** The loops of [lseek_data_or_hole]. An extent has a 40-bit offset and a 24-bit
    length, so its end in bytes fits in 64 bits. *)
Fixpoint seek_data (extents : list Extent) (offset : Z) : option Z :=
  match extents with
  | [] => None
  | ext :: extents =>
      let ext_start := as_u64 (e_offset ext) * BLOCK_SIZE in
      let ext_end := ext_start + e_length ext * BLOCK_SIZE in
      if offset <? ext_end then Some (if ext_start <=? offset then offset else ext_start)
      else seek_data extents offset
  end.

Fixpoint seek_hole (extents : list Extent) (offset size : Z) : Z :=
  match extents with
  | [] => size
  | ext :: extents =>
      let ext_start := as_u64 (e_offset ext) * BLOCK_SIZE in
      let ext_end := Z.min (ext_start + e_length ext * BLOCK_SIZE) size in
      if offset <? ext_start then offset
      else if offset <? ext_end then ext_end
      else seek_hole extents offset size
  end.

Definition lseek_data_or_hole (ino offset seek_type : Z) : FM unit Z :=
  let* inode := read_inode tt ino in
  let size := dinode_size_val (in_dinode inode) in
  if size <=? offset then sfail tt
  else if seek_type =? SEEK_DATA then
    let* xtree := lift_or tt (xt_from_inode_data (dinode_xtroot_bytes (in_dinode inode))) in
    match seek_data (iter_extents from_bits_truncate xtree) offset with Some r => sret r | None => sfail tt end
  else if seek_type =? SEEK_HOLE then
    let* xtree := lift_or tt (xt_from_inode_data (dinode_xtroot_bytes (in_dinode inode))) in
    sret (seek_hole (iter_extents from_bits_truncate xtree) offset size)
  else sfail tt.

Definition NANOS : Z := 1000000000.
(** [epoch + Duration::new(t.seconds(), t.nanoseconds())]. *)
Definition time_of (t : Timestruc) : Z := ts_seconds t * NANOS + ts_nanoseconds t.

Definition dinode_to_fileattr (ino : Z) (dinode : Dinode) : FileAttr :=
  let mode := dinode_mode dinode in
  let fmt := Z.land mode 0xf000 in
  let kind := if fmt =? 0x1000 then NamedPipe else if fmt =? 0x2000 then CharDevice
              else if fmt =? 0x4000 then Directory else if fmt =? 0x6000 then BlockDevice
              else if fmt =? 0x8000 then RegularFile else if fmt =? 0xa000 then Symlink
              else if fmt =? 0xc000 then Socket else RegularFile in
  mkAttr ino (dinode_size_val dinode) (dinode_nblocks dinode)
    (time_of (di_atime dinode)) (time_of (di_mtime dinode)) (time_of (di_ctime dinode)) (time_of (di_ctime dinode))
    kind (as_u16 (Z.land mode 0x1fff)) (dinode_nlink dinode) (dinode_uid dinode) (dinode_gid dinode) 0 BLOCK_SIZE 0.

(** [total_inodes] has no error: it returns or overflows. *)
Definition fuse_statfs {E} : FM E Statfs := fun f =>
  let v := f_volume f in
  match vol_total_inodes v with
  | Ok total_inodes =>
      (Ok (mkStatfs (v_agg_size v) (vol_free_blocks v) (vol_free_blocks v) total_inodes 0
             (v_block_size v) (v_block_size v) dinode_size 255), f)
  | _ => (Panic, f)
  end.

Definition fuse_bmap (ino file_block : Z) : FM Z (Z * Z) :=
  let* inode := read_inode ENOENT ino in
  let* xtree := lift_or EIO (xt_from_inode_data (dinode_xtroot_bytes (in_dinode inode))) in
  let* found := lift_or EIO (xt_lookup from_bits_truncate file_block xtree) in
  match found with
  | Some extent =>
      let* rel := slift (sub_u64 file_block (as_u64 (e_offset extent))) in
      let* block := slift (add_u64 (e_address extent) rel) in
      sret (block, e_length extent)
  | None => sret (0, 0)
  end.

Definition fuse_readlink (ino : Z) : FM Z (list byte) := on_volume readlink_errno (read_symlink ino).

(** ** Handles *)

Definition open_handle {E} (ino : Z) (is_dir : bool) : FM E Z := fun f =>
  let fh := f_next_fh f in
  match @add_u64 E (f_next_fh f) 1 with
  | Ok next => (Ok fh, f_with_handles (<[fh := mkHandle fh ino is_dir]> (f_handles f)) next f)
  | Err e => (Err e, f)
  | Panic => (Panic, f)
  end.

Definition release_handle {E} (fh : Z) : FM E (option OpenHandle) := fun f =>
  (Ok (f_handles f !! fh), f_with_handles (delete fh (f_handles f)) (f_next_fh f) f).

Definition fuse_open (ino : Z) : FM Z unit := or_errno ENOENT (open_file ino).
Definition fuse_release (ino : Z) : FM Z unit := or_errno EIO (release_file ino).

(** ** Calls that change files *)

Definition fuse_create (parent_ino : Z) (name : list Z) (mode : Z) : FM unit Z :=
  if_writable tt
    (let* ino := or_errno tt (create_file parent_ino name) in
     let* _ := add_node_state ino in
     sret ino).

Definition fuse_write (ino offset : Z) (data : list byte) : FM unit Z := if_writable tt (or_errno tt (write_at ino offset data)).

Definition write_interruptible (ino offset : Z) (data : list byte) (irq : nat -> bool) : FM Z Z :=
  if_writable EROFS (or_errno EINTR (write_at_with_interrupt irq data ino offset)).

Definition fuse_flush (ino : Z) : FM unit unit := if_writable tt (or_errno tt (fsync ino)).

Definition sync_fs : FM Z unit := if_writable EROFS (or_errno EIO vol_sync).

Definition fuse_truncate (ino new_size : Z) : FM unit unit := if_writable tt (or_errno tt (truncate ino new_size)).

Definition FALLOC_FL_REFUSED : Z := Z.lor (Z.lor 0x08 0x10) 0x20.

Definition fuse_fallocate (ino offset len mode : Z) : FM Z unit :=
  if_writable EROFS
    (if negb (Z.land mode FALLOC_FL_REFUSED =? 0) then sfail EOPNOTSUPP
     else on_volume fallocate_errno (fallocate ino offset len mode)).

(** [self.read(..).ok_or(EIO)?], then [self.write(..).unwrap_or(0)]. *)
Definition copy_through (src_ino cur_src dst_ino cur_dst chunk : Z) : FM Z Z :=
  let* data := attempt (fuse_read src_ino cur_src chunk) in
  match data with
  | inr _ => sfail EIO
  | inl data =>
      let* written := attempt (fuse_write dst_ino cur_dst data) in
      sret (match written with inl n => n | inr _ => 0 end)
  end.

Definition FUSE_COPY_FILE_RANGE_MOVE : Z := 1.
Definition FALLOC_FL_PUNCH_KEEP : Z := Z.lor FALLOC_FL_PUNCH_HOLE FALLOC_FL_KEEP_SIZE.
Definition CHUNK_SIZE : Z := 65536.

(** One chunk: moved by its extents, or copied and then punched out of the source. *)
Definition copy_chunk (is_move : bool) (src_ino cur_src dst_ino cur_dst chunk : Z) : FM Z Z :=
  if is_move && negb (src_ino =? dst_ino) then
    let* moved := attempt (or_errno EIO (copy_file_range_extent src_ino cur_src dst_ino cur_dst chunk)) in
    match moved with
    | inl (Some n) => sret n
    | _ =>
        let* written := copy_through src_ino cur_src dst_ino cur_dst chunk in
        let* _ := if (0 <? written) && is_move
                  then let* _ := attempt (or_errno EIO (fallocate src_ino cur_src written FALLOC_FL_PUNCH_KEEP)) in sret tt
                  else sret tt in
        sret written
    end
  else copy_through src_ino cur_src dst_ino cur_dst chunk.

(** The [while] loop. Every round but the last copies a byte, so a unit of fuel per byte and one more are enough. *)
Fixpoint copy_loop (fuel : nat) (is_move : bool) (src_ino cur_src dst_ino cur_dst len total : Z) : FM Z Z :=
  match fuel with
  | O => spanic
  | S fuel =>
      if total <? len then
        let* copied := copy_chunk is_move src_ino cur_src dst_ino cur_dst (Z.min (len - total) CHUNK_SIZE) in
        if copied =? 0 then sret total
        else
          let* total := slift (add_u64 total copied) in
          let* cur_src := slift (add_u64 cur_src copied) in
          let* cur_dst := slift (add_u64 cur_dst copied) in
          copy_loop fuel is_move src_ino cur_src dst_ino cur_dst len total
      else sret total
  end.

Definition fuse_copy_file_range (src_ino src_offset dst_ino dst_offset len flags : Z) : FM Z Z :=
  if_writable EROFS
    (if (src_ino =? dst_ino) && (src_offset =? dst_offset) then sfail EINVAL
     else
       let is_move := negb (Z.land flags FUSE_COPY_FILE_RANGE_MOVE =? 0) in
       let* total := copy_loop (S (Z.to_nat len)) is_move src_ino src_offset dst_ino dst_offset len 0 in
       if total =? 0 then sfail EIO else sret total).

Definition fuse_setattr (ino : Z) (mode uid gid atime mtime size : option Z) : FM Z unit :=
  if_writable EROFS
    (let* _ := match size with
               | Some new_size =>
                   let* r := attempt (fuse_truncate ino new_size) in
                   match r with inl _ => sret tt | inr _ => sfail EIO end
               | None => sret tt
               end in
     or_errno EIO (setattr ino mode uid gid atime mtime)).

(** ** Calls that change names *)

Definition fuse_unlink (parent_ino : Z) (name : list Z) : FM unit bool :=
  if_writable tt
    (let* r := attempt (or_errno tt (unlink_file parent_ino name)) in
     sret (match r with inl b => b | inr _ => false end)).

(** [.map(|ino| { self.add_node_state(ino); ino })]. *)
Definition new_node (err : StorageError -> Z) (m : ST (Volume W) StorageError Z) : FM Z Z :=
  let* ino := on_volume err m in
  let* _ := add_node_state ino in
  sret ino.

Definition fuse_mkdir (parent_ino : Z) (name : list Z) (mode : Z) : FM Z Z :=
  if_writable EROFS (new_node mkdir_errno (mkdir parent_ino name)).
Definition fuse_symlink (parent_ino : Z) (name target : list Z) : FM Z Z :=
  if_writable EROFS (new_node storage_error_to_errno (symlink parent_ino name target)).
Definition fuse_mknod (parent_ino : Z) (name : list Z) (mode rdev : Z) : FM Z Z :=
  if_writable EROFS (new_node storage_error_to_errno (mknod parent_ino name mode rdev)).

Definition fuse_rmdir (parent_ino : Z) (name : list Z) : FM Z unit :=
  if_writable EROFS
    (let* b := on_volume rmdir_errno (rmdir parent_ino name) in
     if b : bool then sret tt else sfail ENOENT).

(** [.map(|_| ())]: [Ok(false)], no such name, is a success. *)
Definition fuse_rename (old_parent : Z) (old_name : list Z) (new_parent : Z) (new_name : list Z) : FM Z unit :=
  if_writable EROFS
    (let* _ := on_volume rename_errno (rename old_parent old_name new_parent new_name) in sret tt).

Definition fuse_link (parent_ino : Z) (name : list Z) (target_ino : Z) : FM Z unit :=
  if_writable EROFS
    (let* _ := on_volume storage_error_to_errno (link_file parent_ino name target_ino) in sret tt).

(** ** Extended attributes *)

Definition fuse_setxattr (ino : Z) (name : list Z) (value : list byte) (flags : Z) : FM Z unit :=
  if_writable EROFS (on_volume storage_error_to_errno (setxattr ino (translate_xattr_name name) value flags)).

Definition fuse_getxattr (ino : Z) (name : list Z) : FM Z (option (list byte)) :=
  if_writable EROFS (on_volume storage_error_to_errno (getxattr ino (translate_xattr_name name))).

Definition fuse_removexattr (ino : Z) (name : list Z) : FM Z unit :=
  if_writable EROFS
    (let* ok := on_volume storage_error_to_errno (removexattr ino (translate_xattr_name name)) in
     if ok : bool then sret tt else sfail ENOENT).

Definition fuse_listxattr (ino : Z) : FM Z (list (list Z)) :=
  if_writable EROFS
    (let* names := on_volume storage_error_to_errno (listxattr ino) in
     sret (reverse_xattr_name <$> names)).
End files.
