(* ===== verification/FuseServer.v ===== *)
(** * The FUSE server ([fuse/mod.rs], [Fuse3Fs])

    The handlers of the trait [fuser::Filesystem]. The file system is behind a
    lock, so a handler runs alone on the state (writers) or only reads it: a
    handler is a function of the state that returns the reply it sends. It fails
    only by a panic. Names are the bytes the kernel sends; [now] is the clock;
    [irq] are the polls of the token of the request. *)

From stdpp Require Import gmap.
From Stdlib Require Import ZArith Lia.
From S2P Require Import Prelude Types Utf Storage PageCache Inode Xtree Dtree Volume VolumeData VolumeDir Xattr Interrupt FuseAbi FuseLocks Fuse FuseFiles.

(** What a handler sends back. *)
Inductive Reply :=
| RError (errno : Z)
| ROk
| REntry (ttl : Z) (attr : FileAttr) (generation : Z)
| RAttr (ttl : Z) (attr : FileAttr)
| RData (data : list byte)
| RSize (size : Z)
| ROpened (fh : Z)
| RWritten (size : Z)
| RCreated (ttl : Z) (attr : FileAttr) (generation fh : Z)
| RStatfs (blocks bfree bavail files ffree bsize namelen frsize : Z)
| RDirectory (entries : list (Z * Z * FileType * list Z))
| RDirectoryPlus (entries : list (Z * Z * list Z * Z * FileAttr * Z))
| RBmap (block : Z)
| ROffset (offset : Z).

Inductive TimeOrNow := Now | SpecificTime (time : Z).

(** [SystemTime::duration_since(UNIX_EPOCH).unwrap().as_secs()]. *)
Definition secs_since_epoch {E} (time : Z) : outcome E Z := if time <? 0 then Panic else Ok (time / NANOS).

Definition time_or_now_to_secs {E} (now : Z) (t : option TimeOrNow) : outcome E (option Z) :=
  match t with
  | None => Ok None
  | Some Now => let! s := secs_since_epoch now in Ok (Some s)
  | Some (SpecificTime time) => let! s := secs_since_epoch time in Ok (Some s)
  end.

Definition fuse_file_type (dt : Z) : FileType :=
  if dt =? 0x04 then Directory
  else if dt =? 0x08 then RegularFile
  else if (dt =? 0x0A) || (dt =? 0xA0) then Symlink
  else if dt =? 0x01 then NamedPipe
  else if dt =? 0x02 then CharDevice
  else if dt =? 0x06 then BlockDevice
  else if (dt =? 0x0C) || (dt =? 0x0E) then Socket
  else RegularFile.

Definition validate_handle_static (handles : gmap Z OpenHandle) (fh expected_ino : Z) (expect_file : bool) : outcome Z unit :=
  match handles !! fh with
  | Some h =>
      if oh_ino h =? expected_ino then
        if expect_file && oh_is_dir h then Err EISDIR
        else if negb expect_file && negb (oh_is_dir h) then Err ENOTDIR
        else Ok tt
      else Err EBADF
  | None => Err EBADF
  end.

Definition TTL : Z := 5.

Section server.
Context {LE : LittleEndian} {L : Lru PageKey CachedPage} {HO : HashOrder} {XF : XadFlags} {W : Type} {FS : Storage W}.
Abbreviation FM := (ST (FuseFs W)).
(** A handler has no error of its own. *)
Abbreviation HM := (ST (FuseFs W) Empty_set Reply).

(** [match call { Ok(a) => k a, Err(e) => reply.error(e) }]. *)
Definition or_reply {A} (m : FM Z A) (k : A -> HM) : HM :=
  let* r := attempt m in
  match r with inl a => k a | inr e => sret (RError e) end.

(** The same for an [Option] with a fixed error. *)
Definition some_or {A} (e : Z) (m : FM unit A) (k : A -> HM) : HM :=
  let* r := attempt m in
  match r with inl a => k a | inr _ => sret (RError e) end.

Definition dinode_attr (ino : Z) (dinode : Dinode) : FileAttr := dinode_to_fileattr ino dinode.
Definition dinode_attr_from (dinode : Dinode) (ino : Z) : FileAttr := dinode_to_fileattr ino dinode.

(** [match fs.getattr(ino) { Some(dinode) => reply.entry(..), None => reply.error(ENOENT) }]. *)
Definition reply_entry (ino : Z) : HM :=
  some_or ENOENT (fuse_getattr ino) (fun dinode => sret (REntry TTL (dinode_attr ino dinode) (dinode_generation dinode))).
Definition reply_attr (ino : Z) : HM :=
  some_or ENOENT (fuse_getattr ino) (fun dinode => sret (RAttr TTL (dinode_attr ino dinode))).

Definition validate_handle (fh expected_ino : Z) (expect_file : bool) : FM Z unit := fun f =>
  (validate_handle_static (f_handles f) fh expected_ino expect_file, f).

(** ** Names and attributes *)

Definition srv_init : FM Empty_set unit := sret tt.

Definition srv_destroy : FM Empty_set unit :=
  let* f := sget in
  if f_writable f then let* _ := attempt (or_errno tt umount) in sret tt else sret tt.

Definition srv_lookup (parent : Z) (name : list byte) : HM :=
  some_or ENOENT (fuse_lookup (as_u32 parent) (from_utf8_lossy name)) reply_entry.

Definition srv_forget (inode nlookup : Z) : FM Empty_set unit := fuse_forget (as_u32 inode) nlookup.

Definition srv_getattr (inode : Z) : HM := reply_attr (as_u32 inode).

Definition srv_setattr (now inode : Z) (mode uid gid size : option Z) (atime mtime : option TimeOrNow) : HM :=
  let ino := as_u32 inode in
  let* atime_secs := slift (time_or_now_to_secs now atime) in
  let* mtime_secs := slift (time_or_now_to_secs now mtime) in
  or_reply (fuse_setattr ino mode uid gid atime_secs mtime_secs size) (fun _ => reply_attr ino).

Definition srv_readlink (inode : Z) : HM :=
  or_reply (fuse_readlink (as_u32 inode)) (fun data =>
    sret (RData (if 128 <? zlen data then take 128 data else data))).

Definition srv_symlink (parent : Z) (link_name target : list byte) : HM :=
  or_reply (fuse_symlink (as_u32 parent) (from_utf8_lossy link_name) (from_utf8_lossy target)) reply_entry.

Definition srv_mknod (parent : Z) (name : list byte) (mode rdev : Z) : HM :=
  or_reply (fuse_mknod (as_u32 parent) (from_utf8_lossy name) mode rdev) reply_entry.

Definition srv_mkdir (parent : Z) (name : list byte) (mode : Z) : HM :=
  or_reply (fuse_mkdir (as_u32 parent) (from_utf8_lossy name) mode) reply_entry.

Definition srv_unlink (parent : Z) (name : list byte) : HM :=
  let* r := attempt (fuse_unlink (as_u32 parent) (from_utf8_lossy name)) in
  sret (match r with inl true => ROk | _ => RError ENOENT end).

Definition srv_rmdir (parent : Z) (name : list byte) : HM :=
  or_reply (fuse_rmdir (as_u32 parent) (from_utf8_lossy name)) (fun _ => sret ROk).

Definition RENAME_NOREPLACE_BIT : Z := Z.shiftl 1 0.
Definition RENAME_EXCHANGE_BIT : Z := Z.shiftl 1 1.

Definition srv_rename (parent : Z) (name : list byte) (new_parent : Z) (new_name : list byte) (flags : Z) : HM :=
  if negb (Z.land flags RENAME_EXCHANGE_BIT =? 0) then sret (RError EOPNOTSUPP)
  else if negb (Z.land flags RENAME_NOREPLACE_BIT =? 0) then sret (RError EOPNOTSUPP)
  else if negb (flags =? 0) then sret (RError EINVAL)
  else or_reply (fuse_rename (as_u32 parent) (from_utf8_lossy name) (as_u32 new_parent) (from_utf8_lossy new_name))
         (fun _ => sret ROk).

Definition srv_link (inode new_parent : Z) (new_name : list byte) : HM :=
  let target_ino := as_u32 inode in
  or_reply (fuse_link (as_u32 new_parent) (from_utf8_lossy new_name) target_ino) (fun _ => reply_entry target_ino).

Definition srv_access (inode mask uid gid : Z) : HM :=
  or_reply (fuse_access (as_u32 inode) (as_u32 mask) uid gid) (fun _ => sret ROk).

(** ** Handles *)

Definition srv_open (inode : Z) : HM :=
  let ino := as_u32 inode in
  or_reply (fuse_open ino) (fun _ => let* fh := open_handle ino false in sret (ROpened fh)).

Definition srv_opendir (inode : Z) : HM :=
  let ino := as_u32 inode in
  or_reply (fuse_open ino) (fun _ => let* fh := open_handle ino true in sret (ROpened fh)).

(** [fs.open(ino)] is called for its effect; its result is dropped. *)
Definition srv_create (parent : Z) (name : list byte) (mode : Z) : HM :=
  some_or EIO (fuse_create (as_u32 parent) (from_utf8_lossy name) mode) (fun ino =>
    some_or ENOENT (fuse_getattr ino) (fun dinode =>
      let* _ := attempt (fuse_open ino) in
      let* fh := open_handle ino false in
      sret (RCreated TTL (dinode_attr ino dinode) (dinode_generation dinode) fh))).

(** The part of [release] after the flush. *)
Definition finish_release (ino fh : Z) (lock_owner : option Z) : HM :=
  let* _ := release_handle fh in
  let* _ := match lock_owner with Some owner => release_locks ino owner | None => sret tt end in
  or_reply (fuse_release ino) (fun _ => sret ROk).

Definition srv_release (inode fh : Z) (lock_owner : option Z) (flush : bool) : HM :=
  let ino := as_u32 inode in
  if flush then some_or EIO (fuse_flush ino) (fun _ => finish_release ino fh lock_owner)
  else finish_release ino fh lock_owner.

Definition srv_releasedir (inode fh : Z) : HM :=
  let* _ := release_handle fh in
  or_reply (fuse_release (as_u32 inode)) (fun _ => sret ROk).

(** ** Data *)

(** [register_request_at], the call, [deregister_request]. *)
Definition registered {A} (req_id : Z) (m : FM Z A) : FM Empty_set (A + Z) :=
  let* _ := register_request_at req_id in
  let* r := attempt m in
  let* _ := deregister_request req_id in
  sret r.

Definition srv_read (req_id : Z) (irq : nat -> bool) (inode fh offset size : Z) : HM :=
  let ino := as_u32 inode in
  or_reply (validate_handle fh ino false) (fun _ =>
    let* r := registered req_id (read_interruptible ino offset size irq) in
    sret (match r with inl data => RData data | inr e => RError e end)).

Definition srv_write (req_id : Z) (irq : nat -> bool) (inode fh offset : Z) (data : list byte) (write_cache : bool) : HM :=
  let ino := as_u32 inode in
  or_reply (validate_handle fh ino false) (fun _ =>
    let* r := registered req_id (write_interruptible ino offset data irq) in
    match r with
    | inl n => if write_cache then some_or EIO (fuse_flush ino) (fun _ => sret (RWritten (as_u32 n))) else sret (RWritten (as_u32 n))
    | inr e => sret (RError e)
    end).

Definition srv_statfs : HM :=
  let* s := fuse_statfs in
  sret (RStatfs (sf_blocks s) (sf_bfree s) (sf_bavail s) (sf_files s) (sf_ffree s) (sf_bsize s) (sf_namelen s) (sf_blksize s)).

Definition srv_fsync (inode : Z) (datasync : bool) : HM :=
  let ino := as_u32 inode in
  if datasync then some_or EIO (fuse_flush ino) (fun _ => sret ROk)
  else or_reply sync_fs (fun _ => some_or EIO (fuse_flush ino) (fun _ => sret ROk)).

Definition srv_flush (inode : Z) : HM := some_or EIO (fuse_flush (as_u32 inode)) (fun _ => sret ROk).

Definition srv_fsyncdir : HM := or_reply sync_fs (fun _ => sret ROk).

Definition srv_bmap (inode blocksize idx : Z) : HM :=
  if negb (blocksize =? 0) && negb (blocksize =? BLOCK_SIZE) then sret (RError EINVAL)
  else or_reply (fuse_bmap (as_u32 inode) idx) (fun r => sret (RBmap r.1)).

Definition srv_poll : HM := sret (RError EOPNOTSUPP).

Definition srv_fallocate (inode fh offset length mode : Z) : HM :=
  let ino := as_u32 inode in
  or_reply (validate_handle fh ino false) (fun _ =>
    or_reply (fuse_fallocate ino offset length (as_u32 mode)) (fun _ => sret ROk)).

Definition srv_lseek (inode fh offset whence : Z) : HM :=
  let ino := as_u32 inode in
  or_reply (validate_handle fh ino false) (fun _ =>
    if negb (whence =? SEEK_DATA) && negb (whence =? SEEK_HOLE) then sret (RError EINVAL)
    else some_or ENXIO (lseek_data_or_hole ino (as_u64 offset) whence) (fun r => sret (ROffset (as_i64 r)))).

Definition srv_copy_file_range (ino_in fh_in offset_in ino_out fh_out offset_out len flags : Z) : HM :=
  let src_ino := as_u32 ino_in in
  let dst_ino := as_u32 ino_out in
  if (src_ino =? dst_ino) && (offset_in =? offset_out) then sret (RError EINVAL)
  else if negb (flags =? 0) then sret (RError EOPNOTSUPP)
  else
    or_reply (validate_handle fh_in src_ino false) (fun _ =>
      or_reply (validate_handle fh_out dst_ino false) (fun _ =>
        or_reply (fuse_copy_file_range src_ino offset_in dst_ino offset_out len (as_u32 flags)) (fun copied =>
          sret (RWritten (as_u32 copied))))).

(** ** Directory listings *)

Definition dir_reply (e : Listed) : Z * Z * FileType * list Z :=
  let '(name, ino, kind, cookie) := e in (ino, cookie, fuse_file_type kind, name).

Definition srv_readdir (req_id : Z) (irq : nat -> bool) (inode fh offset : Z) : HM :=
  let parent_ino := as_u32 inode in
  or_reply (validate_handle fh parent_ino true) (fun _ =>
    let* r := registered req_id (readdir_interruptible parent_ino offset irq) in
    sret (match r with inl entries => RDirectory (dir_reply <$> entries) | inr e => RError e end)).

(** The entries whose inode can be read, with it. *)
Fixpoint with_dinodes (entries : list Listed) : FM Empty_set (list (Z * Z * list Z * Z * FileAttr * Z)) :=
  match entries with
  | [] => sret []
  | (name, ino, kind, cookie) :: entries =>
      let* r := attempt (fuse_getattr ino) in
      let* rest := with_dinodes entries in
      sret (match r with
            | inl dinode => (ino, cookie, name, TTL, dinode_attr_from dinode ino, dinode_generation dinode) :: rest
            | inr _ => rest
            end)
  end.

Definition srv_readdirplus (req_id : Z) (irq : nat -> bool) (inode fh offset : Z) : HM :=
  let parent_ino := as_u32 inode in
  or_reply (validate_handle fh parent_ino true) (fun _ =>
    let* r := registered req_id (readdir_interruptible parent_ino offset irq) in
    match r with
    | inl entries => let* full := with_dinodes entries in sret (RDirectoryPlus full)
    | inr e => sret (RError e)
    end).

(** ** Extended attributes *)

Definition srv_setxattr (inode : Z) (name value : list byte) (flags : Z) : HM :=
  or_reply (fuse_setxattr (as_u32 inode) (from_utf8_lossy name) value (as_u32 flags)) (fun _ => sret ROk).

(** A size of zero asks for the length. *)
Definition sized (data : list byte) (size : Z) : Reply :=
  if size =? 0 then RSize (as_u32 (zlen data))
  else if as_u32 (zlen data) <=? size then RData data
  else RError ERANGE.

Definition srv_getxattr (inode : Z) (name : list byte) (size : Z) : HM :=
  or_reply (fuse_getxattr (as_u32 inode) (from_utf8_lossy name)) (fun r =>
    sret (match r with Some data => sized data size | None => RError ENODATA end)).

(** The names, each with a zero byte after it. *)
Definition name_list (names : list (list Z)) : list byte := concat ((fun n => as_bytes n ++ [Byte.x00]) <$> names).

Definition srv_listxattr (inode size : Z) : HM :=
  or_reply (fuse_listxattr (as_u32 inode)) (fun names => sret (sized (name_list names) size)).

Definition srv_removexattr (inode : Z) (name : list byte) : HM :=
  or_reply (fuse_removexattr (as_u32 inode) (from_utf8_lossy name)) (fun _ => sret ROk).

(** ** Requests *)

(** The methods of the trait, with the arguments they use. *)
Inductive Request :=
| QDestroy
| QLookup (parent : Z) (name : list byte)
| QForget (inode nlookup : Z)
| QGetattr (inode : Z)
| QSetattr (now inode : Z) (mode uid gid size : option Z) (atime mtime : option TimeOrNow)
| QReadlink (inode : Z)
| QSymlink (parent : Z) (link_name target : list byte)
| QMknod (parent : Z) (name : list byte) (mode rdev : Z)
| QMkdir (parent : Z) (name : list byte) (mode : Z)
| QUnlink (parent : Z) (name : list byte)
| QRmdir (parent : Z) (name : list byte)
| QRename (parent : Z) (name : list byte) (new_parent : Z) (new_name : list byte) (flags : Z)
| QLink (inode new_parent : Z) (new_name : list byte)
| QOpen (inode : Z)
| QRead (req_id : Z) (irq : nat -> bool) (inode fh offset size : Z)
| QWrite (req_id : Z) (irq : nat -> bool) (inode fh offset : Z) (data : list byte) (write_cache : bool)
| QStatfs
| QRelease (inode fh : Z) (lock_owner : option Z) (flush : bool)
| QFsync (inode : Z) (datasync : bool)
| QSetxattr (inode : Z) (name value : list byte) (flags : Z)
| QGetxattr (inode : Z) (name : list byte) (size : Z)
| QListxattr (inode size : Z)
| QRemovexattr (inode : Z) (name : list byte)
| QFlush (inode : Z)
| QOpendir (inode : Z)
| QReaddir (req_id : Z) (irq : nat -> bool) (inode fh offset : Z)
| QReaddirplus (req_id : Z) (irq : nat -> bool) (inode fh offset : Z)
| QReleasedir (inode fh : Z)
| QFsyncdir
| QAccess (inode mask uid gid : Z)
| QCreate (parent : Z) (name : list byte) (mode : Z)
| QBmap (inode blocksize idx : Z)
| QPoll
| QFallocate (inode fh offset length mode : Z)
| QLseek (inode fh offset whence : Z)
| QCopyFileRange (ino_in fh_in offset_in ino_out fh_out offset_out len flags : Z).

(** The reply of a request; [forget] and [destroy] have none. *)
Definition serve (q : Request) : ST (FuseFs W) Empty_set (option Reply) :=
  let answer (h : HM) := let* r := h in sret (Some r) in
  let silent (h : FM Empty_set unit) := let* _ := h in sret None in
  match q with
  | QDestroy => silent srv_destroy
  | QLookup p n => answer (srv_lookup p n)
  | QForget i n => silent (srv_forget i n)
  | QGetattr i => answer (srv_getattr i)
  | QSetattr now i m u g s a t => answer (srv_setattr now i m u g s a t)
  | QReadlink i => answer (srv_readlink i)
  | QSymlink p n t => answer (srv_symlink p n t)
  | QMknod p n m d => answer (srv_mknod p n m d)
  | QMkdir p n m => answer (srv_mkdir p n m)
  | QUnlink p n => answer (srv_unlink p n)
  | QRmdir p n => answer (srv_rmdir p n)
  | QRename p n p' n' f => answer (srv_rename p n p' n' f)
  | QLink i p n => answer (srv_link i p n)
  | QOpen i => answer (srv_open i)
  | QRead r irq i h o s => answer (srv_read r irq i h o s)
  | QWrite r irq i h o d c => answer (srv_write r irq i h o d c)
  | QStatfs => answer srv_statfs
  | QRelease i h o f => answer (srv_release i h o f)
  | QFsync i d => answer (srv_fsync i d)
  | QSetxattr i n v f => answer (srv_setxattr i n v f)
  | QGetxattr i n s => answer (srv_getxattr i n s)
  | QListxattr i s => answer (srv_listxattr i s)
  | QRemovexattr i n => answer (srv_removexattr i n)
  | QFlush i => answer (srv_flush i)
  | QOpendir i => answer (srv_opendir i)
  | QReaddir r irq i h o => answer (srv_readdir r irq i h o)
  | QReaddirplus r irq i h o => answer (srv_readdirplus r irq i h o)
  | QReleasedir i h => answer (srv_releasedir i h)
  | QFsyncdir => answer srv_fsyncdir
  | QAccess i m u g => answer (srv_access i m u g)
  | QCreate p n m => answer (srv_create p n m)
  | QBmap i b x => answer (srv_bmap i b x)
  | QPoll => answer srv_poll
  | QFallocate i h o l m => answer (srv_fallocate i h o l m)
  | QLseek i h o w => answer (srv_lseek i h o w)
  | QCopyFileRange a b c d e f g h => answer (srv_copy_file_range a b c d e f g h)
  end.

(** A session: the requests in the order in which the handlers get the lock. *)
Definition serve_all (qs : list Request) (f : FuseFs W) : FuseFs W := fold_left (fun f q => (serve q f).2) qs f.
End server.
