(* ===== verification/FuseState.v ===== *)
(** * The tables of the FUSE server

    Invariants of the tables of [FuseFs] (locks, lookup counts, handles) and what
    the handlers do with them. *)

From stdpp Require Import gmap.
From Stdlib Require Import ZArith Lia.
From S2P Require Import Types Utf Storage PageCache Inode Xtree Dtree Volume VolumeData VolumeDir Xattr Interrupt FuseAbi FuseLocks Fuse FuseFiles FuseServer Prelude.

(** ** Calls that leave a part of the state alone *)

Lemma keeps_get {S E} (P : S -> Prop) : keeps P (sget (E := E)).
Proof. by intros s. Qed.
Lemma keeps_fail {S E A} (P : S -> Prop) (e : E) : keeps P (sfail (A := A) e).
Proof. by intros s. Qed.
Lemma keeps_mod {S E} (P : S -> Prop) (g : S -> S) : (forall s, P s -> P (g s)) -> keeps P (smod (E := E) g).
Proof. intros Hg s. apply Hg. Qed.
Lemma keeps_attempt {S E E' A} (P : S -> Prop) (m : ST S E A) : keeps P m -> keeps P (attempt (E' := E') m).
Proof. intros Hm s Hs. specialize (Hm s Hs). unfold attempt. by destruct (m s) as [[| |] ?]. Qed.
Lemma keeps_match_sum {S E A B C} (P : S -> Prop) (x : A + B) (k1 : A -> ST S E C) (k2 : B -> ST S E C) :
  (forall a, keeps P (k1 a)) -> (forall b, keeps P (k2 b)) -> keeps P (match x with inl a => k1 a | inr b => k2 b end).
Proof. by destruct x. Qed.
Lemma keeps_option {S E A C} (P : S -> Prop) (x : option A) (k1 : A -> ST S E C) (k2 : ST S E C) :
  (forall a, keeps P (k1 a)) -> keeps P k2 -> keeps P (match x with Some a => k1 a | None => k2 end).
Proof. by destruct x. Qed.

(** Every result of [m] satisfies [Q]. *)
Definition post {S E A} (Q : A -> Prop) (m : ST S E A) : Prop := forall s a s', m s = (Ok a, s') -> Q a.

Lemma post_bind {S E A B} (Q : B -> Prop) (m : ST S E A) (k : A -> ST S E B) : (forall a, post Q (k a)) -> post Q (sbind m k).
Proof. intros Hk s b s' (a & s1 & _ & Hr)%sbind_inv. by eapply Hk. Qed.
Lemma post_seq {S E A B} (P : A -> Prop) (Q : B -> Prop) (m : ST S E A) (k : A -> ST S E B) :
  post P m -> (forall a, P a -> post Q (k a)) -> post Q (sbind m k).
Proof. intros Hm Hk s b s' (a & s1 & Ha & Hr)%sbind_inv. by eapply Hk; [eapply Hm|]. Qed.
Lemma post_ret {S E A} (Q : A -> Prop) a : Q a -> post Q (sret (S := S) (E := E) a).
Proof. by intros HQ s a' s' [= <- _]. Qed.
Lemma post_fail {S E A} (Q : A -> Prop) e : post Q (sfail (S := S) (E := E) e).
Proof. by intros s a s'. Qed.
Lemma post_if {S E A} (Q : A -> Prop) (b : bool) (m1 m2 : ST S E A) : post Q m1 -> post Q m2 -> post Q (if b then m1 else m2).
Proof. by destruct b. Qed.
Lemma post_lift {S E A} (Q : A -> Prop) (o : outcome E A) : (forall a, o = Ok a -> Q a) -> post Q (slift (S := S) o).
Proof. intros Ho s a s' [= H _]. by apply Ho. Qed.

Create HintDb fuse.
#[export] Hint Resolve keeps_ret keeps_lift keeps_panic keeps_get keeps_fail keeps_attempt : fuse.

Section tables.
Context {LE : LittleEndian} {L : Lru PageKey CachedPage} {HO : HashOrder} {XF : XadFlags} {W : Type} {FS : Storage W}.
Abbreviation FM := (ST (FuseFs W)).

(** A call of the volume changes nothing but the volume. *)
Lemma keeps_on_volume {E A} (P : FuseFs W -> Prop) err (m : ST (Volume W) StorageError A) :
  (forall v f, P f -> P (f_with_volume v f)) -> keeps P (on_volume (E := E) err m).
Proof. intros HP f Hf. unfold on_volume. destruct (m (f_volume f)) as [r v]. by apply HP. Qed.

Lemma keeps_if_writable {E A} (P : FuseFs W -> Prop) (e : E) (m : FM E A) : keeps P m -> keeps P (if_writable e m).
Proof. intros Hm f Hf. unfold if_writable. destruct (f_writable f); [by apply Hm|done]. Qed.

(** ** Locks *)

Inductive LockCall :=
| LSetlk (ino : Z) (flock : Flock) (owner : Z)
| LSetlkw (ino : Z) (flock : Flock) (owner : Z)
| LFlock (ino operation owner : Z)
| LRelease (ino owner : Z).

Definition run_lock (c : LockCall) : FM Z unit :=
  match c with
  | LSetlk ino flock owner => fuse_setlk ino flock owner
  | LSetlkw ino flock owner => fuse_setlkw ino flock owner
  | LFlock ino operation owner => fuse_flock ino operation owner
  | LRelease ino owner => release_locks ino owner
  end.

Definition run_locks (cs : list LockCall) (f : FuseFs W) : FuseFs W := fold_left (fun f c => (run_lock c f).2) cs f.

(** The locks in the table are read or write locks on ranges. *)
Definition lock_wf (k : PosixLock) : Prop :=
  (pl_type k = F_RDLCK \/ pl_type k = F_WRLCK) /\ pl_start k <= pl_end k.

Definition lock_tables_ok (f : FuseFs W) : Prop :=
  f_writable f = true /\ locks_ok (f_locks f) /\ flock_ok (f_flock_locks f) /\ map_Forall (fun _ l => Forall lock_wf l) (f_locks f).

Lemma resolve_flock_range {E} fl size start end_ : @resolve_flock E fl size = Ok (start, end_) -> start <= end_.
Proof.
  intros Hr. apply obind_inv in Hr as (e & He & Hr). injection Hr as Hst <-.
  assert (Hm : forall z, 0 <= as_u64 z <= U64_MAX) by (intros z; unfold as_u64, U64_MAX; pose proof (Z.mod_pos_bound z (2 ^ 64)); lia).
  rewrite Hst in He. destruct (_ <=? 0).
  - injection He as <-. subst start. pose proof (Hm (l_start fl)). repeat case_match; lia.
  - unfold add_u64 in He. destruct (_ <? _); [|done]. injection He as <-. pose proof (Hm (l_len fl)). lia.
Qed.

Lemma release_wf ino owner (locks : LockTable) :
  map_Forall (fun _ l => Forall lock_wf l) locks -> map_Forall (fun _ l => Forall lock_wf l) (release_owner_locks ino owner locks).
Proof.
  intros Hl i l Hi. unfold release_owner_locks in Hi. destruct (decide (i = ino)) as [->|Hne].
  - rewrite lookup_alter_eq in Hi. destruct (locks !! ino) as [l0|] eqn:E; [|done]. injection Hi as <-.
    specialize (Hl ino l0 E). cbn in Hl. rewrite Forall_forall in *. intros k [Hk _]%list_elem_of_In%filter_In. by apply Hl, list_elem_of_In.
  - rewrite lookup_alter_ne in Hi by done. by apply (Hl i).
Qed.

Lemma place_wf ino new (locks : LockTable) :
  lock_wf new -> map_Forall (fun _ l => Forall lock_wf l) locks -> map_Forall (fun _ l => Forall lock_wf l) (place_lock ino new locks).
Proof.
  intros Hn Hl. unfold place_lock. apply map_Forall_insert_2; [|done]. apply Forall_app. split; [|by constructor].
  destruct (locks !! ino) as [l0|] eqn:E; cbn [default from_option id]; [|done]. specialize (Hl ino l0 E). cbn in Hl.
  rewrite Forall_forall in *. intros k [Hk _]%list_elem_of_In%filter_In. by apply Hl, list_elem_of_In.
Qed.

Lemma do_setlk_keeps ino fl owner :
  l_type fl = F_UNLCK \/ l_type fl = F_RDLCK \/ l_type fl = F_WRLCK -> keeps lock_tables_ok (do_setlk (FS := FS) ino fl owner).
Proof.
  intros Hty. apply keeps_bind; [by apply keeps_on_volume|]. intros inode. cbn zeta.
  intros f Hf. unfold sbind at 1, slift. destruct (resolve_flock _ _) as [[start end_]| |] eqn:Hr; [|done..].
  destruct Hf as (Hwr & Hl & Hk & Hw). destruct (Z.eqb_spec (l_type fl) F_UNLCK) as [|Hne].
  - split_and!; cbn; [done|by apply release_owner_locks_ok|done|by apply release_wf].
  - unfold sbind, sget. destruct (check_lock_conflict _ _ _ _ _ _) eqn:Hc; [done|]. split_and!; cbn; [done|by apply place_lock_ok|done|].
    apply place_wf; [|done]. split; cbn; [naive_solver|]. by apply resolve_flock_range in Hr.
Qed.

Lemma run_lock_keeps c : keeps lock_tables_ok (run_lock c).
Proof.
  destruct c as [ino fl owner|ino fl owner|ino op owner|ino owner]; cbn [run_lock].
  1,2: unfold fuse_setlk, fuse_setlkw; apply keeps_if_writable;
       destruct (Z.eqb_spec (l_type fl) F_UNLCK), (Z.eqb_spec (l_type fl) F_RDLCK), (Z.eqb_spec (l_type fl) F_WRLCK); cbn [negb andb];
       try (apply do_setlk_keeps; tauto); apply keeps_fail.
  - apply keeps_if_writable. intros f (Hwr & Hl & Hk & Hw). destruct (flock_table _ _ _ _) as [k| |] eqn:E; [|done..]. split_and!; cbn; [done|done| |done].
    by eapply flock_table_ok.
  - apply keeps_mod. intros f (Hwr & Hl & Hk & Hw). split_and!; cbn; [done|by apply release_owner_locks_ok|by apply release_flock_owner_ok|by apply release_wf].
Qed.

Lemma run_locks_ok cs : forall f, lock_tables_ok f -> lock_tables_ok (run_locks cs f).
Proof. induction cs as [|c cs IH]; intros f Hf; [done|]. cbn. by apply IH, run_lock_keeps. Qed.

Lemma new_tables_ok v : lock_tables_ok (enable_writable (fuse_new v)).
Proof. split_and!; [done|apply map_Forall_empty..]. Qed.

(** C18: whatever sequence of lock calls a writable mount has served, granted locks
    exclude each other: no byte of a file is covered by locks of two owners of
    which one is a write lock, and no file has an exclusive [flock] lock beside
    the lock of another owner; an owner has one [flock] lock per file. *)
Theorem locks_exclusive (v : Volume W) (cs : list LockCall) (ino : Z) :
  let f := run_locks cs (enable_writable (fuse_new v)) in
  exclusive (default [] (f_locks f !! ino)) /\ flock_excl (default [] (f_flock_locks f !! ino)) /\
  NoDup (fl_owner <$> default [] (f_flock_locks f !! ino)).
Proof.
  intros f. destruct (run_locks_ok cs _ (new_tables_ok v)) as (_ & Hl & Hk & _). fold f in Hl, Hk. split; [by apply exclusive_default|].
  destruct (f_flock_locks f !! ino) as [l|] eqn:E; cbn; [by apply (Hk ino)|]. split; [|by apply NoDup_nil]. by intros a b Ha%not_elem_of_nil.
Qed.

(** The two calls find the same conflict. *)
Lemma getlk_setlk f ino fl owner :
  lock_tables_ok f -> l_type fl = F_RDLCK \/ l_type fl = F_WRLCK ->
  match (fuse_getlk (FS := FS) ino fl owner f).1 with
  | Ok r => if l_type r =? F_UNLCK then (fuse_setlk ino fl owner f).1 = Ok tt else (fuse_setlk ino fl owner f).1 = Err EAGAIN
  | Err e => (fuse_setlk ino fl owner f).1 = Err e
  | Panic => (fuse_setlk ino fl owner f).1 = Panic
  end.
Proof.
  intros (Hwr & _ & _ & Hw) Hty. unfold fuse_getlk, fuse_setlk, if_writable. rewrite Hwr.
  replace (negb (l_type fl =? F_RDLCK) && negb (l_type fl =? F_WRLCK)) with false by (by destruct Hty as [-> | ->]).
  replace (negb (l_type fl =? F_UNLCK) && _ && _) with false by (by destruct Hty as [-> | ->]).
  unfold do_getlk, do_setlk, read_inode, or_errno, on_volume, sbind, slift, sget.
  destruct (vol_inode_read ino (f_volume f)) as [[inode|e|] v']; [|done..]. destruct (resolve_flock _ _) as [[start end_]|e|]; [|done..].
  replace (l_type fl =? F_UNLCK) with false by (by destruct Hty as [-> | ->]).
  cbn [f_locks f_with_volume]. destruct (check_lock_conflict _ _ _ _ _ _) as [k|] eqn:Hc; [|done].
  unfold check_lock_conflict in Hc. destruct (f_locks f !! ino) as [l|] eqn:El; [|done]. rewrite first_conflict_find in Hc.
  apply find_some in Hc as [Hk%list_elem_of_In _]. specialize (Hw ino l El). cbn in Hw. rewrite Forall_forall in Hw. destruct (Hw k Hk) as [Hkt Hkr].
  destruct (pl_end k =? U64_MAX); [|rewrite sub_u64_ok by done]; cbn; by destruct Hkt as [-> | ->].
Qed.

(** C19: asking for a lock tells what setting it would do: after any sequence of
    lock calls, [getlk] answers "unlocked" exactly when [setlk] with the same
    arguments would be granted, and reports a lock exactly when it would return
    [EAGAIN]; when it fails, [setlk] fails with the same error. *)
Theorem getlk_predicts_setlk (v : Volume W) (cs : list LockCall) (ino : Z) (fl : Flock) (owner : Z)
  (Hty : l_type fl = F_RDLCK \/ l_type fl = F_WRLCK) :
  let f := run_locks cs (enable_writable (fuse_new v)) in
  match (fuse_getlk (FS := FS) ino fl owner f).1 with
  | Ok r => if l_type r =? F_UNLCK then (fuse_setlk ino fl owner f).1 = Ok tt else (fuse_setlk ino fl owner f).1 = Err EAGAIN
  | Err e => (fuse_setlk ino fl owner f).1 = Err e
  | Panic => (fuse_setlk ino fl owner f).1 = Panic
  end.
Proof.
  intros f. apply getlk_setlk; [apply run_locks_ok, new_tables_ok|done].
Qed.

(** What a successful [setlk] did: the resolved range and the table. *)
Lemma setlk_inv f ino fl owner f' :
  fuse_setlk (FS := FS) ino fl owner f = (Ok tt, f') -> exists size start end_,
    @resolve_flock Z fl size = Ok (start, end_) /\
    if l_type fl =? F_UNLCK then f_locks f' = release_owner_locks ino owner (f_locks f)
    else check_lock_conflict (f_locks f) ino start end_ (l_type fl) owner = None /\
         f_locks f' = place_lock ino (mkPosix (l_type fl) start end_ owner) (f_locks f).
Proof.
  unfold fuse_setlk, if_writable. destruct (f_writable f); [|done]. destruct (negb _ && _ && _); [done|].
  intros (inode & f1 & Hi & H)%sbind_inv. apply sbind_inv in H as ([start end_] & f2 & Hr & H).
  unfold slift in Hr. injection Hr as Hr <-.
  assert (Hl : f_locks f1 = f_locks f).
  { unfold read_inode, or_errno, on_volume in Hi. destruct (vol_inode_read _ _) as [[] ?]; by simplify_eq. }
  exists (dinode_size_val (in_dinode inode)), start, end_. split; [done|]. destruct (l_type fl =? F_UNLCK).
  - injection H as <-. cbn. by rewrite Hl.
  - unfold sbind, sget in H. rewrite Hl in H. destruct (check_lock_conflict _ _ _ _ _ _) eqn:Hc; [done|]. injection H as <-. cbn. by rewrite Hl.
Qed.

(** C20: a granted lock call changes only the locks of the caller on that file:
    every other owner and file keeps its locks; a lock request gives the caller
    exactly the wanted type on every byte of the range; an unlock request leaves
    it without any lock on the file, whatever range it named. *)
Theorem setlk_effect f ino fl owner f' (H : fuse_setlk (FS := FS) ino fl owner f = (Ok tt, f')) :
  let l := default [] (f_locks f !! ino) in
  let l' := default [] (f_locks f' !! ino) in
  (forall i, i <> ino -> f_locks f' !! i = f_locks f !! i) /\
  (forall o b t, o <> owner -> holds l' o b t <-> holds l o b t) /\
  if l_type fl =? F_UNLCK then forall b t, ~ holds l' owner b t
  else exists size start end_, @resolve_flock Z fl size = Ok (start, end_) /\
         forall b t, start <= b < end_ -> holds l' owner b t <-> t = l_type fl.
Proof.
  intros l l'. destruct (setlk_inv f ino fl owner f' H) as (size & start & end_ & Hr & Ht). destruct (l_type fl =? F_UNLCK).
  - assert (Hl' : l' = List.filter (fun k => negb (pl_owner k =? owner)) l).
    { unfold l', l. rewrite Ht. unfold release_owner_locks. rewrite lookup_alter_eq. by destruct (f_locks f !! ino). }
    split_and!.
    + intros i Hi. rewrite Ht. unfold release_owner_locks. by rewrite lookup_alter_ne.
    + intros o b t Ho. rewrite Hl'. apply holds_filter_other. intros k <-. by apply negb_true_iff, Z.eqb_neq.
    + rewrite Hl'. intros b t (k & [_ Hk]%list_elem_of_In%filter_In & Ho & _). by rewrite Ho, Z.eqb_refl in Hk.
  - destruct Ht as [_ Ht]. pose proof (fun o b t => place_lock_holds ino (mkPosix (l_type fl) start end_ owner) (f_locks f) o b t) as Hh.
    cbn zeta in Hh. rewrite <- Ht in Hh. fold l l' in Hh. cbn [pl_owner pl_start pl_end pl_type] in Hh. split_and!.
    + intros i Hi. rewrite Ht. by apply place_lock_other.
    + intros o b t. apply Hh.
    + exists size, start, end_. split; [done|]. intros b t. by apply (Hh owner b t).
Qed.

(** Locking a part of a range that is already locked gives up the rest: when
    the caller's only lock on the file overlaps the new range, afterwards the
    caller holds the new range and nothing else, although POSIX keeps the parts
    outside of it locked. *)
Theorem relock_drops_rest f ino fl owner f' k (H : fuse_setlk (FS := FS) ino fl owner f = (Ok tt, f'))
  (Hty : l_type fl <> F_UNLCK)
  (Hone : forall k', k' ∈ default [] (f_locks f !! ino) -> pl_owner k' = owner -> k' = k)
  (Hov : forall size start end_, @resolve_flock Z fl size = Ok (start, end_) -> pl_start k < end_ /\ start < pl_end k) :
  exists size start end_, @resolve_flock Z fl size = Ok (start, end_) /\
    forall b t, holds (default [] (f_locks f' !! ino)) owner b t <-> start <= b < end_ /\ t = l_type fl.
Proof.
  destruct (setlk_inv f ino fl owner f' H) as (size & start & end_ & Hr & Ht). apply Z.eqb_neq in Hty. rewrite Hty in Ht. destruct Ht as [_ Ht].
  exists size, start, end_. split; [done|]. intros b t. rewrite Ht. unfold place_lock. rewrite lookup_insert_eq. cbn [default from_option id].
  rewrite holds_app, holds_one. cbn [pl_owner pl_start pl_end pl_type]. split; [|naive_solver]. intros [(k' & [Hk' Hf]%list_elem_of_In%filter_In & Ho & _)|Hx]; [exfalso|naive_solver].
  apply list_elem_of_In in Hk'. specialize (Hone k' Hk' Ho). subst k'. destruct (Hov size start end_ Hr) as [H1 H2]. rewrite Ho, Z.eqb_refl in Hf. cbn in Hf.
  destruct (Z.leb_spec (pl_end k) start); [lia|]. cbn in Hf. apply Z.leb_le in Hf. lia.
Qed.

(** ** Lookup counts *)

(** The calls that count references: a reference is taken by [add_node_state],
    which [lookup], [create], [mkdir], [mknod], [symlink] and [readdirplus] call. *)
Inductive NodeCall := NLookup (ino : Z) | NForget (ino nlookup : Z) | NBatchForget (entries : list (Z * Z)).

Definition run_node (c : NodeCall) : FM Empty_set unit :=
  match c with NLookup ino => add_node_state ino | NForget ino n => fuse_forget ino n | NBatchForget entries => batch_forget entries end.
Definition run_nodes (cs : list NodeCall) : FM Empty_set unit := sfor cs run_node.

(** The references the kernel holds: one per lookup, less those it forgot. *)
Definition refs_step (ino : Z) (c : Z) (call : NodeCall) : Z :=
  match call with
  | NLookup i => if i =? ino then c + 1 else c
  | NForget i n => if i =? ino then Z.max 0 (c - n) else c
  | NBatchForget entries => fold_left (fun c e => if e.1 =? ino then Z.max 0 (c - e.2) else c) entries c
  end.

(** The numbers to forget are unsigned. *)
Definition call_ok (call : NodeCall) : Prop :=
  match call with NLookup _ => True | NForget _ k => 0 <= k | NBatchForget entries => Forall (fun e => 0 <= e.2) entries end.
Definition refs (ino : Z) (cs : list NodeCall) : Z := fold_left (refs_step ino) cs 0.

(** The table holds the counts that are not zero. *)
Definition counts (f : FuseFs W) (c : Z -> Z) : Prop :=
  forall ino, 0 <= c ino /\ f_node_states f !! ino = if c ino =? 0 then None else Some (mkNode (c ino)).

Lemma forget_counts i k c f n :
  counts f c -> (forall ino, c ino <= n) -> 0 <= k ->
  exists f', fuse_forget (E := Empty_set) i k f = (Ok tt, f') /\ counts f' (fun ino => refs_step ino (c ino) (NForget i k)) /\ (forall ino, refs_step ino (c ino) (NForget i k) <= n + 1).
Proof.
  intros Hc Hb Hk. cbn [refs_step].
  unfold fuse_forget, sbind, decrement_node_state. destruct (Hc i) as [H0 Hi]. rewrite Hi.
  assert (Hb' : forall ino, (if i =? ino then Z.max 0 (c ino - k) else c ino) <= n + 1).
  { intros ino. pose proof (Hb ino). destruct (Hc ino) as [Hp _]. destruct (i =? ino); lia. }
  destruct (Z.eqb_spec (c i) 0) as [Hz|Hz].
  - eexists. split; [done|]. split; [|done]. intros ino. destruct (Hc ino) as [Hp Hl]. destruct (Z.eqb_spec i ino) as [<-|Hne]; [|done].
    rewrite Hz. replace (Z.max 0 (0 - k)) with 0 by lia. split; [done|]. rewrite Hl. by destruct (Z.eqb_spec (c i) 0).
  - unfold node_is_zero, node_decrement, saturating_sub. cbn [lookup_count]. destruct (Z.eqb_spec (Z.max 0 (c i - k)) 0) as [Hd|Hd].
    + eexists. split; [done|]. split; [|done]. intros ino. cbn. destruct (Hc ino) as [Hp Hl]. destruct (Z.eqb_spec i ino) as [<-|Hne].
      * rewrite lookup_delete_eq, Hd. by split.
      * by rewrite lookup_delete_ne, lookup_insert_ne.
    + eexists. split; [done|]. split; [|done]. intros ino. cbn. destruct (Hc ino) as [Hp Hl]. destruct (Z.eqb_spec i ino) as [<-|Hne].
      * rewrite lookup_insert_eq. apply Z.eqb_neq in Hd. rewrite Hd. split; [lia|done].
      * by rewrite lookup_insert_ne.
Qed.

Lemma run_node_counts call c f n :
  counts f c -> (forall ino, c ino <= n) -> n + 1 < 2 ^ 64 -> call_ok call ->
  exists f', run_node call f = (Ok tt, f') /\ counts f' (fun ino => refs_step ino (c ino) call) /\ (forall ino, refs_step ino (c ino) call <= n + 1).
Proof.
  intros Hc Hb Hn Hk. destruct call as [i|i k|entries]; cbn [run_node refs_step].
  - unfold add_node_state. destruct (Hc i) as [H0 Hi]. rewrite Hi. destruct (Z.eqb_spec (c i) 0) as [Hz|Hz].
    + eexists. split; [done|]. split; [|intros ino; pose proof (Hb ino); destruct (i =? ino); lia].
      intros ino. cbn. destruct (Hc ino) as [Hp Hl]. destruct (Z.eqb_spec i ino) as [<-|Hne].
      * rewrite lookup_insert_eq, Hz. by split.
      * by rewrite lookup_insert_ne.
    + unfold node_increment. cbn [lookup_count]. rewrite add_u64_ok by (specialize (Hb i); lia). cbn [obind]. eexists. split; [done|].
      split; [|intros ino; pose proof (Hb ino); destruct (i =? ino); lia]. intros ino. cbn. destruct (Hc ino) as [Hp Hl]. destruct (Z.eqb_spec i ino) as [<-|Hne].
      * rewrite lookup_insert_eq. destruct (Z.eqb_spec (c i + 1) 0); [lia|]. split; [lia|done].
      * by rewrite lookup_insert_ne.
  - by apply forget_counts.
  - revert c f Hc Hb. cbn [call_ok] in Hk. unfold batch_forget. induction Hk as [|[i k] entries Hk Hks IH]; intros c f Hc Hb; cbn [sfor fold_left].
    { exists f. split_and!; [done|done|]. intros ino. pose proof (Hb ino). lia. }
    destruct (forget_counts i k c f n Hc Hb Hk) as (f1 & Hr & Hc1 & Hb1). cbn [fst snd] in *. rewrite (sbind_ok _ _ _ _ _ Hr). apply IH; [done|].
    intros ino. pose proof (Hb ino). destruct (Hc ino) as [Hp _]. cbn [refs_step]. destruct (i =? ino); lia.
Qed.

Lemma run_nodes_counts cs : forall c f n,
  counts f c -> (forall ino, c ino <= n) -> n + zlen cs < 2 ^ 64 -> Forall call_ok cs ->
  exists f', run_nodes cs f = (Ok tt, f') /\ counts f' (fun ino => fold_left (refs_step ino) cs (c ino)).
Proof.
  induction cs as [|call cs IH]; intros c f n Hc Hb Hn Hk; [by exists f|]. apply Forall_cons in Hk as [Hk1 Hk]. rewrite zlen_cons in Hn.
  pose proof (zlen_nonneg cs). destruct (run_node_counts call c f n Hc Hb ltac:(lia) Hk1) as (f1 & Hr & Hc1 & Hb1).
  destruct (IH _ f1 (n + 1) Hc1 Hb1 ltac:(lia) Hk) as (f' & Hr' & Hc'). exists f'. split; [|done].
  cbn [run_nodes sfor]. unfold run_nodes in Hr'. by rewrite (sbind_ok _ _ _ _ _ Hr).
Qed.

(** C21: the lookup counts are those of the kernel: after any sequence of fewer
    than 2^64 references, forgets and batches of forgets on a fresh server, every
    call has succeeded, the count of a node is the number of its references less
    what was forgotten (never below zero), and exactly the nodes with a count are in the table. *)
Theorem lookup_counts_refine (v : Volume W) (cs : list NodeCall)
  (Hn : zlen cs < 2 ^ 64) (Hk : Forall call_ok cs) :
  exists f, run_nodes cs (fuse_new v) = (Ok tt, f) /\
    forall ino, fuse_lookup_count ino f = refs ino cs /\ (f_node_states f !! ino = None <-> refs ino cs = 0).
Proof.
  destruct (run_nodes_counts cs (fun _ => 0) (fuse_new v) 0) as (f & Hr & Hc); [by intros ino|done|done|done|].
  exists f. split; [done|]. intros ino. destruct (Hc ino) as [Hp Hl]. fold (refs ino cs) in *. unfold fuse_lookup_count. rewrite Hl.
  destruct (Z.eqb_spec (refs ino cs) 0); split; cbn; naive_solver.
Qed.
End tables.
