(* ===== verification/FuseSession.v ===== *)
(** * Sessions of the FUSE server

    What holds of every request, by going through the handlers: handles are never
    issued twice, on a mount that is not writable every request but the releases
    only reads the device and the modifying ones are refused, and the check
    of a handle refuses the handles it was issued for. *)

From stdpp Require Import gmap.
From Stdlib Require Import ZArith Lia.
From S2P Require Import Types Utf Storage PageCache Inode Xtree Dtree Volume VolumeData VolumeDir Xattr Interrupt FuseAbi FuseLocks Fuse FuseFiles FuseServer FuseState Prelude.

Section session.
Context {LE : LittleEndian} {L : Lru PageKey CachedPage} {HO : HashOrder} {XF : XadFlags} {W : Type} {FS : Storage W}.
Abbreviation FM := (ST (FuseFs W)).
Abbreviation HM := (ST (FuseFs W) Empty_set Reply).

(** ** Requests and the table of handles *)

(** A property of the table of handles and the next identifier. *)
Definition on_handles (P : gmap Z OpenHandle -> Z -> Prop) (f : FuseFs W) : Prop := P (f_handles f) (f_next_fh f).

Lemma keeps_or_reply {A} P (m : FM Z A) (k : A -> HM) : keeps P m -> (forall a, keeps P (k a)) -> keeps P (or_reply m k).
Proof. intros Hm Hk. apply keeps_bind; [by apply keeps_attempt|]. intros [a|e]; [apply Hk|apply keeps_ret]. Qed.
Lemma keeps_some_or {A} P e (m : FM unit A) (k : A -> HM) : keeps P m -> (forall a, keeps P (k a)) -> keeps P (some_or e m k).
Proof. intros Hm Hk. apply keeps_bind; [by apply keeps_attempt|]. intros [a|[]]; [apply Hk|apply keeps_ret]. Qed.

Section handles.
Context (P : gmap Z OpenHandle -> Z -> Prop).

Lemma hk_volume {E A} err (m : ST (Volume W) StorageError A) : keeps (on_handles P) (on_volume (E := E) err m).
Proof. by apply keeps_on_volume. Qed.
Lemma hk_or_errno {E A} e (m : ST (Volume W) StorageError A) : keeps (on_handles P) (or_errno (E := E) e m).
Proof. apply hk_volume. Qed.
Lemma hk_lift_or {E A} e (m : result A) : keeps (on_handles P) (lift_or (W := W) (E := E) e m).
Proof. apply hk_volume. Qed.
Lemma hk_read_inode {E} e ino : keeps (on_handles P) (read_inode (FS := FS) (E := E) e ino).
Proof. apply hk_volume. Qed.
Lemma hk_add_node {E} ino : keeps (on_handles P) (add_node_state (W := W) (E := E) ino).
Proof. intros f Hf. unfold add_node_state. destruct (_ !! _) as [s|]; [|done]. unfold node_increment, add_u64. by destruct (_ <? _). Qed.
Lemma hk_decrement {E} ino n : keeps (on_handles P) (decrement_node_state (W := W) (E := E) ino n).
Proof. intros f Hf. unfold decrement_node_state. destruct (_ !! _) as [s|]; [|done]. by destruct (node_is_zero _). Qed.
Lemma hk_register {E} i : keeps (on_handles P) (register_request_at (W := W) (E := E) i).
Proof. by intros f Hf. Qed.
Lemma hk_validate fh ino b : keeps (on_handles P) (validate_handle (W := W) fh ino b).
Proof. by intros f Hf. Qed.
Lemma hk_statfs {E} : keeps (on_handles P) (fuse_statfs (W := W) (E := E)).
Proof. intros f Hf. unfold fuse_statfs. by destruct (vol_total_inodes _). Qed.
End handles.

#[local] Hint Resolve hk_volume hk_or_errno hk_lift_or hk_read_inode hk_add_node hk_decrement hk_register hk_validate hk_statfs : fuse.

(** Handlers are built from these pieces. *)
Ltac walk :=
  repeat first
    [ progress cbn zeta
    | solve [eauto with fuse nocore]
    | apply keeps_mod; intros ? ?; assumption
    | apply keeps_bind; [|intros ?]
    | apply keeps_or_reply; [|intros ?]
    | apply keeps_some_or; [|intros ?]
    | apply keeps_if_writable
    | apply keeps_attempt
    | apply keeps_if
    | match goal with
      | |- keeps _ (let '(_, _) := ?x in _) => destruct x
      | |- keeps _ (match ?x with _ => _ end) => destruct x
      end ].

Lemma list_interruptible_handles P irq entries : forall polls s i, keeps (on_handles P) (list_interruptible (FS := FS) irq polls s i entries).
Proof. induction entries as [|e entries IH]; intros polls s i; cbn [list_interruptible]; unfold infer_file_type; walk. Qed.
#[local] Hint Resolve list_interruptible_handles : fuse.

Lemma with_dinodes_handles P entries : keeps (on_handles P) (with_dinodes (FS := FS) entries).
Proof. induction entries as [|[[[? ?] ?] ?] entries IH]; cbn [with_dinodes]; unfold fuse_getattr; walk. Qed.
#[local] Hint Resolve with_dinodes_handles : fuse.

Lemma copy_loop_handles P fuel : forall b si cs di cd len total, keeps (on_handles P) (copy_loop (FS := FS) fuel b si cs di cd len total).
Proof.
  induction fuel as [|fuel IH]; intros b si cs di cd len total; cbn [copy_loop]; [apply keeps_panic|].
  unfold copy_chunk, copy_through, fuse_read, fuse_write. walk.
Qed.
#[local] Hint Resolve copy_loop_handles : fuse.

(** Only [open], [opendir], [create] and the releases change the table. *)
Definition touches_handles (q : Request) : bool :=
  match q with QOpen _ | QOpendir _ | QCreate _ _ _ | QRelease _ _ _ _ | QReleasedir _ _ => true | _ => false end.

Lemma serve_handles P q : touches_handles q = false -> keeps (on_handles P) (serve q).
Proof.
  destruct q; intros Hq; try discriminate Hq; cbn [serve];
  unfold srv_destroy, srv_lookup, srv_forget, srv_getattr, srv_setattr, srv_readlink, srv_symlink, srv_mknod, srv_mkdir, srv_unlink, srv_rmdir,
    srv_rename, srv_link, srv_read, srv_write, srv_statfs, srv_fsync, srv_setxattr, srv_getxattr, srv_listxattr, srv_removexattr, srv_flush,
    srv_readdir, srv_readdirplus, srv_fsyncdir, srv_access, srv_bmap, srv_poll, srv_fallocate, srv_lseek, srv_copy_file_range,
    registered, deregister_request, reply_entry, reply_attr, fuse_lookup, fuse_forget, fuse_getattr, fuse_setattr, fuse_readlink, fuse_symlink, fuse_mknod,
    fuse_mkdir, fuse_unlink, fuse_rmdir, fuse_rename, fuse_link, read_interruptible, write_interruptible, fuse_flush, sync_fs, fuse_setxattr,
    fuse_getxattr, fuse_listxattr, fuse_removexattr, readdir_interruptible, fuse_access, fuse_bmap, fuse_fallocate, lseek_data_or_hole,
    fuse_copy_file_range, fuse_truncate, new_node; walk.
Qed.

(** ** Handles are not reused *)

Definition issued (r : option Reply) : option Z :=
  match r with Some (ROpened fh) | Some (RCreated _ _ _ fh) => Some fh | _ => None end.

(** The handle the reply to a request carries. *)
Definition issued_by (q : Request) (f : FuseFs W) : option Z :=
  match (serve q f).1 with Ok r => issued r | _ => None end.

Lemma post_or_reply {A} (Q : Reply -> Prop) (m : FM Z A) k : (forall e, Q (RError e)) -> (forall a, post Q (k a)) -> post Q (or_reply m k).
Proof. intros He Hk. apply post_bind. intros [a|e]; [apply Hk|by apply post_ret]. Qed.
Lemma post_some_or {A} (Q : Reply -> Prop) e (m : FM unit A) k : (forall e, Q (RError e)) -> (forall a, post Q (k a)) -> post Q (some_or e m k).
Proof. intros He Hk. apply post_bind. intros [a|[]]; [apply Hk|by apply post_ret]. Qed.

Ltac walk_post :=
  repeat first
    [ progress cbn zeta
    | done
    | apply post_ret; repeat case_match; reflexivity
    | apply post_or_reply; [intros ?; reflexivity|intros ?]
    | apply post_some_or; [intros ?; reflexivity|intros ?]
    | apply post_bind; intros ?
    | match goal with |- post _ (match ?x with _ => _ end) => destruct x end ].

(** A reply without a handle. *)
Definition plain (r : Reply) : Prop := issued (Some r) = None.

Lemma serve_plain q : (match q with QOpen _ | QOpendir _ | QCreate _ _ _ => false | _ => true end) = true ->
  post (fun r => issued r = None) (serve q).
Proof.
  assert (Ha : forall h : HM, post plain h -> post (fun r => issued r = None) (let* r := h in sret (Some r))).
  { intros h Hh f r f' (x & f1 & Hx & [= <- _])%sbind_inv. by eapply Hh. }
  destruct q; intros Hq; try discriminate Hq; cbn [serve]; try (apply post_bind; intros ?; by apply post_ret); apply Ha;
  unfold plain, srv_lookup, srv_getattr, srv_setattr, srv_readlink, srv_symlink, srv_mknod, srv_mkdir, srv_unlink, srv_rmdir, srv_rename, srv_link, srv_read,
    srv_write, srv_statfs, srv_release, finish_release, srv_releasedir, srv_fsync, srv_setxattr, srv_getxattr, srv_listxattr, srv_removexattr, srv_flush,
    srv_readdir, srv_readdirplus, srv_fsyncdir, srv_access, srv_bmap, srv_poll, srv_fallocate, srv_lseek, srv_copy_file_range, reply_entry, reply_attr, sized; walk_post.
Qed.

(** The identifiers grow. *)
Definition next_from (n : Z) : FuseFs W -> Prop := on_handles (fun _ next => n <= next).

Lemma open_handle_run {E} ino is_dir f :
  match open_handle (E := E) (W := W) ino is_dir f with
  | (Ok fh, f') => fh = f_next_fh f /\ f' = f_with_handles (<[fh := mkHandle fh ino is_dir]> (f_handles f)) (fh + 1) f
  | (_, f') => f' = f
  end.
Proof. unfold open_handle, add_u64. by destruct (_ <? _). Qed.

Lemma next_open_handle {E} n ino is_dir : keeps (next_from n) (open_handle (E := E) (W := W) ino is_dir).
Proof.
  intros f Hf. pose proof (open_handle_run (E := E) ino is_dir f) as H. destruct (open_handle _ _ _) as [[fh|e|] f']; [|by subst..].
  destruct H as [-> ->]. unfold next_from, on_handles in *. cbn. lia.
Qed.
Lemma next_release {E} n fh : keeps (next_from n) (release_handle (E := E) (W := W) fh).
Proof. by intros f Hf. Qed.
Lemma next_release_locks {E} n ino o : keeps (next_from n) (release_locks (E := E) (W := W) ino o).
Proof. by intros f Hf. Qed.
#[local] Hint Resolve next_open_handle next_release next_release_locks : fuse.

Lemma serve_next n q : keeps (next_from n) (serve q).
Proof.
  destruct (touches_handles q) eqn:Hq; [|by apply serve_handles]. unfold next_from in *.
  destruct q; try discriminate Hq; cbn [serve]; unfold srv_open, srv_opendir, srv_create, srv_release, finish_release, srv_releasedir, fuse_open, fuse_create, fuse_getattr,
    fuse_flush, fuse_release; walk; try apply next_open_handle; try apply next_release; try apply next_release_locks.
Qed.

Lemma serve_all_next n qs : forall f, next_from n f -> next_from n (serve_all qs f).
Proof. induction qs as [|q qs IH]; intros f Hf; [done|]. cbn. by apply IH, serve_next. Qed.

(** A handle that is issued is the next identifier, which then grows. *)
Definition issues (n : Z) (m : HM) : Prop := forall f r f' fh,
  f_next_fh f = n -> m f = (Ok r, f') -> issued (Some r) = Some fh -> fh = n /\ f_next_fh f' = n + 1.

Lemma issues_bind {A} n (m : FM Empty_set A) (k : A -> HM) :
  keeps (on_handles (fun _ next => next = n)) m -> (forall a, issues n (k a)) -> issues n (sbind m k).
Proof. intros Hm Hk f r f' fh Hf (a & f1 & Ha & Hr)%sbind_inv. eapply Hk; [|exact Hr]. specialize (Hm f Hf). by rewrite Ha in Hm. Qed.
Lemma issues_error n e : issues n (sret (RError e)).
Proof. by intros f r f' fh _ [= <- _]. Qed.
Lemma issues_or_reply {A} n (m : FM Z A) k : keeps (on_handles (fun _ next => next = n)) m -> (forall a, issues n (k a)) -> issues n (or_reply m k).
Proof. intros Hm Hk. apply issues_bind; [by apply keeps_attempt|]. intros [a|e]; [apply Hk|apply issues_error]. Qed.
Lemma issues_some_or {A} n e (m : FM unit A) k : keeps (on_handles (fun _ next => next = n)) m -> (forall a, issues n (k a)) -> issues n (some_or e m k).
Proof. intros Hm Hk. apply issues_bind; [by apply keeps_attempt|]. intros [a|[]]; [apply Hk|apply issues_error]. Qed.
Lemma issues_open n ino is_dir (k : Z -> Reply) :
  (forall fh, issued (Some (k fh)) = Some fh) -> issues n (let* fh := open_handle ino is_dir in sret (k fh)).
Proof.
  intros Hk f r f' fh Hf (fh' & f2 & Ho & [= <- <-])%sbind_inv Hr. rewrite Hk in Hr. injection Hr as ->.
  pose proof (open_handle_run (E := Empty_set) ino is_dir f) as H. rewrite Ho in H. by destruct H as [-> ->]; subst n.
Qed.

Lemma issued_next q f fh : issued_by q f = Some fh -> fh = f_next_fh f /\ f_next_fh (serve q f).2 = fh + 1.
Proof.
  unfold issued_by. intros H.
  assert (Hopen : forall h : HM, issues (f_next_fh f) h -> serve q = (let* r := h in sret (Some r)) -> fh = f_next_fh f /\ f_next_fh (serve q f).2 = fh + 1).
  { intros h Hh Hs. rewrite Hs in *. unfold sbind in *. destruct (h f) as [[r|e|] f'] eqn:E; try discriminate H. cbn in H.
    destruct (Hh f r f' fh eq_refl E H) as [-> Hn]. cbn. by rewrite Hn. }
  destruct (match q with QOpen _ | QOpendir _ | QCreate _ _ _ => false | _ => true end) eqn:Hq.
  - destruct (serve q f) as [[r|e|] f'] eqn:E; try discriminate H. cbn in H. by rewrite (serve_plain q Hq f r f' E) in H.
  - destruct q; try discriminate Hq; (eapply Hopen; [|reflexivity]).
    + apply issues_or_reply; [unfold fuse_open; walk|]. intros _. by apply issues_open.
    + apply issues_or_reply; [unfold fuse_open; walk|]. intros _. by apply issues_open.
    + apply issues_some_or; [unfold fuse_create; walk|]. intros ino. apply issues_some_or; [unfold fuse_getattr; walk|]. intros d.
      apply issues_bind; [unfold fuse_open; walk|]. intros _. by apply issues_open.
Qed.

(** C22: a handle is issued once: in any session, whatever requests come between
    (releases included) and however they end, a later [open], [opendir] or
    [create] answers with a larger handle. *)
Theorem handles_never_reused (v : Volume W) (before between : list Request) (q1 q2 : Request) (fh1 fh2 : Z) :
  let f1 := serve_all before (fuse_new v) in
  let f2 := serve_all between (serve q1 f1).2 in
  issued_by q1 f1 = Some fh1 -> issued_by q2 f2 = Some fh2 -> fh1 < fh2.
Proof.
  intros f1 f2 [-> Hn]%issued_next [-> _]%issued_next.
  assert (Hf : next_from (f_next_fh f1 + 1) f2); [|unfold next_from, on_handles in Hf; lia].
  apply serve_all_next. unfold next_from, on_handles. lia.
Qed.

(** ** The check of a handle *)

(** A file handle is refused where a file is meant, a directory handle where a
    directory is meant. *)
Lemma validate_file f fh ino : f_handles f !! fh = Some (mkHandle fh ino false) -> validate_handle (W := W) fh ino false f = (Err ENOTDIR, f).
Proof. intros H. unfold validate_handle, validate_handle_static. rewrite H. cbn. by rewrite Z.eqb_refl. Qed.
Lemma validate_dir f fh ino : f_handles f !! fh = Some (mkHandle fh ino true) -> validate_handle (W := W) fh ino true f = (Err EISDIR, f).
Proof. intros H. unfold validate_handle, validate_handle_static. rewrite H. cbn. by rewrite Z.eqb_refl. Qed.

Lemma open_registers q inode (is_dir : bool) f fh f' :
  q = (if is_dir then QOpendir inode else QOpen inode) -> serve q f = (Ok (Some (ROpened fh)), f') ->
  f_handles f' !! fh = Some (mkHandle fh (as_u32 inode) is_dir).
Proof.
  intros -> H. assert (Hs : exists x f1, attempt (E' := Empty_set) (fuse_open (as_u32 inode)) f = (Ok x, f1) /\
    (match x with inl _ => let* fh := open_handle (as_u32 inode) is_dir in sret (ROpened fh) | inr e => sret (RError e) end : HM) f1 = (Ok (ROpened fh), f')).
  { destruct is_dir; cbn [serve] in H; apply sbind_inv in H as (r & f2 & Hr & [= -> ->]);
    apply sbind_inv in Hr as (x & f1 & Hx & Hr); exists x, f1; destruct x; done. }
  destruct Hs as ([[]|e] & f1 & _ & Hs); [|by injection Hs]. apply sbind_inv in Hs as (fh' & f2 & Ho & [= -> ->]).
  pose proof (open_handle_run (E := Empty_set) (as_u32 inode) is_dir f1) as H1. rewrite Ho in H1. destruct H1 as [-> ->]. cbn. by rewrite lookup_insert_eq.
Qed.

(** C39: every data request on a properly opened file is refused: as long as the
    handle that [open] returned is in the table, reading, writing, seeking,
    allocating and copying with it answer [ENOTDIR] and leave the volume alone,
    and listing a directory with the handle that [opendir] returned answers
    [EISDIR]; the handlers pass the flag of [validate_handle_static] the wrong
    way round. *)
Theorem opened_handles_refused (f f1 f2 : FuseFs W) (inode fh : Z) (is_dir : bool)
  (Ho : serve (if is_dir then QOpendir inode else QOpen inode) f = (Ok (Some (ROpened fh)), f1))
  (Hk : f_handles f2 !! fh = f_handles f1 !! fh) :
  if is_dir then
    (forall req irq offset, serve (QReaddir req irq inode fh offset) f2 = (Ok (Some (RError EISDIR)), f2)) /\
    (forall req irq offset, serve (QReaddirplus req irq inode fh offset) f2 = (Ok (Some (RError EISDIR)), f2))
  else
    (forall req irq offset size, serve (QRead req irq inode fh offset size) f2 = (Ok (Some (RError ENOTDIR)), f2)) /\
    (forall req irq offset data cache, serve (QWrite req irq inode fh offset data cache) f2 = (Ok (Some (RError ENOTDIR)), f2)) /\
    (forall offset whence, serve (QLseek inode fh offset whence) f2 = (Ok (Some (RError ENOTDIR)), f2)) /\
    (forall offset len mode, serve (QFallocate inode fh offset len mode) f2 = (Ok (Some (RError ENOTDIR)), f2)) /\
    (forall offset out fh' offset' len, (as_u32 inode =? as_u32 out) && (offset =? offset') = false ->
       serve (QCopyFileRange inode fh offset out fh' offset' len 0) f2 = (Ok (Some (RError ENOTDIR)), f2)).
Proof.
  apply (open_registers _ inode is_dir) in Ho; [|done]. rewrite Ho in Hk. destruct is_dir.
  - split; intros; cbn [serve]; unfold srv_readdir, srv_readdirplus, or_reply, sbind, attempt; by rewrite (validate_dir f2 fh _ Hk).
  - split_and!; intros; cbn [serve]; unfold srv_read, srv_write, srv_lseek, srv_fallocate, srv_copy_file_range, or_reply, sbind, attempt;
      rewrite ?H; cbn [negb Z.eqb]; by rewrite (validate_file f2 fh _ Hk).
Qed.

(** ** Mounts that are not writable *)

Definition modifying (q : Request) : bool :=
  match q with
  | QSetattr _ _ _ _ _ _ _ _ | QSymlink _ _ _ | QMknod _ _ _ _ | QMkdir _ _ _ | QUnlink _ _ | QRmdir _ _ | QRename _ _ _ _ _ | QLink _ _ _
  | QWrite _ _ _ _ _ _ _ | QFsync _ _ | QSetxattr _ _ _ _ | QRemovexattr _ _ | QFlush _ | QFsyncdir | QCreate _ _ _ | QFallocate _ _ _ _ _
  | QCopyFileRange _ _ _ _ _ _ _ _ => true
  | _ => false
  end.

(** [m] answers an error and leaves the volume and the mode alone, when the mount is not writable. *)
Definition refuses (m : HM) : Prop := forall f, f_writable f = false ->
  f_volume (m f).2 = f_volume f /\ f_writable (m f).2 = false /\ forall r, (m f).1 = Ok r -> exists e, r = RError e.

Lemma refuses_or_reply {A} e (m : FM Z A) k : refuses (or_reply (if_writable e m) k).
Proof. intros f Hf. unfold or_reply, attempt, sbind, if_writable. rewrite Hf. cbn. naive_solver. Qed.
Lemma refuses_some_or {A} e' e (m : FM unit A) k : refuses (some_or e' (if_writable e m) k).
Proof. intros f Hf. unfold some_or, attempt, sbind, if_writable. rewrite Hf. destruct e. cbn. naive_solver. Qed.
Lemma refuses_error e : refuses (sret (RError e)).
Proof. intros f Hf. cbn. naive_solver. Qed.
Lemma refuses_lift {A} (o : outcome Empty_set A) k : (forall a, refuses (k a)) -> refuses (let* a := slift o in k a).
Proof. intros Hk f Hf. unfold sbind, slift. destruct o as [a|e|]; [by apply Hk|done..]. Qed.
Lemma refuses_validate fh ino b (k : unit -> HM) : (forall a, refuses (k a)) -> refuses (or_reply (validate_handle fh ino b) k).
Proof.
  intros Hk f Hf. unfold or_reply, attempt, sbind, validate_handle. destruct (validate_handle_static _ _ _ _) as [a|e|]; [by apply Hk|cbn; naive_solver|done].
Qed.
Lemma refuses_if (b : bool) (m1 m2 : HM) : refuses m1 -> refuses m2 -> refuses (if b then m1 else m2).
Proof. by destruct b. Qed.
Lemma refuses_registered {A} req e (m : FM Z A) (k : A + Z -> HM) :
  (forall e, refuses (k (inr e))) -> refuses (let* r := registered req (if_writable e m) in k r).
Proof.
  intros Hk f Hf.
  assert (Hr : exists f1, registered req (if_writable e m) f = (Ok (inr e), f1) /\ f_volume f1 = f_volume f /\ f_writable f1 = false).
  { eexists. split; [|split].
    { unfold registered, register_request_at, deregister_request, attempt, sbind, if_writable. cbn. rewrite Hf. reflexivity. }
    all: done. }
  destruct Hr as (f1 & Hr & Hv & Hw). rewrite (sbind_ok _ _ _ _ _ Hr), <- Hv. by apply Hk.
Qed.

#[local] Hint Resolve refuses_or_reply refuses_some_or refuses_error refuses_lift refuses_validate refuses_if refuses_registered : fuse.

(** *** Requests that only read *)

(** One read of the device. *)
Definition device_read (w w' : W) : Prop :=
  (exists b, w' = (read_block b w).2) \/ exists off len, w' = (read_bytes off len w).2.

Section reading.
Context (w0 : W).

(** The device was only read since it was [w0], and the mount is not writable. *)
Definition only_read : W -> Prop := rtc device_read w0.
Definition vol_only_read (v : Volume W) : Prop := only_read (v_storage v).
Definition fs_only_read (f : FuseFs W) : Prop := f_writable f = false /\ vol_only_read (f_volume f).

Lemma rd_block b : keeps only_read (read_block b).
Proof. intros w Hw. eapply rtc_r; [exact Hw|]. left. by exists b. Qed.

Lemma rd_inode v ino : keeps only_read (inode_read v ino).
Proof.
  unfold inode_read, find_inode_page. apply keeps_bind; [apply keeps_bind|].
  - induction (table_blocks v) as [|b blocks IH]; cbn [scan_table]; [apply keeps_ret|]. apply keeps_if; [exact IH|]. unfold table_page.
    apply keeps_bind; [destruct (pc_peek_block _ _); [apply keeps_ret|apply rd_block]|]. intros data.
    apply keeps_bind; [apply keeps_lift|]. intros [off|]; [apply keeps_ret|exact IH].
  - intros [loc|]; [apply keeps_ret|apply keeps_fail].
  - intros [block off]. apply keeps_bind; [destruct (pc_peek _ _ _); [apply keeps_ret|apply rd_block]|]. intros data.
    apply keeps_bind; [apply keeps_lift|]. intros bytes. apply keeps_bind; [apply keeps_lift|]. intros d. apply keeps_ret.
Qed.

Lemma rd_extent irq a blocks : forall st, keeps only_read (read_extent (D := W) irq a blocks st).
Proof.
  induction blocks as [|b blocks IH]; intros st; cbn [read_extent]; [apply keeps_ret|]. cbn zeta.
  repeat first [apply keeps_bind; [apply keeps_lift || apply rd_block|intros ?] | apply keeps_if | apply keeps_ret | apply keeps_fail | apply IH | progress cbn zeta].
Qed.

Lemma rd_data bits irq offset len r : keeps only_read (read_data_checked (D := W) bits irq offset len r).
Proof.
  unfold read_data_checked. cbn zeta. repeat (apply keeps_bind; [apply keeps_lift|intros ?]). apply keeps_bind; [|intros; apply keeps_ret].
  match goal with |- keeps _ (read_extents _ ?l ?st) => generalize l st end.
  intros l. induction l as [|[b c] l IH]; intros st; cbn [read_extents]; [apply keeps_ret|]. apply keeps_if.
  - apply keeps_bind; [apply keeps_lift|]. intros n. cbn zeta. apply keeps_if; [apply keeps_ret|apply IH].
  - apply keeps_bind; [apply rd_extent|]. intros st'. apply IH.
Qed.

Lemma rd_storage {A} (io : ST W StorageError A) : keeps only_read io -> keeps vol_only_read (on_storage io).
Proof. intros H v Hv. unfold on_storage. specialize (H _ Hv). by destruct (io (v_storage v)). Qed.

Lemma rd_vol_inode ino : keeps vol_only_read (vol_inode_read ino).
Proof. intros v Hv. by apply rd_storage; [apply rd_inode|]. Qed.

Lemma rd_symlink ino : keeps vol_only_read (read_symlink ino).
Proof. unfold read_symlink. apply keeps_bind; [apply rd_vol_inode|]. intros i. cbn zeta. repeat (apply keeps_if; [try apply keeps_fail; try apply keeps_lift|]). apply keeps_fail. Qed.

Lemma rd_open ino : keeps vol_only_read (open_file ino).
Proof.
  unfold open_file. apply keeps_bind; [apply rd_vol_inode|]. intros i. apply keeps_bind; [apply keeps_get|]. intros v.
  apply keeps_bind; [apply keeps_lift|]. intros n. by apply keeps_mod.
Qed.

Lemma fr_volume {E A} err (m : ST (Volume W) StorageError A) : keeps vol_only_read m -> keeps fs_only_read (on_volume (E := E) err m).
Proof. intros Hm f [Hw Hf]. unfold on_volume. specialize (Hm _ Hf). destruct (m (f_volume f)) as [[a|e|] v']; by split. Qed.
Lemma fr_read_inode {E} e ino : keeps fs_only_read (read_inode (FS := FS) (E := E) e ino).
Proof. apply fr_volume, rd_vol_inode. Qed.
Lemma fr_lift_or {E A} e (m : result A) : keeps fs_only_read (lift_or (W := W) (E := E) e m).
Proof. apply fr_volume, keeps_lift. Qed.
Lemma fr_data {E} (e : E) bits irq offset len r : keeps fs_only_read (or_errno e (on_storage (read_data_checked bits irq offset len r))).
Proof. apply fr_volume, rd_storage, rd_data. Qed.
Lemma fr_readlink ino : keeps fs_only_read (fuse_readlink (FS := FS) ino).
Proof. apply fr_volume, rd_symlink. Qed.
Lemma fr_open ino : keeps fs_only_read (fuse_open (FS := FS) ino).
Proof. apply fr_volume, rd_open. Qed.
Lemma fr_guard {E A} (e : E) (m : FM E A) : keeps fs_only_read (if_writable e m).
Proof. intros f [Hw Hf]. unfold if_writable. rewrite Hw. by split. Qed.
Lemma fr_add_node {E} ino : keeps fs_only_read (add_node_state (W := W) (E := E) ino).
Proof. intros f Hf. unfold add_node_state. destruct (_ !! _) as [s|]; [|done]. unfold node_increment, add_u64. by destruct (_ <? _). Qed.
Lemma fr_decrement {E} ino n : keeps fs_only_read (decrement_node_state (W := W) (E := E) ino n).
Proof. intros f Hf. unfold decrement_node_state. destruct (_ !! _) as [s|]; [|done]. by destruct (node_is_zero _). Qed.
Lemma fr_register {E} i : keeps fs_only_read (register_request_at (W := W) (E := E) i).
Proof. by intros f Hf. Qed.
Lemma fr_validate fh ino b : keeps fs_only_read (validate_handle (W := W) fh ino b).
Proof. by intros f Hf. Qed.
Lemma fr_statfs {E} : keeps fs_only_read (fuse_statfs (W := W) (E := E)).
Proof. intros f Hf. unfold fuse_statfs. by destruct (vol_total_inodes _). Qed.
Lemma fr_handle {E} ino is_dir : keeps fs_only_read (open_handle (W := W) (E := E) ino is_dir).
Proof. intros f Hf. unfold open_handle. by destruct (add_u64 _ _). Qed.
Lemma fr_destroy : keeps fs_only_read srv_destroy.
Proof. intros f [Hw Hf]. unfold srv_destroy, sbind, sget. rewrite Hw. by split. Qed.
End reading.

#[local] Hint Resolve fr_read_inode fr_lift_or fr_data fr_readlink fr_open fr_guard fr_add_node fr_decrement fr_register fr_validate fr_statfs fr_handle fr_destroy : fuse.

Lemma list_interruptible_reads w0 irq entries : forall polls s i, keeps (fs_only_read w0) (list_interruptible (FS := FS) irq polls s i entries).
Proof. induction entries as [|e entries IH]; intros polls s i; cbn [list_interruptible]; unfold infer_file_type; walk. Qed.
Lemma with_dinodes_reads w0 entries : keeps (fs_only_read w0) (with_dinodes (FS := FS) entries).
Proof. induction entries as [|[[[? ?] ?] ?] entries IH]; cbn [with_dinodes]; unfold fuse_getattr; walk. Qed.
#[local] Hint Resolve list_interruptible_reads with_dinodes_reads : fuse.

(** The releases are the requests that reach the volume without the guard. *)
Definition releases (q : Request) : bool := match q with QRelease _ _ _ _ | QReleasedir _ _ => true | _ => false end.

Lemma serve_only_reads w0 q : releases q = false -> keeps (fs_only_read w0) (serve q).
Proof.
  destruct q; intros Hq; try discriminate Hq; cbn [serve];
  unfold srv_lookup, srv_forget, srv_getattr, srv_setattr, srv_readlink, srv_symlink, srv_mknod, srv_mkdir, srv_unlink, srv_rmdir,
    srv_rename, srv_link, srv_open, srv_opendir, srv_create, srv_read, srv_write, srv_statfs, srv_fsync, srv_setxattr, srv_getxattr, srv_listxattr, srv_removexattr, srv_flush,
    srv_readdir, srv_readdirplus, srv_fsyncdir, srv_access, srv_bmap, srv_poll, srv_fallocate, srv_lseek, srv_copy_file_range,
    registered, deregister_request, reply_entry, reply_attr, fuse_lookup, fuse_forget, fuse_getattr, fuse_setattr, fuse_symlink, fuse_mknod,
    fuse_mkdir, fuse_unlink, fuse_rmdir, fuse_rename, fuse_link, read_interruptible, write_interruptible, fuse_flush, sync_fs, fuse_setxattr,
    fuse_getxattr, fuse_listxattr, fuse_removexattr, readdir_interruptible, fuse_access, fuse_bmap, fuse_fallocate, lseek_data_or_hole,
    fuse_create, fuse_copy_file_range, fuse_truncate, new_node; walk.
Qed.

(** The modifying requests are refused. *)
Lemma modifying_refused (q : Request) (f : FuseFs W) (Hq : modifying q = true) (Hf : f_writable f = false) :
  f_volume (serve q f).2 = f_volume f /\ forall r, (serve q f).1 = Ok r -> exists e, r = Some (RError e).
Proof.
  assert (Ha : forall h : HM, refuses h -> f_volume ((let* r := h in sret (Some r)) f).2 = f_volume f /\
            forall r, ((let* r := h in sret (Some r)) f).1 = Ok r -> exists e, r = Some (RError e)).
  { intros h Hh. destruct (Hh f Hf) as (Hv & _ & Hr). unfold sbind. destruct (h f) as [[r|e|] f']; cbn in *; [|done..]. split; [done|].
    intros r' [= <-]. destruct (Hr r eq_refl) as [e ->]. by exists e. }
  destruct q; try discriminate Hq; apply Ha; unfold srv_rename, srv_fsync, srv_write, srv_fallocate, srv_copy_file_range, srv_setattr; cbn zeta;
    repeat first [apply refuses_if | apply refuses_validate; intros _ | apply refuses_lift; intros ? | apply refuses_error | apply refuses_or_reply
                 | apply refuses_some_or | apply refuses_registered; intros ?].
  intros f0 Hf0. unfold srv_unlink, fuse_unlink, attempt, sbind, if_writable. rewrite Hf0. cbn. naive_solver.
Qed.

(** C23: on a mount that is not writable no request but [release] and
    [releasedir] writes to the device: whatever is asked, the device afterwards
    is the one before after some reads. A request that would modify the file
    system is answered with an error (or the process panics on a time before
    1970, which [setattr] converts first) and leaves the whole volume as it
    was. The releases are left out because they have no guard: they run a
    transaction of the volume on any mount. *)
Theorem read_only_refuses (q : Request) (f : FuseFs W) (Hq : releases q = false) (Hf : f_writable f = false) :
  rtc device_read (v_storage (f_volume f)) (v_storage (f_volume (serve q f).2)) /\ f_writable (serve q f).2 = false /\
  (modifying q = true -> f_volume (serve q f).2 = f_volume f /\ forall r, (serve q f).1 = Ok r -> exists e, r = Some (RError e)).
Proof.
  destruct (serve_only_reads (v_storage (f_volume f)) q Hq f) as [Hw Hr]; [by split; [|apply rtc_refl]|].
  split_and!; [exact Hr|exact Hw|]. intros Hm. by apply modifying_refused.
Qed.
End session.
