(* ===== verification/FuseCalls.v ===== *)
(** * Calls through FUSE

    Theorems on whole calls of [FuseFs] and of the handlers on a quiet volume
    ([vol_ok]): permissions, reading and writing, a new name that is looked up. *)

From stdpp Require Import gmap.
From Stdlib Require Import ZArith Lia.
From S2P Require Import Types Utf Storage PageCache Inode Xtree Dtree Volume VolumeData VolumeDir Xattr VolumeTx DinodeEdit InodeTable Entries DirMake FileData Interrupt FuseAbi FuseLocks Fuse FuseFiles FuseServer Prelude.

Section calls.
Context {LE : LittleEndian} {LES : LittleEndianSpec} {L : Lru PageKey CachedPage} {LS : LruSpec PageKey CachedPage} {XF : XadFlags}.
Context {HO : HashOrder} {HOS : HashOrderSpec} {W : Type} {FS : Storage W} {SS : StorageSpec W} {SR : StorageReliable W}.
Abbreviation FM := (ST (FuseFs W)).

(** ** Reading an inode *)

(** The device was read: it answers as before. *)
Definition read_only_step (v v' : Volume W) : Prop :=
  exists w', v' = v_with_dev w' v /\ st_wf w' /\ contents w' = contents (v_storage v).

Lemma quiet_read n (v : Volume W) ino old d :
  vol_ok n v -> inode_bytes v ino = Some old -> dinode_parse old = Ok d ->
  exists b off v', vol_inode_read ino v = (Ok (mkInode d ino b off), v') /\ read_only_step v v'.
Proof.
  intros Hv Hi Hd. pose proof (inode_read_run (table_view v) ino (v_storage v) (ok_wf n v Hv) (vol_table_ok n v Hv)) as Hr.
  unfold inode_bytes, slot_at in Hi. destruct (List.find _ _) as [[b off]|]; [|done]. injection Hi as Hi.
  destruct Hr as (d' & w' & Hr & Hd' & _ & Hw & Hc).
  { intros b' _. cbn [table_view tv_cache]. rewrite cache_empty_peek_block by apply (ok_cache n v Hv). rewrite cached_peek. by rewrite (ok_cache n v Hv). }
  rewrite Hi, Hd in Hd'. injection Hd' as <-. exists b, off, (v_with_dev w' v). split; [|by exists w'].
  unfold vol_inode_read, on_storage. by rewrite Hr.
Qed.

Lemma read_only_ok n (v v' : Volume W) : vol_ok n v -> read_only_step v v' -> vol_ok n v' /\ forall i, inode_bytes v' i = inode_bytes v i.
Proof. intros Hv (w' & -> & Hw & Hc). destruct (vol_ok_data n v w' Hv Hw) as (H1 & _ & H2); [by rewrite Hc..|done]. Qed.

Lemma read_inode_run {E} (e : E) n (f : FuseFs W) ino old d :
  vol_ok n (f_volume f) -> inode_bytes (f_volume f) ino = Some old -> dinode_parse old = Ok d ->
  exists b off v', read_inode e ino f = (Ok (mkInode d ino b off), f_with_volume v' f) /\ read_only_step (f_volume f) v'.
Proof.
  intros Hv Hi Hd. destruct (quiet_read n (f_volume f) ino old d Hv Hi Hd) as (b & off & v' & Hr & Hs). exists b, off, v'. split; [|done].
  unfold read_inode, or_errno, on_volume. by rewrite Hr.
Qed.

Lemma getattr_run n (f : FuseFs W) ino old d :
  vol_ok n (f_volume f) -> inode_bytes (f_volume f) ino = Some old -> dinode_parse old = Ok d ->
  exists v', fuse_getattr ino f = (Ok d, f_with_volume v' f) /\ read_only_step (f_volume f) v'.
Proof.
  intros Hv Hi Hd. destruct (read_inode_run tt n f ino old d Hv Hi Hd) as (b & off & v' & Hr & Hs). exists v'. split; [|done].
  unfold fuse_getattr. by rewrite (sbind_ok _ _ _ _ _ Hr).
Qed.

(** ** Permissions *)

(** The class of the caller: the position of its bits in the mode. *)
Definition class_shift (uid gid fuid fgid : Z) : Z := if uid =? fuid then 6 else if gid =? fgid then 3 else 0.

(** POSIX: every permission of the mask is in the bits of the class; the superuser may do everything. *)
Definition permitted (mask uid gid : Z) (d : Dinode) : bool :=
  (uid =? 0) || dinode_is_symlink d ||
  forallb (fun i => negb (Z.testbit mask i) || Z.testbit (dinode_mode d) (i + class_shift uid gid (dinode_uid d) (dinode_gid d))) [2; 1; 0].

Lemma land_bit a i : 0 <= i -> (Z.land a (2 ^ i) =? 0) = negb (Z.testbit a i).
Proof.
  intros Hi. destruct (Z.testbit a i) eqn:Hb; cbn.
  - apply Z.eqb_neq. intros H. assert (Ht : Z.testbit (Z.land a (2 ^ i)) i = true) by (by rewrite Z.land_spec, Hb, Z.pow2_bits_true).
    by rewrite H, Z.bits_0 in Ht.
  - apply Z.eqb_eq. apply Z.bits_inj'. intros j Hj. rewrite Z.land_spec, Z.bits_0. destruct (decide (j = i)) as [->|Hne]; [by rewrite Hb|].
    rewrite Z.pow2_bits_false by congruence. by rewrite andb_false_r.
Qed.

(** C24: [access] decides like POSIX: on an inode of a quiet volume it succeeds
    exactly when the caller is the superuser, the inode is a symbolic link, or
    every requested permission is among the bits of the owner, the group or the
    others, by the first class the caller belongs to; otherwise it answers
    [EACCES]. Only the device is read. *)
Theorem access_is_posix n (f : FuseFs W) ino mask uid gid old d
  (Hv : vol_ok n (f_volume f)) (Hi : inode_bytes (f_volume f) ino = Some old) (Hd : dinode_parse old = Ok d) :
  exists v', fuse_access ino mask uid gid f = (if permitted mask uid gid d then Ok tt else Err EACCES, f_with_volume v' f) /\
    read_only_step (f_volume f) v'.
Proof.
  destruct (getattr_run n f ino old d Hv Hi Hd) as (v' & Hr & Hs). exists v'. split; [|done].
  unfold fuse_access, sbind, attempt. rewrite Hr. cbn zeta. unfold permitted, R_OK, W_OK, X_OK.
  destruct (uid =? 0); [done|]. destruct (dinode_is_symlink d); [done|]. cbn [orb forallb].
  set (perms := if uid =? dinode_uid d then _ else _).
  assert (Hp : forall i, 0 <= i -> Z.testbit perms i = Z.testbit (dinode_mode d) (i + class_shift uid gid (dinode_uid d) (dinode_gid d))).
  { intros i H0. unfold perms, class_shift. destruct (uid =? _); [by rewrite Z.shiftr_spec|]. destruct (gid =? _); [by rewrite Z.shiftr_spec|]. by rewrite Z.add_0_r. }
  assert (H2 : forall z, (Z.land z 4 =? 0) = negb (Z.testbit z 2)) by (intros z; by apply (land_bit z 2)).
  assert (H1 : forall z, (Z.land z 2 =? 0) = negb (Z.testbit z 1)) by (intros z; by apply (land_bit z 1)).
  assert (H0 : forall z, (Z.land z 1 =? 0) = negb (Z.testbit z 0)) by (intros z; by apply (land_bit z 0)).
  rewrite !H2, !H1, !H0, !Hp, !negb_involutive by lia.
  repeat (destruct (Z.testbit mask _); cbn [negb andb orb]); repeat (destruct (Z.testbit (dinode_mode d) _); cbn [negb andb orb]); done.
Qed.

(** ** Reading and writing *)

Lemma fuse_read_run n (f : FuseFs W) ino offset len old d r addrs :
  vol_ok n (f_volume f) -> file_at (f_volume f) ino old d r -> 0 <= offset -> 0 <= len ->
  range_at (f_volume f) r offset (Z.min len (dinode_size_val d - offset)) addrs ->
  exists v', fuse_read ino offset len f =
    (Ok (if dinode_size_val d <=? offset then []
         else zslice (blocks_of (f_volume f) addrs) (offset mod BLOCK_SIZE) (offset mod BLOCK_SIZE + Z.min len (dinode_size_val d - offset))),
     f_with_volume v' f) /\ contents (v_storage v') = contents (v_storage (f_volume f)).
Proof.
  intros Hv Hf H0 Hl Hr. destruct (file_tree n _ ino old d r Hv Hf) as (_ & Hwf & _). destruct Hf as [Hby Hd Htree Hval].
  destruct (read_inode_run tt n f ino old d Hv Hby Hd) as (b & off & v1 & Hrd & w1 & -> & Hw1 & Hc1).
  unfold fuse_read. rewrite (sbind_ok _ _ _ _ _ Hrd). cbn zeta. cbn [in_dinode].
  destruct (Z.leb_spec (dinode_size_val d) offset); [eexists; split; [reflexivity|exact Hc1]|].
  destruct Hr as [_ [Hf1 Hf2] Ha Hnd Hda].
  destruct (read_data_ok from_bits_truncate offset (Z.min len (dinode_size_val d - offset)) r addrs w1) as (w2 & Hrun & Hc2); try done; [lia| |].
  { eapply Forall_impl; [exact Hda|]. intros a (Ha0 & [(_ & Hra & _) _] & _). by rewrite Hc1. }
  unfold lift_or, or_errno, on_volume, slift, sbind. rewrite Htree. cbn [f_volume f_with_volume]. unfold on_storage. cbn [v_storage v_with_dev v_set].
  rewrite Hrun. exists (v_with_dev w2 (v_with_dev w1 (f_volume f))). unfold blocks_of. rewrite <- Hc1. done.
Qed.

(** C8: reading through FUSE returns the bytes of the file: from the offset to the
    end of the request or of the file, whichever comes first, taken from the
    mapped blocks in order; at or after the end of the file nothing is returned.
    The content of the device does not change. *)
Theorem fuse_read_correct n (f : FuseFs W) ino offset len old d r addrs
  (Hv : vol_ok n (f_volume f)) (Hf : file_at (f_volume f) ino old d r) (H0 : 0 <= offset) (Hl : 0 <= len)
  (Hr : range_at (f_volume f) r offset (Z.min len (dinode_size_val d - offset)) addrs) :
  exists v', fuse_read ino offset len f =
    (Ok (if dinode_size_val d <=? offset then []
         else zslice (blocks_of (f_volume f) addrs) (offset mod BLOCK_SIZE) (offset mod BLOCK_SIZE + Z.min len (dinode_size_val d - offset))),
     f_with_volume v' f) /\ contents (v_storage v') = contents (v_storage (f_volume f)).
Proof. by eapply fuse_read_run. Qed.

Lemma size_val_nonneg old d : zlen old = 512 -> dinode_parse old = Ok d -> 0 <= dinode_size_val d.
Proof. intros Hz Hd. destruct (dinode_parse_fields old d Hz Hd) as (Hs & _). unfold dinode_size_val. rewrite Hs. apply read_u64_range, length_zslice; lia. Qed.

(** What is written through FUSE is read through FUSE: on a writable mount a
    write to mapped blocks answers the number of bytes, and reading the same range
    afterwards returns exactly these bytes. *)
Theorem fuse_write_read n (f : FuseFs W) ino offset data old d r addrs
  (Hw : f_writable f = true) (Hv : vol_ok n (f_volume f)) (Hn : 4 <= n) (Hf : file_at (f_volume f) ino old d r)
  (Hr : range_at (f_volume f) r offset (zlen data) addrs) :
  exists v' v'', fuse_write ino offset data f = (Ok (zlen data), f_with_volume v' f) /\ vol_ok (n - 4) v' /\
    fuse_read ino offset (zlen data) (f_with_volume v' f) = (Ok data, f_with_volume v'' f).
Proof.
  destruct (write_at_ok n _ ino offset data old d r addrs Hv Hn Hf Hr) as (v' & new & d' & H1 & H2 & H3 & H4 & H5 & H6 & H7 & H8).
  exists v'. assert (Hf' : file_at v' ino new d' r).
  { destruct Hf as [Hby Hd Htree Hval]. split; [by rewrite H5, decide_True|done|by rewrite H8|done]. }
  pose proof (zlen_nonneg data) as Hl0. destruct (range_len _ r offset (zlen data) addrs Hr Hl0) as [_ Hfit].
  pose proof Hr as [H0 [Hf1 Hf2] Ha Hnd Hda]. assert (Hmin : Z.min (zlen data) (dinode_size_val d' - offset) = zlen data) by lia.
  destruct (fuse_read_run (n - 4) (f_with_volume v' f) ino offset (zlen data) new d' r addrs) as (v'' & Hrun & _); try done.
  { cbn [f_volume f_with_volume]. rewrite Hmin. split; try done. eapply Forall_impl; [exact Hda|]. intros a Hab. by apply H4. }
  exists v''. split_and!; [|done|].
  { unfold fuse_write, if_writable, or_errno, on_volume. rewrite Hw. unfold fuse_write in *. by rewrite H1. }
  rewrite Hrun, Hmin. cbn [f_volume f_with_volume]. rewrite H3. f_equal. f_equal. pose proof (Z.mod_pos_bound offset BLOCK_SIZE ltac:(done)).
  destruct (Z.leb_spec (dinode_size_val d') offset).
  - destruct data as [|x data]; [done|]. pose proof (zlen_nonneg data). rewrite zlen_cons in *. lia.
  - apply zslice_zsplice_same; [lia| |done]. unfold blocks_of. by rewrite blocks_len by (by apply data_on_device).
Qed.

(** ** A new directory is found *)

Lemma fuse_lookup_run n (f : FuseFs W) parent name old d t es e :
  vol_ok n (f_volume f) -> inode_bytes (f_volume f) parent = Some old -> dinode_parse old = Ok d -> dinode_is_dir d = true ->
  dir_tree old = Ok t -> dt_entries t = Ok es -> name <> DOT -> name <> DOTDOT ->
  List.find (fun e => bool_decide (de_name e = encode_utf16 name)) es = Some e ->
  exists v', fuse_lookup parent name f = (let* _ := add_node_state (de_inumber e) in sret (de_inumber e)) (f_with_volume v' f) /\ read_only_step (f_volume f) v'.
Proof.
  intros Hv Hi Hd Hdir Ht Hes H1 H2 Hfind. destruct (read_inode_run tt n f parent old d Hv Hi Hd) as (b & off & v' & Hr & Hs). exists v'. split; [|done].
  unfold fuse_lookup. rewrite !bool_decide_eq_false_2 by done. rewrite (sbind_ok _ _ _ _ _ Hr). cbn [in_dinode]. rewrite Hdir. cbn [negb].
  unfold lift_or, or_errno, on_volume, slift. unfold sbind at 1. rewrite (dir_tree_parse old d t Ht Hd). unfold sbind at 1.
  rewrite (dt_lookup_entries _ t es Hes), Hfind. cbn [f_volume f_with_volume]. done.
Qed.

Lemma reply_entry_run n (f : FuseFs W) ino old d :
  vol_ok n (f_volume f) -> inode_bytes (f_volume f) ino = Some old -> dinode_parse old = Ok d ->
  exists v', reply_entry ino f = (Ok (REntry TTL (dinode_to_fileattr ino d) (dinode_generation d)), f_with_volume v' f) /\ read_only_step (f_volume f) v'.
Proof.
  intros Hv Hi Hd. destruct (getattr_run n f ino old d Hv Hi Hd) as (v' & Hr & Hs). exists v'. split; [|done].
  unfold reply_entry, some_or, sbind, attempt. by rewrite Hr.
Qed.

Lemma find_new_entry name es e : Forall (fun e => de_name e <> name) es -> de_name e = name ->
  List.find (fun e => bool_decide (de_name e = name)) (es ++ [e]) = Some e.
Proof.
  intros Hes He. induction Hes as [|x es Hx Hes IH]; cbn [app List.find]; [by rewrite bool_decide_eq_true_2|].
  by rewrite bool_decide_eq_false_2.
Qed.

Lemma add_node_run {E} (f : FuseFs W) ino c :
  f_node_states f !! ino = mkNode <$> c -> from_option (fun n => n + 1 < 2 ^ 64) True c ->
  add_node_state (E := E) ino f = (Ok tt, f_with_nodes (<[ino := mkNode (default 0 c + 1)]> (f_node_states f)) f).
Proof.
  intros Hc Hn. unfold add_node_state. rewrite Hc. destruct c as [c|]; cbn [fmap option_fmap option_map default from_option id] in *; [|done].
  unfold node_increment. cbn [lookup_count]. by rewrite add_u64_ok.
Qed.

Lemma directory_kind ino d : dinode_is_dir d = true -> fa_kind (dinode_to_fileattr ino d) = Directory.
Proof. unfold dinode_is_dir, dinode_to_fileattr. cbn [fa_kind]. by intros ->%Z.eqb_eq. Qed.

(** C9: a directory made through FUSE is found through FUSE: on a writable mount
    of a quiet volume the reply to [mkdir] is the entry of a directory with two
    links under the first free inode number, a [lookup] of the name then replies
    the same entry, and the server counts both references. *)
Theorem mkdir_then_lookup n (f : FuseFs W) (inode : Z) (name : list byte) mode old d0 t es b k
  (Hw : f_writable f = true) (Hv : vol_ok n (f_volume f)) (Hn : 6 <= n)
  (Hc : can_create (f_volume f) (as_u32 inode) (from_utf8_lossy name) old t es b k)
  (Hd0 : dinode_parse old = Ok d0) (Hdir : dinode_is_dir d0 = true) (Hlink : dinode_nlink d0 + 1 < 2 ^ 32)
  (Hdot : from_utf8_lossy name <> DOT) (Hdots : from_utf8_lossy name <> DOTDOT)
  (Hnew : f_node_states f !! slot_number (f_volume f) (b, k * DISIZE) = None) :
  let child := slot_number (f_volume f) (b, k * DISIZE) in
  exists attr gen f1 f2, srv_mkdir inode name mode f = (Ok (REntry TTL attr gen), f1) /\
    fa_ino attr = child /\ fa_kind attr = Directory /\ fa_nlink attr = 2 /\
    srv_lookup inode name f1 = (Ok (REntry TTL attr gen), f2) /\ fuse_lookup_count child f2 = 2 /\ vol_ok (n - 6) (f_volume f2).
Proof.
  intros child. assert (Hp : u32_range (as_u32 inode)) by (unfold u32_range, as_u32; apply Z.mod_pos_bound; lia).
  destruct (mkdir_run n _ _ _ old d0 t es b k Hv Hn Hc Hp Hd0 Hlink) as (v' & new & dn & pnew & dp & H1 & Hok & Hby & Hdn & Hisd & Hnl & _ & Hdp & _ & Hent & Hmode & _).
  fold child in H1, Hby, Hent. pose proof (cc_other _ _ _ _ _ _ _ _ Hc) as Hne. fold child in Hne.
  set (fa := f_with_nodes (<[child := mkNode 1]> (f_node_states f)) (f_with_volume v' f)).
  assert (Hrun : fuse_mkdir (as_u32 inode) (from_utf8_lossy name) mode f = (Ok child, fa)).
  { unfold fuse_mkdir, if_writable, new_node, on_volume. rewrite Hw. unfold sbind. rewrite H1. by rewrite (add_node_run (f_with_volume v' f) child None). }
  destruct (reply_entry_run (n - 6) fa child new dn) as (v1 & Hr1 & Hs1); [done|cbn; by rewrite Hby, decide_True|done|].
  destruct (read_only_ok (n - 6) v' v1 Hok Hs1) as [Hok1 Hby1].
  set (f1 := f_with_volume v1 fa). apply obind_inv in Hent as (pt & Hpt & Hent).
  destruct (fuse_lookup_run (n - 6) f1 (as_u32 inode) (from_utf8_lossy name) pnew dp pt
    (es ++ [mkDirEntry child (encode_utf16 (from_utf8_lossy name)) (as_u32 (zlen es))]) (mkDirEntry child (encode_utf16 (from_utf8_lossy name)) (as_u32 (zlen es))))
    as (v2 & Hr2 & Hs2); try done.
  { cbn. rewrite Hby1, Hby, decide_False, decide_True by done. done. }
  { unfold dinode_is_dir in *. by rewrite Hmode. }
  { apply find_new_entry; [|done]. apply (dr_new _ _ _ _ (cc_room _ _ _ _ _ _ _ _ Hc)). }
  destruct (read_only_ok (n - 6) v1 v2 Hok1 Hs2) as [Hok2 Hby2]. cbn [de_inumber] in Hr2.
  assert (Hcount : f_node_states (f_with_volume v2 f1) !! child = mkNode <$> Some 1) by (cbn; by rewrite lookup_insert_eq).
  set (f2 := f_with_nodes (<[child := mkNode (1 + 1)]> (f_node_states (f_with_volume v2 f1))) (f_with_volume v2 f1)).
  assert (Hlk : fuse_lookup (as_u32 inode) (from_utf8_lossy name) f1 = (Ok child, f2)) by (rewrite Hr2; unfold sbind; by rewrite (add_node_run _ child (Some 1))).
  destruct (reply_entry_run (n - 6) f2 child new dn) as (v3 & Hr3 & Hs3); [done|cbn; by rewrite Hby2, Hby1, Hby, decide_True|done|].
  destruct (read_only_ok (n - 6) v2 v3 Hok2 Hs3) as [Hok3 _].
  exists (dinode_to_fileattr child dn), (dinode_generation dn), f1, (f_with_volume v3 f2). split_and!; try done.
  - unfold srv_mkdir, or_reply, sbind, attempt. rewrite Hrun. exact Hr1.
  - by apply directory_kind.
  - unfold srv_lookup, some_or, sbind, attempt. rewrite Hlk. exact Hr3.
  - unfold fuse_lookup_count. cbn. by rewrite lookup_insert_eq.
Qed.
End calls.
