(* ===== verification/FuseLife.v ===== *)
(** * The life of a file

    A file that is made, written and read through FUSE: the calls of [FuseCalls] on
    blocks that the allocator gives, and their composition from the empty inode to
    the bytes that come back. *)

From stdpp Require Import gmap.
From Stdlib Require Import ZArith Lia.
From S2P Require Import Types Utf Storage PageCache Dmap Xtree Dtree LogMgr Devices Recovery Transaction Inode Volume VolumeData VolumeDir VolumeOps VolumeTx DinodeEdit InodeTable Sample Entries FileData FileGrow Interrupt FuseAbi FuseLocks Fuse FuseFiles FuseServer FuseState FuseCalls Prelude.

Section life.
Context {LE : LittleEndian} {LES : LittleEndianSpec} {L : Lru PageKey CachedPage} {LS : LruSpec PageKey CachedPage} {XF : XadFlags}.
Context {HO : HashOrder} {HOS : HashOrderSpec} {W : Type} {FS : Storage W} {SS : StorageSpec W} {SR : StorageReliable W}.

(** ** Appending *)

Lemma fuse_append_run n (f : FuseFs W) ino offset data old d r b :
  f_writable f = true -> vol_ok n (f_volume f) -> 4 <= n -> file_at (f_volume f) ino old d r -> space_ok (f_volume f) b -> grows_at b r offset (zlen data) ->
  exists v' v'' new d' r', fuse_write ino offset data f = (Ok (zlen data), f_with_volume v' f) /\
    fuse_read ino offset (zlen data) (f_with_volume v' f) = (Ok data, f_with_volume v'' f) /\ vol_ok (n - 4) v' /\
    file_at v' ino new d' r' /\ dinode_size_val d' = Z.max (dinode_size_val d) (offset + zlen data) /\
    (forall i, i <> ino -> inode_bytes v' i = inode_bytes (f_volume f) i).
Proof.
  intros Hw Hv Hn Hf Hs Hg.
  destruct (write_grows_ok n (f_volume f) ino offset data old d r b Hv Hn Hf Hs Hg) as (v' & new & d' & r' & s & H1 & H2 & H3 & H4 & H5 & H6 & H7 & H8 & H9 & H10 & H11 & _).
  pose proof (grown_range (f_volume f) v' b r r' s offset (zlen data) Hs Hg H4 H3 H8 ltac:(by intros a Ha Hp; apply H10)) as Hr. pose proof Hg as [G1 G2 _ _ _ _ _].
  assert (Hmin : Z.min (zlen data) (dinode_size_val d' - offset) = zlen data) by lia.
  destruct (fuse_read_run (n - 4) (f_with_volume v' f) ino offset (zlen data) new d' r' (seqZ s (span offset (zlen data)))) as (v'' & Hrun & _); try done; [lia|by rewrite Hmin|].
  exists v', v'', new, d', r'. split_and!; try done.
  - unfold fuse_write, if_writable, or_errno, on_volume. by rewrite Hw, H1.
  - rewrite Hrun, Hmin. cbn [f_volume f_with_volume]. destruct (Z.leb_spec (dinode_size_val d') offset); [lia|]. rewrite H9. f_equal. f_equal.
    destruct (span_bounds offset (zlen data) G1 G2) as (B1 & B2 & B3). pose proof (Z.mod_pos_bound offset BLOCK_SIZE ltac:(done)).
    apply zslice_zsplice_same; [lia| |done]. rewrite zlen_zeros by (unfold BLOCK_SIZE, PSIZE; lia). lia.
Qed.

(** ** A new file *)

(** Free space after a call that changed inodes only. *)
Lemma space_next n (v v' : Volume W) b : space_ok v b -> next_ok n v v' -> space_ok v' b.
Proof.
  intros Hs Hx. destruct (table_view_static v v' (nx_static _ _ _ Hx)) as [Htb Hag]. split; [rewrite (nx_bmap _ _ _ Hx); apply Hs|apply Hs| |].
  - intros a Ha Hf. destruct (so_free v b Hs a Ha Hf) as [(D1 & D2 & D3) D4]. split; [|done]. split; [done|]. rewrite Htb, Hag. split; [|done].
    eapply meta_block_same; [by rewrite (nx_bmap _ _ _ Hx)|apply Hx|apply Hx|done].
  - intros x Hp. destruct (so_pages v b Hs x Hp) as [(X1 & X2 & X3) X4]. rewrite Htb, Hag. split; [|done]. split; [done|]. rewrite (nx_len _ _ _ Hx). split; [done|]. by apply (nx_log _ _ _ Hx).
Qed.

(** C7: from a name to its bytes: creating a file through FUSE on a writable mount,
    writing to it from its start and reading it gives the bytes written. The
    directory then lists the name after its old entries, the file has the size of
    the data, no other inode changes, and the volume is quiet again. The tree of the
    free slot has to be empty: the inode of a new file keeps it. *)
Theorem create_write_read n (f : FuseFs W) parent name mode data old t es b k r0 m
  (Hw : f_writable f = true) (Hv : vol_ok n (f_volume f)) (Hn : 10 <= n) (Hc : can_create (f_volume f) parent name old t es b k)
  (Hnode : f_node_states f !! slot_number (f_volume f) (b, k * DISIZE) = None)
  (Htree : xt_from_inode_data (zslice (slot_of [] (contents (v_storage (f_volume f))) (b, k * DISIZE)) 224 512) = Ok r0) (Hempty : xt_slots r0 = [])
  (Hs : space_ok (f_volume f) m) (Hg : grows_at m r0 0 (zlen data)) :
  let child := slot_number (f_volume f) (b, k * DISIZE) in
  exists f1 v2 v3 new d r root, fuse_create parent name mode f = (Ok child, f1) /\ fuse_lookup_count child f1 = 1 /\
    fuse_write child 0 data f1 = (Ok (zlen data), f_with_volume v2 f1) /\ fuse_read child 0 (zlen data) (f_with_volume v2 f1) = (Ok data, f_with_volume v3 f1) /\
    vol_ok (n - 10) v2 /\ file_at v2 child new d r /\ dinode_size_val d = zlen data /\
    inode_bytes v2 parent = Some (with_root old root) /\
    dir_entries (with_root old root) = Ok (es ++ [mkDirEntry child (encode_utf16 name) (as_u32 (zlen es))]) /\
    (forall i, i <> child -> i <> parent -> inode_bytes v2 i = inode_bytes (f_volume f) i).
Proof.
  intros child. destruct (create_file_run n (f_volume f) parent name old t es b k Hv ltac:(lia) Hc) as (v1 & new1 & d1 & root & H1 & H2 & H3 & H4 & _ & H6 & _ & H8 & H9 & _).
  fold child in H1, H3, H8. set (f1 := f_with_nodes (<[child := mkNode 1]> (f_node_states f)) (f_with_volume v1 f)).
  assert (Hf1 : file_at v1 child new1 d1 r0) by (split; [by rewrite H3, decide_True|done|by rewrite H9|unfold xt_validate; by rewrite Hempty]).
  destruct (fuse_append_run (n - 6) f1 child 0 data new1 d1 r0 m) as (v2 & v3 & new & d & r & A1 & A2 & A3 & A4 & A5 & A6); try done; [lia|by apply (space_next (n - 6) (f_volume f))|].
  pose proof (cc_other _ _ _ _ _ _ _ _ Hc) as Hne. fold child in Hne. pose proof (zlen_nonneg data).
  exists f1, v2, v3, new, d, r, root. split_and!; try done.
  - unfold fuse_create, if_writable, or_errno, on_volume. rewrite Hw. unfold sbind. rewrite H1. by rewrite (add_node_run (f_with_volume v1 f) child None).
  - unfold fuse_lookup_count. cbn. by rewrite lookup_insert_eq.
  - by replace (n - 10) with (n - 6 - 4) by lia.
  - rewrite A5, H6. lia.
  - rewrite A6 by done. cbn. by rewrite H3, decide_False, decide_True by done.
  - intros i Hi Hp. rewrite A6 by done. cbn. by rewrite H3, !decide_False by done.
Qed.
End life.

(** ** Witness *)

Section witness.
#[local] Existing Instance le_codec.
#[local] Existing Instance le_codec_spec.
#[local] Existing Instance sample_order.
#[local] Existing Instance sample_order_spec.
#[local] Existing Instance sample_flags.

(** The empty root directory on a device with two free blocks. *)
Definition life_device : MemoryStorage := mkMem (sample_root ++ zeros (Z.to_nat 3584) ++ replicate (Z.to_nat 28672) Byte.x41) 32768.
Definition life_mount : FuseFs MemoryStorage := enable_writable (fuse_new (mapped_volume life_device)).

Lemma life_device_wf : mem_wf life_device.
Proof. split; vm_compute; reflexivity || discriminate. Qed.

Lemma life_can_create : can_create (mapped_volume life_device) 18 [97] sample_root sample_tree sample_entries 0 1.
Proof.
  split.
  - vm_compute. reflexivity.
  - apply sample_can_create.
  - discriminate.
  - vm_compute. reflexivity.
  - unfold INOSPERPAGE; lia.
  - vm_compute. discriminate.
  - left. vm_compute. reflexivity.
  - intros i _. apply (unkeyed_slot 100 (mapped_volume life_device) _ i (mapped_ok life_device life_device_wf eq_refl 100)). vm_compute. reflexivity.
Qed.

Definition life_slot : list byte := zslice (slot_of [] (contents (v_storage (mapped_volume life_device))) (0, 1 * DISIZE)) 224 512.
Definition life_tree : XtRoot := match xt_from_inode_data life_slot with Ok r => r | _ => xtroot_default end.

Lemma life_room : grows_at grow_map life_tree 0 (zlen sample_bytes).
Proof.
  split; [lia|reflexivity|vm_compute; reflexivity|vm_compute; reflexivity|apply (bool_decide_unpack _); vm_compute; exact I|vm_compute; reflexivity|].
  exists 4. split; [lia|]. intros i Hi. change (span 0 (zlen sample_bytes)) with 1 in Hi. assert (i = 4) as -> by lia; reflexivity.
Qed.

Lemma create_write_read_witness :
  exists f1 v2 v3, fuse_create 18 [97] 0x1a4 life_mount = (Ok 17, f1) /\ fuse_write 17 0 sample_bytes f1 = (Ok 3, f_with_volume v2 f1) /\
    fuse_read 17 0 3 (f_with_volume v2 f1) = (Ok sample_bytes, f_with_volume v3 f1).
Proof.
  destruct (create_write_read 100 life_mount 18 [97] 0x1a4 sample_bytes sample_root sample_tree sample_entries 0 1 life_tree grow_map eq_refl
    (mapped_ok life_device life_device_wf eq_refl 100) ltac:(lia) life_can_create) as (f1 & v2 & v3 & new & d & r & root & H1 & _ & H3 & H4 & _).
  - reflexivity.
  - vm_compute. reflexivity.
  - vm_compute. reflexivity.
  - exact (mapped_space life_device life_device_wf eq_refl).
  - exact life_room.
  - change (slot_number (f_volume life_mount) (0, 1 * DISIZE)) with 17 in *. exists f1, v2, v3. exact (conj H1 (conj H3 H4)).
Defined.
End witness.
