(* ===== verification/FuseWalk.v ===== *)
(** * Seeking and listing through FUSE

    [lseek] for data and holes against the block map of the file, and the listings
    of a directory with their cookies. *)

From stdpp Require Import gmap.
From Stdlib Require Import ZArith Lia.
From S2P Require Import Types Utf Storage PageCache Inode Xtree Dtree Volume VolumeData VolumeDir Xattr Check VolumeTx InodeTable Entries DirMake FileData Interrupt FuseAbi FuseLocks Fuse FuseFiles FuseServer FuseState FuseCalls Prelude.

Section seek.
Context {LE : LittleEndian} {LES : LittleEndianSpec} (fb : Z -> Z).

(** The extents of a list of slots, as [iter_extents] gives them. *)
Definition slot_extents (slots : list Xad) : list Extent :=
  omap (fun x => if xad_length x =? 0 then None
                 else Some (mkExtent (xad_offset x) (xad_length x) (xad_address x) (fb (bval (xad_flag x))))) slots.

Lemma iter_extents_slots r : iter_extents fb r = slot_extents (xt_slots r).
Proof. done. Qed.

Lemma phys_below slots p b : validate_slots slots p = true -> Forall wf_xad slots -> b < p -> phys slots b = None.
Proof.
  revert p. induction slots as [|x slots IH]; intros p Hv Hwf Hb; [done|]. apply Forall_cons in Hwf as [Hx Hwf]. cbn [validate_slots] in Hv. cbn [phys].
  pose proof (xad_length_range x). destruct (Z.eqb_spec (xad_length x) 0) as [Hz|Hz].
  - rewrite decide_False by lia. by eapply IH.
  - destruct (Z.ltb_spec (xad_offset x) p); [done|]. rewrite decide_False by lia. eapply IH; [exact Hv|done|lia].
Qed.

(** What [SEEK_DATA] promises: the first byte at or after [offset] in a mapped block. *)
Definition first_data (slots : list Xad) (offset : Z) (found : option Z) : Prop :=
  match found with
  | Some r => offset <= r /\ is_Some (phys slots (r / BLOCK_SIZE)) /\ (forall b, offset / BLOCK_SIZE <= b < r / BLOCK_SIZE -> phys slots b = None) /\
      (r = offset \/ r mod BLOCK_SIZE = 0 /\ phys slots (offset / BLOCK_SIZE) = None)
  | None => forall b, offset / BLOCK_SIZE <= b -> phys slots b = None
  end.

Lemma seek_data_first slots : forall p offset,
  Forall wf_xad slots -> validate_slots slots p = true -> 0 <= offset -> first_data slots offset (seek_data (slot_extents slots) offset).
Proof.
  induction slots as [|x slots IH]; intros p offset Hwf Hv H0; [done|]. apply Forall_cons in Hwf as [Hx Hwf]. cbn [validate_slots] in Hv.
  unfold slot_extents. cbn [omap list_omap]. pose proof (xad_offset_range x Hx) as Ho. pose proof (xad_length_range x) as Hl.
  destruct (Z.eqb_spec (xad_length x) 0) as [Hz|Hz].
  - specialize (IH p offset Hwf Hv H0). unfold slot_extents in IH. unfold first_data in *. assert (Hno : forall b, phys (x :: slots) b = phys slots b) by (intros b; cbn [phys]; by rewrite decide_False by lia).
    destruct (seek_data _ _) as [r|]; [destruct IH as (H1 & H2 & H3 & H4); rewrite !Hno; split_and!; try done; intros b Hb; rewrite Hno; by apply H3|intros b Hb; rewrite Hno; by apply IH].
  - destruct (Z.ltb_spec (xad_offset x) p); [done|]. cbn [seek_data e_offset e_length]. rewrite as_u64_small by lia.
    pose proof (Z.div_mod offset BLOCK_SIZE ltac:(done)) as Hdm. pose proof (Z.mod_pos_bound offset BLOCK_SIZE ltac:(done)) as Hm. unfold BLOCK_SIZE, PSIZE in *.
    destruct (Z.ltb_spec offset (xad_offset x * 4096 + xad_length x * 4096)) as [Hin|Hout].
    + destruct (Z.leb_spec (xad_offset x * 4096) offset) as [Hle|Hgt]; unfold first_data, BLOCK_SIZE, PSIZE; cbn [phys].
      * split_and!; [lia| |intros b Hb; lia|by left]. rewrite decide_True by lia. by eexists.
      * rewrite Z.div_mul, Z.mod_mul by lia. split_and!; [lia|rewrite decide_True by lia; by eexists| |].
        -- intros b Hb. cbn [phys]. rewrite decide_False by lia. eapply phys_below; [exact Hv|done|lia].
        -- right. split; [done|]. rewrite decide_False by lia. eapply phys_below; [exact Hv|done|lia].
    + specialize (IH _ offset Hwf Hv H0). unfold slot_extents in IH. unfold first_data in *. unfold BLOCK_SIZE, PSIZE in *.
      assert (Hno : forall b, offset / 4096 <= b -> phys (x :: slots) b = phys slots b) by (intros b Hb; cbn [phys]; rewrite decide_False by lia; done).
      destruct (seek_data _ _) as [r|].
      * destruct IH as (H1 & H2 & H3 & H4). assert (offset / 4096 <= r / 4096) by (apply Z.div_le_mono; lia).
        rewrite !Hno by lia. split_and!; try done. intros b Hb. rewrite Hno by lia. by apply H3.
      * intros b Hb. rewrite Hno by lia. by apply IH.
Qed.
End seek.

Section walk.
Context {LE : LittleEndian} {LES : LittleEndianSpec} {L : Lru PageKey CachedPage} {LS : LruSpec PageKey CachedPage} {XF : XadFlags}.
Context {HO : HashOrder} {HOS : HashOrderSpec} {W : Type} {FS : Storage W} {SS : StorageSpec W} {SR : StorageReliable W}.
Abbreviation FM := (ST (FuseFs W)).

(** ** Seeking *)

(** The tree of the file is parsed after its inode was read. *)
Lemma lseek_run n (f : FuseFs W) ino offset ty old d r :
  vol_ok n (f_volume f) -> file_at (f_volume f) ino old d r -> offset < dinode_size_val d ->
  exists v', lseek_data_or_hole ino offset ty f =
    (if ty =? SEEK_DATA then match seek_data (slot_extents from_bits_truncate (xt_slots r)) offset with Some o => Ok o | None => Err tt end
     else if ty =? SEEK_HOLE then Ok (seek_hole (slot_extents from_bits_truncate (xt_slots r)) offset (dinode_size_val d)) else Err tt, f_with_volume v' f) /\
    read_only_step (f_volume f) v'.
Proof.
  intros Hv [Hby Hd Htree Hval] Hs. destruct (read_inode_run tt n f ino old d Hv Hby Hd) as (b & off & v' & Hr & Hst). exists v'. split; [|done].
  unfold lseek_data_or_hole. rewrite (sbind_ok _ _ _ _ _ Hr). cbn zeta. cbn [in_dinode]. destruct (Z.leb_spec (dinode_size_val d) offset); [lia|].
  unfold lift_or, or_errno, on_volume, slift, sbind. rewrite Htree, iter_extents_slots. destruct (ty =? SEEK_DATA); [by destruct (seek_data _ _)|]. by destruct (ty =? SEEK_HOLE).
Qed.

(** C26: [SEEK_DATA] finds the first data: for an offset inside the file the call
    answers the offset itself when its block is mapped and otherwise the start of
    the first mapped block after it, with no mapped block in between; it fails
    exactly when no block from there on is mapped. Only the device is read. *)
Theorem lseek_data_correct n (f : FuseFs W) ino offset old d r
  (Hv : vol_ok n (f_volume f)) (Hf : file_at (f_volume f) ino old d r) (H0 : 0 <= offset < dinode_size_val d) :
  exists v' found, lseek_data_or_hole ino offset SEEK_DATA f = (match found with Some o => Ok o | None => Err tt end, f_with_volume v' f) /\
    first_data (xt_slots r) offset found /\ read_only_step (f_volume f) v'.
Proof.
  destruct (lseek_run n f ino offset SEEK_DATA old d r Hv Hf ltac:(lia)) as (v' & Hrun & Hs). eexists v', _. split; [exact Hrun|]. split; [|done].
  destruct (file_tree n _ ino old d r Hv Hf) as (_ & Hwf & _). destruct Hf as [_ _ _ Hval]. unfold xt_validate in Hval.
  destruct (validate_slots (xt_slots r) 0) eqn:E; [|done]. eapply seek_data_first; [by apply wf_slots|exact E|lia].
Qed.

(** [SEEK_HOLE] can answer an offset that is data: when two extents of the file
    follow each other, seeking from inside the first answers the end of the first
    extent, which is the first byte of the second, mapped, one. *)
Theorem lseek_hole_in_data n (f : FuseFs W) ino offset old d r x y rest
  (Hv : vol_ok n (f_volume f)) (Hf : file_at (f_volume f) ino old d r) (Hsl : xt_slots r = x :: y :: rest)
  (Hadj : xad_offset y = xad_offset x + xad_length x) (Hy : 0 < xad_length y)
  (Hin : xad_offset x * BLOCK_SIZE <= offset < xad_offset y * BLOCK_SIZE) (Hend : xad_offset y * BLOCK_SIZE < dinode_size_val d) :
  exists v', lseek_data_or_hole ino offset SEEK_HOLE f = (Ok (xad_offset y * BLOCK_SIZE), f_with_volume v' f) /\
    is_Some (phys (xt_slots r) (xad_offset y * BLOCK_SIZE / BLOCK_SIZE)).
Proof.
  destruct (lseek_run n f ino offset SEEK_HOLE old d r Hv Hf ltac:(lia)) as (v' & Hrun & _). exists v'. split.
  - rewrite Hrun. cbn [Z.eqb]. change (SEEK_HOLE =? SEEK_DATA) with false. change (SEEK_HOLE =? SEEK_HOLE) with true. cbn iota. f_equal. f_equal.
    destruct (file_tree n _ ino old d r Hv Hf) as (_ & Hwf & _). apply wf_slots in Hwf. rewrite Hsl in Hwf |- *. apply Forall_cons in Hwf as [Hx _].
    pose proof (xad_offset_range x Hx). pose proof (xad_length_range x). unfold slot_extents. cbn [omap list_omap]. unfold BLOCK_SIZE, PSIZE in *.
    destruct (Z.eqb_spec (xad_length x) 0); [lia|]. cbn [seek_hole e_offset e_length]. rewrite as_u64_small by lia. unfold BLOCK_SIZE, PSIZE.
    destruct (Z.ltb_spec offset (xad_offset x * 4096)); [lia|]. rewrite Z.min_l by lia. destruct (Z.ltb_spec offset (xad_offset x * 4096 + xad_length x * 4096)); lia.
  - rewrite Z.div_mul by done. rewrite Hsl. cbn [phys]. destruct (decide _); [by eexists|]. rewrite decide_True by lia. by eexists.
Qed.

(** ** Listing *)

Lemma read_only_trans (v v1 v2 : Volume W) : read_only_step v v1 -> read_only_step v1 v2 -> read_only_step v v2.
Proof. intros (w1 & -> & Hw1 & Hc1) (w2 & -> & Hw2 & Hc2). exists w2. split; [done|]. split; [done|]. by rewrite Hc2, <- Hc1. Qed.

(** The type of a mode, its bits 12 to 15, as the byte of an entry: a symbolic
    link, a directory, a regular file, anything else. *)
Definition type_byte (bytes : list byte) : Z :=
  match le_val (zslice bytes 52 56) / 2 ^ 12 mod 16 with 10 => 160 | 4 => 4 | 8 => 8 | _ => 0 end.

Definition type_of (v : Volume W) (ino : Z) : Z :=
  match inode_bytes v ino with Some bytes => type_byte bytes | None => 0 end.

Lemma land_type m : Z.land m 0xf000 = m / 2 ^ 12 mod 16 * 4096.
Proof.
  change 4096 with (2 ^ 12) at 1. change 16 with (2 ^ 4). rewrite <- Z.shiftl_mul_pow2, <- Z.land_ones, <- Z.shiftr_div_pow2 by lia.
  change 0xf000 with (Z.shiftl (Z.ones 4) 12). apply Z.bits_inj'. intros i Hi. rewrite Z.land_spec, !Z.shiftl_spec by lia.
  destruct (Z.ltb_spec i 12).
  - by rewrite !(Z.testbit_neg_r _ (i - 12)), andb_false_r by lia.
  - rewrite Z.land_spec, Z.shiftr_spec by lia. by replace (i - 12 + 12) with i by lia.
Qed.

Lemma type_byte_spec bytes d :
  zlen bytes = 512 -> dinode_parse bytes = Ok d ->
  type_byte bytes = if dinode_is_symlink d then 0xA0 else if dinode_is_dir d then 0x04 else if dinode_is_regular d then 0x08 else 0x00.
Proof.
  intros Hz Hd. destruct (dinode_parse_fields bytes d Hz Hd) as (_ & _ & _ & Hm & _).
  unfold type_byte, dinode_is_symlink, dinode_is_dir, dinode_is_regular, dinode_mode. rewrite Hm, read_u32_spec by (apply length_zslice; lia).
  set (m := le_val (zslice bytes 52 56)). rewrite land_type. change (2 ^ 12) with 4096.
  pose proof (Z.mod_pos_bound (m / 4096) 16 ltac:(lia)) as Hb. set (t := (m / 4096) mod 16) in *.
  repeat (destruct (Z.eqb_spec _ _); [by replace t with 10 by lia || by replace t with 4 by lia || by replace t with 8 by lia|]).
  destruct t as [|p|p]; [done| |lia]. do 4 (destruct p as [p|p|]; try done; try lia).
Qed.

Lemma quiet_missing n (v : Volume W) ino :
  vol_ok n v -> inode_bytes v ino = None -> exists v', vol_inode_read ino v = (Err inode_not_found, v') /\ read_only_step v v'.
Proof.
  intros Hv Hi. destruct (find_inode_page_spec (table_view v) ino (v_storage v) (ok_wf n v Hv) (vol_table_ok n v Hv)) as (w1 & Hfind & Hw1 & Hc1).
  unfold inode_bytes, slot_at in Hi. destruct (List.find _ _); [done|]. exists (v_with_dev w1 v). split; [|by exists w1].
  unfold vol_inode_read, on_storage, inode_read, sbind. by rewrite Hfind.
Qed.

Lemma infer_file_type_run {E} n (f : FuseFs W) ino :
  vol_ok n (f_volume f) -> exists v', infer_file_type (E := E) ino f = (Ok (type_of (f_volume f) ino), f_with_volume v' f) /\ read_only_step (f_volume f) v'.
Proof.
  intros Hv. unfold type_of, infer_file_type, sbind, attempt, read_inode, or_errno, on_volume. destruct (inode_bytes (f_volume f) ino) as [old|] eqn:Ei.
  - destruct (inode_bytes_some n _ ino old Hv Ei) as (_ & _ & _ & _ & _ & _ & _ & Hz). destruct (dinode_parse_bytes old Hz) as (d & Hd & _).
    destruct (quiet_read n _ ino old d Hv Ei Hd) as (b & off & v' & Hr & Hs). exists v'. split; [|done]. by rewrite Hr, (type_byte_spec old d).
  - destruct (quiet_missing n _ ino Hv Ei) as (v' & Hr & Hs). exists v'. split; [|done]. by rewrite Hr.
Qed.

Lemma type_of_step n (v v' : Volume W) ino : vol_ok n v -> read_only_step v v' -> type_of v' ino = type_of v ino.
Proof. intros Hv Hs. destruct (read_only_ok n v v' Hv Hs) as [_ Hb]. unfold type_of. by rewrite Hb. Qed.

(** The entries of a listing whose first has the cookie [c]. *)
Definition listing (v : Volume W) (c : Z) (es : list DirEntry) : list Listed :=
  imap (fun i e => (name_str e, de_inumber e, type_of v (de_inumber e), c + Z.of_nat i)) es.

Lemma listing_cons v c e es : listing v c (e :: es) = (name_str e, de_inumber e, type_of v (de_inumber e), c) :: listing v (c + 1) es.
Proof. unfold listing. rewrite imap_cons. rewrite Z.add_0_r. f_equal. apply imap_ext. intros i x _. unfold compose. by replace (c + Z.of_nat (S i)) with (c + 1 + Z.of_nat i) by lia. Qed.

Lemma listing_step n (v v' : Volume W) c es : vol_ok n v -> read_only_step v v' -> listing v' c es = listing v c es.
Proof. intros Hv Hs. unfold listing. apply imap_ext. intros i x _. cbn. by rewrite (type_of_step n v v'). Qed.

Lemma list_entries_run {E} n s es : forall idx (f : FuseFs W),
  vol_ok n (f_volume f) -> ENTRY_BASE + s + idx + zlen es <= 2 ^ 64 ->
  exists v', list_entries (E := E) s idx es f = (Ok (listing (f_volume f) (ENTRY_BASE + s + idx) es), f_with_volume v' f) /\ read_only_step (f_volume f) v'.
Proof.
  induction es as [|e es IH]; intros idx f Hv Hb; cbn [list_entries].
  { exists (f_volume f). split; [by destruct f|]. exists (v_storage (f_volume f)). split; [by destruct (f_volume f)|]. split; [apply (ok_wf n _ Hv)|done]. }
  rewrite zlen_cons in Hb. pose proof (zlen_nonneg es). destruct (infer_file_type_run (E := E) n f (de_inumber e) Hv) as (v1 & Hr1 & Hs1). rewrite (sbind_ok _ _ _ _ _ Hr1).
  unfold sbind at 1, slift. rewrite add_u64_ok by lia. destruct (read_only_ok n _ v1 Hv Hs1) as [Hv1 _].
  destruct (IH (idx + 1) (f_with_volume v1 f) Hv1 ltac:(lia)) as (v2 & Hr2 & Hs2). rewrite (sbind_ok _ _ _ _ _ Hr2). exists v2. split; [|by eapply read_only_trans].
  cbn [f_volume f_with_volume]. rewrite (listing_step n (f_volume f) v1) by done. rewrite listing_cons, Z.add_assoc. done.
Qed.

(** A directory of the volume. *)
Record dir_at (v : Volume W) (ino : Z) (d : Dinode) (es : list DirEntry) : Prop := {
  da_old : exists old, inode_bytes v ino = Some old /\ dinode_parse old = Ok d;
  da_dir : dinode_is_dir d = true;
  da_tree : exists t, dt_from_inode_data (dinode_dtroot_bytes d) = Ok t /\ dt_entries t = Ok es;
  da_few : zlen es < 2 ^ 32 }.

Lemma readdir_run n (f : FuseFs W) ino offset d es :
  vol_ok n (f_volume f) -> dir_at (f_volume f) ino d es -> 0 <= offset < 2 ^ 63 ->
  exists v' b off, fuse_readdir ino offset f =
    (Ok (listed_dots ino (mkInode d ino b off) (cursor_from_offset offset) ++
         listing (f_volume f) (Z.max ENTRY_BASE offset) (drop (Z.to_nat (offset - ENTRY_BASE)) es)), f_with_volume v' f) /\ read_only_step (f_volume f) v'.
Proof.
  intros Hv [(old & Hi & Hd) Hdir (t & Ht & Hes) Hfew] Ho. destruct (read_inode_run tt n f ino old d Hv Hi Hd) as (b & off & v1 & Hr1 & Hs1).
  destruct (read_only_ok n _ v1 Hv Hs1) as [Hv1 _]. set (s := default 0 (entry_index (cursor_from_offset offset))).
  assert (Hs : s = Z.max 0 (offset - ENTRY_BASE)).
  { unfold s, entry_index, cursor_from_offset, ENTRY_BASE. cbn [cur_offset]. destruct (Z.ltb_spec offset 2); cbn; lia. }
  assert (Hdrop : drop (Z.to_nat s) es = drop (Z.to_nat (offset - ENTRY_BASE)) es) by (f_equal; lia).
  destruct (list_entries_run (E := unit) n s (drop (Z.to_nat s) es) 0 (f_with_volume v1 f) Hv1) as (v2 & Hr2 & Hs2).
  { pose proof (length_drop es (Z.to_nat s)). unfold zlen, ENTRY_BASE in *. lia. }
  exists v2, b, off. split; [|by eapply read_only_trans]. unfold fuse_readdir. rewrite (sbind_ok _ _ _ _ _ Hr1). cbn [in_dinode]. rewrite Hdir. cbn [negb]. cbn zeta. fold s.
  unfold sbind at 1, slift, tree_entries. cbn [in_dinode]. rewrite Ht, Hes. cbn [default from_option id]. rewrite (sbind_ok _ _ _ _ _ Hr2).
  unfold sret. rewrite Hdrop. cbn [f_volume f_with_volume]. rewrite (listing_step n (f_volume f) v1) by done. do 4 f_equal. unfold ENTRY_BASE in *. lia.
Qed.

(** The entries in front of those of the tree: both below offset 2, and none
    from there on. The parent is the number in the header of the tree, bytes
    244 to 247 of the inode. *)
Definition dots_at (ino : Z) (old : list byte) (offset : Z) : list Listed :=
  if decide (offset < 2) then [([46], ino, 4, 0); ([46; 46], le_val (zslice old 244 248), 4, 1)] else [].

Lemma listed_dots_spec ino old d b off offset :
  zlen old = 512 -> dinode_parse old = Ok d -> listed_dots ino (mkInode d ino b off) (cursor_from_offset offset) = dots_at ino old offset.
Proof.
  intros Hz Hd. destruct (dinode_parse_fields old d Hz Hd) as (_ & _ & _ & _ & _ & _ & Hu).
  unfold listed_dots, dotdot_ino, dots_at, cursor_is_entry, cursor_from_offset, DOTDOT_OFFSET, ENTRY_BASE, DOT_OFFSET. cbn [in_dinode cur_offset].
  unfold dinode_dtroot_bytes. rewrite Hu. rewrite !zslice_zslice by lia. rewrite zlen_zslice by lia.
  destruct (Z.leb_spec 2 offset), (Z.leb_spec offset 1), (decide (offset < 2)); done || lia.
Qed.

(** C25: on a quiet volume [readdir] from an offset returns a list of entries.
    Below offset 2 it begins with [.] (cookie 0) and [..] (cookie 1), so that
    at offset 1 [.] comes again; from offset 2 on there are neither. Then come
    the entries stored in the directory, in order, from the one with index
    [offset - 2] on (the first below offset 2), each with its name, inode,
    the type byte of that inode (160 for a symbolic link, 4 for a directory, 8
    for a regular file), and as cookie its own position, the offset at which a
    listing begins with it. *)
Theorem readdir_correct n (f : FuseFs W) ino offset old d es
  (Hv : vol_ok n (f_volume f)) (Hi : inode_bytes (f_volume f) ino = Some old) (Hd : dir_at (f_volume f) ino d es) (Ho : 0 <= offset < 2 ^ 63) :
  exists v', fuse_readdir ino offset f =
    (Ok (dots_at ino old offset ++
         imap (fun i e => (name_str e, de_inumber e, type_of (f_volume f) (de_inumber e), Z.max 2 offset + Z.of_nat i)) (drop (Z.to_nat (offset - 2)) es)),
     f_with_volume v' f) /\ read_only_step (f_volume f) v'.
Proof.
  destruct (readdir_run n f ino offset d es Hv Hd Ho) as (v' & b & off & Hr & Hs). exists v'. split; [|done].
  destruct Hd as [(old' & Hi' & Hd) _ _ _]. rewrite Hi in Hi'. injection Hi' as <-.
  destruct (inode_bytes_some n _ ino old Hv Hi) as (_ & _ & _ & _ & _ & _ & _ & Hz). by rewrite Hr, (listed_dots_spec ino old).
Qed.

Lemma lookup_listing v c es j x : listing v c es !! j = Some x -> exists e, es !! j = Some e /\ x = (name_str e, de_inumber e, type_of v (de_inumber e), c + Z.of_nat j).
Proof. unfold listing. rewrite list_lookup_imap. destruct (es !! j) as [e|]; [|done]. intros [= <-]. by exists e. Qed.

(** A reader that goes on from the last cookie it got reads the last entry
    again: the cookie of an entry is its own position and not the one after it,
    so the listing from the cookie of any listed entry begins with that entry,
    and a directory that is read to the end, as the kernel does, never ends. *)
Theorem readdir_repeats_entry n (f : FuseFs W) ino offset d es name child ty cookie
  (Hv : vol_ok n (f_volume f)) (Hd : dir_at (f_volume f) ino d es) (Ho : 0 <= offset < 2 ^ 32)
  (Hin : exists l, (fuse_readdir ino offset f).1 = Ok l /\ (name, child, ty, cookie) ∈ l) (Hc : ENTRY_BASE <= cookie) :
  exists rest, (fuse_readdir ino cookie f).1 = Ok ((name, child, ty, cookie) :: rest).
Proof.
  destruct (readdir_run n f ino offset d es Hv Hd ltac:(lia)) as (v' & b & off & Hr & _). destruct Hin as (l & Hl & Hin). rewrite Hr in Hl. injection Hl as <-.
  unfold ENTRY_BASE in *. apply elem_of_app in Hin as [Hin|Hin].
  { exfalso. unfold listed_dots in Hin. apply elem_of_app in Hin as [Hin|Hin].
    - destruct (cursor_is_entry _); [by apply not_elem_of_nil in Hin|]. apply list_elem_of_singleton in Hin. injection Hin as _ _ _ ->. unfold DOT_OFFSET in Hc. lia.
    - destruct (dotdot_ino _); [|by apply not_elem_of_nil in Hin]. destruct (_ <=? _); [|by apply not_elem_of_nil in Hin].
      apply list_elem_of_singleton in Hin. injection Hin as _ _ _ ->. unfold DOTDOT_OFFSET in Hc. lia. }
  apply list_elem_of_lookup in Hin as (j & Hj). apply lookup_listing in Hj as (e & He & Hx). injection Hx as -> -> -> ->. rewrite lookup_drop in He.
  pose proof (da_few _ _ _ _ Hd) as Hfew. pose proof (lookup_lt_Some _ _ _ He) as Hlt. unfold zlen in Hfew.
  destruct (readdir_run n f ino (Z.max 2 offset + Z.of_nat j) d es Hv Hd ltac:(lia)) as (v2 & b2 & off2 & Hr2 & _). rewrite Hr2. cbn [fst].
  replace (listed_dots _ _ _) with (@nil Listed).
  2: { unfold listed_dots, cursor_is_entry, cursor_from_offset, ENTRY_BASE, DOTDOT_OFFSET. cbn [cur_offset in_dinode].
       destruct (Z.leb_spec 2 (Z.max 2 offset + Z.of_nat j)); [|lia]. destruct (dotdot_ino _); [|done]. by destruct (Z.leb_spec (Z.max 2 offset + Z.of_nat j) 1); [lia|]. }
  cbn [app]. unfold ENTRY_BASE. rewrite (drop_S es e).
  2: { rewrite <- He. f_equal. lia. }
  rewrite listing_cons, Z.max_r by lia. by eexists.
Qed.

Lemma list_interruptible_run n s es : forall i polls (f : FuseFs W),
  vol_ok n (f_volume f) -> 0 <= i -> 0 <= s -> ENTRY_BASE + s + i + zlen es <= 2 ^ 64 ->
  exists v', list_interruptible (fun _ => false) polls s i es f =
    (Ok (listing (f_volume f) (ENTRY_BASE + s + Z.max s i) (drop (Z.to_nat (s - i)) es)), f_with_volume v' f) /\ read_only_step (f_volume f) v'.
Proof.
  induction es as [|e es IH]; intros i polls f Hv Hi H0 Hb; cbn [list_interruptible].
  { exists (f_volume f). rewrite drop_nil. split; [by destruct f|]. exists (v_storage (f_volume f)). split; [by destruct (f_volume f)|]. split; [apply (ok_wf n _ Hv)|done]. }
  rewrite zlen_cons in Hb. pose proof (zlen_nonneg es). destruct (Z.ltb_spec i s) as [Hlt|Hge].
  - destruct (IH (i + 1) polls f Hv ltac:(lia) H0 ltac:(lia)) as (v' & Hr & Hs). exists v'. split; [|done]. rewrite Hr.
    replace (Z.to_nat (s - i)) with (S (Z.to_nat (s - (i + 1)))) by lia. cbn [drop]. by replace (Z.max s (i + 1)) with (Z.max s i) by lia.
  - destruct (infer_file_type_run (E := Z) n f (de_inumber e) Hv) as (v1 & Hr1 & Hs1). rewrite (sbind_ok _ _ _ _ _ Hr1).
    unfold sbind at 1, slift. rewrite add_u64_ok by lia. destruct (read_only_ok n _ v1 Hv Hs1) as [Hv1 _].
    destruct (IH (i + 1) (S polls) (f_with_volume v1 f) Hv1 ltac:(lia) H0 ltac:(lia)) as (v2 & Hr2 & Hs2). rewrite (sbind_ok _ _ _ _ _ Hr2). exists v2. split; [|by eapply read_only_trans].
    cbn [f_volume f_with_volume]. rewrite (listing_step n (f_volume f) v1) by done. replace (Z.to_nat (s - i)) with 0%nat by lia. replace (Z.to_nat (s - (i + 1))) with 0%nat by lia.
    cbn [drop]. rewrite listing_cons, !Z.max_r by lia. by rewrite Z.add_assoc.
Qed.

(** The listing of the handlers numbers resumed entries wrongly: resumed at the
    offset of entry [s] it returns the entries that [readdir] returns, but every
    cookie is [s] too large, so that going on from one of them skips entries. *)
Theorem readdir_interruptible_shifts n (f : FuseFs W) ino s d es
  (Hv : vol_ok n (f_volume f)) (Hd : dir_at (f_volume f) ino d es) (Hs : 0 <= s < 2 ^ 32) :
  (fuse_readdir ino (ENTRY_BASE + s) f).1 = Ok (listing (f_volume f) (ENTRY_BASE + s) (drop (Z.to_nat s) es)) /\
  (readdir_interruptible ino (ENTRY_BASE + s) (fun _ => false) f).1 = Ok (listing (f_volume f) (ENTRY_BASE + s + s) (drop (Z.to_nat s) es)).
Proof.
  assert (Hdots : forall b off, listed_dots ino (mkInode d ino b off) (cursor_from_offset (ENTRY_BASE + s)) = []).
  { intros b off. unfold listed_dots, cursor_is_entry, cursor_from_offset, ENTRY_BASE, DOTDOT_OFFSET. cbn [cur_offset in_dinode].
    destruct (Z.leb_spec 2 (2 + s)); [|lia]. destruct (dotdot_ino _); [|done]. by destruct (Z.leb_spec (2 + s) 1); [lia|]. }
  split.
  - destruct (readdir_run n f ino (ENTRY_BASE + s) d es Hv Hd) as (v' & b & off & Hr & _); [unfold ENTRY_BASE; lia|]. rewrite Hr, Hdots. cbn [fst app].
    rewrite Z.add_simpl_l, Z.max_r by lia. done.
  - destruct Hd as [(old & Hi & Hd) Hdir (t & Ht & Hes) Hfew]. destruct (read_inode_run ENOENT n f ino old d Hv Hi Hd) as (b & off & v1 & Hr1 & Hs1).
    destruct (read_only_ok n _ v1 Hv Hs1) as [Hv1 _].
    destruct (list_interruptible_run n s es 0 0 (f_with_volume v1 f) Hv1 ltac:(lia) ltac:(lia)) as (v2 & Hr2 & _); [unfold ENTRY_BASE; lia|].
    unfold readdir_interruptible. rewrite (sbind_ok _ _ _ _ _ Hr1). cbn [in_dinode]. rewrite Hdir. cbn [negb]. cbn zeta.
    unfold sbind at 1, slift, tree_entries. cbn [in_dinode]. rewrite Ht, Hes. cbn [default from_option id].
    replace (if cursor_is_entry _ then _ else _) with s.
    2: { unfold cursor_is_entry, entry_index, cursor_from_offset, ENTRY_BASE. cbn [cur_offset]. destruct (Z.leb_spec 2 (2 + s)); [|lia]. destruct (Z.ltb_spec (2 + s) 2); cbn; lia. }
    rewrite (sbind_ok _ _ _ _ _ Hr2), Hdots. cbn [fst app f_volume f_with_volume]. unfold sret. cbn [fst]. rewrite (listing_step n (f_volume f) v1), Z.max_l, Z.sub_0_r by (done || lia). done.
Qed.
End walk.
