(* ===== verification/FuseCopy.v ===== *)
(** * How much a write or a copy transfers

    Bounds on the results of the writing loops, for any state and any failures of
    the device, and with them the termination of [copy_file_range]. *)

From stdpp Require Import gmap.
From Stdlib Require Import ZArith Lia.
From S2P Require Import Types Utf Storage PageCache Inode Xtree Dtree Volume VolumeData VolumeDir Xattr Interrupt FuseAbi FuseLocks Fuse FuseFiles FuseServer FuseState Prelude.

Section written.
Context {LE : LittleEndian} {L : Lru PageKey CachedPage} {HO : HashOrder} {XF : XadFlags} {W : Type} {FS : Storage W}.
Abbreviation VM := (ST (Volume W) StorageError).
Context (check : nat -> bool) (data : list byte).

(** What is written and what remains are the data; the offset is inside a block. *)
Definition progress (st : WriteState) : Prop :=
  0 <= ws_written st /\ 0 <= ws_remaining st /\ ws_written st + ws_remaining st = zlen data /\ 0 <= ws_boff st <= BLOCK_SIZE.

Lemma progress_advance st n : progress st -> 0 <= n <= ws_remaining st -> progress (ws_advance n st).
Proof. intros (H1 & H2 & H3 & H4) Hn. unfold progress, ws_advance, BLOCK_SIZE, PSIZE in *. cbn. lia. Qed.

Lemma progress_block st : progress st -> 0 <= Z.min (BLOCK_SIZE - ws_boff st) (ws_remaining st) <= ws_remaining st.
Proof. intros (H1 & H2 & H3 & H4). lia. Qed.

Lemma checked_progress st : progress st -> post progress (checked check (W := W) st).
Proof. intros Hp. apply post_if; [apply post_fail|by apply post_ret]. Qed.

Lemma write_new_progress addr blks : forall st, progress st -> post progress (write_new check data (FS := FS) addr blks st).
Proof.
  induction blks as [|blk blks IH]; intros st Hp; cbn [write_new]; [by apply post_ret|].
  eapply post_seq; [by apply checked_progress|]. intros st1 Hp1. apply post_if; [by apply post_ret|]. cbn zeta.
  apply post_bind. intros d. apply post_bind. intros _. apply IH, progress_advance; [done|by apply progress_block].
Qed.

Lemma write_existing_progress addr blks : forall st, progress st -> post progress (write_existing check data (FS := FS) addr blks st).
Proof.
  induction blks as [|blk blks IH]; intros st Hp; cbn [write_existing]; [by apply post_ret|].
  eapply post_seq; [by apply checked_progress|]. intros st1 Hp1. apply post_if; [by apply post_ret|]. apply post_bind. intros d0. cbn zeta.
  apply post_bind. intros part. apply post_bind. intros d. apply post_bind. intros _. apply IH, progress_advance; [done|by apply progress_block].
Qed.

Lemma write_mapped_progress addr count st : progress st -> post progress (write_mapped check data (FS := FS) addr count st).
Proof. intros Hp. eapply post_seq; [by apply write_existing_progress|]. intros st1 Hp1. by apply post_ret. Qed.

Lemma write_run_progress run st : progress st -> post progress (write_run check data (FS := FS) run st).
Proof.
  intros Hp. destruct run as [addr count]. cbn [write_run]. apply post_if; [|by apply write_mapped_progress]. apply post_bind. intros [pxd|].
  - unfold write_hole. eapply post_seq; [by apply write_new_progress|]. intros st1 Hp1. apply post_bind. intros [ins xt]. apply post_ret.
    destruct Hp1 as (H1 & H2 & H3 & _), Hp as (_ & _ & _ & H4). done.
  - apply (post_seq (fun room => 0 <= room)); [apply post_lift; intros room; unfold sub_u64; destruct (Z.leb_spec (ws_boff st) (count * BLOCK_SIZE)); [|done]; intros [= <-]; lia|].
    intros room Hr. apply write_mapped_progress, progress_advance; [done|]. destruct Hp. lia.
Qed.

Lemma write_runs_progress extents : forall st, progress st -> post progress (write_runs check data (FS := FS) extents st).
Proof.
  induction extents as [|run extents IH]; intros st Hp; cbn [write_runs]; [by apply post_ret|].
  eapply post_seq; [by apply checked_progress|]. intros st1 Hp1. apply post_if; [by apply post_ret|].
  eapply post_seq; [by apply write_run_progress|]. intros st2. apply IH.
Qed.

(** A write reports at most the bytes it was given. *)
Lemma write_at_bounds ino offset : post (fun n => 0 <= n <= zlen data) (write_at_with_interrupt check data (FS := FS) ino offset).
Proof.
  unfold write_at_with_interrupt. apply post_bind. intros _. apply post_bind. intros inode. cbn zeta. apply post_bind. intros xt. apply post_bind. intros extents.
  apply (post_seq progress).
  { apply write_runs_progress. pose proof (zlen_nonneg data). pose proof (Z.mod_pos_bound offset BLOCK_SIZE ltac:(done)). unfold progress, BLOCK_SIZE, PSIZE in *. cbn. lia. }
  intros st Hp. eapply post_seq; [by apply checked_progress|]. intros st1 (H1 & H2 & H3 & _). do 5 (apply post_bind; intros ?).
  intros v n v'. destruct (vol_commit_transaction v) as [[res|e|] v1]; [|unfold abort_with; intros (? & ? & _ & H)%sbind_inv; discriminate H|discriminate]. intros [= <- _]. lia.
Qed.
End written.

Section copy.
Context {LE : LittleEndian} {L : Lru PageKey CachedPage} {HO : HashOrder} {XF : XadFlags} {W : Type} {FS : Storage W}.
Abbreviation FM := (ST (FuseFs W)).

Lemma post_on_volume {E A} (Q : A -> Prop) err (m : ST (Volume W) StorageError A) : post Q m -> post Q (on_volume (E := E) err m).
Proof. intros Hm f a f'. unfold on_volume. destruct (m (f_volume f)) as [[x|e|] v] eqn:Ev; intros H; simplify_eq. by eapply Hm. Qed.
Lemma post_if_writable {E A} (Q : A -> Prop) (e : E) (m : FM E A) : post Q m -> post Q (if_writable e m).
Proof. intros Hm f a f'. unfold if_writable. destruct (f_writable f); [apply Hm|done]. Qed.
Lemma post_attempt {S E E' A} (Q : A -> Prop) (m : ST S E A) : post Q m -> post (fun x => match x with inl a => Q a | inr _ => True end) (attempt (E' := E') m).
Proof. intros Hm s x s'. unfold attempt. destruct (m s) as [[a|e|] s1] eqn:Em; intros H; simplify_eq; [by eapply Hm|done]. Qed.

(** A read returns at most what was asked for. *)
Lemma read_data_bound {D} `{Storage D} fb check offset len r : 0 <= len -> post (fun l => zlen l <= len) (read_data_checked fb check (D := D) offset len r).
Proof.
  intros Hl. unfold read_data_checked. cbn zeta. do 4 (apply post_bind; intros ?). apply post_ret. unfold zlen. rewrite length_take. lia.
Qed.

Lemma fuse_read_bound ino offset len : 0 <= len -> post (fun l => zlen l <= len) (fuse_read (FS := FS) ino offset len).
Proof.
  intros Hl. unfold fuse_read. apply post_bind. intros inode. cbn zeta. destruct (Z.leb_spec (dinode_size_val (in_dinode inode)) offset).
  - apply post_ret. done.
  - apply post_bind. intros xt. apply post_on_volume. intros v a v'. unfold on_storage. destruct (read_data _ _ _ _ _) as [o w] eqn:Er. intros [= -> _].
    apply read_data_bound in Er; lia.
Qed.

Lemma copy_through_bound si cs di cd chunk : 0 <= chunk -> post (fun n => 0 <= n <= chunk) (copy_through (FS := FS) si cs di cd chunk).
Proof.
  intros Hc. unfold copy_through. eapply post_seq; [apply post_attempt, fuse_read_bound, Hc|]. intros [d|[]] Hd; [|apply post_fail].
  apply (post_seq (fun x => match x with inl n => 0 <= n <= zlen d | inr _ => True end)).
  - apply post_attempt, post_if_writable, post_on_volume, write_at_bounds.
  - intros [n|u] Hn; apply post_ret; lia.
Qed.

Lemma copy_extent_bound si so di do_ len : 0 <= len -> post (fun x => match x with Some n => n = len | None => True end) (copy_file_range_extent (FS := FS) si so di do_ len).
Proof.
  intros Hl. unfold copy_file_range_extent. cbn zeta. apply post_if; [by apply post_ret|]. do 4 (apply post_bind; intros ?). destruct a2 as [taken sx].
  apply post_if; [apply post_bind; intros ?; by apply post_ret|]. do 6 (apply post_bind; intros ?). destruct a7 as [freed dx].
  do 2 (apply post_bind; intros ?). destruct a8 as [dx'|]; [|apply post_bind; intros ?; by apply post_ret].
  do 3 (apply post_bind; intros ?). unfold finish. do 2 (apply post_bind; intros ?). by apply post_ret.
Qed.

Lemma copy_chunk_bound mv si cs di cd chunk : 0 <= chunk -> post (fun n => 0 <= n <= chunk) (copy_chunk (FS := FS) mv si cs di cd chunk).
Proof.
  intros Hc. unfold copy_chunk. apply post_if; [|by apply copy_through_bound].
  eapply post_seq; [apply post_attempt, post_on_volume, copy_extent_bound, Hc|].
  assert (Hfall : post (fun n => 0 <= n <= chunk) (let* written := copy_through (FS := FS) si cs di cd chunk in
    let* _ := if (0 <? written) && mv then let* _ := attempt (or_errno EIO (fallocate si cs written FALLOC_FL_PUNCH_KEEP)) in sret tt else sret tt in sret written)).
  { eapply post_seq; [by apply copy_through_bound|]. intros n Hn. apply post_bind. intros _. by apply post_ret. }
  intros [[n|]|e] Hn; [|exact Hfall..]. apply post_ret. lia.
Qed.

(** A unit of fuel per byte that is left, and one more, is enough. *)
Lemma copy_loop_fuel mv si di len : forall fuel fuel' cs cd total f,
  0 <= total -> (Z.to_nat (len - total) < fuel)%nat -> (Z.to_nat (len - total) < fuel')%nat ->
  copy_loop (FS := FS) fuel mv si cs di cd len total f = copy_loop fuel' mv si cs di cd len total f.
Proof.
  induction fuel as [|fuel IH]; intros fuel' cs cd total f H0 Hf Hf'; [lia|]. destruct fuel' as [|fuel']; [lia|]. cbn [copy_loop].
  destruct (Z.ltb_spec total len) as [Hlt|]; [|done]. unfold sbind at 1 5.
  destruct (copy_chunk mv si cs di cd (Z.min (len - total) CHUNK_SIZE) f) as [[n|e|] f1] eqn:Ec; [|done..].
  apply copy_chunk_bound in Ec; [|unfold CHUNK_SIZE; lia]. destruct (Z.eqb_spec n 0); [done|]. unfold sbind, slift, add_u64.
  destruct (_ <? _); [|done]. destruct (_ <? _); [|done]. destruct (_ <? _); [|done]. apply IH; lia.
Qed.

Lemma copy_loop_bound mv si di len : forall fuel cs cd total, 0 <= total <= len -> post (fun n => total <= n <= len) (copy_loop (FS := FS) fuel mv si cs di cd len total).
Proof.
  induction fuel as [|fuel IH]; intros cs cd total H0; cbn [copy_loop]; [by intros ? ? ?|].
  destruct (Z.ltb_spec total len) as [Hlt|]; [|apply post_ret; lia]. eapply post_seq; [apply copy_chunk_bound; unfold CHUNK_SIZE; lia|].
  intros n Hn. cbn beta in Hn. destruct (Z.eqb_spec n 0); [apply post_ret; lia|].
  apply (post_seq (fun t => t = total + n)); [apply post_lift; intros t; unfold add_u64; destruct (_ <? _); [by intros [= <-]|done]|]. intros t ->.
  apply post_bind. intros cs'. apply post_bind. intros cd' f' a f'' Ha. apply IH in Ha; lia.
Qed.

(** C37: [copy_file_range] terminates and never reports more than it was asked for:
    for every state, device and flags, its loop gives the same result with any
    fuel above the number of bytes asked for (so it never ends by lack of fuel),
    and a success is at least one byte and at most [len]. *)
Theorem copy_file_range_bounded (f : FuseFs W) src_ino src_offset dst_ino dst_offset len flags (Hl : 0 <= len) :
  (forall fuel mv, (Z.to_nat len < fuel)%nat ->
     copy_loop (FS := FS) fuel mv src_ino src_offset dst_ino dst_offset len 0 f = copy_loop (S (Z.to_nat len)) mv src_ino src_offset dst_ino dst_offset len 0 f) /\
  forall n f', fuse_copy_file_range (FS := FS) src_ino src_offset dst_ino dst_offset len flags f = (Ok n, f') -> 0 < n <= len.
Proof.
  split; [intros fuel mv Hf; apply copy_loop_fuel; lia|]. intros n f' H.
  assert (Hp : post (fun n => 0 < n <= len) (fuse_copy_file_range (FS := FS) src_ino src_offset dst_ino dst_offset len flags)); [|by eapply Hp].
  apply post_if_writable, post_if; [apply post_fail|]. cbn zeta. eapply post_seq; [apply copy_loop_bound; lia|]. intros t Ht. cbn beta in Ht.
  destruct (Z.eqb_spec t 0); [apply post_fail|apply post_ret; lia].
Qed.
End copy.
