(* ===== verification/FuseWitness.v ===== *)
(** * Requests on small volumes

    The theorems on the FUSE server applied to the volumes of [Sample] and
    [FileData]: locks, handles, permissions, reading, writing, listing and
    seeking on concrete mounts. *)

From stdpp Require Import gmap.
From Stdlib Require Import ZArith Lia.
From S2P Require Import Types Utf Storage PageCache Devices Inode Xtree Dtree Volume VolumeData VolumeDir Xattr Check VolumeTx DinodeEdit InodeTable Sample Entries DirMake FileData Interrupt FuseAbi FuseLocks Fuse FuseFiles FuseServer FuseState FuseSession FuseCalls FuseWalk FuseCopy Prelude.

Section witnesses.
#[local] Existing Instance le_codec.
#[local] Existing Instance le_codec_spec.
#[local] Existing Instance sample_order.
#[local] Existing Instance sample_order_spec.
#[local] Existing Instance sample_flags.

(** A writable mount of the volume with the directory only. *)
Definition sample_mount : FuseFs MemoryStorage := enable_writable (fuse_new sample_volume).

Lemma with_result {S E A} (m : ST S E A) (s : S) (a : A) : (m s).1 = Ok a -> m s = (Ok a, (m s).2).
Proof. intros H. rewrite (surjective_pairing (m s)) at 1. by rewrite H. Qed.

(** ** Locks *)

Definition write_lock (start len : Z) : Flock := mkFlock F_WRLCK SEEK_SET start len 0.
Definition locked_mount : FuseFs MemoryStorage := (fuse_setlk 18 (write_lock 0 100) 1 sample_mount).2.

(** Owner 1 holds the bytes 0 to 99 and owner 2 asks for 50 to 59. *)
Lemma getlk_predicts_setlk_witness :
  (fuse_setlk 18 (write_lock 50 10) 2 (run_locks [LSetlk 18 (write_lock 0 100) 1] sample_mount)).1 = Err EAGAIN.
Proof.
  pose proof (getlk_predicts_setlk sample_volume [LSetlk 18 (write_lock 0 100) 1] 18 (write_lock 50 10) 2 (or_intror eq_refl)) as H.
  cbv zeta in H. unfold sample_mount.
  assert (Hg : (fuse_getlk 18 (write_lock 50 10) 2 (run_locks [LSetlk 18 (write_lock 0 100) 1] (enable_writable (fuse_new sample_volume)))).1 = Ok (mkFlock F_WRLCK SEEK_SET 0 100 1))
    by (vm_compute; reflexivity).
  rewrite Hg in H. exact H.
Defined.

Lemma locked_run : fuse_setlk 18 (write_lock 0 100) 1 sample_mount = (Ok tt, locked_mount).
Proof. apply (with_result (fuse_setlk 18 (write_lock 0 100) 1) sample_mount tt). vm_compute. reflexivity. Qed.

Lemma setlk_effect_witness : holds (default [] (f_locks locked_mount !! 18)) 1 99 F_WRLCK.
Proof.
  destruct (setlk_effect sample_mount 18 (write_lock 0 100) 1 locked_mount locked_run) as (_ & _ & H).
  change (l_type (write_lock 0 100) =? F_UNLCK) with false in H. destruct H as (size & start & end_ & Hr & H).
  assert (He : (start, end_) = (0, 100)) by (vm_compute in Hr; congruence). injection He as -> ->.
  apply H; [lia|reflexivity].
Defined.

Definition relocked_mount : FuseFs MemoryStorage := (fuse_setlk 18 (write_lock 10 10) 1 locked_mount).2.

(** Byte 0 is no longer locked after locking the bytes 10 to 19. *)
Lemma relock_drops_rest_witness : ~ holds (default [] (f_locks relocked_mount !! 18)) 1 0 F_WRLCK.
Proof.
  destruct (relock_drops_rest locked_mount 18 (write_lock 10 10) 1 relocked_mount (posix_new F_WRLCK 0 100 1)) as (size & start & end_ & Hr & H).
  - apply (with_result (fuse_setlk 18 (write_lock 10 10) 1) locked_mount tt). vm_compute. reflexivity.
  - discriminate.
  - assert (Hl : default [] (f_locks locked_mount !! 18) = [posix_new F_WRLCK 0 100 1]) by (vm_compute; reflexivity).
    rewrite Hl. intros k' Hk _. by apply list_elem_of_singleton in Hk.
  - intros size start end_ Hr. assert (He : (start, end_) = (10, 20)) by (vm_compute in Hr; congruence). injection He as -> ->. cbn. lia.
  - assert (He : (start, end_) = (10, 20)) by (vm_compute in Hr; congruence). injection He as -> ->. rewrite H. lia.
Defined.

(** ** Counts and handles *)

Lemma lookup_counts_refine_witness :
  exists f, run_nodes [NLookup 18; NLookup 18; NForget 18 1; NLookup 17; NBatchForget [(17, 1); (16, 3)]] (fuse_new sample_volume) = (Ok tt, f) /\ fuse_lookup_count 18 f = 1.
Proof.
  destruct (lookup_counts_refine sample_volume [NLookup 18; NLookup 18; NForget 18 1; NLookup 17; NBatchForget [(17, 1); (16, 3)]]) as (f & Hr & H).
  - reflexivity.
  - repeat constructor; discriminate.
  - exists f. split; [exact Hr|]. apply (H 18).
Defined.

Definition opened_once : FuseFs MemoryStorage := (serve (QOpendir 18) (fuse_new sample_volume)).2.

(** A handle that is issued after the first was released. *)
Lemma handles_never_reused_witness : issued_by (QOpendir 18) (serve_all [QReleasedir 18 1] opened_once) = Some 2 /\ 1 < 2.
Proof.
  assert (H : issued_by (QOpendir 18) (serve_all [QReleasedir 18 1] opened_once) = Some 2) by (vm_compute; reflexivity).
  split; [exact H|]. apply (handles_never_reused sample_volume [] [QReleasedir 18 1] (QOpendir 18) (QOpendir 18) 1 2); [vm_compute; reflexivity|exact H].
Defined.

Definition opened_mount : FuseFs MemoryStorage := (serve (QOpen 17) (fuse_new file_volume)).2.

(** Reading the file of five thousand bytes with the handle of [open]. *)
Lemma opened_handles_refused_witness :
  serve (QRead 7 (fun _ => false) 17 1 0 3) opened_mount = (Ok (Some (RError ENOTDIR)), opened_mount).
Proof.
  destruct (opened_handles_refused (fuse_new file_volume) opened_mount opened_mount 17 1 false) as (H & _).
  - apply (with_result (serve (QOpen 17)) (fuse_new file_volume) (Some (ROpened 1))). vm_compute. reflexivity.
  - reflexivity.
  - apply H.
Defined.

Lemma read_only_refuses_witness :
  rtc device_read (v_storage sample_volume) (v_storage (f_volume (serve (QGetattr 18) (fuse_new sample_volume)).2)) /\
  exists e, forall r, (serve (QMkdir 18 [Byte.x61] 0x1ed) (fuse_new sample_volume)).1 = Ok r -> r = Some (RError e).
Proof.
  split; [exact (proj1 (read_only_refuses (QGetattr 18) (fuse_new sample_volume) eq_refl eq_refl))|].
  destruct (read_only_refuses (QMkdir 18 [Byte.x61] 0x1ed) (fuse_new sample_volume) eq_refl eq_refl) as (_ & _ & H).
  assert (Hr : (serve (QMkdir 18 [Byte.x61] 0x1ed) (fuse_new sample_volume)).1 = Ok (Some (RError EROFS))) by (vm_compute; reflexivity).
  destruct (proj2 (H eq_refl) _ Hr) as (e & He). exists e. intros r Hr'. congruence.
Defined.

(** Inode 17 is a file without links. *)
Definition orphan_volume : Volume MemoryStorage := volume_on (mkMem (sample_root ++ sample_dinode 1 0x81a4 0 0 [] ++ zeros (Z.to_nat 3072)) 4096).

(** A [release] has no guard: on a mount that is not writable it clears the mode
    of the inode on the device. *)
Lemma release_writes_read_only :
  let f := fuse_new orphan_volume in
  f_writable f = false /\ (serve (QRelease 17 0 None false) f).1 = Ok (Some ROk) /\
  zslice (ms_data (v_storage (f_volume f))) 564 568 = [Byte.xa4; Byte.x81; Byte.x00; Byte.x00] /\
  zslice (ms_data (v_storage (f_volume (serve (QRelease 17 0 None false) f).2))) 564 568 = zeros 4.
Proof. vm_compute. split_and!; reflexivity. Qed.

(** ** Calls *)

(** The owner of the directory with mode 755 may write to it. *)
Lemma access_is_posix_witness : exists f', fuse_access 18 W_OK 0 5 (fuse_new sample_volume) = (Ok tt, f').
Proof.
  destruct (access_is_posix 100 (fuse_new sample_volume) 18 W_OK 0 5 sample_root sample_root_dinode (sample_ok 100) sample_inode) as (v' & H & _).
  - vm_compute. reflexivity.
  - assert (Hp : permitted W_OK 0 5 sample_root_dinode = true) by (vm_compute; reflexivity). rewrite Hp in H. exact (ex_intro _ _ H).
Defined.

(** Three bytes across the two blocks of the file. *)
Lemma fuse_read_correct_witness : exists f', fuse_read 17 4095 3 (fuse_new file_volume) = (Ok [Byte.x41; Byte.x41; Byte.x41], f').
Proof.
  destruct (fuse_read_correct 100 (fuse_new file_volume) 17 4095 3 sample_file sample_file_dinode sample_file_tree [2; 3] (file_volume_ok 100) file_volume_file) as (v' & H & _).
  - lia.
  - lia.
  - assert (Hm : Z.min 3 (dinode_size_val sample_file_dinode - 4095) = 3) by (vm_compute; reflexivity). rewrite Hm. exact file_volume_range.
  - assert (He : (if dinode_size_val sample_file_dinode <=? 4095 then []
          else zslice (blocks_of file_volume [2; 3]) (4095 mod BLOCK_SIZE) (4095 mod BLOCK_SIZE + Z.min 3 (dinode_size_val sample_file_dinode - 4095)))
          = [Byte.x41; Byte.x41; Byte.x41]) by (vm_compute; reflexivity).
    cbn [fuse_new f_volume] in H. rewrite He in H. exact (ex_intro _ _ H).
Defined.

Definition file_mount : FuseFs MemoryStorage := enable_writable (fuse_new file_volume).

Lemma fuse_write_read_witness : exists v' f', fuse_write 17 4095 sample_bytes file_mount = (Ok 3, f_with_volume v' file_mount) /\
  fuse_read 17 4095 3 (f_with_volume v' file_mount) = (Ok sample_bytes, f').
Proof.
  destruct (fuse_write_read 100 file_mount 17 4095 sample_bytes sample_file sample_file_dinode sample_file_tree [2; 3] eq_refl (file_volume_ok 100) ltac:(lia) file_volume_file file_volume_range)
    as (v' & v'' & H1 & _ & H2).
  exists v', (f_with_volume v'' file_mount). exact (conj H1 H2).
Defined.

(** The directory [a] in the root. *)
Lemma mkdir_then_lookup_witness : exists attr gen f1 f2, srv_mkdir 18 [Byte.x61] 0x1ed sample_mount = (Ok (REntry TTL attr gen), f1) /\
  srv_lookup 18 [Byte.x61] f1 = (Ok (REntry TTL attr gen), f2).
Proof.
  assert (Hname : from_utf8_lossy [Byte.x61] = [97]) by (vm_compute; reflexivity).
  destruct (mkdir_then_lookup 100 sample_mount 18 [Byte.x61] 0x1ed sample_root sample_root_dinode sample_tree sample_entries 0 1 eq_refl (sample_ok 100))
    as (attr & gen & f1 & f2 & H1 & _ & _ & _ & H2 & _).
  - lia.
  - rewrite Hname. exact sample_can_create.
  - vm_compute. reflexivity.
  - vm_compute. reflexivity.
  - vm_compute. reflexivity.
  - rewrite Hname. discriminate.
  - rewrite Hname. discriminate.
  - reflexivity.
  - exists attr, gen, f1, f2. exact (conj H1 H2).
Defined.

(** ** Listing and seeking *)

Lemma sample_dir : dir_at sample_volume 18 sample_root_dinode sample_entries.
Proof.
  split.
  - exists sample_root. split; [exact sample_inode|vm_compute; reflexivity].
  - vm_compute. reflexivity.
  - exists sample_tree. split; vm_compute; reflexivity.
  - vm_compute. reflexivity.
Qed.

(** The stored [.] and [..] from the second entry on. *)
Lemma readdir_correct_witness :
  (fuse_readdir 18 3 (fuse_new sample_volume)).1 = Ok [(DOTDOT, 18, 4, 3)] /\
  (fuse_readdir 18 1 (fuse_new sample_volume)).1 = Ok [(DOT, 18, 4, 0); (DOTDOT, 18, 4, 1); (DOT, 18, 4, 2); (DOTDOT, 18, 4, 3)].
Proof.
  destruct (readdir_correct 100 (fuse_new sample_volume) 18 3 sample_root sample_root_dinode sample_entries (sample_ok 100) sample_inode sample_dir ltac:(lia)) as (v' & H & _).
  destruct (readdir_correct 100 (fuse_new sample_volume) 18 1 sample_root sample_root_dinode sample_entries (sample_ok 100) sample_inode sample_dir ltac:(lia)) as (v1 & H1 & _).
  rewrite H, H1. vm_compute. split; reflexivity.
Defined.

Lemma readdir_repeats_entry_witness : exists rest, (fuse_readdir 18 3 (fuse_new sample_volume)).1 = Ok ((DOTDOT, 18, 4, 3) :: rest).
Proof.
  apply (readdir_repeats_entry 100 (fuse_new sample_volume) 18 0 sample_root_dinode sample_entries DOTDOT 18 4 3 (sample_ok 100) sample_dir).
  - lia.
  - exists [(DOT, 18, 4, 0); (DOTDOT, 18, 4, 1); (DOT, 18, 4, 2); (DOTDOT, 18, 4, 3)].
    split; [vm_compute; reflexivity|]. do 3 apply list_elem_of_further. apply list_elem_of_here.
  - unfold ENTRY_BASE. lia.
Defined.

Lemma readdir_interruptible_shifts_witness : (readdir_interruptible 18 3 (fun _ => false) (fuse_new sample_volume)).1 = Ok [(DOTDOT, 18, 4, 4)].
Proof.
  destruct (readdir_interruptible_shifts 100 (fuse_new sample_volume) 18 1 sample_root_dinode sample_entries (sample_ok 100) sample_dir ltac:(lia)) as (_ & H).
  change (ENTRY_BASE + 1) with 3 in H. rewrite H. vm_compute. reflexivity.
Defined.

(** Inode 17 with 8192 bytes in two extents of one block each, the blocks 2 and 4. *)
Definition split_xtree : XtRoot :=
  match insert_extent 0 1 2 xtroot_default with
  | Ok (_, r) => match insert_extent 1 1 4 r with Ok (_, r') => r' | _ => r end
  | _ => xtroot_default
  end.
Definition split_file : list byte :=
  sample_dinode 1 0x81a4 1 8192 (zeros 96 ++ match xt_to_bytes split_xtree with Ok b => b | _ => [] end).
Definition split_volume : Volume MemoryStorage :=
  volume_on (mkMem (sample_root ++ split_file ++ zeros (Z.to_nat 3072) ++ replicate (Z.to_nat 16384) Byte.x41) 20480).
Definition split_dinode : Dinode := match dinode_parse split_file with Ok d => d | _ => dinode_default end.
Definition split_tree : XtRoot := match xt_from_inode_data (dinode_xtroot_bytes split_dinode) with Ok r => r | _ => xtroot_default end.

Lemma split_volume_ok n : vol_ok n split_volume.
Proof. apply volume_on_ok; [split|]; vm_compute; reflexivity || discriminate. Qed.

Lemma split_volume_file : file_at split_volume 17 split_file split_dinode split_tree.
Proof. split; vm_compute; reflexivity. Qed.

Lemma lseek_data_correct_witness : exists f', lseek_data_or_hole 17 5000 SEEK_DATA (fuse_new split_volume) = (Ok 5000, f').
Proof.
  destruct (lseek_data_correct 100 (fuse_new split_volume) 17 5000 split_file split_dinode split_tree (split_volume_ok 100) split_volume_file) as (v' & found & H & Hf & _).
  - vm_compute. split; [discriminate|reflexivity].
  - assert (Hr : (lseek_data_or_hole 17 5000 SEEK_DATA (fuse_new split_volume)).1 = Ok 5000) by (vm_compute; reflexivity).
    rewrite H in Hr. destruct found as [o|]; [|discriminate]. injection Hr as ->. exact (ex_intro _ _ H).
Defined.

Lemma lseek_hole_in_data_witness : exists f', lseek_data_or_hole 17 5 SEEK_HOLE (fuse_new split_volume) = (Ok 4096, f').
Proof.
  assert (Hl : (fun x => (xad_offset x, xad_length x)) <$> xt_slots split_tree = [(0, 1); (1, 1)]) by (vm_compute; reflexivity).
  destruct (xt_slots split_tree) as [|x [|y rest]] eqn:Hsl; [discriminate Hl..|]. injection Hl as Hx Hlx Hy Hly _.
  destruct (lseek_hole_in_data 100 (fuse_new split_volume) 17 5 split_file split_dinode split_tree x y rest (split_volume_ok 100) split_volume_file Hsl) as (v' & H & _).
  - rewrite Hx, Hlx, Hy. reflexivity.
  - rewrite Hly. lia.
  - rewrite Hx, Hy. unfold BLOCK_SIZE, PSIZE. lia.
  - rewrite Hy. vm_compute. reflexivity.
  - rewrite Hy in H. exact (ex_intro _ _ H).
Defined.

Lemma copy_file_range_bounded_witness : (fuse_copy_file_range 17 0 17 4096 100 0 file_mount).1 = Ok 100 /\
  forall n f', fuse_copy_file_range 17 0 17 4096 100 0 file_mount = (Ok n, f') -> 0 < n <= 100.
Proof.
  split; [vm_compute; reflexivity|]. apply (copy_file_range_bounded file_mount 17 0 17 4096 100 0). lia.
Defined.
End witnesses.
