(* ===== verification/Fresh.v ===== *)
(** * Formatted volumes

    What [build_filesystem] leaves on an empty device, block by block, and that
    mounting it gives a quiet volume ([vol_ok]) with an empty root directory: the
    state from which the theorems on the calls start. The codec is the concrete
    little-endian one, so that the blocks of the image are values. *)

From stdpp Require Import gmap.
From Stdlib Require Import ZArith Lia.
From S2P Require Import Types Storage PageCache Dmap Dtree LogMgr Devices Recovery Transaction Inode Geometry Volume VolumeData VolumeDir VolumeOps VolumeTx DinodeEdit InodeTable Entries Mkfs Prelude.

#[local] Existing Instance le_codec.
#[local] Existing Instance le_codec_spec.

(** ** The bits of an allocation page *)

(** A word of the persistent map of a page. *)
Definition pmap_word (page : list byte) (i : Z) : Z := read_u32 (zslice page (3072 + i * 4) (3072 + i * 4 + 4)).

(** The blocks that formatting leaves to the files. *)
Definition free_block (num_blocks blk : Z) : bool := (blk <? num_blocks) && negb (is_reserved blk).

Lemma set_free_bit_ok blk page :
  zlen page = 4096 -> 0 <= blk < 8192 ->
  exists page', set_free_bit blk page = Ok page' /\ zlen page' = 4096 /\
    forall i bit, 0 <= i < 256 -> 0 <= bit < 32 ->
      Z.testbit (pmap_word page' i) bit = Z.testbit (pmap_word page i) bit || (i * 32 + bit =? blk).
Proof.
  intros Hz Hb. pose proof (Z.div_mod blk 32 ltac:(lia)) as Hdm. pose proof (Z.mod_pos_bound blk 32 ltac:(lia)) as Hmod.
  assert (Hq : 0 <= blk / 32 < 256) by (split; [apply Z.div_pos; lia|apply Z.div_lt_upper_bound; lia]).
  unfold set_free_bit. rewrite slice_ok by lia. cbn [obind]. fold (pmap_word page (blk / 32)).
  set (word := Z.lor _ _). assert (Hw : 0 <= word < 2 ^ 32).
  { assert (Hp : 0 <= pmap_word page (blk / 32) < 2 ^ 32).
    { assert (Hl : length (zslice page (3072 + blk / 32 * 4) (3072 + blk / 32 * 4 + 4)) = 4%nat) by (rewrite length_zslice by lia; lia).
      unfold pmap_word. rewrite read_u32_spec by done. pose proof (le_val_range (zslice page (3072 + blk / 32 * 4) (3072 + blk / 32 * 4 + 4))) as Hr. by rewrite Hl in Hr. }
    split; [apply Z.lor_nonneg; split; [lia|apply Z.shiftl_nonneg; lia]|]. destruct (Z.eq_dec word 0) as [->|Hne]; [done|].
    apply Z.log2_lt_pow2; [assert (0 <= word) by (apply Z.lor_nonneg; split; [lia|apply Z.shiftl_nonneg; lia]); lia|].
    unfold word. rewrite Z.log2_lor by (try apply Z.shiftl_nonneg; lia). rewrite Z.shiftl_mul_pow2, Z.mul_1_l, Z.log2_pow2 by lia.
    apply Z.max_lub_lt; [|lia]. destruct (Z.eq_dec (pmap_word page (blk / 32)) 0) as [->|]; [done|]. apply Z.log2_lt_pow2; lia. }
  assert (Hlw : zlen (write_u32 word) = 4) by (unfold zlen; by rewrite length_write_u32).
  rewrite splice_ok by lia. eexists. split; [done|]. split; [rewrite zlen_zsplice; lia|].
  intros i bit Hi Hbit. unfold pmap_word at 1. destruct (decide (i = blk / 32)) as [->|Hne].
  - rewrite zslice_zsplice_same by lia. rewrite read_write_u32 by done. unfold word. rewrite Z.lor_spec, Z.shiftl_spec by lia. f_equal.
    destruct (Z.eqb_spec (blk / 32 * 32 + bit) blk) as [He|He].
    + replace (bit - blk mod 32) with 0 by lia. done.
    + destruct (decide (bit < blk mod 32)); [apply Z.testbit_neg_r; lia|]. apply (Z.pow2_bits_false 0). lia.
  - rewrite zslice_zsplice_disjoint by lia. fold (pmap_word page i). destruct (Z.eqb_spec (i * 32 + bit) blk) as [He|]; [|by rewrite orb_false_r].
    exfalso. apply Hne. rewrite <- He, Z.add_comm, Z.div_add, Z.div_small by lia. lia.
Qed.

Lemma fill_dmap_ok num_blocks start blks : forall page,
  zlen page = 4096 -> Forall (fun b => 0 <= b < 8192) blks ->
  exists page', fill_dmap num_blocks start blks page = Ok page' /\ zlen page' = 4096 /\
    forall i bit, 0 <= i < 256 -> 0 <= bit < 32 -> Z.testbit (pmap_word page' i) bit =
      Z.testbit (pmap_word page i) bit || bool_decide (i * 32 + bit ∈ blks) && free_block num_blocks (start + (i * 32 + bit)).
Proof.
  induction blks as [|blk blks IH]; intros page Hz Hb; cbn [fill_dmap].
  { exists page. split_and!; try done. intros i bit _ _. by rewrite bool_decide_false, andb_false_l, orb_false_r by apply not_elem_of_nil. }
  apply Forall_cons in Hb as [Hb0 Hb].
  assert (Hin : forall x, bool_decide (x ∈ blk :: blks) = (x =? blk) || bool_decide (x ∈ blks)).
  { intros x. destruct (Z.eqb_spec x blk) as [->|Hne]; [by rewrite bool_decide_true by apply list_elem_of_here|]. apply bool_decide_ext. rewrite elem_of_cons. naive_solver. }
  assert (Hfree : (num_blocks <=? start + blk) || is_reserved (start + blk) = negb (free_block num_blocks (start + blk))).
  { unfold free_block. rewrite negb_andb, negb_involutive. f_equal. apply Z.leb_antisym. }
  rewrite Hfree. destruct (free_block num_blocks (start + blk)) eqn:Hf; cbn [negb].
  - destruct (set_free_bit_ok blk page Hz Hb0) as (page1 & -> & Hz1 & Hbits). cbn [obind]. destruct (IH page1 Hz1 Hb) as (page' & -> & Hz' & Hbits').
    exists page'. split_and!; try done. intros i bit Hi Hbit. rewrite Hbits', Hbits, Hin by done. destruct (Z.eqb_spec (i * 32 + bit) blk) as [->|]; cbn [orb andb]; [|by rewrite orb_false_r].
    rewrite Hf. by rewrite orb_true_r.
  - destruct (IH page Hz Hb) as (page' & -> & Hz' & Hbits'). exists page'. split_and!; try done. intros i bit Hi Hbit. rewrite Hbits', Hin by done.
    destruct (Z.eqb_spec (i * 32 + bit) blk) as [->|]; cbn [orb andb]; [|done]. rewrite Hf. by rewrite andb_false_r.
Qed.

Lemma Ok_inj {A} (a b : A) : Ok a = Ok b :> outcome string A -> a = b.
Proof. by intros [= ->]. Qed.

(** ** The blocks of an image *)

(** A block after writes at the starts of blocks, on a device of zeros. *)
Definition painted (ws : list (Z * list byte)) (b : Z) : list byte :=
  fold_left (fun blk '(b0, d) => if b0 =? b then d ++ drop (length d) blk else blk) ws (zeros (Z.to_nat 4096)).

Definition page_of (r : result (list byte)) : list byte := match r with Ok p => p | _ => [] end.

Definition bmap_page : list byte := page_of (let! d := build_bmap_inode_bytes in inode_block 1 d).
Definition aggregate_page : list byte := page_of (let! d := build_aggregate_inode_bytes in inode_block 0 d).
Definition root_page : list byte := page_of (let! d := build_root_inode_bytes in inode_block 2 d).
Definition desc_page (num_blocks nfree : Z) : list byte :=
  zsplice (zsplice (zeros (Z.to_nat BLOCK_SIZE)) 0 (write_u64 num_blocks)) 8 (write_u64 nfree).

(** The writes of [build_filesystem], with the two allocation pages. *)
Definition image_writes (num_blocks : Z) (page0 page1 : list byte) : list (Z * list byte) :=
  [(8, sb_bytes (mkfs_super num_blocks)); (3841, ls_bytes mkfs_logsuper); (24, bmap_page); (26, aggregate_page); (28, root_page);
   (17, desc_page num_blocks (num_blocks - 283)); (18, page0); (19, page1); (24, bmap_page)].

Lemma block_at_partial (c d : list byte) b b' :
  0 <= b -> 0 <= b' -> zlen d <= 4096 -> b * BLOCK_SIZE + BLOCK_SIZE <= zlen c ->
  block_at (zsplice c (b * BLOCK_SIZE) d) b' = if b =? b' then d ++ drop (length d) (block_at c b') else block_at c b'.
Proof.
  intros Hb Hb' Hd Hr. pose proof (zlen_nonneg d). unfold block_at, BLOCK_SIZE, PSIZE in *. destruct (Z.eqb_spec b b') as [<-|Hne]; [|apply zslice_zsplice_disjoint; lia].
  rewrite <- (zslice_cat _ (b * 4096) (b * 4096 + zlen d)) by (rewrite ?zlen_zsplice; lia). rewrite zslice_zsplice_same by lia. f_equal.
  rewrite zslice_zsplice_disjoint by lia. unfold zslice. rewrite skipn_firstn_comm, drop_drop. unfold zlen in *. f_equal; [lia|]. f_equal. lia.
Qed.

Section image.
Context {W : Type} {FS : Storage W} {SS : StorageSpec W} {SR : StorageReliable W}.

(** The device holds what the writes leave. *)
Definition image (num_blocks : Z) (ws : list (Z * list byte)) (w : W) : Prop :=
  st_wf w /\ zlen (contents w) = num_blocks * BLOCK_SIZE /\ forall b, 0 <= b < num_blocks -> block_at (contents w) b = painted ws b.

Lemma image_write num_blocks ws b d (w : W) :
  image num_blocks ws w -> 0 <= b < num_blocks -> zlen d <= 4096 ->
  exists w', ignore (write_bytes (b * BLOCK_SIZE) d) w = (Ok tt, w') /\ image num_blocks (ws ++ [(b, d)]) w'.
Proof.
  intros (Hw & Hz & Hi) Hb Hd. pose proof (zlen_nonneg d). unfold BLOCK_SIZE, PSIZE in *.
  pose proof (st_write_bytes_ok (b * 4096) d w Hw ltac:(lia) ltac:(lia)) as Hok. destruct (st_write_bytes (b * 4096) d w Hw ltac:(lia)) as (Hw' & _ & Hc).
  destruct (write_bytes (b * 4096) d w) as [o w'] eqn:E. cbn [fst snd] in *. subst o. destruct (Hc eq_refl) as [_ Hc']. exists w'. split; [unfold ignore; by rewrite E|].
  split; [done|]. rewrite Hc'. split; [rewrite zlen_zsplice; unfold BLOCK_SIZE, PSIZE; lia|]. intros b' Hb'.
  change (b * 4096) with (b * BLOCK_SIZE). rewrite block_at_partial by (unfold BLOCK_SIZE, PSIZE; lia). rewrite Hi by done. unfold painted. rewrite fold_left_app. done.
Qed.

Lemma pages_size : zlen bmap_page = 4096 /\ zlen aggregate_page = 4096 /\ zlen root_page = 4096.
Proof. split_and!; vm_compute; reflexivity. Qed.

Lemma lift_run {A} (r : result A) a (w : W) : r = Ok a -> slift r w = (Ok a, w).
Proof. by intros ->. Qed.
Lemma bmap_built : (let! d := build_bmap_inode_bytes in inode_block 1 d) = Ok bmap_page.
Proof. vm_compute. reflexivity. Qed.
Lemma aggregate_built : (let! d := build_aggregate_inode_bytes in inode_block 0 d) = Ok aggregate_page.
Proof. vm_compute. reflexivity. Qed.
Lemma root_built : (let! d := build_root_inode_bytes in inode_block 2 d) = Ok root_page.
Proof. vm_compute. reflexivity. Qed.

(** The reserved extents have 283 blocks. *)
Lemma nfree_ok num_blocks : 283 <= num_blocks -> mkfs_nfree num_blocks reserved = Ok (num_blocks - 283).
Proof.
  intros Hn. unfold reserved, LOG_AREA_BLOCKS. cbn [mkfs_nfree]. repeat (rewrite sub_u64_ok by lia; cbn [obind]). f_equal. lia.
Qed.

Lemma desc_size num_blocks : 283 <= num_blocks < 2 ^ 52 -> zlen (desc_page num_blocks (num_blocks - 283)) = 4096.
Proof.
  intros Hn. assert (Hz : zlen (zeros (Z.to_nat BLOCK_SIZE)) = 4096) by (vm_compute; reflexivity).
  unfold desc_page. by rewrite !zlen_zsplice by (rewrite ?zlen_zsplice; rewrite ?zlen_write_u64 by lia; lia).
Qed.

Lemma desc_built num_blocks : 283 <= num_blocks < 2 ^ 52 ->
  (let! d := splice (zeros (Z.to_nat BLOCK_SIZE)) 0 (write_u64 num_blocks) in splice d 8 (write_u64 (num_blocks - 283))) = Ok (desc_page num_blocks (num_blocks - 283)) :> result (list byte).
Proof.
  intros Hn. assert (Hz : zlen (zeros (Z.to_nat BLOCK_SIZE)) = 4096) by (vm_compute; reflexivity).
  rewrite splice_ok by (rewrite ?zlen_write_u64 by lia; lia). cbn [obind]. by rewrite splice_ok by (rewrite ?zlen_zsplice; rewrite ?zlen_write_u64 by lia; lia).
Qed.

(** The allocation page that starts at a block. *)
Lemma dmap_filled num_blocks start : exists page, fill_dmap num_blocks start (range 0 8192) (zeros (Z.to_nat BLOCK_SIZE)) = Ok page /\ zlen page = 4096 /\
  forall i bit, 0 <= i < 256 -> 0 <= bit < 32 -> Z.testbit (pmap_word page i) bit = free_block num_blocks (start + (i * 32 + bit)).
Proof.
  destruct (fill_dmap_ok num_blocks start (range 0 8192) (zeros (Z.to_nat BLOCK_SIZE))) as (page & Hp & Hz & Hb).
  - vm_compute. reflexivity.
  - apply Forall_forall. intros x Hx. apply elem_of_range in Hx. lia.
  - exists page. split; [exact Hp|]. split; [exact Hz|]. intros i bit Hi Hbit. rewrite Hb by done. rewrite bool_decide_true by (apply elem_of_range; lia).
    assert (He : pmap_word (zeros (Z.to_nat BLOCK_SIZE)) i = 0); [|by rewrite He, Z.bits_0].
    unfold pmap_word, zslice, zeros. rewrite drop_replicate, take_replicate. replace (Nat.min _ _) with 4%nat by (unfold BLOCK_SIZE, PSIZE; lia). done.
Qed.

Lemma image_empty num_blocks (w : W) : 0 <= num_blocks -> st_wf w -> contents w = zeros (Z.to_nat (num_blocks * BLOCK_SIZE)) -> image num_blocks [] w.
Proof.
  intros Hn Hw Hc. split; [done|]. rewrite Hc. unfold BLOCK_SIZE, PSIZE. split; [unfold zeros; rewrite zlen_replicate; lia|].
  intros b Hb. unfold block_at, zslice, zeros, painted, BLOCK_SIZE, PSIZE. cbn [fold_left]. unfold zeros. rewrite drop_replicate, take_replicate. f_equal. lia.
Qed.

(** The writes after the two superblocks. *)
Definition table_writes (num_blocks : Z) (page0 page1 : list byte) : list (Z * list byte) :=
  [(24, bmap_page); (26, aggregate_page); (28, root_page); (17, desc_page num_blocks (num_blocks - 283)); (18, page0); (19, page1); (24, bmap_page)].

Lemma build_tables num_blocks ws (w : W) :
  image num_blocks ws w -> 283 <= num_blocks < 2 ^ 52 ->
  exists w' page0 page1,
    (let* _ := build_aggregate_inode_table in let* _ := build_block_alloc_map num_blocks in build_bmap_inode) w = (Ok tt, w') /\
    image num_blocks (ws ++ table_writes num_blocks page0 page1) w' /\ zlen page0 = 4096 /\
    forall i bit, 0 <= i < 256 -> 0 <= bit < 32 -> Z.testbit (pmap_word page0 i) bit = free_block num_blocks (i * 32 + bit).
Proof.
  intros H2 Hn. destruct pages_size as (Hs1 & Hs2 & Hs3).
  destruct (dmap_filled num_blocks 0) as (page0 & Hp0 & Hz0 & Hb0). destruct (dmap_filled num_blocks 8192) as (page1 & Hp1 & Hz1 & _).
  destruct (image_write _ _ 24 bmap_page w H2) as (w3 & Hr3 & H3); [lia|lia|].
  destruct (image_write _ _ 26 aggregate_page w3 H3) as (w4 & Hr4 & H4); [lia|lia|].
  destruct (image_write _ _ 28 root_page w4 H4) as (w5 & Hr5 & H5); [lia|lia|].
  destruct (image_write _ _ 17 (desc_page num_blocks (num_blocks - 283)) w5 H5) as (w6 & Hr6 & H6); [lia|rewrite desc_size; lia|].
  destruct (image_write _ _ 18 page0 w6 H6) as (w7 & Hr7 & H7); [lia|lia|].
  destruct (image_write _ _ 19 page1 w7 H7) as (w8 & Hr8 & H8); [lia|lia|].
  destruct (image_write _ _ 24 bmap_page w8 H8) as (w9 & Hr9 & H9); [lia|lia|].
  exists w9, page0, page1. split; [|split; [rewrite <- !app_assoc in H9; exact H9|exact (conj Hz0 Hb0)]].
  assert (Hta : build_aggregate_inode_table w = (Ok tt, w5)).
  { unfold build_aggregate_inode_table. rewrite (sbind_ok _ _ _ _ _ (lift_run _ _ w bmap_built)), (sbind_ok _ _ _ _ _ Hr3), (sbind_ok _ _ _ _ _ (lift_run _ _ w3 aggregate_built)).
    change (24 + 2) with 26. by rewrite (sbind_ok _ _ _ _ _ Hr4), (sbind_ok _ _ _ _ _ (lift_run _ _ w4 root_built)). }
  assert (Hma : build_block_alloc_map num_blocks w5 = (Ok tt, w8)).
  { unfold build_block_alloc_map. rewrite (sbind_ok _ _ _ _ _ (lift_run _ (num_blocks - 283) w5 (nfree_ok num_blocks ltac:(lia)))).
    rewrite (sbind_ok _ _ _ _ _ (lift_run _ (desc_page num_blocks (num_blocks - 283)) w5 (desc_built num_blocks ltac:(lia)))), (sbind_ok _ _ _ _ _ Hr6). change (range 0 2) with [0; 1]. cbn [sfor].
    rewrite (sbind_ok _ _ w6 tt w7); [|by rewrite (sbind_ok _ _ _ _ _ (lift_run _ _ w6 Hp0))].
    rewrite (sbind_ok _ _ w7 tt w8); [done|by rewrite (sbind_ok _ _ _ _ _ (lift_run _ _ w7 Hp1))]. }
  rewrite (sbind_ok _ _ _ _ _ Hta), (sbind_ok _ _ _ _ _ Hma). unfold build_bmap_inode. by rewrite (sbind_ok _ _ _ _ _ (lift_run _ _ w8 bmap_built)).
Qed.

(** Formatting an empty device. *)
Lemma build_image num_blocks (w : W) :
  st_wf w -> contents w = zeros (Z.to_nat (num_blocks * BLOCK_SIZE)) -> 4096 <= num_blocks < 2 ^ 52 ->
  exists w' page0 page1, build_filesystem num_blocks w = (Ok tt, w') /\ image num_blocks (image_writes num_blocks page0 page1) w' /\ zlen page0 = 4096 /\
    forall i bit, 0 <= i < 256 -> 0 <= bit < 32 -> Z.testbit (pmap_word page0 i) bit = free_block num_blocks (i * 32 + bit).
Proof.
  intros Hw Hc Hn. destruct (mkfs_super_wf num_blocks ltac:(lia)) as [_ Hsb]. pose proof (image_empty num_blocks w ltac:(lia) Hw Hc) as H0.
  destruct (image_write _ _ 8 (sb_bytes (mkfs_super num_blocks)) w H0) as (w1 & Hr1 & H1); [lia|lia|].
  destruct (image_write _ _ 3841 (ls_bytes mkfs_logsuper) w1 H1) as (w2 & Hr2 & H2); [lia|vm_compute; discriminate|].
  destruct (build_tables num_blocks _ w2 H2 ltac:(lia)) as (w' & page0 & page1 & Hr & Hi). exists w', page0, page1. split; [|exact Hi].
  unfold build_filesystem. by rewrite (sbind_ok _ _ _ _ _ Hr1), (sbind_ok _ _ _ _ _ Hr2).
Qed.
End image.

(** ** Reading the image *)

Section reading.
Context {W : Type} {FS : Storage W} {SS : StorageSpec W} {SR : StorageReliable W}.

Lemma image_read_block num_blocks ws b (w : W) :
  image num_blocks ws w -> 0 <= b < num_blocks ->
  exists w', read_block b w = (Ok (painted ws b), w') /\ image num_blocks ws w' /\ contents w' = contents w.
Proof.
  intros (Hw & Hz & Hi) Hb. unfold BLOCK_SIZE, PSIZE in Hz. pose proof (st_read_block_ok b w Hw ltac:(lia) ltac:(unfold BLOCK_SIZE, PSIZE; lia)) as Hok.
  destruct (st_read_block b w Hw ltac:(lia)) as (Hw' & Hc & _). destruct (read_block b w) as [o w']. cbn [fst snd] in *. subst o. exists w'.
  rewrite (Hi b Hb). split; [done|]. split; [|done]. unfold image. by rewrite Hc.
Qed.

Lemma image_read_bytes num_blocks ws b (w : W) :
  image num_blocks ws w -> 0 <= b < num_blocks ->
  exists w', read_bytes (b * BLOCK_SIZE) BLOCK_SIZE w = (Ok (painted ws b), w') /\ image num_blocks ws w' /\ contents w' = contents w.
Proof.
  intros (Hw & Hz & Hi) Hb. unfold BLOCK_SIZE, PSIZE in *. pose proof (st_read_bytes_ok (b * 4096) 4096 w Hw ltac:(lia) ltac:(lia) ltac:(lia)) as Hok.
  destruct (st_read_bytes (b * 4096) 4096 w Hw ltac:(lia) ltac:(lia)) as (Hw' & Hc & _). destruct (read_bytes (b * 4096) 4096 w) as [o w']. cbn [fst snd] in *. subst o. exists w'.
  change (zslice (contents w) (b * 4096) (b * 4096 + 4096)) with (block_at (contents w) b). rewrite (Hi b Hb). split; [done|]. split; [|done]. unfold image. by rewrite Hc.
Qed.

(** A mount reads the superblock back. *)
Lemma image_super num_blocks ws (w : W) :
  image num_blocks ws w -> 9 <= num_blocks < 2 ^ 64 ->
  painted ws 8 = sb_bytes (mkfs_super num_blocks) ++ drop (length (sb_bytes (mkfs_super num_blocks))) (zeros (Z.to_nat 4096)) ->
  exists w', vol_read_super w = (Ok (mounted_super (mkfs_super num_blocks)), w') /\ image num_blocks ws w' /\ contents w' = contents w.
Proof.
  intros Hi Hn Hp. destruct (mkfs_super_wf num_blocks ltac:(lia)) as [Hwf Hs]. destruct (image_read_bytes _ _ 8 w Hi ltac:(lia)) as (w1 & Hr1 & Hi1 & Hc1). exists w1. split; [|done].
  unfold vol_read_super. change SUPER1_OFF with (8 * BLOCK_SIZE). change PSIZE with BLOCK_SIZE. rewrite (sbind_ok _ _ _ _ _ Hr1), Hp. unfold sret. rewrite parse_super_bytes; [done|done|].
  rewrite zlen_app, zlen_drop, Hs. unfold zeros. rewrite zlen_replicate. unfold zlen, PSIZE in *. lia.
Qed.
End reading.

(** The blocks of the inode table and after it. *)
Definition table_block (b : Z) : list byte :=
  if 24 =? b then bmap_page else if 26 =? b then aggregate_page else if 28 =? b then root_page else zeros (Z.to_nat 4096).

Section painted.
Context (num_blocks : Z) (page0 page1 : list byte) (Hz0 : zlen page0 = 4096).
Abbreviation ws := (image_writes num_blocks page0 page1).

Lemma painted_super : painted ws 8 = sb_bytes (mkfs_super num_blocks) ++ drop (length (sb_bytes (mkfs_super num_blocks))) (zeros (Z.to_nat 4096)).
Proof. reflexivity. Qed.
Lemma whole_page d : zlen d = 4096 -> d ++ drop (length d) (zeros (Z.to_nat 4096)) = d.
Proof. intros Hd. rewrite drop_ge; [apply app_nil_r|]. unfold zeros. rewrite length_replicate. unfold zlen in Hd. lia. Qed.
Lemma painted_desc : 283 <= num_blocks < 2 ^ 52 -> painted ws 17 = desc_page num_blocks (num_blocks - 283).
Proof. intros Hn. apply (whole_page (desc_page num_blocks (num_blocks - 283))). by apply desc_size. Qed.
Lemma painted_log : painted ws 3841 = painted [(3841, ls_bytes mkfs_logsuper)] 3841.
Proof. vm_compute. reflexivity. Qed.
Lemma painted_map : painted ws 18 = page0.
Proof. by apply (whole_page page0). Qed.
Lemma painted_table b : 20 <= b < 3841 -> painted ws b = table_block b.
Proof.
  intros Hb. unfold painted, image_writes, table_block. cbn [fold_left].
  destruct (Z.eqb_spec 8 b), (Z.eqb_spec 3841 b), (Z.eqb_spec 17 b), (Z.eqb_spec 18 b), (Z.eqb_spec 19 b); try lia.
  destruct pages_size as (H1 & H2 & H3). destruct (Z.eqb_spec 24 b), (Z.eqb_spec 26 b), (Z.eqb_spec 28 b); try lia; rewrite ?whole_page by done; try done.
Qed.
Lemma table_block_size b : zlen (table_block b) = 4096.
Proof.
  destruct pages_size as (H1 & H2 & H3). unfold table_block. destruct (24 =? b); [done|]. destruct (26 =? b); [done|]. by destruct (28 =? b).
Qed.
End painted.

(** The slots that a scan of the table of a formatted volume finds. *)
Definition fresh_find (target : Z * Z) : option (Z * Z) :=
  List.find (fun loc => let s := zslice (table_block loc.1) loc.2 (loc.2 + DISIZE) in
                        (read_u32 (zslice s 4 8) =? target.1) && (read_u32 (zslice s 8 12) =? target.2))
    (flat_map (fun b => (fun i => (b, i * DISIZE)) <$> range 0 INOSPERPAGE) (range 24 60)).

(** The root directory is the only inode with a name of the fileset; number 1 of the aggregate is free. *)
Lemma fresh_root : fresh_find (inode_target 18) = Some (28, 1024).
Proof. vm_compute. reflexivity. Qed.
Lemma fresh_one : fresh_find (inode_target 1) = None.
Proof. vm_compute. reflexivity. Qed.

(** ** Mounting *)

Section mount.
Context {L : Lru PageKey CachedPage} {LS : LruSpec PageKey CachedPage}.
Context {W : Type} {FS : Storage W} {SS : StorageSpec W} {SR : StorageReliable W}.
Context (num_blocks : Z) (page0 page1 : list byte) (Hn : 4096 <= num_blocks < 2 ^ 32) (Hz0 : zlen page0 = 4096).
Abbreviation ws := (image_writes num_blocks page0 page1).
Abbreviation img := (image (W := W) num_blocks ws).

Lemma super_size : zlen (painted ws 8) = 4096 /\ zlen (sb_bytes (mkfs_super num_blocks)) = 184.
Proof.
  destruct (mkfs_super_wf num_blocks ltac:(lia)) as [_ Hs]. split; [|done]. rewrite painted_super, zlen_app, zlen_drop, Hs. unfold zeros. rewrite zlen_replicate. unfold zlen in Hs. lia.
Qed.

Lemma size_ge (w : W) b : img w -> b < num_blocks -> (size_blocks w <=? b) = false.
Proof. intros (Hw & Hz & _) Hb. rewrite st_size, Hz by done. rewrite Z.div_mul by done. apply Z.leb_gt. lia. Qed.

Lemma find_bmap_run (w : W) : img w -> exists w', find_bmap_inode w = (Ok (24, 512), w') /\ img w' /\ contents w' = contents w.
Proof.
  intros Hi. destruct super_size as [Hs Hsb]. destruct (image_read_bytes _ _ 8 w Hi ltac:(lia)) as (w1 & Hr1 & Hi1 & Hc1).
  destruct (image_read_block _ _ 24 w1 Hi1 ltac:(lia)) as (w2 & Hr2 & Hi2 & Hc2). exists w2. split; [|split; [done|congruence]].
  unfold find_bmap_inode. change SUPER1_OFF with (8 * BLOCK_SIZE). change PSIZE with BLOCK_SIZE. rewrite (sbind_ok _ _ _ _ _ Hr1).
  assert (Hp : slice (painted ws 8) 48 56 = Ok (pxd_into_bytes (make_pxd 4 24)) :> result _).
  { rewrite slice_ok by lia. rewrite painted_super, zslice_app_l by lia. reflexivity. }
  rewrite (sbind_ok _ _ _ _ _ (lift_run _ _ w1 Hp)). cbn zeta.
  change (parse_pxd_addr (pxd_into_bytes (make_pxd 4 24))) with 24. change (parse_pxd_len (pxd_into_bytes (make_pxd 4 24)) + 32) with 36.
  rewrite range_cons by lia. cbn [bmap_scan_blocks]. change (24 + 0) with 24. rewrite (size_ge w1 24 Hi1) by lia. rewrite (sbind_ok _ _ _ _ _ Hr2), painted_table by lia.
  assert (Hf : bmap_scan_slots (table_block 24) (range 0 INOSPERPAGE) = Some 512) by (vm_compute; reflexivity). by rewrite Hf.
Qed.

(** The bitmap that a mount builds. *)
Definition fresh_map : list bool := parse_dmap_page page0 0 (replicate (Z.to_nat num_blocks) false).
Definition fresh_bam (w : W) : BlockAllocMap W := mkBam w num_blocks (num_blocks - 283) fresh_map 1 17 2 [] [] ∅.

Lemma desc_fields : slice (desc_page num_blocks (num_blocks - 283)) 0 8 = Ok (write_u64 num_blocks) :> result _ /\
  slice (desc_page num_blocks (num_blocks - 283)) 8 16 = Ok (write_u64 (num_blocks - 283)) :> result _.
Proof.
  pose proof (desc_size num_blocks ltac:(lia)) as Hd. rewrite !slice_ok by lia. split; reflexivity.
Qed.

Lemma bam_new_run (w : W) : img w -> exists w', bam_new w = (Ok (fresh_bam w'), w') /\ img w' /\ contents w' = contents w.
Proof.
  intros Hi. destruct (find_bmap_run w Hi) as (w1 & Hr1 & Hi1 & Hc1). destruct (image_read_block _ _ 24 w1 Hi1 ltac:(lia)) as (w2 & Hr2 & Hi2 & Hc2).
  destruct (image_read_block _ _ 17 w2 Hi2 ltac:(lia)) as (w3 & Hr3 & Hi3 & Hc3). destruct (image_read_block _ _ 18 w3 Hi3 ltac:(lia)) as (w4 & Hr4 & Hi4 & Hc4).
  exists w4. split; [|split; [done|congruence]]. destruct desc_fields as [Hf0 Hf1]. unfold bam_new. rewrite (sbind_ok _ _ _ _ _ Hr1). cbn beta iota. rewrite (sbind_ok _ _ _ _ _ Hr2), painted_table by lia.
  assert (Hd : slice (table_block 24) 512 (512 + DISIZE) = Ok (zslice bmap_page 512 1024) :> result _) by (vm_compute; reflexivity).
  rewrite (sbind_ok _ _ _ _ _ (lift_run _ _ w2 Hd)). assert (Hx : parse_bmap_xtroot (zslice bmap_page 512 1024) = Ok (17, 2)) by (vm_compute; reflexivity).
  rewrite (sbind_ok _ _ _ _ _ (lift_run _ _ w2 Hx)). cbn beta iota. rewrite (sbind_ok _ _ _ _ _ Hr3), painted_desc by lia.
  rewrite (sbind_ok _ _ _ _ _ (lift_run _ _ w3 Hf0)), (sbind_ok _ _ _ _ _ (lift_run _ _ w3 Hf1)). rewrite !read_write_u64 by lia.
  rewrite (sbind_ok _ _ _ _ _ (lift_run _ 1 w3 eq_refl)). rewrite (sbind_ok _ _ _ _ _ (lift_run _ 4096 w3 eq_refl)). cbn zeta.
  rewrite (sbind_ok _ _ w3 (replicate (Z.to_nat num_blocks) false) w3) by (unfold slift, vec_false; destruct (Z.ltb_spec num_blocks (2 ^ 63)); [done|lia]).
  change (range 0 (Z.max (4096 / BLOCKS_PER_DMAP) 1)) with [0]. rewrite (sbind_ok _ _ w3 fresh_map w4); [done|].
  cbn [bam_load_pages]. change (17 + 1 + 0) with 18. rewrite (size_ge w3 18 Hi3) by lia. rewrite (sbind_ok _ _ _ _ _ Hr4), painted_map by done. done.
Qed.

Context (Hbits : forall i bit, 0 <= i < 256 -> 0 <= bit < 32 -> Z.testbit (pmap_word page0 i) bit = free_block num_blocks (i * 32 + bit)).

Lemma fresh_map_lookup b : 0 <= b < num_blocks -> fresh_map !! Z.to_nat b = Some ((b <? BLOCKS_PER_DMAP) && free_block num_blocks b).
Proof.
  intros Hb. unfold fresh_map. rewrite parse_dmap_page_decodes by (done || lia). rewrite Z2Nat.id by lia. rewrite lookup_replicate_2 by lia. unfold BLOCKS_PER_DMAP.
  destruct (Z.ltb_spec b 8192); [rewrite decide_True by lia|by rewrite decide_False by lia]. cbn [fmap option_fmap option_map]. rewrite Z.sub_0_r. fold (pmap_word page0 (b / 32)).
  pose proof (Z.div_mod b 32 ltac:(lia)). pose proof (Z.mod_pos_bound b 32 ltac:(lia)).
  rewrite Hbits by (lia || (split; [apply Z.div_pos; lia|apply Z.div_lt_upper_bound; lia])). cbn [andb]. do 2 f_equal. lia.
Qed.

Lemma fresh_map_length : zlen fresh_map = num_blocks.
Proof.
  assert (Hlen : length fresh_map = Z.to_nat num_blocks); [|unfold zlen; lia].
  apply Nat.le_antisymm.
  - apply Nat.nlt_ge. intros Hlt. apply lookup_lt_is_Some_2 in Hlt as [x Hx]. unfold fresh_map in Hx. rewrite parse_dmap_page_decodes in Hx by (done || lia).
    rewrite lookup_ge_None_2 in Hx by (rewrite length_replicate; lia). by case_decide.
  - apply Nat.nlt_ge. intros Hlt. pose proof (fresh_map_lookup (num_blocks - 1) ltac:(lia)) as Hl. rewrite lookup_ge_None_2 in Hl by lia. done.
Qed.

Abbreviation sb := (mounted_super (mkfs_super num_blocks)).

(** The journal of a formatted volume. *)
Lemma log_super_run (w : W) : img w -> exists ls w', read_super (3840 * BLOCK_SIZE) w = (Ok ls, w') /\ img w' /\ contents w' = contents w /\
  ls_magic_val ls = LOGMAGIC /\ ls_get_version ls = LOGVERSION /\ ls_get_state ls = LOGREDONE /\ wf_logsuper ls.
Proof.
  intros Hi. destruct (image_read_bytes _ _ 3841 w Hi ltac:(lia)) as (w1 & Hr1 & Hi1 & Hc1).
  eexists _, w1. split; [|split; [done|split; [done|]]].
  { unfold read_super. rewrite (sbind_ok _ _ _ _ _ (lift_run (add_u64 (3840 * BLOCK_SIZE) BLOCK_SIZE) (3841 * BLOCK_SIZE) w eq_refl)), (sbind_ok _ _ _ _ _ Hr1), painted_log. reflexivity. }
  split_and!; try (vm_compute; reflexivity).
  vm_compute. repeat constructor.
Qed.

(** The volume that [open_from_storage] returns. *)
Definition opened (log : LogManager) (w : W) : Volume W :=
  v_set (fresh_volume sb w) sb (Some log) tm_new w (pc_new 256) (Some (bam_with_device tt (fresh_bam w))) ∅.

(** A volume that has the inode table of the image and nothing in its cache. *)
Record fresh_table (v : Volume W) : Prop := {
  ft_ait : s_ait2 (v_sb v) = make_pxd 4 24;
  ft_agg : v_agg_size v = num_blocks;
  ft_cache : v_page_cache v = pc_new 256;
  ft_wf : st_wf (v_storage v);
  ft_size : zlen (contents (v_storage v)) = num_blocks * BLOCK_SIZE;
  ft_blocks : forall b, 20 <= b < 3841 -> block_at (contents (v_storage v)) b = table_block b }.

Lemma fresh_cached v : fresh_table v -> cached v = [].
Proof. intros H. unfold cached. rewrite (ft_cache v H). apply lru_iter_new. Qed.

Lemma fresh_range v : fresh_table v -> table_blocks (table_view v) = range 24 60.
Proof. intros H. unfold table_blocks, table_view. cbn [tv_ait2]. rewrite (ft_ait v H). done. Qed.

Lemma fresh_view v b : fresh_table v -> 20 <= b < 3841 -> page_view (table_view v) (v_storage v) b = table_block b.
Proof. intros H Hb. rewrite page_view_device by by apply fresh_cached. by apply (ft_blocks v H). Qed.

Lemma fresh_slot v ino : fresh_table v -> slot_at v ino = fresh_find (inode_target ino).
Proof.
  intros H. unfold slot_at, table_slots. rewrite (fresh_range v H). cbn [table_view tv_agg_size]. rewrite (ft_agg v H). rewrite List.forallb_filter_id.
  - apply find_ext. intros [b off] Hin. apply list_elem_of_In, in_flat_map in Hin as (b' & Hb & Hin). apply in_map_iff in Hin as (i & [= <- <-] & _). apply list_elem_of_In, elem_of_range in Hb.
    unfold slot_matches, slot_bytes. cbn [fst snd]. by rewrite (fresh_view v b' H) by lia.
  - apply List.forallb_forall. intros b Hb. apply list_elem_of_In, elem_of_range in Hb. apply negb_true_iff, Z.leb_gt. lia.
Qed.

Lemma fresh_table_ok v : fresh_table v -> table_ok (table_view v) (v_storage v).
Proof.
  intros H. split; [cbn [table_view tv_ait2]; by rewrite (ft_ait v H)|]. intros b Hb _. rewrite (fresh_range v H), elem_of_range in Hb.
  rewrite (fresh_view v b H) by lia. rewrite table_block_size, (ft_size v H). unfold BLOCK_SIZE, PSIZE. lia.
Qed.

(** The root directory. *)
Definition root_bytes : list byte := zslice root_page 1024 1536.

Lemma fresh_root_bytes v : fresh_table v -> inode_bytes v 18 = Some root_bytes.
Proof.
  intros H. unfold inode_bytes. rewrite (fresh_slot v 18 H), fresh_root. cbn [fmap option_fmap option_map]. unfold slot_bytes. cbn [fst snd]. rewrite (fresh_view v 28 H) by lia. done.
Qed.

Definition root_dinode : Dinode := match dinode_parse root_bytes with Ok d => d | _ => dinode_default end.
Definition root_tree : Dtree := match dt_from_inode_data (dinode_dtroot_bytes root_dinode) with Ok t => t | _ => mkDtree [] 0 end.

Lemma root_empty : dinode_parse root_bytes = Ok root_dinode /\ dinode_is_dir root_dinode = true /\
  dt_from_inode_data (dinode_dtroot_bytes root_dinode) = Ok root_tree /\ dt_entries root_tree = Ok [].
Proof. split_and!; vm_compute; reflexivity. Qed.

Lemma fresh_inode_read v : fresh_table v -> exists d b off w', vol_inode_read 18 v = (Ok (mkInode d 18 b off), v_with_dev w' v) /\
  dinode_parse root_bytes = Ok d /\ st_wf w' /\ contents w' = contents (v_storage v).
Proof.
  intros H. pose proof (inode_read_run (table_view v) 18 (v_storage v) (ft_wf v H) (fresh_table_ok v H)) as Hr.
  pose proof (fresh_root_bytes v H) as Hb. unfold inode_bytes, slot_at in Hb. destruct (List.find _ _) as [[b off]|]; [|done]. injection Hb as Hb.
  destruct Hr as (d & w' & Hr & Hd & _ & Hw & Hc).
  { intros b' _. cbn [table_view tv_cache]. rewrite cache_empty_peek_block, cached_peek by by apply fresh_cached. by rewrite fresh_cached. }
  rewrite Hb in Hd. exists d, b, off, w'. split; [|exact (conj Hd (conj Hw Hc))]. unfold vol_inode_read, on_storage. by rewrite Hr.
Qed.

Lemma opened_table log w : img w -> fresh_table (opened log w).
Proof.
  intros (Hw & Hz & Hb). destruct (mkfs_super_fields num_blocks ltac:(lia)) as (_ & Hagg & _). split; try done.
  intros b Hb'. change (v_storage (opened log w)) with w. rewrite Hb by lia. by apply painted_table.
Qed.

(** The volume that a mount of the image gives. *)
Definition mounted (log : LogManager) (w : W) : Volume W := v_with_sb (sb_with_state (write_u32 FM_DIRTY) sb) (opened log w).

Lemma mounted_ok k log w :
  fresh_table (mounted log w) -> lm_wf log -> lm_write_offset log = 0 -> lm_log_base log = 3840 * BLOCK_SIZE ->
  0 <= k < 2 ^ 19 - 1 -> 3844 + 2 * k <= num_blocks -> vol_ok k (mounted log w).
Proof.
  intros Ht Hlog Ho Hb Hk Hroom. pose proof (ft_size _ Ht) as Hz. change (v_storage (mounted log w)) with w in Hz. unfold BLOCK_SIZE, PSIZE in Hz, Hb.
  assert (Hfs : forall b, 0 <= b <= 3840 -> fs_block (v_log (mounted log w)) (contents (v_storage (mounted log w))) b).
  { intros b Hb'. change (v_storage (mounted log w)) with w. change (v_log (mounted log w)) with (Some log). unfold fs_block, before_log, BLOCK_SIZE, PSIZE. lia. }
  split; [|reflexivity]. split.
  - reflexivity.
  - apply (ft_wf _ Ht).
  - change (v_log (mounted log w)) with (Some log). change (v_storage (mounted log w)) with w. split; [exact Hlog|]. unfold lm_space, log_data, buffer_start. rewrite Ho, Hb, Zmod_0_l. lia.
  - change (v_bmap (mounted log w)) with (Some (bam_with_device tt (fresh_bam w))). split; [exact fresh_map_length|]. cbn [bam_with_device fresh_bam bam_nfree bam_dmap_start bam_dirty_pages].
    split; [lia|]. split; [by apply Hfs|]. set_solver.
  - by apply fresh_cached.
  - unfold cap. rewrite (ft_cache _ Ht). cbn [pc_new pc_cache]. rewrite lru_cap_new by lia. lia.
  - rewrite (ft_ait _ Ht). done.
  - intros b Hin _. rewrite (fresh_range _ Ht), elem_of_range in Hin. split; [apply Hfs; lia|]. change (v_bmap (mounted log w)) with (Some (bam_with_device tt (fresh_bam w))).
    unfold map_block. cbn [bam_with_device fresh_bam bam_dmap_start bam_dirty_pages]. intros [->|Hd]; [lia|set_solver].
Qed.
Section run.
Context {IK : IoKind} {AA : AsAny W} (Hfile : forall w, as_file w = None).

Lemma open_run (w : W) : img w -> exists log w', open_from_storage w = (Ok (opened log w'), w') /\ img w' /\
  lm_wf log /\ lm_write_offset log = 0 /\ lm_log_base log = 3840 * BLOCK_SIZE /\ ls_magic_val (lm_logsuper log) = LOGMAGIC /\ ls_get_state (lm_logsuper log) = LOGREDONE.
Proof.
  intros Hi. destruct (image_super num_blocks ws w Hi ltac:(lia) (painted_super num_blocks page0 page1)) as (w1 & Hr1 & Hi1 & _). destruct (mkfs_super_fields num_blocks ltac:(lia)) as (Hval & Hagg & Hbs & _ & Hlog & _ & _ & Hbase).
  destruct (log_super_run w1 Hi1) as (ls & w2 & Hr2 & Hi2 & _ & Hmag & Hver & Hst & Hwf). destruct (bam_new_run w2 Hi2) as (w3 & Hr3 & Hi3 & _).
  exists (lm_new ls (3840 * BLOCK_SIZE)), w3. split; [|split; [done|]].
  - unfold open_from_storage. rewrite (sbind_ok _ _ _ _ _ Hr1), (sbind_ok _ _ _ _ _ (lift_run _ _ w1 Hval)), Hbs. cbn [negb]. change (PSIZE =? PSIZE) with true. cbn [negb].
    unfold sbind at 1, sget. unfold sbind at 1, slift, check_geometry. rewrite Hfile.
    set (v0 := fresh_volume sb w1). set (v1 := v_with_log (Some (lm_new ls (3840 * BLOCK_SIZE))) w2 v0).
    assert (Hinit : init_log v0 = (Ok tt, v1)).
    { unfold init_log. change (v_log_storage v0) with (sb_has_inline_log sb). change (v_sb v0) with sb. rewrite Hlog. unfold sb_inline_log_pxd. rewrite Hbase.
      rewrite (sbind_ok (slift (mul_u64 3840 BLOCK_SIZE)) _ v0 (3840 * BLOCK_SIZE) v0 eq_refl). rewrite (sbind_ok _ _ v0 ls (v_with_dev w2 v0)); [|unfold on_storage; change (v_storage v0) with w1; by rewrite Hr2].
      rewrite Hmag, Hver, !Z.eqb_refl. cbn [negb]. done. }
    assert (Hrec : recover_journal v1 = (Ok tt, v1)).
    { unfold recover_journal. change (v_log v1) with (Some (lm_new ls (3840 * BLOCK_SIZE))). cbn beta iota zeta. change (lm_logsuper (lm_new ls (3840 * BLOCK_SIZE))) with ls. by rewrite Hst. }
    rewrite (sbind_ok _ _ _ _ _ Hinit), (sbind_ok _ _ _ _ _ Hrec). unfold load_bmap. change (v_storage v1) with w2. rewrite Hr3. done.
  - split; [|exact (conj eq_refl (conj eq_refl (conj Hmag Hst)))]. split_and!; try done. by exists 0, 0.
Qed.

Lemma mounted_eq log w1 w2 w3 :
  v_with_sb (sb_with_state (write_u32 FM_DIRTY) (v_sb (v_with_dev w2 (opened log w1)))) (v_with_dev w3 (v_with_dev w2 (opened log w1))) = mounted log w3.
Proof.
  unfold mounted, v_with_sb, v_with_dev, opened. unfold v_set. cbn [v_sb v_log v_tx_mgr v_storage v_log_storage v_page_cache v_block_size v_l2bsize v_agg_size v_ag_size v_num_ag v_root_ino v_bmap v_open_handles].
  reflexivity.
Qed.

Lemma mount_run (w : W) : img w -> exists log w', mount_from_storage w = (Ok (mounted log w'), w') /\ fresh_table (mounted log w') /\
  lm_wf log /\ lm_write_offset log = 0 /\ lm_log_base log = 3840 * BLOCK_SIZE /\
  zslice (contents w') (SUPER1_OFF + 40) (SUPER1_OFF + 44) = write_u32 FM_DIRTY.
Proof.
  intros Hi. destruct (open_run w Hi) as (log & w1 & Hr1 & Hi1 & Hlog & Ho & Hb & _). pose proof (opened_table log w1 Hi1) as Ht.
  destruct (fresh_inode_read _ Ht) as (d & b & off & w2 & Hr2 & Hd & Hw2 & Hc2). destruct root_empty as (Hd' & Hdir & Htree & _). rewrite Hd' in Hd. apply Ok_inj in Hd as <-.
  pose proof (ft_size _ Ht) as Hz. change (v_storage (opened log w1)) with w1 in *. unfold BLOCK_SIZE, PSIZE in Hz.
  destruct (set_fs_state_run FM_DIRTY (v_with_dev w2 (opened log w1)) ltac:(split; [discriminate|reflexivity]) Hw2) as (w3 & Hr3 & Hw3 & Hc3).
  { change (v_storage (v_with_dev w2 (opened log w1))) with w2. rewrite Hc2. unfold SUPER1_OFF, PSIZE. lia. }
  change (v_storage (v_with_dev w2 (opened log w1))) with w2 in *. rewrite Hc2 in Hc3. exists log, w3.
  assert (Hs3 : zlen (contents w3) = num_blocks * 4096 /\ (forall b, 0 <= b -> b <> 8 -> block_at (contents w3) b = block_at (contents w1) b) /\
    zslice (contents w3) (SUPER1_OFF + 40) (SUPER1_OFF + 44) = write_u32 FM_DIRTY).
  { rewrite Hc3, <- Hz. apply state_written; [split; [discriminate|reflexivity]|unfold SUPER1_OFF, PSIZE; lia]. }
  destruct Hs3 as (Hz3 & Hb3 & Hs3). split; [|split; [|exact (conj Hlog (conj Ho (conj Hb Hs3)))]].
  - unfold mount_from_storage. rewrite Hr1. change (v_root_ino (opened log w1)) with 18. rewrite (sbind_ok _ _ _ _ _ Hr2). cbn [in_dinode]. rewrite Hdir. cbn [negb].
    rewrite (sbind_ok _ _ _ root_tree (v_with_dev w2 (opened log w1))); [|unfold slift; by rewrite Htree]. rewrite Hr3, mounted_eq. reflexivity.
  - destruct Ht as [T1 T2 T3 _ _ T6]. split; [exact T1|exact T2|exact T3|exact Hw3|exact Hz3|]. intros b' Hb'. change (v_storage (mounted log w3)) with w3. rewrite Hb3 by lia. by apply T6.
Qed.
End run.
End mount.

(** A volume as formatting leaves it: quiet, with the empty root directory as its
    only inode of the fileset, marked dirty, and every block up to the first
    allocation page's last free unless formatting uses it. *)
Record fresh_state {L : Lru PageKey CachedPage} {W} {FS : Storage W} {SS : StorageSpec W} (num_blocks k : Z) (v : Volume W) : Prop := {
  fr_ok : vol_ok k v;
  fr_root : v_root_ino v = 18;
  fr_root_bytes : inode_bytes v 18 = Some root_bytes;
  fr_one : inode_bytes v 1 = None;
  fr_dirty : sb_state (v_sb v) = FM_DIRTY;
  fr_disk : zslice (contents (v_storage v)) (SUPER1_OFF + 40) (SUPER1_OFF + 44) = write_u32 FM_DIRTY;
  fr_map : exists b, v_bmap v = Some b /\ bam_mapsize b = num_blocks /\ bam_nfree b = num_blocks - 283 /\
    forall blk, 0 <= blk < num_blocks -> bam_free_map b !! Z.to_nat blk = Some ((blk <? BLOCKS_PER_DMAP) && free_block num_blocks blk) }.

Section format_mount.
Context {L : Lru PageKey CachedPage} {LS : LruSpec PageKey CachedPage} {IK : IoKind}.
Context {W : Type} {FS : Storage W} {SS : StorageSpec W} {SR : StorageReliable W} {AA : AsAny W}.

Lemma format_mount num_blocks k (w : W) :
  (forall w, as_file w = None) -> st_wf w -> contents w = zeros (Z.to_nat (num_blocks * BLOCK_SIZE)) ->
  4096 <= num_blocks < 2 ^ 32 -> 0 <= k < 2 ^ 19 - 1 -> 3844 + 2 * k <= num_blocks ->
  exists w1 v w2, build_filesystem num_blocks w = (Ok tt, w1) /\ mount_from_storage w1 = (Ok v, w2) /\ fresh_state num_blocks k v.
Proof.
  intros Hf Hw Hc Hn Hk Hroom. destruct (build_image num_blocks w Hw Hc ltac:(lia)) as (w1 & page0 & page1 & Hb & Hi & Hz0 & Hbits).
  destruct (mount_run num_blocks page0 page1 Hn Hz0 Hf w1 Hi) as (log & w2 & Hm & Ht & Hlog & Ho & Hbase & Hs).
  exists w1, (mounted num_blocks page0 log w2), w2. split; [done|]. split; [done|]. split.
  - by apply mounted_ok.
  - reflexivity.
  - by apply (fresh_root_bytes num_blocks).
  - unfold inode_bytes. by rewrite (fresh_slot num_blocks), fresh_one.
  - reflexivity.
  - exact Hs.
  - eexists. split; [reflexivity|]. split; [reflexivity|]. split; [reflexivity|]. intros blk Hblk. by apply fresh_map_lookup.
Qed.
End format_mount.
