(* ===== verification/FuseRoot.v ===== *)
(** * From formatting to requests

    A volume that is formatted, mounted and served: the mount succeeds and gives
    the state that the theorems on the calls start from, the root directory can be
    used through [FuseFs] under its own number, and the requests for node 1, which
    the FUSE protocol uses for the root of a mount, fail. Images that are too
    small are reported as made, or stop the process. *)

From stdpp Require Import gmap.
From Stdlib Require Import ZArith Lia.
From S2P Require Import Types Utf Storage PageCache Dmap Devices Recovery Inode Xtree Dtree Geometry Volume VolumeData VolumeDir Xattr VolumeTx VolumeOps DinodeEdit InodeTable Sample Entries FileData Interrupt FuseAbi FuseLocks Fuse FuseFiles FuseServer FuseState FuseCalls Mkfs LogMgr Fresh Prelude.

#[local] Existing Instance le_codec.
#[local] Existing Instance le_codec_spec.

Section fresh.
Context {L : Lru PageKey CachedPage} {LS : LruSpec PageKey CachedPage} {IK : IoKind} {HO : HashOrder} {XF : XadFlags}.

Lemma image_create_run num_blocks : 0 <= num_blocks < 2 ^ 52 -> exists w, mem_new num_blocks = Ok w /\ st_wf w /\ contents w = zeros (Z.to_nat (num_blocks * BLOCK_SIZE)).
Proof.
  intros Hn. unfold mem_new. rewrite mul_u64_ok by (unfold BLOCK_SIZE, PSIZE; lia). cbn [obind]. eexists. split; [reflexivity|]. split; [|reflexivity].
  split; cbn [ms_data ms_size]; [rewrite zlen_replicate|]; unfold BLOCK_SIZE, PSIZE; lia.
Qed.

Lemma create_mount num_blocks k : 4096 <= num_blocks < 2 ^ 32 -> 0 <= k < 2 ^ 19 - 1 -> 3844 + 2 * k <= num_blocks ->
  exists w v w', create_filesystem_with_blocks num_blocks = Ok w /\ mount_from_storage w = (Ok v, w') /\ fresh_state num_blocks k v.
Proof.
  intros Hn Hk Hr. destruct (image_create_run num_blocks ltac:(lia)) as (w0 & Hm & Hw & Hc). destruct (format_mount num_blocks k w0 ltac:(done) Hw Hc Hn Hk Hr) as (w1 & v & w2 & Hb & Hv & Hf).
  exists w1, v, w2. split; [|done]. unfold create_filesystem_with_blocks. rewrite Hm. cbn [obind]. by rewrite Hb.
Qed.

(** C6: a formatted volume can be mounted: for every size from 4096 blocks on, a
    mount of the image that [create_filesystem_with_blocks] makes succeeds and
    gives a quiet volume with room in its journal (the state from which the
    theorems on the calls start), an empty root directory under inode 18, the
    superblock marked dirty in memory and on the device, and an allocation map
    with every block that formatting does not use free, of the first 8192. *)
Theorem fresh_volume_mounts num_blocks k
  (Hn : 4096 <= num_blocks < 2 ^ 32) (Hk : 0 <= k < 2 ^ 19 - 1) (Hroom : 3844 + 2 * k <= num_blocks) :
  exists w v w', create_filesystem_with_blocks num_blocks = Ok w /\ mount_from_storage w = (Ok v, w') /\ fresh_state num_blocks k v /\
    dir_entries root_bytes = Ok [].
Proof.
  destruct (create_mount num_blocks k Hn Hk Hroom) as (w & v & w' & H1 & H2 & H3). exists w, v, w'. split; [done|]. split; [done|]. split; [done|].
  unfold dir_entries, dir_tree. destruct root_empty as (-> & _ & -> & He). exact He.
Qed.

(** ** Images that are too small *)

(** A call that returns or panics. *)
Definition no_error {A} (m : ST MemoryStorage StorageError A) : Prop := forall w e w', m w <> (Err e, w').

Lemma no_error_bind {A B} (m : ST MemoryStorage StorageError A) (k : A -> ST MemoryStorage StorageError B) : no_error m -> (forall a, no_error (k a)) -> no_error (sbind m k).
Proof. intros Hm Hk w e w'. unfold sbind. destruct (m w) as [[a|e0|] w0] eqn:E; [apply Hk|by apply Hm in E|done]. Qed.
Lemma no_error_ignore m : no_error (ignore m).
Proof. intros w e w'. unfold ignore. by destruct (m w) as [[]]. Qed.
Lemma no_error_lift {A} (r : result A) (a : A) : r = Ok a -> no_error (slift r).
Proof. by intros -> w e w'. Qed.

(** Panics whatever the device does. *)
Definition panics {A} (m : ST MemoryStorage StorageError A) : Prop := forall w, (m w).1 = Panic.

Lemma panics_after {A B} (m : ST MemoryStorage StorageError A) (k : A -> ST MemoryStorage StorageError B) : no_error m -> (forall a, panics (k a)) -> panics (sbind m k).
Proof. intros Hm Hk w. unfold sbind. destruct (m w) as [[a|e|] w'] eqn:E; [apply Hk|by apply Hm in E|done]. Qed.
Lemma panics_bind {A B} (m : ST MemoryStorage StorageError A) (k : A -> ST MemoryStorage StorageError B) : panics m -> panics (sbind m k).
Proof. intros Hm w. specialize (Hm w). unfold sbind. destruct (m w) as [[]]; done. Qed.

Lemma nfree_panics num_blocks : num_blocks < 283 -> mkfs_nfree num_blocks reserved = Panic.
Proof.
  intros Hn. unfold reserved, LOG_AREA_BLOCKS. cbn [mkfs_nfree]. unfold sub_u64.
  do 4 (match goal with |- obind (if ?a <=? ?b then _ else _) _ = _ => destruct (Z.leb_spec a b) end; cbn [obind]; [|done]).
  match goal with |- obind (if ?a <=? ?b then _ else _) _ = _ => destruct (Z.leb_spec a b) end; [lia|done].
Qed.

Lemma build_panics num_blocks : num_blocks < 283 -> panics (build_filesystem num_blocks).
Proof.
  intros Hn. apply panics_after; [apply no_error_ignore|]. intros _. apply panics_after; [apply no_error_ignore|]. intros _. apply panics_after.
  - apply no_error_bind; [exact (no_error_lift _ _ bmap_built)|]. intros d. apply no_error_bind; [apply no_error_ignore|]. intros _.
    apply no_error_bind; [exact (no_error_lift _ _ aggregate_built)|]. intros d'. apply no_error_bind; [apply no_error_ignore|]. intros _.
    apply no_error_bind; [exact (no_error_lift _ _ root_built)|]. intros d''. apply no_error_ignore.
  - intros _. apply panics_bind. unfold build_block_alloc_map. apply panics_bind. intros w. unfold slift. by rewrite nfree_panics.
Qed.

(** The write of the log superblock past the end is dropped. *)
Lemma log_write_dropped num_blocks ws (w : MemoryStorage) :
  image num_blocks ws w -> num_blocks < 3842 -> ignore (write_bytes (3841 * BLOCK_SIZE) (ls_bytes mkfs_logsuper)) w = (Ok tt, w).
Proof.
  intros (Hw & Hz & _) Hn. pose proof (mem_write_bytes_spec (3841 * BLOCK_SIZE) (ls_bytes mkfs_logsuper) w Hw ltac:(done)) as Hr.
  assert (Hl : zlen (ls_bytes mkfs_logsuper) = 2116) by (vm_compute; reflexivity). change (contents w) with (ms_data w) in Hz. destruct Hw as [Hms _]. rewrite Hl in Hr.
  unfold BLOCK_SIZE, PSIZE in *. destruct (Z.leb_spec (3841 * 4096 + 2116) (ms_size w)); [lia|]. change (3841 * 4096 + 2116 <? 2 ^ 64) with true in Hr.
  unfold ignore. change (write_bytes (3841 * 4096) (ls_bytes mkfs_logsuper) w) with (mem_write_bytes (3841 * 4096) (ls_bytes mkfs_logsuper) w). by rewrite Hr.
Qed.

Lemma log_super_missing num_blocks ws (w : MemoryStorage) :
  image num_blocks ws w -> num_blocks < 3842 -> read_super (3840 * BLOCK_SIZE) w = (Err (Other "read beyond end of storage: {} > {}"), w).
Proof.
  intros (Hw & Hz & _) Hn. unfold read_super. rewrite (sbind_ok _ _ _ _ _ (lift_run (add_u64 (3840 * BLOCK_SIZE) BLOCK_SIZE) (3841 * BLOCK_SIZE) w eq_refl)).
  pose proof (mem_read_bytes_spec (3841 * BLOCK_SIZE) BLOCK_SIZE w Hw ltac:(done) ltac:(done)) as Hr. change (contents w) with (ms_data w) in Hz. destruct Hw as [Hms _].
  unfold BLOCK_SIZE, PSIZE in *. destruct (Z.leb_spec (3841 * 4096 + 4096) (ms_size w)); [lia|]. change (3841 * 4096 + 4096 <? 2 ^ 64) with true in Hr.
  unfold sbind. change (read_bytes (3841 * 4096) 4096 w) with (mem_read_bytes (3841 * 4096) 4096 w). by rewrite Hr.
Qed.

(** An image that is too small is not noticed when it is made: below 283 blocks
    formatting stops the process by an overflow; from there up to 3841 blocks it
    reports success although the log superblock was not written, and no mount of
    the image succeeds. [newjfs] accepts any number of blocks from 64 on. *)
Theorem small_image_unusable num_blocks (H0 : 0 <= num_blocks) :
  (num_blocks < 283 -> create_filesystem_with_blocks num_blocks = Panic) /\
  (283 <= num_blocks < 3842 -> exists w e w', create_filesystem_with_blocks num_blocks = Ok w /\ mount_from_storage w = (Err e, w')).
Proof.
  split; intros Hn; destruct (image_create_run num_blocks ltac:(lia)) as (w0 & Hm & Hw & Hc); unfold create_filesystem_with_blocks; rewrite Hm; cbn [obind].
  { pose proof (build_panics num_blocks Hn w0) as Hp. destruct (build_filesystem num_blocks w0) as [r w1]. cbn [fst] in Hp. by rewrite Hp. }
  destruct (mkfs_super_wf num_blocks ltac:(lia)) as [_ Hsb]. pose proof (image_empty num_blocks w0 ltac:(lia) Hw Hc) as Hi0.
  destruct (image_write _ _ 8 (sb_bytes (mkfs_super num_blocks)) w0 Hi0) as (w1 & Hr1 & Hi1); [lia|lia|]. pose proof (log_write_dropped _ _ w1 Hi1 ltac:(lia)) as Hr2.
  destruct (build_tables num_blocks _ w1 Hi1 ltac:(lia)) as (w2 & page0 & page1 & Hr3 & Hi2 & _).
  destruct (image_super num_blocks _ w2 Hi2 ltac:(lia) eq_refl) as (w3 & Hr4 & Hi3 & _). destruct (mkfs_super_fields num_blocks ltac:(lia)) as (Hval & _ & Hbs & _ & Hlog & _ & _ & Hbase).
  assert (Hb : build_filesystem num_blocks w0 = (Ok tt, w2)) by (unfold build_filesystem; by rewrite (sbind_ok _ _ _ _ _ Hr1), (sbind_ok _ _ _ _ _ Hr2)).
  assert (Hrd : read_super (3840 * BLOCK_SIZE) w3 = (Err (Other "read beyond end of storage: {} > {}"), w3)) by (eapply log_super_missing; [done|lia]).
  set (v0 := fresh_volume (mounted_super (mkfs_super num_blocks)) w3).
  assert (Hinit : init_log v0 = (Err (Other "read beyond end of storage: {} > {}"), v_with_dev w3 v0)).
  { unfold init_log. change (v_log_storage v0) with (sb_has_inline_log (mounted_super (mkfs_super num_blocks))). change (v_sb v0) with (mounted_super (mkfs_super num_blocks)).
    rewrite Hlog. unfold sb_inline_log_pxd. rewrite Hbase. rewrite (sbind_ok (slift (mul_u64 3840 BLOCK_SIZE)) _ v0 (3840 * BLOCK_SIZE) v0 eq_refl).
    unfold sbind, on_storage. change (v_storage v0) with w3. by rewrite Hrd. }
  rewrite Hb. eexists w2, _, _. split; [reflexivity|].
  unfold mount_from_storage, open_from_storage. rewrite (sbind_ok _ _ _ _ _ Hr4), (sbind_ok _ _ _ _ _ (lift_run _ _ w3 Hval)), Hbs. change (negb (PSIZE =? PSIZE)) with false. cbn iota.
  unfold sbind at 1, sget. unfold sbind at 1, slift, check_geometry. cbn [as_file memory_as_any].
  fold v0. unfold sbind at 1. rewrite Hinit. reflexivity.
Qed.

(** ** Node 1 *)

Lemma missing_inode n (v : Volume MemoryStorage) ino : vol_ok n v -> inode_bytes v ino = None -> exists v', vol_inode_read ino v = (Err inode_not_found, v').
Proof.
  intros Hv Hi. pose proof (inode_read_run (table_view v) ino (v_storage v) (ok_wf n v Hv) (vol_table_ok n v Hv)) as Hr. unfold inode_bytes, slot_at in Hi.
  destruct (List.find _ _) as [loc|]; [done|]. unfold vol_inode_read, on_storage. destruct (inode_read (table_view v) ino (v_storage v)) as [r w'] eqn:E. cbn [fst] in Hr.
  rewrite Hr. { by eexists. }
  intros b' _. cbn [table_view tv_cache]. rewrite cache_empty_peek_block by apply (ok_cache n v Hv). rewrite cached_peek. by rewrite (ok_cache n v Hv).
Qed.

Lemma missing_read {E} (e : E) n (f : FuseFs MemoryStorage) ino : vol_ok n (f_volume f) -> inode_bytes (f_volume f) ino = None -> exists f', read_inode e ino f = (Err e, f').
Proof.
  intros Hv Hi. destruct (missing_inode n _ ino Hv Hi) as (v' & Hr). eexists. unfold read_inode, or_errno, on_volume. rewrite Hr. reflexivity.
Qed.

Lemma missing_getattr n (f : FuseFs MemoryStorage) ino : vol_ok n (f_volume f) -> inode_bytes (f_volume f) ino = None ->
  (exists f', fuse_getattr ino f = (Err tt, f')) /\ (reply_entry ino f).1 = Ok (RError ENOENT) /\ (reply_attr ino f).1 = Ok (RError ENOENT).
Proof.
  intros Hv Hi. destruct (missing_read tt n f ino Hv Hi) as (f' & Hr).
  assert (Hg : fuse_getattr ino f = (Err tt, f')) by (unfold fuse_getattr, sbind; by rewrite Hr).
  split; [by exists f'|]. unfold reply_entry, reply_attr, some_or, attempt, sbind. by rewrite Hg.
Qed.

Lemma missing_lookup n (f : FuseFs MemoryStorage) ino name : vol_ok n (f_volume f) -> inode_bytes (f_volume f) ino = None -> f_node_states f !! ino = None ->
  (some_or ENOENT (fuse_lookup ino name) reply_entry f).1 = Ok (RError ENOENT).
Proof.
  intros Hv Hi Hs. destruct (missing_read tt n f ino Hv Hi) as (f' & Hr). unfold some_or, fuse_lookup, attempt, sbind.
  destruct (bool_decide (name = DOT)).
  - unfold add_node_state. rewrite Hs. cbn [sret]. apply (missing_getattr n (f_with_nodes _ f)); [done|done].
  - destruct (bool_decide (name = DOTDOT)); by rewrite Hr.
Qed.

(** C40: the root of a mounted volume cannot be reached: on a volume that was just
    formatted and mounted, every request for node 1, the number that the FUSE
    protocol gives to the root of a mount, is answered with [ENOENT], whatever
    the name looked up: the handlers pass it on as inode 1, which is not the root
    directory (inode 18) and does not exist. *)
Theorem fresh_root_unreachable num_blocks (Hn : 4096 <= num_blocks < 2 ^ 32) :
  exists w v w', create_filesystem_with_blocks num_blocks = Ok w /\ mount_from_storage w = (Ok v, w') /\
    let f := enable_writable (fuse_new v) in
    (serve (QGetattr 1) f).1 = Ok (Some (RError ENOENT)) /\ (serve (QOpendir 1) f).1 = Ok (Some (RError ENOENT)) /\
    forall name, (serve (QLookup 1 name) f).1 = Ok (Some (RError ENOENT)).
Proof.
  destruct (create_mount num_blocks 0 Hn ltac:(lia) ltac:(lia)) as (w & v & w' & H1 & H2 & Hf). exists w, v, w'. split; [done|]. split; [done|]. cbn zeta.
  set (f := enable_writable (fuse_new v)). pose proof (fr_ok _ _ _ Hf) as Hv. pose proof (fr_one _ _ _ Hf) as Hi.
  assert (Hserve : forall (h : ST (FuseFs MemoryStorage) Empty_set Reply) r, (h f).1 = Ok r -> (sbind h (fun r => sret (Some r)) f).1 = Ok (Some r)).
  { intros h r Hh. unfold sbind. destruct (h f) as [o f']. cbn [fst] in Hh. by rewrite Hh. }
  split; [|split].
  - apply (Hserve (srv_getattr 1)). by apply (missing_getattr 0 f 1).
  - apply (Hserve (srv_opendir 1)). unfold srv_opendir, or_reply, attempt, sbind, fuse_open, or_errno, on_volume, open_file, sbind. change (as_u32 1) with 1.
    destruct (missing_inode 0 v 1 Hv Hi) as (v' & Hr). change (f_volume f) with v. by rewrite Hr.
  - intros name. apply (Hserve (srv_lookup 1 name)). unfold srv_lookup. change (as_u32 1) with 1. by apply (missing_lookup 0 f 1).
Qed.
End fresh.

Section witnesses.
#[local] Existing Instance no_eof.
#[local] Existing Instance sample_order.
#[local] Existing Instance sample_flags.

Lemma fresh_volume_mounts_witness : exists w v w', create_filesystem_with_blocks 4096 = Ok w /\ mount_from_storage w = (Ok v, w') /\ fresh_state 4096 126 v.
Proof.
  destruct (fresh_volume_mounts 4096 126) as (w & v & w' & H1 & H2 & H3 & _); [lia|lia|lia|]. exists w, v, w'. exact (conj H1 (conj H2 H3)).
Defined.

Lemma small_image_unusable_witness : create_filesystem_with_blocks 64 = Panic /\
  exists w e w', create_filesystem_with_blocks 2048 = Ok w /\ mount_from_storage w = (Err e, w').
Proof.
  split.
  - apply (small_image_unusable 64); lia.
  - apply (small_image_unusable 2048); lia.
Defined.

Lemma fresh_root_unreachable_witness : exists w v w', create_filesystem_with_blocks 4096 = Ok w /\ mount_from_storage w = (Ok v, w') /\
  (serve (QGetattr 1) (enable_writable (fuse_new v))).1 = Ok (Some (RError ENOENT)).
Proof.
  destruct (fresh_root_unreachable 4096) as (w & v & w' & H1 & H2 & H3 & _); [lia|]. exists w, v, w'. exact (conj H1 (conj H2 H3)).
Defined.
End witnesses.
