(* ===== verification/Tools.v ===== *)
(** * The command line tools ([src/src/bin])

    [newjfs], [mount] and [jfsck] as functions of their arguments. A run prints
    lines and works on the device of the image; it ends by returning from [main],
    by [process::exit] or with an error. Opening the image is the system call
    [open_device], a parameter; [file_open] is what [FileStorage] does with its
    answer. The lines are kept as values, not as text. *)

From stdpp Require Import gmap.
From Stdlib Require Import ZArith Lia Strings.String Strings.Ascii.
From S2P Require Import Types Utf Storage PageCache Dmap Devices Recovery Inode Xtree Dtree Geometry Volume VolumeData VolumeDir Xattr Check LogMgr Mkfs Fuse FuseFiles FuseServer Prelude.

(** ** Arguments *)

Definition digit (c : ascii) : option Z :=
  let n := Z.of_N (N_of_ascii c) in if (48 <=? n) && (n <=? 57) then Some (n - 48) else None.

Fixpoint parse_digits (width : Z) (acc : Z) (s : string) : option Z :=
  match s with
  | EmptyString => Some acc
  | String c s =>
      match digit c with
      | Some d => let n := acc * 10 + d in if n <? 2 ^ width then parse_digits width n s else None
      | None => None
      end
  end.

(** [str::parse::<u32>] and [<u64>]: digits, with a [+] before them if there is more. *)
Definition parse_uint (width : Z) (s : string) : option Z :=
  match s with
  | EmptyString => None
  | String c (String _ _ as rest) => if Ascii.eqb c "+" then parse_digits width 0 rest else parse_digits width 0 s
  | _ => parse_digits width 0 s
  end.

(** ** Runs of a tool *)

Inductive Stop := Exited (code : Z) | Failed (e : StorageError) | Message (msg : string).

Inductive Location := AtInode (ino : Z) | AtBlock (block : Z) | Nowhere.

(** What is printed. *)
Inductive Line :=
| Text (s : string)
| UnknownMode (mode usage : string)
| IssueLine (prefix : string) (location : Location) (message : string)
| Counts (errors warnings : Z)
| Warnings (warnings : Z)
| Number (label : string) (value : Z)
| Flag (label : string) (value : bool)
| ExtentLine (offset length address : Z)
| Validation (e : option string)
| EntryLine (name : list Z) (ino : Z)
| Target (target : list Z)
| Created (image : string) (blocks bytes state : Z).

Definition USAGE : string := "usage: fsck_jfs --read-only `image`
fsck_jfs --repair `image`
fsck_jfs --replay `image`
fsck_jfs --dump-inode `image` `ino`
fsck_jfs --dump-xtree `image` `ino`
fsck_jfs --dump-dtree `image` `ino`
fsck_jfs --dump-journal `image`".

(** The status that the process returns; an error of [main] is 1, a panic 101. *)
Definition exit_code {A} (r : outcome Stop A) : Z :=
  match r with Ok _ => 0 | Err (Exited code) => code | Err _ => 1 | Panic => 101 end.

(** [FileStorage::open_with_options], with the handle that the system returns. *)
Definition open_with_options (p : Platform) (h : Handle) (read_only : bool) : ST FileStorage StorageError unit := fun s =>
  match from_file p h with
  | Ok g => (Ok tt, mkFS (fs_file s) (g_media_size g) read_only)
  | Err e => (Err e, s)
  | Panic => (Panic, s)
  end.

Section tools.
Context {LE : LittleEndian} {L : Lru PageKey CachedPage} {IOK : IoKind} {HO : HashOrder} {XF : XadFlags}.
Context {W : Type} {FS : Storage W} {AA : AsAny W} (open_device : bool -> ST W StorageError unit).
Abbreviation TM := (ST (list Line * W) Stop).

Definition print (l : Line) : TM unit := smod (fun s => (s.1 ++ [l], s.2)).
Definition stop {A} (e : Stop) : TM A := sfail e.

Definition failed {A} (r : result A) : outcome Stop A := match r with Ok a => Ok a | Err e => Err (Failed e) | Panic => Panic end.

(** The [?] after a call on the device, on the volume, and on a value. *)
Definition dev {A} (m : ST W StorageError A) : TM A := fun s => let (r, w) := m s.2 in (failed r, (s.1, w)).
Definition vol {A} (m : ST (Volume W) StorageError A) (v : Volume W) : TM (A * Volume W) := fun s =>
  let (r, v') := m v in (let! a := failed r in Ok (a, v'), (s.1, v_storage v')).
Definition try {A} (r : result A) : TM A := slift (failed r).

(** ** jfsck *)

(** [FileStorage::open_readonly] or [open], then [Volume::open_from_storage]. *)
Definition open_volume (read_only : bool) : TM (Volume W) :=
  let* _ := dev (open_device read_only) in dev open_from_storage.

(** The loop over the issues of a report: the errors and the warnings. *)
Fixpoint print_issues (issues : list CheckIssue) (errors warnings : Z) : TM (Z * Z) :=
  match issues with
  | [] => sret (errors, warnings)
  | i :: issues =>
      let '(errors, warnings, prefix) :=
        if ci_level i =? 2 then (errors + 1, warnings, "ERROR"%string)
        else if ci_level i =? 1 then (errors, warnings + 1, "WARNING"%string)
        else (errors, warnings, "INFO"%string) in
      let location := match ci_ino i, ci_block i with
                      | Some ino, _ => AtInode ino
                      | _, Some block => AtBlock block
                      | _, _ => Nowhere
                      end in
      let* _ := print (IssueLine prefix location (ci_message i)) in
      print_issues issues errors warnings
  end.

Definition cmd_read_only : TM unit :=
  let* v := open_volume true in
  let* (report, _) := vol check_consistent v in
  let* (errors, warnings) := print_issues (cr_issues report) 0 0 in
  if 0 <? errors then let* _ := print (Counts errors warnings) in stop (Exited 1)
  else if 0 <? warnings then print (Warnings warnings)
  else print (Text "Filesystem is clean.").

Definition print_warnings (warnings : Z) : TM unit := if 0 <? warnings then print (Warnings warnings) else sret tt.

(** The part of [cmd_repair] after the issues are printed. *)
Definition finish_repair (errors warnings : Z) (v : Volume W) : TM unit :=
  let has_structural_errors := 0 <? errors in
  let* has_repairable :=
    if (sb_state (v_sb v) =? FM_DIRTY) && negb has_structural_errors then
      let* _ := vol (set_fs_state FM_CLEAN) v in
      let* _ := print (Text "Repaired: cleared stale FM_DIRTY state (journal replayed).") in
      sret true
    else sret false in
  if has_structural_errors then
    let* _ := print (Counts errors warnings) in
    let* _ := print (Text "Structural errors found — automatic repair is not safe.") in
    stop (Exited 1)
  else if has_repairable : bool then
    let* _ := print_warnings warnings in
    print (Text "Filesystem repaired successfully.")
  else
    let* _ := print_warnings warnings in
    print (Text "Filesystem is clean.").

Definition cmd_repair : TM unit :=
  let* v := open_volume false in
  let* (report, v) := vol check_consistent v in
  let* (errors, warnings) := print_issues (cr_issues report) 0 0 in
  finish_repair errors warnings v.

Definition cmd_replay : TM unit :=
  let* _ := open_volume false in
  print (Text "Journal replayed successfully.").

Fixpoint print_extents (l : list Extent) : TM unit :=
  match l with
  | [] => sret tt
  | e :: l => let* _ := print (ExtentLine (e_offset e) (e_length e) (e_address e)) in print_extents l
  end.

Definition cmd_dump_inode (ino : Z) : TM unit :=
  let* v := open_volume true in
  let* (inode, _) := vol (vol_inode_read ino) v in
  let d := in_dinode inode in
  let* _ := print (Number "Inode" ino) in
  let* _ := print (Number "mode" (dinode_mode d)) in
  let* _ := print (Number "size" (dinode_size_val d)) in
  let* _ := print (Number "nlink" (dinode_nlink d)) in
  let* _ := print (Number "uid" (dinode_uid d)) in
  let* _ := print (Number "gid" (dinode_gid d)) in
  let* _ := print (Number "nblock" (dinode_nblocks d)) in
  let* _ := print (Flag "is_dir" (dinode_is_dir d)) in
  let* _ := print (Flag "is_reg" (dinode_is_regular d)) in
  let* _ := print (Flag "is_lnk" (dinode_is_symlink d)) in
  let* _ := if dinode_is_regular d || dinode_is_dir d then
              let* xt := try (xt_from_inode_data (dinode_xtroot_bytes d)) in
              let* _ := print (Number "xtree next_index" (xtroot_next_index xt)) in
              print_extents (iter_extents from_bits_truncate xt)
            else sret tt in
  let* _ := if dinode_is_dir d then
              let* dt := try (dt_from_inode_data (dinode_dtroot_bytes d)) in
              let* n := try (dt_len_entries dt) in
              print (Number "dtree entries" n)
            else sret tt in
  if dinode_is_symlink d then
    let* target := try (slice (di_u d) 0 (dinode_size_val d)) in
    print (Target (from_utf8_lossy target))
  else sret tt.

Definition cmd_dump_xtree (ino : Z) : TM unit :=
  let* v := open_volume true in
  let* (inode, _) := vol (vol_inode_read ino) v in
  let* xt := try (xt_from_inode_data (dinode_xtroot_bytes (in_dinode inode))) in
  let* _ := print (Number "Xtree for inode" ino) in
  let* _ := print (Number "next_index" (xtroot_next_index xt)) in
  let* _ := match xt_validate xt with
            | Ok _ => print (Validation None)
            | Err e => print (Validation (Some e))
            | Panic => spanic
            end in
  print_extents (iter_extents from_bits_truncate xt).

Fixpoint print_entries (l : list DirEntry) : TM unit :=
  match l with
  | [] => sret tt
  | e :: l => let* _ := print (EntryLine (name_str e) (de_inumber e)) in print_entries l
  end.

Definition cmd_dump_dtree (ino : Z) : TM unit :=
  let* v := open_volume true in
  let* (inode, _) := vol (vol_inode_read ino) v in
  let* dt := try (dt_from_inode_data (dinode_dtroot_bytes (in_dinode inode))) in
  let* _ := print (Number "Dtree for inode" ino) in
  let* n := try (dt_len_entries dt) in
  let* _ := print (Number "entries" n) in
  let* entries := try (dt_entries dt) in
  print_entries entries.

Definition state_name (state : Z) : string :=
  if state =? LOGMOUNT then "LOGMOUNT"
  else if state =? LOGREDONE then "LOGREDONE (clean)"
  else if state =? LOGWRAP then "LOGWRAP (needs recovery)"
  else if state =? LOGREADERR then "LOGREADERR"
  else "unknown".

Definition cmd_dump_journal : TM unit :=
  let* _ := dev (open_device true) in
  let* sb := dev vol_read_super in
  if negb (sb_has_inline_log sb) then print (Text "No inline log found.")
  else
    let* log_base := try (mul_u64 (pxd_address (sb_inline_log_pxd sb)) BLOCK_SIZE) in
    let* ls := dev (read_super log_base) in
    let* _ := print (Text "Log superblock:") in
    let* _ := print (Number "magic" (ls_magic_val ls)) in
    let* _ := print (Number "version" (ls_get_version ls)) in
    let* _ := print (Number "state" (ls_get_state ls)) in
    let* _ := print (Number "end" (ls_get_end ls)) in
    let* _ := print (Number "pages" (ls_page_size ls)) in
    let* _ := print (Number "bsize" (ls_block_size ls)) in
    print (Text (state_name (ls_get_state ls))).

(** A mode that needs an inode number. *)
Definition with_ino (usage : string) (rest : list string) (cmd : Z -> TM unit) : TM unit :=
  match rest with
  | [] => let* _ := print (Text usage) in stop (Exited 1)
  | arg :: _ => match parse_uint 32 arg with Some ino => cmd ino | None => stop (Message "invalid inode number") end
  end.

Definition jfsck (args : list string) : TM unit :=
  match args with
  | _ :: mode :: _ :: rest =>
      if (mode =? "--read-only")%string then cmd_read_only
      else if (mode =? "--repair")%string then cmd_repair
      else if (mode =? "--replay")%string then cmd_replay
      else if (mode =? "--dump-inode")%string then with_ino "usage: fsck_jfs --dump-inode `image` `ino`" rest cmd_dump_inode
      else if (mode =? "--dump-xtree")%string then with_ino "usage: fsck_jfs --dump-xtree `image` `ino`" rest cmd_dump_xtree
      else if (mode =? "--dump-dtree")%string then with_ino "usage: fsck_jfs --dump-dtree `image` `ino`" rest cmd_dump_dtree
      else if (mode =? "--dump-journal")%string then cmd_dump_journal
      else let* _ := print (UnknownMode mode USAGE) in stop (Exited 1)
  | _ => let* _ := print (Text USAGE) in stop (Exited 1)
  end.

(** ** newjfs *)

Definition NEWJFS_NUM_BLOCKS : Z := 4096.

Definition NEWJFS_USAGE : list string :=
  ["usage: newjfs `image` [size_in_blocks]"; EmptyString; "Create a JFS filesystem image."; EmptyString; "Arguments:";
   "  image            Path to the output image file (will be created or truncated).";
   "  size_in_blocks   Number of 4 KiB blocks (default: {} = 16 MiB)"]%string.

Fixpoint print_lines (l : list string) : TM unit :=
  match l with [] => sret tt | t :: l => let* _ := print (Text t) in print_lines l end.

(** [create_image] stands for creating the file with [set_len]. *)
Definition newjfs (create_image : string -> Z -> ST W StorageError unit) (args : list string) : TM unit :=
  match args with
  | _ :: image :: rest =>
      match (match rest with arg :: _ => parse_uint 64 arg | [] => Some NEWJFS_NUM_BLOCKS end) with
      | None => stop (Message "invalid block count")
      | Some num_blocks =>
          if num_blocks <? 64 then
            let* _ := print (Text "error: filesystem must be at least 64 blocks") in stop (Exited 1)
          else
            let* total_size := try (mul_u64 num_blocks BLOCK_SIZE) in
            let* _ := dev (create_image image total_size) in
            let* _ := dev (open_device false) in
            let* _ := dev (build_filesystem num_blocks) in
            let* s := sget in
            print (Created image (size_blocks s.2) total_size FM_CLEAN)
      end
  | _ => let* _ := print_lines NEWJFS_USAGE in stop (Exited 1)
  end.

(** ** mount *)

Inductive MountOption := FSName (name : string) | RO.
Inductive SessionACL := AclAll | AclOwner.

(** What is handed to [fuser::spawn_mount]. *)
Record Session := mkSession {
  ss_fs : FuseFs W; ss_mountpoint : string; ss_options : list MountOption; ss_acl : SessionACL; ss_threads : Z }.

(** An error of a call that is reported and ends the run with status 1. *)
Definition or_exit {A} (msg : string) (m : TM A) : TM A := fun s =>
  match m s with
  | (Err _, (ls, w)) => (Err (Exited 1), (ls ++ [Text msg], w))
  | r => r
  end.

Definition has_flag (flag : string) (args : list string) : bool := existsb (fun a => (a =? flag)%string) (skipn 3 args).

Definition mount_main (args : list string) : TM Session :=
  match args with
  | _ :: _ :: mountpoint :: _ =>
      let read_only := has_flag "--ro" args in
      let allow_other := has_flag "--allow-other" args in
      let* v := if read_only then or_exit "Error opening volume: {}" (open_volume true)
                else or_exit "Error mounting volume: {}" (let* _ := dev (open_device false) in dev mount_from_storage) in
      let fs := fuse_new v in
      let fs := if read_only then fs else enable_writable fs in
      sret (mkSession fs mountpoint (FSName "jfs" :: if read_only then [RO] else [])
              (if allow_other then AclAll else AclOwner) 4)
  | _ => let* _ := print (Text "usage: {} <device> <mountpoint> [--ro] [--allow-other]") in stop (Exited 1)
  end.
End tools.
