(* ===== verification/ToolsRun.v ===== *)
(** * What the checker and its repair do to an image

    [check_consistent] only reads; [jfsck --repair] opens the image, which replays
    its journal when that is not marked as replayed, and then clears a stale dirty
    state and nothing else, and only when the check found nothing. *)

From stdpp Require Import gmap.
From Stdlib Require Import ZArith Lia.
From S2P Require Import Types Utf Storage PageCache Dmap Devices Recovery Inode Xtree Dtree Geometry Volume VolumeData VolumeDir Xattr Check LogMgr Sample Mkfs FuseState Fresh FuseRoot Tools Prelude.

Section checker.
Context {LE : LittleEndian} {LES : LittleEndianSpec} {L : Lru PageKey CachedPage} {XF : XadFlags}.
Context {W : Type} {FS : Storage W} {SS : StorageSpec W}.

(** ** Reading *)

Context (c : list byte).
Definition same_bytes (w : W) : Prop := st_wf w /\ contents w = c.

Lemma read_keeps b : 0 <= b -> keeps same_bytes (read_block b).
Proof. intros Hb w [Hw Hc]. destruct (st_read_block b w Hw Hb) as (Hw' & Hc' & _). split; congruence. Qed.

Lemma table_page_keeps v b : 0 <= b -> keeps same_bytes (table_page v b).
Proof. intros Hb. unfold table_page. destruct (pc_peek_block _ _); [apply keeps_ret|by apply read_keeps]. Qed.

Lemma scan_table_keeps v target blocks : Forall (fun b => 0 <= b) blocks -> keeps same_bytes (scan_table v target blocks).
Proof.
  induction 1 as [|b blocks Hb Hbs IH]; cbn [scan_table]; [apply keeps_ret|]. apply keeps_if; [done|]. apply keeps_bind; [by apply table_page_keeps|]. intros data.
  apply keeps_bind; [apply keeps_lift|]. intros [off|]; [apply keeps_ret|done].
Qed.

Lemma scan_table_in v target blocks : post (fun r => match r with Some loc => loc.1 ∈ blocks | None => True end) (scan_table v target blocks).
Proof.
  induction blocks as [|b blocks IH]; cbn [scan_table]; [by apply post_ret|].
  assert (IH' : post (fun r : option (Z * Z) => match r with Some loc => loc.1 ∈ b :: blocks | None => True end) (scan_table v target blocks)).
  { intros w r w' Hr. specialize (IH w r w' Hr). destruct r; [by right|done]. }
  apply post_if; [done|]. apply post_bind. intros data. apply post_bind. intros [off|]; [|done]. apply post_ret. apply list_elem_of_here.
Qed.

Lemma inode_read_keeps v ino : 0 <= pxd_address (tv_ait2 v) -> keeps same_bytes (inode_read v ino).
Proof.
  intros H0. assert (Hb : Forall (fun b => 0 <= b) (table_blocks v)) by (apply Forall_forall; intros b Hb; apply elem_of_range in Hb; lia).
  intros w Hw. unfold inode_read, find_inode_page. unfold sbind at 1, sbind at 1. pose proof (scan_table_keeps v (inode_target ino) _ Hb w Hw) as Hk.
  destruct (scan_table v (inode_target ino) (table_blocks v) w) as [[[[block off]|]|e|] w1] eqn:E; cbn [snd] in Hk |- *; try done.
  apply scan_table_in in E. cbn [fst] in E. rewrite Forall_forall in Hb. specialize (Hb block E). revert w1 Hk.
  refine (keeps_bind same_bytes _ _ _ _); [destruct (pc_peek _ _ _); [apply keeps_ret|by apply read_keeps]|]. intros data.
  apply keeps_bind; [apply keeps_lift|]. intros d. apply keeps_bind; [apply keeps_lift|]. intros d'. apply keeps_ret.
Qed.

(** The volume has this superblock, and the device these bytes. *)
Definition same_volume (sb : JfsSuperblock) (v : Volume W) : Prop := v_sb v = sb /\ same_bytes (v_storage v).

Lemma try_inode_keeps sb ino : 0 <= pxd_address (s_ait2 sb) -> keeps (same_volume sb) (try_inode ino).
Proof.
  intros H0 v [Hsb Hw]. unfold try_inode, vol_inode_read, on_storage. pose proof (inode_read_keeps (table_view v) ino) as Hk. cbn [table_view tv_ait2] in Hk.
  specialize (Hk ltac:(by rewrite Hsb) (v_storage v) Hw). destruct (inode_read (table_view v) ino (v_storage v)) as [[i|e|] w']; done.
Qed.

Lemma for_children_keeps sb entries body : forall report, 0 <= pxd_address (s_ait2 sb) -> keeps (same_volume sb) (for_children entries body report).
Proof.
  induction entries as [|e entries IH]; intros report H0; cbn [for_children]; [apply keeps_ret|]. apply keeps_if; [by apply IH|].
  apply keeps_bind; [by apply try_inode_keeps|]. intros child. apply keeps_bind; [apply keeps_lift|]. intros r. by apply IH.
Qed.

Lemma check_root_keeps sb ino size r : 0 <= pxd_address (s_ait2 sb) -> keeps (same_volume sb) (check_root ino size r).
Proof.
  intros H0. apply keeps_bind; [by apply try_inode_keeps|]. intros [root|]; [|apply keeps_ret].
  destruct (dt_from_inode_data _) as [t|e|]; [|apply keeps_ret|apply keeps_panic]. apply keeps_bind; [apply keeps_lift|]. intros entries.
  apply keeps_bind; [by apply for_children_keeps|]. intros r1. apply keeps_bind; [by apply for_children_keeps|]. intros r2. by apply for_children_keeps.
Qed.

Lemma check_keeps sb : 0 <= pxd_address (s_ait2 sb) -> keeps (same_volume sb) check_consistent.
Proof. intros H0 v Hv. unfold check_consistent. by apply check_root_keeps. Qed.

(** ** Opening *)

Lemma keeps_seq {S E A B} (P : S -> Prop) (Q : A -> Prop) (m : ST S E A) (k : A -> ST S E B) :
  keeps P m -> post Q m -> (forall a, Q a -> keeps P (k a)) -> keeps P (sbind m k).
Proof. intros Hm Hq Hk s Hs. unfold sbind. specialize (Hm s Hs). destruct (m s) as [[a|e|] s'] eqn:E1; cbn [snd] in *; [|done..]. apply Hk; [|done]. by eapply Hq. Qed.

Lemma read_bytes_keeps off len : 0 <= off -> 0 <= len -> keeps same_bytes (read_bytes off len).
Proof. intros Ho Hl w [Hw Hc]. destruct (st_read_bytes off len w Hw Ho Hl) as (Hw' & Hc' & _). split; congruence. Qed.

Lemma slice_len {E A} (l : list A) a b x : slice (E := E) l a b = Ok x -> zlen x = b - a.
Proof. unfold slice. destruct (_ && _) eqn:Eb; [|done]. intros [= <-]. rewrite zlen_zslice; lia. Qed.

Lemma u32_nonneg (l : list byte) a : 0 <= a -> a + 4 <= zlen l -> 0 <= read_u32 (zslice l a (a + 4)).
Proof. intros Ha Hl. apply read_u32_range. rewrite length_zslice; lia. Qed.

Lemma joined_nonneg h l : 0 <= h -> 0 <= l -> 0 <= Z.lor (Z.shiftl h 32) l.
Proof. intros Hh Hl. apply Z.lor_nonneg. split; [by apply Z.shiftl_nonneg|done]. Qed.

Lemma pxd_addr_nonneg p : zlen p = 8 -> 0 <= parse_pxd_addr p.
Proof.
  intros Hp. unfold parse_pxd_addr. apply joined_nonneg; [apply Z.shiftr_nonneg; apply (u32_nonneg p 0)|apply (u32_nonneg p 4)]; lia.
Qed.

Lemma bmap_scan_keeps ait offs : 0 <= ait -> Forall (fun o => 0 <= o) offs ->
  keeps same_bytes (bmap_scan_blocks ait offs) /\ post (fun r : Z * Z => 0 <= r.1) (bmap_scan_blocks (D := W) ait offs).
Proof.
  intros Ha. induction 1 as [|o offs Ho Hos [IH1 IH2]]; cbn [bmap_scan_blocks]; [split; [apply keeps_fail|by intros w]|]. split.
  - intros w Hw. cbn zeta. destruct (_ <=? _); [by apply IH1|]. revert w Hw. refine (keeps_bind same_bytes _ _ _ _); [apply read_keeps; lia|]. intros data.
    destruct (bmap_scan_slots _ _); [apply keeps_ret|exact IH1].
  - intros w r w'. cbn zeta. destruct (_ <=? _); [by apply IH2|]. intros (data & w1 & _ & H)%sbind_inv.
    destruct (bmap_scan_slots _ _); [injection H as <- <-; cbn; lia|by eapply IH2].
Qed.

Lemma bmap_xtroot_nonneg dinode a len : zlen dinode = 512 -> parse_bmap_xtroot dinode = Ok (a, len) -> 0 <= a.
Proof.
  intros Hz. unfold parse_bmap_xtroot. rewrite Hz. cbn [Z.ltb Z.compare Pos.compare Pos.compare_cont]. set (xt := zslice dinode _ _).
  assert (Hx : zlen xt = 288) by (unfold xt; rewrite zlen_zslice; lia).
  assert (Hfirst : forall n k e, (2 <= k)%Z -> bmap_first_extent xt (range k n) = Some e -> 0 <= e.1).
  { intros n k e Hk. remember (Z.to_nat (n - k)) as m eqn:Em. revert k Em Hk. induction m as [|m IH]; intros k Em Hk; [by rewrite range_nil by lia|].
    rewrite range_cons by lia. cbn [bmap_first_extent]. destruct (Z.ltb_spec (zlen xt) (32 + (k - 2) * 16 + 16)); [done|]. cbn zeta.
    destruct (0 <? _); [|apply IH; lia]. intros [= <-]. cbn [fst]. apply joined_nonneg; [apply Z.land_nonneg; right; lia|]. apply (u32_nonneg _ 12); rewrite ?zlen_zslice; lia. }
  destruct (bmap_first_extent _ _) as [e|] eqn:Ef; [intros [= ->]; by eapply (Hfirst _ 2 (a, len)); [|exact Ef]|].
  cbn zeta. destruct (0 <? _); [|done]. intros [= <- _]. apply joined_nonneg; [apply Z.land_nonneg; right; lia|]. apply (u32_nonneg _ 28); lia.
Qed.

Lemma load_pages_keeps start idxs : 0 <= start -> Forall (fun o => 0 <= o) idxs -> forall m, keeps same_bytes (bam_load_pages start idxs m).
Proof.
  intros Hs. induction 1 as [|i idxs Hi His IH]; intros m; cbn [bam_load_pages]; [apply keeps_ret|]. intros w Hw. cbn zeta. destruct (_ <=? _); [done|].
  revert w Hw. refine (keeps_bind same_bytes _ _ _ _); [apply read_keeps; lia|]. intros page. apply IH.
Qed.

Lemma range_nonneg n : Forall (fun o => 0 <= o) (range 0 n).
Proof. apply Forall_forall. intros o Ho%elem_of_range. lia. Qed.

(** Loading the map only reads. *)
Lemma bam_new_keeps : keeps same_bytes (bam_new (D := W)).
Proof.
  unfold bam_new, find_bmap_inode. apply (keeps_seq _ (fun r : Z * Z => 0 <= r.1)).
  - apply keeps_bind; [apply read_bytes_keeps; unfold SUPER1_OFF, PSIZE; lia|]. intros data. eapply keeps_seq; [apply keeps_lift|apply post_lift; intros x Hx; exact (slice_len _ _ _ _ Hx)|].
    intros pxd Hp. cbn beta in Hp. apply bmap_scan_keeps; [apply pxd_addr_nonneg; lia|apply range_nonneg].
  - intros w r w' H. apply sbind_inv in H as (data & w1 & _ & H). apply sbind_inv in H as (pxd & w2 & Hp & H). injection Hp as Hp <-. apply slice_len in Hp.
    eapply bmap_scan_keeps; [apply (pxd_addr_nonneg pxd); lia|apply range_nonneg|exact H].
  - intros [block off] Hb. cbn [fst] in Hb. apply keeps_bind; [by apply read_keeps|]. intros page. eapply keeps_seq; [apply keeps_lift|apply post_lift; intros x Hx; exact (slice_len _ _ _ _ Hx)|].
    intros dinode Hz. cbn beta in Hz. apply (keeps_seq _ (fun r : Z * Z => 0 <= r.1)); [apply keeps_lift|apply post_lift; intros [a len] Hx; eapply bmap_xtroot_nonneg; [|exact Hx]; unfold DISIZE in Hz; lia|].
    intros [start len] Hs. cbn [fst] in Hs. apply keeps_bind; [by apply read_keeps|]. intros desc. cbn zeta. repeat (apply keeps_bind; [apply keeps_lift|intros ?]).
    apply keeps_bind; [by apply load_pages_keeps, range_nonneg|]. intros m w Hw. exact Hw.
Qed.

(** The superblock has whole extent descriptors. *)
Lemma super_pxd_nonneg data a : 0 <= a -> 0 <= pxd_address (super_pxd data a (a + 8)).
Proof.
  intros Ha. apply pxd_address_range. unfold super_pxd. destruct (_ <=? _); [apply wf_pxd_from_bytes|apply wf_pxd_default].
Qed.

(** ** The report *)

(** Every issue is an error: the checker has no warnings. *)
Definition errors_only (r : CheckReport) : Prop := Forall (fun i => ci_level i = 2) (cr_issues r).

Lemma errors_add i r : ci_level i = 2 -> errors_only r -> errors_only (add_issue i r).
Proof. intros Hi Hr. apply Forall_app. split; [done|]. by constructor. Qed.

Lemma for_children_errors entries body :
  (forall ino child r r', errors_only r -> body ino child r = Ok r' -> errors_only r') ->
  forall r, errors_only r -> post errors_only (for_children (FS := FS) entries body r).
Proof.
  intros Hb. induction entries as [|e entries IH]; intros r Hr; cbn [for_children]; [by apply post_ret|]. apply post_if; [by apply IH|].
  apply post_bind. intros child. apply (post_seq errors_only); [|intros r' Hr'; by apply IH]. intros v r' v' [= Hr' _]. by eapply Hb.
Qed.

Lemma check_mode_errors ino child r r' : errors_only r -> check_mode ino child r = Ok r' -> errors_only r'.
Proof. intros Hr. unfold check_mode. destruct child; [destruct (_ =? 0)|]; intros [= <-]; try done; by apply errors_add. Qed.
Lemma check_extents_errors size ino child r r' : errors_only r -> check_extents size ino child r = Ok r' -> errors_only r'.
Proof.
  intros Hr. unfold check_extents. destruct child as [i|]; [|by intros [= <-]]. destruct (dinode_is_regular _); [|by intros [= <-]].
  destruct (xt_from_inode_data _) as [xt|e|]; [|by intros [= <-]|done].
  assert (Hx : forall r0 l, errors_only r0 -> errors_only (fold_left (fun r e => if size <=? e_address e then add_error_block "extent address {} exceeds volume size" (e_address e) r else r) l r0)).
  { intros r0 l. revert r0. induction l as [|e l IH]; intros r0 Hr0; cbn [fold_left]; [done|]. apply IH. destruct (_ <=? _); [by apply errors_add|done]. }
  destruct (xt_validate xt); cbn [obind]; [|intros [= <-]|done]; [intros [= <-]; by apply Hx|]. apply Hx. by apply errors_add.
Qed.
Lemma check_xattr_errors ino child r r' : errors_only r -> check_xattr ino child r = Ok r' -> errors_only r'.
Proof. intros Hr. unfold check_xattr. destruct child; [destruct (_ && _)|]; intros [= <-]; try done. by apply errors_add. Qed.

Lemma check_root_errors ino size r : errors_only r -> post errors_only (check_root (FS := FS) ino size r).
Proof.
  intros Hr. apply post_bind. intros [root|]; [|apply post_ret; by apply errors_add]. set (r' := if dinode_is_dir _ then r else _).
  assert (Hr' : errors_only r') by (unfold r'; destruct (dinode_is_dir _); [done|by apply errors_add]). destruct (dt_from_inode_data _) as [t|e|]; [|apply post_ret; by apply errors_add|by intros v].
  apply post_bind. intros entries. eapply post_seq; [apply for_children_errors; [apply check_mode_errors|done]|]. intros r1 H1.
  eapply post_seq; [apply for_children_errors; [apply check_extents_errors|done]|]. intros r2 H2. apply for_children_errors; [apply check_xattr_errors|done].
Qed.

Lemma check_errors : post errors_only (check_consistent (FS := FS)).
Proof.
  intros v report v' H. unfold check_consistent in H. eapply check_root_errors; [|exact H]. assert (Hd : errors_only report_default) by constructor.
  destruct (v_log v); [destruct (_ =? LOGMAGIC)|]; destruct (sb_is_valid_magic _); try done; by repeat apply errors_add.
Qed.
End checker.

(** ** Repairing *)

(** Only the state of the superblock differs. *)
Lemma state_only {LE : LittleEndian} {LES : LittleEndianSpec} (c : list byte) state :
  0 <= state < 2 ^ 32 -> SUPER1_OFF + PSIZE <= zlen c ->
  same_outside (SUPER1_OFF + 40) 4 c (zsplice c SUPER1_OFF (zsplice (zslice c SUPER1_OFF (SUPER1_OFF + PSIZE)) 40 (write_u32 state))).
Proof.
  intros Hs Hz. assert (Hl : zlen (write_u32 state) = 4) by (unfold zlen; by rewrite length_write_u32). unfold SUPER1_OFF, PSIZE in *.
  assert (Hp : zlen (zslice c 32768 (32768 + 4096)) = 4096) by (rewrite zlen_zslice; lia).
  assert (Hb : zlen (zsplice (zslice c 32768 (32768 + 4096)) 40 (write_u32 state)) = 4096) by (rewrite zlen_zsplice; lia).
  split; [rewrite zlen_zsplice; lia|]. intros i Hi. rewrite lookup_zsplice by lia. case_decide; [|done]. rewrite lookup_zsplice by lia. rewrite decide_False by lia.
  rewrite lookup_zslice by lia. rewrite decide_True by lia. f_equal. lia.
Qed.

Section repair.
Context {LE : LittleEndian} {LES : LittleEndianSpec} {L : Lru PageKey CachedPage} {IOK : IoKind} {XF : XadFlags}.
Context {W : Type} {FS : Storage W} {SS : StorageSpec W} {SR : StorageReliable W} {AA : AsAny W} (open_device : bool -> ST W StorageError unit).

Lemma print_issues_run issues : Forall (fun i => ci_level i = 2) issues -> forall errors warnings s,
  exists ls, print_issues (W := W) issues errors warnings s = (Ok (errors + zlen issues, warnings), (s.1 ++ ls, s.2)).
Proof.
  induction 1 as [|i issues Hi His IH]; intros errors warnings s; cbn [print_issues].
  { exists []. rewrite app_nil_r, Z.add_0_r. by destruct s. }
  rewrite Hi. change (2 =? 2) with true. cbn iota beta. unfold sbind at 1, print, smod. destruct (IH (errors + 1) warnings (s.1 ++ [IssueLine "ERROR" (match ci_ino i, ci_block i with Some ino, _ => AtInode ino | _, Some block => AtBlock block | _, _ => Nowhere end) (ci_message i)], s.2)) as (ls & Hr).
  rewrite Hr. cbn [fst snd]. eexists. rewrite <- app_assoc, zlen_cons, Z.add_assoc. done.
Qed.

Lemma clean_iff report : errors_only report -> is_clean report = negb (0 <? zlen (cr_issues report)).
Proof.
  intros He. unfold is_clean. destruct report as [[|i issues] b]; [done|]. cbn [cr_issues existsb]. apply Forall_cons in He as [Hi _]. rewrite Hi. cbn [orb negb].
  rewrite zlen_cons. pose proof (zlen_nonneg issues). by destruct (Z.ltb_spec 0 (1 + zlen issues)); [|lia].
Qed.

Lemma finish_errors errors (v : Volume W) s : 0 < errors -> exists ls, finish_repair errors 0 v s = (Err (Exited 1), (ls, s.2)).
Proof. intros He. unfold finish_repair. destruct (Z.ltb_spec 0 errors); [|lia]. cbn [negb]. rewrite andb_false_r. by eexists. Qed.
Lemma finish_clean (v : Volume W) s : sb_state (v_sb v) <> FM_DIRTY -> exists ls, finish_repair 0 0 v s = (Ok tt, (ls, s.2)).
Proof. intros Hd. unfold finish_repair. apply Z.eqb_neq in Hd. rewrite Hd. by eexists. Qed.
Lemma finish_dirty (v v' : Volume W) s : sb_state (v_sb v) = FM_DIRTY -> set_fs_state FM_CLEAN v = (Ok tt, v') ->
  exists ls, finish_repair 0 0 v s = (Ok tt, (ls, v_storage v')).
Proof. intros Hd Hs. unfold finish_repair. rewrite Hd. cbn [negb Z.ltb]. unfold sbind, vol. cbn. rewrite Hs. cbn. by eexists. Qed.

(** What the command does to the mounted image. *)
Lemma repair_mounted w0 w w' (v v1 : Volume W) report
  (Ho : open_device false w0 = (Ok tt, w)) (Hv : open_from_storage w = (Ok v, w')) (Hwf : st_wf (v_storage v)) (H0 : 0 <= pxd_address (s_ait2 (v_sb v)))
  (Hz : SUPER1_OFF + PSIZE <= zlen (contents (v_storage v))) (Hc : check_consistent v = (Ok report, v1)) :
  let r := cmd_repair open_device ([], w0) in
  let before := contents (v_storage v) in
  let after := contents r.2.2 in
  if is_clean report then
    exit_code r.1 = 0 /\
    if sb_state (v_sb v) =? FM_DIRTY
    then zslice after (SUPER1_OFF + 40) (SUPER1_OFF + 44) = write_u32 FM_CLEAN /\ same_outside (SUPER1_OFF + 40) 4 before after
    else after = before
  else exit_code r.1 = 1 /\ after = before.
Proof.
  pose proof (check_errors v report v1 Hc) as He. rewrite (clean_iff report He). destruct (check_keeps (contents (v_storage v)) (v_sb v) H0 v) as [Hsb [Hw1 Hc1]]; [done|]. rewrite Hc in Hsb, Hw1, Hc1. cbn [snd] in Hsb, Hw1, Hc1.
  destruct (print_issues_run (cr_issues report) He 0 0 ([], v_storage v1)) as (ls & Hp). cbn [fst snd] in Hp. rewrite Z.add_0_l in Hp.
  assert (Hrun : cmd_repair open_device ([], w0) = finish_repair (zlen (cr_issues report)) 0 v1 (ls, v_storage v1)).
  { unfold cmd_repair. rewrite (sbind_ok _ _ _ v ([], w')).
    - unfold sbind at 1, vol. rewrite Hc. cbn [failed obind]. by rewrite (sbind_ok _ _ _ _ _ Hp).
    - unfold open_volume, sbind, dev. cbn [fst snd]. rewrite Ho. cbn [failed fst snd]. by rewrite Hv. }
  cbv zeta. rewrite Hrun. pose proof (zlen_nonneg (cr_issues report)) as Hn. destruct (0 <? zlen (cr_issues report)) eqn:Hlen; cbn [negb].
  - destruct (finish_errors (zlen (cr_issues report)) v1 (ls, v_storage v1)) as (ls' & Hr); [lia|]. rewrite Hr. done.
  - replace (zlen (cr_issues report)) with 0 by lia. destruct (sb_state (v_sb v) =? FM_DIRTY) eqn:Hd.
    + destruct (set_fs_state_run FM_CLEAN v1 ltac:(split; [discriminate|reflexivity]) Hw1 ltac:(by rewrite Hc1)) as (w2 & Hr2 & Hw2 & Hc2). rewrite Hc1 in Hc2.
      destruct (finish_dirty v1 _ (ls, v_storage v1) ltac:(rewrite Hsb; lia) Hr2) as (ls' & Hr). rewrite Hr. cbn [fst snd v_storage v_with_sb v_with_dev v_set]. rewrite Hc2.
      split; [done|]. split; [|apply state_only; [split; [discriminate|reflexivity]|done]]. apply state_written; [split; [discriminate|reflexivity]|done].
    + destruct (finish_clean v1 (ls, v_storage v1)) as (ls' & Hr); [rewrite Hsb; lia|]. by rewrite Hr.
Qed.

(** ** The image that is opened *)

(** The journal is not replayed: there is none, or it is marked as replayed. *)
Definition replayed (v : Volume W) : bool :=
  match v_log v with Some log => ls_get_state (lm_logsuper log) =? LOGREDONE | None => true end.

Lemma init_log_keeps c sb (v v' : Volume W) :
  v_sb v = sb -> 0 <= pxd_address (s_logpxd sb) -> same_bytes c (v_storage v) -> init_log v = (Ok tt, v') -> v_sb v' = sb /\ same_bytes c (v_storage v').
Proof.
  intros Hsb H0 Hw. unfold init_log. destruct (v_log_storage v); [|intros [= <-]; by split]. intros (base & v1 & H1 & H)%sbind_inv.
  assert (v1 = v /\ 0 <= base) as [-> Hb].
  { revert H1. rewrite Hsb. destruct (sb_has_inline_log sb); [|intros [= <- <-]; done]. unfold slift, mul_u64, sb_inline_log_pxd.
    destruct (_ <? _); intros [= <- <-]. split; [done|]. unfold BLOCK_SIZE, PSIZE. lia. }
  apply sbind_inv in H as (super & v2 & H2 & H).
  assert (v_sb v2 = sb /\ same_bytes c (v_storage v2)) as [Hsb2 Hw2].
  { revert H2. unfold on_storage. assert (Hk : keeps (same_bytes c) (read_super base)).
    { unfold read_super. apply (keeps_seq _ (fun off => 0 <= off)); [apply keeps_lift| |].
      - apply post_lift. intros off. unfold add_u64. destruct (_ <? _); intros [= <-]. unfold BLOCK_SIZE, PSIZE. lia.
      - intros off Ho. apply keeps_bind; [apply read_bytes_keeps; [done|unfold BLOCK_SIZE, PSIZE; lia]|]. intros data. apply keeps_ret. }
    specialize (Hk (v_storage v) Hw). destruct (read_super base (v_storage v)) as [r w]. intros [= _ <-]. by split. }
  destruct (negb (ls_magic_val super =? LOGMAGIC)); [done|]. destruct (negb (ls_get_version super =? LOGVERSION)); [done|]. by injection H as <-.
Qed.

Lemma recover_keeps_super (v v' : Volume W) : recover_journal v = (Ok tt, v') -> v_sb v' = v_sb v /\ v_log v' = v_log v.
Proof.
  unfold recover_journal. destruct (v_log v) as [log|] eqn:El; [|intros [= <-]; done]. destruct (_ =? LOGREDONE); [intros [= <-]; done|].
  destruct (v_log_storage v); [|intros [= <-]; done]. intros (start & v1 & [= _ <-] & H)%sbind_inv.
  assert (Hs : forall {A} (io : ST W StorageError A) (x y : Volume W) r, on_storage io x = (Ok r, y) -> v_sb y = v_sb x /\ v_log y = v_log x).
  { intros A io x y r. unfold on_storage. destruct (io (v_storage x)) as [o w]. by intros [= _ <-]. }
  apply sbind_inv in H as (j & v2 & H2%Hs & H). apply sbind_inv in H as ([] & v3 & H3%Hs & H4%Hs). destruct H2, H3, H4. split; congruence.
Qed.

Lemma load_bmap_keeps c (v v' : Volume W) :
  load_bmap v = (Ok tt, v') -> v_sb v' = v_sb v /\ v_log v' = v_log v /\ (same_bytes c (v_storage v) -> same_bytes c (v_storage v')).
Proof.
  unfold load_bmap. pose proof (bam_new_keeps c (v_storage v)) as Hk. destruct (bam_new (v_storage v)) as [[b|e|] w]; [|done..]. intros [= <-]. done.
Qed.

(** Opening an image: the volume before and after its journal was recovered. *)
Lemma open_image (w w' : W) v :
  st_wf w -> open_from_storage w = (Ok v, w') ->
  0 <= pxd_address (s_ait2 (v_sb v)) /\ (replayed v = true -> contents (v_storage v) = contents w) /\
  exists u u', v_log u = v_log v /\ contents (v_storage u) = contents w /\ recover_journal u = (Ok tt, u') /\
    (st_wf (v_storage u') -> contents (v_storage v) = contents (v_storage u')).
Proof.
  intros Hw. unfold open_from_storage. intros (sb & w1 & H1 & H)%sbind_inv. unfold vol_read_super in H1. apply sbind_inv in H1 as (data & w2 & H1 & [= <- <-]).
  pose proof (read_bytes_keeps (contents w) SUPER1_OFF PSIZE ltac:(unfold SUPER1_OFF; lia) ltac:(unfold PSIZE; lia) w (conj Hw eq_refl)) as Hw2. rewrite H1 in Hw2. cbn [snd] in Hw2.
  apply sbind_inv in H as ([] & w3 & [= _ <-] & H). destruct (negb _); [done|]. apply sbind_inv in H as (w4 & w5 & [= <- <-] & H). apply sbind_inv in H as ([] & w6 & [= _ <-] & H).
  set (sb := parse_super data) in *. set (v0 := fresh_volume sb w2) in *.
  destruct ((let* _ := init_log in let* _ := recover_journal in load_bmap) v0) as [[[]|e|] v'] eqn:E; [|done..]. injection H as <- _.
  apply sbind_inv in E as ([] & u & Hi & E). apply sbind_inv in E as ([] & u' & Hr & Hl).
  destruct (init_log_keeps (contents w) sb v0 u eq_refl (super_pxd_nonneg data 72 ltac:(lia)) Hw2 Hi) as [Hsb [Hwu Hcu]].
  destruct (recover_keeps_super u u' Hr) as [Hsb' Hlog']. destruct (load_bmap_keeps (contents (v_storage u')) u' v' Hl) as (Hsb'' & Hlog'' & Hk).
  split; [|split].
  - rewrite Hsb'', Hsb', Hsb. apply (super_pxd_nonneg data 48). lia.
  - unfold replayed. rewrite Hlog'', Hlog'. intros Hred. assert (u' = u) as ->.
    { revert Hr. unfold recover_journal. destruct (v_log u) as [log|]; [rewrite Hred|]; by intros [= ->]. }
    destruct Hk as [_ Hc]; [by split|]. congruence.
  - exists u, u'. split_and!; [congruence|done|done|]. intros Hwu'. by destruct Hk as [_ Hc].
Qed.

(** C28: [jfsck --repair] changes an image only where it says so. Opening the
    image replays its journal first: a journal that is marked as replayed, or
    an image without one, leaves every byte of the image; otherwise the mounted
    image is what [recover_journal] makes of the given one. Then, when the check
    of the mounted image reports an error, the command exits with status 1 and
    writes nothing more; otherwise it exits with status 0, and if the superblock
    is marked dirty its four bytes of state become those of the clean state and
    no other byte of the mounted image changes. *)
Theorem repair_correct w0 w w' (v v1 : Volume W) report
  (Ho : open_device false w0 = (Ok tt, w)) (Hw : st_wf w) (Hv : open_from_storage w = (Ok v, w')) (Hwf : st_wf (v_storage v))
  (Hz : SUPER1_OFF + PSIZE <= zlen (contents (v_storage v))) (Hc : check_consistent v = (Ok report, v1)) :
  let r := cmd_repair open_device ([], w0) in
  let image := contents w in
  let mounted := contents (v_storage v) in
  let after := contents r.2.2 in
  (replayed v = true -> mounted = image) /\
  (exists u u', v_log u = v_log v /\ contents (v_storage u) = image /\ recover_journal u = (Ok tt, u') /\
     (st_wf (v_storage u') -> mounted = contents (v_storage u'))) /\
  if is_clean report then
    exit_code r.1 = 0 /\
    if sb_state (v_sb v) =? FM_DIRTY
    then zslice after (SUPER1_OFF + 40) (SUPER1_OFF + 44) = write_u32 FM_CLEAN /\ same_outside (SUPER1_OFF + 40) 4 mounted after
    else after = mounted
  else exit_code r.1 = 1 /\ after = mounted.
Proof.
  destruct (open_image w w' v Hw Hv) as (H0 & Hred & Hrec). cbv zeta. split; [done|]. split; [exact Hrec|].
  by eapply repair_mounted.
Qed.
End repair.

(** ** A formatted image *)

#[local] Existing Instance le_codec.
#[local] Existing Instance le_codec_spec.

Section formatted.
Context {L : Lru PageKey CachedPage} {LS : LruSpec PageKey CachedPage} {IOK : IoKind} {XF : XadFlags}.

(** The check of an image that was just made finds nothing. *)
Lemma fresh_check num_blocks : 4096 <= num_blocks < 2 ^ 32 ->
  exists w v w' (v' : Volume MemoryStorage), create_filesystem_with_blocks num_blocks = Ok w /\ st_wf w /\ open_from_storage w = (Ok v, w') /\ check_consistent v = (Ok report_default, v') /\
    st_wf (v_storage v) /\ replayed v = true /\ sb_state (v_sb v) = FM_CLEAN /\ zlen (contents (v_storage v)) = num_blocks * BLOCK_SIZE.
Proof.
  intros Hn. destruct (image_create_run num_blocks ltac:(lia)) as (w0 & Hm & Hw & Hc). destruct (build_image num_blocks w0 Hw Hc ltac:(lia)) as (w1 & page0 & page1 & Hb & Hi & Hz0 & Hbits).
  destruct (open_run (AA := memory_as_any) num_blocks page0 page1 Hn Hz0 (fun _ => eq_refl) w1 Hi) as (log & w2 & Ho & Hi2 & _ & _ & _ & Hmag & Hst).
  pose proof (opened_table num_blocks page0 page1 Hn log w2 Hi2) as Ht. destruct (fresh_inode_read num_blocks Hn _ Ht) as (d & b & off & w3 & Hr & Hd & _).
  destruct root_empty as (Hd' & Hdir & Htree & He). rewrite Hd' in Hd. apply Ok_inj in Hd as <-.
  exists w1, (opened num_blocks page0 log w2), w2. eexists. split; [unfold create_filesystem_with_blocks; rewrite Hm; cbn [obind]; by rewrite Hb|]. split; [apply Hi|]. split; [exact Ho|].
  split; [|exact (conj (ft_wf _ _ Ht) (conj (proj2 (Z.eqb_eq _ _) Hst) (conj (proj1 (proj2 (proj2 (proj2 (mkfs_super_fields num_blocks ltac:(lia)))))) (ft_size _ _ Ht))))].
  unfold check_consistent. change (v_log (opened num_blocks page0 log w2)) with (Some log). cbn beta iota. rewrite Hmag, Z.eqb_refl.
  assert (Hmg : sb_is_valid_magic (v_sb (opened num_blocks page0 log w2)) = true) by reflexivity. rewrite Hmg. change (v_root_ino _) with 18.
  unfold check_root, try_inode, sbind at 1. rewrite Hr. cbn [in_dinode]. rewrite Hdir, Htree. unfold sbind at 1, slift. rewrite He. reflexivity.
Qed.
End formatted.

Section witness.
#[local] Existing Instance no_eof.
#[local] Existing Instance sample_flags.

(** [repair_correct] on a formatted image of 4096 blocks: it is left as it is. *)
Lemma repair_correct_witness : exists w0 : MemoryStorage, create_filesystem_with_blocks 4096 = Ok w0 /\
  let r := cmd_repair (fun _ => sret tt) ([], w0) in exit_code r.1 = 0 /\ contents r.2.2 = contents w0.
Proof.
  destruct (fresh_check 4096) as (w & v & w' & v' & Hm & Hw0 & Ho & Hc & Hw & Hred & Hs & Hz); [lia|].
  pose proof (repair_correct (fun _ => sret tt) w w w' v v' report_default eq_refl Hw0 Ho Hw) as H. rewrite Hs, Hz in H.
  destruct (H ltac:(discriminate) Hc) as (H1 & _ & H3 & H4). exists w. split; [exact Hm|]. split; [exact H3|]. etransitivity; [exact H4|exact (H1 Hred)].
Defined.
End witness.
